(* ===== verification/_CoqProject ===== *)
-Q . S2P
Prelude.v
Inth.v
Timer.v
Ring.v
FreeRing.v
Uart.v
Sercomm.v
Cstr.v
Gate.v
L1ctlTap.v
DcchTap.v
L1ctlSock.v
Rf.v
FrontEnd.v
ApiRam.v
Elf.v
L1Ops.v
Trx.v
TrxPont.v
TrxApi.v
TrxL1.v
Lockstep.v
Grgsm.v
GrgsmSpec.v
GrgsmQueue.v
GrgsmLaws.v
GrgsmTrx.v
Comp128.v
SimFs.v
SimCard.v
Sim.v
SimSession.v
A5.v
Armio.v
Uwire.v
Spi.v
I2c.v
St7558.v
C54xAddr.v
C54xState.v
C54xDecode.v
C54xIrq.v
C54xAlu.v
C54xFlow.v
C54xPar.v
C54xMove.v
C54xExec.v
C54xArith.v
C54xRun.v
C54xSeq.v
Rif.v
RheaDma.v
DspPorts.v
DspBlock.v
DspQuirks.v
DspBoot.v
DspDma.v
Vsp.v
BspQueue.v
BspStore.v
BspStream.v
BspWindow.v
BspTrxd.v
