(* ===== verification/Prelude.v ===== *)
(** * qosmo: a verified model of the Calypso baseband platform

    The program is a fork of QEMU that emulates the TI Calypso, the baseband of
    the Motorola C123 and C139 phones, well enough to run GSM firmware.  An ARM
    runs the firmware; around it are an interrupt controller, timers, two UARTs,
    a SIM interface with an emulated card, the radio control chain (TPU, TSP,
    synthesizer, analog baseband, antenna switch, amplifier), displays and a
    keypad; a DSP or an external receiver does the signal processing; and the
    host side talks to the firmware over sercomm, an HDLC-like framing on the
    modem UART.  This library models the devices the fork adds and the host-side
    protocol code, translated from the C sources under [src/], and proves what
    they promise.

    ** Conventions

    A device is a record with the fields of its C structure; every C function
    is a definition with the name it has in the source, from state to state.
    Integers are [Z]; [u8], [u16], [u32] write out the truncation of C
    assignments, and bit operations are those of [Z].  A C array is a list, read
    and written with [rd] and [wr]; each component's invariant gives the bounds
    of the accesses it makes.  A QEMU interrupt line is a boolean of the state,
    a QEMU timer the deadline it is armed for, the clock an argument.  What a
    device hands to code outside the program (character back end, sockets,
    shared memory, layer 1) is an output log of the state; what such code
    decides (whether a file can be mapped, what [recv] returns) is an argument
    or a parameter.  [s <| f := v |>] is the assignment [s->f = v].

    A component's operations are gathered in a type [op] with a function [step];
    a theorem about [run step init ops] is about every reachable state, whatever
    the order of register accesses, deliveries and timer expiries.

    ** Files, and what their theorems show

    - [Prelude] (this file): record updates, integers, arrays, bit lemmas, runs
      and their invariants.  [Ring]: a ring buffer refines a bounded list;
      [FreeRing]: the same for rings indexed by free-running counters.  [Cstr]: C
      strings.
    - [Inth] ([hw/intc/calypso_inth.c]): the arbitration shows the pending source
      of least priority, round robin among equals; a waiting source is served
      within a bounded number of services when no source rises anew, and can
      starve when one does; edge sources are not lost; no source can reach the
      FIQ line.
    - [Timer] ([hw/timer/calypso_timer.c]): the count is the function of elapsed
      time it should be, and a running timer always has its interrupt scheduled.
    - [Uart] ([hw/char/calypso_uart.c]): the receive ring refines a queue, no
      interrupt request is lost, the flow control is sufficient, the boot-loader
      stub completes a download.
    - [Sercomm]: the framing, the interface [Deframer] that every decoder of the
      program implements, and its round trip.  Its four implementations:
      [Gate] ([sercomm_gate.c]): re-framing is transparent for the firmware, the
      TRXC responder's buffer arithmetic.  [L1ctlTap]
      ([l1-grgsm/calypso_l1ctl_tap.c]) and [DcchTap] ([calypso_dcch_tap.c]): each
      change of the dedicated channel is published once and in order, when a
      release is detected and when it is missed.  [L1ctlSock] ([l1ctl_sock.c]):
      delivery does not depend on how the stream is cut into reads, and frames
      reach the mobile unmodified.
    - [Rf] ([calypso_trf6151.c], [calypso_tsp.c], [calypso_tpu.c]): every TPU
      program ends, a program that tunes an ARFCN leaves the synthesizer on it
      and publishes it, carrier words decode back to their ARFCN.  [FrontEnd]
      ([calypso_iota.c], [calypso_asm4532.c], [calypso_rf3166.c]): the receive
      windows are a queue per timeslot, the amplifier's fault counter is exact.
    - The seam between platform and layer 1.  [ApiRam] ([calypso_api.h]): the
      shared window and its page layouts.  [Elf] ([calypso_l1_dispatch.c]): the
      symbol lookup in the firmware image against a reference search, and the
      offsets for which it reads outside the image.  [L1Ops]
      ([calypso_l1_ops.h]): the table of functions of a layer 1 and the laws the
      platform relies on.
    - The transceiver ([calypso_trx.c]).  [Trx]: state and environment.
      [TrxPont]: the TDMA tick and the bridge to the external DSP; frames are
      complete and consecutive, each phase ends.  [TrxApi]: the register windows;
      in lock-step every run is a sequence of TICK, answer of the DSP, frame
      interrupt and GO (without the GO when the answer ends the frame), and the
      request reference read in an assignment is the one of the confirmed
      attempt.  [TrxL1]: what the transceiver keeps with any layer 1 that obeys
      the laws.  [Lockstep]: with the interrupt controller, GO never overtakes
      the ARM's end of service unless the interrupt was masked or the wait given
      up.
    - The gr-gsm layer 1 ([l1-grgsm/]).  [Grgsm]: state and operations.
      [GrgsmSpec]: block layouts, synchronisation word, round trips.
      [GrgsmQueue]: the SDCCH ring refines a queue with expiry, speech stays in
      order, the published key.  [GrgsmLaws]: it obeys the laws of [L1Ops].
      [GrgsmTrx]: the machine with this layer 1 is safe, and an immediate
      assignment goes from the datagram to the words the ARM reads, whatever the
      machine does in the frames between.
    - [Comp128] ([calypso_comp128.c]): the rounds equal a parallel reference
      definition, all look-ups are in bounds, the shape of SRES and Kc.
    - The SIM ([calypso_sim.c]) in four files.  [SimFs]: the file table, the IMSI
      round trip.  [SimCard]: the commands, as functions of the card.  [Sim]: the
      registers, the APDU assembler, the ring, the deferred responses and the
      timers, with the invariant of all of them and when the interrupt line is
      exact.  [SimSession]: for every
      interleaving of reads and timer expiries with the bytes of a session, the
      interface delivers exactly the card's replies; from it the round trips of
      records and binary files, selection and authentication as the firmware
      sees them, and what a card reset leaves behind.
    - [A5] ([l1-dsp/calypso_a5.c]): the key, frame number and key stream ports of
      the ciphering coprocessor, for any cipher.
    - [Armio] ([calypso_armio.c]): the keypad scan, its interrupt and the taps.
    - [Uwire] ([calypso_uwire.c]): drawing a window of the C139 display.
    - [Spi] ([hw/ssi/calypso_spi.c]): the analog baseband's registers refine a
      paged register file.
    - [I2c] ([hw/i2c/core.c], [calypso_i2c_ctrl.c]): the bus and the controller,
      against the interface [I2CSlaveClass] of a slave.  [St7558]
      ([calypso_st7558.c]): the C123 display implements it; drawing through the
      controller.
    - The TMS320C54x DSP ([l1-dsp/]) in twelve files.  [C54xAddr]: sign extension,
      saturation, circular and bit-reversed address arithmetic.  [C54xState]
      ([calypso_c54x.h], [c54x_mem.c]): the processor state, data, register, API
      and program memory, read after write, and the typing invariant [wf].
      [C54xDecode] ([c54x_decode.c]): operand resolution, the streams circular and
      bit-reversed addressing produce, the condition codes.  [C54xIrq]
      ([calypso_c54x.c], [c54x_irq.c]): interrupt entry from running code and from
      IDLE, priority, latching, and the returns that undo an entry.  The instructions ([c54x_exec.c]), each a
      function of the state that keeps [wf]: [C54xAlu], the arithmetic they share;
      [C54xFlow], immediates, branches, calls, returns and repeats; [C54xPar], the
      dual-operand and parallel instructions (groups A to E); [C54xMove], memory
      moves, compares, counting branches and stores (groups 6 to 9); [C54xExec],
      the other groups and [c54x_exec_one].  [C54xArith]: what sequences of them compute: conditional
      subtraction divides, EXP and NORM normalise, rotations are inverse, MAC
      accumulates, and where it does not.  [C54xRun] ([c54x_run] in
      [calypso_c54x.c]): the fetch-execute loop with repeats, delay slots,
      saturation and the timer; every run is well typed, the timer period, a
      repeated SUBC divides, and two ways an interrupt entry goes wrong.  [C54xSeq]:
      calls return where they should, with their delay slots run once.
    - [Rif] ([l1-dsp/calypso_rif.c]): the radio interface refines a queue of words.
    - [RheaDma] ([l1-dsp/calypso_rhea_dma.c]): the DMA controller, and receiver,
      controller and DSP together: the words of the radio pass through the two
      pages once and in order, up to the acknowledgement of their completion; the
      one-shot window.
    - [DspPorts] ([c54x_exec.c], [c54x_run], [calypso_xio.c]): the DSP with the
      devices behind its ports (ciphering, radio interface, DMA controller, XIO
      windows) and the branches on TC, which depend on the record the loop keeps
      of the instructions before.  This machine executes every opcode, and every
      run is well typed.  [DspBlock]: what a single repeat computes, for any
      repeated instruction with a loop invariant; from it table loads, block
      input from the receiver and the inner product of two vectors.  [DspQuirks]:
      where the core departs from what its comments describe.
    - [DspBoot] ([c54x_init], the loaders and [c54x_reset] of [calypso_c54x.c]):
      the image of the DSP; what a boot from files leaves in the three views of
      the overlay and in the boot stubs, calls that land on the boot stubs return, and what a reset
      forgets.
    - [DspDma] ([l1-dsp/calypso_dma.c]): the on-chip DMA; a programmed transfer is
      the block copy, and what a bad count does.
    - [Vsp] ([l1-dsp/calypso_vsp.c]): the voice port; the rate never drifts, the
      microphone samples reach the DSP in order with a bounded lag and the words it
      leaves in its transmit register the loudspeaker ring, for any DSP.
    - The baseband signal path ([l1-dsp/calypso_bsp.c]), from the datagrams of the
      bridge to the receiver of the DSP and back, in five files.  [BspQueue]: the
      burst queues refine a bounded store of bursts by frame number, across the
      wrap of the hyperframe; replay reads back what was dumped.  [BspStore]: the
      stores indexed by the frame number, against one interface, and the offset
      between ticks and frames with its repair.  [BspStream]: the service of a
      tick; with [RheaDma], the frames of the base station reach the pages of
      the DSP complete and in order.  [BspWindow]: a synchronisation
      burst in a one-shot window sets the clock, also when it waited a tick.
      [BspTrxd]: the datagrams and the stores they fill, the uplink datagram, the
      access burst, and the uplink bursts in the result pages.

    [exec_op] of [C54xExec] gives [None] for the instructions that need the
    devices or the record, and for no other ([exec_op_none]); [machine_exec] of
    [DspPorts] is total.

    ** Fuel

    [seq_loop] of the TPU takes as fuel the number of words left plus one, and
    [parse_loop] of the L1CTL socket the number of bytes in its buffer; both are
    proved to end before their fuel.  The bounded loops of the DSP take their own
    bound: 16 bits for [circ_bits] and [ctz_from], 39 for [exp_loop], the FIFO depth
    for [refill_loop], the words asked for in [drain_loop], the 64 pages of the
    source's own guard in [rx_pages].  Emptying a burst queue has the number of its
    slots as fuel and is proved to end ([bsp_queue_refines_store]); the loader of
    replays has the length of the file.  So no theorem depends on a loop that
    stopped early.

    ** Not modelled

    - Logging, debug traces, QEMU object registration, the wiring of the board
      ([calypso_mb.c], [calypso_soc.c]), the drawing on the QEMU console.
    - The configuration reader of the SIM but for the effect of its IMSI line.
    - Of the DSP core: the observation probes, the cycle counts, and the
      workaround switches that are off by default; the switches that are on by
      default are part of the definitions.
    - Of the baseband signal path: the modulators, the rotation of the AFC and the
      AGC, which compute in floating point and are the interface [Radio] of
      [BspStream]; the switches that are off by default (realistic air, second
      chance, catch-up, alignment on BCCH or CCCH), the direct mode without a
      stream, the probes and the recordings.
    - The mailbox and test-bench files of [l1-dsp/].
    - The rest of QEMU, which is upstream code: CPU, memory, event loop. *)
From Stdlib Require Export ZArith Lia Bool.
From stdpp Require Export base tactics list numbers option.

Declare Scope calypso_scope.
Delimit Scope calypso_scope with calypso.
#[global] Open Scope Z_scope.
#[global] Open Scope calypso_scope.

(** ** Functional update of record fields

    A device record [R] declares the eta-expansion of its constructor as an
    [Settable] instance; the setter of a field [p] is then computed by
    abstracting [p] in that eta-expansion.  [s <| p := v |>] is the C
    assignment [s->p = v]. *)
Class Settable (R : Type) := eta_of : R → R.

Class Setter {R T : Type} (p : R → T) := update_field : (T → T) → R → R.
Arguments update_field {R T} p {_} f r.

Ltac derive_setter :=
  match goal with
  | |- @Setter ?R ?T ?p =>
      let e := eval hnf in (@eta_of R _) in
      match eval pattern p in e with
      | ?abstracted _ =>
          let body := eval cbv beta in (fun f : T → T => abstracted (fun r => f (p r))) in
          exact body
      end
  end.

#[export] Hint Extern 1 (Setter _) => derive_setter : typeclass_instances.

#[warnings="-postfix-notation-not-level-1"]
Notation "r <| p := v |>" := (update_field p (λ _, v) r)
  (at level 12, p at level 200, left associativity) : calypso_scope.

(** ** Machine integers

    Every C integer is a [Z]; the unsigned truncations of the C conversions
    are written where the source has them. *)
Definition u8 (x : Z) : Z := x mod 256.
Definition u16 (x : Z) : Z := x mod 65536.
Definition u32 (x : Z) : Z := x mod 4294967296.
Definition u64 (x : Z) : Z := x mod 18446744073709551616.

(** Reinterpretation as a signed 32-bit [int]. *)
Definition i32 (x : Z) : Z := (x + 2147483648) mod 4294967296 - 2147483648.

(** The C condition [x & m]. *)
Definition has (x m : Z) : bool := negb (Z.land x m =? 0).

(** [x &= ~m] on an unsigned word. *)
Definition clr (x m : Z) : Z := Z.ldiff x m.

Definition is_u (w x : Z) : Prop := 0 ≤ x < 2 ^ w.

(** ** Arrays: a C array is a list; [rd]/[wr] are [a[i]] and [a[i] = v] for an
    index inside the array.  Accesses out of bounds are undefined behaviour in
    C; every component proves the bounds of the accesses it makes. *)
Definition rd (a : list Z) (i : Z) : Z := default 0 (a !! Z.to_nat i).
Definition wr (a : list Z) (i v : Z) : list Z := <[Z.to_nat i := v]> a.

Definition zlen {A} (a : list A) : Z := Z.of_nat (length a).

(** [memcpy(b, &x, 4)] of a [uint32_t] on the little-endian host. *)
Definition le32 (x : Z) : list Z :=
  [u8 x; u8 (x / 256); u8 (x / 65536); u8 (x / 16777216)].

(** [ldl_be_p(a + i)]: a big-endian 32-bit load. *)
Definition ldl_be_p (a : list Z) (i : Z) : Z :=
  rd a i * 16777216 + rd a (i + 1) * 65536 + rd a (i + 2) * 256 + rd a (i + 3).

(** [zseq a n] is [a, a+1, ..., a+n-1]: the values of a C loop counter. *)
Definition zseq (a : Z) (n : nat) : list Z := (λ k, a + Z.of_nat k) <$> seq 0 n.

(** ** Tactics and hints *)
Create HintDb calypso.

(** [mlia] is [lia] after the elimination of [/] and [mod] by constants. *)
Ltac mlia := Z.to_euclidean_division_equations; lia.

(** Split the boolean tests of a C condition into propositions. *)
Ltac bool_prop :=
  repeat match goal with
  | H : (_ && _)%bool = true |- _ => apply andb_true_iff in H; destruct H
  | H : (_ || _)%bool = false |- _ => apply orb_false_iff in H; destruct H
  | H : negb _ = true |- _ => apply negb_true_iff in H
  | H : negb _ = false |- _ => apply negb_false_iff in H
  | H : (_ =? _) = true |- _ => apply Z.eqb_eq in H
  | H : (_ =? _) = false |- _ => apply Z.eqb_neq in H
  | H : (_ <? _) = true |- _ => apply Z.ltb_lt in H
  | H : (_ <? _) = false |- _ => apply Z.ltb_ge in H
  | H : (_ <=? _) = true |- _ => apply Z.leb_le in H
  | H : (_ <=? _) = false |- _ => apply Z.leb_gt in H
  end.

(** Case analysis on the test of the outermost conditional of the goal. *)
Ltac case_if :=
  match goal with
  | |- context [if ?b then _ else _] =>
      let E := fresh "E" in destruct b eqn:E
  end.

Ltac case_ifs := repeat (case_if; bool_prop; try discriminate).

(** Reduce the projections of updated records. *)
Ltac fields := cbn [update_field] in *.

(** ** Bits *)
Lemma u8_range x : 0 ≤ u8 x < 256.
Proof. apply Z.mod_pos_bound; lia. Qed.
Lemma u16_range x : 0 ≤ u16 x < 65536.
Proof. apply Z.mod_pos_bound; lia. Qed.
Lemma u32_range x : 0 ≤ u32 x < 4294967296.
Proof. apply Z.mod_pos_bound; lia. Qed.
Lemma u64_range x : 0 ≤ u64 x < 18446744073709551616.
Proof. apply Z.mod_pos_bound; lia. Qed.
#[export] Hint Resolve u8_range u16_range u32_range u64_range : calypso.

Lemma u8_small x : 0 ≤ x < 256 → u8 x = x.
Proof. apply Z.mod_small. Qed.
Lemma u16_small x : 0 ≤ x < 65536 → u16 x = x.
Proof. apply Z.mod_small. Qed.
Lemma u32_small x : 0 ≤ x < 4294967296 → u32 x = x.
Proof. apply Z.mod_small. Qed.

(** A bit above the width of a word is clear. *)
Lemma testbit_high w x i : 0 ≤ x < 2 ^ w → w ≤ i → Z.testbit x i = false.
Proof.
  intros Hx Hi. destruct (Z.lt_ge_cases w 0) as [Hw|Hw].
  - rewrite Z.pow_neg_r in Hx by done. lia.
  - eapply Z.bounded_iff_bits_nonneg; [exact Hw| |apply Hx|exact Hi]. lia.
Qed.

Lemma land_range a m : 0 ≤ m → 0 ≤ Z.land a m ≤ m.
Proof.
  intros Hm. split; [apply Z.land_nonneg; auto|].
  destruct (Z.lt_ge_cases m (Z.land a m)) as [C|C]; [exfalso|lia].
  assert (Z.ldiff (Z.land a m) m = 0) as E.
  { apply Z.bits_inj'. intros n _. rewrite Z.ldiff_spec, Z.land_spec, Z.bits_0.
    destruct (Z.testbit a n), (Z.testbit m n); done. }
  apply Z.ldiff_le in E; [lia|done].
Qed.

Lemma lor_range w a b : 0 ≤ w → 0 ≤ a < 2 ^ w → 0 ≤ b < 2 ^ w → 0 ≤ Z.lor a b < 2 ^ w.
Proof.
  intros Hw Ha Hb. assert (0 ≤ Z.lor a b) by (apply Z.lor_nonneg; lia).
  split; [done|]. apply Z.bounded_iff_bits_nonneg; [lia..|].
  intros l Hl. rewrite Z.lor_spec, !(testbit_high w); done.
Qed.

Lemma lxor_range w a b : 0 ≤ w → 0 ≤ a < 2 ^ w → 0 ≤ b < 2 ^ w → 0 ≤ Z.lxor a b < 2 ^ w.
Proof.
  intros Hw Ha Hb. assert (0 ≤ Z.lxor a b) by (apply Z.lxor_nonneg; lia).
  split; [done|]. apply Z.bounded_iff_bits_nonneg; [lia..|].
  intros l Hl. rewrite Z.lxor_spec, !(testbit_high w); done.
Qed.

Lemma ldiff_range w a b : 0 ≤ w → 0 ≤ a < 2 ^ w → 0 ≤ Z.ldiff a b < 2 ^ w.
Proof.
  intros Hw Ha. assert (0 ≤ Z.ldiff a b) by (apply Z.ldiff_nonneg; lia).
  split; [done|]. apply Z.bounded_iff_bits_nonneg; [lia..|].
  intros l Hl. rewrite Z.ldiff_spec, !(testbit_high w a); done.
Qed.

(** The single-bit mask tests of the C code are [Z.testbit]. *)
Lemma has_bit x k : 0 ≤ k → has x (Z.shiftl 1 k) = Z.testbit x k.
Proof.
  intros Hk. unfold has.
  assert (Z.land x (Z.shiftl 1 k) = if Z.testbit x k then Z.shiftl 1 k else 0) as ->.
  { apply Z.bits_inj'. intros n Hn. rewrite Z.land_spec, Z.shiftl_1_l, Z.pow2_bits_eqb by lia.
    destruct (Z.eqb_spec k n) as [<-|Hne].
    - destruct (Z.testbit x k); [by rewrite Z.pow2_bits_true|by rewrite Z.bits_0].
    - rewrite andb_false_r. destruct (Z.testbit x k); [by rewrite Z.pow2_bits_false|by rewrite Z.bits_0]. }
  rewrite Z.shiftl_1_l. pose proof (Z.pow_pos_nonneg 2 k).
  destruct (Z.testbit x k); [|done]. apply negb_true_iff, Z.eqb_neq. lia.
Qed.

Lemma has_lor a b m : has (Z.lor a b) m = has a m || has b m.
Proof.
  unfold has. rewrite Z.land_lor_distr_l.
  destruct (Z.eqb_spec (Z.land a m) 0) as [->|Ha]; cbn [negb orb].
  { by rewrite Z.lor_0_l. }
  destruct (Z.eqb_spec (Z.lor (Z.land a m) (Z.land b m)) 0) as [E|]; [|done].
  apply Z.lor_eq_0_iff in E. lia.
Qed.

Lemma has_clr_same a m : has (clr a m) m = false.
Proof.
  unfold has, clr. rewrite negb_false_iff, Z.eqb_eq. apply Z.bits_inj'. intros n _.
  rewrite Z.land_spec, Z.ldiff_spec, Z.bits_0. destruct (Z.testbit a n), (Z.testbit m n); done.
Qed.

Lemma has_clr_disjoint a b m : Z.land b m = 0 → has (clr a b) m = has a m.
Proof.
  intros E. unfold has, clr. do 2 f_equal. apply Z.bits_inj'. intros n _.
  rewrite !Z.land_spec, Z.ldiff_spec. apply (f_equal (λ z, Z.testbit z n)) in E.
  rewrite Z.land_spec, Z.bits_0 in E. destruct (Z.testbit a n), (Z.testbit b n), (Z.testbit m n); done.
Qed.

(** [(a << k) | b] with [b] below the shift is [a * 2^k + b]. *)
Lemma lor_shiftl_add a b k : 0 ≤ k → 0 ≤ b < 2 ^ k → Z.lor (Z.shiftl a k) b = a * 2 ^ k + b.
Proof.
  intros Hk Hb. rewrite <- Z.shiftl_mul_pow2 by done.
  assert (Z.land (Z.shiftl a k) b = 0) as E.
  { apply Z.bits_inj'. intros m Hm. rewrite Z.land_spec, Z.bits_0.
    destruct (Z.lt_ge_cases m k).
    - by rewrite Z.shiftl_spec_low.
    - by rewrite (testbit_high k b), andb_false_r. }
  rewrite Z.add_nocarry_lxor by done. symmetry. by apply Z.lxor_lor.
Qed.

Lemma testbit_setbit x k n : 0 ≤ k → 0 ≤ n →
  Z.testbit (Z.lor x (Z.shiftl 1 k)) n = Z.testbit x n || (n =? k).
Proof.
  intros. rewrite Z.lor_spec, Z.shiftl_1_l, Z.pow2_bits_eqb, Z.eqb_sym by lia. done.
Qed.

Lemma testbit_clrbit x k n : 0 ≤ k → 0 ≤ n →
  Z.testbit (clr x (Z.shiftl 1 k)) n = Z.testbit x n && negb (n =? k).
Proof.
  intros. unfold clr. rewrite Z.ldiff_spec, Z.shiftl_1_l, Z.pow2_bits_eqb, Z.eqb_sym by lia. done.
Qed.

(** ** Arrays *)
Lemma zlen_wr a i v : zlen (wr a i v) = zlen a.
Proof. unfold zlen, wr. by rewrite length_insert. Qed.

Lemma length_wr a i v : length (wr a i v) = length a.
Proof. apply length_insert. Qed.

Lemma rd_wr_eq a i v : 0 ≤ i < zlen a → rd (wr a i v) i = v.
Proof. unfold zlen, rd, wr. intros. rewrite list_lookup_insert_eq; [done|lia]. Qed.

Lemma rd_wr_ne a i j v : 0 ≤ i → 0 ≤ j → i ≠ j → rd (wr a i v) j = rd a j.
Proof. unfold rd, wr. intros. rewrite list_lookup_insert_ne; [done|lia]. Qed.

Lemma rd_wr a i j v : 0 ≤ i < zlen a → 0 ≤ j →
  rd (wr a i v) j = if j =? i then v else rd a j.
Proof.
  intros. destruct (Z.eqb_spec j i) as [->|]; [by apply rd_wr_eq|].
  apply rd_wr_ne; lia.
Qed.

Lemma rd_Forall (P : Z → Prop) a i : P 0 → Forall P a → P (rd a i).
Proof.
  intros H0 Ha. unfold rd. destruct (a !! Z.to_nat i) eqn:E; [|done].
  eapply Forall_lookup_1; eauto.
Qed.

Lemma wr_Forall (P : Z → Prop) a i v : P v → Forall P a → Forall P (wr a i v).
Proof. intros. by apply Forall_insert. Qed.
#[export] Hint Resolve wr_Forall : calypso.

Lemma rd_app_l a b i : 0 ≤ i < zlen a → rd (a ++ b) i = rd a i.
Proof. unfold zlen, rd. intros. rewrite lookup_app_l; [done|lia]. Qed.

Lemma rd_app_r a b i : 0 ≤ i → rd (a ++ b) (zlen a + i) = rd b i.
Proof.
  unfold zlen, rd. intros. rewrite lookup_app_r by lia.
  by replace (Z.to_nat (Z.of_nat (length a) + i) - length a)%nat with (Z.to_nat i) by lia.
Qed.

Lemma elem_of_zseq x a n : x ∈ zseq a n ↔ a ≤ x < a + Z.of_nat n.
Proof.
  unfold zseq. rewrite list_elem_of_fmap. setoid_rewrite elem_of_seq. split.
  - intros (k & -> & Hk). lia.
  - intros Hx. exists (Z.to_nat (x - a)). lia.
Qed.

Lemma zseq_S a n : zseq a (S n) = zseq a n ++ [a + Z.of_nat n].
Proof. unfold zseq. rewrite seq_S, fmap_app. done. Qed.

Lemma zseq_cons a n : zseq a (S n) = a :: zseq (a + 1) n.
Proof.
  unfold zseq. cbn [seq fmap list_fmap]. f_equal; [lia|].
  rewrite <- seq_shift, <- list_fmap_compose. apply list_fmap_ext. intros i x _. cbn. lia.
Qed.

Lemma length_zseq a n : length (zseq a n) = n.
Proof. unfold zseq. by rewrite length_fmap, length_seq. Qed.

Lemma lookup_zseq a n k : (k < n)%nat → zseq a n !! k = Some (a + Z.of_nat k).
Proof.
  intros. unfold zseq. rewrite list_lookup_fmap, lookup_seq_lt by done. done.
Qed.

Lemma le32_value x :
  0 ≤ x < 4294967296 →
  u8 (x / 16777216) * 16777216 + u8 (x / 65536) * 65536 + u8 (x / 256) * 256 + u8 x = x.
Proof. unfold u8. mlia. Qed.

(** ** Finite case analysis of an integer in a range of constants *)
Lemma range_split (P : Z → Prop) n x :
  0 ≤ x < Z.of_nat n → Forall P (zseq 0 n) → P x.
Proof.
  intros Hx HP. eapply (Forall_lookup_1 _ _ (Z.to_nat x)); [exact HP|].
  rewrite lookup_zseq by lia. f_equal. lia.
Qed.

(** The same for a boolean test, checked by evaluation. *)
Lemma range_check (p : Z → bool) n x :
  0 ≤ x < Z.of_nat n → forallb p (zseq 0 n) = true → p x = true.
Proof.
  intros Hx Hp. rewrite forallb_forall in Hp. apply Hp.
  apply list_elem_of_In, elem_of_zseq. lia.
Qed.

(** Reduce [Forall P (zseq a n)] with constant bounds to its instances. *)
Ltac forall_cases :=
  match goal with
  | |- Forall _ ?l =>
      let l' := eval vm_compute in l in
      change l with l'; repeat apply Forall_cons_2; try apply Forall_nil_2
  end.

(** ** Runs of a deterministic machine over a list of inputs *)
Definition run {S I} (step : S → I → S) (s : S) (l : list I) : S := foldl step s l.

Lemma run_app {S I} (step : S → I → S) s l1 l2 :
  run step s (l1 ++ l2) = run step (run step s l1) l2.
Proof. apply foldl_app. Qed.

(** An invariant of every step holds after every run. *)
Lemma run_invariant {S I} (step : S → I → S) (ok : I → Prop) (Inv : S → Prop) :
  (∀ s i, Inv s → ok i → Inv (step s i)) →
  ∀ l s, Inv s → Forall ok l → Inv (run step s l).
Proof.
  intros Hstep l. induction l as [|i l IH]; intros s Hs Hl; [done|].
  inversion Hl; subst. cbn. apply IH; auto.
Qed.

(** ** Sequences in which each element is related to the one before *)
Definition lastd {A} (d : A) (l : list A) : A := foldl (λ _ x, x) d l.

Fixpoint chain {A} (R : A → A → Prop) (d : A) (l : list A) : Prop :=
  match l with
  | [] => True
  | x :: l => R d x ∧ chain R x l
  end.

Lemma lastd_snoc {A} (d : A) l x : lastd d (l ++ [x]) = x.
Proof. unfold lastd. by rewrite foldl_app. Qed.

Lemma lastd_cons {A} (d x : A) l : lastd d (x :: l) = lastd x l.
Proof. done. Qed.

Lemma chain_snoc {A} (R : A → A → Prop) d l x :
  chain R d l → R (lastd d l) x → chain R d (l ++ [x]).
Proof.
  revert d. induction l as [|y l IH]; intros d; cbn; [done|]. intros [? ?] ?. auto.
Qed.
