(* ===== verification/Inth.v ===== *)
(** * The INTH interrupt controller ([hw/intc/calypso_inth.c])

    The controller latches 32 sources in [levels], gates them with [mask] and
    hands the ARM the number of the best pending source: the smallest priority
    field of its ILR register, ties broken by the round-robin pointer
    [rr_start].  The two output lines towards the ARM ([parent_irq],
    [parent_fiq]) are booleans of the state; a register access or a change of
    an input line is one operation. *)
From S2P Require Import Prelude.

Module INTH.
Create HintDb inth.
Create Rewrite HintDb inth.

Definition NUM_IRQS : Z := 32.

Record CalypsoINTHState := mkINTH {
  ilr : list Z;
  ith_v : Z;
  fiq_v : Z;
  levels : Z;
  mask : Z;
  rr_start : Z;
  last_num : Z;
  frame_eoi : Z;
  parent_irq : bool;
  parent_fiq : bool
}.

#[export] Instance inth_eta : Settable CalypsoINTHState := λ s,
  mkINTH (ilr s) (ith_v s) (fiq_v s) (levels s) (mask s) (rr_start s) (last_num s)
         (frame_eoi s) (parent_irq s) (parent_fiq s).

(** The running best candidate of the arbitration loop: source, priority. *)
Definition best : Type := Z * Z.

Definition no_best : best := (-1, 0x7F).

Definition prio_of (s : CalypsoINTHState) (i : Z) : Z := Z.land (rd (ilr s) i) 0x1F.

Definition is_fiq (s : CalypsoINTHState) (i : Z) : bool :=
  Z.land (Z.shiftr (rd (ilr s) i) 8) 1 =? 1.

(** One iteration of the loop of [calypso_inth_update]: [acc] is
    (best_irq, best_fiq). *)
Definition scan_step (s : CalypsoINTHState) (active : Z) (acc : best * best) (j : Z) : best * best :=
  let '(birq, bfiq) := acc in
  let i := (rr_start s + j) mod NUM_IRQS in
  if negb (has active (Z.shiftl 1 i)) then acc
  else
    let prio := prio_of s i in
    if is_fiq s i then
      if prio <? snd bfiq then (birq, (i, prio)) else acc
    else
      if prio <? snd birq then ((i, prio), bfiq) else acc.

Definition scan (s : CalypsoINTHState) (n : nat) : best * best :=
  foldl (scan_step s (Z.ldiff (levels s) (mask s))) (no_best, no_best) (zseq 0 n).

Definition calypso_inth_update (s : CalypsoINTHState) : CalypsoINTHState :=
  let '((best_irq, _), (best_fiq, _)) := scan s 32 in
  let s1 :=
    if 0 <=? best_irq then s <| ith_v := best_irq |> <| parent_irq := true |>
    else (if best_fiq <? 0 then s <| ith_v := 0 |> else s) <| parent_irq := false |> in
  if 0 <=? best_fiq then s1 <| fiq_v := best_fiq |> <| parent_fiq := true |>
  else s1 <| parent_fiq := false |>.

(** Sources 4, 5 and 15 are latched when their ILR selects the edge mode. *)
Definition edge_latched (s : CalypsoINTHState) (irq : Z) : bool :=
  has (rd (ilr s) irq) 0x2 && ((irq =? 4) || (irq =? 5) || (irq =? 15)).

Definition calypso_inth_set_irq (s : CalypsoINTHState) (irq : Z) (level : bool) : CalypsoINTHState :=
  let s1 :=
    if level then s <| levels := Z.lor (levels s) (Z.shiftl 1 irq) |>
    else if edge_latched s irq then s
    else s <| levels := clr (levels s) (Z.shiftl 1 irq) |> in
  calypso_inth_update s1.

(** The acknowledgement a read of IRQ_NUM or FIQ_NUM gives to source [num]. *)
Definition acked_by_read (s : CalypsoINTHState) (num : Z) : bool :=
  (num =? 4) || (num =? 5) || (num =? 15) || has (rd (ilr s) num) 0x2.

Definition ack_num (s : CalypsoINTHState) (num : Z) : CalypsoINTHState :=
  if acked_by_read s num then s <| levels := clr (levels s) (Z.shiftl 1 num) |> else s.

Definition calypso_inth_read (s : CalypsoINTHState) (offset : Z) : Z * CalypsoINTHState :=
  if offset =? 0x00 then (Z.land (levels s) 0xFFFF, s)
  else if offset =? 0x02 then (Z.land (Z.shiftr (levels s) 16) 0xFFFF, s)
  else if offset =? 0x08 then (Z.land (mask s) 0xFFFF, s)
  else if offset =? 0x0a then (Z.land (Z.shiftr (mask s) 16) 0xFFFF, s)
  else if (offset =? 0x10) || (offset =? 0x80) then
    let num := ith_v s in
    (num, calypso_inth_update (ack_num (s <| last_num := num |>) num))
  else if (offset =? 0x12) || (offset =? 0x82) then
    let num := fiq_v s in
    (num, calypso_inth_update (ack_num s num))
  else if (offset =? 0x14) || (offset =? 0x84) then (0, s)
  else if (0x20 <=? offset) && (offset <? 0x60) then (rd (ilr s) ((offset - 0x20) / 2), s)
  else (0, s).

(** An ILR write keeps seven bits; sources 7 and 18 inherit the priority of
    source 4. *)
Definition write_ilr (s : CalypsoINTHState) (idx value : Z) : CalypsoINTHState :=
  let s1 := s <| ilr := wr (ilr s) idx (Z.land value 0x7F) |> in
  let inherit (s : CalypsoINTHState) (k : Z) :=
    s <| ilr := wr (ilr s) k (Z.lor (clr (rd (ilr s) k) 0x1F) (Z.land (rd (ilr s) 4) 0x1F)) |> in
  let s2 := if idx =? 7 then inherit s1 7 else s1 in
  if idx =? 18 then inherit s2 18 else s2.

Definition calypso_inth_write (s : CalypsoINTHState) (offset value : Z) : CalypsoINTHState :=
  if offset =? 0x00 then
    calypso_inth_update
      (s <| levels := Z.land (levels s) (Z.lor 0xFFFF0000 (Z.land value 0xFFFF)) |>)
  else if offset =? 0x02 then
    calypso_inth_update
      (s <| levels := Z.land (levels s) (Z.lor 0x0000FFFF (Z.shiftl (Z.land value 0xFFFF) 16)) |>)
  else if offset =? 0x08 then
    calypso_inth_update
      (s <| mask := Z.lor (Z.land (mask s) 0xFFFF0000) (Z.land value 0xFFFF) |>)
  else if offset =? 0x0a then
    calypso_inth_update
      (s <| mask := Z.lor (Z.land (mask s) 0x0000FFFF) (Z.shiftl (Z.land value 0xFFFF) 16) |>)
  else if (offset =? 0x14) || (offset =? 0x84) then
    let svc := ith_v s in
    let s1 := if (0 <? svc) || has (levels s) 1
              then s <| rr_start := (svc + 1) mod NUM_IRQS |> else s in
    let s2 := if has value 1 && (last_num s1 =? 4)
              then s1 <| frame_eoi := u64 (frame_eoi s1 + 1) |> else s1 in
    calypso_inth_update s2
  else if (0x20 <=? offset) && (offset <? 0x60) then write_ilr s ((offset - 0x20) / 2) value
  else s.

(** The acknowledgement issued by the emulated DSP: no arbitration follows. *)
Definition calypso_inth_arm_ack (s : CalypsoINTHState) : CalypsoINTHState :=
  let svc := ith_v s in
  if (0 <? svc) || has (levels s) 1 then
    s <| levels := clr (levels s) (Z.shiftl 1 svc) |> <| rr_start := (svc + 1) mod NUM_IRQS |>
  else s.

Definition calypso_inth_frame_eoi (s : CalypsoINTHState) : Z := frame_eoi s.
Definition calypso_inth_irq_masked (s : CalypsoINTHState) (irq : Z) : bool := has (mask s) (Z.shiftl 1 irq).
Definition calypso_inth_irq_pending (s : CalypsoINTHState) (irq : Z) : bool := has (levels s) (Z.shiftl 1 irq).

(** Reset does not drive the output lines. *)
Definition calypso_inth_reset (s : CalypsoINTHState) : CalypsoINTHState :=
  mkINTH (replicate 32 0) 0 0 0 0 0 0 0 (parent_irq s) (parent_fiq s).

(** The device as created by QEMU (zeroed, output lines low). *)
Definition inth_init : CalypsoINTHState := mkINTH (replicate 32 0) 0 0 0 0 0 0 0 false false.

(** ** The operations as one machine *)
Inductive op :=
  | SetIrq (irq : Z) (level : bool)
  | Read (offset : Z)
  | Write (offset value : Z)
  | ArmAck
  | Reset.

Definition step (s : CalypsoINTHState) (o : op) : CalypsoINTHState :=
  match o with
  | SetIrq irq level => calypso_inth_set_irq s irq level
  | Read offset => snd (calypso_inth_read s offset)
  | Write offset value => calypso_inth_write s offset value
  | ArmAck => calypso_inth_arm_ack s
  | Reset => calypso_inth_reset s
  end.

(** QEMU delivers lines 0..31 only ([qdev_init_gpio_in] with 32 lines). *)
Definition op_ok (o : op) : Prop :=
  match o with SetIrq irq _ => 0 ≤ irq < NUM_IRQS | _ => True end.

(** ** Well-formedness *)
Record wf (s : CalypsoINTHState) : Prop := {
  wf_ilr_len : length (ilr s) = 32%nat;
  wf_ilr : Forall (λ v, 0 ≤ v < 128) (ilr s);
  wf_ith : 0 ≤ ith_v s < 32;
  wf_rr : 0 ≤ rr_start s < 32;
  wf_levels : 0 ≤ levels s < 2 ^ 32;
  wf_mask : 0 ≤ mask s < 2 ^ 32;
  wf_fiqv : fiq_v s = 0;
  wf_fiq : parent_fiq s = false
}.

(** ** The arbitration loop *)
Definition active (s : CalypsoINTHState) (i : Z) : bool :=
  Z.testbit (levels s) i && negb (Z.testbit (mask s) i).

(** [cand s f i]: source [i] is pending, unmasked and routed to the FIQ line
    ([f = true]) or to the IRQ line. *)
Definition cand (s : CalypsoINTHState) (f : bool) (i : Z) : Prop :=
  0 ≤ i < 32 ∧ active s i = true ∧ is_fiq s i = f.

(** The position of a source in the round-robin order. *)
Definition rr_dist (s : CalypsoINTHState) (i : Z) : Z := (i - rr_start s) mod 32.

(** [wins s f n i]: among the candidates at a distance below [n], source [i]
    has the least priority field and is the first such source in round-robin
    order. *)
Definition wins (s : CalypsoINTHState) (f : bool) (n i : Z) : Prop :=
  cand s f i ∧ rr_dist s i < n ∧
  ∀ k, cand s f k → rr_dist s k < n →
    prio_of s i < prio_of s k ∨ (prio_of s i = prio_of s k ∧ rr_dist s i ≤ rr_dist s k).

Definition best_inv (s : CalypsoINTHState) (f : bool) (n : Z) (b : best) : Prop :=
  (b = no_best ∧ ∀ k, cand s f k → ¬ rr_dist s k < n) ∨
  (wins s f n (fst b) ∧ snd b = prio_of s (fst b)).

Lemma prio_range s i : 0 ≤ prio_of s i ≤ 31.
Proof. apply land_range. lia. Qed.

Lemma has_active s i : 0 ≤ i →
  has (Z.ldiff (levels s) (mask s)) (Z.shiftl 1 i) = active s i.
Proof. intros. rewrite has_bit, Z.ldiff_spec by done. done. Qed.

Lemma rr_dist_range s i : 0 ≤ rr_dist s i < 32.
Proof. apply Z.mod_pos_bound. lia. Qed.

Lemma rr_dist_at s i n : 0 ≤ i < 32 → 0 ≤ n < 32 →
  rr_dist s i = n ↔ i = (rr_start s + n) mod NUM_IRQS.
Proof. unfold rr_dist, NUM_IRQS. intros. split; intros; subst; mlia. Qed.

(** Extending the scanned prefix by a source that is not a candidate. *)
Lemma best_inv_skip s f n b :
  0 ≤ n < 32 → ¬ cand s f ((rr_start s + n) mod NUM_IRQS) →
  best_inv s f n b → best_inv s f (n + 1) b.
Proof.
  intros Hn Hnc. assert (∀ k, cand s f k → rr_dist s k < n + 1 → rr_dist s k < n) as Hk.
  { intros k Hc Hd. destruct (decide (rr_dist s k = n)) as [E|]; [|lia].
    apply rr_dist_at in E; [|apply Hc|done]. subst. contradiction. }
  intros [[-> H]|[[Hc [Hd H]] E]]; [left|right].
  - split; [done|]. intros k Hc Hd. eapply H; eauto.
  - split; [|done]. split; [done|]. split; [lia|]. intros k Hck Hdk. auto.
Qed.

(** Extending it by a candidate, with the comparison of the loop. *)
Lemma best_inv_take s f n b :
  0 ≤ n < 32 → cand s f ((rr_start s + n) mod NUM_IRQS) →
  best_inv s f n b →
  best_inv s f (n + 1)
    (let i := (rr_start s + n) mod NUM_IRQS in
     if prio_of s i <? snd b then (i, prio_of s i) else b).
Proof.
  intros Hn Hc. set (i := (rr_start s + n) mod NUM_IRQS) in *. cbn zeta.
  assert (Hdi : rr_dist s i = n) by (by apply rr_dist_at; [apply Hc|..]).
  assert (Hk : ∀ k, cand s f k → rr_dist s k < n + 1 → k = i ∨ rr_dist s k < n).
  { intros k Hck Hd. destruct (decide (rr_dist s k = n)) as [E|]; [left|right; lia].
    apply rr_dist_at in E; [done|apply Hck|done]. }
  pose proof (prio_range s i).
  intros [[-> H']|[[Hcb [Hdb Hb]] E]].
  - right. cbn [snd no_best]. destruct (Z.ltb_spec (prio_of s i) 0x7F); [|lia]. cbn.
    split; [|done]. split; [done|]. split; [lia|]. intros k Hck Hdk.
    destruct (Hk k Hck Hdk) as [->|Hlt]; [lia|]. exfalso. eapply H'; eauto.
  - right. rewrite E. destruct (Z.ltb_spec (prio_of s i) (prio_of s (fst b))); cbn.
    + split; [|done]. split; [done|]. split; [lia|]. intros k Hck Hdk.
      destruct (Hk k Hck Hdk) as [->|Hlt]; [lia|]. destruct (Hb k Hck Hlt); lia.
    + split; [|done]. split; [done|]. split; [lia|]. intros k Hck Hdk.
      destruct (Hk k Hck Hdk) as [->|Hlt]; [lia|]. auto.
Qed.

Lemma scan_spec s n : (n ≤ 32)%nat →
  best_inv s false (Z.of_nat n) (fst (scan s n)) ∧ best_inv s true (Z.of_nat n) (snd (scan s n)).
Proof.
  induction n as [|n IH]; intros Hn.
  - split; left; (split; [done|]); intros k _; pose proof (rr_dist_range s k); lia.
  - destruct IH as [IHi IHf]; [lia|]. unfold scan in *. rewrite zseq_S, foldl_app. cbn [foldl].
    set (acc := foldl _ _ _) in *. destruct acc as [bi bf]. cbn [fst snd] in *.
    unfold scan_step. rewrite Z.add_0_l.
    set (i := (rr_start s + Z.of_nat n) mod NUM_IRQS).
    assert (0 ≤ i < 32) by (apply Z.mod_pos_bound; unfold NUM_IRQS; lia).
    rewrite has_active by lia. rewrite Nat2Z.inj_succ, <- Z.add_1_r.
    destruct (active s i) eqn:Ha; cbn [negb].
    + destruct (is_fiq s i) eqn:Hf.
      * split.
        -- assert (best_inv s false (Z.of_nat n + 1) bi).
           { apply best_inv_skip; [lia| |done]. unfold cand. fold i. intros (_&_&?). congruence. }
           by destruct (_ <? _).
        -- pose proof (best_inv_take s true (Z.of_nat n) bf ltac:(lia)) as T. cbn zeta in T. fold i in T.
           destruct (_ <? _); apply T; auto; repeat split; auto; lia.
      * split.
        -- pose proof (best_inv_take s false (Z.of_nat n) bi ltac:(lia)) as T. cbn zeta in T. fold i in T.
           destruct (_ <? _); apply T; auto; repeat split; auto; lia.
        -- assert (best_inv s true (Z.of_nat n + 1) bf).
           { apply best_inv_skip; [lia| |done]. unfold cand. fold i. intros (_&_&?). congruence. }
           by destruct (_ <? _).
    + split; (apply best_inv_skip; [lia| |done]); unfold cand; fold i; intros (_&?&_); congruence.
Qed.

(** The fields the arbitration does not touch. *)
Lemma update_frame s :
  let s' := calypso_inth_update s in
  ilr s' = ilr s ∧ levels s' = levels s ∧ mask s' = mask s ∧ rr_start s' = rr_start s ∧
  last_num s' = last_num s ∧ frame_eoi s' = frame_eoi s.
Proof.
  unfold calypso_inth_update. destruct (scan s 32) as [[bi pi] [bf pf]]. cbn zeta.
  repeat case_match; done.
Qed.

Lemma update_ilr s : ilr (calypso_inth_update s) = ilr s.
Proof. apply update_frame. Qed.
Lemma update_levels s : levels (calypso_inth_update s) = levels s.
Proof. apply update_frame. Qed.
Lemma update_mask s : mask (calypso_inth_update s) = mask s.
Proof. apply update_frame. Qed.
Lemma update_rr s : rr_start (calypso_inth_update s) = rr_start s.
Proof. apply update_frame. Qed.
#[local] Hint Rewrite update_ilr update_levels update_mask update_rr : inth.

(** The IRQ side of the arbitration. *)
Lemma update_irq s :
  (parent_irq (calypso_inth_update s) = true ∧ wins s false 32 (ith_v (calypso_inth_update s))) ∨
  (parent_irq (calypso_inth_update s) = false ∧ ∀ k, ¬ cand s false k).
Proof.
  destruct (scan_spec s 32) as [Hi _]; [lia|]. unfold calypso_inth_update.
  destruct (scan s 32) as [[bi pi] [bf pf]]. cbn [fst snd] in Hi. cbn zeta.
  destruct Hi as [[E H]|[H _]]; [injection E as -> ->; right|left; cbn [fst] in H].
  - split; [by repeat case_match|]. intros k Hk. apply (H k Hk), rr_dist_range.
  - assert (0 ≤ bi) by apply H. destruct (Z.leb_spec 0 bi); [|lia].
    by destruct (0 <=? bf).
Qed.

(** The FIQ side. *)
Lemma update_fiq s :
  (parent_fiq (calypso_inth_update s) = true ∧ wins s true 32 (fiq_v (calypso_inth_update s))) ∨
  (parent_fiq (calypso_inth_update s) = false ∧ fiq_v (calypso_inth_update s) = fiq_v s ∧
   ∀ k, ¬ cand s true k).
Proof.
  destruct (scan_spec s 32) as [_ Hf]; [lia|]. unfold calypso_inth_update.
  destruct (scan s 32) as [[bi pi] [bf pf]]. cbn [fst snd] in Hf. cbn zeta.
  destruct Hf as [[E H]|[H _]]; [injection E as -> ->; right|left; cbn [fst] in H].
  - split; [by repeat case_match|]. split; [by repeat case_match|].
    intros k Hk. apply (H k Hk), rr_dist_range.
  - assert (0 ≤ bf) by apply H. destruct (Z.leb_spec 0 bf); [|lia]. done.
Qed.

(** The vector is a source number, or 0 when nothing is pending. *)
Lemma update_ith_range s : 0 ≤ ith_v s < 32 → 0 ≤ ith_v (calypso_inth_update s) < 32.
Proof.
  intros Hs. destruct (update_irq s) as [[_ [[? _] _]]|[E _]]; [done|].
  revert E. unfold calypso_inth_update. destruct (scan s 32) as [[bi pi] [bf pf]]. cbn zeta.
  repeat case_match; cbn; try discriminate; lia.
Qed.

(** ILR registers keep seven bits, so bit 8, the FIQ routing the arbitration
    tests, is never set. *)
Lemma small_ilr_no_fiq s i : Forall (λ v, 0 ≤ v < 128) (ilr s) → is_fiq s i = false.
Proof.
  intros H. unfold is_fiq. apply Z.eqb_neq.
  assert (0 ≤ rd (ilr s) i < 128) as Hr by (apply (rd_Forall (λ v, 0 ≤ v < 128)); [lia|done]).
  rewrite Z.shiftr_div_pow2, Z.div_small by lia. done.
Qed.

Lemma inth_update_wf s : wf s → wf (calypso_inth_update s).
Proof.
  intros H. destruct (update_fiq s) as [[_ [[_ [_ C]] _]]|[E [Ev _]]].
  { rewrite (small_ilr_no_fiq s) in C by apply H. discriminate. }
  destruct H. split; autorewrite with inth; auto using update_ith_range. congruence.
Qed.

Lemma inth_wf_set_levels s l : wf s → 0 ≤ l < 2 ^ 32 → wf (s <| levels := l |>).
Proof. intros []. split; auto. Qed.
Lemma inth_wf_set_mask s l : wf s → 0 ≤ l < 2 ^ 32 → wf (s <| mask := l |>).
Proof. intros []. split; auto. Qed.
Lemma inth_wf_set_rr s l : wf s → wf (s <| rr_start := l mod NUM_IRQS |>).
Proof. intros []. split; auto. cbn. apply Z.mod_pos_bound. unfold NUM_IRQS; lia. Qed.
Lemma inth_wf_set_ilr s i v : wf s → 0 ≤ v < 128 → wf (s <| ilr := wr (ilr s) i v |>).
Proof. intros []. split; cbn; auto using wr_Forall. by rewrite length_wr. Qed.

Lemma inth_wf_clr_level s i : wf s → wf (s <| levels := clr (levels s) i |>).
Proof. intros H. apply inth_wf_set_levels; [done|]. apply ldiff_range, H. lia. Qed.

Lemma inth_wf_land_level s m : wf s → 0 ≤ m < 2 ^ 32 → wf (s <| levels := Z.land (levels s) m |>).
Proof. intros H Hm. apply inth_wf_set_levels; [done|]. pose proof (land_range (levels s) m). lia. Qed.

Lemma half_range v : 0 ≤ Z.shiftl (Z.land v 0xFFFF) 16 < 2 ^ 32.
Proof. pose proof (land_range v 0xFFFF). rewrite Z.shiftl_mul_pow2 by lia. lia. Qed.
Lemma low_range v : 0 ≤ Z.land v 0xFFFF < 2 ^ 32.
Proof. pose proof (land_range v 0xFFFF). lia. Qed.

#[local] Hint Resolve inth_update_wf inth_wf_clr_level inth_wf_set_rr half_range low_range : inth.

Lemma inth_ack_num_wf s n : wf s → wf (ack_num s n).
Proof. unfold ack_num. intros. case_if; auto with inth. Qed.

Lemma inth_inherit_prio_wf s k :
  wf s →
  wf (s <| ilr := wr (ilr s) k (Z.lor (clr (rd (ilr s) k) 0x1F) (Z.land (rd (ilr s) 4) 0x1F)) |>).
Proof.
  intros H. apply inth_wf_set_ilr; [done|]. apply (lor_range 7); [lia| |].
  - apply ldiff_range; [lia|]. apply (rd_Forall (λ v, 0 ≤ v < 128)); [lia|apply H].
  - pose proof (land_range (rd (ilr s) 4) 0x1F). lia.
Qed.

Lemma inth_write_ilr_wf s i v : wf s → wf (write_ilr s i v).
Proof.
  intros H. unfold write_ilr.
  assert (wf (s <| ilr := wr (ilr s) i (Z.land v 0x7F) |>)) as H1.
  { apply inth_wf_set_ilr; [done|]. pose proof (land_range v 0x7F). lia. }
  cbn zeta. destruct (i =? 7); destruct (i =? 18); auto using inth_inherit_prio_wf.
Qed.

Lemma inth_read_wf s off : wf s → wf (snd (calypso_inth_read s off)).
Proof.
  intros H. unfold calypso_inth_read. repeat case_if; cbn [snd]; auto.
  - apply inth_update_wf, inth_ack_num_wf. by destruct H.
  - apply inth_update_wf, inth_ack_num_wf. done.
Qed.

Lemma inth_eoi_wf s (c : bool) n : wf s → wf (if c then s <| frame_eoi := n |> else s).
Proof. intros H. destruct c; [|done]. by destruct H. Qed.

Lemma inth_write_wf s off v : wf s → wf (calypso_inth_write s off v).
Proof.
  intros H. unfold calypso_inth_write.
  destruct (off =? 0x00); [|destruct (off =? 0x02); [|destruct (off =? 0x08); [|destruct (off =? 0x0a)]]].
  - apply inth_update_wf, inth_wf_land_level; [done|]. apply lor_range; [lia|lia|auto with inth].
  - apply inth_update_wf, inth_wf_land_level; [done|]. apply lor_range; [lia|lia|auto with inth].
  - apply inth_update_wf, inth_wf_set_mask; [done|]. apply lor_range; [lia| |auto with inth].
    pose proof (land_range (mask s) 0xFFFF0000). lia.
  - apply inth_update_wf, inth_wf_set_mask; [done|]. apply lor_range; [lia| |auto with inth].
    pose proof (land_range (mask s) 0x0000FFFF). lia.
  - destruct ((_ || _)%bool); [|destruct ((_ && _)%bool); auto using inth_write_ilr_wf].
    apply inth_update_wf, inth_eoi_wf. destruct ((_ || _)%bool); auto with inth.
Qed.

Lemma inth_arm_ack_wf s : wf s → wf (calypso_inth_arm_ack s).
Proof. intros H. unfold calypso_inth_arm_ack. case_if; auto with inth. Qed.

Lemma inth_set_irq_wf s irq l : wf s → 0 ≤ irq < 32 → wf (calypso_inth_set_irq s irq l).
Proof.
  intros H Ho. unfold calypso_inth_set_irq. apply inth_update_wf. repeat case_if; auto with inth.
  apply inth_wf_set_levels; [done|]. apply lor_range; [lia|apply H|].
  rewrite Z.shiftl_1_l. split; [lia|]. apply Z.pow_lt_mono_r; lia.
Qed.

Lemma inth_step_wf s o : wf s → op_ok o → wf (step s o).
Proof.
  intros H. destruct o; cbn [step op_ok]; intros Ho; auto using inth_read_wf, inth_write_wf, inth_arm_ack_wf, inth_set_irq_wf.
  - unfold calypso_inth_reset. destruct H. split; cbn; auto; try lia.
    repeat constructor; lia.
Qed.

Lemma inth_init_wf : wf inth_init.
Proof. split; cbn; auto; try lia. repeat constructor; lia. Qed.

(** ** Arbitration *)

(** [best_of s f w]: [w] is the source the line [f] must show. *)
Definition best_of (s : CalypsoINTHState) (f : bool) (w : Z) : Prop :=
  cand s f w ∧
  ∀ k, cand s f k → prio_of s w < prio_of s k ∨
    (prio_of s w = prio_of s k ∧ rr_dist s w ≤ rr_dist s k).

Lemma wins_best s f w : wins s f 32 w → best_of s f w.
Proof. intros (Hc&_&Hw). split; [done|]. intros k Hk. apply Hw, rr_dist_range. done. Qed.

Lemma irq_winner s :
  parent_irq (calypso_inth_update s) = true → best_of s false (ith_v (calypso_inth_update s)).
Proof. destruct (update_irq s) as [[_ H]|[-> _]]; [auto using wins_best|discriminate]. Qed.

Lemma fiq_winner s :
  parent_fiq (calypso_inth_update s) = true → best_of s true (fiq_v (calypso_inth_update s)).
Proof. destruct (update_fiq s) as [[_ H]|[-> _]]; [auto using wins_best|discriminate]. Qed.

Lemma cand_raises_irq s k : cand s false k → parent_irq (calypso_inth_update s) = true.
Proof. intros Hk. destruct (update_irq s) as [[? _]|[_ H]]; [done|]. by destruct (H k). Qed.

Lemma cand_raises_fiq s k : cand s true k → parent_fiq (calypso_inth_update s) = true.
Proof. intros Hk. destruct (update_fiq s) as [[? _]|[_ [_ H]]]; [done|]. by destruct (H k). Qed.

(** C18: the arbitration of [calypso_inth_update] is a priority encoder with a
    round-robin tie break: a line towards the ARM is raised exactly when some
    unmasked pending source is routed to it, and the vector it then shows is
    such a source, with the least priority field, the first one in round-robin
    order among equals. *)
Theorem inth_arbitration s :
  let s' := calypso_inth_update s in
  (parent_irq s' = true ↔ ∃ i, cand s false i) ∧
  (parent_irq s' = true → best_of s false (ith_v s')) ∧
  (parent_fiq s' = true ↔ ∃ i, cand s true i) ∧
  (parent_fiq s' = true → best_of s true (fiq_v s')).
Proof.
  cbn zeta. split_and!.
  - split; [|intros [k Hk]; by apply (cand_raises_irq s k)].
    intros E. eexists. by apply irq_winner.
  - apply irq_winner.
  - split; [|intros [k Hk]; by apply (cand_raises_fiq s k)].
    intros E. eexists. by apply fiq_winner.
  - apply fiq_winner.
Qed.

(** Whatever the firmware writes and whatever lines change, from power-on
    the controller stays well formed and never raises the FIQ line: ILR writes
    keep seven bits while the arbitration looks for the FIQ routing in bit 8. *)
Theorem inth_never_fiq l :
  Forall op_ok l →
  wf (run step inth_init l) ∧ parent_fiq (run step inth_init l) = false ∧
  fst (calypso_inth_read (run step inth_init l) 0x12) = 0.
Proof.
  intros Hl. assert (wf (run step inth_init l)) as H.
  { eapply run_invariant; [apply inth_step_wf|apply inth_init_wf|exact Hl]. }
  split; [done|]. split; apply H.
Qed.

Lemma inth_never_fiq_witness :
  parent_fiq (run step inth_init [Write 0x2e 0xffff; SetIrq 7 true]) = false ∧
  parent_irq (run step inth_init [Write 0x2e 0xffff; SetIrq 7 true]) = true.
Proof.
  split; [|reflexivity]. apply inth_never_fiq. repeat constructor; unfold NUM_IRQS; lia.
Defined.

(** ** Fairness of the round robin *)
Lemma scan_ext s s' n :
  ilr s = ilr s' → levels s = levels s' → mask s = mask s' → rr_start s = rr_start s' →
  scan s n = scan s' n.
Proof. intros E1 E2 E3 E4. unfold scan, scan_step, prio_of, is_fiq. by rewrite E1, E2, E3, E4. Qed.

Lemma update_idem s : calypso_inth_update (calypso_inth_update s) = calypso_inth_update s.
Proof.
  assert (scan (calypso_inth_update s) 32 = scan s 32) as E.
  { apply scan_ext; by autorewrite with inth. }
  unfold calypso_inth_update at 1. rewrite E. unfold calypso_inth_update.
  destruct (scan s 32) as [[bi pi] [bf pf]]. destruct s. cbn zeta.
  by repeat (case_if; cbn).
Qed.

Lemma update_last_num s n :
  calypso_inth_update (s <| last_num := n |>) = calypso_inth_update s <| last_num := n |>.
Proof.
  unfold calypso_inth_update. rewrite (scan_ext (s <| last_num := n |>) s) by done.
  destruct (scan s 32) as [[bi pi] [bf pf]]. destruct s. cbn zeta. by repeat case_if.
Qed.

(** What arbitration depends on besides the round-robin pointer. *)
Definition same_sources (s s' : CalypsoINTHState) : Prop :=
  ilr s' = ilr s ∧ levels s' = levels s ∧ mask s' = mask s.

Lemma same_sources_cand s s' f k : same_sources s s' → cand s' f k ↔ cand s f k.
Proof. intros (E1&E2&E3). unfold cand, active, is_fiq. by rewrite E1, E2, E3. Qed.

(** One interrupt as the firmware's [irq()] serves it: read IRQ_NUM, run the
    handler, write IRQ_CTRL. *)
Definition service (s : CalypsoINTHState) : Z * CalypsoINTHState :=
  let '(num, s1) := calypso_inth_read s 0x10 in (num, calypso_inth_write s1 0x14 1).

(** Services, each after the lines of some sources fell. *)
Definition fall (s : CalypsoINTHState) (k : Z) : CalypsoINTHState := calypso_inth_set_irq s k false.
Fixpoint services (falls : list (list Z)) (s : CalypsoINTHState) : list Z :=
  match falls with
  | [] => []
  | ks :: falls => let '(num, s') := service (foldl fall s ks) in num :: services falls s'
  end.

Lemma read_irq_num s :
  calypso_inth_read s 0x10 =
  (ith_v s, calypso_inth_update (ack_num (s <| last_num := ith_v s |>) (ith_v s))).
Proof. reflexivity. Qed.

(** The state IRQ_CTRL leaves before the arbitration. *)
Definition end_of_service (s : CalypsoINTHState) (value : Z) : CalypsoINTHState :=
  let s1 := if (0 <? ith_v s) || has (levels s) 1
            then s <| rr_start := (ith_v s + 1) mod NUM_IRQS |> else s in
  if has value 1 && (last_num s1 =? 4) then s1 <| frame_eoi := u64 (frame_eoi s1 + 1) |> else s1.

Lemma write_irq_ctrl s v :
  calypso_inth_write s 0x14 v = calypso_inth_update (end_of_service s v).
Proof. reflexivity. Qed.

(** Serving a source that stays asserted only moves the round-robin pointer
    behind it. *)
Lemma service_held s :
  calypso_inth_update s = s → cand s false (ith_v s) → acked_by_read s (ith_v s) = false →
  fst (service s) = ith_v s ∧
  same_sources s (snd (service s)) ∧
  rr_start (snd (service s)) = (ith_v s + 1) mod 32 ∧
  calypso_inth_update (snd (service s)) = snd (service s).
Proof.
  intros Hs Hc Ha. unfold service. rewrite read_irq_num. set (w := ith_v s) in *.
  assert (ack_num (s <| last_num := w |>) w = s <| last_num := w |>) as ->.
  { unfold ack_num, acked_by_read in *. cbn. by rewrite Ha. }
  rewrite update_last_num, Hs, write_irq_ctrl. cbn [fst snd].
  assert (((0 <? w) || has (levels s) 1)%bool = true) as Hsvc.
  { destruct Hc as (Hr&Hact&_). unfold active in Hact. bool_prop.
    destruct (Z.ltb_spec 0 w); [done|]. replace w with 0 in * by lia. cbn.
    change 1 with (Z.shiftl 1 0). by rewrite has_bit by lia. }
  assert (same_sources s (end_of_service (s <| last_num := w |>) 1) ∧
          rr_start (end_of_service (s <| last_num := w |>) 1) = (w + 1) mod 32) as [(?&?&?) ?].
  { unfold end_of_service. cbn [ith_v levels update_field]. fold w. rewrite Hsvc. by case_if. }
  unfold same_sources. autorewrite with inth. by rewrite update_idem.
Qed.

(** [s'] has the configuration of [s] and no further pending source. *)
Definition fewer (s s' : CalypsoINTHState) : Prop :=
  ilr s' = ilr s ∧ mask s' = mask s ∧ ∀ k, Z.testbit (levels s') k = true → Z.testbit (levels s) k = true.

Lemma fewer_cand s s' f k : fewer s s' → cand s' f k → cand s f k.
Proof.
  intros (E1&E2&E3). unfold cand, active, is_fiq. rewrite E1, E2. intros (?&Hx&?).
  apply andb_true_iff in Hx as [Hl Hm]. by rewrite (E3 k Hl), Hm.
Qed.

Lemma fewer_keep s s' f k : fewer s s' → Z.testbit (levels s') k = Z.testbit (levels s) k → cand s f k → cand s' f k.
Proof. intros (E1&E2&_) E. unfold cand, active, is_fiq. by rewrite E1, E2, E. Qed.

(** The pending sources that the read of their number acknowledges, counted. *)
Definition read_acked (s : CalypsoINTHState) (k : Z) : bool := active s k && negb (is_fiq s k) && acked_by_read s k.
Definition count (f : Z → bool) (l : list Z) : Z := foldr (λ k n, Z.b2z (f k) + n) 0 l.
Definition reads (s : CalypsoINTHState) : Z := count (read_acked s) (zseq 0 32).

Lemma count_le f g l : (∀ k, f k = true → g k = true) → 0 ≤ count f l ≤ count g l.
Proof.
  intros H. induction l as [|k l IH]; cbn [count foldr]; [lia|]. fold (count f l) (count g l).
  specialize (H k). destruct (f k), (g k); cbn; lia || by specialize (H eq_refl).
Qed.

Lemma count_lt f g l w :
  (∀ k, f k = true → g k = true) → w ∈ l → g w = true → f w = false → count f l < count g l.
Proof.
  intros H Hw Hg Hf. induction l as [|k l IH]; [by apply elem_of_nil in Hw|]. cbn [count foldr].
  fold (count f l) (count g l). pose proof (count_le f g l H). apply elem_of_cons in Hw as [->|Hw].
  - rewrite Hg, Hf. cbn. lia.
  - specialize (IH Hw). specialize (H k). destruct (f k), (g k); cbn; lia || by specialize (H eq_refl).
Qed.

Lemma fewer_reads s s' k : fewer s s' → read_acked s' k = true → read_acked s k = true.
Proof.
  intros (E1&E2&E3). unfold read_acked, active, is_fiq, acked_by_read. rewrite E1, E2. intros H.
  rewrite !andb_true_iff in *. destruct H as (((H1&H2)&H3)&H4). by rewrite (E3 k H1).
Qed.

(** Serving a source that the read acknowledges takes it out of the pending
    ones. *)
Lemma service_acked s :
  calypso_inth_update s = s → cand s false (ith_v s) → acked_by_read s (ith_v s) = true →
  fst (service s) = ith_v s ∧ fewer s (snd (service s)) ∧
  levels (snd (service s)) = clr (levels s) (Z.shiftl 1 (ith_v s)) ∧
  calypso_inth_update (snd (service s)) = snd (service s).
Proof.
  intros Hs (Hr&_) Ha. unfold service. rewrite read_irq_num. set (w := ith_v s) in *.
  assert (Ek : ack_num (s <| last_num := w |>) w = s <| last_num := w |> <| levels := clr (levels s) (Z.shiftl 1 w) |>).
  { unfold ack_num. change (acked_by_read (s <| last_num := w |>) w) with (acked_by_read s w). by rewrite Ha. }
  rewrite Ek, write_irq_ctrl. cbn [fst snd]. set (s1 := calypso_inth_update (_ <| levels := _ |>)).
  assert (E1 : ilr s1 = ilr s ∧ mask s1 = mask s ∧ levels s1 = clr (levels s) (Z.shiftl 1 w))
    by (unfold s1; autorewrite with inth; done).
  clearbody s1. destruct E1 as (E1&E2&E3).
  assert (E4 : ilr (end_of_service s1 1) = ilr s1 ∧ mask (end_of_service s1 1) = mask s1 ∧ levels (end_of_service s1 1) = levels s1).
  { unfold end_of_service. cbv zeta. repeat case_if; done. }
  destruct E4 as (E4&E5&E6). split; [done|]. unfold fewer. autorewrite with inth. rewrite E4, E5, E6, E1, E2, E3.
  split; [|split; [done|by rewrite update_idem]]. split; [done|]. split; [done|].
  intros k. destruct (Z.ltb_spec k 0); [by rewrite Z.testbit_neg_r|]. rewrite testbit_clrbit by lia. intros H'. by bool_prop.
Qed.

(** A falling line. *)
Lemma fall_fewer s k : 0 ≤ k →
  fewer s (fall s k) ∧ rr_start (fall s k) = rr_start s ∧ calypso_inth_update (fall s k) = fall s k ∧
  ∀ i, 0 ≤ i → i ≠ k → Z.testbit (levels (fall s k)) i = Z.testbit (levels s) i.
Proof.
  intros Hk. unfold fall, calypso_inth_set_irq, fewer. rewrite update_idem.
  destruct (edge_latched s k); autorewrite with inth; [done|]. cbn [ilr mask levels rr_start update_field].
  split_and!; try done.
  - intros j. destruct (Z.ltb_spec j 0); [by rewrite Z.testbit_neg_r|]. rewrite testbit_clrbit by lia. intros H'. by bool_prop.
  - intros i Hi Hne. rewrite testbit_clrbit by lia. destruct (Z.eqb_spec i k); [done|]. apply andb_true_r.
Qed.

(** What the lines of other sources that fall leave of the race for [i]. *)
Record racing (s : CalypsoINTHState) (i : Z) : Prop := mkRacing {
  rc_update : calypso_inth_update s = s;
  rc_cand : cand s false i;
  rc_best : ∀ k, cand s false k → prio_of s i ≤ prio_of s k
}.

Lemma racing_fewer s s' i :
  racing s i → fewer s s' → calypso_inth_update s' = s' → Z.testbit (levels s') i = Z.testbit (levels s) i → racing s' i.
Proof.
  intros [_ Hc Hb] Hf Hu Hl. pose proof Hf as (E1&_&_).
  assert (∀ k, prio_of s' k = prio_of s k) as Ep by (intros; unfold prio_of; by rewrite E1).
  constructor; [done|by eapply fewer_keep|]. intros k Hk. rewrite !Ep. apply Hb. by eapply fewer_cand.
Qed.

Lemma racing_falls ks s i :
  racing s i → Forall (λ k, 0 ≤ k ∧ k ≠ i) ks →
  racing (foldl fall s ks) i ∧ reads (foldl fall s ks) ≤ reads s ∧ rr_start (foldl fall s ks) = rr_start s.
Proof.
  intros Hr H. revert s Hr. induction H as [|k ks [Hk Hne] _ IH]; intros s Hr; [done|]. cbn [foldl].
  destruct (fall_fewer s k Hk) as (Hf&Er&Hu&Hl).
  assert (racing (fall s k) i) as Hr' by (apply (racing_fewer s); auto; apply Hl; [apply Hr|done]).
  destruct (IH _ Hr') as (A&B&C). split; [done|]. split; [|congruence]. etransitivity; [exact B|].
  apply count_le. intros j. by apply fewer_reads.
Qed.

Lemma services_in falls s i :
  racing s i → Forall (Forall (λ k, 0 ≤ k ∧ k ≠ i)) falls →
  32 * reads s + rr_dist s i < zlen falls → i ∈ services falls s.
Proof.
  revert s. induction falls as [|ks falls IH]; intros s Hr Hf Hn.
  { pose proof (rr_dist_range s i). pose proof (count_le (read_acked s) (read_acked s) (zseq 0 32) ltac:(done)).
    unfold zlen, reads in *. cbn [length] in Hn. lia. }
  apply Forall_cons_1 in Hf as [Hk Hf]. destruct (racing_falls ks s i Hr Hk) as (Hr1&Hm1&Hrr1). cbn [services].
  assert (rr_dist (foldl fall s ks) i = rr_dist s i) as Hd by (unfold rr_dist; by rewrite Hrr1). revert Hr1 Hm1 Hd.
  generalize (foldl fall s ks). clear Hrr1 Hr. intros s1 Hr Hm Hd. pose proof Hr as [Hu Hc Hb].
  destruct (update_irq s1) as [[_ Hw]|[_ Hno]]; [rewrite Hu in Hw|by destruct (Hno i)].
  destruct Hw as (Hcw&_&Hw). unfold zlen in *. cbn [length] in Hn.
  destruct (acked_by_read s1 (ith_v s1)) eqn:Ha.
  - destruct (service_acked s1 Hu Hcw Ha) as (En&Hfw&Hlv&Hu'). destruct (service s1) as [num s']. cbn [fst snd] in *. subst num.
    destruct (decide (ith_v s1 = i)) as [->|Hne]; [by left|right]. pose proof Hc as (Hi&_). pose proof Hcw as (Hwr&Haw&Hfw').
    apply IH; [|done|].
    + apply (racing_fewer s1); auto. rewrite Hlv, testbit_clrbit by lia. destruct (Z.eqb_spec i (ith_v s1)); [congruence|]. apply andb_true_r.
    + assert (reads s' < reads s1).
      { apply (count_lt _ _ _ (ith_v s1)); [intros j; by apply fewer_reads|apply elem_of_zseq; lia| |].
        - unfold read_acked. by rewrite Haw, Hfw', Ha.
        - unfold read_acked, active. rewrite Hlv, testbit_clrbit, Z.eqb_refl by lia. by rewrite andb_false_r. }
      pose proof (rr_dist_range s' i). pose proof (rr_dist_range s i). lia.
  - destruct (service_held s1 Hu Hcw Ha) as (En&Hsame&Hrr&Hu'). destruct (service s1) as [num s']. cbn [fst snd] in *. subst num.
    destruct (decide (ith_v s1 = i)) as [->|Hne]; [by left|right]. pose proof Hsame as (E1&E2&E3).
    assert (fewer s1 s') as Hfw by (unfold fewer; by rewrite E1, E2, E3).
    apply IH; [apply (racing_fewer s1); auto; by rewrite E2|done|].
    assert (reads s' ≤ reads s1) by (apply count_le; intros j; by apply fewer_reads).
    destruct (Hw i Hc) as [|[_ Hle]]; [apply rr_dist_range|specialize (Hb _ Hcw); lia|].
    assert (rr_dist s' i < rr_dist s1 i); [|lia].
    destruct Hc as [Hi _], Hcw as [Hwr _]. unfold rr_dist in *. rewrite Hrr. revert Hle. clear -Hi Hwr Hne. intros. mlia.
Qed.

(** C37: no starvation among the best sources.  As long as no source rises anew
    and the configuration is kept, a pending source of least priority field that
    stays asserted is handed to the firmware within 32 services for each pending
    source that the read of its number acknowledges (4, 5, 15 and the edge
    sources) and 32 more, whatever other lines fall between the services. *)
Theorem inth_round_robin_fair s i falls :
  calypso_inth_update s = s → cand s false i → (∀ k, cand s false k → prio_of s i ≤ prio_of s k) →
  Forall (Forall (λ k, 0 ≤ k ∧ k ≠ i)) falls → 32 * (reads s + 1) ≤ zlen falls →
  i ∈ services falls s.
Proof.
  intros H1 H2 H3 Hf Hn. apply services_in; [by constructor|done|]. pose proof (rr_dist_range s i). lia.
Qed.

(** Source 4 is acknowledged by the read; 1 falls before the third service. *)
Lemma inth_round_robin_fair_witness :
  2 ∈ services ([[]; []; [1]] ++ replicate 61 [])
        (run step inth_init [SetIrq 4 true; SetIrq 1 true; SetIrq 2 true]).
Proof.
  apply inth_round_robin_fair.
  - reflexivity.
  - repeat split; try lia; reflexivity.
  - intros k (Hk&Ha&_). set (s := run step inth_init _) in *.
    revert Ha. apply (range_split (λ k, active s k = true → prio_of s 2 ≤ prio_of s k) 32 k); [lia|].
    forall_cases; vm_compute; intuition congruence.
  - repeat first [apply Forall_cons_2|apply Forall_nil_2|apply Forall_app_2]; try lia.
  - vm_compute. discriminate.
Defined.

(** A source that the read acknowledges and that rises anew before every second
    service keeps another one of its priority from the firmware: the end of its
    service moves the pointer behind the source chosen next, not behind it. *)
Definition frame_round (s : CalypsoINTHState) : list Z * CalypsoINTHState :=
  let s := calypso_inth_set_irq s 4 true in
  let '(a, s) := service s in
  let '(b, s) := service s in ([a; b], s).
Example edge_source_starves :
  let s := run step inth_init [SetIrq 4 true; SetIrq 7 true; SetIrq 18 true] in
  let '(l1, s1) := frame_round s in
  let '(l2, s2) := frame_round s1 in
  l1 = [4; 18] ∧ l2 = [4; 18] ∧ s2 <| frame_eoi := frame_eoi s1 |> = s1 ∧ active s1 7 = true.
Proof. vm_compute. done. Qed.

(** ** Edge sources are not lost *)

(** The operations that may take a pending source away: the read of the vector
    that shows it, the clearing writes, a new ILR configuration, the DSP
    acknowledgement and reset. *)
Definition clears (s : CalypsoINTHState) (o : op) (irq : Z) : bool :=
  match o with
  | SetIrq _ _ => false
  | Read off =>
      (((off =? 0x10) || (off =? 0x80)) && (ith_v s =? irq))
      || (((off =? 0x12) || (off =? 0x82)) && (fiq_v s =? irq))
  | Write off _ => (off =? 0x00) || (off =? 0x02) || ((0x20 <=? off) && (off <? 0x60))
  | ArmAck => ith_v s =? irq
  | Reset => true
  end.

Fixpoint kept (s : CalypsoINTHState) (l : list op) (irq : Z) : bool :=
  match l with
  | [] => true
  | o :: l => negb (clears s o irq) && kept (step s o) l irq
  end.

Definition pending_edge (s : CalypsoINTHState) (irq : Z) : Prop :=
  edge_latched s irq = true ∧ Z.testbit (levels s) irq = true.

Lemma pending_edge_levels s s' irq :
  ilr s' = ilr s → levels s' = levels s → pending_edge s irq → pending_edge s' irq.
Proof. unfold pending_edge, edge_latched. intros -> ->. done. Qed.

Lemma pending_edge_update s irq : pending_edge s irq → pending_edge (calypso_inth_update s) irq.
Proof. apply pending_edge_levels; by autorewrite with inth. Qed.

Lemma pending_edge_clr s irq k :
  0 ≤ irq → 0 ≤ k → irq ≠ k → pending_edge s irq → pending_edge (s <| levels := clr (levels s) (Z.shiftl 1 k) |>) irq.
Proof.
  intros ? ? ? [? Hb]. split; [done|]. cbn. rewrite testbit_clrbit, Hb by done.
  apply negb_true_iff, Z.eqb_neq. done.
Qed.

Lemma edge_latched_range s irq : edge_latched s irq = true → 0 ≤ irq < 32.
Proof.
  unfold edge_latched. intros H. apply andb_true_iff in H as [_ H].
  rewrite !orb_true_iff, !Z.eqb_eq in H. lia.
Qed.

Lemma pending_edge_ack s irq k :
  0 ≤ k → irq ≠ k → pending_edge s irq → pending_edge (ack_num s k) irq.
Proof.
  intros. unfold ack_num. case_if; [|done].
  assert (0 ≤ irq < 32) by (eapply edge_latched_range; apply H1). apply pending_edge_clr; auto. lia.
Qed.

Lemma pending_edge_set_irq s irq k l :
  0 ≤ k → pending_edge s irq → pending_edge (calypso_inth_set_irq s k l) irq.
Proof.
  intros Hk [He Hb]. pose proof (edge_latched_range _ _ He).
  unfold calypso_inth_set_irq. apply pending_edge_update. repeat case_if; [|done|].
  - split; [done|]. cbn. rewrite testbit_setbit, Hb by lia. done.
  - apply pending_edge_clr; [lia..| |done]. intros ->. congruence.
Qed.

Lemma pending_edge_read s irq off :
  wf s → clears s (Read off) irq = false → pending_edge s irq →
  pending_edge (snd (calypso_inth_read s off)) irq.
Proof.
  intros Hwf Hcl Hp. unfold calypso_inth_read. cbn [clears] in Hcl.
  apply orb_false_iff in Hcl as [Hc1 Hc2]. pose proof (wf_ith _ Hwf). pose proof (wf_fiqv _ Hwf).
  repeat (case_if; [try done|]); cbn [snd]; try done.
  - apply pending_edge_update, pending_edge_ack; [lia| |done]. intros ->.
    rewrite Z.eqb_refl in Hc1. discriminate.
  - apply pending_edge_update, pending_edge_ack; [lia| |done]. intros ->.
    rewrite Z.eqb_refl in Hc2. discriminate.
Qed.

Lemma pending_edge_write s irq off v :
  clears s (Write off v) irq = false → pending_edge s irq →
  pending_edge (calypso_inth_write s off v) irq.
Proof.
  cbn [clears]. intros Hcl Hp. unfold calypso_inth_write.
  apply orb_false_iff in Hcl as [Hc Hilr]. apply orb_false_iff in Hc as [-> ->]. rewrite Hilr.
  repeat (case_if; [apply pending_edge_update|]); try done.
  by repeat case_if.
Qed.

Lemma pending_edge_step s irq o :
  wf s → op_ok o → clears s o irq = false → pending_edge s irq → pending_edge (step s o) irq.
Proof.
  intros Hwf Ho Hcl Hp. destruct o; cbn [step op_ok] in *.
  - apply pending_edge_set_irq; [lia|done].
  - by apply pending_edge_read.
  - by apply pending_edge_write.
  - cbn in Hcl. unfold calypso_inth_arm_ack. case_if; [|done].
    pose proof (wf_ith _ Hwf). pose proof (edge_latched_range _ _ (proj1 Hp)).
    apply (pending_edge_levels (s <| levels := clr (levels s) (Z.shiftl 1 (ith_v s)) |>)); [done..|].
    apply pending_edge_clr; [lia..| |done]. bool_prop. congruence.
  - discriminate.
Qed.

Lemma pending_edge_run l s irq :
  wf s → Forall op_ok l → kept s l irq = true → pending_edge s irq → pending_edge (run step s l) irq.
Proof.
  revert s. induction l as [|o l IH]; intros s Hwf Hok Hk Hp; [done|].
  inversion Hok; subst. cbn in *. bool_prop.
  apply IH; auto using inth_step_wf, pending_edge_step.
Qed.

(** an edge-configured source 4, 5 or 15 (the TPU frame interrupt is
    source 4) is not lost. Once its line has risen it stays pending through any
    sequence of line changes and register accesses, its own falling edge
    included, until an operation that acknowledges or reconfigures it; and the
    read of IRQ_NUM that shows it takes it away. *)
Theorem inth_edge_not_lost s irq l :
  wf s → edge_latched s irq = true → Forall op_ok l →
  kept (calypso_inth_set_irq s irq true) l irq = true →
  calypso_inth_irq_pending (run step (calypso_inth_set_irq s irq true) l) irq = true ∧
  ∀ s', edge_latched s' irq = true → ith_v s' = irq →
    calypso_inth_irq_pending (snd (calypso_inth_read s' 0x10)) irq = false.
Proof.
  intros Hwf He Hok Hk. pose proof (edge_latched_range _ _ He) as Hr.
  unfold calypso_inth_irq_pending. split.
  - rewrite has_bit by lia. apply (pending_edge_run l); auto.
    + by apply inth_set_irq_wf.
    + unfold calypso_inth_set_irq. apply pending_edge_update. split; [done|].
      cbn. rewrite testbit_setbit, Z.eqb_refl, orb_true_r by lia. done.
  - intros s' He' Hv. rewrite read_irq_num, has_bit by lia. cbn [snd]. autorewrite with inth.
    rewrite Hv. unfold ack_num, acked_by_read. unfold edge_latched in He'.
    apply andb_true_iff in He' as [He' _]. cbn. rewrite He', orb_true_r. cbn.
    rewrite testbit_clrbit, Z.eqb_refl, andb_false_r by lia. done.
Qed.

(** The frame interrupt: IRQ 4 configured as an edge source, a 1 ms pulse, and
    an unrelated UART interrupt (7) coming and going. *)
Lemma inth_edge_not_lost_witness :
  calypso_inth_irq_pending
    (run step (calypso_inth_set_irq (run step inth_init [Write 0x28 0x2]) 4 true)
       [SetIrq 4 false; SetIrq 7 true; Write 0x08 0x80; SetIrq 7 false]) 4 = true.
Proof.
  refine (proj1 (inth_edge_not_lost _ _ _ _ _ _ _)).
  - apply run_invariant with (ok := op_ok); [apply inth_step_wf|apply inth_init_wf|]. repeat constructor.
  - by vm_compute.
  - repeat constructor; unfold NUM_IRQS; lia.
  - by vm_compute.
Defined.
End INTH.
