(* ===== verification/Timer.v ===== *)
(** * The general-purpose timers ([hw/timer/calypso_timer.c])

    A timer counts down from [load] at 13 MHz / (32 << prescaler).  Its current
    value is never stored: it is recomputed from the clock reading at which the
    countdown started ([epoch_ns]).  The clock ([qemu_clock_get_ns]) is an
    argument [now] of the operations that read it; the QEMU timer object is the
    field [deadline], [None] when the timer is not pending. *)
From S2P Require Import Prelude.

Module TIMER.

Definition CTRL_START : Z := 0x01.
Definition CTRL_RELOAD : Z := 0x02.
Definition CTRL_PRESCALER_SH : Z := 2.
Definition CTRL_PRESCALER_MSK : Z := 0x1C.
Definition CTRL_CLOCK_ENABLE : Z := 0x20.
Definition CALYPSO_BASE_CLK : Z := 13000000.
Definition NANOSECONDS_PER_SECOND : Z := 1000000000.
Definition LOST_TICKS_PER_TDMA : Z := 1875.

Record CalypsoTimerState := mkTimer {
  load : Z;
  count : Z;
  ctrl : Z;
  prescaler : Z;
  tick_ns : Z;
  epoch_ns : Z;
  running : bool;
  lost_latch_active : bool;
  lost_latch_count : Z;
  lost_read_phase : Z;
  irq : bool;
  deadline : option Z;
  (** the timer is the one [g_lost_timer] points to *)
  is_lost : bool
}.

#[export] Instance timer_eta : Settable CalypsoTimerState := λ s,
  mkTimer (load s) (count s) (ctrl s) (prescaler s) (tick_ns s) (epoch_ns s) (running s)
    (lost_latch_active s) (lost_latch_count s) (lost_read_phase s) (irq s) (deadline s) (is_lost s).

Definition calypso_timer_should_run (s : CalypsoTimerState) : bool :=
  has (ctrl s) CTRL_START && has (ctrl s) CTRL_CLOCK_ENABLE.

Definition calypso_timer_recompute_tick (s : CalypsoTimerState) : CalypsoTimerState :=
  let prescaler := Z.shiftr (Z.land (ctrl s) CTRL_PRESCALER_MSK) CTRL_PRESCALER_SH in
  let divider := Z.shiftl 32 prescaler in
  let freq := Z.quot CALYPSO_BASE_CLK divider in
  let freq := if freq <=? 0 then 1 else freq in
  s <| tick_ns := Z.quot NANOSECONDS_PER_SECOND freq |>.

Definition calypso_timer_current_count (s : CalypsoTimerState) (now : Z) : Z :=
  if negb (running s) then count s
  else
    let elapsed := now - epoch_ns s in
    let elapsed := if elapsed <? 0 then 0 else elapsed in
    let ticks := Z.quot elapsed (tick_ns s) in
    let period := load s + 1 in
    if has (ctrl s) CTRL_RELOAD then u16 (load s - Z.rem ticks period)
    else if load s <? ticks then 0
    else u16 (load s - ticks).

Definition calypso_timer_schedule_wrap (s : CalypsoTimerState) (now : Z) : CalypsoTimerState :=
  let cur := calypso_timer_current_count s now in
  s <| deadline := Some (now + (cur + 1) * tick_ns s) |>.

(** The timer callback; QEMU has removed the timer from its list before. *)
Definition calypso_timer_tick (s : CalypsoTimerState) (now : Z) : CalypsoTimerState :=
  if negb (running s) then s
  else
    let s := s <| irq := true |> in
    if has (ctrl s) CTRL_RELOAD then
      s <| epoch_ns := now |> <| count := load s |>
        <| deadline := Some (now + (load s + 1) * tick_ns s) |>
    else s <| running := false |> <| count := 0 |>.

Definition calypso_timer_start (s : CalypsoTimerState) (now : Z) : CalypsoTimerState :=
  if load s =? 0 then s
  else
    let s := calypso_timer_recompute_tick s in
    s <| count := load s |> <| running := true |> <| epoch_ns := now |>
      <| deadline := Some (now + (load s + 1) * tick_ns s) |>.

Definition calypso_timer_register_lost (s : CalypsoTimerState) : CalypsoTimerState :=
  s <| is_lost := true |>.

Definition calypso_timer_lost_frame_tick (s : CalypsoTimerState) (fn : Z) : CalypsoTimerState :=
  if negb (is_lost s) || negb (running s) then s
  else
    let period := u32 (load s + 1) in
    let step := u64 (fn * LOST_TICKS_PER_TDMA) mod period in
    s <| lost_latch_count := u16 (load s - step) |> <| lost_latch_active := true |>.

Definition calypso_timer_read (s : CalypsoTimerState) (now offset : Z) : Z * CalypsoTimerState :=
  if offset =? 0x00 then (ctrl s, s)
  else if offset =? 0x02 then (load s, s)
  else if offset =? 0x04 then
    if lost_latch_active s then
      if is_lost s then
        let period := load s + 1 in
        let s := s <| lost_read_phase := u32 (lost_read_phase s + LOST_TICKS_PER_TDMA) mod period |> in
        (u16 (load s - lost_read_phase s), s)
      else (lost_latch_count s, s)
    else (calypso_timer_current_count s now, s)
  else (0, s).

Definition calypso_timer_write (s : CalypsoTimerState) (now offset value : Z) : CalypsoTimerState :=
  if offset =? 0x00 then
    let was_running := running s in
    let old_ctrl := ctrl s in
    let s := s <| ctrl := Z.land value 0xFF |> in
    if calypso_timer_should_run s then
      if negb was_running then calypso_timer_start s now
      else if negb (Z.land old_ctrl CTRL_PRESCALER_MSK =? Z.land (ctrl s) CTRL_PRESCALER_MSK) then
        let s := s <| count := calypso_timer_current_count s now |> in
        let s := calypso_timer_recompute_tick s in
        let s := s <| epoch_ns := now - (load s - count s) * tick_ns s |> in
        calypso_timer_schedule_wrap s now
      else s
    else
      s <| count := calypso_timer_current_count s now |> <| running := false |> <| deadline := None |>
  else if offset =? 0x02 then s <| load := u16 value |>
  else s.

Definition calypso_timer_reset (s : CalypsoTimerState) : CalypsoTimerState :=
  s <| load := 0 |> <| count := 0 |> <| ctrl := 0 |> <| prescaler := 0 |> <| running := false |>
    <| lost_latch_active := false |> <| lost_latch_count := 0 |> <| lost_read_phase := 0 |>
    <| deadline := None |>.

Definition timer_init : CalypsoTimerState :=
  mkTimer 0 0 0 0 0 0 false false 0 0 false None false.

(** ** The operations as one machine *)
Inductive op :=
  | Read (now offset : Z)
  | Write (now offset value : Z)
  | Expire (now : Z)
  | RegisterLost
  | FrameTick (fn : Z)
  | Reset.

Definition step (s : CalypsoTimerState) (o : op) : CalypsoTimerState :=
  match o with
  | Read now offset => snd (calypso_timer_read s now offset)
  | Write now offset value => calypso_timer_write s now offset value
  | Expire now =>
      match deadline s with
      | Some d => if d <=? now then calypso_timer_tick (s <| deadline := None |>) now else s
      | None => s
      end
  | RegisterLost => calypso_timer_register_lost s
  | FrameTick fn => calypso_timer_lost_frame_tick s fn
  | Reset => calypso_timer_reset s
  end.

(** ** Properties *)

(** The duration of one count for a CTRL value. *)
Definition tick_of (c : Z) : Z :=
  tick_ns (calypso_timer_recompute_tick (timer_init <| ctrl := c |>)).

Lemma recompute_tick_of s : tick_ns (calypso_timer_recompute_tick s) = tick_of (ctrl s).
Proof. done. Qed.

Lemma prescaler_cases c :
  0 ≤ Z.shiftr (Z.land c CTRL_PRESCALER_MSK) CTRL_PRESCALER_SH < 8.
Proof.
  pose proof (land_range c CTRL_PRESCALER_MSK). unfold CTRL_PRESCALER_MSK, CTRL_PRESCALER_SH in *.
  rewrite Z.shiftr_div_pow2 by lia. change (2 ^ 2) with 4. mlia.
Qed.

Lemma tick_of_bounds c : 2461 ≤ tick_of c ≤ 315159.
Proof.
  unfold tick_of, calypso_timer_recompute_tick. cbn [tick_ns update_field ctrl].
  generalize (prescaler_cases c). generalize (Z.shiftr (Z.land c CTRL_PRESCALER_MSK) CTRL_PRESCALER_SH).
  intros p Hp. apply (range_split (λ p, _) 8 p); [lia|]. forall_cases; by vm_compute.
Qed.

(** The prescaler field alone decides the duration of a count. *)
Lemma tick_of_prescaler c c' :
  Z.land c CTRL_PRESCALER_MSK = Z.land c' CTRL_PRESCALER_MSK → tick_of c = tick_of c'.
Proof.
  intros E. unfold tick_of, calypso_timer_recompute_tick. cbn [tick_ns update_field ctrl]. by rewrite E.
Qed.

Record timer_wf (s : CalypsoTimerState) : Prop := {
  twf_load : 0 ≤ load s < 65536;
  twf_count : 0 ≤ count s < 65536;
  twf_ctrl : 0 ≤ ctrl s < 256;
  twf_phase : 0 ≤ lost_read_phase s < 65536;
  twf_latch : 0 ≤ lost_latch_count s < 65536;
  (** a running timer has the tick of its prescaler (never zero: the divisions
      by [tick_ns] are defined) and its interrupt is scheduled *)
  twf_tick : running s = true → tick_ns s = tick_of (ctrl s);
  twf_sched : running s = true ↔ deadline s ≠ None
}.

Lemma current_count_range s now : timer_wf s → 0 ≤ calypso_timer_current_count s now < 65536.
Proof.
  intros []. unfold calypso_timer_current_count. repeat case_if; auto with calypso; lia.
Qed.

(** While the timer runs, the value shown is at most [load]. *)
Lemma running_count_le_load s now :
  timer_wf s → running s = true → 0 ≤ calypso_timer_current_count s now ≤ load s.
Proof.
  intros [] Hr. unfold calypso_timer_current_count. rewrite Hr. cbn [negb].
  specialize (twf_tick0 Hr). pose proof (tick_of_bounds (ctrl s)). rewrite twf_tick0.
  set (e := if now - epoch_ns s <? 0 then 0 else now - epoch_ns s).
  assert (0 ≤ e) by (unfold e; case_if; bool_prop; lia).
  assert (0 ≤ Z.quot e (tick_of (ctrl s))) by (apply Z.quot_pos; lia).
  repeat case_if; bool_prop.
  - pose proof (Z.rem_bound_pos (Z.quot e (tick_of (ctrl s))) (load s + 1)).
    rewrite u16_small; lia.
  - lia.
  - rewrite u16_small; lia.
Qed.

#[local] Ltac twf := split; cbn; auto with calypso; try lia; try done; try naive_solver.

Lemma write_ctrl_timer_wf s now value :
  timer_wf s → timer_wf (calypso_timer_write s now 0x00 value).
Proof.
  intros H. unfold calypso_timer_write. cbn [Z.eqb]. cbn zeta.
  pose proof (land_range value 0xFF) as Hc. pose proof H as [].
  set (s1 := s <| ctrl := Z.land value 0xFF |>).
  assert (0 ≤ calypso_timer_current_count s1 now < 65536).
  { unfold calypso_timer_current_count. repeat case_if; auto with calypso; cbn; lia. }
  destruct (calypso_timer_should_run s1); [|twf].
  destruct (running s) eqn:Hr; cbn [negb].
  - destruct (negb _) eqn:E; bool_prop; [twf|].
    twf. intros _. rewrite twf_tick0 by done. by apply tick_of_prescaler.
  - unfold calypso_timer_start. change (load s1) with (load s). destruct (load s =? 0); twf.
Qed.

Lemma timer_step_wf s o : timer_wf s → timer_wf (step s o).
Proof.
  intros H. pose proof H as []. destruct o; cbn [step].
  - unfold calypso_timer_read. repeat case_if; cbn [snd]; try done.
    pose proof (Z.mod_pos_bound (u32 (lost_read_phase s + LOST_TICKS_PER_TDMA)) (load s + 1)). twf.
  - destruct (Z.eqb_spec offset 0x00) as [->|Hne]; [by apply write_ctrl_timer_wf|].
    apply Z.eqb_neq in Hne. unfold calypso_timer_write. rewrite Hne. case_if; [|done]. twf.
  - destruct (deadline s) as [d|] eqn:Hd; [|done]. case_if; [|done].
    assert (running s = true) as Hr by naive_solver.
    unfold calypso_timer_tick. cbn [running update_field]. rewrite Hr. cbn [negb]. case_if; twf.
  - twf.
  - unfold calypso_timer_lost_frame_tick. case_if; [done|]. twf.
  - twf.
Qed.

Lemma timer_init_wf : timer_wf timer_init.
Proof. twf. Qed.

(** In every state reachable from power-on, whatever registers are written
    and whenever the timer expires, a running timer has the tick of its own
    prescaler field (between 2461 and 315159 ns, so the divisions by [tick_ns]
    are defined), and its interrupt is scheduled exactly while it runs. *)
Theorem timer_running_scheduled l :
  let s := run step timer_init l in
  timer_wf s ∧ (running s = true → 2461 ≤ tick_ns s ≤ 315159) ∧
  (running s = true ↔ ∃ d, deadline s = Some d).
Proof.
  cbn zeta. assert (timer_wf (run step timer_init l)) as H.
  { apply (run_invariant step (λ _, True)); auto using timer_step_wf, timer_init_wf.
    by apply Forall_true. }
  split; [done|]. destruct H. split.
  - intros Hr. rewrite twf_tick0 by done. apply tick_of_bounds.
  - rewrite twf_sched0. destruct (deadline _); naive_solver.
Qed.

Lemma land_ctrl_field v m : 0 ≤ m < 256 → Z.land (Z.land v 0xFF) m = Z.land v m.
Proof.
  intros Hm. rewrite <- Z.land_assoc. f_equal. apply Z.bits_inj'. intros n Hn.
  rewrite Z.land_spec. destruct (Z.lt_ge_cases n 8).
  - change 0xFF with (Z.ones 8). by rewrite Z.ones_spec_low by lia.
  - by rewrite (testbit_high 8 m), andb_false_r by lia.
Qed.

Lemma has_ctrl_field v m : 0 ≤ m < 256 → has (Z.land v 0xFF) m = has v m.
Proof. intros. unfold has. by rewrite land_ctrl_field. Qed.

(** The value shown when the countdown is [n] counts old. *)
Lemma current_count_after s n :
  0 ≤ load s < 65536 → running s = true → 0 < tick_ns s → 0 ≤ n ≤ load s →
  calypso_timer_current_count s (epoch_ns s + n * tick_ns s) = load s - n.
Proof.
  intros Hl Hr Ht Hn. unfold calypso_timer_current_count. rewrite Hr. cbn [negb].
  replace (epoch_ns s + n * tick_ns s - epoch_ns s) with (n * tick_ns s) by lia.
  destruct (Z.ltb_spec (n * tick_ns s) 0); [lia|]. rewrite Z.quot_mul by lia.
  case_if; [|destruct (Z.ltb_spec (load s) n); [lia|]].
  - rewrite Z.rem_small, u16_small; lia.
  - rewrite u16_small; lia.
Qed.

(** Changing the prescaler of a running timer does not disturb the count:
    the value read right after the write is the value read right before, and
    the interrupt is rescheduled for the moment that count wraps at the new
    rate. *)
Theorem timer_prescaler_change s now value :
  timer_wf s → running s = true →
  has value CTRL_START = true → has value CTRL_CLOCK_ENABLE = true →
  has value CTRL_RELOAD = has (ctrl s) CTRL_RELOAD →
  Z.land (ctrl s) CTRL_PRESCALER_MSK ≠ Z.land value CTRL_PRESCALER_MSK →
  let c := calypso_timer_current_count s now in
  let s' := calypso_timer_write s now 0x00 value in
  calypso_timer_current_count s' now = c ∧
  deadline s' = Some (now + (c + 1) * tick_of value).
Proof.
  intros Hwf Hr Hs Hc Hrl Hp. cbn zeta. set (c := calypso_timer_current_count s now).
  assert (0 ≤ c ≤ load s) as Hcr by (by apply running_count_le_load).
  unfold calypso_timer_write. cbn [Z.eqb]. cbn zeta. set (s1 := s <| ctrl := Z.land value 0xFF |>).
  assert (calypso_timer_should_run s1 = true) as ->.
  { unfold calypso_timer_should_run. cbn. rewrite !has_ctrl_field, Hs, Hc; [done|by vm_compute..]. }
  rewrite Hr. cbn [negb ctrl s1 update_field]. rewrite land_ctrl_field by done.
  destruct (Z.eqb_spec (Z.land (ctrl s) CTRL_PRESCALER_MSK) (Z.land value CTRL_PRESCALER_MSK)); [done|].
  cbn [negb]. assert (calypso_timer_current_count s1 now = c) as ->.
  { unfold c, calypso_timer_current_count. cbn [s1 ctrl update_field running epoch_ns tick_ns load count].
    by rewrite has_ctrl_field, Hrl by done. }
  set (s2 := calypso_timer_recompute_tick (s1 <| count := c |>)).
  set (s3 := s2 <| epoch_ns := _ |>).
  assert (tick_ns s3 = tick_of value) as Ht.
  { change (tick_of (Z.land value 0xFF) = tick_of value). apply tick_of_prescaler.
    by rewrite land_ctrl_field. }
  pose proof (tick_of_bounds value).
  assert (calypso_timer_current_count s3 now = c) as Hcur.
  { replace now with (epoch_ns s3 + (load s - c) * tick_ns s3).
    - rewrite current_count_after; cbn [s3 s2 s1 load update_field calypso_timer_recompute_tick running]; auto.
      + lia.
      + apply Hwf.
      + rewrite Ht. lia.
      + lia.
    - change (now - (load s - c) * tick_ns s3 + (load s - c) * tick_ns s3 = now). lia. }
  unfold calypso_timer_schedule_wrap. rewrite Hcur. split.
  - exact Hcur.
  - cbn [deadline update_field]. by rewrite Ht.
Qed.

(** A timer of load 1000 running in reload mode, prescaler 0, read and switched
    to prescaler 2 after 100 counts. *)
Definition running_timer : CalypsoTimerState :=
  run step timer_init [Write 0 0x02 1000; Write 5 0x00 0x23].

Lemma timer_prescaler_change_witness :
  calypso_timer_current_count (calypso_timer_write running_timer 246105 0x00 0x2b) 246105 = 900.
Proof.
  refine (eq_trans (proj1 (timer_prescaler_change running_timer 246105 0x2b _ _ _ _ _ _)) _);
    by vm_compute.
Defined.

(** A stopped timer with a non-zero load, started at time [t0], counts down
    by one every [tick_of value] ns: in reload mode modulo [load + 1], in
    one-shot mode down to zero; its interrupt is scheduled for the instant
    after [load + 1] counts. *)
Theorem timer_countdown s t0 value t :
  timer_wf s → running s = false → load s ≠ 0 → t0 ≤ t →
  has value CTRL_START = true → has value CTRL_CLOCK_ENABLE = true →
  let s' := calypso_timer_write s t0 0x00 value in
  let n := (t - t0) / tick_of value in
  calypso_timer_current_count s' t =
    (if has value CTRL_RELOAD then load s - n mod (load s + 1) else Z.max 0 (load s - n)) ∧
  deadline s' = Some (t0 + (load s + 1) * tick_of value).
Proof.
  intros Hwf Hr Hl Ht Hs Hc. cbn zeta. pose proof (twf_load _ Hwf). pose proof (tick_of_bounds value).
  unfold calypso_timer_write. cbn [Z.eqb]. cbn zeta. set (s1 := s <| ctrl := Z.land value 0xFF |>).
  assert (calypso_timer_should_run s1 = true) as ->.
  { unfold calypso_timer_should_run. cbn. rewrite !has_ctrl_field, Hs, Hc; [done|by vm_compute..]. }
  rewrite Hr. cbn [negb]. unfold calypso_timer_start. change (load s1) with (load s).
  destruct (Z.eqb_spec (load s) 0); [done|].
  set (s2 := _ <| deadline := _ |>).
  assert (tick_ns s2 = tick_of value) as Htk.
  { change (tick_of (Z.land value 0xFF) = tick_of value). apply tick_of_prescaler.
    by rewrite land_ctrl_field. }
  split.
  - unfold calypso_timer_current_count. change (running s2) with true. cbn [negb].
    change (epoch_ns s2) with t0. change (load s2) with (load s). rewrite Htk.
    change (ctrl s2) with (Z.land value 0xFF). rewrite has_ctrl_field by done.
    destruct (Z.ltb_spec (t - t0) 0); [lia|]. rewrite Z.quot_div_nonneg by lia.
    assert (0 ≤ (t - t0) / tick_of value) by (apply Z.div_pos; lia).
    case_if.
    + rewrite Z.rem_mod_nonneg by lia.
      pose proof (Z.mod_pos_bound ((t - t0) / tick_of value) (load s + 1)). rewrite u16_small; lia.
    + destruct (Z.ltb_spec (load s) ((t - t0) / tick_of value)); [lia|]. rewrite u16_small; lia.
  - change (deadline s2) with (Some (t0 + (load s + 1) * tick_ns s2)). by rewrite Htk.
Qed.

Lemma timer_countdown_witness :
  calypso_timer_current_count (calypso_timer_write (timer_init <| load := 10 |>) 0 0x00 0x23) 30000 = 9.
Proof.
  refine (eq_trans (proj1 (timer_countdown (timer_init <| load := 10 |>) 0 0x23 30000 _ _ _ _ _ _)) _);
    by vm_compute.
Defined.
End TIMER.
