(* ===== verification/Ring.v ===== *)
(** * Ring buffers

    The UART, the SIM interface and the IOTA model keep bytes or events in a
    fixed array of [N] slots indexed modulo [N].  This file relates the array,
    the index of the oldest element and the number of elements to the list of
    the elements in order, for an array of any element type; the components
    prove that their operations refine queue operations on that list. *)
From S2P Require Import Prelude.

Section ring.
  Context {A : Type} (dflt : A) (N : Z) (HN : 0 < N).

(** Slot [i] of the array. *)
Definition slot (buf : list A) (i : Z) : A := default dflt (buf !! Z.to_nat i).

(** The [count] elements from index [tail] on, oldest first. *)
Definition ring_contents (buf : list A) (tail count : Z) : list A :=
  (λ k, slot buf ((tail + k) mod N)) <$> zseq 0 (Z.to_nat count).

Definition ring_ok (buf : list A) (head tail count : Z) : Prop :=
  zlen buf = N ∧ 0 ≤ tail < N ∧ 0 ≤ count ≤ N ∧ head = (tail + count) mod N.

Lemma length_ring_contents buf tail count : 0 ≤ count → zlen (ring_contents buf tail count) = count.
Proof. intros. unfold zlen, ring_contents. rewrite length_fmap, length_zseq. lia. Qed.

Lemma ring_contents_empty buf tail : ring_contents buf tail 0 = [].
Proof. done. Qed.

Lemma ring_head_range buf head tail count : ring_ok buf head tail count → 0 ≤ head < N.
Proof. intros (_ & _ & _ & ->). apply Z.mod_pos_bound. lia. Qed.

(** The slot of the [k]-th element is not the slot of the head. *)
Lemma ring_slots_distinct tail count k :
  0 ≤ tail < N → 0 ≤ k < count → count < N → (tail + k) mod N ≠ (tail + count) mod N.
Proof using HN.
  intros Ht Hk Hc E.
  assert ((tail + count - (tail + k)) mod N = 0) as E'.
  { rewrite Zminus_mod, E, Z.sub_diag. by apply Z.mod_0_l; lia. }
  replace (tail + count - (tail + k)) with (count - k) in E' by lia.
  rewrite Z.mod_small in E'; lia.
Qed.

(** Storing at the head and advancing it appends to the contents. *)
Lemma ring_push buf head tail count d :
  ring_ok buf head tail count → count < N →
  ring_ok (<[Z.to_nat head := d]> buf) ((head + 1) mod N) tail (count + 1) ∧
  ring_contents (<[Z.to_nat head := d]> buf) tail (count + 1) = ring_contents buf tail count ++ [d].
Proof using HN.
  intros Hok Hc. pose proof (ring_head_range _ _ _ _ Hok) as Hh.
  destruct Hok as (Hl & Ht & Hcount & ->). split.
  { repeat split; try lia; unfold zlen in *; rewrite ?length_insert; try lia.
    rewrite Zplus_mod_idemp_l. f_equal. lia. }
  unfold ring_contents. replace (Z.to_nat (count + 1)) with (S (Z.to_nat count)) by lia.
  rewrite zseq_S, fmap_app. f_equal.
  - apply list_fmap_ext. intros i k Hk. apply list_elem_of_lookup_2, elem_of_zseq in Hk.
    unfold slot. rewrite list_lookup_insert_ne; [done|].
    pose proof (ring_slots_distinct tail count k). pose proof (Z.mod_pos_bound (tail + k) N). lia.
  - cbn. unfold slot. replace (tail + (0 + Z.of_nat (Z.to_nat count))) with (tail + count) by lia.
    rewrite list_lookup_insert_eq; [done|]. unfold zlen in Hl. lia.
Qed.

(** Reading at the tail and advancing it removes the oldest element. *)
Lemma ring_pop buf head tail count :
  ring_ok buf head tail count → 0 < count →
  ring_ok buf head ((tail + 1) mod N) (count - 1) ∧
  ring_contents buf tail count = slot buf tail :: ring_contents buf ((tail + 1) mod N) (count - 1).
Proof using HN.
  intros (Hl & Ht & Hc & ->) Hpos. split.
  { pose proof (Z.mod_pos_bound (tail + 1) N). repeat split; try lia.
    rewrite Zplus_mod_idemp_l. f_equal. lia. }
  unfold ring_contents. replace (Z.to_nat count) with (S (Z.to_nat (count - 1))) by lia.
  rewrite zseq_cons. cbn [fmap list_fmap]. f_equal.
  - rewrite Z.add_0_r, Z.mod_small by lia. done.
  - change (0 + 1) with 1. assert (zseq 1 (Z.to_nat (count - 1)) = (λ k, 1 + k) <$> zseq 0 (Z.to_nat (count - 1))) as ->.
    { unfold zseq. rewrite <- list_fmap_compose. apply list_fmap_ext. intros; cbn; lia. }
    rewrite <- list_fmap_compose. apply list_fmap_ext. intros i k _. cbn.
    rewrite Zplus_mod_idemp_l. do 2 f_equal. lia.
Qed.

Lemma ring_empty buf tail :
  zlen buf = N → 0 ≤ tail < N → ring_ok buf tail tail 0.
Proof using HN. intros. repeat split; try lia. rewrite Z.add_0_r, Z.mod_small; lia. Qed.

End ring.

(** ** Queue operations: the specification the rings implement *)
Inductive qop (A : Type) :=
  | Push (x : A)
  | Pop
  | Clear.
Arguments Push {A}.
Arguments Pop {A}.
Arguments Clear {A}.

(** A queue of at most [cap] elements: a full queue refuses the new element. *)
Definition qstep {A} (cap : Z) (q : list A) (o : qop A) : list A :=
  match o with
  | Push x => if zlen q <? cap then q ++ [x] else q
  | Pop => tail q
  | Clear => []
  end.

Definition qrun {A} (cap : Z) : list A → list (qop A) → list A := run (qstep cap).

Lemma qrun_push_fits {A} cap (q l : list A) :
  zlen q + zlen l ≤ cap → qrun cap q (Push <$> l) = q ++ l.
Proof.
  revert q. unfold qrun. induction l as [|x l IH]; intros q Hl; cbn; [by rewrite app_nil_r|].
  unfold zlen in *. cbn in Hl. unfold zlen. destruct (Z.ltb_spec (Z.of_nat (length q)) cap); [|lia].
  change (run (qstep cap) (q ++ [x]) (Push <$> l) = q ++ x :: l).
  rewrite IH; [by rewrite <- app_assoc|]. rewrite length_app. cbn. lia.
Qed.
