(* ===== verification/FreeRing.v ===== *)
(** * Rings with free-running counters

    The access-attempt queue of the transceiver and the SDCCH and speech queues
    of the gr-gsm layer 1 index an array of [N] slots by 32-bit counters that
    are never reduced: the slot is the counter modulo [N], the number of
    elements the difference of the counters modulo 2^32, so that a full ring
    and an empty one are told apart.  [N] divides 2^32. *)
From S2P Require Import Prelude Ring.

Section freering.
  Context {A : Type} (dflt : A) (N : Z) (HN : 0 < N) (Hlt : N < 4294967296) (Hdiv : 4294967296 mod N = 0).

Definition fr_count (r w : Z) : Z := u32 (w - r).

(** The elements, oldest first. *)
Definition fr_contents (buf : list A) (r w : Z) : list A := ring_contents dflt N buf (r mod N) (fr_count r w).

Definition fr_ok (buf : list A) (r w : Z) : Prop :=
  zlen buf = N ∧ 0 ≤ r < 4294967296 ∧ 0 ≤ w < 4294967296 ∧ fr_count r w ≤ N.

Lemma u32_mod x : u32 x mod N = x mod N.
Proof using HN Hdiv.
  unfold u32. assert (4294967296 = N * (4294967296 / N)) as E.
  { apply Z.div_exact; lia. }
  rewrite (Z.mod_eq x 4294967296) by lia. rewrite E at 1.
  replace (x - N * (4294967296 / N) * (x / 4294967296))
    with (x + (- (4294967296 / N * (x / 4294967296))) * N) by lia.
  apply Z.mod_add. lia.
Qed.

Lemma fr_ring buf r w : fr_ok buf r w → ring_ok N buf (w mod N) (r mod N) (fr_count r w).
Proof using HN Hdiv.
  intros (Hl & Hr & Hw & Hc). pose proof (Z.mod_pos_bound r N HN). pose proof (u32_range (w - r)).
  unfold fr_count in *. repeat split; try lia.
  rewrite Zplus_mod_idemp_l, Z.add_mod, u32_mod, <- Z.add_mod by lia. f_equal. lia.
Qed.

Lemma fr_count_range r w : 0 ≤ fr_count r w.
Proof. apply u32_range. Qed.

Lemma fr_length buf r w : zlen (fr_contents buf r w) = fr_count r w.
Proof. apply length_ring_contents, fr_count_range. Qed.

Lemma fr_empty_iff r w : 0 ≤ r < 4294967296 → 0 ≤ w < 4294967296 → fr_count r w = 0 ↔ r = w.
Proof. unfold fr_count, u32. intros. split; intros; mlia. Qed.

Lemma fr_empty buf r : zlen buf = N → 0 ≤ r < 4294967296 → fr_ok buf r r ∧ fr_contents buf r r = [].
Proof using HN.
  intros Hl Hr. assert (fr_count r r = 0) as E by (by apply fr_empty_iff).
  unfold fr_ok, fr_contents. rewrite E. repeat split; try lia; try done.
Qed.

(** [buf[w++ % N] = x] with room. *)
Lemma fr_push buf r w x :
  fr_ok buf r w → fr_count r w < N →
  fr_ok (<[Z.to_nat (w mod N) := x]> buf) r (u32 (w + 1)) ∧
  fr_contents (<[Z.to_nat (w mod N) := x]> buf) r (u32 (w + 1)) = fr_contents buf r w ++ [x].
Proof using HN Hlt Hdiv.
  intros Hok Hroom. pose proof (ring_push dflt N HN _ _ _ _ x (fr_ring _ _ _ Hok) Hroom) as [_ Hc].
  destruct Hok as (Hl & Hr & Hw & Hn).
  assert (fr_count r (u32 (w + 1)) = fr_count r w + 1) as E.
  { unfold fr_count in *. pose proof (u32_range (w - r)). unfold u32 in *. mlia. }
  split.
  - repeat split; try lia; try apply u32_range. unfold zlen in *. by rewrite length_insert.
  - unfold fr_contents. rewrite E. exact Hc.
Qed.

(** [x = buf[r++ % N]] with an element. *)
Lemma fr_pop buf r w :
  fr_ok buf r w → r ≠ w →
  fr_ok buf (u32 (r + 1)) w ∧
  fr_contents buf r w = slot dflt buf (r mod N) :: fr_contents buf (u32 (r + 1)) w.
Proof using HN Hlt Hdiv.
  intros Hok Hne. assert (0 < fr_count r w) as Hpos.
  { destruct Hok as (_ & Hr & Hw & _). pose proof (fr_count_range r w).
    destruct (Z.eq_dec (fr_count r w) 0) as [E|]; [|lia]. exfalso. apply Hne. apply fr_empty_iff; lia. }
  pose proof (ring_pop dflt N HN _ _ _ _ (fr_ring _ _ _ Hok) Hpos) as [_ Hc].
  destruct Hok as (Hl & Hr & Hw & Hn).
  assert (fr_count (u32 (r + 1)) w = fr_count r w - 1) as E.
  { unfold fr_count, u32 in *. mlia. }
  split.
  - repeat split; try lia; apply u32_range.
  - unfold fr_contents. rewrite E, u32_mod, Hc. rewrite Zplus_mod_idemp_l. done.
Qed.

(** Dropping the oldest element of a ring that is full. *)
Lemma fr_drop buf r w :
  fr_ok buf r w → r ≠ w → fr_contents buf (u32 (r + 1)) w = tail (fr_contents buf r w).
Proof using HN Hlt Hdiv. intros Hok Hne. by rewrite (proj2 (fr_pop buf r w Hok Hne)). Qed.

(** The oldest element replaced in place. *)
Lemma fr_update_head buf r w x :
  fr_ok buf r w → r ≠ w →
  let buf' := <[Z.to_nat (r mod N) := x]> buf in
  fr_ok buf' r w ∧ fr_contents buf' r w = x :: fr_contents buf (u32 (r + 1)) w ∧
  fr_contents buf' (u32 (r + 1)) w = fr_contents buf (u32 (r + 1)) w.
Proof using HN Hlt Hdiv.
  intros Hok Hne buf'. pose proof (Z.mod_pos_bound r N HN) as Hm.
  assert (fr_ok buf' r w) as Hok'.
  { destruct Hok as (? & ? & ? & ?). subst buf'. repeat split; try lia. unfold zlen in *. by rewrite length_insert. }
  destruct (fr_pop _ _ _ Hok Hne) as [_ E0]. destruct (fr_pop _ _ _ Hok' Hne) as [_ E].
  assert (fr_contents buf' (u32 (r + 1)) w = fr_contents buf (u32 (r + 1)) w) as E1.
  { apply (f_equal (@zlen A)) in E0. unfold zlen in E0 at 2. cbn [length] in E0. fold (zlen (fr_contents buf (u32 (r + 1)) w)) in E0.
    rewrite Nat2Z.inj_succ in E0. fold (zlen (fr_contents buf (u32 (r + 1)) w)) in E0. rewrite !fr_length in E0.
    destruct Hok as (_ & _ & _ & Hc). unfold fr_contents, ring_contents. apply list_fmap_ext. intros i k Hk.
    apply list_elem_of_lookup_2, elem_of_zseq in Hk. unfold slot, buf'. rewrite list_lookup_insert_ne; [done|].
    rewrite u32_mod, Zplus_mod_idemp_l. intros Heq.
    pose proof (Z.mod_pos_bound (r + 1 + k) N HN). assert (r mod N = (r + 1 + k) mod N) as Heq' by lia.
    apply (ring_slots_distinct N HN (r mod N) (1 + k) 0); [lia|lia|lia|].
    rewrite Z.add_0_r, Zmod_mod, Zplus_mod_idemp_l, Heq'. f_equal. lia. }
  split; [done|]. split; [|done]. rewrite E, E1. f_equal. unfold slot, buf'.
  rewrite list_lookup_insert_eq; [done|]. destruct Hok as (Hl & _). unfold zlen in Hl. lia.
Qed.

End freering.

(** A queue of at most [cap] elements where a new element displaces the oldest. *)
Definition push_drop {A} (cap : Z) (q : list A) (x : A) : list A :=
  (if cap <=? zlen q then tail q else q) ++ [x].

(** [if (w - r >= N) r++; buf[w++ % N] = x] is [push_drop]. *)
Lemma fr_push_drop {A} (dflt : A) N buf r w x :
  0 < N → N < 4294967296 → 4294967296 mod N = 0 → fr_ok N buf r w →
  let r' := if N <=? fr_count r w then u32 (r + 1) else r in
  fr_ok N (<[Z.to_nat (w mod N) := x]> buf) r' (u32 (w + 1)) ∧
  fr_contents dflt N (<[Z.to_nat (w mod N) := x]> buf) r' (u32 (w + 1)) =
    push_drop N (fr_contents dflt N buf r w) x.
Proof.
  intros HN Hlt Hd Hok. unfold push_drop. rewrite fr_length. cbn zeta. destruct (Z.leb_spec N (fr_count r w)) as [H|H].
  - assert (r ≠ w) as Hne.
    { intros ->. destruct Hok as (_ & Hr & _). unfold fr_count in H. rewrite Z.sub_diag in H.
      change (u32 0) with 0 in H. lia. }
    destruct (fr_pop dflt N HN Hlt Hd buf r w Hok Hne) as [Hok' Hc].
    assert (fr_count (u32 (r + 1)) w < N) as Hroom.
    { pose proof (fr_length dflt N buf r w). pose proof (fr_length dflt N buf (u32 (r + 1)) w).
      rewrite Hc in *. unfold zlen in *. cbn [length] in *. destruct Hok as (_ & _ & _ & ?). lia. }
    destruct (fr_push dflt N HN Hlt Hd buf (u32 (r + 1)) w x Hok' Hroom) as [H1 H2].
    split; [done|]. rewrite H2, Hc. done.
  - by apply fr_push.
Qed.
