(* ===== verification/Uart.v ===== *)
(** * The UART ([hw/char/calypso_uart.c])

    A 16550-like UART with an 8192-byte receive ring, the interrupt
    identification logic, and the boot-ROM download stub that answers the
    "romload" protocol on the modem port before the firmware runs.

    The character back-end is outside of the program: the bytes handed to
    [qemu_chr_fe_write] and [qemu_chr_fe_write_all] are appended to [chr_out],
    those handed to [calypso_l1_do_uart_tx_byte] to [l1_tx].
    [qemu_chr_fe_accept_input] tells the back-end that it may deliver again;
    the bytes it delivers are a later [Receive] step. *)
From stdpp Require Import strings.
From S2P Require Import Prelude Ring.

Module UART.

Definition CALYPSO_UART_RX_FIFO_SIZE : Z := 8192.

Definition IER_RX_DATA : Z := 0x01.
Definition IER_TX_EMPTY : Z := 0x02.
Definition IER_RX_LINE : Z := 0x04.
Definition IIR_NO_INT : Z := 0x01.
Definition IIR_RX_LINE : Z := 0x06.
Definition IIR_RX_DATA : Z := 0x04.
Definition IIR_TX_EMPTY : Z := 0x02.
Definition LCR_DLAB : Z := 0x80.
Definition LCR_CONF_BF : Z := 0xBF.
Definition LSR_DR : Z := 0x01.
Definition LSR_OE : Z := 0x02.
Definition LSR_THRE : Z := 0x20.
Definition LSR_TEMT : Z := 0x40.
Definition MSR_CTS : Z := 0x10.
Definition MSR_DSR : Z := 0x20.
Definition MSR_DCD : Z := 0x80.
Definition FCR_RX_RESET : Z := 0x02.
Definition FCR_TX_RESET : Z := 0x04.
Definition SSR_TX_FIFO_FULL : Z := 0x01.

Inductive RomloadState :=
  | ROM_IDLE
  | ROM_AFTER_3C
  | ROM_BLOCK_DATA
  | ROM_CHK_DATA
  | ROM_BR_DATA
  | ROM_PASSTHROUGH.

#[export] Instance RomloadState_eq_dec : EqDecision RomloadState.
Proof. solve_decision. Defined.

(** The static variable [romload] of the file. *)
Record Romload := mkRomload {
  state : RomloadState;
  needed : Z;
  payload_size : Z
}.

Record CalypsoUARTState := mkUART {
  label : option string;
  ier : Z; iir : Z; fcr : Z; lcr : Z; mcr : Z; lsr : Z; msr : Z; spr : Z;
  dll : Z; dlh : Z; mdr1 : Z;
  efr : Z; xon1 : Z; xon2 : Z; xoff1 : Z; xoff2 : Z; scr : Z; ssr : Z;
  wakeup_pending : bool;
  rx_fifo : list Z;
  rx_head : Z; rx_tail : Z; rx_count : Z;
  thr_empty_pending : bool;
  tx_empty_reads : Z;
  (** the interrupt line, the romload variable, and the bytes sent out *)
  irq : bool;
  romload : Romload;
  chr_out : list Z;
  l1_tx : list Z
}.

#[export] Instance romload_eta : Settable Romload := λ r,
  mkRomload (state r) (needed r) (payload_size r).

#[export] Instance uart_eta : Settable CalypsoUARTState := λ s,
  mkUART (label s) (ier s) (iir s) (fcr s) (lcr s) (mcr s) (lsr s) (msr s) (spr s)
    (dll s) (dlh s) (mdr1 s) (efr s) (xon1 s) (xon2 s) (xoff1 s) (xoff2 s) (scr s) (ssr s)
    (wakeup_pending s) (rx_fifo s) (rx_head s) (rx_tail s) (rx_count s)
    (thr_empty_pending s) (tx_empty_reads s) (irq s) (romload s) (chr_out s) (l1_tx s).

Definition has_label (s : CalypsoUARTState) (name : string) : bool :=
  match label s with Some l => String.eqb l name | None => false end.

(** ** The receive ring *)
Definition fifo_reset (s : CalypsoUARTState) : CalypsoUARTState :=
  s <| rx_head := 0 |> <| rx_tail := 0 |> <| rx_count := 0 |>.

Definition fifo_push (s : CalypsoUARTState) (data : Z) : CalypsoUARTState :=
  if CALYPSO_UART_RX_FIFO_SIZE <=? rx_count s then s <| lsr := Z.lor (lsr s) LSR_OE |>
  else
    s <| rx_fifo := wr (rx_fifo s) (rx_head s) data |>
      <| rx_head := (rx_head s + 1) mod CALYPSO_UART_RX_FIFO_SIZE |>
      <| rx_count := u16 (rx_count s + 1) |>.

Definition fifo_pop (s : CalypsoUARTState) : Z * CalypsoUARTState :=
  if rx_count s =? 0 then (0, s)
  else
    (rd (rx_fifo s) (rx_tail s),
     s <| rx_tail := (rx_tail s + 1) mod CALYPSO_UART_RX_FIFO_SIZE |>
       <| rx_count := u16 (rx_count s - 1) |>).

(** ** Interrupts *)
Definition calypso_uart_update_irq (s : CalypsoUARTState) : CalypsoUARTState :=
  let '(iir', want) :=
    if has (ier s) IER_RX_LINE && has (lsr s) LSR_OE then (IIR_RX_LINE, true)
    else if has (ier s) IER_RX_DATA && has (lsr s) LSR_DR then (IIR_RX_DATA, true)
    else if has (ier s) IER_TX_EMPTY && thr_empty_pending s then (IIR_TX_EMPTY, true)
    else (IIR_NO_INT, false) in
  let want := if wakeup_pending s && has (scr s) 0x10 then true else want in
  let s := s <| iir := iir' |> <| irq := false |> in
  if want then s <| irq := true |> else s.

Definition calypso_uart_kick_rx (s : CalypsoUARTState) : CalypsoUARTState :=
  if (0 <? rx_count s) && has (lsr s) LSR_DR then
    calypso_uart_update_irq (s <| irq := false |>)
  else s.

Definition calypso_uart_kick_tx (s : CalypsoUARTState) : CalypsoUARTState :=
  calypso_uart_update_irq s.

Definition calypso_uart_inject_raw (s : CalypsoUARTState) (buf : list Z) : CalypsoUARTState :=
  let s := foldl fifo_push s buf in
  if 0 <? rx_count s then
    let s := s <| lsr := Z.lor (lsr s) LSR_DR |> in
    let s := if has (scr s) 0x10 then s <| wakeup_pending := true |> else s in
    calypso_uart_update_irq s
  else s.

Definition calypso_uart_force_init (s : CalypsoUARTState) : CalypsoUARTState :=
  let s := if negb (mdr1 s =? 0x00) then s <| mdr1 := 0x00 |> <| scr := 0x01 |> else s in
  calypso_uart_update_irq (s <| ier := 0x03 |>).

(** ** The boot-ROM download stub *)
Definition calypso_uart_romload_passthrough (s : CalypsoUARTState) : CalypsoUARTState :=
  s <| romload := romload s <| state := ROM_PASSTHROUGH |> |>.

Definition write_all (s : CalypsoUARTState) (bytes : list Z) : CalypsoUARTState :=
  s <| chr_out := chr_out s ++ bytes |>.

Definition goto (s : CalypsoUARTState) (st : RomloadState) (n : Z) : CalypsoUARTState :=
  s <| romload := mkRomload st n (payload_size (romload s)) |>.

(** [true] when the stub consumes the byte. *)
Definition romload_stub_eat (s : CalypsoUARTState) (b : Z) : bool * CalypsoUARTState :=
  let r := romload s in
  match state r with
  | ROM_PASSTHROUGH => (false, s)
  | ROM_IDLE => (true, if b =? 0x3c then goto s ROM_AFTER_3C (needed r) else s)
  | ROM_AFTER_3C =>
      (true,
       if b =? 0x69 then
         goto (write_all s [0x3e; 0x69; 0x3e; 0x70;
                            Z.land (payload_size r + 10) 0xFF;
                            Z.land (Z.shiftr (payload_size r + 10) 8) 0xFF])
           ROM_IDLE (needed r)
       else if b =? 0x77 then goto s ROM_BLOCK_DATA (8 + payload_size r)
       else if b =? 0x63 then goto s ROM_CHK_DATA 1
       else if b =? 0x62 then goto s ROM_BR_DATA 4
       else goto s ROM_IDLE (needed r))
  | ROM_BLOCK_DATA =>
      (true,
       if needed r - 1 =? 0 then goto (write_all s [0x3e; 0x77]) ROM_IDLE (needed r - 1)
       else goto s ROM_BLOCK_DATA (needed r - 1))
  | ROM_CHK_DATA =>
      (true,
       if needed r - 1 =? 0 then goto (write_all s [0x3e; 0x63; b]) ROM_IDLE (needed r - 1)
       else goto s ROM_CHK_DATA (needed r - 1))
  | ROM_BR_DATA =>
      (true,
       if needed r - 1 =? 0 then goto (write_all s [0x3e; 0x62]) ROM_PASSTHROUGH (needed r - 1)
       else goto s ROM_BR_DATA (needed r - 1))
  end.

Definition calypso_uart_can_receive (s : CalypsoUARTState) : Z :=
  CALYPSO_UART_RX_FIFO_SIZE - rx_count s.

(** The loop of the modem port: the bytes the stub leaves, in order. *)
Definition filter_step : CalypsoUARTState * list Z → Z → CalypsoUARTState * list Z :=
  λ '(s, passthrough) b,
    let '(eaten, s') := romload_stub_eat s b in
    (s', if (eaten : bool) then passthrough else passthrough ++ [b]).

Definition romload_filter (s : CalypsoUARTState) (buf : list Z) : CalypsoUARTState * list Z :=
  foldl filter_step (s, []) buf.

Definition calypso_uart_receive (s : CalypsoUARTState) (buf : list Z) : CalypsoUARTState :=
  if has_label s "irda" then
    let s := foldl fifo_push s buf in
    let s := if 0 <? rx_count s then s <| lsr := Z.lor (lsr s) LSR_DR |> else s in
    calypso_uart_update_irq s
  else if has_label s "modem" then
    let '(s, passthrough) := romload_filter s buf in
    if 0 <? zlen passthrough then calypso_uart_inject_raw s passthrough else s
  else
    let s := calypso_uart_inject_raw s buf in
    let s := if 0 <? rx_count s then s <| lsr := Z.lor (lsr s) LSR_DR |> else s in
    calypso_uart_update_irq s.

(** ** Registers *)
Definition read_iir (s : CalypsoUARTState) : CalypsoUARTState :=
  if Z.land (iir s) 0x0F =? IIR_TX_EMPTY then
    let s := s <| tx_empty_reads := u8 (tx_empty_reads s + 1) |> in
    if 2 <=? tx_empty_reads s then
      calypso_uart_update_irq (s <| thr_empty_pending := false |> <| tx_empty_reads := 0 |>)
    else s
  else s.

Definition read_rbr (s : CalypsoUARTState) : Z * CalypsoUARTState :=
  let '(val, s) := fifo_pop s in
  let s := if 0 <? rx_count s then s <| lsr := Z.lor (lsr s) LSR_DR |>
           else s <| lsr := clr (lsr s) LSR_DR |> in
  (val, calypso_uart_update_irq s).

Definition calypso_uart_read (s : CalypsoUARTState) (offset : Z) : Z * CalypsoUARTState :=
  let dlab := has (lcr s) LCR_DLAB in
  let bf := lcr s =? LCR_CONF_BF in
  match offset with
  | 0x00 => if dlab then (dll s, s) else read_rbr s
  | 0x01 => (if dlab then dlh s else ier s, s)
  | 0x02 => if bf then (efr s, s) else (iir s, read_iir s)
  | 0x03 => (lcr s, s)
  | 0x04 => (if bf then xon1 s else mcr s, s)
  | 0x05 => if bf then (xon2 s, s) else (lsr s, s <| lsr := clr (lsr s) LSR_OE |>)
  | 0x06 => (if bf then xoff1 s else Z.lor (Z.lor MSR_CTS MSR_DSR) MSR_DCD, s)
  | 0x07 => (if bf then xoff2 s else spr s, s)
  | 0x08 => (mdr1 s, s)
  | 0x10 => (scr s, s)
  | 0x11 =>
      let val := clr (ssr s) SSR_TX_FIFO_FULL in
      (if wakeup_pending s && has (scr s) 0x10 then Z.lor val 0x02 else val, s)
  | _ => (0, s)
  end.

Definition write_thr (s : CalypsoUARTState) (value : Z) : CalypsoUARTState :=
  let ch := u8 value in
  let s := write_all s [ch] in
  let s := if has_label s "modem" then s <| l1_tx := l1_tx s ++ [ch] |> else s in
  calypso_uart_update_irq
    (s <| lsr := Z.lor (lsr s) (Z.lor LSR_THRE LSR_TEMT) |> <| thr_empty_pending := true |>
       <| tx_empty_reads := 0 |>).

Definition write_ier (s : CalypsoUARTState) (value : Z) : CalypsoUARTState :=
  let old := ier s in
  let s := s <| ier := Z.land value 0x0F |> in
  let s := if negb (has old IER_TX_EMPTY) && has (ier s) IER_TX_EMPTY && has (lsr s) LSR_THRE
           then s <| thr_empty_pending := true |> else s in
  calypso_uart_update_irq s.

Definition write_fcr (s : CalypsoUARTState) (value : Z) : CalypsoUARTState :=
  let s := s <| fcr := u8 value |> in
  let s := if has value FCR_RX_RESET then
             let s := fifo_reset s in s <| lsr := clr (lsr s) LSR_DR |> else s in
  let s := if has value FCR_TX_RESET then
             s <| thr_empty_pending := false |>
               <| lsr := Z.lor (lsr s) (Z.lor LSR_THRE LSR_TEMT) |> else s in
  calypso_uart_update_irq s.

Definition write_scr (s : CalypsoUARTState) (value : Z) : CalypsoUARTState :=
  let s := s <| scr := u8 value |> in
  let s := if negb (has value 0x10) then s <| wakeup_pending := false |> else s in
  calypso_uart_update_irq s.

Definition calypso_uart_write (s : CalypsoUARTState) (offset value : Z) : CalypsoUARTState :=
  let dlab := has (lcr s) LCR_DLAB in
  let bf := lcr s =? LCR_CONF_BF in
  match offset with
  | 0x00 => if dlab then s <| dll := u8 value |> else write_thr s value
  | 0x01 => if dlab then s <| dlh := u8 value |> else write_ier s value
  | 0x02 => if bf then s <| efr := u8 value |> else write_fcr s value
  | 0x03 => s <| lcr := u8 value |>
  | 0x04 => if bf then s <| xon1 := u8 value |> else s <| mcr := u8 value |>
  | 0x05 => if bf then s <| xon2 := u8 value |> else s
  | 0x06 => if bf then s <| xoff1 := u8 value |> else s
  | 0x07 => if bf then s <| xoff2 := u8 value |> else s <| spr := u8 value |>
  | 0x08 => s <| mdr1 := u8 value |>
  | 0x10 => write_scr s value
  | 0x11 => s <| ssr := u8 value |>
  | _ => s
  end.

Definition calypso_uart_reset_state (s : CalypsoUARTState) : CalypsoUARTState :=
  fifo_reset
    (s <| ier := 0 |> <| iir := IIR_NO_INT |> <| fcr := 0 |> <| lcr := 0 |> <| mcr := 0 |>
       <| lsr := Z.lor LSR_THRE LSR_TEMT |> <| msr := Z.lor (Z.lor MSR_CTS MSR_DSR) MSR_DCD |>
       <| spr := 0 |> <| dll := 0 |> <| dlh := 0 |> <| mdr1 := 0 |>
       <| efr := 0 |> <| xon1 := 0 |> <| xon2 := 0 |> <| xoff1 := 0 |> <| xoff2 := 0 |>
       <| scr := 0 |> <| ssr := 0 |> <| thr_empty_pending := false |>).

Definition uart_init (name : option string) : CalypsoUARTState :=
  calypso_uart_reset_state
    (mkUART name 0 0 0 0 0 0 0 0 0 0 0 0 0 0 0 0 0 0 false
       (replicate (Z.to_nat CALYPSO_UART_RX_FIFO_SIZE) 0) 0 0 0 false 0 false (mkRomload ROM_IDLE 0 1024) [] []).

(** ** The operations as one machine *)
Inductive op :=
  | Receive (buf : list Z)
  | Inject (buf : list Z)
  | Read (offset : Z)
  | Write (offset value : Z)
  | KickRx
  | KickTx
  | ForceInit
  | RomloadPassthrough
  | Reset.

Definition step (s : CalypsoUARTState) (o : op) : CalypsoUARTState :=
  match o with
  | Receive buf => calypso_uart_receive s buf
  | Inject buf => calypso_uart_inject_raw s buf
  | Read offset => snd (calypso_uart_read s offset)
  | Write offset value => calypso_uart_write s offset value
  | KickRx => calypso_uart_kick_rx s
  | KickTx => calypso_uart_kick_tx s
  | ForceInit => calypso_uart_force_init s
  | RomloadPassthrough => calypso_uart_romload_passthrough s
  | Reset => calypso_uart_reset_state s
  end.

(** ** The receive ring as a queue *)

(** The bytes waiting, oldest first. *)
Definition fifo (s : CalypsoUARTState) : list Z :=
  ring_contents 0 CALYPSO_UART_RX_FIFO_SIZE (rx_fifo s) (rx_tail s) (rx_count s).

(** The bytes a delivery puts into the ring. *)
Definition delivered (s : CalypsoUARTState) (buf : list Z) : list Z :=
  if has_label s "irda" then buf
  else if has_label s "modem" then snd (romload_filter s buf) else buf.

(** The queue operations an operation of the device stands for. *)
Definition rx_ops (s : CalypsoUARTState) (o : op) : list (qop Z) :=
  match o with
  | Receive buf => Push <$> delivered s buf
  | Inject buf => Push <$> buf
  | Read offset => if (offset =? 0x00) && negb (has (lcr s) LCR_DLAB) then [Pop] else []
  | Write offset value =>
      if (offset =? 0x02) && negb (lcr s =? LCR_CONF_BF) && has value FCR_RX_RESET
      then [Clear] else []
  | Reset => [Clear]
  | _ => []
  end.

(** The conditions that request an interrupt. *)
Definition irq_wanted (s : CalypsoUARTState) : bool :=
  (has (ier s) IER_RX_LINE && has (lsr s) LSR_OE) ||
  (has (ier s) IER_RX_DATA && has (lsr s) LSR_DR) ||
  (has (ier s) IER_TX_EMPTY && thr_empty_pending s) ||
  (wakeup_pending s && has (scr s) 0x10).

Definition rx_ok (s : CalypsoUARTState) : Prop :=
  ring_ok CALYPSO_UART_RX_FIFO_SIZE (rx_fifo s) (rx_head s) (rx_tail s) (rx_count s).

Record uart_wf (s : CalypsoUARTState) : Prop := {
  uwf_ring : rx_ok s;
  (** LSR shows data ready exactly when a byte is waiting *)
  uwf_dr : has (lsr s) LSR_DR = (0 <? rx_count s);
  (** a requested interrupt is raised *)
  uwf_irq : irq_wanted s = true → irq s = true
}.

Lemma update_irq_eq s : ∃ i,
  calypso_uart_update_irq s = s <| iir := i |> <| irq := irq_wanted s |>.
Proof.
  unfold calypso_uart_update_irq, irq_wanted.
  destruct (has (ier s) IER_RX_LINE && has (lsr s) LSR_OE) eqn:E1,
    (has (ier s) IER_RX_DATA && has (lsr s) LSR_DR) eqn:E2,
    (has (ier s) IER_TX_EMPTY && thr_empty_pending s) eqn:E3,
    (wakeup_pending s && has (scr s) 0x10) eqn:E4; eexists; reflexivity.
Qed.

(** Re-evaluating the interrupt establishes its part of the invariant. *)
Lemma update_irq_wf s :
  rx_ok s → has (lsr s) LSR_DR = (0 <? rx_count s) → uart_wf (calypso_uart_update_irq s).
Proof. intros H1 H2. destruct (update_irq_eq s) as [i ->]. split; [apply H1|apply H2|]. done. Qed.

Lemma update_irq_fifo s : fifo (calypso_uart_update_irq s) = fifo s.
Proof. by destruct (update_irq_eq s) as [i ->]. Qed.

Lemma update_irq_lsr s : lsr (calypso_uart_update_irq s) = lsr s.
Proof. by destruct (update_irq_eq s) as [i ->]. Qed.

Lemma zlen_fifo s : rx_ok s → zlen (fifo s) = rx_count s.
Proof. intros (_ & _ & H & _). apply length_ring_contents. lia. Qed.

Lemma fifo_push_spec s d :
  rx_ok s →
  let s' := fifo_push s d in
  rx_ok s' ∧ fifo s' = qstep CALYPSO_UART_RX_FIFO_SIZE (fifo s) (Push d) ∧
  lsr s' = (if rx_count s <? CALYPSO_UART_RX_FIFO_SIZE then lsr s else Z.lor (lsr s) LSR_OE).
Proof.
  intros Hok. cbn zeta. unfold qstep. rewrite zlen_fifo by done. unfold fifo_push.
  rewrite Z.leb_antisym. pose proof Hok as (_ & _ & Hc & _).
  destruct (Z.ltb_spec (rx_count s) CALYPSO_UART_RX_FIFO_SIZE) as [Hlt|]; cbn [negb]; [|done].
  unfold CALYPSO_UART_RX_FIFO_SIZE in *.
  destruct (ring_push 0 8192 ltac:(lia) _ _ _ _ d Hok Hlt) as [Hok' Hc'].
  unfold rx_ok, fifo, CALYPSO_UART_RX_FIFO_SIZE. cbn. rewrite u16_small by lia. done.
Qed.

(** Everything but the ring and LSR is left alone by [fifo_push]. *)
Definition frame_push (s s' : CalypsoUARTState) : Prop :=
  s' = s <| rx_fifo := rx_fifo s' |> <| rx_head := rx_head s' |> <| rx_count := rx_count s' |>
         <| lsr := lsr s' |>.

Lemma fifo_push_frame s d : frame_push s (fifo_push s d).
Proof. unfold fifo_push. destruct s. by case_if. Qed.

Lemma frame_push_trans s1 s2 s3 : frame_push s1 s2 → frame_push s2 s3 → frame_push s1 s3.
Proof. unfold frame_push. intros -> ->. done. Qed.

Lemma push_all_spec buf s :
  rx_ok s →
  let s' := foldl fifo_push s buf in
  rx_ok s' ∧ fifo s' = qrun CALYPSO_UART_RX_FIFO_SIZE (fifo s) (Push <$> buf) ∧
  lsr s' = (if rx_count s + zlen buf <=? CALYPSO_UART_RX_FIFO_SIZE then lsr s
            else Z.lor (lsr s) LSR_OE) ∧
  frame_push s s' ∧ rx_count s' = Z.min CALYPSO_UART_RX_FIFO_SIZE (rx_count s + zlen buf).
Proof.
  revert s. induction buf as [|d buf IH]; intros s Hok; cbn zeta.
  { pose proof Hok as (_ & _ & Hc & _). unfold zlen. cbn. rewrite Z.add_0_r.
    destruct (Z.leb_spec (rx_count s) CALYPSO_UART_RX_FIFO_SIZE); [|lia].
    do 3 (split; [done|]). split; [by destruct s|lia]. }
  destruct (fifo_push_spec s d Hok) as (Hok1 & Hf & Hlsr).
  destruct (IH _ Hok1) as (Hok2 & Hf2 & Hlsr2 & Hfr & Hcnt). clear IH.
  assert (rx_count (fifo_push s d) = if rx_count s <? CALYPSO_UART_RX_FIFO_SIZE
    then rx_count s + 1 else rx_count s) as Hc.
  { rewrite <- (zlen_fifo (fifo_push s d)), Hf by done. cbn [qstep]. rewrite zlen_fifo by done.
    destruct (rx_count s <? _); unfold zlen; rewrite ?length_app; cbn;
      pose proof (zlen_fifo s Hok); unfold zlen in *; lia. }
  cbn [foldl]. split; [done|]. split.
  { rewrite Hf2, Hf. done. }
  split; [|split; [by eapply frame_push_trans; [apply fifo_push_frame|]|]].
  - rewrite Hlsr2, Hlsr, Hc. unfold zlen. cbn [length].
    pose proof Hok as (_ & _ & Hb & _).
    destruct (Z.ltb_spec (rx_count s) CALYPSO_UART_RX_FIFO_SIZE);
      repeat case_if; bool_prop; try done; try lia.
    by rewrite <- Z.lor_assoc, Z.lor_diag.
  - rewrite Hcnt, Hc. unfold zlen. cbn [length].
    destruct (Z.ltb_spec (rx_count s) CALYPSO_UART_RX_FIFO_SIZE); lia.
Qed.

Lemma set_dr_dr l : has (Z.lor l LSR_DR) LSR_DR = true.
Proof. rewrite has_lor. by rewrite orb_true_r. Qed.

Lemma set_oe_dr l : has (Z.lor l LSR_OE) LSR_DR = has l LSR_DR.
Proof. rewrite has_lor. by rewrite orb_false_r. Qed.

Lemma set_dr_oe l : has (Z.lor l LSR_DR) LSR_OE = has l LSR_OE.
Proof. rewrite has_lor. by rewrite orb_false_r. Qed.

Lemma set_oe_oe l : has (Z.lor l LSR_OE) LSR_OE = true.
Proof. rewrite has_lor. by rewrite orb_true_r. Qed.

Lemma set_thre_dr l : has (Z.lor l (Z.lor LSR_THRE LSR_TEMT)) LSR_DR = has l LSR_DR.
Proof. rewrite has_lor. by rewrite orb_false_r. Qed.

(** OE after pushing [buf]. *)
Definition oe_after (s : CalypsoUARTState) (buf : list Z) : bool :=
  has (lsr s) LSR_OE || (CALYPSO_UART_RX_FIFO_SIZE <? rx_count s + zlen buf).

Lemma push_all_oe buf s :
  rx_ok s → has (lsr (foldl fifo_push s buf)) LSR_OE = oe_after s buf.
Proof.
  intros Hok. destruct (push_all_spec buf s Hok) as (_ & _ & -> & _).
  unfold oe_after. rewrite Z.leb_antisym. destruct (_ <? _); cbn [negb].
  - rewrite set_oe_oe. by rewrite orb_true_r.
  - by rewrite orb_false_r.
Qed.

Lemma push_all_nil buf s :
  rx_ok s → rx_count (foldl fifo_push s buf) ≤ 0 → buf = [].
Proof.
  intros Hok Hc. destruct (push_all_spec buf s Hok) as (_ & _ & _ & _ & Hcnt).
  pose proof Hok as (_ & _ & Hb & _). rewrite Hcnt in Hc.
  unfold CALYPSO_UART_RX_FIFO_SIZE, zlen in *. destruct buf; [done|]. cbn in Hc. lia.
Qed.

Lemma inject_raw_spec s buf :
  uart_wf s →
  let s' := calypso_uart_inject_raw s buf in
  uart_wf s' ∧ fifo s' = qrun CALYPSO_UART_RX_FIFO_SIZE (fifo s) (Push <$> buf) ∧
  has (lsr s') LSR_OE = oe_after s buf.
Proof.
  intros Hwf. pose proof (uwf_ring _ Hwf) as Hok. cbn zeta. unfold calypso_uart_inject_raw.
  pose proof (push_all_oe buf s Hok) as Hoe. pose proof (push_all_nil buf s Hok) as Hnil.
  destruct (push_all_spec buf s Hok) as (Hok' & Hf & _).
  destruct (Z.ltb_spec 0 (rx_count (foldl fifo_push s buf))) as [Hpos|Hz].
  - rewrite update_irq_fifo, update_irq_lsr. set (s1 := foldl fifo_push s buf) in *.
    change (scr (s1 <| lsr := Z.lor (lsr s1) LSR_DR |>)) with (scr s1).
    apply Z.ltb_lt in Hpos. rewrite <- Hf, <- Hoe, <- (set_dr_oe (lsr s1)).
    split; [|by destruct (has (scr s1) 0x10)].
    apply update_irq_wf; destruct (has (scr s1) 0x10); try done; cbn; by rewrite set_dr_dr.
  - rewrite (Hnil Hz) in *. done.
Qed.

(** The byte read and the queue after a read of RBR. *)
Lemma read_rbr_spec s :
  uart_wf s →
  uart_wf (snd (read_rbr s)) ∧ fst (read_rbr s) = hd 0 (fifo s) ∧
  fifo (snd (read_rbr s)) = tail (fifo s).
Proof.
  intros [Hok Hdr _]. pose proof Hok as (Hl & Ht & Hc & _). unfold read_rbr, fifo_pop.
  destruct (Z.eqb_spec (rx_count s) 0) as [Hz|Hnz].
  - rewrite Hz. cbn. rewrite update_irq_fifo. unfold fifo. cbn.
    rewrite Hz. split; [|done]. apply update_irq_wf; cbn; [done|]. rewrite has_clr_same, Hz. done.
  - unfold CALYPSO_UART_RX_FIFO_SIZE in *.
    destruct (ring_pop 0 8192 ltac:(lia) _ _ _ _ Hok ltac:(lia)) as [Hok' Hcont].
    assert (fifo s = ring_contents 0 8192 (rx_fifo s) (rx_tail s) (rx_count s)) as -> by done.
    cbn [fst snd]. rewrite Hcont, update_irq_fifo. cbn.
    rewrite u16_small by lia. split; [|by destruct (0 <? rx_count s - 1)].
    apply update_irq_wf; destruct (Z.ltb_spec 0 (rx_count s - 1)) as [H|H]; cbn; try done.
    + rewrite set_dr_dr. symmetry. by apply Z.ltb_lt.
    + rewrite has_clr_same. symmetry. by apply Z.ltb_ge.
Qed.

(** [fifo] and the invariant see nothing of the other registers. *)
Lemma uart_wf_ext s s' :
  rx_fifo s' = rx_fifo s → rx_head s' = rx_head s → rx_tail s' = rx_tail s →
  rx_count s' = rx_count s → has (lsr s') LSR_DR = has (lsr s) LSR_DR →
  (irq_wanted s' = true → irq_wanted s = true) → irq s' = irq s →
  uart_wf s → uart_wf s' ∧ fifo s' = fifo s.
Proof.
  intros E1 E2 E3 E4 E5 E6 E7 [H1 H2 H3]. split; [split|].
  - unfold rx_ok in *. by rewrite E1, E2, E3, E4.
  - by rewrite E5, H2, E4.
  - rewrite E7. auto.
  - unfold fifo. by rewrite E1, E3, E4.
Qed.

(** The stub touches its own variable and the output only. *)
Definition frame_romload (s s' : CalypsoUARTState) : Prop :=
  s' = s <| romload := romload s' |> <| chr_out := chr_out s' |>.

Lemma romload_eat_frame s b : frame_romload s (snd (romload_stub_eat s b)).
Proof. unfold romload_stub_eat, goto, write_all. destruct s. repeat case_match; done. Qed.

Lemma frame_romload_trans s1 s2 s3 :
  frame_romload s1 s2 → frame_romload s2 s3 → frame_romload s1 s3.
Proof. unfold frame_romload. intros -> ->. done. Qed.

Lemma filter_frame_acc buf s acc :
  frame_romload s (fst (foldl filter_step (s, acc) buf)).
Proof.
  revert s acc. induction buf as [|b buf IH]; intros s acc; [by destruct s|].
  cbn [foldl filter_step]. pose proof (romload_eat_frame s b) as Hb.
  destruct (romload_stub_eat s b) as [e s']. eapply frame_romload_trans; [exact Hb|apply IH].
Qed.

Lemma romload_filter_frame s buf : frame_romload s (fst (romload_filter s buf)).
Proof. apply filter_frame_acc. Qed.

Lemma frame_romload_wf s s' :
  frame_romload s s' → uart_wf s → uart_wf s' ∧ fifo s' = fifo s.
Proof. intros -> H. by apply (uart_wf_ext s). Qed.

(** Every byte of the stub's output was in its input. *)
Lemma filter_length_acc buf s acc :
  (length (snd (foldl filter_step (s, acc) buf)) ≤ length acc + length buf)%nat.
Proof.
  revert s acc. induction buf as [|b buf IH]; intros s acc; [cbn; lia|].
  cbn [foldl filter_step]. destruct (romload_stub_eat s b) as [e s'].
  etransitivity; [apply IH|]. destruct e; rewrite ?length_app; cbn; lia.
Qed.

Lemma romload_filter_length s buf :
  (length (snd (romload_filter s buf)) ≤ length buf)%nat.
Proof. apply (filter_length_acc buf s []). Qed.

Lemma set_dr_idem s :
  uart_wf s → 0 < rx_count s →
  rx_ok (s <| lsr := Z.lor (lsr s) LSR_DR |>) ∧
  has (Z.lor (lsr s) LSR_DR) LSR_DR = (0 <? rx_count s).
Proof. intros [] ?. rewrite set_dr_dr. split; [done|]. symmetry. by apply Z.ltb_lt. Qed.

Lemma receive_spec s buf :
  uart_wf s →
  let s' := calypso_uart_receive s buf in
  uart_wf s' ∧
  fifo s' = qrun CALYPSO_UART_RX_FIFO_SIZE (fifo s) (Push <$> delivered s buf) ∧
  has (lsr s') LSR_OE = oe_after s (delivered s buf).
Proof.
  intros Hwf. cbn zeta. unfold calypso_uart_receive, delivered.
  destruct (has_label s "irda"); [|destruct (has_label s "modem")].
  - pose proof (uwf_ring _ Hwf) as Hok. pose proof (push_all_oe buf s Hok) as Hoe.
    pose proof (push_all_nil buf s Hok) as Hnil. rewrite update_irq_fifo, update_irq_lsr.
    destruct (push_all_spec buf s Hok) as (Hok' & Hf & _). rewrite <- Hf, <- Hoe.
    set (s1 := foldl fifo_push s buf) in *. destruct (Z.ltb_spec 0 (rx_count s1)) as [H|H].
    + split; [|by rewrite <- (set_dr_oe (lsr s1))]. apply update_irq_wf; [done|].
      apply Z.ltb_lt in H. cbn. by rewrite set_dr_dr, H.
    + split; [|done]. subst s1. rewrite (Hnil H). by destruct Hwf; apply update_irq_wf.
  - pose proof (romload_filter_frame s buf) as Hfr.
    destruct (romload_filter s buf) as [s1 pt]. cbn [fst snd] in *.
    destruct (frame_romload_wf _ _ Hfr Hwf) as [Hwf1 Hf1].
    assert (oe_after s1 pt = oe_after s pt) as <- by (unfold oe_after; by rewrite Hfr).
    rewrite <- Hf1. case_if; bool_prop.
    + by apply inject_raw_spec.
    + destruct pt; [|unfold zlen in *; cbn in *; lia]. split; [done|]. split; [done|].
      unfold oe_after, zlen. cbn. pose proof (uwf_ring _ Hwf1) as (_ & _ & Hc & _).
      rewrite Z.add_0_r. destruct (Z.ltb_spec CALYPSO_UART_RX_FIFO_SIZE (rx_count s1)); [lia|].
      by rewrite orb_false_r.
  - destruct (inject_raw_spec s buf Hwf) as (Hwf1 & <- & <-).
    set (s1 := calypso_uart_inject_raw s buf) in *. rewrite update_irq_fifo, update_irq_lsr.
    destruct (Z.ltb_spec 0 (rx_count s1)) as [H|H].
    + destruct (set_dr_idem s1 Hwf1 H). split; [by apply update_irq_wf|].
      by rewrite <- (set_dr_oe (lsr s1)).
    + split; [|done]. destruct Hwf1. by apply update_irq_wf.
Qed.

Lemma fifo_reset_ok s : rx_ok s → rx_ok (fifo_reset s).
Proof.
  intros Hok. apply ring_empty; [done|apply Hok|]. by unfold CALYPSO_UART_RX_FIFO_SIZE.
Qed.

Lemma write_fcr_spec s value :
  uart_wf s →
  uart_wf (write_fcr s value) ∧
  fifo (write_fcr s value) = if has value FCR_RX_RESET then [] else fifo s.
Proof.
  intros [Hok Hdr _]. unfold write_fcr. rewrite update_irq_fifo. pose proof (fifo_reset_ok s Hok).
  destruct (has value FCR_RX_RESET), (has value FCR_TX_RESET);
    (split; [apply update_irq_wf; [done|]|done]); cbn; rewrite ?set_thre_dr, ?has_clr_same; done.
Qed.

Lemma read_iir_spec s : uart_wf s → uart_wf (read_iir s) ∧ fifo (read_iir s) = fifo s.
Proof.
  intros Hwf. unfold read_iir. repeat case_if; try (by apply (uart_wf_ext s)).
  rewrite update_irq_fifo. split; [|done]. by destruct Hwf; apply update_irq_wf.
Qed.

(** A register write other than FCR leaves the ring alone. *)
Lemma write_wf s offset value :
  uart_wf s →
  uart_wf (calypso_uart_write s offset value) ∧
  fifo (calypso_uart_write s offset value) =
    qrun CALYPSO_UART_RX_FIFO_SIZE (fifo s) (rx_ops s (Write offset value)).
Proof.
  intros Hwf. cbn [rx_ops].
  destruct (Z.eqb_spec offset 0x02) as [->|Hne].
  { cbn [calypso_uart_write]. destruct (lcr s =? LCR_CONF_BF); cbn [andb negb].
    - by apply (uart_wf_ext s).
    - destruct (write_fcr_spec s value Hwf) as [? ->]. by destruct (has value FCR_RX_RESET). }
  cbn [andb]. change (qrun _ (fifo s) []) with (fifo s).
  assert (uart_wf (write_thr s value) ∧ fifo (write_thr s value) = fifo s) as Hthr.
  { unfold write_thr. rewrite update_irq_fifo. destruct Hwf.
    split; [apply update_irq_wf|]; case_if; cbn; try done; by rewrite set_thre_dr. }
  assert (uart_wf (write_ier s value) ∧ fifo (write_ier s value) = fifo s) as Hier.
  { unfold write_ier. rewrite update_irq_fifo. destruct Hwf.
    split; [apply update_irq_wf|]; case_if; by cbn. }
  assert (uart_wf (write_scr s value) ∧ fifo (write_scr s value) = fifo s) as Hscr.
  { unfold write_scr. rewrite update_irq_fifo. destruct Hwf.
    split; [apply update_irq_wf|]; case_if; by cbn. }
  unfold calypso_uart_write. repeat case_match; try done; by apply (uart_wf_ext s).
Qed.

Lemma read_wf s offset :
  uart_wf s →
  uart_wf (snd (calypso_uart_read s offset)) ∧
  fifo (snd (calypso_uart_read s offset)) =
    qrun CALYPSO_UART_RX_FIFO_SIZE (fifo s) (rx_ops s (Read offset)).
Proof.
  intros Hwf. cbn [rx_ops].
  destruct (Z.eqb_spec offset 0x00) as [->|Hne].
  { cbn [calypso_uart_read]. destruct (has (lcr s) LCR_DLAB); [done|].
    destruct (read_rbr_spec s Hwf) as (? & _ & ->). done. }
  cbn [andb]. change (qrun _ (fifo s) []) with (fifo s).
  pose proof (read_iir_spec s Hwf).
  assert (uart_wf (s <| lsr := clr (lsr s) LSR_OE |>)
          ∧ fifo (s <| lsr := clr (lsr s) LSR_OE |>) = fifo s) as Hlsr.
  { apply (uart_wf_ext s); try done; cbn; [by rewrite has_clr_disjoint|].
    unfold irq_wanted. cbn. rewrite has_clr_same, has_clr_disjoint by done.
    rewrite andb_false_r, !orb_true_iff. naive_solver. }
  unfold calypso_uart_read. repeat case_match; done.
Qed.

Lemma uart_step_spec s o :
  uart_wf s →
  uart_wf (step s o) ∧
  fifo (step s o) = qrun CALYPSO_UART_RX_FIFO_SIZE (fifo s) (rx_ops s o).
Proof.
  intros Hwf. pose proof Hwf as []. destruct o; cbn [step].
  - by destruct (receive_spec s buf Hwf) as (? & ? & _).
  - by destruct (inject_raw_spec s buf Hwf) as (? & ? & _).
  - by apply read_wf.
  - by apply write_wf.
  - unfold calypso_uart_kick_rx. case_if; [|done]. rewrite update_irq_fifo.
    split; [by apply update_irq_wf|done].
  - unfold calypso_uart_kick_tx. rewrite update_irq_fifo. split; [by apply update_irq_wf|done].
  - unfold calypso_uart_force_init. rewrite update_irq_fifo. cbn.
    split; [apply update_irq_wf|]; by case_if.
  - by apply (uart_wf_ext s).
  - split; [|done]. split; [by apply (fifo_reset_ok s)|done|]. unfold irq_wanted. cbn.
    by destruct (wakeup_pending s).
Qed.

Lemma uart_init_wf name : uart_wf (uart_init name).
Proof. split; [|done|by vm_compute]. apply ring_empty; [done|by vm_compute|]. by unfold CALYPSO_UART_RX_FIFO_SIZE. Qed.

Lemma uart_run_wf name l : uart_wf (run step (uart_init name) l).
Proof.
  apply (run_invariant step (λ _, True)); [|apply uart_init_wf|by apply Forall_true].
  intros. by apply uart_step_spec.
Qed.

(** C14: in every reachable state the receive ring is a queue of at most 8192
    bytes: each operation performs on its contents the queue operations
    [rx_ops] says (deliveries append, a read of RBR removes the oldest byte and
    returns it, an FCR reset empties it), and a delivery that leaves LSR.OE
    clear has lost nothing. *)
Theorem uart_fifo_refines_queue name l o :
  let s := run step (uart_init name) l in
  zlen (fifo s) ≤ CALYPSO_UART_RX_FIFO_SIZE ∧
  fifo (step s o) = qrun CALYPSO_UART_RX_FIFO_SIZE (fifo s) (rx_ops s o) ∧
  (has (lcr s) LCR_DLAB = false → fst (calypso_uart_read s 0x00) = hd 0 (fifo s)) ∧
  (∀ buf, o = Receive buf → has (lsr (step s o)) LSR_OE = false →
     fifo (step s o) = fifo s ++ delivered s buf).
Proof.
  cbn zeta. pose proof (uart_run_wf name l) as Hwf. set (s := run step _ l) in *.
  pose proof (uwf_ring _ Hwf) as Hok. pose proof (zlen_fifo _ Hok) as Hlen.
  pose proof Hok as (_ & _ & Hc & _).
  split; [lia|]. split; [by apply uart_step_spec|]. split.
  - intros Hd. cbn [calypso_uart_read]. rewrite Hd. by apply read_rbr_spec.
  - intros buf -> Hoe. cbn [step] in *. destruct (receive_spec s buf Hwf) as (_ & -> & Hoe').
    rewrite Hoe' in Hoe. unfold oe_after in Hoe. bool_prop. apply qrun_push_fits. lia.
Qed.

(** C20: the interrupt logic never loses a request: in every reachable state
    LSR.DR is set exactly when a byte waits in the ring, and whenever an
    enabled cause (overrun, data ready, transmitter empty, armed wake-up) is
    present the interrupt line is raised. *)
Theorem uart_irq_not_lost name l :
  let s := run step (uart_init name) l in
  has (lsr s) LSR_DR = negb (bool_decide (fifo s = [])) ∧
  (irq_wanted s = true → irq s = true).
Proof.
  cbn zeta. destruct (uart_run_wf name l) as [Hok Hdr Hirq]. split; [|done].
  rewrite Hdr, <- zlen_fifo by done. unfold zlen.
  destruct (fifo _); [done|]. rewrite bool_decide_eq_false_2 by done. by apply Z.ltb_lt.
Qed.

(** The flow control of the port is sufficient: a delivery no larger than
    what [calypso_uart_can_receive] announces fits the 8192-byte local buffer
    of the modem path, is appended to the ring in full and leaves LSR.OE as it
    was. *)
Theorem uart_flow_control name l buf :
  let s := run step (uart_init name) l in
  zlen buf ≤ calypso_uart_can_receive s →
  zlen (snd (romload_filter s buf)) ≤ CALYPSO_UART_RX_FIFO_SIZE ∧
  fifo (calypso_uart_receive s buf) = fifo s ++ delivered s buf ∧
  has (lsr (calypso_uart_receive s buf)) LSR_OE = has (lsr s) LSR_OE.
Proof.
  cbn zeta. pose proof (uart_run_wf name l) as Hwf. set (s := run step _ l) in *.
  unfold calypso_uart_can_receive. intros Hsz. pose proof (romload_filter_length s buf) as Hpt.
  pose proof (uwf_ring _ Hwf) as Hok. pose proof (zlen_fifo _ Hok) as Hlen.
  pose proof Hok as (_ & _ & Hc & _).
  assert (zlen (delivered s buf) ≤ zlen buf).
  { unfold delivered, zlen. repeat case_if; lia. }
  destruct (receive_spec s buf Hwf) as (_ & -> & ->). split; [unfold zlen in *; lia|]. split.
  - apply qrun_push_fits. lia.
  - unfold oe_after. destruct (Z.ltb_spec CALYPSO_UART_RX_FIFO_SIZE (rx_count s + zlen (delivered s buf)));
      [lia|]. by rewrite orb_false_r.
Qed.

Lemma uart_flow_control_witness :
  fifo (calypso_uart_receive (run step (uart_init None) [Inject [1; 2]]) [3; 4; 5]) = [1; 2; 3; 4; 5].
Proof.
  refine (eq_trans (proj1 (proj2 (uart_flow_control None [Inject [1; 2]] [3; 4; 5] _))) _);
    by vm_compute.
Defined.

(** ** The download protocol *)

Lemma foldl_filter_acc buf s acc :
  foldl filter_step (s, acc) buf =
    (fst (romload_filter s buf), acc ++ snd (romload_filter s buf)).
Proof.
  unfold romload_filter. revert s acc.
  induction buf as [|b buf IH]; intros s acc; cbn [foldl filter_step fst snd];
    [by rewrite app_nil_r|].
  destruct (romload_stub_eat s b) as [e s']. rewrite (IH s' (if e then acc else acc ++ [b])).
  rewrite (IH s' (if e then [] else [] ++ [b])). cbn. destruct e; by rewrite <- ?app_assoc.
Qed.

Lemma romload_filter_app s l1 l2 :
  romload_filter s (l1 ++ l2) =
    (fst (romload_filter (fst (romload_filter s l1)) l2),
     snd (romload_filter s l1) ++ snd (romload_filter (fst (romload_filter s l1)) l2)).
Proof.
  unfold romload_filter at 1. rewrite foldl_app. change (foldl filter_step (s, []) l1) with (romload_filter s l1).
  destruct (romload_filter s l1) as [s1 o1]. apply foldl_filter_acc.
Qed.

Lemma romload_filter_cons s b l :
  romload_filter s (b :: l) =
    let '(e, s') := romload_stub_eat s b in
    (fst (romload_filter s' l), (if (e : bool) then [] else [b]) ++ snd (romload_filter s' l)).
Proof.
  unfold romload_filter. cbn [foldl filter_step]. destruct (romload_stub_eat s b) as [e s'].
  rewrite foldl_filter_acc. by destruct e.
Qed.

(** The stub between two commands, with output [out] so far. *)
Definition rom_at (s : CalypsoUARTState) (st : RomloadState) (out : list Z) : Prop :=
  state (romload s) = st ∧ payload_size (romload s) = 1024 ∧ chr_out s = out.

(** The stub eats [bytes] and goes from one state to another. *)
Definition eats (s : CalypsoUARTState) (bytes : list Z) (st : RomloadState) (out : list Z) : Prop :=
  snd (romload_filter s bytes) = [] ∧ rom_at (fst (romload_filter s bytes)) st out.

Lemma eats_app s l1 l2 st1 out1 st2 out2 :
  eats s l1 st1 out1 →
  (∀ s1, rom_at s1 st1 out1 → eats s1 l2 st2 out2) → eats s (l1 ++ l2) st2 out2.
Proof.
  intros [E1 H1] H2. destruct (H2 _ H1) as [E2 H3]. unfold eats.
  rewrite romload_filter_app. cbn. by rewrite E1, E2.
Qed.

Lemma eats_block_data data s out :
  state (romload s) = ROM_BLOCK_DATA → payload_size (romload s) = 1024 → chr_out s = out →
  data ≠ [] → needed (romload s) = zlen data → eats s data ROM_IDLE (out ++ [0x3e; 0x77]).
Proof.
  revert s. induction data as [|b data IH]; intros s Hst Hp Hout Hne Hn; [done|].
  unfold eats. rewrite romload_filter_cons. unfold romload_stub_eat. rewrite Hst, Hn.
  unfold zlen. cbn [length]. destruct data as [|b' data].
  - change (Z.of_nat (S (@length Z [])) - 1) with 0. unfold rom_at. cbn.
    by rewrite Hout, Hp.
  - destruct (Z.eqb_spec (Z.of_nat (S (length (b' :: data))) - 1) 0); [cbn in *; lia|].
    cbn [app fst snd]. apply IH; try done. cbn. unfold zlen. cbn. lia.
Qed.

Lemma eats_block data s out :
  rom_at s ROM_IDLE out → zlen data = 1032 →
  eats s ([0x3c; 0x77] ++ data) ROM_IDLE (out ++ [0x3e; 0x77]).
Proof.
  intros (Hst & Hp & Hout) Hd. cbn [app].
  unfold eats. rewrite romload_filter_cons. unfold romload_stub_eat at 1 2. rewrite Hst. cbn [Z.eqb Pos.eqb].
  rewrite romload_filter_cons. unfold romload_stub_eat at 1 2. cbn -[romload_filter]. rewrite Hp.
  apply eats_block_data; try done. by destruct data.
Qed.

Lemma eats_blocks blocks s out :
  rom_at s ROM_IDLE out → Forall (λ d, zlen d = 1032) blocks →
  eats s (concat ((λ d, [0x3c; 0x77] ++ d) <$> blocks)) ROM_IDLE
    (out ++ concat ((λ _, [0x3e; 0x77]) <$> blocks)).
Proof.
  intros Hs Hb. revert s out Hs. induction Hb as [|d blocks Hd Hb IH]; intros s out Hs.
  { cbn. rewrite app_nil_r. by split. }
  rewrite !fmap_cons. cbn [concat]. eapply eats_app; [by apply eats_block|].
  intros s1 H1. rewrite app_assoc. by apply IH.
Qed.

Lemma eats_cons s s1 b l st out :
  romload_stub_eat s b = (true, s1) → eats s1 l st out → eats s (b :: l) st out.
Proof. unfold eats. intros E H. by rewrite romload_filter_cons, E. Qed.

(** Commands without a data loop are evaluated. *)
#[local] Ltac eat_command :=
  intros (Hst & Hp & Hout);
  eapply eats_cons; [unfold romload_stub_eat; rewrite Hst; reflexivity|];
  repeat (eapply eats_cons; [reflexivity|]);
  split; [done|]; split; [done|]; rewrite <- Hout; split; [exact Hp|]; first [reflexivity|cbn; by rewrite Hp].

Lemma eats_ident s out :
  rom_at s ROM_IDLE out →
  eats s [0x3c; 0x69] ROM_IDLE (out ++ [0x3e; 0x69; 0x3e; 0x70; 0x0a; 0x04]).
Proof. eat_command. Qed.

Lemma eats_checksum s out c :
  rom_at s ROM_IDLE out → eats s [0x3c; 0x63; c] ROM_IDLE (out ++ [0x3e; 0x63; c]).
Proof. eat_command. Qed.

Lemma eats_branch s out b0 b1 b2 b3 :
  rom_at s ROM_IDLE out →
  eats s [0x3c; 0x62; b0; b1; b2; b3] ROM_PASSTHROUGH (out ++ [0x3e; 0x62]).
Proof. eat_command. Qed.

Lemma passthrough_transparent s rest :
  state (romload s) = ROM_PASSTHROUGH → romload_filter s rest = (s, rest).
Proof.
  intros Hst. induction rest as [|b rest IH]; [done|].
  rewrite romload_filter_cons. unfold romload_stub_eat. rewrite Hst, IH. done.
Qed.

(** The download stub answers the boot protocol: from the idle state the
    stream "identify, any number of 1024-byte blocks with their 8-byte header,
    checksum, branch" is consumed entirely, is answered by exactly the
    acknowledgements the loader waits for, and everything after it reaches the
    UART unchanged. *)
Theorem romload_download s out blocks c b0 b1 b2 b3 rest :
  rom_at s ROM_IDLE out → Forall (λ d, zlen d = 1032) blocks →
  let stream := [0x3c; 0x69] ++ concat ((λ d, [0x3c; 0x77] ++ d) <$> blocks) ++
                [0x3c; 0x63; c] ++ [0x3c; 0x62; b0; b1; b2; b3] in
  let s' := fst (romload_filter s (stream ++ rest)) in
  snd (romload_filter s (stream ++ rest)) = rest ∧
  state (romload s') = ROM_PASSTHROUGH ∧
  chr_out s' = out ++ [0x3e; 0x69; 0x3e; 0x70; 0x0a; 0x04] ++
               concat ((λ _, [0x3e; 0x77]) <$> blocks) ++ [0x3e; 0x63; c] ++ [0x3e; 0x62].
Proof.
  intros Hs Hb. cbn zeta.
  set (stream := [0x3c; 0x69] ++ _).
  assert (eats s stream ROM_PASSTHROUGH (out ++ [0x3e; 0x69; 0x3e; 0x70; 0x0a; 0x04] ++
    concat ((λ _, [0x3e; 0x77]) <$> blocks) ++ [0x3e; 0x63; c] ++ [0x3e; 0x62])) as [E (Hst & _ & Hout)].
  { eapply eats_app; [by apply eats_ident|]. intros s1 H1.
    eapply eats_app; [by apply eats_blocks|]. intros s2 H2.
    eapply eats_app; [by apply eats_checksum|]. intros s3 H3.
    rewrite !app_assoc in *. by apply eats_branch. }
  rewrite romload_filter_app, E. cbn [fst snd]. by rewrite passthrough_transparent.
Qed.

Lemma romload_download_witness :
  chr_out (fst (romload_filter (uart_init (Some "modem"))
    (([0x3c; 0x69] ++ concat ((λ d, [0x3c; 0x77] ++ d) <$> [replicate 1032 7]) ++
      [0x3c; 0x63; 9] ++ [0x3c; 0x62; 0; 0; 0; 1]) ++ [65; 66])))
  = [0x3e; 0x69; 0x3e; 0x70; 0x0a; 0x04; 0x3e; 0x77; 0x3e; 0x63; 9; 0x3e; 0x62].
Proof.
  refine (eq_trans (proj2 (proj2 (romload_download (uart_init (Some "modem")) []
    [replicate 1032 7] 9 0 0 0 1 [65; 66] _ _))) _); [by vm_compute|by repeat constructor|done].
Defined.

End UART.
