(* ===== verification/Sercomm.v ===== *)
(** * Sercomm framing

    Four files of the program decode the sercomm (HDLC-like) byte stream of the
    modem UART with the same automaton over a 512-byte buffer, and two of them
    encode it.  This file holds the reference encoding, the interface that
    states what a decoder promises ([Deframer]) and the round-trip theorem
    proved once against that interface; [Gate], [L1ctlTap], [DcchTap] and
    [L1ctlSock] each translate their own copy of the automaton and discharge
    the interface. *)
From S2P Require Import Prelude.

Definition SERCOMM_FLAG : Z := 0x7E.
Definition SERCOMM_ESCAPE : Z := 0x7D.
Definition SERCOMM_XOR : Z := 0x20.

(** The states of the decoders ([enum gate_rx_state], [SercommState]). *)
Inductive sc_state := SC_IDLE | SC_IN_FRAME | SC_ESCAPE.

(** ** Encoding *)
Definition stuff_byte (c : Z) : list Z :=
  if (c =? SERCOMM_FLAG) || (c =? SERCOMM_ESCAPE)
  then [SERCOMM_ESCAPE; Z.lxor c SERCOMM_XOR] else [c].

Definition stuff (body : list Z) : list Z := concat (stuff_byte <$> body).

Definition frame_of (body : list Z) : list Z := SERCOMM_FLAG :: stuff body ++ [SERCOMM_FLAG].

Lemma stuff_cons c body : stuff (c :: body) = stuff_byte c ++ stuff body.
Proof. done. Qed.

Lemma stuff_app l1 l2 : stuff (l1 ++ l2) = stuff l1 ++ stuff l2.
Proof. unfold stuff. by rewrite fmap_app, concat_app. Qed.

(** The flag never occurs inside a frame. *)
Lemma stuff_no_flag body : Forall (λ b, b ≠ SERCOMM_FLAG) (stuff body).
Proof.
  induction body as [|c body IH]; [done|]. rewrite stuff_cons. apply Forall_app_2; [|done].
  unfold stuff_byte. case_if; bool_prop; [|by repeat constructor].
  repeat constructor; [done|]. apply orb_true_iff in E as [E|E]; bool_prop; by subst.
Qed.

(** Escaping at most doubles a frame. *)
Lemma length_stuff body : (length body ≤ length (stuff body) ≤ 2 * length body)%nat.
Proof.
  induction body as [|c body IH]; [done|]. rewrite stuff_cons, length_app. cbn [length].
  unfold stuff_byte. case_if; cbn [length]; lia.
Qed.

Lemma unescape c : Z.lxor (Z.lxor c SERCOMM_XOR) SERCOMM_XOR = c.
Proof. by rewrite Z.lxor_assoc, Z.lxor_nilpotent, Z.lxor_0_r. Qed.

(** ** Decoding: the interface

    A decoder has an automaton state, the bytes of the current frame, and the
    part of its state the frames act on.  [on_frame] is what the decoder does
    with the bytes of a completed frame. *)
Class Deframer (S R : Type) := {
  df_state : S → sc_state;
  df_body : S → list Z;
  df_rest : S → R;
  df_byte : S → Z → S;
  df_on_frame : R → list Z → R;
  df_cap : nat;
  df_ok : S → Prop
}.

Definition df_at {S R} `{Deframer S R} (s : S) (st : sc_state) (body : list Z) (r : R) : Prop :=
  df_ok s ∧ df_state s = st ∧ df_body s = body ∧ df_rest s = r.

Class DeframerLaws (S R : Type) `{Deframer S R} := {
  df_empty_frame : ∀ s : S, df_on_frame (df_rest s) [] = df_rest s;
  df_idle_flag : ∀ (s : S) body r, df_at s SC_IDLE body r →
    df_at (df_byte s SERCOMM_FLAG) SC_IN_FRAME [] r;
  df_frame_flag : ∀ (s : S) body r, df_at s SC_IN_FRAME body r →
    df_at (df_byte s SERCOMM_FLAG) SC_IN_FRAME [] (df_on_frame r body);
  df_frame_escape : ∀ (s : S) body r, df_at s SC_IN_FRAME body r →
    df_at (df_byte s SERCOMM_ESCAPE) SC_ESCAPE body r;
  df_frame_byte : ∀ (s : S) body r b, df_at s SC_IN_FRAME body r →
    b ≠ SERCOMM_FLAG → b ≠ SERCOMM_ESCAPE →
    df_at (df_byte s b) SC_IN_FRAME (take df_cap (body ++ [b])) r;
  df_escape_byte : ∀ (s : S) body r b, df_at s SC_ESCAPE body r →
    df_at (df_byte s b) SC_IN_FRAME (take df_cap (body ++ [Z.lxor b SERCOMM_XOR])) r
}.

Section deframe.
  Context {S R : Type} `{DeframerLaws S R}.

Definition df_run : S → list Z → S := run df_byte.

Lemma df_run_app (s : S) l1 l2 : df_run s (l1 ++ l2) = df_run (df_run s l1) l2.
Proof. apply run_app. Qed.

Lemma df_stuffed_byte s body r c :
  df_at s SC_IN_FRAME body r →
  df_at (df_run s (stuff_byte c)) SC_IN_FRAME (take df_cap (body ++ [c])) r.
Proof.
  intros Hs. unfold stuff_byte. case_if; bool_prop; cbn.
  - rewrite <- (unescape c) at 2. apply df_escape_byte. by apply df_frame_escape.
  - by apply df_frame_byte.
Qed.

(** The stuffed body is collected up to the capacity of the buffer. *)
Lemma df_stuffed l s body r :
  df_at s SC_IN_FRAME body r → (length body ≤ df_cap)%nat →
  df_at (df_run s (stuff l)) SC_IN_FRAME (take df_cap (body ++ l)) r.
Proof.
  revert s body. induction l as [|c l IH]; intros s body Hs Hb.
  { cbn. by rewrite app_nil_r, take_ge. }
  rewrite stuff_cons, df_run_app.
  assert (take df_cap (body ++ c :: l) = take df_cap (take df_cap (body ++ [c]) ++ l)) as ->.
  { replace (body ++ c :: l) with ((body ++ [c]) ++ l) by (by rewrite <- app_assoc).
    destruct (decide (length (body ++ [c]) ≤ df_cap)%nat).
    - by rewrite (take_ge (body ++ [c])).
    - rewrite (take_app_le (body ++ [c]) l) by lia.
      rewrite (take_app_le (take df_cap (body ++ [c])) l) by (rewrite length_take; lia).
      by rewrite take_take, Nat.min_id. }
  apply IH; [by apply df_stuffed_byte|]. rewrite length_take. lia.
Qed.

(** One frame, from the idle state or right after another frame. *)
Definition df_ready (s : S) (r : R) : Prop := (∃ body, df_at s SC_IDLE body r) ∨ df_at s SC_IN_FRAME [] r.

Lemma df_one_frame s r body :
  df_ready s r →
  df_at (df_run s (frame_of body)) SC_IN_FRAME [] (df_on_frame r (take df_cap body)).
Proof.
  intros Hs. unfold frame_of. change (SERCOMM_FLAG :: ?l) with ([SERCOMM_FLAG] ++ l).
  rewrite !df_run_app. apply df_frame_flag.
  apply (df_stuffed body (df_run s [SERCOMM_FLAG]) [] r); [|cbn; lia]. cbn.
  destruct Hs as [[b Hs]|Hs]; [by eapply df_idle_flag|].
  pose proof Hs as (_ & _ & _ & Hr). rewrite <- Hr, <- (df_empty_frame s), Hr. by apply df_frame_flag.
Qed.

(** A stream of frames is delivered frame by frame, in order, truncated to the
    capacity of the buffer. *)
Lemma df_stream bodies s r :
  df_ready s r →
  df_ready (df_run s (concat (frame_of <$> bodies)))
    (foldl (λ r body, df_on_frame r (take df_cap body)) r bodies).
Proof.
  revert s r. induction bodies as [|body bodies IH]; intros s r Hs; [done|].
  rewrite fmap_cons. cbn [concat foldl]. rewrite df_run_app. apply IH. right. by apply df_one_frame.
Qed.

(** What remains of the state after a stream. *)
Lemma df_stream_rest bodies s r :
  df_ready s r → Forall (λ body, length body ≤ df_cap)%nat bodies →
  df_rest (df_run s (concat (frame_of <$> bodies))) = foldl df_on_frame r bodies.
Proof.
  intros Hs Hb. assert (∀ r', df_ready (df_run s (concat (frame_of <$> bodies))) r' →
    df_rest (df_run s (concat (frame_of <$> bodies))) = r') as Hr.
  { intros r' [(? & _ & _ & _ & ?)|(_ & _ & _ & ?)]; done. }
  rewrite (Hr _ (df_stream bodies s r Hs)). clear Hr Hs. revert r.
  induction Hb as [|body bodies Hbody _ IH]; intros r; [done|].
  cbn [foldl]. by rewrite take_ge by done.
Qed.

End deframe.

(** ** A 512-byte collection buffer: an array and a length *)
Lemma take_insert_next (buf : list Z) n b :
  (n < length buf)%nat → take (S n) (<[n := b]> buf) = take n buf ++ [b].
Proof.
  intros Hn. rewrite (take_S_r _ _ b).
  - f_equal. by rewrite take_insert_ge by lia.
  - by rewrite list_lookup_insert_eq.
Qed.

Definition body_of (buf : list Z) (len : Z) : list Z := take (Z.to_nat len) buf.

(** The guarded store [if (len < size) buf[len++] = b]. *)
Definition collect (buf : list Z) (len size b : Z) : list Z * Z :=
  if len <? size then (wr buf len b, len + 1) else (buf, len).

Definition buf_ok (size : Z) (buf : list Z) (len : Z) : Prop := zlen buf = size ∧ 0 ≤ len ≤ size.

Lemma length_body_of size buf len : buf_ok size buf len → zlen (body_of buf len) = len.
Proof. intros [Hl Hn]. unfold zlen, body_of in *. rewrite length_take. lia. Qed.

Lemma collect_spec size buf len b :
  buf_ok size buf len →
  let '(buf', len') := collect buf len size b in
  buf_ok size buf' len' ∧ body_of buf' len' = take (Z.to_nat size) (body_of buf len ++ [b]).
Proof.
  intros Hok. pose proof (length_body_of _ _ _ Hok) as Hlen. pose proof Hok as [Hl Hn].
  unfold collect. destruct (Z.ltb_spec len size).
  - split; [unfold buf_ok; rewrite zlen_wr; lia|]. unfold zlen in *.
    rewrite take_ge by (rewrite length_app; cbn; lia). unfold body_of, wr.
    replace (Z.to_nat (len + 1)) with (S (Z.to_nat len)) by lia. apply take_insert_next. lia.
  - split; [done|]. unfold zlen in *. rewrite take_app_le by lia. symmetry. apply take_ge. lia.
Qed.

(** Bytes below the length are bytes of the frame. *)
Lemma rd_body_of size buf len i :
  buf_ok size buf len → 0 ≤ i < len → rd (body_of buf len) i = rd buf i.
Proof. intros _ Hi. unfold rd, body_of. rewrite lookup_take_lt by lia. done. Qed.

Lemma ldl_body_of size buf len i :
  buf_ok size buf len → 0 ≤ i → i + 3 < len → ldl_be_p (body_of buf len) i = ldl_be_p buf i.
Proof. intros Hok Hi Hn. unfold ldl_be_p. rewrite !(rd_body_of size) by (done || lia). done. Qed.

Lemma body_of_zero buf : body_of buf 0 = [].
Proof. done. Qed.

(** The laws of a decoder that keeps its automaton in fields [buf] and [len]:
    [frame] says that the handler of a completed frame leaves these fields
    alone, [effect] that its effect is the one declared in the interface. *)
Ltac solve_deframer_laws byte buf len frame effect :=
  split; unfold df_at; cbn; unfold byte;
  [ done
  | intros s body r (Hok & Hst & Hb & Hr); rewrite Hst; by destruct Hok
  | let E4 := fresh in
    intros s body r (Hok & Hst & Hb & Hr); destruct (frame s) as (E1 & E2 & E3);
    pose proof (effect s Hok) as E4; rewrite Hb, Hr in E4; pose proof Hok as [? ?];
    rewrite Hst; cbn [Z.eqb SERCOMM_FLAG Pos.eqb]; destruct (Z.ltb_spec 0 (len s));
    [ cbn; by rewrite E1, E2, Hst
    | assert (body = []) as -> by (subst body; unfold body_of; by replace (len s) with 0 by lia);
      subst r; done ]
  | intros s body r (Hok & Hst & Hb & Hr); by rewrite Hst
  | intros s body r b (Hok & Hst & Hb & Hr) H1 H2; apply Z.eqb_neq in H1, H2;
    rewrite Hst, H1, H2;
    let Hc := fresh in pose proof (collect_spec 512 (buf s) (len s) b Hok) as Hc;
    destruct (collect _ _ _ _); cbn; rewrite <- Hb; by destruct Hc
  | intros s body r b (Hok & Hst & Hb & Hr); rewrite Hst;
    let Hc := fresh in pose proof (collect_spec 512 (buf s) (len s) (Z.lxor b SERCOMM_XOR) Hok) as Hc;
    destruct (collect _ _ _ _); cbn; rewrite <- Hb; by destruct Hc ].
