(* ===== verification/Cstr.v ===== *)
(** * C strings

    Strings of the source as lists of bytes, with the comparison, the tokens of
    [strtok_r] and [atoi]. *)
From Stdlib Require Import Ascii.
From stdpp Require Import strings.
From S2P Require Import Prelude.

(** The bytes of a string literal. *)
Definition str (s : string) : list Z :=
  (λ a, Z.of_nat (nat_of_ascii a)) <$> String.list_ascii_of_string s.

(** The bytes before the terminating NUL. *)
Fixpoint cstr (l : list Z) : list Z :=
  match l with
  | [] => []
  | c :: l => if c =? 0 then [] else c :: cstr l
  end.

(** [!strcmp(a, b)]. *)
Definition streq (a b : list Z) : bool := bool_decide (a = b).

(** The delimiters of the command parser: space, tab, carriage return, newline. *)
Definition is_blank (c : Z) : bool := (c =? 32) || (c =? 9) || (c =? 13) || (c =? 10).

(** The tokens [strtok_r] returns one after the other; [cur] holds the bytes of
    the current one, last first. *)
Fixpoint tokens (cur l : list Z) : list (list Z) :=
  match l with
  | [] => match cur with [] => [] | _ => [rev cur] end
  | c :: l =>
      if is_blank c then match cur with [] => tokens [] l | _ => rev cur :: tokens [] l end
      else tokens (c :: cur) l
  end.

Definition is_num (c : Z) : bool := (48 <=? c) && (c <=? 57).

(** The digits at the start of [l], after those already read. *)
Fixpoint decimal (acc : Z) (l : list Z) : Z :=
  match l with
  | c :: l => if is_num c then decimal (10 * acc + (c - 48)) l else acc
  | [] => acc
  end.

(** [atoi] on a token (no leading blank). *)
Definition atoi (l : list Z) : Z :=
  match l with
  | 45 :: l => - decimal 0 l
  | 43 :: l => decimal 0 l
  | _ => decimal 0 l
  end.
