(* ===== verification/Gate.v ===== *)
(** * The sercomm gate ([hw/arm/calypso/sercomm_gate.c])

    The gate decodes the sercomm stream of the host, answers the TRXC commands
    (DLCI 4) itself and pushes every other frame, stuffed again, into the
    receive ring of the UART.  [g_uart], [g_clk_fd] and [sercomm_gate_init] hold
    or compute nothing that is used. *)
From Stdlib Require Import Ascii.
From stdpp Require Import strings.
From S2P Require Import Prelude Cstr Ring Uart Sercomm.

Module GATE.
Import UART.

Definition GATE_BUF_SIZE : Z := 512.
Definition SERCOMM_DLCI_TRXC : Z := 4.

(** The static variables and the UART the gate feeds. *)
Record Gate := mkGate {
  sc_buf : list Z;
  sc_len : Z;
  gate_state : sc_state;
  uart : CalypsoUARTState
}.

#[export] Instance gate_eta : Settable Gate := λ g,
  mkGate (sc_buf g) (sc_len g) (gate_state g) (uart g).

Definition gate_init (u : CalypsoUARTState) : Gate := mkGate (replicate 512 0) 0 SC_IDLE u.

Definition inject1 (u : CalypsoUARTState) (b : Z) : CalypsoUARTState := calypso_uart_inject_raw u [b].

Definition gate_push_to_fifo (u : CalypsoUARTState) (frame : list Z) : CalypsoUARTState :=
  let u := inject1 u SERCOMM_FLAG in
  let u := foldl (λ u c,
    if (c =? SERCOMM_FLAG) || (c =? SERCOMM_ESCAPE)
    then inject1 (inject1 u SERCOMM_ESCAPE) (Z.lxor c SERCOMM_XOR)
    else inject1 u c) u frame in
  inject1 u SERCOMM_FLAG.

(** ** TRXC commands *)

(** The payload loop of [gate_send_trxc_rsp]: it stops when fewer than three
    bytes of the 1024-byte [frame] are left. *)
Fixpoint rsp_payload (frame payload : list Z) : list Z :=
  match payload with
  | [] => frame
  | c :: payload =>
      if zlen frame + 2 <? 1024 then
        rsp_payload (frame ++ (if (c =? SERCOMM_FLAG) || (c =? SERCOMM_ESCAPE)
                               then [SERCOMM_ESCAPE; Z.lxor c SERCOMM_XOR] else [c])) payload
      else frame
  end.

(** The bytes written to the chardev for the first [plen] bytes of [payload].
    Reading past the end of [payload] is undefined in C, 0 here. *)
Definition trxc_frame (payload : list Z) (plen : Z) : list Z :=
  rsp_payload ([SERCOMM_FLAG] ++ concat (stuff_byte <$> [SERCOMM_DLCI_TRXC; 0x03]))
    (rd payload <$> zseq 0 (Z.to_nat plen)) ++ [SERCOMM_FLAG].

Definition gate_send_trxc_rsp (u : CalypsoUARTState) (payload : list Z) (plen : Z) : CalypsoUARTState :=
  write_all u (trxc_frame payload plen).

(** [strchr(s, ' ')]: what is before and after the first space. *)
Fixpoint split_space (s : list Z) : list Z * option (list Z) :=
  match s with
  | [] => ([], None)
  | c :: s =>
      if c =? 32 then ([], Some s)
      else let '(verb, args) := split_space s in (c :: verb, args)
  end.

(** The number of bytes left after dropping trailing NULs and newlines. *)
Fixpoint strip (cmd : list Z) (n : nat) : nat :=
  match n with
  | O => O
  | S m => if (rd cmd (Z.of_nat m) =? 0) || (rd cmd (Z.of_nat m) =? 10) then strip cmd m else n
  end.

Definition nonempty (args : list Z) : bool := negb (streq args []).

(** The response text, before [snprintf] cuts it. *)
Definition trxc_response (verb args : list Z) : list Z :=
  if streq verb (str "POWERON") then str "RSP POWERON 0"
  else if streq verb (str "POWEROFF") then str "RSP POWEROFF 0"
  else if streq verb (str "SETFORMAT") then
    str "RSP SETFORMAT 0 " ++ (if nonempty args then args else str "0")
  else if streq verb (str "NOMTXPOWER") then str "RSP NOMTXPOWER 0 50"
  else if streq verb (str "MEASURE") then
    str "RSP MEASURE 0 " ++ (if nonempty args then args else str "0") ++ str " -60"
  else if nonempty args then str "RSP " ++ verb ++ str " 0 " ++ args
  else str "RSP " ++ verb ++ str " 0".

(** The verb and the arguments of a command, [None] when it is not one. *)
Definition trxc_parse (cmd : list Z) : option (list Z * list Z) :=
  let n := Z.of_nat (strip cmd (length cmd)) in
  if n <? 4 then None
  else if negb (streq (take 4 cmd) (str "CMD ")) then None
  else
    let tn := if n - 4 <? 512 - 1 then n - 4 else 512 - 1 in
    let tmp := cstr (take (Z.to_nat tn) (drop 4 cmd)) in
    let '(verb, args) := split_space tmp in
    Some (verb, default [] args).

(** The value returned and the contents of [rsp]. *)
Definition gate_trxc_handle (cmd : list Z) (rsp_size : Z) : Z * list Z :=
  match trxc_parse cmd with
  | None => (0, [])
  | Some (verb, args) =>
      let text := trxc_response verb args in
      let rsp := take (Z.to_nat (rsp_size - 1)) text ++ [0] in
      let rl := zlen text in
      if (0 <? rl) && (rl <? rsp_size) then (rl + 1, rsp) else (rl, rsp)
  end.

(** ** The decoder *)

(** The handling of a completed frame. *)
Definition gate_frame (u : CalypsoUARTState) (frame : list Z) : CalypsoUARTState :=
  if 2 <=? zlen frame then
    if (rd frame 0 =? SERCOMM_DLCI_TRXC) && (2 <=? zlen frame) then
      let '(rl, rsp) := gate_trxc_handle (drop 2 frame) 512 in
      if 0 <? rl then gate_send_trxc_rsp u rsp rl else u
    else gate_push_to_fifo u frame
  else u.

Definition gate_byte (g : Gate) (b : Z) : Gate :=
  match gate_state g with
  | SC_IDLE =>
      if b =? SERCOMM_FLAG then g <| gate_state := SC_IN_FRAME |> <| sc_len := 0 |>
      else g <| uart := inject1 (uart g) b |>
  | SC_ESCAPE =>
      let '(buf, n) := collect (sc_buf g) (sc_len g) GATE_BUF_SIZE (Z.lxor b SERCOMM_XOR) in
      g <| sc_buf := buf |> <| sc_len := n |> <| gate_state := SC_IN_FRAME |>
  | SC_IN_FRAME =>
      if b =? SERCOMM_FLAG then
        g <| uart := gate_frame (uart g) (body_of (sc_buf g) (sc_len g)) |> <| sc_len := 0 |>
      else if b =? SERCOMM_ESCAPE then g <| gate_state := SC_ESCAPE |>
      else
        let '(buf, n) := collect (sc_buf g) (sc_len g) GATE_BUF_SIZE b in
        g <| sc_buf := buf |> <| sc_len := n |>
  end.

Definition sercomm_gate_feed (g : Gate) (buf : list Z) : Gate := foldl gate_byte g buf.

(** ** Frames reach the firmware unchanged *)
#[export] Instance gate_deframer : Deframer Gate CalypsoUARTState := {|
  df_state := gate_state;
  df_body g := body_of (sc_buf g) (sc_len g);
  df_rest := uart;
  df_byte := gate_byte;
  df_on_frame := gate_frame;
  df_cap := 512;
  df_ok g := buf_ok 512 (sc_buf g) (sc_len g)
|}.

#[export] Instance gate_laws : DeframerLaws Gate CalypsoUARTState.
Proof.
  split; unfold df_at; cbn; unfold gate_byte.
  - done.
  - intros g body r (Hok & -> & Hb & Hr). by destruct Hok.
  - intros g body r (Hok & Hst & Hb & Hr). rewrite Hst. cbn. rewrite Hst, Hb, Hr. by destruct Hok.
  - intros g body r (Hok & Hst & Hb & Hr). by rewrite Hst.
  - intros g body r b (Hok & Hst & Hb & Hr) H1 H2. apply Z.eqb_neq in H1, H2. rewrite Hst, H1, H2.
    pose proof (collect_spec 512 (sc_buf g) (sc_len g) b Hok) as Hc. unfold GATE_BUF_SIZE.
    destruct (collect _ _ _ _). cbn. rewrite <- Hb. by destruct Hc.
  - intros g body r b (Hok & Hst & Hb & Hr). rewrite Hst. unfold GATE_BUF_SIZE.
    pose proof (collect_spec 512 (sc_buf g) (sc_len g) (Z.lxor b SERCOMM_XOR) Hok) as Hc.
    destruct (collect _ _ _ _). cbn. rewrite <- Hb. by destruct Hc.
Qed.

(** Pushing a frame injects its encoding byte by byte. *)
Lemma gate_push_eq u frame : gate_push_to_fifo u frame = foldl inject1 u (frame_of frame).
Proof.
  unfold gate_push_to_fifo, frame_of. cbn [foldl]. rewrite foldl_app. cbn [foldl]. f_equal.
  generalize (inject1 u SERCOMM_FLAG). induction frame as [|c frame IH]; intros v; [done|].
  rewrite stuff_cons, foldl_app. cbn [foldl]. rewrite IH. f_equal.
  unfold stuff_byte. by destruct (_ || _).
Qed.

Lemma inject_bytes l u :
  uart_wf u → zlen (fifo u) + zlen l ≤ CALYPSO_UART_RX_FIFO_SIZE →
  uart_wf (foldl inject1 u l) ∧ fifo (foldl inject1 u l) = fifo u ++ l.
Proof.
  revert u. induction l as [|b l IH]; intros u Hu Hl; cbn [foldl]; [by rewrite app_nil_r|].
  destruct (inject_raw_spec u [b] Hu) as (Hu1 & Hf & _). unfold zlen in *. cbn [length] in Hl.
  assert (fifo (inject1 u b) = fifo u ++ [b]) as E.
  { unfold inject1. rewrite Hf. apply (qrun_push_fits _ (fifo u) [b]). unfold zlen. cbn. lia. }
  destruct (IH (inject1 u b)) as [? ->]; [done|rewrite E, length_app; cbn; lia|].
  by rewrite E, <- app_assoc.
Qed.

(** The frames the gate passes on: not TRXC, header complete, within the buffer. *)
Definition passed_on (body : list Z) : Prop :=
  2 ≤ zlen body ≤ GATE_BUF_SIZE ∧ rd body 0 ≠ SERCOMM_DLCI_TRXC.

Lemma gate_frames bodies u :
  uart_wf u → Forall passed_on bodies →
  zlen (fifo u) + zlen (concat (frame_of <$> bodies)) ≤ CALYPSO_UART_RX_FIFO_SIZE →
  fifo (foldl gate_frame u bodies) = fifo u ++ concat (frame_of <$> bodies).
Proof.
  intros Hu Hb. revert u Hu. induction Hb as [|body bodies [Hl Hd] _ IH]; intros u Hu Hs.
  { cbn. by rewrite app_nil_r. }
  rewrite fmap_cons in *. cbn [foldl concat] in *. unfold zlen in Hs. rewrite length_app in Hs.
  assert (gate_frame u body = foldl inject1 u (frame_of body)) as ->.
  { unfold gate_frame. destruct (Z.leb_spec 2 (zlen body)); [|lia].
    apply Z.eqb_neq in Hd as ->. apply gate_push_eq. }
  destruct (inject_bytes (frame_of body) u Hu) as [Hu1 E]; [unfold zlen; lia|].
  rewrite IH; [by rewrite E, <- app_assoc|done|]. unfold zlen. rewrite E, length_app. lia.
Qed.

(** C33: the gate is transparent for the firmware: a stream of well-formed
    frames of any DLCI but 4, whose decoded bodies fit the 512-byte buffer,
    appears byte for byte in the receive ring of the UART when there is room
    for it, although every frame is decoded and encoded again. *)
Theorem gate_transparent u bodies :
  uart_wf u → Forall passed_on bodies →
  zlen (fifo u) + zlen (concat (frame_of <$> bodies)) ≤ CALYPSO_UART_RX_FIFO_SIZE →
  fifo (uart (sercomm_gate_feed (gate_init u) (concat (frame_of <$> bodies)))) =
    fifo u ++ concat (frame_of <$> bodies).
Proof.
  intros Hu Hb Hs. rewrite <- (gate_frames bodies u Hu Hb Hs). f_equal.
  pose proof (df_stream_rest bodies (gate_init u) u) as Hd. apply Hd; clear Hd.
  - left. eexists. split; [|done]. by split.
  - eapply Forall_impl; [|exact Hb]. intros body [Hl _]. unfold zlen, GATE_BUF_SIZE in *. cbn. lia.
Qed.

Lemma gate_transparent_witness :
  fifo (uart (sercomm_gate_feed (gate_init (uart_init (Some "modem"%string)))
    (concat (frame_of <$> [[5; 3; 0x7E; 1]; [10; 3]])))) =
  [0x7E; 5; 3; 0x7D; 0x5E; 1; 0x7E; 0x7E; 10; 3; 0x7E].
Proof.
  refine (gate_transparent (uart_init (Some "modem"%string)) [[5; 3; 0x7E; 1]; [10; 3]] _ _ _).
  - apply uart_init_wf.
  - repeat constructor; by vm_compute.
  - by vm_compute.
Defined.

(** ** The response frame *)
Lemma rsp_payload_bound payload frame :
  zlen frame ≤ 1023 → zlen (rsp_payload frame payload) ≤ 1023.
Proof.
  revert frame. induction payload as [|c payload IH]; intros frame Hf; cbn [rsp_payload]; [done|].
  destruct (Z.ltb_spec (zlen frame + 2) 1024); [|done]. apply IH.
  unfold zlen in *. rewrite length_app. case_if; cbn; lia.
Qed.

Lemma rsp_payload_stuff payload frame :
  zlen frame + zlen (stuff payload) ≤ 1022 → rsp_payload frame payload = frame ++ stuff payload.
Proof.
  revert frame. induction payload as [|c payload IH]; intros frame Hf; cbn [rsp_payload].
  { by rewrite app_nil_r. }
  rewrite stuff_cons in Hf |- *. unfold stuff_byte in *. unfold zlen in *. rewrite length_app in Hf.
  destruct (Z.ltb_spec (Z.of_nat (length frame) + 2) 1024) as [H|H].
  - rewrite IH; [by rewrite <- app_assoc|]. rewrite length_app. lia.
  - destruct (_ || _); cbn in Hf; lia.
Qed.

Lemma rd_zseq_id l : rd l <$> zseq 0 (length l) = l.
Proof.
  apply list_eq. intros i. rewrite list_lookup_fmap.
  destruct (decide (i < length l)%nat) as [Hi|Hi].
  - rewrite lookup_zseq by done. cbn. unfold rd. replace (Z.to_nat (0 + Z.of_nat i)) with i by lia.
    destruct (lookup_lt_is_Some_2 l i Hi) as [x E]. by rewrite E.
  - rewrite (lookup_ge_None_2 l) by lia. rewrite (lookup_ge_None_2 (zseq _ _)) by (rewrite length_zseq; lia). done.
Qed.

(** The frame built for a TRXC response never exceeds its 1024-byte
    buffer, whatever the response; and when the encoded response fits it is
    the sercomm frame of DLCI 4 carrying exactly that response. *)
Theorem trxc_frame_ok payload :
  zlen (trxc_frame payload (zlen payload)) ≤ 1024 ∧
  (zlen (stuff payload) ≤ 1019 →
   trxc_frame payload (zlen payload) = frame_of ([SERCOMM_DLCI_TRXC; 0x03] ++ payload)).
Proof.
  unfold trxc_frame. unfold zlen at 2 4. rewrite Nat2Z.id, rd_zseq_id. split.
  - assert (zlen (rsp_payload ([SERCOMM_FLAG] ++ concat (stuff_byte <$> [SERCOMM_DLCI_TRXC; 0x03]))
      payload) ≤ 1023) as H by (apply rsp_payload_bound; by vm_compute).
    unfold zlen in *. rewrite length_app. cbn [length]. lia.
  - intros Hl. rewrite rsp_payload_stuff; [|unfold zlen in *; cbn; lia].
    unfold frame_of. rewrite stuff_app. done.
Qed.

(** ** The length of a response *)
Lemma strip_le cmd n : (strip cmd n ≤ n)%nat.
Proof. induction n as [|n IH]; cbn; [done|]. case_if; lia. Qed.

Lemma length_cstr l : (length (cstr l) ≤ length l)%nat.
Proof. induction l as [|c l IH]; cbn; [done|]. case_if; cbn; lia. Qed.

Lemma split_space_length s :
  let '(verb, args) := split_space s in
  (length verb + match args with Some a => 1 + length a | None => 0 end)%nat = length s.
Proof.
  induction s as [|c s IH]; cbn; [done|]. case_if; [done|].
  destruct (split_space s) as [verb args]. destruct args; cbn in *; lia.
Qed.

(** The verb and the arguments come from at most 506 bytes. *)
Lemma trxc_parse_length cmd verb args :
  zlen cmd ≤ 510 → trxc_parse cmd = Some (verb, args) →
  zlen verb + zlen args ≤ 506 ∧ (args ≠ [] → zlen verb + zlen args ≤ 505).
Proof.
  unfold zlen, trxc_parse. intros Hl. repeat (case_if; [done|]). bool_prop.
  pose proof (strip_le cmd (length cmd)) as Hs. set (n := strip cmd (length cmd)) in *.
  set (tn := if _ <? _ then _ else _).
  assert (Z.to_nat tn ≤ 506)%nat as Htn by (unfold tn; case_if; lia).
  pose proof (length_cstr (take (Z.to_nat tn) (drop 4 cmd))) as Hc.
  rewrite length_take in Hc. pose proof (split_space_length (cstr (take (Z.to_nat tn) (drop 4 cmd)))) as H.
  destruct (split_space _) as [v a]. intros [= -> <-]. destruct a as [a|]; cbn; [|split; [lia|done]].
  split; intros; lia.
Qed.

Lemma trxc_response_length verb args :
  zlen (trxc_response verb args) ≤ 18 ∨
  (verb = str "SETFORMAT" ∧ zlen (trxc_response verb args) ≤ 16 + Z.max 1 (zlen args)) ∨
  (verb = str "NOMTXPOWER" ∧ zlen (trxc_response verb args) = 19) ∨
  (verb = str "MEASURE" ∧ zlen (trxc_response verb args) ≤ 18 + Z.max 1 (zlen args)) ∨
  zlen (trxc_response verb args) = zlen verb + zlen args + (if nonempty args then 7 else 6).
Proof.
  unfold trxc_response, streq. repeat case_bool_decide; subst.
  - left. by vm_compute.
  - left. by vm_compute.
  - right; left. split; [done|]. unfold zlen. rewrite length_app.
    destruct (nonempty args); cbn; lia.
  - do 2 right; left. done.
  - do 3 right; left. split; [done|]. unfold zlen. rewrite !length_app.
    destruct (nonempty args); cbn; lia.
  - do 4 right. destruct (nonempty args) eqn:E; unfold zlen; rewrite !length_app; cbn; [lia|].
    unfold nonempty, streq in E. case_bool_decide; [subst; cbn; lia|done].
Qed.

Lemma response_fits verb args :
  zlen verb + zlen args ≤ 506 → (args ≠ [] → zlen verb + zlen args ≤ 505) →
  zlen (trxc_response verb args) ≤ 512 ∨
  (verb = str "MEASURE" ∧ 495 ≤ zlen args ∧ zlen (trxc_response verb args) ≤ 516).
Proof.
  intros H1 H2.
  assert (zlen args = 0 ∨ zlen verb + zlen args ≤ 505) as H3.
  { destruct args; [by left|right; by apply H2]. }
  assert (0 ≤ zlen args) by (unfold zlen; lia).
  destruct (trxc_response_length verb args) as [?|[[-> ?]|[[-> ?]|[[-> ?]|E]]]]; [left; lia| |left; lia| |].
  - left. change (zlen (str "SETFORMAT")) with 9 in *. lia.
  - change (zlen (str "MEASURE")) with 7 in *.
    destruct (Z.le_gt_cases 495 (zlen args)); [right; split_and!; [done|lia..]|left; lia].
  - left. rewrite E. destruct args as [|a args]; [change (nonempty []) with false; lia|]. specialize (H2 ltac:(done)).
    destruct (nonempty _); lia.
Qed.

(** The length [gate_trxc_handle] returns for a command that fits the
    gate's buffer exceeds the 512-byte response buffer only for MEASURE with at
    least 495 bytes of arguments, by at most 4; such a command exists, and the
    sender then reads 4 bytes past the end of [rsp]. *)
Theorem trxc_handle_length :
  (∀ cmd, zlen cmd ≤ GATE_BUF_SIZE - 2 →
    let '(rl, rsp) := gate_trxc_handle cmd 512 in
    rl ≤ 516 ∧ zlen rsp ≤ 512 ∧
    (512 < rl → ∃ args, trxc_parse cmd = Some (str "MEASURE", args) ∧ 495 ≤ zlen args)) ∧
  (∃ cmd, zlen cmd = GATE_BUF_SIZE - 2 ∧
    fst (gate_trxc_handle cmd 512) = 516 ∧ zlen (snd (gate_trxc_handle cmd 512)) = 512).
Proof.
  split; [|exists (str "CMD MEASURE " ++ replicate 498 65); by vm_compute].
  intros cmd Hl. unfold GATE_BUF_SIZE in Hl. unfold gate_trxc_handle.
  destruct (trxc_parse cmd) as [[verb args]|] eqn:Ep; [|unfold zlen; cbn; lia].
  destruct (trxc_parse_length cmd verb args ltac:(lia) Ep) as [H1 H2].
  pose proof (trxc_response_length verb args) as H3.
  assert (zlen (take (Z.to_nat (512 - 1)) (trxc_response verb args) ++ [0]) ≤ 512) as H4.
  { unfold zlen. rewrite length_app, length_take. cbn. lia. }
  assert (zlen (trxc_response verb args) ≤ 512 ∨
    (verb = str "MEASURE" ∧ 495 ≤ zlen args ∧ zlen (trxc_response verb args) ≤ 516)) as Hrl
    by (by apply response_fits).
  destruct (Z.ltb_spec (zlen (trxc_response verb args)) 512) as [H6|H6].
  - rewrite andb_true_r. case_if; split_and!; try lia; done.
  - rewrite andb_false_r. destruct Hrl as [Hrl|(-> & Ha & Hrl)]; split_and!; try done; try lia.
    by exists args.
Qed.

End GATE.
