(* ===== verification/L1ctlTap.v ===== *)
(** * The L1CTL tap of the gr-gsm layer 1 ([l1-grgsm/calypso_l1ctl_tap.c])

    The tap listens to the sercomm stream the firmware sends, recognises the
    dedicated channel in use from the L1CTL messages and tells layer 1 and the
    bridge (a 16-byte file in shared memory).  The calls to layer 1 and the
    file writes are the events the tap emits, oldest first. *)
From S2P Require Import Prelude Sercomm.

Module L1CTL_TAP.

Definition SERCOMM_DLCI_L1CTL : Z := 5.
Definition L1CTL_DATA_IND : Z := 0x03.
Definition L1CTL_RACH_CONF : Z := 0x0c.
Definition L1CTL_DATA_CONF : Z := 0x0f.
Definition DCCH_RELEASED : Z := 0xFF.

Inductive event :=
  | ShmDcchCfg (b : list Z)
  | RachConf (fn : Z)
  | DcchActive
  | DcchIsTch (tch : bool)
  | DcchSet (kind ss : Z).

(** The static variable [tap]. *)
Record Tap := mkTap {
  state : sc_state;
  buf : list Z;
  len : Z;
  last_chan_nr : Z;
  dcch_seq : Z;
  events : list event
}.

#[export] Instance l1ctl_tap_eta : Settable Tap := λ t,
  mkTap (state t) (buf t) (len t) (last_chan_nr t) (dcch_seq t) (events t).

Definition tap_init : Tap := mkTap SC_IDLE (replicate 512 0) 0 0xFF 0 [].

Definition emit (t : Tap) (e : event) : Tap := t <| events := events t ++ [e] |>.

Definition dcch_cfg_publish (t : Tap) (kind ss chan_nr : Z) : Tap :=
  let t := t <| dcch_seq := u32 (dcch_seq t + 1) |> in
  emit t (ShmDcchCfg (le32 (dcch_seq t) ++
    [u8 kind; u8 ss; Z.land chan_nr 0x07; chan_nr; 0; 0; 0; 0; 0; 0; 0; 0])).

(** The kind and subslot of a dedicated control channel, [-1] for others. *)
Definition chan_kind (chan_nr : Z) : Z * Z :=
  if Z.land chan_nr 0xE0 =? 0x20 then (0, Z.land (Z.shiftr chan_nr 3) 0x03)
  else if Z.land chan_nr 0xC0 =? 0x40 then (1, Z.land (Z.shiftr chan_nr 3) 0x07)
  else (-1, 0).

Definition chan_tch (chan_nr : Z) : bool :=
  (Z.land chan_nr 0xF8 =? 0x08) || (Z.land chan_nr 0xF0 =? 0x10).

Definition frame_complete (t : Tap) : Tap :=
  if (len t <? 3) || negb (rd (buf t) 0 =? SERCOMM_DLCI_L1CTL) then t
  else
    let payload i := rd (buf t) (2 + i) in
    let plen := len t - 2 in
    let type := payload 0 in
    if (type =? L1CTL_RACH_CONF) && (12 <=? plen) then emit t (RachConf (ldl_be_p (buf t) (2 + 8)))
    else if (negb (type =? L1CTL_DATA_CONF) && negb (type =? L1CTL_DATA_IND)) || (plen <? 5) then t
    else
      let chan_nr := payload 4 in
      let '(kind, ss) := chan_kind chan_nr in
      let tch := chan_tch chan_nr in
      let dedicated := tch || (0 <=? kind) in
      let t := if dedicated then emit (emit t DcchActive) (DcchIsTch tch) else t in
      if (0 <=? kind) && negb (chan_nr =? last_chan_nr t) then
        let t := t <| last_chan_nr := chan_nr |> in
        emit (dcch_cfg_publish t kind ss chan_nr) (DcchSet kind ss)
      else t.

Definition calypso_l1ctl_tap_tx_byte (t : Tap) (byte : Z) : Tap :=
  match state t with
  | SC_IDLE =>
      if byte =? SERCOMM_FLAG then t <| state := SC_IN_FRAME |> <| len := 0 |> else t
  | SC_IN_FRAME =>
      if byte =? SERCOMM_FLAG then
        let t := if 0 <? len t then frame_complete t else t in
        t <| len := 0 |>
      else if byte =? SERCOMM_ESCAPE then t <| state := SC_ESCAPE |>
      else
        let '(b, n) := collect (buf t) (len t) 512 byte in
        t <| buf := b |> <| len := n |>
  | SC_ESCAPE =>
      let '(b, n) := collect (buf t) (len t) 512 (Z.lxor byte SERCOMM_XOR) in
      t <| buf := b |> <| len := n |> <| state := SC_IN_FRAME |>
  end.

Definition calypso_l1ctl_tap_channel_released (t : Tap) : Tap :=
  if last_chan_nr t =? 0xFF then t
  else dcch_cfg_publish (t <| last_chan_nr := 0xFF |>) DCCH_RELEASED 0 0.

(** ** The decoder interface *)

(** What a frame acts on: the channel, the sequence number and the events. *)
Definition rest (t : Tap) : Z * Z * list event := (last_chan_nr t, dcch_seq t, events t).

(** The effect of a frame, from its bytes alone. *)
Definition on_frame (r : Z * Z * list event) (body : list Z) : Z * Z * list event :=
  let '(c, q, e) := r in rest (frame_complete (mkTap SC_IN_FRAME body (zlen body) c q e)).

#[export] Instance l1ctl_tap_deframer : Deframer Tap (Z * Z * list event) := {|
  df_state := state;
  df_body t := body_of (buf t) (len t);
  df_rest := rest;
  df_byte := calypso_l1ctl_tap_tx_byte;
  df_on_frame := on_frame;
  df_cap := 512;
  df_ok t := buf_ok 512 (buf t) (len t)
|}.

(** The automaton part of the state is left alone by a completed frame. *)
Lemma frame_complete_frame t :
  state (frame_complete t) = state t ∧ buf (frame_complete t) = buf t ∧ len (frame_complete t) = len t.
Proof.
  unfold frame_complete, dcch_cfg_publish, emit. destruct (chan_kind _) as [kind ss].
  repeat case_if; done.
Qed.

(** A completed frame is read only below its length. *)
Lemma frame_complete_on_frame t :
  buf_ok 512 (buf t) (len t) →
  rest (frame_complete t) = on_frame (rest t) (body_of (buf t) (len t)).
Proof.
  intros Hok. unfold on_frame, rest at 2. unfold frame_complete at 2. cbn [len buf].
  rewrite (length_body_of 512) by done. unfold frame_complete.
  destruct (Z.ltb_spec (len t) 3); [done|]. cbn [orb].
  rewrite !(rd_body_of 512 (buf t) (len t)) by (done || lia).
  case_if; [done|]. bool_prop.
  destruct (rd (buf t) (2 + 0) =? L1CTL_RACH_CONF) eqn:E1; cbn [andb].
  - destruct (Z.leb_spec 12 (len t - 2)).
    + by rewrite (ldl_body_of 512) by (done || lia).
    + bool_prop. rewrite E1. cbn [Z.eqb Pos.eqb negb andb orb]. done.
  - case_if; [done|]. bool_prop. rewrite !(rd_body_of 512 (buf t) (len t)) by (done || lia).
    destruct (chan_kind _) as [kind ss]. destruct (chan_tch _ || _); cbn.
    all: case_if; reflexivity.
Qed.

#[export] Instance l1ctl_tap_laws : DeframerLaws Tap (Z * Z * list event).
Proof. solve_deframer_laws calypso_l1ctl_tap_tx_byte buf len frame_complete_frame frame_complete_on_frame. Qed.

(** ** Announcing the dedicated channel *)

(** A DATA_IND or DATA_CONF of the firmware as the body of a sercomm frame:
    DLCI, control byte, message type, three header bytes, channel number. *)
Definition data_msg (type chan_nr : Z) (extra : list Z) : list Z :=
  [SERCOMM_DLCI_L1CTL; 0x03; type; 0; 0; 0; chan_nr] ++ extra.

(** The channel numbers published in shared memory, in order. *)
Definition published (e : list event) : list Z :=
  omap (λ x, match x with ShmDcchCfg b => b !! 7%nat | _ => None end) e.

(** The values of a sequence that differ from their predecessor. *)
Fixpoint changes (prev : Z) (l : list Z) : list Z :=
  match l with
  | [] => []
  | c :: l => if c =? prev then changes prev l else c :: changes c l
  end.

Lemma published_app e1 e2 : published (e1 ++ e2) = published e1 ++ published e2.
Proof. apply omap_app. Qed.

(** One message about a dedicated control channel. *)
Lemma on_frame_data_msg type chan_nr extra c q e :
  (type = L1CTL_DATA_IND ∨ type = L1CTL_DATA_CONF) → 0 ≤ fst (chan_kind chan_nr) →
  ∃ q' e', on_frame (c, q, e) (data_msg type chan_nr extra) =
    ((if chan_nr =? c then c else chan_nr), q', e ++ e') ∧
    published e' = (if chan_nr =? c then [] else [chan_nr]).
Proof.
  intros Ht Hk. unfold on_frame, frame_complete. cbn [len buf].
  assert (zlen (data_msg type chan_nr extra) = 7 + zlen extra) as ->.
  { unfold zlen, data_msg. cbn. lia. }
  assert (0 ≤ zlen extra) by (unfold zlen; lia).
  destruct (Z.ltb_spec (7 + zlen extra) 3); [lia|].
  destruct (Z.ltb_spec (7 + zlen extra - 2) 5); [lia|].
  assert (rd (data_msg type chan_nr extra) (2 + 0) = type) as -> by done.
  assert (rd (data_msg type chan_nr extra) (2 + 4) = chan_nr) as -> by done.
  assert (rd (data_msg type chan_nr extra) 0 = SERCOMM_DLCI_L1CTL) as -> by done.
  assert ((type =? L1CTL_RACH_CONF) = false) as -> by (by destruct Ht as [-> | ->]).
  assert (negb (type =? L1CTL_DATA_CONF) && negb (type =? L1CTL_DATA_IND) = false) as ->
    by (by destruct Ht as [-> | ->]).
  cbn [Z.eqb Pos.eqb SERCOMM_DLCI_L1CTL negb orb andb].
  destruct (chan_kind chan_nr) as [kind ss]. cbn [fst] in Hk.
  apply Z.leb_le in Hk. rewrite Hk, orb_true_r. cbn [andb last_chan_nr emit update_field].
  unfold rest, dcch_cfg_publish, emit. destruct (chan_nr =? c);
    cbn [negb update_field last_chan_nr dcch_seq events]; rewrite <- !app_assoc; by eexists _, _.
Qed.

Lemma on_frames_data_msgs msgs c q e :
  Forall (λ '(type, chan_nr, extra), (type = L1CTL_DATA_IND ∨ type = L1CTL_DATA_CONF) ∧
    0 ≤ fst (chan_kind chan_nr)) msgs →
  published (snd (foldl on_frame (c, q, e) ((λ '(type, chan_nr, extra), data_msg type chan_nr extra) <$> msgs)))
  = published e ++ changes c ((λ '(_, chan_nr, _), chan_nr) <$> msgs).
Proof.
  intros Hm. revert c q e. induction Hm as [|[[type chan_nr] extra] msgs [Ht Hk] _ IH]; intros c q e.
  { cbn. by rewrite app_nil_r. }
  rewrite !fmap_cons. cbn [foldl changes].
  destruct (on_frame_data_msg type chan_nr extra c q e Ht Hk) as (q' & e' & -> & He').
  rewrite IH, published_app, He'. destruct (Z.eqb_spec chan_nr c) as [->|]; [by rewrite app_nil_r|].
  by rewrite <- app_assoc.
Qed.

(** From power-on, a sercomm stream of DATA_IND and DATA_CONF messages
    about dedicated control channels, whatever bytes they carry and however
    they are stuffed, makes the tap publish exactly the channel numbers that
    differ from the one before, in order. *)
Theorem l1ctl_tap_publishes_changes msgs :
  Forall (λ '(type, chan_nr, extra), (type = L1CTL_DATA_IND ∨ type = L1CTL_DATA_CONF) ∧
    0 ≤ fst (chan_kind chan_nr) ∧ zlen extra ≤ 505) msgs →
  published (events (run calypso_l1ctl_tap_tx_byte tap_init
    (concat ((λ '(type, chan_nr, extra), frame_of (data_msg type chan_nr extra)) <$> msgs))))
  = changes 0xFF ((λ '(_, chan_nr, _), chan_nr) <$> msgs).
Proof.
  intros Hm.
  assert ((λ '(type, chan_nr, extra), frame_of (data_msg type chan_nr extra)) <$> msgs =
    frame_of <$> ((λ '(type, chan_nr, extra), data_msg type chan_nr extra) <$> msgs)) as ->.
  { rewrite <- list_fmap_compose. apply list_fmap_ext. by intros i [[? ?] ?]. }
  set (bodies := (λ '(type, chan_nr, extra), data_msg type chan_nr extra) <$> msgs).
  assert (Forall (λ body, length body ≤ 512)%nat bodies) as Hb.
  { unfold bodies. apply Forall_fmap. eapply Forall_impl; [|exact Hm].
    intros [[? ?] ?] (_ & _ & Hl). unfold data_msg, zlen in *. cbn. lia. }
  pose proof (df_stream_rest bodies tap_init (0xFF, 0, [])) as Hs.
  change (events (run ?f ?a ?l)) with (snd (rest (run f a l))).
  etransitivity; [|apply (on_frames_data_msgs msgs 0xFF 0 [])].
  - f_equal. f_equal. apply Hs; [|exact Hb]. left. eexists. split; [|done]. by split.
  - eapply Forall_impl; [|exact Hm]. by intros [[? ?] ?] (? & ? & _).
Qed.

Lemma l1ctl_tap_publishes_changes_witness :
  published (events (run calypso_l1ctl_tap_tx_byte tap_init
    (concat ((λ '(type, chan_nr, extra), frame_of (data_msg type chan_nr extra)) <$>
      [(3, 0x20, [0x7E]); (0x0f, 0x20, []); (3, 0x41, [0x7D; 1])])))) = [0x20; 0x41].
Proof.
  refine (l1ctl_tap_publishes_changes [(3, 0x20, [0x7E]); (0x0f, 0x20, []); (3, 0x41, [0x7D; 1])] _).
  repeat constructor; by vm_compute.
Defined.

End L1CTL_TAP.
