(* ===== verification/DcchTap.v ===== *)
(** * The dedicated-channel tap ([hw/arm/calypso/calypso_dcch_tap.c])

    The tap of the DSP layer 1: it decodes the same sercomm stream as
    [L1ctlTap], also follows TCH and PDCH channels, counts the downlink PDTCH
    blocks, and detects the release of the channel from the frame numbers of
    the blocks received on the common channels.

    The program writes a 16-byte file in shared memory and calls
    [calypso_trx_dcch] and [calypso_trx_rach_conf]; these are the events of the
    model.  Whether the file system accepts the publication number [seq] is not
    decided by the program: it is the parameter [shm_ok]. *)
From S2P Require Import Prelude Sercomm.

Module DCCH_TAP.

Definition SERCOMM_DLCI_L1CTL : Z := 5.
Definition L1CTL_DATA_IND : Z := 0x03.
Definition L1CTL_RACH_CONF : Z := 0x0c.
Definition L1CTL_DATA_CONF : Z := 0x0f.
Definition L1CTL_GPRS_DL_BLOCK_IND : Z := 0x23.
Definition L1CTL_GPRS_UL_BLOCK_CNF : Z := 0x26.
Definition DCCH_RELEASED : Z := 0xFF.
Definition DCCH_TCH_F : Z := 2.
Definition DCCH_TCH_H : Z := 3.
Definition DCCH_PDCH : Z := 4.
Definition DCCH_LIBERE_APRES_TRAMES : Z := 100.

Inductive event :=
  | ShmDcchCfg (b : list Z)
  | TrxDcch (kind ss tn : Z)
  | TrxRachConf (fn : Z).

(** The static variables [tap] and [pdtch]. *)
Record Pdtch := mkPdtch {
  donnees : Z;
  autre_tfi : Z;
  crc_ko : Z;
  ptcch : Z;
  ul_cnf : Z;
  ber_ko : Z
}.

Record Tap := mkTap {
  state : sc_state;
  buf : list Z;
  len : Z;
  dernier_chan_nr : Z;
  seq : Z;
  fn_dedie : Z;
  fn_dedie_vue : bool;
  trx_chan_nr : Z;
  pdtch : Pdtch;
  events : list event
}.

#[export] Instance pdtch_eta : Settable Pdtch := λ p,
  mkPdtch (donnees p) (autre_tfi p) (crc_ko p) (ptcch p) (ul_cnf p) (ber_ko p).
#[export] Instance dcch_tap_eta : Settable Tap := λ t,
  mkTap (state t) (buf t) (len t) (dernier_chan_nr t) (seq t) (fn_dedie t) (fn_dedie_vue t)
    (trx_chan_nr t) (pdtch t) (events t).

Definition tap_init : Tap :=
  mkTap SC_IDLE (replicate 512 0) 0 0xFF 0 0 false 0xFF (mkPdtch 0 0 0 0 0 0) [].

Definition emit (t : Tap) (e : event) : Tap := t <| events := events t ++ [e] |>.

(** The 16 bytes of the file. *)
Definition dcch_cfg (seq kind ss chan_nr : Z) : list Z :=
  le32 seq ++ [u8 kind; u8 ss; Z.land chan_nr 0x07; chan_nr; 0; 0; 0; 0; 0; 0; 0; 0].

(** Channel number to kind and subslot (44.004 8.3); kind [-1] for a channel
    that is not dedicated. *)
Definition chan_kind (chan_nr : Z) : Z * Z :=
  if Z.land chan_nr 0xE0 =? 0x20 then (0, Z.land (Z.shiftr chan_nr 3) 0x03)
  else if Z.land chan_nr 0xC0 =? 0x40 then (1, Z.land (Z.shiftr chan_nr 3) 0x07)
  else if Z.land chan_nr 0xF8 =? 0x08 then (DCCH_TCH_F, 0)
  else if Z.land chan_nr 0xF0 =? 0x10 then (DCCH_TCH_H, Z.land (Z.shiftr chan_nr 3) 0x01)
  else (-1, 0).

(** The accounting of a downlink PDTCH block. *)
Definition pdtch_count (p : Pdtch) (b : list Z) (plen : Z) : Pdtch :=
  let charge i := rd b (2 + i) in
  let bfn := ldl_be_p b (2 + 4) in
  if bfn mod 104 =? 12 then p <| ptcch := u32 (ptcch p + 1) |>
  else if 41 <=? plen then p <| donnees := u32 (donnees p + 1) |>
  else if (18 <=? plen) && negb (charge 17 =? 0xff) then p <| autre_tfi := u32 (autre_tfi p + 1) |>
  else if 18 <=? plen then
    p <| crc_ko := u32 (crc_ko p + 1) |>
      <| ber_ko := u64 (ber_ko p + Z.lor (Z.shiftl (charge 12) 8) (charge 13)) |>
  else p.

Section tap.
  Context (shm_ok : Z → bool).

Definition dcch_cfg_publier (t : Tap) (kind ss chan_nr : Z) : Tap :=
  let t := t <| seq := u32 (seq t + 1) |> in
  if negb (shm_ok (seq t)) then t
  else
    let t := emit t (ShmDcchCfg (dcch_cfg (seq t) kind ss chan_nr)) in
    if negb (kind =? DCCH_TCH_F) && negb (kind =? DCCH_TCH_H) && negb (chan_nr =? trx_chan_nr t) then
      let t := t <| trx_chan_nr := if kind =? DCCH_RELEASED then 0xFF else chan_nr |> in
      emit t (TrxDcch kind ss (Z.land chan_nr 0x07))
    else t.

(** A new dedicated channel is published; the same one is not. *)
Definition suivre (t : Tap) (kind ss chan_nr : Z) : Tap :=
  if negb (chan_nr =? dernier_chan_nr t) then
    dcch_cfg_publier (t <| dernier_chan_nr := chan_nr |>) kind ss chan_nr
  else t.

(** A block on a common channel: is the dedicated channel released? *)
Definition ecart_libere (t : Tap) (fn : Z) : bool :=
  let ecart := if fn_dedie_vue t then u32 (fn - fn_dedie t) mod 2715648 else 0xFFFFFFFF in
  negb (fn_dedie_vue t) || ((DCCH_LIBERE_APRES_TRAMES <=? ecart) && (ecart <? 2715648 / 2)).

Definition trame_complete (t : Tap) : Tap :=
  if (len t <? 3) || negb (rd (buf t) 0 =? SERCOMM_DLCI_L1CTL) then t
  else
    let charge i := rd (buf t) (2 + i) in
    let plen := len t - 2 in
    let type := charge 0 in
    if (type =? L1CTL_RACH_CONF) && (12 <=? plen) then emit t (TrxRachConf (ldl_be_p (buf t) (2 + 8)))
    else if (type =? L1CTL_GPRS_DL_BLOCK_IND) && (9 <=? plen) then
      let tn := Z.land (charge 8) 0x07 in
      let chan_nr := Z.lor 0xC0 tn in
      let t := t <| pdtch := pdtch_count (pdtch t) (buf t) plen |> in
      let t := t <| fn_dedie := ldl_be_p (buf t) (2 + 4) |> <| fn_dedie_vue := true |> in
      suivre t DCCH_PDCH 0 chan_nr
    else if type =? L1CTL_GPRS_UL_BLOCK_CNF then
      t <| pdtch := pdtch t <| ul_cnf := u32 (ul_cnf (pdtch t) + 1) |> |>
    else if (negb (type =? L1CTL_DATA_CONF) && negb (type =? L1CTL_DATA_IND)) || (plen <? 5) then t
    else
      let chan_nr := charge 4 in
      let '(kind, ss) := chan_kind chan_nr in
      let fn := if 12 <=? plen then ldl_be_p (buf t) (2 + 8) else 0 in
      if 0 <=? kind then
        suivre (t <| fn_dedie := fn |> <| fn_dedie_vue := true |>) kind ss chan_nr
      else if negb (dernier_chan_nr t =? 0xFF) && (Z.land chan_nr 0xE0 =? 0x80) then
        if ecart_libere t fn then
          dcch_cfg_publier (t <| dernier_chan_nr := 0xFF |> <| fn_dedie_vue := false |>)
            DCCH_RELEASED 0 0
        else t
      else t.

Definition calypso_dcch_tap_tx_byte (t : Tap) (byte : Z) : Tap :=
  match state t with
  | SC_IDLE =>
      if byte =? SERCOMM_FLAG then t <| state := SC_IN_FRAME |> <| len := 0 |> else t
  | SC_IN_FRAME =>
      if byte =? SERCOMM_FLAG then
        let t := if 0 <? len t then trame_complete t else t in
        t <| len := 0 |>
      else if byte =? SERCOMM_ESCAPE then t <| state := SC_ESCAPE |>
      else
        let '(b, n) := collect (buf t) (len t) 512 byte in
        t <| buf := b |> <| len := n |>
  | SC_ESCAPE =>
      let '(b, n) := collect (buf t) (len t) 512 (Z.lxor byte SERCOMM_XOR) in
      t <| buf := b |> <| len := n |> <| state := SC_IN_FRAME |>
  end.

Definition calypso_dcch_tap_reset (t : Tap) : Tap :=
  if dernier_chan_nr t =? 0xFF then t
  else dcch_cfg_publier (t <| dernier_chan_nr := 0xFF |>) DCCH_RELEASED 0 0.

(** ** The decoder interface *)

(** What a frame acts on: the state without the automaton. *)
Definition rest (t : Tap) : Tap := t <| state := SC_IDLE |> <| buf := [] |> <| len := 0 |>.

(** The effect of a frame, from its bytes alone. *)
Definition on_frame (r : Tap) (body : list Z) : Tap :=
  rest (trame_complete (r <| state := SC_IN_FRAME |> <| buf := body |> <| len := zlen body |>)).

Lemma publier_frame t kind ss c :
  let t' := dcch_cfg_publier t kind ss c in
  state t' = state t ∧ buf t' = buf t ∧ len t' = len t.
Proof. unfold dcch_cfg_publier, emit. cbn. by repeat case_if. Qed.

Lemma suivre_frame t kind ss c :
  let t' := suivre t kind ss c in
  state t' = state t ∧ buf t' = buf t ∧ len t' = len t.
Proof. unfold suivre. cbn. case_if; [|done]. exact (publier_frame (t <| dernier_chan_nr := c |>) kind ss c). Qed.

Lemma publier_rest t kind ss c :
  rest (dcch_cfg_publier t kind ss c) = rest (dcch_cfg_publier (rest t) kind ss c).
Proof. unfold dcch_cfg_publier, emit. cbn. by repeat case_if. Qed.

Lemma suivre_rest t kind ss c : rest (suivre t kind ss c) = rest (suivre (rest t) kind ss c).
Proof. unfold suivre. cbn. case_if; [|done]. exact (publier_rest (t <| dernier_chan_nr := c |>) kind ss c). Qed.

Lemma pdtch_count_body p b len :
  buf_ok 512 b len → 11 ≤ len → pdtch_count p (body_of b len) (len - 2) = pdtch_count p b (len - 2).
Proof.
  intros Hok Hl. unfold pdtch_count. rewrite (ldl_body_of 512) by (done || lia).
  destruct (Z.leb_spec 18 (len - 2)); [|done]. by rewrite !(rd_body_of 512) by (done || lia).
Qed.

Lemma trame_complete_frame t :
  state (trame_complete t) = state t ∧ buf (trame_complete t) = buf t ∧ len (trame_complete t) = len t.
Proof.
  unfold trame_complete. destruct (chan_kind _) as [kind ss].
  repeat case_if; try done; cbn;
    first [exact (suivre_frame (_ <| fn_dedie := _ |> <| fn_dedie_vue := _ |>) _ _ _)
          |exact (publier_frame (t <| dernier_chan_nr := _ |> <| fn_dedie_vue := _ |>) _ _ _)].
Qed.

(** A completed frame is read only below its length. *)
Lemma trame_complete_on_frame t :
  buf_ok 512 (buf t) (len t) →
  rest (trame_complete t) = on_frame (rest t) (body_of (buf t) (len t)).
Proof.
  intros Hok. unfold on_frame. unfold trame_complete at 2. cbn [len buf update_field rest].
  rewrite (length_body_of 512) by done. unfold trame_complete.
  destruct (Z.ltb_spec (len t) 3); [done|]. cbn [orb].
  rewrite !(rd_body_of 512 (buf t) (len t)) by (done || lia).
  case_if; [done|]. bool_prop. set (type := rd (buf t) (2 + 0)).
  destruct ((type =? L1CTL_RACH_CONF) && (12 <=? len t - 2)) eqn:E1; bool_prop.
  { by rewrite (ldl_body_of 512) by (done || lia). }
  destruct ((type =? L1CTL_GPRS_DL_BLOCK_IND) && (9 <=? len t - 2)) eqn:E2; bool_prop.
  { rewrite pdtch_count_body, !(rd_body_of 512), (ldl_body_of 512) by (done || lia).
    rewrite suivre_rest. symmetry. rewrite suivre_rest. done. }
  destruct (type =? L1CTL_GPRS_UL_BLOCK_CNF); [done|].
  case_if; [done|]. bool_prop. rewrite !(rd_body_of 512) by (done || lia).
  destruct (chan_kind _) as [kind ss].
  assert ((if 12 <=? len t - 2 then ldl_be_p (body_of (buf t) (len t)) (2 + 8) else 0) =
    (if 12 <=? len t - 2 then ldl_be_p (buf t) (2 + 8) else 0)) as ->.
  { destruct (Z.leb_spec 12 (len t - 2)); [|done]. by rewrite (ldl_body_of 512) by (done || lia). }
  destruct (0 <=? kind). { rewrite suivre_rest. symmetry. rewrite suivre_rest. done. }
  cbn [dernier_chan_nr update_field rest]. case_if; [|done].
  unfold ecart_libere. cbn [fn_dedie fn_dedie_vue update_field rest]. case_if; [|done].
  rewrite publier_rest. symmetry. rewrite publier_rest. done.
Qed.

#[export] Instance dcch_tap_deframer : Deframer Tap Tap := {|
  df_state := state;
  df_body t := body_of (buf t) (len t);
  df_rest := rest;
  df_byte := calypso_dcch_tap_tx_byte;
  df_on_frame := on_frame;
  df_cap := 512;
  df_ok t := buf_ok 512 (buf t) (len t)
|}.

#[export] Instance dcch_tap_laws : DeframerLaws Tap Tap.
Proof. solve_deframer_laws calypso_dcch_tap_tx_byte buf len trame_complete_frame trame_complete_on_frame. Qed.

(** ** What is announced *)
Inductive op :=
  | TxByte (byte : Z)
  | Reset.

Definition step (t : Tap) (o : op) : Tap :=
  match o with
  | TxByte byte => calypso_dcch_tap_tx_byte t byte
  | Reset => calypso_dcch_tap_reset t
  end.

Definition op_ok (o : op) : Prop :=
  match o with TxByte byte => 0 ≤ byte < 256 | Reset => True end.

End tap.

(** The channels published in shared memory, 0xFF for a release. *)
Definition published (e : list event) : list Z :=
  omap (λ x, match x with
             | ShmDcchCfg b => Some (if rd b 4 =? DCCH_RELEASED then 0xFF else rd b 7)
             | _ => None
             end) e.

(** The kind, subslot and timeslot told to [calypso_trx_dcch]. *)
Definition told (e : list event) : list (Z * Z * Z) :=
  omap (λ x, match x with TrxDcch kind ss tn => Some (kind, ss, tn) | _ => None end) e.

Definition is_pdch (c : Z) : bool := (0xC0 <=? c) && (c <=? 0xC7).

(** Kind and subslot of a channel the tap follows. *)
Definition kind_of (c : Z) : Z * Z := if is_pdch c then (DCCH_PDCH, 0) else chan_kind c.

Definition followed (c : Z) : Prop := 0 ≤ c < 256 ∧ 0 ≤ fst (kind_of c).

(** What is told for a channel, 0xFF standing for a release. *)
Definition told_of (c : Z) : Z * Z * Z :=
  if c =? 0xFF then (DCCH_RELEASED, 0, 0) else (kind_of c, Z.land c 0x07).

(** The channel number is recovered from what is told. *)
Definition chan_of (k : Z * Z * Z) : Z :=
  let '(kind, ss, tn) := k in
  if kind =? 0 then 0x20 + 8 * ss + tn
  else if kind =? 1 then 0x40 + 8 * ss + tn
  else if kind =? DCCH_TCH_F then 0x08 + tn
  else if kind =? DCCH_TCH_H then 0x10 + 8 * ss + tn
  else if kind =? DCCH_PDCH then 0xC0 + tn
  else 0xFF.

Lemma followed_facts c :
  followed c → c ≠ 0 ∧ c ≠ 0xFF ∧ 0 ≤ fst (kind_of c) ≤ 4 ∧ 0 ≤ snd (kind_of c) < 8 ∧
  chan_of (kind_of c, Z.land c 0x07) = c.
Proof.
  intros [Hc Hk]. revert Hk. apply (range_split (λ c, _ → _) 256 c); [lia|].
  forall_cases; intros Hk; vm_compute in Hk; try (by exfalso; apply Hk); by vm_compute.
Qed.

Lemma told_of_inj c c' : followed c → (followed c' ∨ c' = 0xFF) → told_of c = told_of c' → c = c'.
Proof.
  intros Hc Hc'. pose proof (followed_facts c Hc) as (_ & Hne & Hk & _ & E). unfold told_of.
  apply Z.eqb_neq in Hne as ->. destruct Hc' as [Hc'| ->].
  - pose proof (followed_facts c' Hc') as (_ & Hne' & _ & _ & E').
    apply Z.eqb_neq in Hne' as ->. intros Ek. congruence.
  - cbn. intros [= Ek _]. rewrite Ek in Hk. unfold DCCH_RELEASED in Hk. cbn in Hk. lia.
Qed.

(** The invariant of the announcements. *)
Record announced (d x : Z) (e : list event) : Prop := {
  an_dernier : d = 0xFF ∨ followed d;
  an_trx : x = 0xFF ∨ (followed x ∧ fst (kind_of x) ≠ DCCH_TCH_F ∧ fst (kind_of x) ≠ DCCH_TCH_H);
  an_pub_last : lastd 0xFF (published e) = d;
  an_pub : chain (λ p c, c ≠ p) 0xFF (published e);
  an_told_last : lastd (told_of 0xFF) (told e) = told_of x;
  an_told : chain (λ p k, k ≠ p ∨ k = told_of 0xFF) (told_of 0xFF) (told e)
}.

Lemma published_snoc e x :
  published (e ++ [x]) = published e ++
    match x with ShmDcchCfg b => [if rd b 4 =? DCCH_RELEASED then 0xFF else rd b 7] | _ => [] end.
Proof. unfold published. rewrite omap_app. by destruct x. Qed.

Lemma told_snoc e x :
  told (e ++ [x]) = told e ++ match x with TrxDcch k s n => [(k, s, n)] | _ => [] end.
Proof. unfold told. rewrite omap_app. by destruct x. Qed.

Definition no_tch (kind : Z) : bool := negb (kind =? DCCH_TCH_F) && negb (kind =? DCCH_TCH_H).

(** A publication of channel [c] (0xFF: the release, published with number 0). *)
Lemma publish_announced d x e q c kind ss n :
  announced d x e → c ≠ d → (c = 0xFF ∨ followed c) →
  (kind, ss) = fst (told_of c) → n = (if c =? 0xFF then 0 else c) →
  announced c
    (if no_tch kind && negb (n =? x) then (if kind =? DCCH_RELEASED then 0xFF else n) else x)
    ((e ++ [ShmDcchCfg (dcch_cfg q kind ss n)]) ++
     (if no_tch kind && negb (n =? x) then [TrxDcch kind ss (Z.land n 0x07)] else [])).
Proof.
  intros [H1 H2 H3 H4 H5 H6] Hne Hc Hk Hn.
  assert ((if rd (dcch_cfg q kind ss n) 4 =? DCCH_RELEASED then 0xFF else rd (dcch_cfg q kind ss n) 7) = c
    ∧ (kind =? DCCH_RELEASED) = (c =? 0xFF) ∧ (kind, ss, Z.land n 0x07) = told_of c
    ∧ (c ≠ 0xFF → kind = fst (kind_of c))) as (Hp & Hr & Ht & Hkc).
  { change (rd (dcch_cfg q kind ss n) 4) with (u8 kind). change (rd (dcch_cfg q kind ss n) 7) with n.
    unfold told_of in *. destruct Hc as [-> |Hf]; [by cbn in *; simplify_eq|].
    destruct (followed_facts c Hf) as (_ & Hne' & Hb & _). apply Z.eqb_neq in Hne'. rewrite Hne' in *.
    cbn [fst] in Hk. rewrite <- Hk in *. cbn [fst] in Hb. rewrite u8_small by lia. subst n.
    unfold DCCH_RELEASED. destruct (Z.eqb_spec kind 0xFF); [lia|]. done. }
  assert (published (e ++ [ShmDcchCfg (dcch_cfg q kind ss n)]) = published e ++ [c]) as Hpub
    by (by rewrite published_snoc, Hp).
  assert (told (e ++ [ShmDcchCfg (dcch_cfg q kind ss n)]) = told e) as Htold
    by (by rewrite told_snoc, app_nil_r).
  destruct (no_tch kind && negb (n =? x)) eqn:Ec.
  - rewrite Hr. unfold no_tch in Ec. bool_prop. split.
    + done.
    + destruct (Z.eqb_spec c 0xFF); [by left|right]. subst n.
      destruct Hc as [|Hc]; [done|]. by rewrite <- Hkc.
    + by rewrite published_snoc, app_nil_r, Hpub, lastd_snoc.
    + rewrite published_snoc, app_nil_r, Hpub. apply chain_snoc; congruence.
    + rewrite told_snoc, Htold, lastd_snoc, Ht. destruct (Z.eqb_spec c 0xFF) as [-> |]; congruence.
    + rewrite told_snoc, Htold, Ht. apply chain_snoc; [done|]. rewrite H5.
      destruct (Z.eqb_spec c 0xFF) as [-> |Hcf]; [by right|left]. intros E.
      destruct Hc as [|Hc]; [done|]. apply told_of_inj in E; [congruence|done|]. by destruct H2 as [|[? _]]; [right|left].
  - rewrite app_nil_r. split; rewrite ?Hpub, ?Htold, ?lastd_snoc; try done.
    apply chain_snoc; congruence.
Qed.

Section announcements.
  Context (shm_ok : Z → bool) (Hshm : ∀ q, shm_ok q = true).

Definition tap_announced (t : Tap) : Prop := announced (dernier_chan_nr t) (trx_chan_nr t) (events t).

Lemma publier_announced t c kind ss n :
  tap_announced t → c ≠ dernier_chan_nr t → (c = 0xFF ∨ followed c) →
  (kind, ss) = fst (told_of c) → n = (if c =? 0xFF then 0 else c) →
  ∀ t', events t' = events t → trx_chan_nr t' = trx_chan_nr t → dernier_chan_nr t' = c →
  tap_announced (dcch_cfg_publier shm_ok t' kind ss n).
Proof using Hshm.
  intros Ht Hne Hc Hk Hn t' He Hx Hd.
  pose proof (publish_announced _ _ _ (u32 (seq t' + 1)) c kind ss n Ht Hne Hc Hk Hn) as H.
  unfold dcch_cfg_publier, tap_announced. cbn [seq update_field]. rewrite Hshm.
  cbn [negb emit update_field trx_chan_nr seq]. fold (no_tch kind). rewrite Hx.
  destruct (no_tch kind && negb (n =? trx_chan_nr t)); cbn; rewrite ?Hx, ?He, ?Hd, ?app_nil_r in *; done.
Qed.

Lemma suivre_announced t t' c kind ss :
  tap_announced t → followed c → (kind, ss) = kind_of c →
  events t' = events t → trx_chan_nr t' = trx_chan_nr t → dernier_chan_nr t' = dernier_chan_nr t →
  tap_announced (suivre shm_ok t' kind ss c).
Proof using Hshm.
  intros Ht Hc Hk He Hx Hd. destruct (followed_facts c Hc) as (_ & Hne & _). unfold suivre.
  apply Z.eqb_neq in Hne. destruct (Z.eqb_spec c (dernier_chan_nr t')) as [E|E]; cbn [negb].
  - unfold tap_announced. by rewrite He, Hx, Hd.
  - apply (publier_announced t c); try done; [congruence|by right| |by rewrite Hne].
    unfold told_of. by rewrite Hne.
Qed.

Lemma liberer_announced t t' :
  tap_announced t → dernier_chan_nr t ≠ 0xFF →
  events t' = events t → trx_chan_nr t' = trx_chan_nr t → dernier_chan_nr t' = 0xFF →
  tap_announced (dcch_cfg_publier shm_ok t' DCCH_RELEASED 0 0).
Proof using Hshm. intros. apply (publier_announced t 0xFF); auto. Qed.

Lemma followed_pdch x : followed (Z.lor 0xC0 (Z.land x 0x07)) ∧
  (DCCH_PDCH, 0) = kind_of (Z.lor 0xC0 (Z.land x 0x07)).
Proof.
  pose proof (land_range x 0x07 ltac:(lia)) as H.
  apply (range_split (λ y, followed (Z.lor 0xC0 y) ∧ (DCCH_PDCH, 0) = kind_of (Z.lor 0xC0 y)) 8); [lia|].
  forall_cases; by vm_compute.
Qed.

Lemma followed_chan c : 0 ≤ c < 256 → 0 ≤ fst (chan_kind c) → followed c ∧ chan_kind c = kind_of c.
Proof.
  intros Hc. apply (range_split (λ c, _ → _) 256 c); [lia|].
  forall_cases; intros Hk; vm_compute in Hk; try (by exfalso; apply Hk); by vm_compute.
Qed.

Definition bytes (l : list Z) : Prop := Forall (λ b, 0 ≤ b < 256) l.

Lemma trame_complete_announced t :
  bytes (buf t) → tap_announced t → tap_announced (trame_complete shm_ok t).
Proof using Hshm.
  intros Hb Ht. unfold trame_complete.
  destruct (chan_kind (rd (buf t) (2 + 4))) as [kind ss] eqn:Ek.
  assert (0 ≤ rd (buf t) (2 + 4) < 256) as Hc by (by apply rd_Forall).
  repeat case_if; bool_prop; try done.
  - destruct Ht. split; cbn; rewrite ?published_snoc, ?told_snoc, ?app_nil_r; done.
  - destruct (followed_pdch (rd (buf t) (2 + 8))). by apply (suivre_announced t).
  - destruct (followed_chan _ Hc) as [Hf Hk]; [by rewrite Ek|].
    apply (suivre_announced t); try done. congruence.
  - destruct (followed_chan _ Hc) as [Hf Hk]; [by rewrite Ek|].
    apply (suivre_announced t); try done. congruence.
  - by apply (liberer_announced t).
Qed.

Lemma dcch_step_announced t o :
  bytes (buf t) ∧ tap_announced t → op_ok o →
  bytes (buf (step shm_ok t o)) ∧ tap_announced (step shm_ok t o).
Proof using Hshm.
  intros [Hb Ht] Ho. destruct o as [b|]; cbn [step op_ok] in *.
  - unfold calypso_dcch_tap_tx_byte, collect. destruct (state t); repeat case_if; cbn; try done.
    + destruct (trame_complete_frame shm_ok t) as (_ & -> & _).
      split; [done|]. by apply trame_complete_announced.
    + split; [by apply wr_Forall|done].
    + split; [|done]. apply wr_Forall; [|done]. by apply (lxor_range 8).
  - unfold calypso_dcch_tap_reset. case_if; bool_prop; [done|].
    split; [by destruct (publier_frame shm_ok (t <| dernier_chan_nr := 0xFF |>) DCCH_RELEASED 0 0) as (_ & -> & _)|].
    by apply (liberer_announced t).
Qed.

End announcements.

(** as long as the shared-memory file can be written, the tap announces
    each change of dedicated channel exactly once: from power-on, whatever the
    firmware sends and whenever the tap is reset, the sequence of published
    channels has no repetition and ends with the channel in use; what is told
    to [calypso_trx_dcch] ends with the last SDCCH or PDCH (or the release),
    never repeats it (so returning to the same SDCCH after a TCH is silent),
    and never names a TCH. *)
Theorem dcch_tap_announcements shm_ok l :
  (∀ q, shm_ok q = true) → Forall op_ok l →
  let t := run (step shm_ok) tap_init l in
  chain (λ p c, c ≠ p) 0xFF (published (events t)) ∧
  lastd 0xFF (published (events t)) = dernier_chan_nr t ∧
  chain (λ p k, k ≠ p ∨ k = told_of 0xFF) (told_of 0xFF) (told (events t)) ∧
  lastd (told_of 0xFF) (told (events t)) = told_of (trx_chan_nr t) ∧
  fst (fst (told_of (trx_chan_nr t))) ≠ DCCH_TCH_F ∧ fst (fst (told_of (trx_chan_nr t))) ≠ DCCH_TCH_H.
Proof.
  intros Hshm Hl. cbn zeta.
  assert (bytes (buf (run (step shm_ok) tap_init l)) ∧ tap_announced (run (step shm_ok) tap_init l))
    as [_ []].
  { apply (run_invariant (step shm_ok) op_ok (λ t, bytes (buf t) ∧ tap_announced t)); [|split|done].
    - intros. by apply dcch_step_announced.
    - by apply Forall_replicate.
    - by split; [left..| | | |]. }
  do 4 (split; [done|]). destruct an_trx0 as [-> |(Hf & H1 & H2)]; [done|].
  destruct (followed_facts _ Hf) as (_ & Hne & _). unfold told_of.
  apply Z.eqb_neq in Hne as ->. done.
Qed.

Lemma dcch_tap_announcements_witness :
  let t := run (step (λ _, true)) tap_init
    (TxByte <$> frame_of [5; 3; 3; 0; 0; 0; 0x41; 0; 0; 0; 0; 0; 0; 9]) in
  lastd 0xFF (published (events t)) = dernier_chan_nr t ∧ dernier_chan_nr t = 0x41.
Proof.
  split; [|by vm_compute].
  refine (proj1 (proj2 (dcch_tap_announcements (λ _, true) _ _ _))); [done|].
  repeat constructor; by vm_compute.
Defined.

(** ** Release of the channel *)

(** A DATA_IND with its frame number, as the body of a sercomm frame. *)
Definition data_ind (chan_nr fn : Z) : list Z :=
  [SERCOMM_DLCI_L1CTL; 0x03; L1CTL_DATA_IND; 0; 0; 0; chan_nr; 0; 0; 0] ++ rev (le32 fn).

Lemma ldl_data_ind chan_nr fn : 0 ≤ fn < 4294967296 → ldl_be_p (data_ind chan_nr fn) (2 + 8) = fn.
Proof.
  intros Hfn. unfold ldl_be_p.
  change (u8 (fn / 16777216) * 16777216 + u8 (fn / 65536) * 65536 + u8 (fn / 256) * 256 + u8 fn = fn).
  by apply le32_value.
Qed.

(** The hyperframe is 2715648 frames. *)
Definition is_fn (fn : Z) : Prop := 0 ≤ fn < 2715648.

(** [chan_nr] names a BCCH, RACH or PCH/AGCH. *)
Definition common (chan_nr : Z) : Prop := 0x80 ≤ chan_nr < 0xA0.

Lemma common_kind c : common c → chan_kind c = (-1, 0) ∧ (Z.land c 0xE0 =? 0x80) = true.
Proof.
  unfold common. intros H. replace c with ((c - 0x80) + 0x80) by lia.
  apply (range_split (λ c, chan_kind (c + 0x80) = (-1, 0) ∧ (Z.land (c + 0x80) 0xE0 =? 0x80) = true) 32); [lia|].
  forall_cases; by vm_compute.
Qed.

(** A block on a common channel releases the channel or leaves the tap alone. *)
Lemma on_frame_common shm_ok t c fn :
  common c → is_fn fn → dernier_chan_nr t ≠ 0xFF →
  dernier_chan_nr (on_frame shm_ok t (data_ind c fn)) =
    (if ecart_libere t fn then 0xFF else dernier_chan_nr t).
Proof.
  intros Hc Hfn Hd. destruct (common_kind c Hc) as [Hk Hl]. unfold on_frame.
  pose proof (ldl_data_ind c fn) as Hldl. unfold is_fn in *.
  unfold trame_complete. cbn [len buf update_field].
  change (zlen (data_ind c fn)) with 14.
  change (rd (data_ind c fn) 0) with SERCOMM_DLCI_L1CTL.
  change (rd (data_ind c fn) (2 + 0)) with L1CTL_DATA_IND.
  change (rd (data_ind c fn) (2 + 4)) with c. rewrite Hk, Hldl by lia.
  apply Z.eqb_neq in Hd. cbn [dernier_chan_nr update_field]. rewrite Hd, Hl. cbn [negb andb].
  set (t1 := t <| state := SC_IN_FRAME |> <| buf := data_ind c fn |> <| len := 14 |>).
  transitivity (dernier_chan_nr (rest (if ecart_libere t fn then
    dcch_cfg_publier shm_ok (t1 <| dernier_chan_nr := 0xFF |> <| fn_dedie_vue := false |>) DCCH_RELEASED 0 0
    else t1))); [reflexivity|].
  destruct (ecart_libere t fn); [|done]. unfold dcch_cfg_publier, emit. cbn. by repeat case_if.
Qed.

(** Without a wrap of the frame counter, a block received on a common
    channel releases the dedicated channel exactly when it is between 100 and
    1357823 frames later than the last block of the dedicated channel; a block
    that was still on its way (less than 100 frames after) never does. *)
Theorem dcch_release_window shm_ok t c fn :
  common c → is_fn fn → is_fn (fn_dedie t) → fn_dedie_vue t = true → dernier_chan_nr t ≠ 0xFF →
  fn_dedie t ≤ fn →
  dernier_chan_nr (on_frame shm_ok t (data_ind c fn)) = 0xFF ↔
    DCCH_LIBERE_APRES_TRAMES ≤ fn - fn_dedie t < 1357824.
Proof.
  intros Hc Hfn Hd Hv Hn Hle. rewrite on_frame_common by done. unfold ecart_libere.
  rewrite Hv. unfold is_fn in *. rewrite u32_small, Z.mod_small by lia.
  change (2715648 / 2) with 1357824. unfold DCCH_LIBERE_APRES_TRAMES. cbn [negb orb].
  destruct (Z.leb_spec 100 (fn - fn_dedie t)), (Z.ltb_spec (fn - fn_dedie t) 1357824); cbn [andb];
    split; intros; try done; lia.
Qed.

Lemma dcch_release_window_witness :
  dernier_chan_nr (on_frame (λ _, true)
    (tap_init <| dernier_chan_nr := 0x41 |> <| fn_dedie := 1000 |> <| fn_dedie_vue := true |>)
    (data_ind 0x90 1100)) = 0xFF.
Proof.
  refine (proj2 (dcch_release_window (λ _, true)
    (tap_init <| dernier_chan_nr := 0x41 |> <| fn_dedie := 1000 |> <| fn_dedie_vue := true |>)
    0x90 1100 _ _ _ _ _ _) _); by vm_compute.
Defined.

(** Across the wrap of the frame counter the release is missed.  The
    difference of the frame numbers is reduced modulo the hyperframe after it
    wrapped modulo 2^32, which is not a multiple of the hyperframe: for more
    than a million frames (over an hour) after the wrap no block of a common
    channel releases the dedicated channel, however late it is. *)
Theorem dcch_release_missed_at_wrap shm_ok t c fn :
  common c → is_fn fn → is_fn (fn_dedie t) → fn_dedie_vue t = true → dernier_chan_nr t ≠ 0xFF →
  fn < fn_dedie t → (fn - fn_dedie t) mod 2715648 < 1187840 →
  dernier_chan_nr (on_frame shm_ok t (data_ind c fn)) = dernier_chan_nr t.
Proof.
  intros Hc Hfn Hd Hv Hn Hlt Hg. rewrite on_frame_common by done. unfold is_fn in *.
  assert (ecart_libere t fn = false) as ->; [|done]. unfold ecart_libere. rewrite Hv. unfold u32.
  assert ((fn - fn_dedie t) mod 4294967296 = fn - fn_dedie t + 4294967296) as -> by mlia.
  assert ((fn - fn_dedie t + 4294967296) mod 2715648 = (fn - fn_dedie t) mod 2715648 + 1527808) as -> by mlia.
  change (2715648 / 2) with 1357824. cbn [negb orb].
  pose proof (Z.mod_pos_bound (fn - fn_dedie t) 2715648).
  destruct (Z.ltb_spec ((fn - fn_dedie t) mod 2715648 + 1527808) 1357824); [lia|]. apply andb_false_r.
Qed.

Lemma dcch_release_missed_at_wrap_witness :
  dernier_chan_nr (on_frame (λ _, true)
    (tap_init <| dernier_chan_nr := 0x41 |> <| fn_dedie := 2715640 |> <| fn_dedie_vue := true |>)
    (data_ind 0x90 200)) = 0x41.
Proof.
  refine (dcch_release_missed_at_wrap (λ _, true)
    (tap_init <| dernier_chan_nr := 0x41 |> <| fn_dedie := 2715640 |> <| fn_dedie_vue := true |>)
    0x90 200 _ _ _ _ _ _ _); by vm_compute.
Defined.

End DCCH_TAP.
