(* ===== verification/L1ctlSock.v ===== *)
(** * The L1CTL socket server ([hw/arm/calypso/l1ctl_sock.c])

    Translates between the sercomm frames of the firmware UART and the
    length-prefixed L1CTL messages of the mobile's unix socket.

    The operating system is outside of the program: the result of [recv] and
    [accept] is an argument of the operations, and whether [sendmsg] delivers
    the whole message is the parameter [send_ok].  Messages sent and files
    written are events.  File descriptors are reduced to whether they are open. *)
From S2P Require Import Prelude Ring Uart Sercomm.

Module L1CTL_SOCK.
Import UART.

Definition SERCOMM_DLCI_L1CTL : Z := 5.

Inductive event :=
  | SendMobile (msg : list Z)
  | ShmDcchCfg (b : list Z)
  | ShmKc (b : list Z).

(** [L1CTLSock] and the function-local static variables. *)
Record L1CTLSock := mkSock {
  srv_open : bool;
  cli_open : bool;
  sock_state : sc_state;
  sock_buf : list Z;
  sock_len : Z;
  lp_buf : list Z;
  lp_len : Z;
  sock_uart : option CalypsoUARTState;
  last_chan_nr : Z;
  dcch_seq : Z;
  kc_seq : Z;
  events : list event
}.

#[export] Instance sock_eta : Settable L1CTLSock := λ s,
  mkSock (srv_open s) (cli_open s) (sock_state s) (sock_buf s) (sock_len s) (lp_buf s) (lp_len s)
    (sock_uart s) (last_chan_nr s) (dcch_seq s) (kc_seq s) (events s).

Definition emit (s : L1CTLSock) (e : event) : L1CTLSock := s <| events := events s ++ [e] |>.

(** ** Framing *)

(** One byte of the encoding; [None] stands for the return value -1. *)
Definition put (out_size : Z) (out : option (list Z)) (c : Z) : option (list Z) :=
  match out with
  | None => None
  | Some out =>
      if (c =? SERCOMM_FLAG) || (c =? SERCOMM_ESCAPE) then
        if out_size <? zlen out + 2 then None
        else Some (out ++ [SERCOMM_ESCAPE; Z.lxor c SERCOMM_XOR])
      else if out_size <? zlen out + 1 then None
      else Some (out ++ [c])
  end.

(** The bytes written to [out]; their number is the value returned. *)
Definition sercomm_wrap (dlci : Z) (payload : list Z) (out_size : Z) : option (list Z) :=
  if out_size <=? 0 then None
  else
    let out := foldl (put out_size) (Some [SERCOMM_FLAG]) [dlci; 0x03] in
    match foldl (put out_size) out payload with
    | None => None
    | Some out => if out_size <=? zlen out then None else Some (out ++ [SERCOMM_FLAG])
    end.

Section sock.
  Context (send_ok : list Z → bool).

(** ** Firmware to mobile *)
Definition l1ctl_send_to_mobile (s : L1CTLSock) (payload : list Z) : L1CTLSock :=
  let len := zlen payload in
  if negb (cli_open s) || (len <=? 0) || (65535 <? len) then s
  else
    let msg := [u8 (Z.shiftr len 8); Z.land len 0xFF] ++ payload in
    let s := emit s (SendMobile msg) in
    if send_ok msg then s else s <| cli_open := false |>.

Definition chan_kind (chan_nr : Z) : Z * Z :=
  if Z.land chan_nr 0xE0 =? 0x20 then (0, Z.land (Z.shiftr chan_nr 3) 0x03)
  else if Z.land chan_nr 0xC0 =? 0x40 then (1, Z.land (Z.shiftr chan_nr 3) 0x07)
  else (-1, 0).

(** The publication of the dedicated channel inside [sercomm_frame_complete]. *)
Definition publish_dcch (s : L1CTLSock) (payload : list Z) : L1CTLSock :=
  if ((rd payload 0 =? 0x0f) || (rd payload 0 =? 0x03)) && (5 <=? zlen payload) then
    let chan_nr := rd payload 4 in
    let '(kind, ss) := chan_kind chan_nr in
    if (0 <=? kind) && negb (chan_nr =? last_chan_nr s) then
      let s := s <| last_chan_nr := chan_nr |> <| dcch_seq := u32 (dcch_seq s + 1) |> in
      emit s (ShmDcchCfg (le32 (dcch_seq s) ++
        [u8 kind; u8 ss; Z.land chan_nr 0x07; chan_nr; 0; 0; 0; 0; 0; 0; 0; 0]))
    else s
  else s.

Definition sercomm_frame_complete (s : L1CTLSock) : L1CTLSock :=
  if sock_len s <? 2 then s
  else
    let frame := body_of (sock_buf s) (sock_len s) in
    let dlci := rd frame 0 in
    let payload := drop 2 frame in
    if (dlci =? SERCOMM_DLCI_L1CTL) && (0 <? zlen payload) then
      l1ctl_send_to_mobile (publish_dcch s payload) payload
    else s.

Definition l1ctl_sock_uart_tx_byte (s : L1CTLSock) (byte : Z) : L1CTLSock :=
  match sock_state s with
  | SC_IDLE =>
      if byte =? SERCOMM_FLAG then s <| sock_state := SC_IN_FRAME |> <| sock_len := 0 |> else s
  | SC_IN_FRAME =>
      if byte =? SERCOMM_FLAG then
        let s := if 0 <? sock_len s then sercomm_frame_complete s else s in
        s <| sock_len := 0 |>
      else if byte =? SERCOMM_ESCAPE then s <| sock_state := SC_ESCAPE |>
      else
        let '(b, n) := collect (sock_buf s) (sock_len s) 512 byte in
        s <| sock_buf := b |> <| sock_len := n |>
  | SC_ESCAPE =>
      let '(b, n) := collect (sock_buf s) (sock_len s) 512 (Z.lxor byte SERCOMM_XOR) in
      s <| sock_buf := b |> <| sock_len := n |> <| sock_state := SC_IN_FRAME |>
  end.

End sock.

(** ** Mobile to firmware *)

(** [memcpy(&a[i], src, len)]. *)
Definition blit (a : list Z) (i : Z) (src : list Z) : list Z :=
  take (Z.to_nat i) a ++ src ++ drop (Z.to_nat i + length src) a.

(** The capture of the ciphering key by L1CTL_CRYPTO_REQ. *)
Definition capture_kc (s : L1CTLSock) (msglen : Z) : L1CTLSock :=
  let payload i := rd (lp_buf s) (2 + i) in
  if (payload 0 =? 0x15) && (10 <=? msglen) then
    let algo := payload 8 in
    let klen := if 16 <? payload 9 then 16 else payload 9 in
    if (1 <=? algo) && (algo <=? 3) && (10 + klen <=? msglen) then
      let s := s <| kc_seq := u32 (kc_seq s + 1) |> in
      let kc := take (Z.to_nat klen) (drop 12 (lp_buf s)) in
      emit s (ShmKc (le32 (kc_seq s) ++ [algo; klen] ++ kc ++ replicate (26 - Z.to_nat klen) 0))
    else s
  else s.

(** A new dedicated channel, or its release, clears the key. *)
Definition clear_kc (s : L1CTLSock) : L1CTLSock :=
  if (rd (lp_buf s) 2 =? 0x05) || (rd (lp_buf s) 2 =? 0x12) then emit s (ShmKc (replicate 32 0)) else s.

Definition inject (s : L1CTLSock) (msglen : Z) : L1CTLSock :=
  let payload := take (Z.to_nat msglen) (drop 2 (lp_buf s)) in
  match sercomm_wrap SERCOMM_DLCI_L1CTL payload 1024, sock_uart s with
  | Some frame, Some u => s <| sock_uart := Some (calypso_uart_receive u frame) |>
  | _, _ => s
  end.

Definition msglen_of (s : L1CTLSock) : Z := Z.lor (Z.shiftl (rd (lp_buf s) 0) 8) (rd (lp_buf s) 1).

(** One turn of the loop over the complete messages. *)
Definition handle_message (s : L1CTLSock) : L1CTLSock :=
  let msglen := msglen_of s in
  let s := inject (clear_kc (capture_kc s msglen)) msglen in
  let consumed := 2 + msglen in
  s <| lp_buf := blit (lp_buf s) 0
         (take (Z.to_nat (lp_len s - consumed)) (drop (Z.to_nat consumed) (lp_buf s))) |>
    <| lp_len := lp_len s - consumed |>.

(** [while (s->lp_len >= 2)]; every turn removes at least two bytes. *)
Fixpoint parse_loop (fuel : nat) (s : L1CTLSock) : L1CTLSock :=
  match fuel with
  | O => s
  | S fuel =>
      if 2 <=? lp_len s then
        if lp_len s <? 2 + msglen_of s then s else parse_loop fuel (handle_message s)
      else s
  end.

Inductive recv_result :=
  | RecvAgain
  | RecvError
  | RecvBytes (tmp : list Z).

Definition disconnect (s : L1CTLSock) : L1CTLSock := s <| cli_open := false |> <| lp_len := 0 |>.

Definition l1ctl_client_readable (s : L1CTLSock) (r : recv_result) : L1CTLSock :=
  match r with
  | RecvAgain => s
  | RecvError | RecvBytes [] => disconnect s
  | RecvBytes tmp =>
      let s := if 4096 <? lp_len s + zlen tmp then s <| lp_len := 0 |> else s in
      let s := s <| lp_buf := blit (lp_buf s) (lp_len s) tmp |> <| lp_len := lp_len s + zlen tmp |> in
      parse_loop (S (Z.to_nat (lp_len s))) s
  end.

Definition connect (s : L1CTLSock) : L1CTLSock :=
  s <| cli_open := true |> <| lp_len := 0 |> <| sock_state := SC_IDLE |> <| sock_len := 0 |>.

(** [ok]: [accept] returned a descriptor. *)
Definition l1ctl_accept_cb (s : L1CTLSock) (ok : bool) : L1CTLSock := if ok then connect s else s.

Definition l1ctl_sock_poll (s : L1CTLSock) (accepted : bool) (r : recv_result) : L1CTLSock :=
  let s := if srv_open s && negb (cli_open s) && accepted then connect s else s in
  if cli_open s then l1ctl_client_readable s r else s.

Definition l1ctl_client_active (s : L1CTLSock) : bool := cli_open s.

(** The state after [l1ctl_sock_init] when the socket could be set up. *)
Definition l1ctl_sock_init (u : option CalypsoUARTState) : L1CTLSock :=
  mkSock true false SC_IDLE (replicate 512 0) 0 (replicate 4096 0) 0 u 0xFF 0 0 [].

(** ** The encoder *)
Lemma put_spec size out c :
  put size (Some out) c =
    (if zlen (out ++ stuff_byte c) <=? size then Some (out ++ stuff_byte c) else None).
Proof.
  unfold put, stuff_byte, zlen. rewrite length_app, Z.leb_antisym, Nat2Z.inj_add.
  destruct (_ || _); cbn [length]; rewrite ?Z.ltb_antisym; by destruct (_ <? _) || destruct (_ <=? _).
Qed.

Lemma put_none size l : foldl (put size) None l = None.
Proof. by induction l. Qed.

Lemma puts_spec size l out :
  zlen out ≤ size →
  foldl (put size) (Some out) l =
    (if zlen (out ++ stuff l) <=? size then Some (out ++ stuff l) else None).
Proof.
  revert out. induction l as [|c l IH]; intros out Ho; cbn [foldl].
  { rewrite app_nil_r. by destruct (Z.leb_spec (zlen out) size); [|lia]. }
  rewrite put_spec, stuff_cons, app_assoc.
  destruct (Z.leb_spec (zlen (out ++ stuff_byte c)) size); [by apply IH|].
  rewrite put_none. unfold zlen in *. rewrite length_app.
  destruct (Z.leb_spec (Z.of_nat (length (out ++ stuff_byte c) + length (stuff l))) size); [lia|done].
Qed.

(** The encoder produces the reference frame exactly when it fits. *)
Lemma sercomm_wrap_spec dlci payload size :
  sercomm_wrap dlci payload size =
    (if zlen (frame_of ([dlci; 0x03] ++ payload)) <=? size
     then Some (frame_of ([dlci; 0x03] ++ payload)) else None).
Proof.
  unfold sercomm_wrap, frame_of. assert (1 ≤ zlen (SERCOMM_FLAG :: stuff ([dlci; 3] ++ payload) ++ [SERCOMM_FLAG])) as H.
  { unfold zlen. cbn. lia. }
  destruct (Z.leb_spec size 0).
  { set (n := zlen _) in *. destruct (Z.leb_spec n size); [lia|done]. }
  cbn zeta. rewrite <- foldl_app, puts_spec by (unfold zlen; cbn; lia).
  set (body := stuff ([dlci; 3] ++ payload)) in *. unfold zlen. cbn [app length]. rewrite length_app. cbn [length].
  destruct (Z.leb_spec (Z.of_nat (S (length body))) size), (Z.leb_spec (Z.of_nat (S (length body + 1))) size);
    try lia; try done.
  - cbn [length app]. destruct (Z.leb_spec size (Z.of_nat (S (length body)))); [lia|done].
  - cbn [length app]. destruct (Z.leb_spec size (Z.of_nat (S (length body)))); [done|lia].
Qed.

(** ** The message parser *)

(** A message on the socket. *)
Definition lp (m : list Z) : list Z := [zlen m / 256; zlen m mod 256] ++ m.

(** What a message acts on, and its effect, from its bytes alone. *)
Definition up (s : L1CTLSock) : option CalypsoUARTState * Z * list event :=
  (sock_uart s, kc_seq s, events s).

Definition on_message (r : option CalypsoUARTState * Z * list event) (m : list Z) :
  option CalypsoUARTState * Z * list event :=
  let '(u, q, e) := r in
  let s := mkSock true true SC_IDLE [] 0 (lp m) (2 + zlen m) u 0 0 q e in
  up (inject (clear_kc (capture_kc s (zlen m))) (zlen m)).

Definition pending (s : L1CTLSock) : list Z := body_of (lp_buf s) (lp_len s).

Definition lp_ok (s : L1CTLSock) : Prop := buf_ok 4096 (lp_buf s) (lp_len s).

Lemma length_lp m : zlen (lp m) = 2 + zlen m.
Proof. unfold lp, zlen. cbn [app length]. lia. Qed.

Lemma pending_lookup s m tl i :
  pending s = lp m ++ tl → (i < length (lp m))%nat → lp_buf s !! i = lp m !! i.
Proof.
  intros Hp Hi. assert (pending s !! i = lp m !! i) as <- by (rewrite Hp; by apply lookup_app_l).
  unfold pending, body_of. destruct (decide (i < Z.to_nat (lp_len s))%nat) as [H|H].
  - by rewrite lookup_take_lt.
  - exfalso. assert (length (pending s) ≤ Z.to_nat (lp_len s))%nat by (unfold pending, body_of; rewrite length_take; lia).
    rewrite Hp, length_app in H0. lia.
Qed.

Lemma pending_rd s m tl i :
  pending s = lp m ++ tl → 0 ≤ i < 2 + zlen m → rd (lp_buf s) i = rd (lp m) i.
Proof.
  intros Hp Hi. unfold rd. erewrite pending_lookup; [done|exact Hp|].
  pose proof (length_lp m). unfold zlen in *. lia.
Qed.

(** The part of the buffer that holds the message. *)
Lemma pending_take s m tl (n k : nat) :
  pending s = lp m ++ tl → (k + n ≤ length (lp m))%nat →
  take n (drop k (lp_buf s)) = take n (drop k (lp m)).
Proof.
  intros Hp Hn. apply list_eq. intros i. destruct (decide (i < n)%nat).
  - rewrite !lookup_take_lt, !lookup_drop by done. eapply pending_lookup; [exact Hp|lia].
  - by rewrite !lookup_take_ge by lia.
Qed.

Definition is_message (m : list Z) : Prop := 1 ≤ zlen m ≤ 4094 ∧ Forall (λ b, 0 ≤ b < 256) m.

(** The length is known as soon as two bytes have arrived. *)
Lemma msglen_prefix s m more tl :
  pending s ++ more = lp m ++ tl → 2 ≤ zlen (pending s) → is_message m → msglen_of s = zlen m.
Proof.
  intros Hp Hl [Hm _]. unfold msglen_of.
  assert (∀ i, (i < 2)%nat → lp_buf s !! i = lp m !! i) as H.
  { intros i Hi. assert ((pending s ++ more) !! i = (lp m ++ tl) !! i) as E by (by rewrite Hp).
    unfold zlen in Hl. rewrite !lookup_app_l in E by (cbn; lia). rewrite <- E.
    unfold pending, body_of in *. rewrite length_take in Hl. by rewrite lookup_take_lt by lia. }
  assert (rd (lp_buf s) 0 = zlen m / 256) as -> by (unfold rd; by rewrite H by (cbn; lia)).
  assert (rd (lp_buf s) 1 = zlen m mod 256) as -> by (unfold rd; by rewrite H by (cbn; lia)).
  rewrite lor_shiftl_add by (try lia; apply Z.mod_pos_bound; lia). change (2 ^ 8) with 256. mlia.
Qed.

(** The three handlers read only the bytes of the message. *)
Lemma handlers_on_message s m tl :
  pending s = lp m ++ tl → is_message m →
  let s' := inject (clear_kc (capture_kc s (zlen m))) (zlen m) in
  up s' = on_message (up s) m ∧ lp_buf s' = lp_buf s ∧ lp_len s' = lp_len s.
Proof.
  intros Hp [Hm Hb]. pose proof (length_lp m) as Hl.
  assert (∀ i, 0 ≤ i < zlen m → rd (lp_buf s) (2 + i) = rd (lp m) (2 + i)) as Hrd
    by (intros; eapply pending_rd; [exact Hp|lia]).
  assert (∀ n k, (k + n ≤ 2 + Z.to_nat (zlen m))%nat →
    take n (drop k (lp_buf s)) = take n (drop k (lp m))) as Htk
    by (intros; eapply pending_take; [exact Hp|]; unfold zlen in *; lia).
  cbn zeta. unfold on_message, up. set (s1 := mkSock _ _ _ _ _ _ _ _ _ _ _ _).
  assert (0 ≤ rd (lp m) (2 + 9)) as H9.
  { apply (rd_Forall (λ b, 0 ≤ b)); [done|]. unfold lp. repeat (constructor; [mlia|]).
    eapply Forall_impl; [|exact Hb]. cbn. lia. }
  set (c := capture_kc s (zlen m)). set (c1 := capture_kc s1 (zlen m)).
  assert (sock_uart c = sock_uart c1 ∧ kc_seq c = kc_seq c1 ∧ events c = events c1 ∧ lp_buf c = lp_buf s
    ∧ lp_len c = lp_len s ∧ lp_buf c1 = lp m) as (E1 & E2 & E3 & E4 & E5 & E6).
  { unfold c, c1, capture_kc. cbn [lp_buf s1]. rewrite (Hrd 0) by lia.
    destruct (rd (lp m) (2 + 0) =? 0x15), (Z.leb_spec 10 (zlen m)); try done. cbn [andb].
    rewrite (Hrd 8), (Hrd 9) by lia. set (klen := if 16 <? _ then _ else _).
    case_if; [|done]. bool_prop. assert (0 ≤ klen) by (unfold klen; case_if; lia).
    unfold emit. cbn [events kc_seq sock_uart lp_buf lp_len update_field s1].
    rewrite (Htk (Z.to_nat klen) 12%nat) by lia. done. }
  assert (rd (lp_buf s) 2 = rd (lp m) 2) as H2 by (apply (Hrd 0); lia).
  unfold clear_kc. rewrite E4, E6, H2. unfold inject, emit.
  destruct ((rd (lp m) 2 =? 0x05) || (rd (lp m) 2 =? 0x12));
    cbn [lp_buf update_field sock_uart]; rewrite ?E4, ?E6, ?(Htk (Z.to_nat (zlen m)) 2%nat) by lia;
    rewrite E1; destruct (sercomm_wrap _ _ _), (sock_uart c1) eqn:Eu; cbn;
    by rewrite ?E1, ?E2, ?E3, ?Eu.
Qed.

Lemma blit_body a i src :
  buf_ok 4096 a i → i + zlen src ≤ 4096 →
  buf_ok 4096 (blit a i src) (i + zlen src) ∧ body_of (blit a i src) (i + zlen src) = body_of a i ++ src.
Proof.
  intros [Ha Hi] Hs. unfold buf_ok, blit, body_of, zlen in *. split.
  - rewrite !length_app, length_take, length_drop. lia.
  - rewrite app_assoc, take_app_length'; [done|]. rewrite length_app, length_take. lia.
Qed.

Lemma handle_message_spec s m tl :
  lp_ok s → pending s = lp m ++ tl → is_message m →
  let s' := handle_message s in
  up s' = on_message (up s) m ∧ pending s' = tl ∧ lp_ok s' ∧ lp_len s' = lp_len s - (2 + zlen m).
Proof.
  intros Hok Hp Hm. pose proof Hm as [Hm' _]. pose proof (length_lp m) as Hl.
  pose proof (length_body_of _ _ _ Hok) as Hlen. fold (pending s) in Hlen.
  assert (msglen_of s = zlen m) as Hn.
  { apply (msglen_prefix s m [] tl); [by rewrite app_nil_r| |done].
    rewrite Hp. unfold zlen in *. rewrite length_app. lia. }
  unfold handle_message. rewrite Hn.
  destruct (handlers_on_message s m tl Hp Hm) as (Hu & Hb & Hlp).
  set (s1 := inject _ _) in *. cbn [lp_buf lp_len update_field]. rewrite Hb, Hlp.
  set (src := take _ (drop _ _)).
  assert (src = tl) as ->.
  { unfold src. rewrite take_drop_commute.
    replace (Z.to_nat (2 + zlen m) + Z.to_nat (lp_len s - (2 + zlen m)))%nat with (Z.to_nat (lp_len s)).
    - change (take (Z.to_nat (lp_len s)) (lp_buf s)) with (pending s). rewrite Hp.
      rewrite drop_app_length'; [done|]. unfold zlen in *. lia.
    - rewrite Hp in Hlen. unfold zlen in *. rewrite length_app in Hlen. lia. }
  assert (zlen tl = lp_len s - (2 + zlen m)) as Htl.
  { rewrite Hp in Hlen. unfold zlen in *. rewrite length_app in Hlen. lia. }
  assert (zlen tl ≤ 4096) by (destruct Hok; lia).
  destruct (blit_body (lp_buf s) 0 tl) as [Hok' Hb'].
  { destruct Hok. split; [done|lia]. } { lia. }
  unfold lp_ok, pending. cbn [lp_buf lp_len update_field]. rewrite <- Htl. done.
Qed.

(** The first message that is left is not complete yet. *)
Definition incomplete (left : list (list Z)) (s : L1CTLSock) : Prop :=
  match left with [] => lp_len s = 0 | m :: _ => lp_len s < 2 + zlen m end.

(** The loop delivers the complete messages of the buffer and stops at the
    first incomplete one. *)
Lemma parse_loop_spec M msgs fuel s more :
  Forall (λ m, is_message m ∧ zlen m ≤ M) msgs → 0 ≤ M → lp_ok s → lp_len s < Z.of_nat fuel →
  pending s ++ more = concat (lp <$> msgs) →
  ∃ done left, msgs = done ++ left ∧
    let s' := parse_loop fuel s in
    up s' = foldl on_message (up s) done ∧ pending s' ++ more = concat (lp <$> left) ∧
    lp_ok s' ∧ lp_len s' ≤ M + 1 ∧ incomplete left s'.
Proof.
  intros Hm HM. revert fuel s. induction Hm as [|m msgs [Hm HmM] Hms IH]; intros fuel s Hok Hf Hp.
  { exists [], []. split; [done|]. destruct (pending s) eqn:E; [|done].
    pose proof (length_body_of _ _ _ Hok) as Hl. fold (pending s) in Hl. rewrite E in Hl.
    assert (lp_len s = 0) as Hz by (by rewrite <- Hl).
    destruct fuel as [|fuel]; [lia|]. cbn [parse_loop]. rewrite Hz. cbn. rewrite E. split_and!; done || lia. }
  rewrite fmap_cons in Hp. cbn [concat] in Hp. pose proof (length_lp m) as Hlp.
  pose proof (length_body_of _ _ _ Hok) as Hl. fold (pending s) in Hl.
  destruct fuel as [|fuel]; [destruct Hok; lia|]. cbn [parse_loop].
  destruct (Z.le_gt_cases (2 + zlen m) (lp_len s)) as [Hc|Hc].
  - assert (∃ tl, pending s = lp m ++ tl) as [tl Htl].
    { exists (drop (length (lp m)) (pending s)). rewrite <- (take_drop (length (lp m)) (pending s)) at 1.
      f_equal. assert (take (length (lp m)) (pending s ++ more) = lp m) as E
        by (rewrite Hp; by apply take_app_length).
      rewrite take_app_le in E; [done|]. unfold zlen in *. lia. }
    destruct (handle_message_spec s m tl Hok Htl Hm) as (Hu & Hp' & Hok' & Hlen').
    pose proof Hm as [Hm1 _]. destruct (Z.leb_spec 2 (lp_len s)); [|lia].
    rewrite (msglen_prefix s m more (concat (lp <$> msgs))) by (done || lia).
    destruct (Z.ltb_spec (lp_len s) (2 + zlen m)); [lia|].
    destruct (IH fuel (handle_message s) Hok') as (dn & left & -> & H1 & H2); [lia| |].
    { rewrite Hp'. rewrite Htl, <- app_assoc in Hp. by apply app_inv_head in Hp. }
    exists (m :: dn), left. split; [done|]. cbn [foldl]. rewrite <- Hu. done.
  - exists [], (m :: msgs). split; [done|].
    assert ((if 2 <=? lp_len s then if lp_len s <? 2 + msglen_of s then s else parse_loop fuel (handle_message s)
      else s) = s) as ->.
    { destruct (Z.leb_spec 2 (lp_len s)); [|done].
      rewrite (msglen_prefix s m more (concat (lp <$> msgs))) by (done || lia).
      destruct (Z.ltb_spec (lp_len s) (2 + zlen m)); [done|lia]. }
    split_and!; try done. lia.
Qed.

Lemma readable_spec M msgs s chunk more :
  Forall (λ m, is_message m ∧ zlen m ≤ M) msgs → 0 ≤ M ≤ 4094 → lp_ok s → lp_len s ≤ M + 1 →
  1 ≤ zlen chunk ≤ 4095 - M → pending s ++ chunk ++ more = concat (lp <$> msgs) →
  ∃ done left, msgs = done ++ left ∧
    let s' := l1ctl_client_readable s (RecvBytes chunk) in
    up s' = foldl on_message (up s) done ∧ pending s' ++ more = concat (lp <$> left) ∧
    lp_ok s' ∧ lp_len s' ≤ M + 1 ∧ incomplete left s'.
Proof.
  intros Hm HM Hok Hl Hc Hp. cbn zeta. unfold l1ctl_client_readable.
  destruct chunk as [|c0 chunk]; [unfold zlen in Hc; cbn in Hc; lia|].
  destruct (Z.ltb_spec 4096 (lp_len s + zlen (c0 :: chunk))); [lia|].
  cbn [lp_buf lp_len update_field]. set (s1 := s <| lp_buf := _ |> <| lp_len := _ |>).
  destruct (blit_body (lp_buf s) (lp_len s) (c0 :: chunk) Hok) as [Hok1 Hb1]; [lia|].
  change (up s) with (up s1). apply parse_loop_spec; try done; try lia.
  - change (lp_len s1) with (lp_len s + zlen (c0 :: chunk)). destruct Hok1. lia.
  - rewrite <- Hp, app_assoc. f_equal. exact Hb1.
Qed.

Definition receive_all (s : L1CTLSock) (chunks : list (list Z)) : L1CTLSock :=
  foldl (λ s chunk, l1ctl_client_readable s (RecvBytes chunk)) s chunks.

Lemma receive_all_spec M chunks msgs s :
  Forall (λ m, is_message m ∧ zlen m ≤ M) msgs → 0 ≤ M ≤ 4094 → lp_ok s → lp_len s ≤ M + 1 →
  Forall (λ c, 1 ≤ zlen c ≤ 4095 - M) chunks → incomplete msgs s → pending s ++ concat chunks = concat (lp <$> msgs) →
  ∃ done left, msgs = done ++ left ∧
    up (receive_all s chunks) = foldl on_message (up s) done ∧
    pending (receive_all s chunks) = concat (lp <$> left) ∧ lp_ok (receive_all s chunks) ∧
    incomplete left (receive_all s chunks).
Proof.
  intros Hm HM Hok Hl Hc. revert msgs s Hm Hok Hl.
  induction Hc as [|c chunks Hc _ IH]; intros msgs s Hm Hok Hl Hinc Hp; cbn [concat] in Hp.
  { exists [], msgs. rewrite app_nil_r in Hp. done. }
  destruct (readable_spec M msgs s c (concat chunks) Hm HM Hok Hl Hc Hp) as (d1 & left & -> & Hu & Hp1 & Hok1 & Hl1 & Hinc1).
  apply Forall_app in Hm as [_ Hm].
  destruct (IH left _ Hm Hok1 Hl1 Hinc1 Hp1) as (d2 & left2 & -> & Hu2 & Hp2 & Hok2).
  exists (d1 ++ d2), left2. rewrite foldl_app, <- Hu. split; [by rewrite app_assoc|]. done.
Qed.

(** What a message does to the UART: its sercomm frame is received, unless it
    does not fit the 1024-byte frame buffer. *)
Definition inject_uart (u : CalypsoUARTState) (m : list Z) : CalypsoUARTState :=
  let frame := frame_of ([SERCOMM_DLCI_L1CTL; 0x03] ++ m) in
  if zlen frame <=? 1024 then calypso_uart_receive u frame else u.

Lemma on_message_uart u q e m :
  ∃ q' e', on_message (Some u, q, e) m = (Some (inject_uart u m), q', e').
Proof.
  unfold on_message, inject_uart. set (s := mkSock _ _ _ _ _ _ _ _ _ _ _ _).
  assert (∀ s', lp_buf s' = lp m → sock_uart s' = Some u →
    sock_uart (inject s' (zlen m)) = Some (if zlen (frame_of ([SERCOMM_DLCI_L1CTL; 0x03] ++ m)) <=? 1024
      then calypso_uart_receive u (frame_of ([SERCOMM_DLCI_L1CTL; 0x03] ++ m)) else u)) as Hi.
  { intros s' Hb Hu. unfold inject. rewrite Hb, Hu.
    assert (take (Z.to_nat (zlen m)) (drop 2 (lp m)) = m) as ->.
    { unfold lp. cbn [drop app]. apply take_ge. unfold zlen. lia. }
    rewrite sercomm_wrap_spec. by destruct (_ <=? 1024). }
  unfold up. rewrite Hi; [by eexists _, _| |];
    unfold clear_kc, capture_kc, emit; repeat case_if; done.
Qed.

(** C29: messages on the socket are delivered independently of how the stream
    is cut into reads: for messages of 1 to [M] bytes read in chunks of at most
    [4095 - M] bytes, after the last chunk every message has been handled
    exactly once and in order, the buffer is empty, and the UART has received
    the sercomm frame of each message that fits the 1024-byte frame buffer. *)
Theorem l1ctl_sock_chunk_independent M msgs chunks s u :
  0 ≤ M ≤ 4094 → Forall (λ m, is_message m ∧ zlen m ≤ M) msgs →
  Forall (λ c, 1 ≤ zlen c ≤ 4095 - M) chunks → concat chunks = concat (lp <$> msgs) →
  lp_ok s → lp_len s = 0 → sock_uart s = Some u →
  let s' := receive_all s chunks in
  up s' = foldl on_message (up s) msgs ∧ lp_len s' = 0 ∧
  sock_uart s' = Some (foldl inject_uart u msgs).
Proof.
  intros HM Hm Hc Hp Hok Hz Hu. cbn zeta.
  assert (incomplete msgs s) as Hinc by (destruct msgs; cbn; unfold zlen; lia).
  destruct (receive_all_spec M chunks msgs s) as (dn & left & E & Hup & Hpend & Hok' & Hinc'); try done; try lia.
  { unfold pending. by rewrite Hz. }
  assert (left = []) as ->.
  { destruct left as [|m left]; [done|exfalso]. cbn in Hinc'.
    pose proof (length_body_of _ _ _ Hok') as Hlen. fold (pending (receive_all s chunks)) in Hlen.
    rewrite Hpend, fmap_cons in Hlen. cbn [concat] in Hlen. pose proof (length_lp m).
    unfold zlen in *. rewrite length_app in Hlen. lia. }
  rewrite app_nil_r in E. subst dn. cbn in Hinc'. split; [done|]. split; [done|].
  apply (f_equal (λ r, fst (fst r))) in Hup. cbn [up fst] in Hup. rewrite Hup. unfold up. rewrite Hu.
  clear. generalize (kc_seq s) (events s). revert u. induction msgs as [|m msgs IH]; intros u q e; [done|].
  cbn [foldl]. destruct (on_message_uart u q e m) as (q' & e' & ->). apply IH.
Qed.

Lemma l1ctl_sock_chunk_independent_witness :
  sock_uart (receive_all (l1ctl_sock_init (Some (uart_init None))) [[0]; [2; 7; 0x7E; 0]; [1; 9]]) =
  Some (foldl inject_uart (uart_init None) [[7; 0x7E]; [9]]).
Proof.
  refine (proj2 (proj2 (l1ctl_sock_chunk_independent 4 [[7; 0x7E]; [9]] [[0]; [2; 7; 0x7E; 0]; [1; 9]]
    (l1ctl_sock_init (Some (uart_init None))) (uart_init None) _ _ _ _ _ _ _))); try done.
  - repeat constructor; by vm_compute.
  - repeat constructor; by vm_compute.
Defined.

(** ** The frame decoder *)
Section down.
  Context (send_ok : list Z → bool).

(** What a frame acts on: the state without the automaton. *)
Definition down (s : L1CTLSock) : L1CTLSock :=
  s <| sock_state := SC_IDLE |> <| sock_buf := [] |> <| sock_len := 0 |>.

(** The effect of a frame, from its bytes alone. *)
Definition on_frame (r : L1CTLSock) (body : list Z) : L1CTLSock :=
  down (sercomm_frame_complete send_ok
    (r <| sock_state := SC_IN_FRAME |> <| sock_buf := body |> <| sock_len := zlen body |>)).

Lemma sock_frame_frame s :
  let s' := sercomm_frame_complete send_ok s in
  sock_state s' = sock_state s ∧ sock_buf s' = sock_buf s ∧ sock_len s' = sock_len s.
Proof.
  cbn zeta. unfold sercomm_frame_complete, l1ctl_send_to_mobile, publish_dcch, emit.
  destruct (chan_kind _) as [kind ss]. repeat case_if; done.
Qed.

Lemma publish_down s s' payload :
  down s = down s' → down (publish_dcch s payload) = down (publish_dcch s' payload).
Proof.
  destruct s, s'. intros [= <- <- <- <- <- <- <- <- <-]. unfold publish_dcch, emit.
  destruct (chan_kind _) as [kind ss]. cbn. by repeat case_if.
Qed.

Lemma send_down s s' payload :
  down s = down s' →
  down (l1ctl_send_to_mobile send_ok s payload) = down (l1ctl_send_to_mobile send_ok s' payload).
Proof.
  destruct s, s'. intros [= <- <- <- <- <- <- <- <- <-]. unfold l1ctl_send_to_mobile, emit.
  cbn. by repeat case_if.
Qed.

Lemma sock_frame_effect s :
  buf_ok 512 (sock_buf s) (sock_len s) →
  down (sercomm_frame_complete send_ok s) = on_frame (down s) (body_of (sock_buf s) (sock_len s)).
Proof.
  intros Hok. unfold on_frame. unfold sercomm_frame_complete at 2.
  cbn [sock_buf sock_len update_field down]. pose proof (length_body_of _ _ _ Hok) as Hl.
  rewrite Hl. assert (body_of (body_of (sock_buf s) (sock_len s)) (sock_len s) = body_of (sock_buf s) (sock_len s)) as ->.
  { unfold body_of. rewrite take_take. f_equal. lia. }
  unfold sercomm_frame_complete. case_if; [done|].
  case_if; [|done]. apply send_down, publish_down. done.
Qed.

#[export] Instance sock_deframer : Deframer L1CTLSock L1CTLSock := {|
  df_state := sock_state;
  df_body s := body_of (sock_buf s) (sock_len s);
  df_rest := down;
  df_byte := l1ctl_sock_uart_tx_byte send_ok;
  df_on_frame := on_frame;
  df_cap := 512;
  df_ok s := buf_ok 512 (sock_buf s) (sock_len s)
|}.

#[export] Instance sock_laws : DeframerLaws L1CTLSock L1CTLSock.
Proof. solve_deframer_laws l1ctl_sock_uart_tx_byte sock_buf sock_len sock_frame_frame sock_frame_effect. Qed.

End down.

(** The messages sent to the mobile. *)
Definition sent (e : list event) : list (list Z) :=
  omap (λ x, match x with SendMobile m => Some m | _ => None end) e.

Lemma on_frame_sent send_ok r ctrl m :
  (∀ x, send_ok x = true) → cli_open r = true → 1 ≤ zlen m ≤ 510 →
  let r' := on_frame send_ok r ([SERCOMM_DLCI_L1CTL; ctrl] ++ m) in
  cli_open r' = true ∧ sent (events r') = sent (events r) ++ [lp m].
Proof.
  intros Hs Hc Hm. cbn zeta. unfold on_frame, sercomm_frame_complete.
  set (body := [SERCOMM_DLCI_L1CTL; ctrl] ++ m). cbn [sock_buf sock_len update_field].
  assert (zlen body = 2 + zlen m) as Hb by (unfold body, zlen; cbn; lia).
  assert (body_of body (zlen body) = body) as -> by (unfold body_of, zlen; rewrite Nat2Z.id; by apply take_ge).
  rewrite Hb. destruct (Z.ltb_spec (2 + zlen m) 2); [lia|].
  change (rd body 0) with SERCOMM_DLCI_L1CTL. change (drop 2 body) with m.
  destruct (Z.ltb_spec 0 (zlen m)); [|lia]. cbn [Z.eqb SERCOMM_DLCI_L1CTL Pos.eqb andb].
  set (r1 := publish_dcch _ m).
  assert (cli_open r1 = true ∧ sent (events r1) = sent (events r)) as [Hc1 Hs1].
  { unfold r1, publish_dcch, emit. destruct (chan_kind _) as [kind ss].
    repeat case_if; cbn; unfold sent; rewrite ?omap_app; cbn; rewrite ?app_nil_r; done. }
  unfold l1ctl_send_to_mobile. rewrite Hc1, Hs. cbn [negb orb].
  destruct (Z.leb_spec (zlen m) 0); [lia|]. destruct (Z.ltb_spec 65535 (zlen m)); [lia|]. cbn [orb].
  unfold emit. cbn [down cli_open events update_field]. split; [done|].
  unfold sent at 1. rewrite omap_app. fold (sent (events r1)). rewrite Hs1. cbn [omap list_omap]. f_equal.
  change (zlen m) with (zlen m). unfold lp. rewrite Z.shiftr_div_pow2 by lia. change (2 ^ 8) with 256.
  rewrite u8_small by mlia. change 0xFF with (Z.ones 8). rewrite Z.land_ones by lia. done.
Qed.

(** The frames the firmware sends on DLCI 5 reach a connected mobile as
    length-prefixed messages, one per frame, in order and unmodified, however
    their bytes were stuffed. *)
Theorem l1ctl_sock_forwards send_ok s frames :
  (∀ x, send_ok x = true) → buf_ok 512 (sock_buf s) (sock_len s) →
  sock_state s = SC_IDLE → cli_open s = true →
  Forall (λ '(ctrl, m), 1 ≤ zlen m ≤ 510) frames →
  sent (events (run (l1ctl_sock_uart_tx_byte send_ok) s
    (concat ((λ '(ctrl, m), frame_of ([SERCOMM_DLCI_L1CTL; ctrl] ++ m)) <$> frames)))) =
  sent (events s) ++ ((λ '(_, m), lp m) <$> frames).
Proof.
  intros Hs Hok Hst Hc Hf.
  set (bodies := (λ '(ctrl, m), [SERCOMM_DLCI_L1CTL; ctrl] ++ m) <$> frames).
  assert ((λ '(ctrl, m), frame_of ([SERCOMM_DLCI_L1CTL; ctrl] ++ m)) <$> frames = frame_of <$> bodies) as ->.
  { unfold bodies. rewrite <- list_fmap_compose. apply list_fmap_ext. by intros i [? ?]. }
  assert (Forall (λ body, length body ≤ 512)%nat bodies) as Hb.
  { unfold bodies. apply Forall_fmap. eapply Forall_impl; [|exact Hf].
    intros [? m] Hm. unfold zlen in Hm. cbn. lia. }
  pose proof (df_stream_rest (H := sock_deframer send_ok) bodies s (down s)) as Hd.
  assert (down (run (l1ctl_sock_uart_tx_byte send_ok) s (concat (frame_of <$> bodies))) =
    foldl (on_frame send_ok) (down s) bodies) as Hrun by (apply Hd; [left; by eexists|exact Hb]).
  change (events (run ?f s ?l)) with (events (down (run f s l))). rewrite Hrun.
  change (events s) with (events (down s)).
  assert (cli_open (down s) = true) as Hc' by done. revert Hc'. generalize (down s). unfold bodies.
  clear - Hs Hf. induction Hf as [|[ctrl m] frames Hm _ IH]; intros r Hc; [cbn; by rewrite app_nil_r|].
  rewrite !fmap_cons. cbn [foldl]. destruct (on_frame_sent send_ok r ctrl m Hs Hc Hm) as [Hc1 Hs1].
  rewrite IH, Hs1 by exact Hc1. by rewrite <- app_assoc.
Qed.

Lemma l1ctl_sock_forwards_witness :
  sent (events (run (l1ctl_sock_uart_tx_byte (λ _, true)) (connect (l1ctl_sock_init None))
    (concat ((λ '(ctrl, m), frame_of ([SERCOMM_DLCI_L1CTL; ctrl] ++ m)) <$> [(3, [7; 0x7D]); (3, [9])])))) =
  [[0; 2; 7; 0x7D]; [0; 1; 9]].
Proof.
  refine (l1ctl_sock_forwards (λ _, true) (connect (l1ctl_sock_init None)) [(3, [7; 0x7D]); (3, [9])] _ _ _ _ _);
    try done.
  repeat constructor; by vm_compute.
Defined.

End L1CTL_SOCK.
