(* ===== verification/Rf.v ===== *)
(** * The radio control chain: TPU, TSP and TRF6151

    [calypso_tpu.c] interprets the time-processing-unit program of a frame,
    [calypso_tsp.c] assembles the serial words its MOVE instructions build, and
    [calypso_trf6151.c] keeps the synthesizer registers those words program and
    derives the tuned ARFCN and the receive gain from them.  Every programming
    of the synthesizer is published in a 64-entry ring in shared memory; whether
    that file can be mapped is the parameter [shm_ok]. *)
From S2P Require Import Prelude.

(** ** The synthesizer ([calypso_trf6151.c]) *)
Module TRF6151.

Definition SYSTEM_INHERENT_GAIN : Z := 71.
Definition TRF6151_FE_GAIN_LOW : Z := 7.
Definition TRF6151_FE_GAIN_HIGH : Z := 27.
Definition TRF6151_VGA_GAIN_MIN : Z := 14.
Definition RX_VGA_GAIN_SHIFT : Z := 11.
Definition TRF6151_BAND_1800 : Z := 2.
Definition TRF6151_REG_RX_RESET : Z := 0x9E00.
Definition TRF6151_TSP_DEV : Z := 1.

Record Trf := mkTrf {
  g_reg_rx : Z;
  g_reg_pll : Z;
  g_reg_pwr : Z
}.

#[export] Instance trf_eta : Settable Trf := λ t, mkTrf (g_reg_rx t) (g_reg_pll t) (g_reg_pwr t).

Definition trf_init : Trf := mkTrf TRF6151_REG_RX_RESET 0 0.

Definition trf6151_gain_from_reg (reg_rx : Z) : Z :=
  let fe := Z.land (Z.shiftr reg_rx 9) 3 in
  let gain := if fe =? 0 then TRF6151_FE_GAIN_LOW
              else if fe =? 3 then TRF6151_FE_GAIN_HIGH else 0 in
  let vga := Z.land (Z.shiftr reg_rx RX_VGA_GAIN_SHIFT) 0x1f in
  let vga := if vga <? 6 then 6 else vga in
  gain + (TRF6151_VGA_GAIN_MIN + (vga - 6) * 2).

Definition calypso_trf6151_tsp_write (t : Trf) (dev_idx word : Z) : Trf :=
  if negb (dev_idx =? TRF6151_TSP_DEV) && negb (dev_idx =? 2) then t
  else
    match Z.land word 0x7 with
    | 0 => t <| g_reg_rx := u16 word |>
    | 1 => t <| g_reg_pll := u16 word |>
    | 2 => t <| g_reg_pwr := u16 word |>
    | _ => t
    end.

(** The programmed frequency in units of 100 kHz. *)
Definition freq10_of (t : Trf) : Z :=
  let a := Z.land (Z.shiftr (g_reg_pll t) 3) 0x3f in
  let b := Z.land (Z.shiftr (g_reg_pll t) 9) 0x7f + 64 in
  let n := b * 64 + a in
  let high_band := Z.land (Z.shiftr (g_reg_pwr t) 6) 3 =? TRF6151_BAND_1800 in
  if high_band then n * 2 else n.

Definition calypso_trf6151_arfcn (t : Trf) : Z :=
  let freq10 := freq10_of t in
  if g_reg_pll t =? 0 then -1
  else if (9350 <=? freq10) && (freq10 <=? 9598) then (freq10 - 9350) / 2
  else if (9252 <=? freq10) && (freq10 <? 9350) then 1024 - (9350 - freq10) / 2
  else if (18052 <=? freq10) && (freq10 <=? 18798) then 512 + (freq10 - 18052) / 2
  else if (19302 <=? freq10) && (freq10 <=? 19898) then 512 + (freq10 - 19302) / 2
  else -1.

Definition calypso_trf6151_rf_flags (t : Trf) : Z :=
  let freq10 := freq10_of t in
  let f := if has (g_reg_pwr t) (Z.shiftl 1 11) then Z.shiftl 1 15 else 0 in
  let f := if has (g_reg_pwr t) (Z.shiftl 1 13) then Z.lor f (Z.shiftl 1 14) else f in
  if g_reg_pll t =? 0 then f
  else
    let ul :=
      if (8902 <=? freq10) && (freq10 <=? 9148) then (freq10 - 8900) / 2
      else if (8802 <=? freq10) && (freq10 <? 8900) then 1024 - (8900 - freq10) / 2
      else if (17102 <=? freq10) && (freq10 <=? 17848) then 512 + (freq10 - 17102) / 2
      else -1 in
    if 0 <=? ul then Z.lor f (Z.lor (Z.shiftl 1 13) (Z.land ul 0x7ff)) else f.

Definition calypso_trf6151_total_gain_db (t : Trf) : Z :=
  SYSTEM_INHERENT_GAIN + trf6151_gain_from_reg (g_reg_rx t).

Definition calypso_trf6151_apm_for_rf (t : Trf) (target_rf_dbm : Z) : Z :=
  let bb_dbm := target_rf_dbm + calypso_trf6151_total_gain_db t in
  let bb_dbm := if bb_dbm <? 0 then 0 else bb_dbm in
  let apm := bb_dbm * 64 in
  let apm := if apm <? 64 then 64 else apm in
  let apm := if 0xFFFF <? apm then 0xFFFF else apm in
  u16 apm.

(** *** Properties *)
Lemma total_gain_range t : 85 ≤ calypso_trf6151_total_gain_db t ≤ 162.
Proof.
  unfold calypso_trf6151_total_gain_db, trf6151_gain_from_reg.
  pose proof (land_range (Z.shiftr (g_reg_rx t) RX_VGA_GAIN_SHIFT) 0x1f ltac:(lia)) as H.
  unfold SYSTEM_INHERENT_GAIN, TRF6151_FE_GAIN_LOW, TRF6151_FE_GAIN_HIGH, TRF6151_VGA_GAIN_MIN.
  case_ifs; lia.
Qed.

(** The power measure given to the DSP is never null (the layer 1 takes a
    run of null measures for a dead DSP), fits 16 bits, grows with the level at
    the antenna, and is 64 units per dB of baseband level in between. *)
Theorem trf6151_apm_range t rf :
  64 ≤ calypso_trf6151_apm_for_rf t rf ≤ 0xFFFF ∧
  (∀ rf', rf ≤ rf' → calypso_trf6151_apm_for_rf t rf ≤ calypso_trf6151_apm_for_rf t rf') ∧
  (1 ≤ rf + calypso_trf6151_total_gain_db t ≤ 1023 →
   calypso_trf6151_apm_for_rf t rf = 64 * (rf + calypso_trf6151_total_gain_db t)).
Proof.
  pose proof (total_gain_range t). unfold calypso_trf6151_apm_for_rf.
  set (g := calypso_trf6151_total_gain_db t) in *.
  assert (∀ r, u16 (if 0xFFFF <? (if (if r + g <? 0 then 0 else r + g) * 64 <? 64 then 64
      else (if r + g <? 0 then 0 else r + g) * 64) then 0xFFFF
      else (if (if r + g <? 0 then 0 else r + g) * 64 <? 64 then 64
      else (if r + g <? 0 then 0 else r + g) * 64)) = Z.min 0xFFFF (Z.max 64 ((r + g) * 64))) as E.
  { intros r. destruct (Z.ltb_spec (r + g) 0).
    - change (0 * 64 <? 64) with true. cbn iota. change (0xFFFF <? 64) with false. cbn iota.
      rewrite u16_small; lia.
    - destruct (Z.ltb_spec ((r + g) * 64) 64).
      + change (0xFFFF <? 64) with false. cbn iota. rewrite u16_small; lia.
      + destruct (Z.ltb_spec 0xFFFF ((r + g) * 64)); rewrite u16_small; lia. }
  cbn zeta. rewrite E. split; [lia|]. split; [intros rf'; rewrite E|]; lia.
Qed.

(** The PLL word that tunes to [n] steps of 100 kHz (200 kHz in the high band),
    and the PWR words of the two bands. *)
Definition pll_word (n : Z) : Z := Z.lor (Z.lor (Z.shiftl (n / 64 - 64) 9) (Z.shiftl (n mod 64) 3)) 1.
Definition pwr_word (high : bool) : Z := if high then Z.lor (Z.shiftl TRF6151_BAND_1800 6) 2 else 2.

(** Band and divider of the downlink carrier of an ARFCN (45.005 section 2),
    for the GSM 900 / E-GSM / DCS 1800 numbering. *)
Definition carrier (arfcn : Z) : option (bool * Z) :=
  if (0 <=? arfcn) && (arfcn <=? 124) then Some (false, 9350 + 2 * arfcn)
  else if (975 <=? arfcn) && (arfcn <=? 1023) then Some (false, 9350 - 2 * (1024 - arfcn))
  else if (512 <=? arfcn) && (arfcn <=? 885) then Some (true, (18052 + 2 * (arfcn - 512)) / 2)
  else None.

(** The synthesizer after the words that tune to the carrier. *)
Definition tune (t : Trf) (dev : Z) (high : bool) (n : Z) : Trf :=
  calypso_trf6151_tsp_write (calypso_trf6151_tsp_write t dev (pwr_word high)) dev (pll_word n).

Definition tuned_ok (arfcn : Z) : bool :=
  match carrier arfcn with
  | Some (high, n) => calypso_trf6151_arfcn (tune trf_init 1 high n) =? arfcn
  | None => true
  end.

Lemma tune_regs t dev high n :
  dev = 1 ∨ dev = 2 → Z.land (pll_word n) 7 = 1 →
  tune t dev high n = mkTrf (g_reg_rx t) (u16 (pll_word n)) (u16 (pwr_word high)).
Proof.
  intros Hd Hp. unfold tune, calypso_trf6151_tsp_write. rewrite Hp.
  destruct Hd as [-> | ->], high; reflexivity.
Qed.

Lemma pll_word_reg n : 0 ≤ n / 64 - 64 → Z.land (pll_word n) 7 = 1.
Proof.
  intros Hn. unfold pll_word. apply Z.bits_inj'. intros i Hi.
  rewrite Z.land_spec, !Z.lor_spec. change 7 with (Z.ones 3). rewrite Z.testbit_ones by lia.
  destruct (Z.ltb_spec i 3).
  - rewrite !Z.shiftl_spec_low by lia. destruct (Z.leb_spec 0 i); [|lia]. cbn. by rewrite andb_true_r.
  - rewrite !andb_false_r. symmetry. apply (testbit_high 3); lia.
Qed.

Lemma tune_arfcn t dev arfcn high n :
  (dev = 1 ∨ dev = 2) → carrier arfcn = Some (high, n) →
  calypso_trf6151_arfcn (tune t dev high n) = arfcn.
Proof.
  intros Hd Hc.
  assert (0 ≤ arfcn < 1024 ∧ 0 ≤ n / 64 - 64) as [Ha Hn].
  { unfold carrier in Hc. repeat case_match; simplify_eq; bool_prop; mlia. }
  assert (tuned_ok arfcn = true) as Ht by (apply (range_check _ 1024); [lia|by vm_compute]).
  unfold tuned_ok in Ht. rewrite Hc in Ht. apply Z.eqb_eq in Ht. rewrite <- Ht.
  rewrite !tune_regs by (auto using pll_word_reg). done.
Qed.

(** Tuning is decoded back exactly: for every ARFCN of the GSM 900, E-GSM
    and DCS 1800 numbering, whatever the registers held, the PWR and PLL words
    of its downlink carrier, on either serial device the firmware uses, make
    [calypso_trf6151_arfcn] return that ARFCN. *)
Theorem trf6151_arfcn_roundtrip t dev arfcn high n :
  (dev = 1 ∨ dev = 2) → carrier arfcn = Some (high, n) →
  calypso_trf6151_arfcn (tune t dev high n) = arfcn.
Proof. apply tune_arfcn. Qed.

Lemma trf6151_arfcn_roundtrip_witness :
  calypso_trf6151_arfcn (tune trf_init 2 true (18052 / 2 + 188)) = 700.
Proof. refine (trf6151_arfcn_roundtrip trf_init 2 700 true _ _ _); [by right|by vm_compute]. Defined.

(** Band and divider of the uplink carrier of an ARFCN. *)
Definition carrier_ul (arfcn : Z) : option (bool * Z) :=
  if (0 <=? arfcn) && (arfcn <=? 124) then Some (false, 8900 + 2 * arfcn)
  else if (975 <=? arfcn) && (arfcn <=? 1023) then Some (false, 8900 - 2 * (1024 - arfcn))
  else if (512 <=? arfcn) && (arfcn <=? 885) then Some (true, (17102 + 2 * (arfcn - 512)) / 2)
  else None.

Definition uplink_ok (arfcn : Z) : bool :=
  match carrier_ul arfcn with
  | Some (high, n) =>
      (arfcn =? 0) || (calypso_trf6151_rf_flags (tune trf_init 1 high n) =? Z.lor 0x2000 arfcn)
  | None => true
  end.

(** A receiver tuned to an uplink carrier is reported as such, with its
    ARFCN in the low bits, for every ARFCN of the GSM 900, E-GSM and DCS 1800
    numbering but 0: 890.0 MHz falls between the two ranges that are tested and
    is reported as no uplink frequency, while its downlink is decoded. *)
Theorem trf6151_uplink_flags t dev :
  (dev = 1 ∨ dev = 2) →
  (∀ arfcn high n, carrier_ul arfcn = Some (high, n) → arfcn ≠ 0 →
    calypso_trf6151_rf_flags (tune t dev high n) = Z.lor 0x2000 arfcn) ∧
  carrier_ul 0 = Some (false, 8900) ∧ calypso_trf6151_rf_flags (tune t dev false 8900) = 0.
Proof.
  intros Hd. split; [|by split; [|rewrite tune_regs by (auto; by vm_compute)]].
  intros arfcn high n Hc Ha0.
  assert (0 ≤ arfcn < 1024 ∧ 0 ≤ n / 64 - 64) as [Ha Hn].
  { unfold carrier_ul in Hc. repeat case_match; simplify_eq; bool_prop; mlia. }
  assert (uplink_ok arfcn = true) as Ht by (apply (range_check _ 1024); [lia|by vm_compute]).
  unfold uplink_ok in Ht. rewrite Hc in Ht. apply Z.eqb_neq in Ha0. rewrite Ha0 in Ht.
  apply Z.eqb_eq in Ht. rewrite <- Ht. rewrite !tune_regs by (auto using pll_word_reg). done.
Qed.

Lemma trf6151_uplink_flags_witness :
  calypso_trf6151_rf_flags (tune trf_init 2 false 9024) = Z.lor 0x2000 62.
Proof.
  refine (proj1 (trf6151_uplink_flags trf_init 2 _) 62 false 9024 _ _); [by right|by vm_compute|done].
Defined.

End TRF6151.

(** ** The serial port ([calypso_tsp.c]) *)
Module TSP.
Import TRF6151.

Definition TPUI_TSP_CTRL1 : Z := 0x00.
Definition TPUI_TSP_CTRL2 : Z := 0x01.
Definition TPUI_TX_3 : Z := 0x02.
Definition TPUI_TX_2 : Z := 0x03.
Definition TPUI_TX_1 : Z := 0x04.
Definition TPUI_TX_4 : Z := 0x05.
Definition TPUI_CTRL2_WR : Z := 0x02.
Definition CALYPSO_RF_ARFCN_N : Z := 64.

(** An entry of the shared ring ([CalypsoRfProg]); the 16-bit fields are signed
    in C and kept here as the values stored into them. *)
Record CalypsoRfProg := mkProg {
  e_fn : Z;
  e_qbit : Z;
  e_arfcn : Z;
  e_gain_db : Z;
  e_reserve : Z
}.

Definition i16 (x : Z) : Z := (x + 32768) mod 65536 - 32768.

Record CalypsoRfArfcnShm := mkShm { widx : Z; ring : list CalypsoRfProg }.

Record Tsp := mkTsp {
  tx : list Z;
  ctrl1 : Z;
  trf : Trf;
  shm : option CalypsoRfArfcnShm;
  essaye : bool
}.

#[export] Instance tsp_eta : Settable Tsp := λ t, mkTsp (tx t) (ctrl1 t) (trf t) (shm t) (essaye t).

Definition tsp_init : Tsp := mkTsp [0; 0; 0; 0] 0 trf_init None false.

Section tsp.
  (** the entries of the file when it can be mapped *)
  Context (shm_ok : option (list CalypsoRfProg)).

Definition rf_arfcn_publier (t : Tsp) (fn qbit : Z) : Tsp :=
  let t := match shm t with
           | None => if essaye t then t
                     else t <| essaye := true |> <| shm := mkShm 0 <$> shm_ok |>
           | Some _ => t
           end in
  match shm t with
  | None => t
  | Some m =>
      let e := mkProg fn (i16 qbit) (i16 (calypso_trf6151_arfcn (trf t)))
                 (i16 (calypso_trf6151_total_gain_db (trf t)))
                 (i16 (calypso_trf6151_rf_flags (trf t))) in
      t <| shm := Some (mkShm (u32 (widx m + 1))
                          (<[Z.to_nat (widx m mod CALYPSO_RF_ARFCN_N) := e]> (ring m))) |>
  end.

Definition calypso_tsp_owns_addr (addr : Z) : bool :=
  existsb (Z.eqb addr) [0x00; 0x01; 0x04; 0x03; 0x02; 0x05; 0x06; 0x07; 0x09; 0x0a; 0x0b].

(** The word shifted out, from the transmit registers and its length. *)
Definition tsp_word (tx : list Z) (bitlen : Z) : Z :=
  if bitlen <=? 8 then rd tx 0
  else if bitlen <=? 16 then Z.lor (Z.shiftl (rd tx 0) 8) (rd tx 1)
  else if bitlen <=? 24 then
    Z.lor (Z.lor (Z.shiftl (rd tx 0) 16) (Z.shiftl (rd tx 1) 8)) (rd tx 2)
  else Z.lor (Z.lor (Z.lor (Z.shiftl (rd tx 0) 24) (Z.shiftl (rd tx 1) 16)) (Z.shiftl (rd tx 2) 8))
         (rd tx 3).

Definition calypso_tsp_move (t : Tsp) (addr data fn qbit : Z) : Tsp :=
  if addr =? TPUI_TX_1 then t <| tx := wr (tx t) 0 data |>
  else if addr =? TPUI_TX_2 then t <| tx := wr (tx t) 1 data |>
  else if addr =? TPUI_TX_3 then t <| tx := wr (tx t) 2 data |>
  else if addr =? TPUI_TX_4 then t <| tx := wr (tx t) 3 data |>
  else if addr =? TPUI_TSP_CTRL1 then t <| ctrl1 := data |>
  else if addr =? TPUI_TSP_CTRL2 then
    if has data TPUI_CTRL2_WR then
      let dev_idx := Z.land (Z.shiftr (ctrl1 t) 5) 0x07 in
      let bitlen := Z.land (ctrl1 t) 0x1F + 1 in
      let dout := tsp_word (tx t) bitlen in
      let t := t <| trf := calypso_trf6151_tsp_write (trf t) dev_idx dout |> in
      let reg := Z.land dout 7 in
      if ((dev_idx =? 1) || (dev_idx =? 2)) && ((reg =? 0) || (reg =? 1) || (reg =? 2))
      then rf_arfcn_publier t fn qbit else t
    else t
  else t.

End tsp.

End TSP.

(** ** The sequencer ([calypso_tpu.c]) *)
Module TPU.
Import TRF6151 TSP.

Definition TPU_OP_AT : Z := 1.
Definition TPU_OP_OFFSET : Z := 2.
Definition TPU_OP_SYNCHRO : Z := 3.
Definition TPU_OP_MOVE : Z := 4.
Definition TPU_OP_WAIT : Z := 5.
Definition QBITS_PER_TDMA : Z := 5000.
Definition CALYPSO_TPU_RAM_SIZE : Z := 0x0800.
Definition TPU_OFFSET : Z := 0x000C.
Definition TPU_SYNCHRO : Z := 0x000E.

Record Seq := mkSeq {
  insns : list Z;
  len : Z;
  cursor : Z;
  qbit : Z;
  wait_frames : Z;
  active : bool;
  tpu_regs : option (list Z);
  tsp : Tsp
}.

#[export] Instance seq_eta : Settable Seq := λ s,
  mkSeq (insns s) (len s) (cursor s) (qbit s) (wait_frames s) (active s) (tpu_regs s) (tsp s).

Section tpu.
  Context (shm_ok : option (list CalypsoRfProg)).

(** What one instruction does: go on, or leave the loop. *)
Inductive outcome :=
  | Continue (s : Seq)
  | Return (s : Seq).

Definition seq_insn (s : Seq) (fn : Z) : outcome :=
  let insn := rd (insns s) (cursor s) in
  if insn =? 0x0000 then
    let next := cursor s + 1 in
    let had_any := 0 <? cursor s in
    if had_any && ((len s <=? next) || (rd (insns s) next =? 0x0000))
    then Return (s <| active := false |>)
    else Continue (s <| cursor := cursor s + 1 |>)
  else
    let opcode := Z.land (Z.shiftr insn 13) 0x7 in
    let payload := Z.land insn 0x1FFF in
    if opcode =? TPU_OP_AT then
      let s := s <| cursor := cursor s + 1 |> in
      if qbit s <? payload then Continue (s <| qbit := payload |>)
      else Return (s <| qbit := payload |> <| wait_frames := 1 |>)
    else if opcode =? TPU_OP_WAIT then
      let s := s <| cursor := cursor s + 1 |> in
      let target := qbit s + payload in
      if target <? QBITS_PER_TDMA then Continue (s <| qbit := target |>)
      else Return (s <| wait_frames := Z.quot target QBITS_PER_TDMA |>
                     <| qbit := Z.rem target QBITS_PER_TDMA |>)
    else if (opcode =? TPU_OP_SYNCHRO) || (opcode =? TPU_OP_OFFSET) then
      let reg := (if opcode =? TPU_OP_SYNCHRO then TPU_SYNCHRO else TPU_OFFSET) / 2 in
      let s := s <| tpu_regs := (λ regs, wr regs reg payload) <$> tpu_regs s |> in
      Continue (s <| cursor := cursor s + 1 |>)
    else if opcode =? TPU_OP_MOVE then
      let addr := Z.land insn 0x1F in
      let data := Z.land (Z.shiftr insn 5) 0xFF in
      let s := if calypso_tsp_owns_addr addr
               then s <| tsp := calypso_tsp_move shm_ok (tsp s) addr data fn (qbit s) |> else s in
      Continue (s <| cursor := cursor s + 1 |>)
    else Continue (s <| cursor := cursor s + 1 |>).

(** [while (seq.active && seq.cursor < seq.len)]. *)
Fixpoint seq_loop (fuel : nat) (s : Seq) (fn : Z) : Seq :=
  match fuel with
  | O => s
  | S fuel =>
      if active s && (cursor s <? len s) then
        match seq_insn s fn with
        | Continue s => seq_loop fuel s fn
        | Return s => s
        end
      else s <| active := false |>
  end.

(** Every instruction advances the cursor: [len - cursor] turns and the exit test. *)
Definition seq_run (s : Seq) (fn : Z) : Seq := seq_loop (S (Z.to_nat (len s - cursor s))) s fn.

Definition calypso_tpu_qbit (s : Seq) : Z := qbit s.

Definition calypso_tpu_run_scenario (s : Seq) (tpu_ram : list Z) (fn : Z) (regs : option (list Z)) : Seq :=
  seq_run (mkSeq tpu_ram (CALYPSO_TPU_RAM_SIZE / 2) 0 0 0 true regs (tsp s)) fn.

Definition calypso_tpu_sequencer_tick (s : Seq) (fn : Z) : Seq :=
  if negb (active s) || (wait_frames s <=? 0) then s
  else
    let s := s <| wait_frames := wait_frames s - 1 |> in
    if 0 <? wait_frames s then s else seq_run s fn.

(** *** A scenario ends *)

Record seq_ok (s : Seq) : Prop := {
  sk_cursor : 0 ≤ cursor s ≤ len s;
  sk_qbit : 0 ≤ qbit s ≤ 8191
}.

(** A paused sequencer: waiting between one and three frames. *)
Definition paused (s : Seq) : Prop := 1 ≤ wait_frames s ≤ 3.

Lemma seq_insn_progress s fn :
  seq_ok s → cursor s < len s →
  match seq_insn s fn with
  | Continue s' => seq_ok s' ∧ cursor s' = cursor s + 1 ∧ len s' = len s
  | Return s' => seq_ok s' ∧ len s' = len s ∧
      (active s' = false ∨ (paused s' ∧ cursor s' = cursor s + 1))
  end.
Proof.
  intros [Hc Hq] Hlt. unfold seq_insn. pose proof (land_range (rd (insns s) (cursor s)) 0x1FFF ltac:(lia)) as Hp.
  set (payload := Z.land (rd (insns s) (cursor s)) 0x1FFF) in *. unfold paused.
  repeat case_if; bool_prop; cbn in *; unfold QBITS_PER_TDMA in *;
    (split; [split; cbn; try lia|]); try (split; [done|]; tauto || lia); try (split; lia).
  all: try (pose proof (Z.rem_bound_pos (qbit s + payload) 5000); lia).
  split; [done|]. right. rewrite Z.quot_div_nonneg by lia. mlia.
Qed.

(** The loop leaves the sequencer stopped, or paused further on. *)
Lemma seq_loop_progress fuel s fn :
  seq_ok s → len s - cursor s < Z.of_nat fuel →
  let s' := seq_loop fuel s fn in
  seq_ok s' ∧ len s' = len s ∧ (active s' = false ∨ (paused s' ∧ cursor s + 1 ≤ cursor s')).
Proof.
  revert s. induction fuel as [|fuel IH]; intros s Hok Hf; cbn zeta.
  { destruct Hok. lia. }
  cbn [seq_loop]. destruct (active s); cbn [andb]; [|destruct Hok; repeat split; cbn; auto; lia].
  destruct (Z.ltb_spec (cursor s) (len s)) as [Hlt|]; [|destruct Hok; repeat split; cbn; auto; lia].
  pose proof (seq_insn_progress s fn Hok Hlt) as H. destruct (seq_insn s fn) as [s1|s1].
  - destruct H as (Hok1 & Hc & Hl). destruct (IH s1 Hok1) as (Hok2 & Hl2 & H2); [lia|].
    split; [done|]. split; [lia|]. destruct H2 as [?|[? ?]]; [by left|right; split; [done|lia]].
  - destruct H as (Hok1 & Hl & [?|[? ?]]); split_and!; auto. right. split; [done|lia].
Qed.

Lemma seq_run_progress s fn :
  seq_ok s →
  let s' := seq_run s fn in
  seq_ok s' ∧ len s' = len s ∧ (active s' = false ∨ (paused s' ∧ cursor s + 1 ≤ cursor s')).
Proof. intros Hok. apply seq_loop_progress; [done|]. destruct Hok. lia. Qed.

(** Frames an active sequencer can still take. *)
Definition frames_left (s : Seq) : Z := 3 * (len s - cursor s) + wait_frames s.

Definition tpu_inv (s : Seq) : Prop := seq_ok s ∧ (active s = true → paused s).

Lemma tick_progress s fn :
  tpu_inv s →
  tpu_inv (calypso_tpu_sequencer_tick s fn) ∧
  (active (calypso_tpu_sequencer_tick s fn) = true →
   active s = true ∧ frames_left (calypso_tpu_sequencer_tick s fn) ≤ frames_left s - 1).
Proof.
  intros [Hok Hp]. unfold calypso_tpu_sequencer_tick. destruct (active s) eqn:Ha; cbn [negb orb].
  2: { split; [split; [done|congruence]|congruence]. }
  specialize (Hp eq_refl). unfold paused in Hp. destruct (Z.leb_spec (wait_frames s) 0); [lia|].
  cbn [wait_frames update_field]. destruct (Z.ltb_spec 0 (wait_frames s - 1)).
  - split; [split; [by destruct Hok|unfold paused; cbn; lia]|]. unfold frames_left. cbn. lia.
  - set (s1 := s <| wait_frames := wait_frames s - 1 |>).
    assert (seq_ok s1) as Hok1 by (by destruct Hok).
    destruct (seq_run_progress s1 fn Hok1) as (Hok2 & Hl & H2).
    split; [split; [done|]; intros; destruct H2 as [|[? ?]]; [congruence|done]|].
    intros Ha2. split; [done|]. destruct H2 as [|[Hp2 Hc]]; [congruence|].
    unfold frames_left, paused in *. change (len s1) with (len s) in Hl. change (cursor s1) with (cursor s) in Hc. lia.
Qed.

Lemma ticks_inactive fns s :
  active s = false → active (foldl calypso_tpu_sequencer_tick s fns) = false.
Proof.
  revert s. induction fns as [|fn fns IH]; intros s Ha; cbn; [done|]. apply IH.
  unfold calypso_tpu_sequencer_tick. by rewrite Ha.
Qed.

Lemma ticks_progress fns s :
  tpu_inv s →
  tpu_inv (foldl calypso_tpu_sequencer_tick s fns) ∧
  (active (foldl calypso_tpu_sequencer_tick s fns) = true →
   frames_left (foldl calypso_tpu_sequencer_tick s fns) ≤ frames_left s - zlen fns).
Proof.
  revert s. induction fns as [|fn fns IH]; intros s Hs; cbn [foldl].
  { split; [done|]. unfold zlen. cbn. lia. }
  destruct (tick_progress s fn Hs) as [H1 H2]. destruct (IH _ H1) as [H3 H4]. split; [done|].
  intros Ha. specialize (H4 Ha). unfold zlen in *. cbn [length].
  destruct (active (calypso_tpu_sequencer_tick s fn)) eqn:E; [destruct (H2 eq_refl); lia|].
  rewrite ticks_inactive in Ha; done.
Qed.

End tpu.

(** C38: a TPU program always ends.  The interpreter terminates on every
    program (each instruction advances the cursor, and it stops or pauses for
    one to three frames), and at most 3072 frames after it was started the
    scenario is over, whatever the 1024 words of TPU memory hold. *)
Theorem tpu_scenario_ends shm_ok s ram fn regs fns :
  let s0 := calypso_tpu_run_scenario shm_ok s ram fn regs in
  (active s0 = true → 1 ≤ wait_frames s0 ≤ 3) ∧
  (3072 ≤ zlen fns → active (foldl (calypso_tpu_sequencer_tick shm_ok) s0 fns) = false).
Proof.
  cbn zeta. unfold calypso_tpu_run_scenario. change (CALYPSO_TPU_RAM_SIZE / 2) with 1024.
  set (s1 := mkSeq ram 1024 0 0 0 true regs (tsp s)).
  assert (seq_ok s1) as Hok by (split; cbn; lia).
  destruct (seq_run_progress shm_ok s1 fn Hok) as (Hok2 & Hl & H).
  set (s0 := seq_run shm_ok s1 fn) in *.
  assert (active s0 = true → paused s0 ∧ frames_left s0 ≤ 3072) as H0.
  { intros Ha. destruct H as [|[Hp Hc]]; [congruence|]. split; [done|]. unfold frames_left, paused in *.
    change (len s1) with 1024 in Hl. change (cursor s1) with 0 in Hc. lia. }
  split; [intros Ha; by apply H0|]. intros Hn.
  destruct (ticks_progress shm_ok fns s0) as [[Hok3 Hp3] H4].
  { split; [done|]. intros Ha. by apply H0. }
  destruct (active (foldl _ s0 fns)) eqn:E; [exfalso|done].
  specialize (H4 eq_refl). specialize (Hp3 eq_refl). destruct Hok3 as [Hc3 _].
  destruct (active s0) eqn:Ea; [|].
  - destruct (H0 eq_refl) as [_ Hf]. unfold frames_left in *. unfold paused in Hp3. lia.
  - rewrite ticks_inactive in E; done.
Qed.

(** *** Programming the synthesizer from a TPU program *)
Section program.
  Context (shm_ok : option (list CalypsoRfProg)).

(** MOVE of a byte to a TSP register, and the four that send a 16-bit word. *)
Definition move_insn (addr data : Z) : Z := TPU_OP_MOVE * 8192 + data * 32 + addr.

Definition word_program (dev word : Z) : list Z :=
  [move_insn TPUI_TSP_CTRL1 (dev * 32 + 15); move_insn TPUI_TX_1 (word / 256);
   move_insn TPUI_TX_2 (word mod 256); move_insn TPUI_TSP_CTRL2 TPUI_CTRL2_WR].

Lemma land_mod x k : 0 ≤ k → Z.land x (2 ^ k - 1) = x mod 2 ^ k.
Proof. intros. rewrite <- Z.land_ones by done. by rewrite Z.ones_equiv. Qed.

Lemma seq_insn_move s fn addr data :
  rd (insns s) (cursor s) = move_insn addr data → 0 ≤ addr < 32 → 0 ≤ data < 256 →
  calypso_tsp_owns_addr addr = true →
  seq_insn shm_ok s fn = Continue (s <| tsp := calypso_tsp_move shm_ok (tsp s) addr data fn (qbit s) |>
                                     <| cursor := cursor s + 1 |>).
Proof.
  intros Hi Ha Hd Ho. unfold seq_insn. rewrite Hi. unfold move_insn, TPU_OP_MOVE.
  set (w := 4 * 8192 + data * 32 + addr).
  assert (Z.land (Z.shiftr w 13) 0x7 = 4) as ->.
  { rewrite Z.shiftr_div_pow2, (land_mod _ 3) by lia. change (2 ^ 13) with 8192. change (2 ^ 3) with 8. mlia. }
  assert (Z.land w 0x1F = addr) as -> by (rewrite (land_mod _ 5) by lia; change (2 ^ 5) with 32; mlia).
  assert (Z.land (Z.shiftr w 5) 0xFF = data) as ->.
  { rewrite Z.shiftr_div_pow2, (land_mod _ 8) by lia. change (2 ^ 5) with 32. change (2 ^ 8) with 256. mlia. }
  destruct (Z.eqb_spec w 0); [unfold w in *; lia|]. rewrite Ho. done.
Qed.

(** The synthesizer words: at most 16 bits, for one of its three registers. *)
Definition is_word (word : Z) : Prop := 0 ≤ word < 65536 ∧ 0 ≤ Z.land word 7 ≤ 2.

(** The serial port after the word: registers of the port and of the
    synthesizer written, and the new tuning published. *)
Definition after_word (t : Tsp) (dev word fn qbit : Z) : Tsp :=
  rf_arfcn_publier shm_ok
    (t <| ctrl1 := dev * 32 + 15 |> <| tx := wr (wr (tx t) 0 (word / 256)) 1 (word mod 256) |>
       <| trf := calypso_trf6151_tsp_write (trf t) dev word |>) fn qbit.

Lemma tsp_word_program t dev word fn q :
  (dev = 1 ∨ dev = 2) → is_word word → zlen (tx t) = 4 →
  let t1 := calypso_tsp_move shm_ok t TPUI_TSP_CTRL1 (dev * 32 + 15) fn q in
  let t2 := calypso_tsp_move shm_ok t1 TPUI_TX_1 (word / 256) fn q in
  let t3 := calypso_tsp_move shm_ok t2 TPUI_TX_2 (word mod 256) fn q in
  calypso_tsp_move shm_ok t3 TPUI_TSP_CTRL2 TPUI_CTRL2_WR fn q = after_word t dev word fn q.
Proof.
  intros Hd [Hw Hr] Htx. cbn zeta. unfold after_word.
  assert (tsp_word (wr (wr (tx t) 0 (word / 256)) 1 (word mod 256)) 16 = word) as E.
  { unfold tsp_word. change (16 <=? 8) with false. change (16 <=? 16) with true. cbn iota.
    rewrite (rd_wr_ne _ 1 0), !rd_wr_eq by (rewrite ?zlen_wr; lia).
    rewrite lor_shiftl_add by (change (2 ^ 8) with 256; mlia). change (2 ^ 8) with 256. mlia. }
  assert (∀ t d, calypso_tsp_move shm_ok t TPUI_TSP_CTRL1 d fn q = t <| ctrl1 := d |>) as -> by done.
  assert (∀ t d, calypso_tsp_move shm_ok t TPUI_TX_1 d fn q = t <| tx := wr (tx t) 0 d |>) as -> by done.
  assert (∀ t d, calypso_tsp_move shm_ok t TPUI_TX_2 d fn q = t <| tx := wr (tx t) 1 d |>) as -> by done.
  set (t3 := t <| ctrl1 := _ |> <| tx := _ |> <| tx := _ |>). unfold calypso_tsp_move.
  change (has TPUI_CTRL2_WR TPUI_CTRL2_WR) with true.
  cbn [Z.eqb TPUI_TX_1 TPUI_TX_2 TPUI_TX_3 TPUI_TX_4 TPUI_TSP_CTRL1 TPUI_TSP_CTRL2 Pos.eqb].
  change (ctrl1 t3) with (dev * 32 + 15).
  change (tx t3) with (wr (wr (tx t) 0 (word / 256)) 1 (word mod 256)). cbn zeta.
  assert (Z.land (Z.shiftr (dev * 32 + 15) 5) 0x07 = dev ∧ Z.land (dev * 32 + 15) 0x1F + 1 = 16) as [-> ->]
    by (by destruct Hd as [-> | ->]).
  rewrite E.
  assert (((dev =? 1) || (dev =? 2)) = true) as -> by (by destruct Hd as [-> | ->]).
  assert (((Z.land word 7 =? 0) || (Z.land word 7 =? 1) || (Z.land word 7 =? 2)) = true) as ->; [|done].
  rewrite !orb_true_iff, !Z.eqb_eq. lia.
Qed.

Lemma seq_loop_word fuel s fn dev word :
  (dev = 1 ∨ dev = 2) → is_word word → zlen (tx (tsp s)) = 4 → active s = true →
  0 ≤ cursor s → cursor s + 4 < len s →
  (∀ i, 0 ≤ i < 4 → rd (insns s) (cursor s + i) = rd (word_program dev word) i) →
  seq_loop shm_ok (4 + fuel) s fn =
    seq_loop shm_ok fuel (s <| tsp := after_word (tsp s) dev word fn (qbit s) |>
                            <| cursor := cursor s + 4 |>) fn.
Proof.
  intros Hd Hw Htx Ha Hc Hlen Hi.
  assert (∀ k n s', cursor s' = cursor s + k → 0 ≤ k < 4 → insns s' = insns s → active s' = true →
    len s' = len s → seq_loop shm_ok (S n) s' fn =
    match seq_insn shm_ok s' fn with Continue s2 => seq_loop shm_ok n s2 fn | Return s2 => s2 end) as Hstep.
  { intros k n s' E1 Hk E2 E3 E4. cbn [seq_loop]. rewrite E3, E1, E4.
    by destruct (Z.ltb_spec (cursor s + k) (len s)); [|lia]. }
  destruct Hw as [Hw Hr]. pose proof (tsp_word_program (tsp s) dev word fn (qbit s) Hd (conj Hw Hr) Htx) as E.
  change (4 + fuel)%nat with (S (S (S (S fuel)))).
  assert (0 ≤ dev * 32 + 15 < 256) by (destruct Hd; lia).
  assert (∀ k s', cursor s' = cursor s + k → 0 ≤ k < 4 → insns s' = insns s →
    rd (insns s') (cursor s') = rd (word_program dev word) k) as Hrd
    by (intros k s' -> Hk ->; by apply Hi).
  assert (cursor s = cursor s + 0) as C0 by lia.
  rewrite (Hstep 0), (seq_insn_move s fn TPUI_TSP_CTRL1 (dev * 32 + 15)) by (done || lia || by apply (Hrd 0)).
  set (s1 := _ <| cursor := _ |>). assert (cursor s1 = cursor s + 1) as C1 by done.
  rewrite (Hstep 1), (seq_insn_move s1 fn TPUI_TX_1 (word / 256)) by (done || mlia || by apply (Hrd 1)).
  set (s2 := s1 <| tsp := _ |> <| cursor := _ |>). assert (cursor s2 = cursor s + 2) as C2 by (cbn; lia).
  rewrite (Hstep 2), (seq_insn_move s2 fn TPUI_TX_2 (word mod 256)) by (done || mlia || by apply (Hrd 2)).
  set (s3 := s2 <| tsp := _ |> <| cursor := _ |>). assert (cursor s3 = cursor s + 3) as C3 by (cbn; lia).
  rewrite (Hstep 3), (seq_insn_move s3 fn TPUI_TSP_CTRL2 TPUI_CTRL2_WR) by (done || lia || by apply (Hrd 3)).
  rewrite C3, <- E. replace (cursor s + 3 + 1) with (cursor s + 4) by lia. reflexivity.
Qed.

(** The word that selects a band or a divider. *)
Lemma pwr_is_word high : is_word (pwr_word high).
Proof. destruct high; split; by vm_compute. Qed.

Definition pll_words_ok (arfcn : Z) : bool :=
  match carrier arfcn with
  | Some (_, n) => (0 <=? pll_word n) && (pll_word n <? 65536) && (Z.land (pll_word n) 7 =? 1)
  | None => true
  end.

Lemma pll_is_word arfcn high n : carrier arfcn = Some (high, n) → is_word (pll_word n).
Proof.
  intros Hc. assert (0 ≤ arfcn < 1024) by (unfold carrier in Hc; repeat case_match; simplify_eq; bool_prop; lia).
  assert (pll_words_ok arfcn = true) as H1 by (apply (range_check _ 1024); [lia|by vm_compute]).
  unfold pll_words_ok in H1. rewrite Hc in H1. bool_prop. split; lia.
Qed.

End program.

(** The program that tunes to an ARFCN: the PWR word, the PLL word, and the
    two null words that end a scenario. *)
Definition tune_program (dev : Z) (high : bool) (n : Z) (rest : list Z) : list Z :=
  word_program dev (pwr_word high) ++ word_program dev (pll_word n) ++ [0; 0] ++ rest.

Lemma after_word_tx shm_ok t dev word fn q :
  zlen (tx t) = 4 → zlen (tx (after_word shm_ok t dev word fn q)) = 4.
Proof.
  intros Ht. unfold after_word, rf_arfcn_publier.
  cbn [shm essaye tx update_field]. destruct (shm t) eqn:E, (essaye t), shm_ok;
    cbn [shm tx update_field fmap option_fmap option_map]; rewrite ?E; cbn [tx update_field]; by rewrite !zlen_wr.
Qed.

(** With the file mapped, sending a word appends one entry. *)
Lemma after_word_shm shm_ok t m dev word fn q :
  shm t = Some m → 0 ≤ widx m → length (ring m) = 64%nat →
  let t' := after_word shm_ok t dev word fn q in
  let f := calypso_trf6151_tsp_write (trf t) dev word in
  trf t' = f ∧ ∃ m', shm t' = Some m' ∧ widx m' = u32 (widx m + 1) ∧ length (ring m') = 64%nat ∧
  ring m' !! Z.to_nat (widx m mod CALYPSO_RF_ARFCN_N) =
    Some (mkProg fn (i16 q) (i16 (calypso_trf6151_arfcn f))
            (i16 (calypso_trf6151_total_gain_db f)) (i16 (calypso_trf6151_rf_flags f))).
Proof.
  intros Hm Hw Hr. cbn zeta. unfold after_word, rf_arfcn_publier. cbn [shm update_field]. rewrite Hm.
  cbn [shm trf update_field]. rewrite Hm. cbn [shm trf update_field]. split; [done|].
  eexists. split; [done|]. split; [done|]. cbn [ring]. rewrite length_insert. split; [done|].
  apply list_lookup_insert_eq. unfold CALYPSO_RF_ARFCN_N. pose proof (Z.mod_pos_bound (widx m) 64). lia.
Qed.

Lemma i16_small x : 0 ≤ x < 32768 → i16 x = x.
Proof. intros. unfold i16. rewrite Z.mod_small; lia. Qed.

(** Two null words after the first instruction stop the sequencer. *)
Lemma seq_loop_stop shm_ok fuel s fn :
  active s = true → 0 < cursor s → cursor s + 1 < len s →
  rd (insns s) (cursor s) = 0 → rd (insns s) (cursor s + 1) = 0 →
  seq_loop shm_ok (S fuel) s fn = s <| active := false |>.
Proof.
  intros Ha Hc Hl H0 H1. cbn [seq_loop]. rewrite Ha. destruct (Z.ltb_spec (cursor s) (len s)); [|lia].
  unfold seq_insn. rewrite H0, H1. destruct (Z.ltb_spec 0 (cursor s)); [|lia]. cbn [andb].
  by rewrite orb_true_r.
Qed.

(** C32: a TPU program tunes the radio end to end: running the scenario that
    sends the PWR and PLL words of an ARFCN through the serial port leaves the
    sequencer stopped, the synthesizer decoding to that ARFCN, and the newest
    entry of the shared ring telling that ARFCN at that frame. *)
Theorem tpu_program_tunes shm_ok s m dev arfcn high n rest fn regs :
  (dev = 1 ∨ dev = 2) → carrier arfcn = Some (high, n) → zlen (tx (tsp s)) = 4 →
  shm (tsp s) = Some m → 0 ≤ widx m → length (ring m) = 64%nat →
  let s' := calypso_tpu_run_scenario shm_ok s (tune_program dev high n rest) fn regs in
  active s' = false ∧ calypso_trf6151_arfcn (trf (tsp s')) = arfcn ∧
  ∃ m' e, shm (tsp s') = Some m' ∧ widx m' = u32 (u32 (widx m + 1) + 1) ∧
    ring m' !! Z.to_nat (u32 (widx m + 1) mod CALYPSO_RF_ARFCN_N) = Some e ∧
    e_fn e = fn ∧ e_qbit e = 0 ∧ e_arfcn e = arfcn.
Proof.
  intros Hd Hc Htx Hm Hw Hr. cbn zeta. unfold calypso_tpu_run_scenario, seq_run.
  change (S (Z.to_nat (len _ - cursor _))) with (4 + (4 + 1017))%nat.
  set (s0 := mkSeq _ _ _ _ _ _ _ _).
  assert (∀ i, 0 ≤ i < 4 → rd (insns s0) (cursor s0 + i) = rd (word_program dev (pwr_word high)) i) as H1.
  { intros i Hi. cbn [s0 insns cursor]. rewrite Z.add_0_l. unfold tune_program. by rewrite rd_app_l. }
  rewrite (seq_loop_word shm_ok (4 + 1017) s0 fn dev (pwr_word high)) by
    (done || apply pwr_is_word || exact H1).
  set (s1 := s0 <| tsp := _ |> <| cursor := _ |>).
  assert (∀ i, 0 ≤ i < 4 → rd (insns s1) (cursor s1 + i) = rd (word_program dev (pll_word n)) i) as H2.
  { intros i Hi. change (cursor s1) with (zlen (word_program dev (pwr_word high))).
    change (insns s1) with (tune_program dev high n rest). unfold tune_program.
    rewrite rd_app_r, rd_app_l by (done || lia). done. }
  rewrite (seq_loop_word shm_ok 1017 s1 fn dev (pll_word n)) by
    (done || (by eapply pll_is_word) || exact H2 || by apply after_word_tx).
  set (s2 := s1 <| tsp := _ |> <| cursor := _ |>).
  change 1017%nat with (S 1016). rewrite (seq_loop_stop shm_ok 1016 s2 fn) by done. split; [done|].
  change (tsp (s2 <| active := false |>)) with
    (after_word shm_ok (after_word shm_ok (tsp s) dev (pwr_word high) fn 0) dev (pll_word n) fn 0).
  destruct (after_word_shm shm_ok (tsp s) m dev (pwr_word high) fn 0 Hm Hw Hr)
    as (Ht1 & m1 & Hm1 & Hw1 & Hr1 & _).
  set (t1 := after_word shm_ok (tsp s) dev (pwr_word high) fn 0) in *.
  destruct (after_word_shm shm_ok t1 m1 dev (pll_word n) fn 0 Hm1) as (Ht2 & m2 & Hm2 & Hw2 & Hr2 & He);
    [rewrite Hw1; apply u32_range|done|].
  assert (calypso_trf6151_arfcn (calypso_trf6151_tsp_write (trf t1) dev (pll_word n)) = arfcn) as Harf.
  { rewrite Ht1. by apply (tune_arfcn (trf (tsp s)) dev arfcn high n). }
  rewrite Ht2, Harf. split; [done|]. eexists m2, _. rewrite <- Hw1. do 3 (split; [done|]). cbn.
  rewrite Harf. split; [done|]. split; [done|]. apply i16_small. 
  unfold carrier in Hc; repeat case_match; simplify_eq; bool_prop; lia.
Qed.

Definition seq_mapped : Seq :=
  mkSeq [] 0 0 0 0 false None (tsp_init <| shm := Some (mkShm 0 (replicate 64 (mkProg 0 0 0 0 0))) |>).

Lemma tpu_program_tunes_witness :
  calypso_trf6151_arfcn (trf (tsp
    (calypso_tpu_run_scenario None seq_mapped (tune_program 1 false 9474 []) 7 None))) = 62.
Proof.
  refine (proj1 (proj2 (tpu_program_tunes None seq_mapped _ 1 62 false 9474 [] 7 None _ _ _ _ _ _))).
  - by left.
  - by vm_compute.
  - by vm_compute.
  - reflexivity.
  - done.
  - done.
Defined.

End TPU.
