(* ===== verification/FrontEnd.v ===== *)
(** * The analog front end

    [IOTA] ([calypso_iota.c]): the analog baseband's receive and transmit
    windows, and the queue of receive windows waiting for a burst.
    [ASM4532] and [RF3166] ([calypso_asm4532.c], [calypso_rf3166.c]): the
    antenna switch and the power amplifier, both driven by the TSPACT lines. *)
From S2P Require Import Prelude Ring.

(** ** IOTA *)
Module IOTA.

Definition IOTA_PENDING_MAX : Z := 32.
Definition IOTA_TSP_BULENA : Z := 0x40.
Definition IOTA_TSP_BDLENA : Z := 0x04.

Record Iota := mkIota {
  last_byte : Z;
  bdl_ena : bool;
  bul_ena : bool;
  bdl_pulses : Z;
  writes_seen : Z;
  pending_tn : list Z;
  pending_head : Z;
  pending_tail : Z
}.

#[export] Instance iota_eta : Settable Iota := λ s,
  mkIota (last_byte s) (bdl_ena s) (bul_ena s) (bdl_pulses s) (writes_seen s) (pending_tn s)
    (pending_head s) (pending_tail s).

Definition iota_pending_count (s : Iota) : Z :=
  let n := pending_tail s - pending_head s in
  if n <? 0 then n + IOTA_PENDING_MAX else n.

Definition iota_pending_push (s : Iota) (tn : Z) : Iota :=
  let s := if IOTA_PENDING_MAX - 1 <=? iota_pending_count s
           then s <| pending_head := (pending_head s + 1) mod IOTA_PENDING_MAX |> else s in
  s <| pending_tn := wr (pending_tn s) (pending_tail s) tn |>
    <| pending_tail := (pending_tail s + 1) mod IOTA_PENDING_MAX |>.

Definition calypso_iota_init : Iota := mkIota 0 false false 0 0 (replicate 32 0) 0 0.

Definition calypso_iota_tsp_write (s : Iota) (data expected_tn : Z) : Iota :=
  let prev_bdl := bdl_ena s in
  let s := s <| last_byte := data |> <| bdl_ena := has data IOTA_TSP_BDLENA |>
             <| bul_ena := has data IOTA_TSP_BULENA |> <| writes_seen := u32 (writes_seen s + 1) |> in
  if negb prev_bdl && bdl_ena s then
    iota_pending_push (s <| bdl_pulses := u32 (bdl_pulses s + 1) |>) expected_tn
  else s.

Definition calypso_iota_bdl_ena (s : Iota) : bool := bdl_ena s.
Definition calypso_iota_bdl_ena_pulses (s : Iota) : Z := bdl_pulses s.

(** The inner loop: [for (j = i; j > 0; j--)] moves the older entries up. *)
Fixpoint shift_up (buf : list Z) (head : Z) (i : nat) : list Z :=
  match i with
  | O => buf
  | S j =>
      let dst := (head + Z.of_nat i) mod IOTA_PENDING_MAX in
      let src := (head + Z.of_nat i - 1) mod IOTA_PENDING_MAX in
      shift_up (wr buf dst (rd buf src)) head j
  end.

Definition calypso_iota_take_bdl_pulse (s : Iota) (tn : Z) : bool * Iota :=
  let n := iota_pending_count s in
  match find (λ i, rd (pending_tn s) ((pending_head s + i) mod IOTA_PENDING_MAX) =? tn)
          (zseq 0 (Z.to_nat n)) with
  | Some i =>
      (true, s <| pending_tn := shift_up (pending_tn s) (pending_head s) (Z.to_nat i) |>
               <| pending_head := (pending_head s + 1) mod IOTA_PENDING_MAX |>)
  | None => (false, s)
  end.

(** *** The pending windows as a list *)
Inductive op :=
  | Init
  | TspWrite (data expected_tn : Z)
  | TakePulse (tn : Z).

Definition step (s : Iota) (o : op) : Iota :=
  match o with
  | Init => calypso_iota_init
  | TspWrite data tn => calypso_iota_tsp_write s data tn
  | TakePulse tn => snd (calypso_iota_take_bdl_pulse s tn)
  end.

Definition pending (s : Iota) : list Z :=
  ring_contents 0 IOTA_PENDING_MAX (pending_tn s) (pending_head s) (iota_pending_count s).

(** The specification: append, dropping the oldest of 31; remove the oldest
    window of a timeslot. *)
Definition push_spec (q : list Z) (tn : Z) : list Z :=
  (if 31 <=? zlen q then tail q else q) ++ [tn].

Fixpoint remove_first (tn : Z) (q : list Z) : option (list Z) :=
  match q with
  | [] => None
  | x :: q => if x =? tn then Some q else cons x <$> remove_first tn q
  end.

Record iota_wf (s : Iota) : Prop := {
  iwf_buf : zlen (pending_tn s) = 32;
  iwf_head : 0 ≤ pending_head s < 32;
  iwf_tail : 0 ≤ pending_tail s < 32
}.

Lemma count_range s : iota_wf s → 0 ≤ iota_pending_count s ≤ 31.
Proof. intros []. unfold iota_pending_count, IOTA_PENDING_MAX. case_if; bool_prop; lia. Qed.

Lemma iota_ring_ok s : iota_wf s →
  ring_ok IOTA_PENDING_MAX (pending_tn s) (pending_tail s) (pending_head s) (iota_pending_count s).
Proof.
  intros Hwf. pose proof (count_range s Hwf) as Hc. destruct Hwf.
  unfold ring_ok, IOTA_PENDING_MAX in *. split_and!; try lia.
  unfold iota_pending_count, IOTA_PENDING_MAX in *. destruct (Z.ltb_spec (pending_tail s - pending_head s) 0); mlia.
Qed.

(** The count is determined by the ring. *)
Lemma ring_ok_count s c :
  ring_ok IOTA_PENDING_MAX (pending_tn s) (pending_tail s) (pending_head s) c → c ≤ 31 →
  iota_wf s ∧ iota_pending_count s = c.
Proof.
  intros (H1 & H2 & H3 & H4) Hc. unfold iota_pending_count, IOTA_PENDING_MAX in *.
  assert (0 ≤ pending_tail s < 32) by (rewrite H4; apply Z.mod_pos_bound; lia).
  split; [done|]. destruct (Z.ltb_spec (pending_tail s - pending_head s) 0); mlia.
Qed.

Lemma pending_push_spec s tn :
  iota_wf s →
  iota_wf (iota_pending_push s tn) ∧ pending (iota_pending_push s tn) = push_spec (pending s) tn.
Proof.
  intros Hwf. pose proof (count_range s Hwf) as Hc. pose proof (iota_ring_ok s Hwf) as Hok.
  assert (zlen (pending s) = iota_pending_count s) as Hl by (apply length_ring_contents; lia).
  unfold push_spec. rewrite Hl. unfold iota_pending_push.
  change (IOTA_PENDING_MAX - 1) with 31. destruct (Z.leb_spec 31 (iota_pending_count s)).
  - destruct (ring_pop 0 32 ltac:(lia) _ _ _ _ Hok ltac:(lia)) as [Hok1 E1].
    destruct (ring_push 0 32 ltac:(lia) _ _ _ _ tn Hok1 ltac:(lia)) as [Hok2 E2].
    set (s' := s <| pending_head := _ |> <| pending_tn := _ |> <| pending_tail := _ |>).
    destruct (ring_ok_count s' (iota_pending_count s - 1 + 1) Hok2 ltac:(lia)) as [Hwf' Hcount].
    split; [done|]. unfold pending at 1. rewrite Hcount. etransitivity; [exact E2|]. f_equal.
    unfold pending. change IOTA_PENDING_MAX with 32. by rewrite E1.
  - destruct (ring_push 0 32 ltac:(lia) _ _ _ _ tn Hok ltac:(lia)) as [Hok2 E2].
    set (s' := s <| pending_tn := _ |> <| pending_tail := _ |>).
    destruct (ring_ok_count s' (iota_pending_count s + 1) Hok2 ltac:(lia)) as [Hwf' Hcount].
    split; [done|]. unfold pending at 1. rewrite Hcount. exact E2.
Qed.

(** The effect of the shift, slot by slot from the head. *)
Lemma length_shift_up buf head i : zlen (shift_up buf head i) = zlen buf.
Proof. revert buf. induction i as [|i IH]; intros buf; cbn; [done|]. by rewrite IH, zlen_wr. Qed.

Lemma slot_ne head j k : 0 ≤ j < 32 → 0 ≤ k < 32 → j ≠ k → (head + j) mod 32 ≠ (head + k) mod 32.
Proof. intros. mlia. Qed.

Lemma shift_up_spec i buf head k :
  zlen buf = 32 → (i < 32)%nat → 0 ≤ k < 32 →
  rd (shift_up buf head i) ((head + k) mod 32) =
    (if (1 <=? k) && (k <=? Z.of_nat i) then rd buf ((head + k - 1) mod 32) else rd buf ((head + k) mod 32)).
Proof.
  revert buf. induction i as [|i IH]; intros buf Hl Hi Hk; cbn [shift_up].
  { destruct (Z.leb_spec 1 k), (Z.leb_spec k (Z.of_nat 0)); cbn [andb]; try done; lia. }
  unfold IOTA_PENDING_MAX. rewrite IH by (rewrite ?zlen_wr; lia).
  assert (∀ j, 0 ≤ (head + j) mod 32 < 32) as Hm by (intros; apply Z.mod_pos_bound; lia).
  pose proof (Hm k). pose proof (Hm (Z.of_nat (S i))). pose proof (Hm (k - 1)).
  replace (head + k - 1) with (head + (k - 1)) in * by lia.
  destruct (Z.leb_spec 1 k), (Z.leb_spec k (Z.of_nat i)), (Z.leb_spec k (Z.of_nat (S i)));
    cbn [andb]; try lia.
  - apply rd_wr_ne; try lia. apply slot_ne; lia.
  - assert (k = Z.of_nat (S i)) as -> by lia. rewrite rd_wr_eq by lia. f_equal. f_equal. lia.
  - apply rd_wr_ne; try lia. apply slot_ne; lia.
  - apply rd_wr_ne; try lia. apply slot_ne; lia.
Qed.

(** The search loop finds the entry [remove_first] removes. *)
Lemma find_remove (f : Z → Z) tn n a :
  match find (λ i, f i =? tn) (zseq a n) with
  | Some i => a ≤ i < a + Z.of_nat n ∧
      remove_first tn (f <$> zseq a n) = Some (delete (Z.to_nat (i - a)) (f <$> zseq a n))
  | None => remove_first tn (f <$> zseq a n) = None
  end.
Proof.
  revert a. induction n as [|n IH]; intros a; [done|]. rewrite zseq_cons, fmap_cons. cbn [find remove_first].
  destruct (f a =? tn). { split; [lia|]. by replace (Z.to_nat (a - a)) with 0%nat by lia. }
  specialize (IH (a + 1)). destruct (find _ _) as [i|]; [|by rewrite IH].
  destruct IH as [Hi ->]. split; [lia|]. cbn. f_equal.
  by replace (Z.to_nat (i - a)) with (S (Z.to_nat (i - (a + 1)))) by lia.
Qed.

(** Shifting and advancing the head deletes the entry found. *)
Lemma shift_delete buf head n i :
  zlen buf = 32 → 0 ≤ i < n → n ≤ 31 →
  ring_contents 0 32 (shift_up buf head (Z.to_nat i)) ((head + 1) mod 32) (n - 1) =
    delete (Z.to_nat i) (ring_contents 0 32 buf head n).
Proof.
  intros Hl Hi Hn. apply list_eq. intros k. unfold ring_contents. rewrite list_lookup_fmap.
  destruct (decide (k < Z.to_nat (n - 1))%nat) as [Hk|Hk].
  - rewrite lookup_zseq by done. cbn [fmap option_fmap option_map]. rewrite Zplus_mod_idemp_l.
    replace (head + 1 + (0 + Z.of_nat k)) with (head + (Z.of_nat k + 1)) by lia.
    change (slot 0 (shift_up buf head (Z.to_nat i)) ((head + (Z.of_nat k + 1)) mod 32)) with
      (rd (shift_up buf head (Z.to_nat i)) ((head + (Z.of_nat k + 1)) mod 32)).
    rewrite shift_up_spec by lia. destruct (Z.leb_spec 1 (Z.of_nat k + 1)); [|lia]. cbn [andb].
    destruct (Z.leb_spec (Z.of_nat k + 1) (Z.of_nat (Z.to_nat i))).
    + rewrite list_lookup_delete_lt, list_lookup_fmap, lookup_zseq by lia. cbn. unfold slot, rd.
      by replace (head + (Z.of_nat k + 1) - 1) with (head + (0 + Z.of_nat k)) by lia.
    + rewrite list_lookup_delete_ge, list_lookup_fmap, lookup_zseq by lia. cbn. unfold slot, rd.
      by replace (head + (Z.of_nat k + 1)) with (head + (0 + Z.of_nat (S k))) by lia.
  - rewrite lookup_ge_None_2 by (rewrite length_zseq; lia). symmetry. apply lookup_ge_None_2.
    rewrite length_delete; [rewrite length_fmap, length_zseq; lia|].
    apply lookup_lt_is_Some_2. rewrite length_fmap, length_zseq. lia.
Qed.

Lemma take_pulse_spec s tn :
  iota_wf s →
  let '(taken, s') := calypso_iota_take_bdl_pulse s tn in
  iota_wf s' ∧
  match remove_first tn (pending s) with
  | Some q => taken = true ∧ pending s' = q
  | None => taken = false ∧ s' = s
  end.
Proof.
  intros Hwf. pose proof (count_range s Hwf) as Hc. pose proof (iota_ring_ok s Hwf) as Hok.
  unfold calypso_iota_take_bdl_pulse, pending, ring_contents.
  change IOTA_PENDING_MAX with 32 in *. set (n := iota_pending_count s) in *.
  pose proof (find_remove (λ k, slot 0 (pending_tn s) ((pending_head s + k) mod 32)) tn (Z.to_nat n) 0) as Hf.
  change (slot 0 (pending_tn s)) with (rd (pending_tn s)) in *.
  destruct (find _ _) as [i|]; [|by rewrite Hf].
  destruct Hf as [Hi ->]. rewrite Z.sub_0_r.
  destruct (ring_pop 0 32 ltac:(lia) _ _ _ _ Hok ltac:(lia)) as [Hok1 _].
  set (s' := s <| pending_tn := _ |> <| pending_head := _ |>).
  destruct (ring_ok_count s' (n - 1)) as [Hwf' Hcount]; [|lia|].
  { destruct Hok1 as (_ & ? & ? & ?). split; [|done]. cbn. rewrite length_shift_up. apply Hwf. }
  split; [done|]. split; [done|]. rewrite Hcount.
  apply (shift_delete (pending_tn s) (pending_head s) n i); [apply Hwf|lia..].
Qed.

Lemma iota_init_wf : iota_wf calypso_iota_init.
Proof. split; [by vm_compute|done..]. Qed.

Lemma iota_step_wf s o : iota_wf s → iota_wf (step s o).
Proof.
  intros Hwf. destruct o as [|data tn|tn]; cbn [step].
  - apply iota_init_wf.
  - unfold calypso_iota_tsp_write. case_if; [|by destruct Hwf]. apply pending_push_spec. by destruct Hwf.
  - pose proof (take_pulse_spec s tn Hwf) as H. destruct (calypso_iota_take_bdl_pulse s tn). by destruct H.
Qed.

(** The pending receive windows behave as a list of timeslots in every
    reachable state: a rising edge of BDLENA appends the armed timeslot (the
    oldest of 31 is dropped), other writes leave the list alone, and a burst
    consumes exactly the oldest window of its timeslot, the others keeping
    their order, or is refused when there is none. *)
Theorem iota_pending_refines l data tn :
  let s := run step calypso_iota_init l in
  zlen (pending s) ≤ 31 ∧
  pending (calypso_iota_tsp_write s data tn) =
    (if negb (bdl_ena s) && has data IOTA_TSP_BDLENA then push_spec (pending s) tn else pending s) ∧
  match remove_first tn (pending s) with
  | Some q => fst (calypso_iota_take_bdl_pulse s tn) = true ∧
              pending (snd (calypso_iota_take_bdl_pulse s tn)) = q
  | None => calypso_iota_take_bdl_pulse s tn = (false, s)
  end.
Proof.
  cbn zeta. assert (iota_wf (run step calypso_iota_init l)) as Hwf.
  { apply (run_invariant step (λ _, True)); [intros; by apply iota_step_wf|apply iota_init_wf|by apply Forall_true]. }
  set (s := run step calypso_iota_init l) in *. pose proof (count_range s Hwf). split_and!.
  - unfold pending. rewrite length_ring_contents; lia.
  - unfold calypso_iota_tsp_write. cbn [bdl_ena update_field]. case_if; [|done].
    set (s1 := s <| last_byte := _ |> <| bdl_ena := _ |> <| bul_ena := _ |> <| writes_seen := _ |> <| bdl_pulses := _ |>).
    assert (iota_wf s1) as Hwf1 by (by destruct Hwf). apply (pending_push_spec s1 tn Hwf1).
  - pose proof (take_pulse_spec s tn Hwf) as H1. destruct (calypso_iota_take_bdl_pulse s tn) as [b s'].
    destruct H1 as [_ H1]. cbn. destruct (remove_first tn (pending s)); destruct H1; by subst.
Qed.

End IOTA.

(** ** Antenna switch and power amplifier *)
Module PA.

Definition ASM_TRENA : Z := Z.shiftl 1 6.
Definition ASM_GSM_TXEN : Z := Z.shiftl 1 8.
Definition PA_ENABLE : Z := Z.shiftl 1 1.
Definition RF3166_MAX_DBM : Z := 33.
Definition INT32_MIN : Z := - 2147483648.

Record Asm4532 := mkAsm {
  asm_init : bool;
  asm_tspact : Z;
  asm_tx : bool;
  asm_gsm : bool;
  tx_windows : Z
}.

Record Rf3166 := mkPa {
  pa_on : bool;
  apc_known : bool;
  apc : Z;
  bursts : Z;
  faults : Z
}.

#[export] Instance asm_eta : Settable Asm4532 := λ a,
  mkAsm (asm_init a) (asm_tspact a) (asm_tx a) (asm_gsm a) (tx_windows a).
#[export] Instance pa_eta : Settable Rf3166 := λ p,
  mkPa (pa_on p) (apc_known p) (apc p) (bursts p) (faults p).

Definition calypso_asm4532_tspact_update (a : Asm4532) (tspact : Z) : Asm4532 :=
  let tx_new := negb (has tspact ASM_TRENA) in
  let gsm_new := negb (has tspact ASM_GSM_TXEN) in
  let a := if negb (asm_init a) then a <| asm_init := true |> else a in
  let a := if negb (Bool.eqb tx_new (asm_tx a)) && tx_new
           then a <| tx_windows := u32 (tx_windows a + 1) |> else a in
  a <| asm_tspact := tspact |> <| asm_tx := tx_new |> <| asm_gsm := gsm_new |>.

Definition calypso_asm4532_tx_connected (a : Asm4532) : bool := asm_tx a.
Definition calypso_asm4532_band_gsm (a : Asm4532) : bool := asm_gsm a.
Definition calypso_asm4532_tx_windows (a : Asm4532) : Z := tx_windows a.

Definition calypso_rf3166_tspact_update (p : Rf3166) (a : Asm4532) (tspact : Z) : Rf3166 :=
  let on_new := has tspact PA_ENABLE in
  if Bool.eqb on_new (pa_on p) then p
  else
    let p := if on_new then
               let p := p <| bursts := u32 (bursts p + 1) |> in
               if negb (calypso_asm4532_tx_connected a) then p <| faults := u32 (faults p + 1) |> else p
             else p in
    p <| pa_on := on_new |>.

Definition calypso_rf3166_set_apc (p : Rf3166) (apc_level : Z) : Rf3166 :=
  p <| apc := apc_level |> <| apc_known := true |>.

Definition calypso_rf3166_enabled (p : Rf3166) : bool := pa_on p.

Definition calypso_rf3166_out_dbm (p : Rf3166) : Z :=
  if negb (pa_on p) || negb (apc_known p) then INT32_MIN
  else Z.quot (apc p * RF3166_MAX_DBM) 255.

Definition calypso_rf3166_faults (p : Rf3166) : Z := faults p.

Inductive op :=
  | Switch (tspact : Z)
  | Amplifier (tspact : Z)
  | SetApc (level : Z).

Definition step (s : Asm4532 * Rf3166) (o : op) : Asm4532 * Rf3166 :=
  let '(a, p) := s in
  match o with
  | Switch tspact => (calypso_asm4532_tspact_update a tspact, p)
  | Amplifier tspact => (a, calypso_rf3166_tspact_update p a tspact)
  | SetApc level => (a, calypso_rf3166_set_apc p level)
  end.

Definition op_ok (o : op) : Prop :=
  match o with SetApc level => 0 ≤ level < 256 | _ => True end.

Definition front_init : Asm4532 * Rf3166 := (mkAsm false 0 false false 0, mkPa false false 0 0 0).

(** The amplifier is only switched on while the antenna is on it. *)
Fixpoint ordered (tx on : bool) (l : list op) : bool :=
  match l with
  | [] => true
  | Switch v :: l => ordered (negb (has v ASM_TRENA)) on l
  | Amplifier v :: l => (negb (has v PA_ENABLE) || on || tx) && ordered tx (has v PA_ENABLE) l
  | SetApc _ :: l => ordered tx on l
  end.

Lemma asm_update_tx a v : asm_tx (calypso_asm4532_tspact_update a v) = negb (has v ASM_TRENA).
Proof. unfold calypso_asm4532_tspact_update. by repeat case_if. Qed.

Lemma pa_update_spec p a v :
  pa_on (calypso_rf3166_tspact_update p a v) = has v PA_ENABLE ∧
  faults (calypso_rf3166_tspact_update p a v) =
    (if negb (has v PA_ENABLE) || pa_on p || asm_tx a then faults p else u32 (faults p + 1)).
Proof.
  unfold calypso_rf3166_tspact_update, calypso_asm4532_tx_connected.
  destruct (has v PA_ENABLE) eqn:E, (pa_on p) eqn:E1, (asm_tx a); cbn; rewrite ?E1; done.
Qed.

(** Faults only grow, and count the violations of the order. *)
Lemma faults_count l s :
  0 ≤ faults (snd s) → faults (snd s) + zlen l < 4294967296 →
  faults (snd s) ≤ faults (snd (run step s l)) ∧
  (faults (snd (run step s l)) = faults (snd s) ↔ ordered (asm_tx (fst s)) (pa_on (snd s)) l = true).
Proof.
  revert s. induction l as [|o l IH]; intros [a p] H0 Hn; [done|].
  change (run step (a, p) (o :: l)) with (run step (step (a, p) o) l).
  unfold zlen in *. cbn [length] in Hn. cbn [fst snd ordered] in *. destruct o as [v|v|v]; cbn [step].
  - destruct (IH (calypso_asm4532_tspact_update a v, p)) as [H1 H2]; cbn [snd fst] in *; [lia..|].
    rewrite asm_update_tx in H2. done.
  - destruct (pa_update_spec p a v) as [E1 E2]. set (p' := calypso_rf3166_tspact_update p a v) in *.
    destruct (negb (has v PA_ENABLE) || pa_on p || asm_tx a) eqn:E; cbn [andb].
    + destruct (IH (a, p')) as [H1 H2]; cbn [snd fst] in *; [lia..|]. rewrite E1, E2 in *. done.
    + rewrite u32_small in E2 by lia. destruct (IH (a, p')) as [H1 H2]; cbn [snd fst] in *; [lia..|].
      split; [lia|]. split; [lia|done].
  - destruct (IH (a, calypso_rf3166_set_apc p v)) as [H1 H2]; cbn [snd fst] in *; [cbn; lia..|]. done.
Qed.

Lemma pa_apc_step s o : 0 ≤ apc (snd s) < 256 → op_ok o → 0 ≤ apc (snd (step s o)) < 256.
Proof.
  destruct s as [a p], o as [v|v|v]; cbn [step snd op_ok]; try done. intros Ha _.
  unfold calypso_rf3166_tspact_update. by repeat case_if.
Qed.

(** The fault counter of the amplifier is exact: from power-on it is still
    zero exactly when every activation happened with the antenna switched to
    the amplifier, whatever the interleaving of switch and amplifier updates;
    and the reported output power is "unknown" or between 0 and 33 dBm. *)
Theorem pa_faults_exact l :
  Forall op_ok l → zlen l < 4294967296 →
  let '(a, p) := run step front_init l in
  (calypso_rf3166_faults p = 0 ↔ ordered false false l = true) ∧
  (calypso_rf3166_out_dbm p = INT32_MIN ∨ 0 ≤ calypso_rf3166_out_dbm p ≤ 33).
Proof.
  intros Hl Hn. destruct (faults_count l front_init) as [_ H]; [cbn; lia|cbn; lia|].
  assert (0 ≤ apc (snd (run step front_init l)) < 256) as Ha.
  { apply (run_invariant step op_ok (λ s, 0 ≤ apc (snd s) < 256)); [apply pa_apc_step|cbn; lia|done]. }
  destruct (run step front_init l) as [a p]. cbn [fst snd] in *. split; [exact H|].
  unfold calypso_rf3166_out_dbm. case_if; [by left|right]. unfold RF3166_MAX_DBM.
  rewrite Z.quot_div_nonneg by lia. mlia.
Qed.

Lemma pa_faults_exact_witness :
  calypso_rf3166_faults (snd (run step front_init
    [Switch 0x140; Switch 0x100; Amplifier 0x102; SetApc 255; Amplifier 0x100])) = 0.
Proof.
  refine (proj2 (proj1 (pa_faults_exact
    [Switch 0x140; Switch 0x100; Amplifier 0x102; SetApc 255; Amplifier 0x100] _ _)) _);
    [repeat constructor; by vm_compute|by vm_compute|by vm_compute].
Defined.

End PA.
