(* ===== verification/ApiRam.v ===== *)
(** * The API RAM window ([include/hw/arm/calypso/calypso_api.h])

    The 64 KiB window at 0xFFD00000 through which the ARM firmware and layer 1
    exchange tasks and results: two write pages, two read pages and the NDB
    area.  It is an array of 32768 16-bit words; the map below holds the words
    that were written, the others are the zeros of [g_new0].  The layouts of
    the pages are the byte offsets of the header. *)
From stdpp Require Import gmap.
From S2P Require Import Prelude.

Module API.
Create HintDb api.
Create Rewrite HintDb api.

Definition CALYPSO_API_SIZE : Z := 0x10000.
Definition CALYPSO_API_WORDS : Z := 0x8000.

Definition API_W_PAGE (p : Z) : Z := if negb (p =? 0) then 0x0028 else 0x0000.
Definition API_R_PAGE (p : Z) : Z := if negb (p =? 0) then 0x0078 else 0x0050.
Definition API_NDB : Z := 0x01A8.

Definition WP_D_TASK_D : Z := 0x00.
Definition WP_D_BURST_D : Z := 0x02.
Definition WP_D_TASK_U : Z := 0x04.
Definition WP_D_TASK_MD : Z := 0x08.
Definition WP_D_TASK_RA : Z := 0x0E.
Definition WP_D_FN : Z := 0x10.
Definition RP_D_TASK_D : Z := 0x00.
Definition RP_D_BURST_D : Z := 0x02.
Definition RP_D_TASK_MD : Z := 0x08.
Definition RP_A_SERV_DEMOD : Z := 0x10.
Definition RP_A_PM : Z := 0x18.
Definition RP_A_SCH : Z := 0x1E.

Definition NDB_D_DSP_PAGE : Z := 0x000.
Definition NDB_D_FB_DET : Z := 0x048.
Definition NDB_A_SYNC_DEMOD : Z := 0x04C.
Definition NDB_A_DU_1 : Z := 0x134.
Definition NDB_D_A5MODE : Z := 0x1CE.
Definition NDB_A_CD : Z := 0x1FC.
Definition NDB_A_FD : Z := 0x21A.
Definition NDB_A_DD_0 : Z := 0x238.
Definition NDB_A_CU : Z := 0x264.
Definition NDB_A_FU : Z := 0x282.
Definition NDB_D_RACH : Z := 0x2CC.
Definition NDB_A_KC : Z := 0x2CE.

Definition API_BL_STATUS : Z := 0x0FFE.
Definition API_VERSION : Z := 0x01B4.
Definition API_VERSION2 : Z := 0x01B6.
Definition BL_STATUS_BOOT : Z := 0x0001.
Definition BL_STATUS_READY : Z := 0x0002.
Definition API_VERSION_VALUE : Z := 0x3606.

Definition B_GSM_PAGE : Z := 0x1.
Definition B_GSM_TASK : Z := 0x2.
Definition B_BLUD : Z := 0x8000.

Definition PM_DSP_TASK : Z := 1.
Definition SB_DSP_TASK : Z := 6.
Definition DUL_DSP_TASK : Z := 12.
Definition TCHT_DSP_TASK : Z := 13.
Definition TCHA_DSP_TASK : Z := 14.
Definition ALLC_DSP_TASK : Z := 24.
Definition TCHD_DSP_TASK : Z := 28.

Definition GSM_HYPERFRAME : Z := 2715648.
Definition GSM_TDMA_NS : Z := 4615384.

(** ** Words and bytes *)
Abbreviation ram := (gmap Z Z).

(** [api_ram[w]] and [api_ram[w] = v]. *)
Definition aget (m : ram) (w : Z) : Z := default 0 (m !! w).
Definition aset (m : ram) (w v : Z) : ram := <[w := v]> m.

(** Successive words [w[0] = v0; w[1] = v1; ...]. *)
Fixpoint aput (m : ram) (w : Z) (vs : list Z) : ram :=
  match vs with
  | [] => m
  | v :: vs => aput (aset m w v) (w + 1) vs
  end.

(** The words from [w] on. *)
Definition awords (m : ram) (w : Z) (n : nat) : list Z := aget m <$> zseq w n.

(** Byte [k] of the window on the little-endian host, read and written. *)
Definition aget8 (m : ram) (k : Z) : Z :=
  if k mod 2 =? 0 then aget m (k / 2) mod 256 else aget m (k / 2) / 256.
Definition aset8 (m : ram) (k v : Z) : ram :=
  let w := aget m (k / 2) in
  aset m (k / 2) (if k mod 2 =? 0 then w / 256 * 256 + v else v * 256 + w mod 256).

(** The bytes from [k] on. *)
Definition abytes (m : ram) (k : Z) (n : nat) : list Z := aget8 m <$> zseq k n.

(** The word indices of [api_wp], [api_rp] and [api_ndb]. *)
Definition api_wp (page off : Z) : Z := (API_W_PAGE page + off) / 2.
Definition api_rp (page off : Z) : Z := (API_R_PAGE page + off) / 2.
Definition api_ndb (off : Z) : Z := (API_NDB + off) / 2.

(** Every word is a 16-bit word. *)
Definition api_ok (m : ram) : Prop := ∀ w, 0 ≤ aget m w < 65536.

(** ** Lemmas *)
Lemma aget_aset m w v : aget (aset m w v) w = v.
Proof. unfold aget, aset. by rewrite lookup_insert_eq. Qed.

Lemma aget_aset_ne m w w' v : w ≠ w' → aget (aset m w v) w' = aget m w'.
Proof. intros H. unfold aget, aset. by rewrite lookup_insert_ne. Qed.

Lemma aget_aset_dec m w w' v : aget (aset m w v) w' = if w' =? w then v else aget m w'.
Proof.
  destruct (Z.eqb_spec w' w) as [->|H]; [apply aget_aset|apply aget_aset_ne; congruence].
Qed.
#[export] Hint Rewrite aget_aset_dec : api.

Lemma aget_aput_out m w vs k : k < w ∨ w + zlen vs ≤ k → aget (aput m w vs) k = aget m k.
Proof.
  revert m w. induction vs as [|v vs IH]; intros m w H; cbn; [done|].
  unfold zlen in *. cbn [length] in H. rewrite IH by lia. apply aget_aset_ne. lia.
Qed.

Lemma aget_aput_in m w vs k :
  w ≤ k < w + zlen vs → aget (aput m w vs) k = rd vs (k - w).
Proof.
  revert m w. induction vs as [|v vs IH]; intros m w H; unfold zlen in *; cbn [length] in H; [lia|].
  cbn [aput]. destruct (Z.eq_dec k w) as [->|Hk].
  - rewrite aget_aput_out by lia. rewrite aget_aset, Z.sub_diag. done.
  - rewrite IH by lia. unfold rd. replace (Z.to_nat (k - w)) with (S (Z.to_nat (k - (w + 1)))) by lia. done.
Qed.

Lemma awords_aput m w vs : awords (aput m w vs) w (length vs) = vs.
Proof.
  apply list_eq. intros i. unfold awords. rewrite list_lookup_fmap.
  destruct (decide (i < length vs)%nat) as [Hi|Hi].
  - rewrite lookup_zseq by done. cbn. rewrite aget_aput_in by (unfold zlen; lia).
    unfold rd. replace (Z.to_nat (w + Z.of_nat i - w)) with i by lia.
    destruct (lookup_lt_is_Some_2 vs i Hi) as [x Hx]. by rewrite Hx.
  - rewrite (lookup_ge_None_2 vs) by lia.
    rewrite (lookup_ge_None_2 (zseq _ _)) by (rewrite length_zseq; lia). done.
Qed.

Lemma api_ok_empty : api_ok ∅.
Proof. intros w. unfold aget. rewrite lookup_empty. cbn. lia. Qed.

Lemma api_ok_aset m w v : api_ok m → 0 ≤ v < 65536 → api_ok (aset m w v).
Proof. intros H Hv k. rewrite aget_aset_dec. destruct (k =? w); [done|apply H]. Qed.

Lemma api_ok_aput m w vs : api_ok m → Forall (λ v, 0 ≤ v < 65536) vs → api_ok (aput m w vs).
Proof.
  intros Hm Hv. revert m w Hm. induction Hv; intros m w Hm; cbn; [done|].
  apply IHHv. by apply api_ok_aset.
Qed.

Lemma aget8_range m k : api_ok m → 0 ≤ aget8 m k < 256.
Proof. intros H. unfold aget8. specialize (H (k / 2)). case_if; mlia. Qed.

Lemma api_ok_aset8 m k v : api_ok m → 0 ≤ v < 256 → api_ok (aset8 m k v).
Proof. intros H Hv. apply api_ok_aset; [done|]. specialize (H (k / 2)). case_if; mlia. Qed.
#[export] Hint Resolve api_ok_empty api_ok_aset api_ok_aput aget8_range api_ok_aset8 : api.

(** A byte store changes one byte and no other. *)
Lemma aget8_aset8 m k v k' :
  0 ≤ v < 256 → api_ok m → aget8 (aset8 m k v) k' = if k' =? k then v else aget8 m k'.
Proof.
  intros Hv Hm. unfold aget8, aset8. specialize (Hm (k / 2)). rewrite aget_aset_dec.
  destruct (Z.eqb_spec k' k) as [->|Hk].
  - rewrite Z.eqb_refl. case_if; mlia.
  - destruct (Z.eqb_spec (k' / 2) (k / 2)) as [E|]; [|done]. rewrite E.
    case_ifs; mlia.
Qed.

End API.
