(* ===== verification/Elf.v ===== *)
(** * Symbols of the firmware image

    [calypso_firmware_symbol] of [calypso_l1_dispatch.c] and its twin
    [elf_symbol] of [l1-grgsm/calypso_l1_grgsm.c] look a name up in the symbol
    table of the ELF32 file given to [-kernel].  The file is a list of bytes
    loaded in a heap block of exactly that size; a read outside the block is
    undefined behaviour in C and the outcome [OutOfBounds] here.  Offsets are
    [uint32_t] and wrap. *)
From stdpp Require Import strings.
From S2P Require Import Prelude Cstr.

Module ELF.

Inductive outcome :=
  | Value (v : Z)
  | OutOfBounds
  | OutOfFuel.

(** ** Reads in the block *)
Definition b8 (b : list Z) (i : Z) : option Z :=
  if (0 <=? i) && (i <? zlen b) then b !! Z.to_nat i else None.

(** The macros [R16] and [R32]: the offset is a [uint32_t] expression. *)
Definition R16 (b : list Z) (o : Z) : option Z :=
  lo ← b8 b (u32 o); hi ← b8 b (u32 (o + 1)); Some (Z.lor lo (Z.shiftl hi 8)).
Definition R32 (b : list Z) (o : Z) : option Z :=
  lo ← R16 b o; hi ← R16 b (o + 2); Some (Z.lor lo (Z.shiftl hi 16)).

(** [!strcmp(b + i, want)] where [want] has no NUL: the bytes are read one at a
    time up to the first difference. *)
Fixpoint strcmp_at (b : list Z) (i : Z) (want : list Z) : option bool :=
  c ← b8 b i;
  match want with
  | [] => Some (c =? 0)
  | w :: want => if c =? w then strcmp_at b (i + 1) want else Some false
  end.

(** ** The loops *)
Section lookup.
  Context (b want : list Z).

Let sz : Z := zlen b.

Definition defined {A} (x : option A) (k : A → outcome) : outcome :=
  match x with Some a => k a | None => OutOfBounds end.

(** [for (o = 0; o + 16 <= symsz && (long)(symoff + o + 16) <= sz; o += entsz)]. *)
Fixpoint sym_loop (fuel : nat) (symoff symsz entsz stroff strsz o : Z) : outcome :=
  match fuel with
  | O => OutOfFuel
  | S fuel =>
      if (u32 (o + 16) <=? symsz) && (u32 (symoff + o + 16) <=? sz) then
        defined (R32 b (symoff + o)) (λ ni,
        let next := sym_loop fuel symoff symsz entsz stroff strsz (u32 (o + entsz)) in
        if ni <? strsz then
          defined (strcmp_at b (stroff + ni) want) (λ found,
          if found : bool then defined (R32 b (symoff + o + 4)) Value else next)
        else next)
      else Value 0
  end.

(** Enough turns for every table: an entry at least one byte away from the
    previous one, inside the file. *)
Definition sym_fuel : nat := S (S (Z.to_nat sz)).

(** The body of the section loop for a section header of type [SHT_SYMTAB]. *)
Definition symtab (shoff shent sh : Z) : outcome :=
  defined (R32 b (sh + 0x10)) (λ symoff,
  defined (R32 b (sh + 0x14)) (λ symsz,
  defined (R32 b (sh + 0x18)) (λ link,
  defined (R32 b (sh + 0x24)) (λ entsz,
  let strsh := u32 (shoff + link * shent) in
  if (sz <? u32 (strsh + 40)) || (entsz <? 16) then Value 0
  else
    defined (R32 b (strsh + 0x10)) (λ stroff,
    defined (R32 b (strsh + 0x14)) (λ strsz,
    sym_loop sym_fuel symoff symsz entsz stroff strsz 0)))))).

(** [for (si = 0; si < shnum; si++)], [n] headers to go. *)
Fixpoint sect_loop (n : nat) (shoff shent si : Z) : outcome :=
  match n with
  | O => Value 0
  | S n =>
      let sh := u32 (shoff + si * shent) in
      if sz <? u32 (sh + 40) then Value 0
      else
        defined (R32 b (sh + 4)) (λ type,
        if negb (type =? 2) then sect_loop n shoff shent (si + 1) else symtab shoff shent sh)
  end.

Definition is_elf32 : bool :=
  (rd b 0 =? 0x7f) && (rd b 1 =? 0x45) && (rd b 2 =? 0x4c) && (rd b 3 =? 0x46) && (rd b 4 =? 1).

(** The symbol in an image that was read whole. *)
Definition elf_symbol : outcome :=
  if (sz <? 52) || (Z.shiftl 64 20 <? sz) then Value 0
  else if is_elf32 then
    defined (R32 b 0x20) (λ shoff,
    defined (R16 b 0x2e) (λ shent,
    defined (R16 b 0x30) (λ shnum,
    sect_loop (Z.to_nat shnum) shoff shent 0)))
  else Value 0.

End lookup.

(** [calypso_firmware_symbol]: no file name, or a file that cannot be opened,
    gives 0. *)
Definition calypso_firmware_symbol (elf : option (list Z)) (want : list Z) : outcome :=
  match elf with
  | None => Value 0
  | Some b => elf_symbol b want
  end.
(** ** The look-up ends *)
(** An entry inside the file, as a signed step from the previous one. *)
Lemma next_entry x entsz sz :
  0 ≤ sz ≤ 67108864 → 0 ≤ entsz < 4294967296 → u32 x ≤ sz → u32 (x + entsz) ≤ sz →
  u32 (x + entsz) = u32 x + i32 entsz.
Proof. unfold u32, i32. intros. mlia. Qed.

Lemma sym_loop_ends b want symoff symsz entsz stroff strsz fuel o :
  zlen b ≤ Z.shiftl 64 20 → 16 ≤ entsz < 4294967296 → (0 < fuel)%nat →
  (let p := u32 (symoff + o + 16) in
   p ≤ zlen b → (0 < i32 entsz → zlen b - p + 1 < Z.of_nat fuel) ∧ (i32 entsz < 0 → p + 1 < Z.of_nat fuel)) →
  sym_loop b want fuel symoff symsz entsz stroff strsz o ≠ OutOfFuel.
Proof.
  intros Hsz He. change (Z.shiftl 64 20) with 67108864 in Hsz. revert o.
  induction fuel as [|fuel IH]; intros o Hf Hp; [lia|]. cbn zeta in Hp.
  cbn [sym_loop]. destruct (_ && _) eqn:E; [|done]. bool_prop.
  destruct (Hp ltac:(done)) as [Hup Hdn]. clear Hp.
  pose proof (u32_range (symoff + o + 16)).
  assert (i32 entsz ≠ 0) as Hd by (unfold i32; mlia).
  assert (sym_loop b want fuel symoff symsz entsz stroff strsz (u32 (o + entsz)) ≠ OutOfFuel) as Hnext.
  { apply IH; [lia|]. cbn zeta.
    replace (u32 (symoff + u32 (o + entsz) + 16)) with (u32 (symoff + o + 16 + entsz)) by (unfold u32; mlia).
    pose proof (u32_range (symoff + o + 16 + entsz)).
    intros Hp'. rewrite (next_entry _ _ (zlen b)) in * by (unfold zlen in *; lia). lia. }
  destruct (R32 b (symoff + o)) as [ni|]; cbn [defined]; [|done].
  cbn zeta. destruct (ni <? strsz); [|exact Hnext].
  destruct (strcmp_at b (stroff + ni) want) as [[]|]; cbn [defined]; [|exact Hnext|discriminate].
  destruct (R32 b (symoff + o + 4)); discriminate.
Qed.

Lemma b8_range b i v : Forall (λ x, 0 ≤ x < 256) b → b8 b i = Some v → 0 ≤ v < 256.
Proof.
  intros Hb. unfold b8. destruct (_ && _); [|done]. rewrite Forall_lookup in Hb. apply Hb.
Qed.

Lemma R16_range b o v : Forall (λ x, 0 ≤ x < 256) b → R16 b o = Some v → 0 ≤ v < 65536.
Proof.
  intros Hb H. apply bind_Some in H as (lo & Hlo & H). apply bind_Some in H as (hi & Hhi & [= <-]).
  apply b8_range in Hlo, Hhi; [|done..].
  apply (lor_range 16); [lia|lia|]. rewrite Z.shiftl_mul_pow2 by lia. lia.
Qed.

Lemma R32_range b o v : Forall (λ x, 0 ≤ x < 256) b → R32 b o = Some v → 0 ≤ v < 4294967296.
Proof.
  intros Hb H. apply bind_Some in H as (lo & Hlo & H). apply bind_Some in H as (hi & Hhi & [= <-]).
  apply R16_range in Hlo, Hhi; [|done..].
  apply (lor_range 32); [lia|lia|]. rewrite Z.shiftl_mul_pow2 by lia. lia.
Qed.

Ltac defined_case :=
  match goal with
  | |- context [defined ?x _] =>
      let E := fresh "R" in destruct x eqn:E; cbn [defined]; [|done]
  end.

(** The look-up terminates on every file of bytes, well formed or not: the
    entries it visits stay inside the file and move by a constant non-null
    step, so it visits fewer of them than the file has bytes. *)
Theorem elf_symbol_terminates b want :
  Forall (λ x, 0 ≤ x < 256) b → elf_symbol b want ≠ OutOfFuel.
Proof.
  intros Hb. unfold elf_symbol. destruct (_ || _) eqn:Hsz; [done|]. bool_prop.
  destruct (is_elf32 b); [|done]. do 3 defined_case.
  generalize (Z.to_nat z1), 0. intros n. induction n as [|n IH]; intros si; [done|].
  cbn [sect_loop]. case_if; [done|]. defined_case. case_if; [apply IH|].
  unfold symtab. do 4 defined_case. case_if; [done|]. bool_prop. do 2 defined_case.
  apply R32_range in R6; [|done]. apply sym_loop_ends; [done|lia|unfold sym_fuel; lia|].
  cbn zeta. pose proof (u32_range (z3 + 0 + 16)). unfold sym_fuel. lia.
Qed.

(** ** What the look-up returns *)

(** The 32-bit and 16-bit words of an image, at an offset inside it. *)
Definition word (b : list Z) (o : Z) : Z := default 0 (R32 b o).
Definition half (b : list Z) (o : Z) : Z := default 0 (R16 b o).

(** The string at an offset. *)
Definition name_at (b : list Z) (i : Z) : list Z := cstr (drop (Z.to_nat i) b).

(** The entries (name offset, value) of a table of [n] 16-byte entries. *)
Definition symbols (b : list Z) (symoff : Z) (n : nat) : list (Z * Z) :=
  (λ i, (word b (symoff + 16 * i), word b (symoff + 16 * i + 4))) <$> zseq 0 n.

(** The value of the first entry of that name, 0 if there is none. *)
Definition symbol_value (b want : list Z) (stroff strsz : Z) (l : list (Z * Z)) : Z :=
  match find (λ e, (fst e <? strsz) && streq (name_at b (stroff + fst e)) want) l with
  | Some e => snd e
  | None => 0
  end.

(** An image whose first symbol table, section [k], has [n] entries of 16 bytes
    and names in a string table that ends with a NUL; tables inside the file. *)
Record image (b : list Z) (k n : nat) (symoff stroff strsz : Z) : Prop := {
  im_size : 52 ≤ zlen b ≤ Z.shiftl 64 20;
  im_ident : is_elf32 b = true;
  im_headers : word b 0x20 + Z.of_nat k * half b 0x2e + 40 ≤ zlen b;
  im_count : Z.of_nat k < half b 0x30;
  im_before : ∀ i, 0 ≤ i < Z.of_nat k → word b (word b 0x20 + i * half b 0x2e + 4) ≠ 2;
  im_symtab :
    let sh := word b 0x20 + Z.of_nat k * half b 0x2e in
    let strsh := word b 0x20 + word b (sh + 0x18) * half b 0x2e in
    word b (sh + 4) = 2 ∧ word b (sh + 0x10) = symoff ∧ word b (sh + 0x14) = 16 * Z.of_nat n ∧
    word b (sh + 0x24) = 16 ∧ strsh + 40 ≤ zlen b ∧
    word b (strsh + 0x10) = stroff ∧ word b (strsh + 0x14) = strsz;
  im_symbols : 0 ≤ symoff ∧ symoff + 16 * Z.of_nat n ≤ zlen b;
  im_strings : 0 ≤ stroff ∧ 0 < strsz ∧ stroff + strsz ≤ zlen b ∧ rd b (stroff + strsz - 1) = 0
}.

Lemma b8_in b i : 0 ≤ i < zlen b → b8 b i = Some (rd b i).
Proof.
  intros H. unfold b8, rd, zlen in *. destruct (Z.leb_spec 0 i), (Z.ltb_spec i (Z.of_nat (length b))); try lia. cbn [andb].
  destruct (lookup_lt_is_Some_2 b (Z.to_nat i)) as [x ->]; [lia|done].
Qed.

Lemma R16_in b o : zlen b < 4294967296 → 0 ≤ o → o + 2 ≤ zlen b → R16 b o = Some (half b o).
Proof.
  intros Hb Ho Hs. unfold half. unfold R16. rewrite !u32_small, !b8_in by lia. done.
Qed.

Lemma R32_in b o : zlen b < 4294967296 → 0 ≤ o → o + 4 ≤ zlen b → R32 b o = Some (word b o).
Proof.
  intros Hb Ho Hs. unfold word. unfold R32. rewrite !R16_in by lia. done.
Qed.

(** [strcmp] against a string that ends inside the block. *)
Lemma strcmp_at_spec b i j want :
  0 ≤ i ≤ j → j < zlen b → rd b j = 0 → Forall (λ c, c ≠ 0) want →
  strcmp_at b i want = Some (streq (name_at b i) want).
Proof.
  intros Hi Hj H0 Hw. revert i Hi. induction Hw as [|w want Hw0 Hw IH]; intros i Hi; cbn [strcmp_at];
    rewrite b8_in by lia; cbn [mbind option_bind];
    unfold name_at; rewrite (drop_S b (rd b i)) by
      (unfold rd, zlen in *; destruct (lookup_lt_is_Some_2 b (Z.to_nat i)) as [x ->]; [lia|done]);
    cbn [cstr]; unfold streq.
  - destruct (Z.eqb_spec (rd b i) 0) as [E|E].
    + by rewrite bool_decide_eq_true_2.
    + by rewrite bool_decide_eq_false_2.
  - destruct (Z.eqb_spec (rd b i) w) as [E|E].
    + destruct (Z.eqb_spec (rd b i) 0); [congruence|].
      rewrite IH by (destruct (Z.eq_dec i j); [congruence|lia]). unfold streq, name_at.
      replace (Z.to_nat (i + 1)) with (S (Z.to_nat i)) by lia. f_equal.
      apply bool_decide_ext. split; congruence.
    + rewrite bool_decide_eq_false_2; [done|]. destruct (Z.eqb_spec (rd b i) 0); congruence.
Qed.

(** The loop over the entries from [i] on. *)
Lemma sym_loop_spec b want symoff stroff strsz n m fuel i :
  zlen b ≤ 67108864 → 0 ≤ symoff → 0 ≤ i → i + Z.of_nat m = Z.of_nat n → symoff + 16 * Z.of_nat n ≤ zlen b →
  0 ≤ stroff → 0 < strsz → stroff + strsz ≤ zlen b → rd b (stroff + strsz - 1) = 0 →
  Forall (λ x, 0 ≤ x < 256) b → Forall (λ c, c ≠ 0) want → (m < fuel)%nat →
  sym_loop b want fuel symoff (16 * Z.of_nat n) 16 stroff strsz (16 * i) =
    Value (symbol_value b want stroff strsz
             ((λ i, (word b (symoff + 16 * i), word b (symoff + 16 * i + 4))) <$> zseq i m)).
Proof.
  intros Hb Hso Hi Hm Hn Hstr Hsz Hend Hnul Hbytes Hw. revert i m Hi Hm.
  induction fuel as [|fuel IH]; intros i m Hi Hm Hf; [lia|]. cbn [sym_loop].
  rewrite !u32_small by lia. destruct m as [|m].
  - destruct (Z.leb_spec (16 * i + 16) (16 * Z.of_nat n)); [lia|]. done.
  - destruct (Z.leb_spec (16 * i + 16) (16 * Z.of_nat n)); [|lia].
    destruct (Z.leb_spec (symoff + 16 * i + 16) (zlen b)); [|lia]. cbn [andb].
    rewrite R32_in by lia. cbn [defined]. cbn zeta.
    assert (0 ≤ word b (symoff + 16 * i)).
    { eapply (R32_range b (symoff + 16 * i)); [done|]. apply R32_in; lia. }
    replace (16 * i + 16) with (16 * (i + 1)) by lia.
    rewrite (IH (i + 1) m) by lia. rewrite zseq_cons. cbn [fmap list_fmap]. unfold symbol_value.
    cbn [find fst]. destruct (Z.ltb_spec (word b (symoff + 16 * i)) strsz); [|reflexivity].
    rewrite (strcmp_at_spec b _ (stroff + strsz - 1)) by (done || lia). cbn [defined andb].
    destruct (streq _ _); [|reflexivity]. rewrite R32_in by lia. reflexivity.
Qed.

(** The section loop stops at the first symbol table. *)
Lemma sect_loop_spec b want k m i :
  Forall (λ x, 0 ≤ x < 256) b → zlen b ≤ 67108864 → 0 ≤ i ≤ Z.of_nat k → i + Z.of_nat m > Z.of_nat k →
  word b 0x20 + Z.of_nat k * half b 0x2e + 40 ≤ zlen b → 0 ≤ word b 0x20 → 0 ≤ half b 0x2e →
  (∀ j, i ≤ j < Z.of_nat k → word b (word b 0x20 + j * half b 0x2e + 4) ≠ 2) →
  word b (word b 0x20 + Z.of_nat k * half b 0x2e + 4) = 2 →
  sect_loop b want m (word b 0x20) (half b 0x2e) i =
    symtab b want (word b 0x20) (half b 0x2e) (word b 0x20 + Z.of_nat k * half b 0x2e).
Proof.
  intros Hb Hsz Hi Hm Hk H20 H2e Hbefore H2. revert i Hi Hm Hbefore.
  induction m as [|m IH]; intros i Hi Hm Hbefore; [lia|]. cbn [sect_loop].
  assert (0 ≤ i * half b 0x2e ≤ Z.of_nat k * half b 0x2e) by nia.
  rewrite (u32_small (_ + i * _)), u32_small by lia. destruct (Z.ltb_spec (zlen b) (word b 0x20 + i * half b 0x2e + 40)); [lia|].
  rewrite R32_in by lia. cbn [defined]. destruct (Z.eq_dec i (Z.of_nat k)) as [->|Hne].
  - by rewrite H2.
  - destruct (Z.eqb_spec (word b (word b 0x20 + i * half b 0x2e + 4)) 2) as [E|E].
    { by destruct (Hbefore i ltac:(lia)). }
    cbn [negb]. apply IH; [lia..|]. intros j Hj. apply Hbefore. lia.
Qed.

(** on a well-formed image the look-up is defined (no read outside the file)
    and returns the value of the first symbol of that name in the first symbol
    table, 0 when there is none. *)
Theorem elf_symbol_spec b want k n symoff stroff strsz :
  Forall (λ x, 0 ≤ x < 256) b → Forall (λ c, c ≠ 0) want → image b k n symoff stroff strsz →
  calypso_firmware_symbol (Some b) want =
    Value (symbol_value b want stroff strsz (symbols b symoff n)).
Proof.
  intros Hb Hw [[Hs1 Hs2] Hid Hk Hc Hbefore (H2 & E1 & E2 & E4 & Hsh & E5 & E6) [Hso Hsn] (Hst & Hz & Hend & Hnul)].
  cbn [calypso_firmware_symbol]. unfold elf_symbol. change (Z.shiftl 64 20) with 67108864 in *.
  destruct (Z.ltb_spec (zlen b) 52); [lia|]. destruct (Z.ltb_spec 67108864 (zlen b)); [lia|].
  cbn [orb]. rewrite Hid, (R32_in b 0x20), !R16_in by lia. cbn [defined].
  assert (0 ≤ word b 0x20) by (eapply (R32_range b 0x20); [done|]; apply R32_in; lia).
  assert (0 ≤ half b 0x2e) by (eapply (R16_range b 0x2e); [done|]; apply R16_in; lia).
  rewrite (sect_loop_spec b want k) by (done || lia). unfold symtab. cbn zeta in *.
  set (sh := word b 0x20 + Z.of_nat k * half b 0x2e) in *.
  assert (0 ≤ sh) by (unfold sh; nia). rewrite !(R32_in b (sh + _)) by lia. cbn [defined].
  rewrite E1, E2, E4.
  assert (0 ≤ word b (sh + 0x18)) by (eapply (R32_range b (sh + 0x18)); [done|]; apply R32_in; lia).
  set (strsh := word b 0x20 + word b (sh + 0x18) * half b 0x2e) in *.
  assert (0 ≤ strsh) by (unfold strsh; nia). rewrite (u32_small strsh), u32_small by lia.
  destruct (Z.ltb_spec (zlen b) (strsh + 40)); [lia|]. change (16 <? 16) with false. cbn [orb].
  rewrite !(R32_in b (strsh + _)) by lia. cbn [defined]. rewrite E5, E6.
  unfold symbols. apply (sym_loop_spec b want symoff stroff strsz n n (sym_fuel b) 0); try done; try lia.
  unfold sym_fuel. unfold zlen in *. lia.
Qed.

(** A 219-byte image: header, the null section, a symbol table of two entries
    ([l1s] at 0x820000 and [last_rach] at 0x820010) and their names. *)
Definition small_image : list Z :=
  [0x7f; 0x45; 0x4c; 0x46; 1] ++ replicate 27 0 ++ le32 52 ++ replicate 10 0 ++
  [40; 0; 3; 0; 0; 0] ++
  replicate 40 0 ++
  le32 0 ++ le32 2 ++ le32 0 ++ le32 0 ++ le32 172 ++ le32 32 ++ le32 2 ++ le32 0 ++ le32 0 ++ le32 16 ++
  le32 0 ++ le32 3 ++ le32 0 ++ le32 0 ++ le32 204 ++ le32 15 ++ le32 0 ++ le32 0 ++ le32 0 ++ le32 0 ++
  le32 1 ++ le32 0x820000 ++ le32 4 ++ le32 0 ++ le32 5 ++ le32 0x820010 ++ le32 4 ++ le32 0 ++
  [0] ++ str "l1s" ++ [0] ++ str "last_rach" ++ [0].

Lemma small_image_ok : image small_image 1 2 172 204 15.
Proof.
  split.
  - split; vm_compute; discriminate.
  - vm_compute. reflexivity.
  - vm_compute. discriminate.
  - vm_compute. reflexivity.
  - intros i Hi. replace i with 0 by lia. vm_compute. discriminate.
  - cbn zeta. repeat split; vm_compute; congruence.
  - split; vm_compute; discriminate.
  - repeat split; vm_compute; congruence.
Qed.

Lemma elf_symbol_spec_witness :
  calypso_firmware_symbol (Some small_image) (str "last_rach") =
    Value (symbol_value small_image (str "last_rach") 204 15 (symbols small_image 172 2)) ∧
  calypso_firmware_symbol (Some small_image) (str "last_rach") = Value 0x820010.
Proof.
  split; [|vm_compute; reflexivity].
  apply (elf_symbol_spec small_image (str "last_rach") 1 2 172 204 15).
  - apply (bool_decide_unpack _). vm_compute. exact I.
  - apply (bool_decide_unpack _). vm_compute. exact I.
  - exact small_image_ok.
Defined.

(** The bounds test of the section loop adds 40 in 32 bits: in this 52-byte file
    the section headers are said to start at 0xFFFFFFF0, the sum wraps to 24,
    the test passes and the type field is read four gigabytes past the block. *)
Definition wrapping_image : list Z :=
  [0x7f; 0x45; 0x4c; 0x46; 1] ++ replicate 27 0 ++ le32 0xFFFFFFF0 ++ replicate 10 0 ++ [40; 0; 1; 0; 0; 0].

Theorem elf_symbol_out_of_bounds :
  zlen wrapping_image = 52 ∧ Forall (λ x, 0 ≤ x < 256) wrapping_image ∧
  calypso_firmware_symbol (Some wrapping_image) (str "l1s") = OutOfBounds.
Proof.
  split; [reflexivity|]. split; [|vm_compute; reflexivity].
  apply (bool_decide_unpack _). vm_compute. exact I.
Qed.

End ELF.
