(* ===== verification/L1Ops.v ===== *)
(** * The seam between the platform and layer 1

    [include/hw/arm/calypso/calypso_l1_ops.h] declares the table of functions a
    layer 1 registers, [calypso_l1_dispatch.c] the accessors the platform calls:
    with no layer 1, or an entry left out, they are inert.  A layer 1 acts on
    the API RAM and on a state of its own type; what it reads of the rest of
    the machine (frame counter, synthesizer, ARM memory, files of the bench) is
    the record [World].

    [L1Laws] is what the platform may rely on: the invariant of the layer 1 and
    the 16-bit width of the API words are kept, and the words written stay in
    the area layer 1 owns. *)
From stdpp Require Import gmap strings.
From S2P Require Import Prelude ApiRam Rf DcchTap.
Import API TRF6151.

Module L1OPS.

(** What layer 1 reads of the machine. *)
Record World := mkWorld {
  w_fn : Z;                              (* calypso_trx_get_fn() *)
  w_trf : Trf;                           (* the synthesizer *)
  w_arm32 : Z → Z;                       (* a 32-bit word of ARM memory *)
  w_file : string → option (list Z);     (* a file that can be read *)
  w_writable : string → bool;            (* a file that can be opened for writing *)
  w_pwrite : string → bool               (* a write to it succeeds *)
}.

Record CalypsoL1Ops (L : Type) := mkOps {
  name : option string;
  init : option (option (list Z) → L → L);
  frame_tick : option (World → ram * L → ram * L);
  api_read_override : option (World → ram * L → Z → option Z * (ram * L));
  si_valid : option (ram * L → bool);
  l1s_fn : option (World → ram * L → Z);
  burst_written : option (World → ram * L → Z → ram * L);
  rach_written : option (World → ram * L → Z → Z → ram * L);
  page_written : option (World → ram * L → Z → ram * L);
  api_write_observed : option (World → ram * L → Z → Z → Z → ram * L);
  uart_tx_byte : option (World → ram * L → Z → ram * L)
}.
Arguments mkOps {L}.
Arguments name {L}.
Arguments init {L}.
Arguments frame_tick {L}.
Arguments api_read_override {L}.
Arguments si_valid {L}.
Arguments l1s_fn {L}.
Arguments burst_written {L}.
Arguments rach_written {L}.
Arguments page_written {L}.
Arguments api_write_observed {L}.
Arguments uart_tx_byte {L}.

Section dispatch.
  Context {L : Type} (l1 : option (CalypsoL1Ops L)).
  Implicit Types (x : ram * L).

(** The static pointer [l1] after a registration (the last one wins), and after
    [calypso_l1_disable]. *)
Definition calypso_l1_register (ops : option (CalypsoL1Ops L)) : option (CalypsoL1Ops L) := ops.
Definition calypso_l1_disable : option (CalypsoL1Ops L) := None.

Definition calypso_l1_name : string := default "aucune"%string (l1 ≫= name).

(** [CALYPSO_DSP_EXTERN] non-empty disables layer 1 before it is initialised. *)
Definition calypso_l1_do_init (dsp_extern : option string) (elf : option (list Z)) (l : L) :
    option (CalypsoL1Ops L) * L :=
  match dsp_extern with
  | Some (String.String _ _) => (calypso_l1_disable, l)
  | _ => (l1, match l1 ≫= init with Some f => f elf l | None => l end)
  end.

Definition calypso_l1_do_frame_tick (w : World) x : ram * L :=
  match l1 ≫= frame_tick with Some f => f w x | None => x end.

Definition calypso_l1_do_api_read_override (w : World) x (off : Z) : option Z * (ram * L) :=
  match l1 ≫= api_read_override with Some f => f w x off | None => (None, x) end.

Definition calypso_l1_do_si_valid x : bool :=
  match l1 ≫= si_valid with Some f => f x | None => false end.

Definition calypso_l1_do_l1s_fn (w : World) x : Z :=
  match l1 ≫= l1s_fn with Some f => f w x | None => w_fn w end.

Definition calypso_l1_do_burst_written (w : World) x (d_burst_d : Z) : ram * L :=
  match l1 ≫= burst_written with Some f => f w x d_burst_d | None => x end.

Definition calypso_l1_do_rach_written (w : World) x (d_rach fn : Z) : ram * L :=
  match l1 ≫= rach_written with Some f => f w x d_rach fn | None => x end.

Definition calypso_l1_do_page_written (w : World) x (d_dsp_page : Z) : ram * L :=
  match l1 ≫= page_written with Some f => f w x d_dsp_page | None => x end.

Definition calypso_l1_do_api_write_observed (w : World) x (off val size : Z) : ram * L :=
  match l1 ≫= api_write_observed with Some f => f w x off val size | None => x end.

(** Without a layer 1 that wants it, the byte goes to the bridge tap. *)
Definition calypso_l1_do_uart_tx_byte (shm_ok : Z → bool) (w : World) x (tap : DCCH_TAP.Tap) (ch : Z) :
    (ram * L) * DCCH_TAP.Tap :=
  match l1 ≫= uart_tx_byte with
  | Some f => (f w x ch, tap)
  | None => (x, DCCH_TAP.calypso_dcch_tap_tx_byte shm_ok tap ch)
  end.
End dispatch.

(** ** What a layer 1 promises *)

(** The words a layer 1 may write: the two read pages and the NDB area up to the
    ciphering key; not the write pages of the ARM nor the bootloader words. *)
Definition l1_area (w : Z) : Prop := 0x28 ≤ w < 0x50 ∨ 0xD4 ≤ w < 0x23B.

(** The ranges of what layer 1 reads. *)
Record world_ok (w : World) : Prop := {
  wo_fn : 0 ≤ w_fn w < GSM_HYPERFRAME;
  wo_arm32 : ∀ a, 0 ≤ w_arm32 w a < 4294967296;
  wo_file : ∀ p b, w_file w p = Some b → Forall (λ x, 0 ≤ x < 256) b
}.

Section laws.
  Context {L : Type} (I : L → Prop).

(** A state of the layer 1 with well-formed API RAM. *)
Definition sound (x : ram * L) : Prop := api_ok (fst x) ∧ I (snd x).

(** A step keeps the invariant and writes its own area only. *)
Definition step_ok (x y : ram * L) : Prop :=
  sound y ∧ ∀ w, ¬ l1_area w → aget (fst y) w = aget (fst x) w.

Lemma step_ok_refl x : sound x → step_ok x x.
Proof. done. Qed.

Lemma step_ok_trans x y z : step_ok x y → step_ok y z → step_ok x z.
Proof. intros [_ H1] [Hz H2]. split; [done|]. intros w Hw. rewrite H2, H1; done. Qed.
End laws.

Class L1Laws {L : Type} (ops : CalypsoL1Ops L) (I : L → Prop) := {
  law_frame_tick f w x : frame_tick ops = Some f → world_ok w → sound I x → step_ok I x (f w x);
  law_override f w x off :
    api_read_override ops = Some f → world_ok w → sound I x →
    step_ok I x (snd (f w x off)) ∧ (∀ v, fst (f w x off) = Some v → 0 ≤ v < 65536);
  law_l1s_fn f w x : l1s_fn ops = Some f → world_ok w → sound I x → 0 ≤ f w x < 4294967296;
  law_burst f w x v : burst_written ops = Some f → world_ok w → sound I x → 0 ≤ v < 65536 → step_ok I x (f w x v);
  law_rach f w x v fn :
    rach_written ops = Some f → world_ok w → sound I x → 0 ≤ v < 65536 → 0 ≤ fn < 4294967296 →
    step_ok I x (f w x v fn);
  law_page f w x v : page_written ops = Some f → world_ok w → sound I x → 0 ≤ v < 65536 → step_ok I x (f w x v);
  law_observed f w x off v size :
    api_write_observed ops = Some f → world_ok w → sound I x → 0 ≤ v < 65536 → step_ok I x (f w x off v size);
  law_uart f w x ch : uart_tx_byte ops = Some f → world_ok w → sound I x → 0 ≤ ch < 256 → step_ok I x (f w x ch)
}.

(** The accessors keep the laws, with or without a layer 1. *)
Section accessors.
  Context {L : Type} (l1 : option (CalypsoL1Ops L)) (I : L → Prop).
  Context (laws : ∀ ops, l1 = Some ops → L1Laws ops I).
  Context (w : World) (x : ram * L) (Hw : world_ok w) (Hx : sound I x).

Local Ltac accessor law :=
    unfold calypso_l1_do_frame_tick, calypso_l1_do_api_read_override, calypso_l1_do_l1s_fn,
      calypso_l1_do_burst_written, calypso_l1_do_rach_written, calypso_l1_do_page_written,
      calypso_l1_do_api_write_observed;
    match goal with
    | |- context [l1 ≫= ?field] =>
        destruct l1 as [ops|]; cbn [mbind option_bind]; [|try done];
        destruct (field ops) eqn:E; [|try done];
        pose proof (laws ops eq_refl); by eapply law
    end.

Lemma do_frame_tick_ok : step_ok I x (calypso_l1_do_frame_tick l1 w x).
Proof using laws Hw Hx. accessor @law_frame_tick. Qed.

Lemma do_override_ok off :
  step_ok I x (snd (calypso_l1_do_api_read_override l1 w x off)) ∧
  (∀ v, fst (calypso_l1_do_api_read_override l1 w x off) = Some v → 0 ≤ v < 65536).
Proof using laws Hw Hx. accessor @law_override. Qed.

Lemma do_l1s_fn_ok : 0 ≤ calypso_l1_do_l1s_fn l1 w x < 4294967296.
Proof using laws Hw Hx.
  pose proof (wo_fn w Hw). unfold GSM_HYPERFRAME in *.
  unfold calypso_l1_do_l1s_fn. destruct l1 as [ops|]; cbn [mbind option_bind]; [|lia].
  destruct (l1s_fn ops) eqn:E; [|lia]. pose proof (laws ops eq_refl). by eapply law_l1s_fn.
Qed.

Lemma do_burst_ok v : 0 ≤ v < 65536 → step_ok I x (calypso_l1_do_burst_written l1 w x v).
Proof using laws Hw Hx. intros Hv. accessor @law_burst. Qed.

Lemma do_rach_ok v fn :
  0 ≤ v < 65536 → 0 ≤ fn < 4294967296 → step_ok I x (calypso_l1_do_rach_written l1 w x v fn).
Proof using laws Hw Hx. intros Hv Hfn. accessor @law_rach. Qed.

Lemma do_page_ok v : 0 ≤ v < 65536 → step_ok I x (calypso_l1_do_page_written l1 w x v).
Proof using laws Hw Hx. intros Hv. accessor @law_page. Qed.

Lemma do_observed_ok off v size :
  0 ≤ v < 65536 → step_ok I x (calypso_l1_do_api_write_observed l1 w x off v size).
Proof using laws Hw Hx. intros Hv. accessor @law_observed. Qed.
End accessors.

End L1OPS.
