(* ===== verification/Trx.v ===== *)
(** * The transceiver: state and environment ([calypso_trx.c])

    [calypso_trx.c] holds the API RAM window, the TPU/TSP/ULPD register files,
    the TDMA clock of the machine and the bridge to an external DSP.  Its state
    [CalypsoTRX] is the C structure (the static variables of its functions
    included) together with the TPU sequencer it drives; the timers are the
    deadlines they are armed for.

    What the code asks the outside world in one call is an [Env] (clocks,
    run state, socket, interrupt controller), its configuration variables a
    [Cfg]; what it does to other components is appended to [events]. *)
From stdpp Require Import gmap strings.
From S2P Require Import Prelude Ring FreeRing ApiRam Elf L1Ops Rf Cstr.
Import API.

Module TRX.

#[export] Existing Instance TPU.seq_eta.

Definition CALYPSO_IRQ_TPU_FRAME : Z := 4.
Definition CALYPSO_IRQ_API : Z := 15.
Definition CALYPSO_TPU_SIZE : Z := 0x0100.
Definition CALYPSO_TPU_RAM_SIZE : Z := 0x0800.
Definition CALYPSO_TSP_SIZE : Z := 0x0100.
Definition CALYPSO_ULPD_SIZE : Z := 0x0100.

Definition TPU_CTRL : Z := 0x0000.
Definition TPU_INT_CTRL : Z := 0x0002.
Definition TPU_OFFSET : Z := 0x000C.
Definition TPU_IT_DSP_PG : Z := 0x0020.
Definition TPU_CTRL_EN : Z := 0x0004.
Definition TPU_CTRL_DSP_EN : Z := 0x0010.
Definition TPU_CTRL_IDLE : Z := 0x0100.
Definition ICTRL_MCU_FRAME : Z := 0x1.
Definition ICTRL_DSP_FRAME : Z := 0x4.
Definition TSP_RX_REG : Z := 0x08.
Definition ULPD_SETUP_CLK13 : Z := 0x00.
Definition ULPD_COUNTER_HI : Z := 0x1C.
Definition ULPD_COUNTER_LO : Z := 0x1E.
Definition ULPD_GAUGING_CTRL : Z := 0x24.
Definition ULPD_GSM_TIMER : Z := 0x28.

Definition FRAME_IRQ_PULSE_NS : Z := 1000000.
Definition BOOT_POLLS_BEFORE_BOOT : Z := 3.
Definition FN_SYNC_TOLERANCE : Z := 16.
Definition FN_SYNC_WINDOW : Z := 5.
Definition IDLE_PC_LO : Z := 0x00823000.
Definition IDLE_PC_HI : Z := 0x00826000.

(** ** The bridge messages ([calypso_dsp_pont.h]) *)
Definition PONT_HELLO : Z := 1.
Definition PONT_HELLO_OK : Z := 2.
Definition PONT_RESET : Z := 3.
Definition PONT_TICK : Z := 4.
Definition PONT_DONE : Z := 5.
Definition PONT_GO : Z := 6.
Definition PONT_DCCH : Z := 7.
Definition PONT_DONE_API_IRQ : Z := 0x1.
Definition PONT_DONE_PHASE_A : Z := 0x10.
Definition CALYPSO_PONT_TICK_IRQ_TRAME : Z := 0x10000.
Definition CALYPSO_PONT_TICK_DEUX_PHASES : Z := 0x20000.
Definition CALYPSO_PONT_SHM_BYTES : Z := 0x4000.
Definition CALYPSO_PONT_MAGIC : Z := 0x43353458.

Record CalypsoPontMsg := mkMsg { m_type : Z; m_a : Z; m_b : Z; m_c : Z }.

(** ** Configuration (environment variables) *)
Record Cfg := mkCfg {
  lockstep : bool;           (* CALYPSO_PONT_LOCKSTEP *)
  pont_arm_first : bool;     (* CALYPSO_PONT_ARM_FIRST is not 0 *)
  pont_arm_lock : bool;      (* CALYPSO_PONT_ARM_LOCK *)
  retry_div : option Z;      (* CALYPSO_PONT_RETRY_DIV *)
  rattrapage : Z;            (* CALYPSO_PACER_RATTRAPAGE, 20 by default *)
  pont_boot_poll : bool;     (* CALYPSO_PONT_BOOT_POLL is not 0 *)
  reqref_actif : bool;       (* MONTANT_REQREF is not 0 *)
  has_twl3025 : bool;        (* the weak symbol calypso_twl3025_set_afc_dac *)
  firmware : option (list Z) (* the -kernel image *)
}.

Definition arm_first (c : Cfg) : bool := lockstep c && pont_arm_first c.

Definition pont_retry_div (c : Cfg) : Z :=
  let div := default 0 (retry_div c) in
  if (div <? 1) || (8192 <? div) then 16 else div.
Definition PONT_RETRY_NS (c : Cfg) : Z := Z.quot GSM_TDMA_NS (pont_retry_div c).
Definition PONT_ATTENTES_MAX (c : Cfg) : Z := Z.quot (256 * pont_retry_div c) 16.

(** ** What one call finds outside *)
Inductive RxResult :=
  | RxNone                       (* nothing to read *)
  | RxLost                       (* a short read: the connection is lost *)
  | RxMsg (m : CalypsoPontMsg).

Record Env := mkEnv {
  running : bool;                       (* runstate_is_running() *)
  rt : Z;                               (* QEMU_CLOCK_REALTIME, ns *)
  vt : Z;                               (* QEMU_CLOCK_VIRTUAL, ns *)
  wall_fn : Z;                          (* g_wall_fn *)
  rx : RxResult;                        (* what the socket holds *)
  tx_ok : CalypsoPontMsg → bool;        (* does the socket take the message *)
  frame_eoi : Z;                        (* calypso_inth_frame_eoi() *)
  frame_masked : bool;                  (* calypso_inth_irq_masked(TPU_FRAME) *)
  cpu : option (Z * Z);                 (* PC and CPSR of the ARM *)
  dsp_run : ram → ram                   (* what the DSP writes during a wait *)
}.

(** ** Effects on the other components, oldest first *)
Inductive event :=
  | IrqRaise (n : Z)
  | IrqLower (n : Z)
  | PontSend (m : CalypsoPontMsg)
  | PontRecv (m : CalypsoPontMsg)       (* a message taken from the socket *)
  | UartPump                            (* both UARTs polled and kicked *)
  | LostFrameTick (fn : Z)              (* calypso_timer_lost_frame_tick *)
  | SetAfcDac (dac : Z)
  | InthUnmask (irq : Z)
  | CpuPark.

Record CalypsoTRX := mkTRX {
  api_ram : ram;
  pont : bool;
  pont_pending : bool;
  pont_fd : Z;
  pont_timeouts : Z;
  pont_frames : Z;
  pont_api_irqs : Z;
  dsp_page : Z;
  bl_booted : bool;
  bl_polls : Z;
  bl_lu_fn : Z;
  tpu_regs : list Z;
  tpu_ram : list Z;
  tsp_regs : list Z;
  ulpd_regs : list Z;
  ulpd_counter : Z;
  fn : Z;
  fn_offset : Z;
  fn_offset_hist : list Z;
  fn_offset_n : Z;
  fn_synced : bool;
  tdma_running : bool;
  tick_phase : Z;
  deux_phases : bool;
  phase_a_recue : bool;
  go_inutile : bool;
  eoi_cible : Z;
  eoi_attentes : Z;
  eoi_timeouts : Z;
  eoi_longues : Z;
  burst_ring : list Z;
  burst_w : Z;
  burst_r : Z;
  burst_cur : Z;
  burst_last_fn : Z;
  rach_ra : Z;
  rach_ra_vue : bool;
  rach_fn : list Z;
  rach_file : list Z;
  rach_file_w : Z;
  rach_file_r : Z;
  dcch_a_dire : bool;
  dcch_tn : Z;
  dcch_ss : Z;
  dcch_genre : Z;
  precedent : bool;                     (* static of calypso_trx_dsp_reset_line *)
  target : Z;                           (* static of tdma_pacer *)
  seq : TPU.Seq;                        (* static of calypso_tpu.c *)
  tdma_timer : option Z;
  frame_irq_timer : option Z;
  pont_boot_timer : option Z;
  events : list event
}.

#[export] Instance trx_eta : Settable CalypsoTRX := λ s,
  mkTRX (api_ram s) (pont s) (pont_pending s) (pont_fd s) (pont_timeouts s) (pont_frames s)
    (pont_api_irqs s) (dsp_page s) (bl_booted s) (bl_polls s) (bl_lu_fn s) (tpu_regs s) (tpu_ram s)
    (tsp_regs s) (ulpd_regs s) (ulpd_counter s) (fn s) (fn_offset s) (fn_offset_hist s)
    (fn_offset_n s) (fn_synced s) (tdma_running s) (tick_phase s) (deux_phases s) (phase_a_recue s)
    (go_inutile s) (eoi_cible s) (eoi_attentes s) (eoi_timeouts s) (eoi_longues s) (burst_ring s)
    (burst_w s) (burst_r s) (burst_cur s) (burst_last_fn s) (rach_ra s) (rach_ra_vue s) (rach_fn s)
    (rach_file s) (rach_file_w s) (rach_file_r s) (dcch_a_dire s) (dcch_tn s) (dcch_ss s)
    (dcch_genre s) (precedent s) (target s) (seq s) (tdma_timer s) (frame_irq_timer s)
    (pont_boot_timer s) (events s).

Definition emit (s : CalypsoTRX) (e : event) : CalypsoTRX := s <| events := events s ++ [e] |>.

(** The state as allocated ([g_new0], [pont_fd = -1]). *)
Definition trx_new : CalypsoTRX :=
  mkTRX ∅ false false (-1) 0 0 0 0 false 0 0 (replicate 128 0) (replicate 1024 0) (replicate 128 0)
    (replicate 128 0) 0 0 0 (replicate 5 0) 0 false false 0 false false false 0 0 0 0
    (replicate 8 0) 0 0 0 0 0 false (replicate 256 0) (replicate 8 0) 0 0 false 0 0 0 false 0
    (TPU.mkSeq (replicate 1024 0) 0 0 0 0 false None TSP.tsp_init) None None None [].

(** ** The frame counter of the machine *)
Definition calypso_trx_get_fn (s : CalypsoTRX) : Z :=
  let f := Z.rem (fn s + fn_offset s) GSM_HYPERFRAME in
  let f := if f <? 0 then f + GSM_HYPERFRAME else f in
  u32 f.

(** The maximum of the measures in the window. *)
Definition window_max (hist : list Z) (n : Z) : Z :=
  foldl (λ offset i, if offset <? rd hist i then rd hist i else offset) (rd hist 0)
        (zseq 1 (Z.to_nat (n - 1))).

Definition calypso_trx_autosync_fn (s : CalypsoTRX) (sch_fn : Z) : CalypsoTRX :=
  let raw := sch_fn - fn s in
  let s := s <| fn_offset_hist := wr (fn_offset_hist s) (fn_offset_n s mod FN_SYNC_WINDOW) raw |> in
  let s := s <| fn_offset_n := u32 (fn_offset_n s + 1) |> in
  let n := if fn_offset_n s <? FN_SYNC_WINDOW then fn_offset_n s else FN_SYNC_WINDOW in
  let offset := window_max (fn_offset_hist s) n in
  let drift := offset - fn_offset s in
  let drift := if drift <? 0 then - drift else drift in
  if fn_synced s && (drift <=? FN_SYNC_TOLERANCE) then s
  else s <| fn_offset := offset |> <| fn_synced := true |>.

(** ** Access attempts and dedicated channel, told by the L1CTL tap *)
Definition calypso_trx_dcch (s : CalypsoTRX) (genre ss tn : Z) : CalypsoTRX :=
  if negb (pont s) then s
  else s <| dcch_genre := genre |> <| dcch_ss := u8 ss |> <| dcch_tn := u8 tn |> <| dcch_a_dire := true |>.

Definition calypso_trx_rach_conf (s : CalypsoTRX) (f : Z) : CalypsoTRX :=
  if f =? 0 then s
  else if rach_file_r s =? rach_file_w s then s
  else
    let ra := rd (rach_file s) (rach_file_r s mod 8) in
    s <| rach_file_r := u32 (rach_file_r s + 1) |> <| rach_fn := wr (rach_fn s) ra f |>
      <| rach_ra := ra |> <| rach_ra_vue := true |>.

(** The RA of a [d_rach] write joins the queue; a full queue drops the oldest. *)
Definition rach_push (s : CalypsoTRX) (value : Z) : CalypsoTRX :=
  let ra := Z.land (Z.shiftr value 8) 0xff in
  let s := if 8 <=? u32 (rach_file_w s - rach_file_r s)
           then s <| rach_file_r := u32 (rach_file_r s + 1) |> else s in
  s <| rach_file := wr (rach_file s) (rach_file_w s mod 8) ra |> <| rach_file_w := u32 (rach_file_w s + 1) |>.
(** ** Properties of the frame counter *)
Lemma get_fn_spec s : calypso_trx_get_fn s = (fn s + fn_offset s) mod GSM_HYPERFRAME.
Proof.
  unfold calypso_trx_get_fn, GSM_HYPERFRAME, u32. cbn zeta. case_ifs; mlia.
Qed.

Lemma get_fn_range s : 0 ≤ calypso_trx_get_fn s < GSM_HYPERFRAME.
Proof. rewrite get_fn_spec. apply Z.mod_pos_bound. unfold GSM_HYPERFRAME. lia. Qed.

(** The last [n] elements of a list. *)
Definition lastn {A} (n : nat) (l : list A) : list A := drop (length l - n) l.

Definition is_max (m : Z) (l : list Z) : Prop := m ∈ l ∧ ∀ x, x ∈ l → x ≤ m.

(** One measure: the synchronisation burst of frame [sch] read at local frame [f]. *)
Definition sch_step (s : CalypsoTRX) (x : Z * Z) : CalypsoTRX :=
  calypso_trx_autosync_fn (s <| fn := fst x |>) (snd x).

Definition raw_of (x : Z * Z) : Z := snd x - fst x.

Lemma window_max_spec hist n :
  1 ≤ n →
  (∃ i, 0 ≤ i < n ∧ window_max hist n = rd hist i) ∧ (∀ i, 0 ≤ i < n → rd hist i ≤ window_max hist n).
Proof.
  intros Hn. unfold window_max. replace n with (1 + Z.of_nat (Z.to_nat (n - 1))) by lia.
  rewrite Z.add_simpl_l, Nat2Z.id.
  induction (Z.to_nat (n - 1)) as [|k [[i [Hi IH1]] IH2]].
  - split; [exists 0; split; [lia|done]|]. intros i Hi. replace i with 0 by lia. done.
  - rewrite zseq_S, foldl_app. cbn [foldl].
    destruct (Z.ltb_spec (foldl (λ o i, if o <? rd hist i then rd hist i else o) (rd hist 0) (zseq 1 k)) (rd hist (1 + Z.of_nat k))) as [H|H].
    + split; [exists (1 + Z.of_nat k); split; [lia|done]|]. intros j Hj.
      destruct (Z.eq_dec j (1 + Z.of_nat k)) as [->|]; [lia|]. specialize (IH2 j). lia.
    + split; [exists i; split; [lia|done]|]. intros j Hj.
      destruct (Z.eq_dec j (1 + Z.of_nat k)) as [->|]; [lia|]. apply IH2. lia.
Qed.

(** The ring of measures holds the last five, and the offset is near their maximum. *)
Record synced (raws : list Z) (s : CalypsoTRX) : Prop := {
  sy_n : fn_offset_n s = zlen raws;
  sy_len : zlen (fn_offset_hist s) = 5;
  sy_hist : ∀ j, zlen raws - 5 ≤ j < zlen raws → 0 ≤ j → rd (fn_offset_hist s) (j mod 5) = rd raws j;
  sy_fresh : raws = [] → fn_synced s = false;
  sy_near : raws ≠ [] → fn_synced s = true ∧ ∃ m, is_max m (lastn 5 raws) ∧ Z.abs (fn_offset s - m) ≤ 16
}.

Lemma elem_of_lastn raws x :
  x ∈ lastn 5 raws ↔ ∃ j, zlen raws - 5 ≤ j < zlen raws ∧ 0 ≤ j ∧ rd raws j = x.
Proof.
  unfold lastn, zlen. rewrite list_elem_of_lookup. setoid_rewrite lookup_drop. split.
  - intros [i Hi]. pose proof (lookup_lt_Some _ _ _ Hi).
    exists (Z.of_nat (length raws - 5 + i)). split; [lia|]. split; [lia|].
    unfold rd. rewrite Nat2Z.id, Hi. done.
  - intros (j & Hj & Hj0 & <-). exists (Z.to_nat j - (length raws - 5))%nat.
    replace (length raws - 5 + (Z.to_nat j - (length raws - 5)))%nat with (Z.to_nat j) by lia.
    unfold rd. destruct (lookup_lt_is_Some_2 raws (Z.to_nat j)) as [x Hx]; [lia|]. by rewrite Hx.
Qed.

(** The maximum the code computes is that of the window. *)
Lemma window_max_lastn raws hist :
  raws ≠ [] →
  (∀ j, zlen raws - 5 ≤ j < zlen raws → 0 ≤ j → rd hist (j mod 5) = rd raws j) →
  is_max (window_max hist (if zlen raws <? 5 then zlen raws else 5)) (lastn 5 raws).
Proof.
  intros Hne Hh. assert (1 ≤ zlen raws) as Hn by (destruct raws; [done|unfold zlen; cbn; lia]).
  set (n := if zlen raws <? 5 then zlen raws else 5).
  assert (n = Z.min (zlen raws) 5) as En by (unfold n; destruct (Z.ltb_spec (zlen raws) 5); lia).
  destruct (window_max_spec hist n) as [[i [Hi Ei]] Hall]; [lia|]. split.
  - rewrite Ei, elem_of_lastn.
    exists (zlen raws - 1 - (zlen raws - 1 - i) mod 5). split; [mlia|]. split; [mlia|].
    rewrite <- Hh by mlia. f_equal. mlia.
  - intros x. rewrite elem_of_lastn. intros (j & Hj & Hj0 & <-). rewrite <- Hh by lia.
    apply Hall. mlia.
Qed.

Lemma sch_step_synced raws s x :
  synced raws s → zlen raws + 1 < 4294967296 → synced (raws ++ [raw_of x]) (sch_step s x).
Proof.
  intros [Hn Hl Hh Hf Hnear] Hlt. destruct x as [f sch]. unfold sch_step, calypso_trx_autosync_fn, raw_of.
  cbn. rewrite Hn.
  assert (zlen (raws ++ [sch - f]) = zlen raws + 1) as Elen by (unfold zlen; rewrite length_app; cbn; lia).
  rewrite u32_small by (unfold zlen in *; lia). rewrite <- Elen.
  set (hist := wr (fn_offset_hist s) (zlen raws mod FN_SYNC_WINDOW) (sch - f)).
  set (off := window_max hist _).
  assert (∀ j, zlen (raws ++ [sch - f]) - 5 ≤ j < zlen (raws ++ [sch - f]) → 0 ≤ j →
               rd hist (j mod 5) = rd (raws ++ [sch - f]) j) as Hh'.
  { intros j Hj Hj0. unfold hist, FN_SYNC_WINDOW. destruct (Z.eq_dec j (zlen raws)) as [->|Hne].
    - rewrite rd_wr_eq by (rewrite Hl; mlia). unfold rd, zlen. rewrite Nat2Z.id, list_lookup_middle; done.
    - rewrite rd_wr_ne by mlia. rewrite Hh by lia. unfold rd. rewrite lookup_app_l; [done|]. unfold zlen in *. lia. }
  assert (is_max off (lastn 5 (raws ++ [sch - f]))) as Hm.
  { apply window_max_lastn; [by destruct raws|done]. }
  assert (zlen hist = 5) as Hl' by (unfold hist, wr, zlen in *; by rewrite length_insert).
  destruct (fn_synced s && _) eqn:E.
  - apply andb_true_iff in E as [Es Ed]. apply Z.leb_le in Ed. unfold FN_SYNC_TOLERANCE in Ed.
    split; cbn; try done; [by intros ?; destruct raws|]. intros _. split; [done|]. exists off. split; [done|].
    destruct (Z.ltb_spec (off - fn_offset s) 0); lia.
  - split; cbn; try done; [by intros ?; destruct raws|]. intros _. split; [done|]. exists off. split; [done|lia].
Qed.

(** Whatever the delays with which the synchronisation bursts reach the machine,
    the frame counter it announces is the local one shifted by an offset within
    16 frames of the largest of the last five measures. *)
Theorem autosync_window l s :
  fn_synced s = false → fn_offset_n s = 0 → zlen (fn_offset_hist s) = 5 →
  l ≠ [] → zlen l < 4294967296 →
  let s' := run sch_step s l in
  fn_synced s' = true ∧
  (∃ m, is_max m (lastn 5 (raw_of <$> l)) ∧ Z.abs (fn_offset s' - m) ≤ 16) ∧
  calypso_trx_get_fn s' = (fn s' + fn_offset s') mod GSM_HYPERFRAME.
Proof.
  intros Hs Hn Hl Hne Hlt. cbn zeta.
  assert (synced (raw_of <$> l) (run sch_step s l)) as [_ _ _ _ Hnear].
  { clear Hne. induction l as [|x l IH] using rev_ind.
    - split; try done. cbn. intros j Hj. unfold zlen in Hj. cbn in Hj. lia.
    - rewrite run_app, fmap_app. unfold zlen in Hlt. rewrite length_app in Hlt. cbn in Hlt.
      apply sch_step_synced; [apply IH; unfold zlen; lia|]. unfold zlen. rewrite length_fmap. lia. }
  destruct Hnear as [H1 H2]; [by destruct l|]. split; [done|]. split; [done|]. apply get_fn_spec.
Qed.

(** ** Access attempts and their confirmations *)

(** The pairing the mobile does: attempts wait in order, a confirmation names the
    frame of the oldest one. *)
Record pairing := mkPairing {
  waiting : list Z;
  frame_of : list Z;
  latest : option Z
}.

Inductive rach_op :=
  | Attempt (value : Z)
  | Confirm (f : Z).

Definition rach_step (s : CalypsoTRX) (o : rach_op) : CalypsoTRX :=
  match o with
  | Attempt value => rach_push s value
  | Confirm f => calypso_trx_rach_conf s f
  end.

Definition pair_step (p : pairing) (o : rach_op) : pairing :=
  match o with
  | Attempt value => mkPairing (push_drop 8 (waiting p) (Z.land (Z.shiftr value 8) 0xff)) (frame_of p) (latest p)
  | Confirm f =>
      if f =? 0 then p
      else match waiting p with
           | [] => p
           | ra :: rest => mkPairing rest (wr (frame_of p) ra f) (Some ra)
           end
  end.

Definition pairing_of (s : CalypsoTRX) : pairing :=
  mkPairing (fr_contents 0 8 (rach_file s) (rach_file_r s) (rach_file_w s)) (rach_fn s)
            (if rach_ra_vue s then Some (rach_ra s) else None).

Definition rach_ok (s : CalypsoTRX) : Prop := fr_ok 8 (rach_file s) (rach_file_r s) (rach_file_w s).

Lemma rach_step_refines s o :
  rach_ok s → rach_ok (rach_step s o) ∧ pairing_of (rach_step s o) = pair_step (pairing_of s) o.
Proof.
  intros Hok. destruct o as [value|f]; cbn [rach_step pair_step].
  - pose proof (fr_push_drop 0 8 (rach_file s) (rach_file_r s) (rach_file_w s)
      (Z.land (Z.shiftr value 8) 0xff) ltac:(lia) ltac:(lia) ltac:(done) Hok) as [H1 H2].
    unfold rach_push, rach_ok, pairing_of, fr_count in *. cbn [waiting].
    destruct (8 <=? u32 (rach_file_w s - rach_file_r s)); cbn in *; (split; [exact H1|]); f_equal; exact H2.
  - unfold calypso_trx_rach_conf. destruct (f =? 0); [done|].
    destruct (Z.eqb_spec (rach_file_r s) (rach_file_w s)) as [E|E].
    + split; [done|]. unfold pairing_of at 2. cbn [waiting].
      destruct Hok as (Hl & Hr & _). rewrite <- E.
      destruct (fr_empty 0 8 ltac:(lia) (rach_file s) (rach_file_r s) Hl Hr) as [_ ->]. done.
    + destruct (fr_pop 0 8 ltac:(lia) ltac:(lia) ltac:(done) _ _ _ Hok E) as [H1 H2].
      split; [exact H1|]. unfold pairing_of at 2. cbn [waiting]. rewrite H2. done.
Qed.

(** Attempts and confirmations in any order and number implement the pairing
    with at most eight attempts waiting, the oldest one given up when a ninth
    comes. *)
Theorem rach_refines_pairing s l :
  rach_ok s → pairing_of (run rach_step s l) = run pair_step (pairing_of s) l.
Proof.
  revert s. induction l as [|o l IH]; intros s Hok; [done|]. cbn [run foldl].
  destruct (rach_step_refines s o Hok) as [H1 H2]. rewrite <- H2. by apply IH.
Qed.

Lemma run_rach_ok s l : rach_ok s → rach_ok (run rach_step s l).
Proof.
  revert s. induction l as [|o l IH]; intros s Hok; [done|]. apply IH. by apply rach_step_refines.
Qed.

End TRX.
