(* ===== verification/TrxPont.v ===== *)
(** * The TDMA tick and the bridge to the external DSP ([calypso_trx.c])

    Every TDMA frame [tdma_tick] advances the frame counter, runs the TPU
    sequencer, hands the frame to the DSP and raises the frame interrupt of the
    ARM.  With the external DSP in lock-step the frame has two phases: TICK to
    the DSP, its DONE|PHASE_A, the frame interrupt, the end of service of that
    interrupt by the ARM, and only then GO.  Nothing blocks: a tick that finds
    its condition unmet re-arms the timer a little later. *)
From stdpp Require Import gmap.
From S2P Require Import Prelude ApiRam Rf Trx.
Import API TRX.

Module PONT.
Create HintDb pont.

Section pont.
  Context (shm_ok : option (list TSP.CalypsoRfProg)) (c : Cfg).

(** ** Socket *)
Definition pont_send (e : Env) (s : CalypsoTRX) (type a b d : Z) : bool * CalypsoTRX :=
  let m := mkMsg type a b d in
  if pont_fd s <? 0 then (false, s)
  else if tx_ok e m then (true, emit s (PontSend m)) else (false, s).

Definition pont_recv (e : Env) (s : CalypsoTRX) : option CalypsoPontMsg * CalypsoTRX :=
  if pont_fd s <? 0 then (None, s)
  else
    match rx e with
    | RxNone => (None, s)
    | RxLost => (None, s <| pont_fd := -1 |>)
    | RxMsg m => (Some m, emit s (PontRecv m))
    end.

(** The test [pont_recv(s, &m, t) && m.type == PONT_DONE]. *)
Definition recv_done (e : Env) (s : CalypsoTRX) : option Z * CalypsoTRX :=
  match pont_recv e s with
  | (Some m, s) => (if m_type m =? PONT_DONE then Some (m_a m) else None, s)
  | (None, s) => (None, s)
  end.

(** A final DONE: the frame is over, the API interrupt follows its flag. *)
Definition done_collected (s : CalypsoTRX) (a : Z) : CalypsoTRX :=
  let s := s <| pont_pending := false |> <| pont_frames := u64 (pont_frames s + 1) |> in
  if has a PONT_DONE_API_IRQ
  then emit (s <| pont_api_irqs := u64 (pont_api_irqs s + 1) |>) (IrqRaise CALYPSO_IRQ_API) else s.

Definition pont_tick_b (s : CalypsoTRX) : Z * CalypsoTRX :=
  let b := dsp_page s in
  let ctrl := rd (tpu_regs s) (TPU_CTRL / 2) in
  if has ctrl TPU_CTRL_DSP_EN && negb (has (rd (tpu_regs s) (TPU_INT_CTRL / 2)) ICTRL_DSP_FRAME)
  then (Z.lor b CALYPSO_PONT_TICK_IRQ_TRAME,
        s <| tpu_regs := wr (tpu_regs s) (TPU_CTRL / 2) (clr ctrl TPU_CTRL_DSP_EN) |>)
  else (b, s).

(** The second half of [pont_echange], when the DSP is idle: announce the
    dedicated channel, then send the TICK. *)
Definition pont_tick_send (e : Env) (s : CalypsoTRX) : CalypsoTRX :=
  let '(b, s) := pont_tick_b s in
  let b := if deux_phases s then Z.lor b CALYPSO_PONT_TICK_DEUX_PHASES else b in
  let s := if dcch_a_dire s then
             snd (pont_send e (s <| dcch_a_dire := false |>) PONT_DCCH (dcch_tn s) (u32 (dcch_genre s)) (dcch_ss s))
           else s in
  let '(sent, s) := pont_send e s PONT_TICK (fn s) b (rd (tpu_regs s) (TPU_OFFSET / 2)) in
  if sent : bool then s <| pont_pending := true |> else s.

Definition pont_echange (e : Env) (s : CalypsoTRX) : CalypsoTRX :=
  if pont_fd s <? 0 then s
  else if negb (pont_pending s) then pont_tick_send e s
  else
    match recv_done e s with
    | (Some a, s) => pont_tick_send e (done_collected s a)
    | (None, s) => if 0 <=? pont_fd s then s <| pont_timeouts := u32 (pont_timeouts s + 1) |> else s
    end.

(** One frame of the DSP while the ARM polls the bootloader: the DONE is awaited
    (20 ms), the DSP runs meanwhile. *)
Definition pont_boot_pas (e : Env) (s : CalypsoTRX) : CalypsoTRX :=
  if pont_fd s <? 0 then s
  else
    let s := if negb (pont_pending s) then pont_echange e s else s in
    if pont_pending s then
      let s := s <| api_ram := dsp_run e (api_ram s) |> in
      match recv_done e s with
      | (Some a, s) => done_collected s a
      | (None, s) => s
      end
    else s.

Definition pont_boot_tick (e : Env) (s : CalypsoTRX) : CalypsoTRX :=
  if tdma_running s then s <| pont_boot_timer := None |>
  else
    let s := if running e then pont_echange e s else s in
    s <| pont_boot_timer := Some (rt e + GSM_TDMA_NS) |>.

(** ** The pacer *)

(** [while (target <= now) target += GSM_TDMA_NS]. *)
Fixpoint grid_loop (fuel : nat) (now t : Z) : Z :=
  match fuel with
  | O => t
  | S fuel => if t <=? now then grid_loop fuel now (t + GSM_TDMA_NS) else t
  end.
Definition grid_next (now t : Z) : Z := grid_loop (Z.to_nat ((now - t) / GSM_TDMA_NS + 2)) now t.

Definition tdma_pacer (e : Env) (s : CalypsoTRX) : CalypsoTRX :=
  let now := rt e in
  let t := (if target s =? 0 then now else target s) + GSM_TDMA_NS in
  let t := if rattrapage c =? 0 then grid_next now t
           else if t <? now - rattrapage c * GSM_TDMA_NS then now else t in
  s <| target := t |> <| tdma_timer := Some t |>.

Definition tdma_start (e : Env) (s : CalypsoTRX) : CalypsoTRX :=
  s <| tdma_running := true |> <| fn := 0 |> <| tdma_timer := Some (rt e + GSM_TDMA_NS) |>.

(** ** The tick *)

(** The frame interrupt of the ARM: lost-frame timers, line, end of the pulse. *)
Definition frame_irq (e : Env) (s : CalypsoTRX) : CalypsoTRX :=
  emit (emit s (LostFrameTick (fn s))) (IrqRaise CALYPSO_IRQ_TPU_FRAME)
    <| frame_irq_timer := Some (vt e + FRAME_IRQ_PULSE_NS) |>.

(** Come back a little later. *)
Definition retry (e : Env) (s : CalypsoTRX) : CalypsoTRX := s <| tdma_timer := Some (rt e + PONT_RETRY_NS c) |>.

(** Phase 1: DONE|PHASE_A (or the final DONE of a single-phase DSP) gives the
    ARM its frame. *)
Definition phase_a_collect (e : Env) (s : CalypsoTRX) : CalypsoTRX :=
  if phase_a_recue s then s
  else
    let s := match recv_done e s with
             | (Some a, s) =>
                 if has a PONT_DONE_PHASE_A then s <| phase_a_recue := true |>
                 else done_collected (s <| phase_a_recue := true |> <| go_inutile := true |>) a
             | (None, s) => s
             end in
    if phase_a_recue s then
      let cible := if eoi_cible s <? frame_eoi e then frame_eoi e else eoi_cible s in
      frame_irq e (s <| eoi_cible := u64 (cible + 1) |>)
    else s.

Definition fini (e : Env) (s : CalypsoTRX) : bool :=
  phase_a_recue s && ((eoi_cible s <=? frame_eoi e) || frame_masked e).

(** The firmware is restarting the DSP (it polled the bootloader lately). *)
Definition arm_relance_dsp (s : CalypsoTRX) : bool :=
  negb (bl_lu_fn s =? 0) && (u32 (fn s + 1 - bl_lu_fn s) <=? 4).

(** The end of phase 1: GO, and the next frame at its time. *)
Definition phase_b (e : Env) (s : CalypsoTRX) : CalypsoTRX :=
  let s := s <| tick_phase := 0 |> in
  let s := if negb (go_inutile s) then snd (pont_send e s PONT_GO (fn s) 0 0) else s in
  tdma_pacer e s.

(** The ARM did not finish in time: its frame anyway, and a new target. *)
Definition force_go (e : Env) (s : CalypsoTRX) : CalypsoTRX :=
  let s := if negb (phase_a_recue s) then frame_irq e s else s in
  s <| eoi_cible := frame_eoi e |> <| eoi_timeouts := u32 (eoi_timeouts s + 1) |>.

Definition tick_phase1 (e : Env) (s : CalypsoTRX) : CalypsoTRX :=
  let s := phase_a_collect e s in
  let max := PONT_ATTENTES_MAX c in
  let n := eoi_attentes s in
  if fini e s then phase_b e s
  else if (max <=? n + 1) && (n + 1 <? max * 32) && phase_a_recue s then
    let s := if n + 1 =? max then s <| eoi_longues := u32 (eoi_longues s + 1) |> else s in
    retry e (emit (s <| eoi_attentes := n + 1 |>) UartPump)
  else
    let s := s <| eoi_attentes := n + 1 |> in
    if n + 1 <? max then retry e (emit s UartPump)
    else if pont_arm_lock c && negb (arm_relance_dsp s) && (n + 1 <? max * 64) then
      retry e (s <| eoi_attentes := n + 2 |>)
    else phase_b e (force_go e s).

(** The lock-step: has the DSP finished the previous frame? *)
Definition lockstep_wait (e : Env) (s : CalypsoTRX) : bool * CalypsoTRX :=
  if pont s && (0 <=? pont_fd s) && pont_pending s && lockstep c then
    match recv_done e s with
    | (Some a, s) => (true, done_collected s a)
    | (None, s) => (false, retry e (emit s UartPump))
    end
  else (true, s).

Definition next_fn (e : Env) (s : CalypsoTRX) : Z :=
  if pont s && (0 <=? pont_fd s) && lockstep c then u32 (fn s + 1) mod GSM_HYPERFRAME
  else (if negb (wall_fn e =? 0) then wall_fn e else u32 (fn s + 1)) mod GSM_HYPERFRAME.

(** The TPU sequencer shares the TPU registers of the transceiver. *)
Definition sequencer_tick (s : CalypsoTRX) : CalypsoTRX :=
  let q := seq s <| TPU.tpu_regs := (λ _, tpu_regs s) <$> TPU.tpu_regs (seq s) |> in
  let q := TPU.calypso_tpu_sequencer_tick shm_ok q (fn s) in
  s <| seq := q |> <| tpu_regs := default (tpu_regs s) (TPU.tpu_regs q) |>.

(** The exchange of the frame with the DSP, or the consumption of the tasks the
    DSP-less machine does itself. *)
Definition frame_exchange (e : Env) (s : CalypsoTRX) : CalypsoTRX :=
  if pont s then
    let s := if arm_first c then s <| deux_phases := true |> else s in
    pont_echange e s <| deux_phases := false |>
  else
    let m := aset (api_ram s) (api_wp (dsp_page s) WP_D_TASK_RA) 0 in
    s <| api_ram := aset m (api_wp (dsp_page s) WP_D_TASK_U) 0 |>.

Definition tick_phase0 (e : Env) (s : CalypsoTRX) : CalypsoTRX :=
  let '(ready, s) := lockstep_wait e s in
  if negb ready then s
  else
    let s := s <| fn := next_fn e s |> in
    let s := emit (sequencer_tick s) UartPump in
    let s := frame_exchange e s in
    if pont s && (0 <=? pont_fd s) && arm_first c && pont_pending s then
      retry e (s <| eoi_attentes := 0 |> <| phase_a_recue := false |> <| go_inutile := false |>
                 <| tick_phase := 1 |>)
    else
      let s := if pont_fd s <? 0
               then s <| tpu_regs := wr (tpu_regs s) (TPU_CTRL / 2)
                                        (clr (rd (tpu_regs s) (TPU_CTRL / 2)) TPU_CTRL_DSP_EN) |>
               else s in
      tdma_pacer e (frame_irq e s).

Definition tdma_tick (e : Env) (s : CalypsoTRX) : CalypsoTRX :=
  if negb (running e) then s <| tdma_timer := Some (rt e + GSM_TDMA_NS) |>
  else if tick_phase s =? 1 then tick_phase1 e s
  else tick_phase0 e s.

Definition calypso_trx_force_tick (e : Env) (s : CalypsoTRX) (f : Z) : CalypsoTRX :=
  tdma_tick e (s <| fn := f |>).

(** ** The line that resets the DSP *)
Definition calypso_trx_dsp_reset_line (e : Env) (s : CalypsoTRX) (active : bool) : CalypsoTRX :=
  let s := if pont s && precedent s && negb active then
             snd (pont_send e (s <| api_ram := aset (api_ram s) (API_BL_STATUS / 2) 0 |>) PONT_RESET 0 0 0)
           else s in
  s <| precedent := active |>.

(** ** The connection at start-up; [None] is [exit(1)] *)
Definition pont_connect (e : Env) (s : CalypsoTRX) (shm_size : option Z) (mapped connected : bool)
    (shared : ram) : option CalypsoTRX :=
  match shm_size with
  | None => None
  | Some size =>
      if (size <? CALYPSO_PONT_SHM_BYTES) || negb mapped || negb connected then None
      else
        let s := s <| api_ram := shared |> <| pont_fd := 0 |> in
        let '(sent, s) := pont_send e s PONT_HELLO CALYPSO_API_WORDS CALYPSO_PONT_MAGIC 0 in
        if negb sent then None
        else
          match pont_recv e s with
          | (Some m, s) =>
              if (m_type m =? PONT_HELLO_OK) && (m_a m =? CALYPSO_API_WORDS) && (m_b m =? CALYPSO_PONT_MAGIC)
              then Some (s <| pont := true |>) else None
          | (None, _) => None
          end
  end.
End pont.

(** ** The protocol seen from outside

    The messages to the DSP, its DONE answers and the frame interrupts, in order. *)
Inductive mark :=
  | Done (a : Z)
  | Dcch
  | Tick (f : Z)
  | Irq
  | Go (f : Z).

Definition mark_of (e : event) : option mark :=
  match e with
  | PontSend m =>
      if m_type m =? PONT_TICK then Some (Tick (m_a m))
      else if m_type m =? PONT_GO then Some (Go (m_a m))
      else if m_type m =? PONT_DCCH then Some Dcch
      else None
  | PontRecv m => if m_type m =? PONT_DONE then Some (Done (m_a m)) else None
  | IrqRaise n => if n =? CALYPSO_IRQ_TPU_FRAME then Some Irq else None
  | _ => None
  end.

Definition marks (s : CalypsoTRX) : list mark := omap mark_of (events s).

(** The part of the state the protocol is about. *)
Record view := mkView {
  v_phase : Z; v_a : bool; v_go : bool; v_pont : bool; v_fd : Z; v_pending : bool; v_fn : Z;
  v_deux : bool; v_marks : list mark; v_run : bool
}.

Definition view_of (s : CalypsoTRX) : view :=
  mkView (tick_phase s) (phase_a_recue s) (go_inutile s) (pont s) (pont_fd s) (pont_pending s) (fn s)
         (deux_phases s) (marks s) (tdma_running s).

(** Operations that do not take part in the protocol. *)
Definition quiet (s s' : CalypsoTRX) : Prop := view_of s' = view_of s.

(** The bridge is up: the socket takes every message and does not close. *)
Definition linked (e : Env) : Prop := (∀ m, tx_ok e m = true) ∧ rx e ≠ RxLost.

Lemma marks_emit s e : marks (emit s e) = marks s ++ omap mark_of [e].
Proof. unfold marks, emit. cbn [events update_field]. apply omap_app. Qed.

Lemma view_emit_quiet s e : mark_of e = None → view_of (emit s e) = view_of s.
Proof.
  intros He. unfold view_of. rewrite marks_emit. cbn [omap list_omap]. rewrite He, app_nil_r. done.
Qed.

Section linked.
  Context (e : Env) (He : linked e).

Lemma pont_send_linked s type a b d :
  0 ≤ pont_fd s → pont_send e s type a b d = (true, emit s (PontSend (mkMsg type a b d))).
Proof using He.
  intros Hfd. unfold pont_send. destruct (Z.ltb_spec (pont_fd s) 0); [lia|]. by rewrite (proj1 He).
Qed.

(** What the reception adds to the trace. *)
Lemma recv_done_linked s :
  view_of (snd (recv_done e s)) =
    mkView (tick_phase s) (phase_a_recue s) (go_inutile s) (pont s) (pont_fd s) (pont_pending s) (fn s) (deux_phases s)
           (marks s ++ match fst (recv_done e s) with Some a => [Done a] | None => [] end) (tdma_running s).
Proof using He.
  unfold recv_done, pont_recv. destruct (pont_fd s <? 0); [cbn; by rewrite app_nil_r|]. destruct He as [_ Hrx].
  destruct (rx e) as [| |m]; [cbn; by rewrite app_nil_r|done|]. cbn [fst snd]. unfold view_of. rewrite marks_emit. cbn.
  by destruct (m_type m =? PONT_DONE).
Qed.
End linked.

Lemma done_collected_view s a :
  view_of (done_collected s a) =
    mkView (tick_phase s) (phase_a_recue s) (go_inutile s) (pont s) (pont_fd s) false (fn s)
           (deux_phases s) (marks s) (tdma_running s).
Proof. unfold done_collected. destruct (has a _); [rewrite view_emit_quiet by done|]; done. Qed.

Lemma pont_tick_b_view s : view_of (snd (pont_tick_b s)) = view_of s.
Proof. unfold pont_tick_b. by destruct (_ && _). Qed.

Lemma pont_tick_send_view e s :
  linked e → 0 ≤ pont_fd s →
  view_of (pont_tick_send e s) =
    mkView (tick_phase s) (phase_a_recue s) (go_inutile s) (pont s) (pont_fd s) true (fn s) (deux_phases s)
           (marks s ++ (if dcch_a_dire s then [Dcch] else []) ++ [Tick (fn s)]) (tdma_running s).
Proof.
  intros He Hfd. unfold pont_tick_send. pose proof (pont_tick_b_view s) as Hv.
  assert (dcch_a_dire (snd (pont_tick_b s)) = dcch_a_dire s) as Hd by (unfold pont_tick_b; by destruct (_ && _)).
  destruct (pont_tick_b s) as [b s1]. cbn [snd] in *.
  injection Hv as V1 V2 V3 V4 V5 V6 V7 V8 V9 V10. rewrite Hd.
  destruct (dcch_a_dire s).
  - rewrite (pont_send_linked e He (s1 <| dcch_a_dire := false |>)) by (cbn; lia). cbn [snd].
    rewrite pont_send_linked; [|done|cbn; lia]. unfold view_of, marks, emit in *. cbn.
    rewrite !omap_app. cbn. rewrite <- app_assoc. cbn. congruence.
  - rewrite pont_send_linked; [|done|lia]. unfold view_of, marks, emit in *. cbn.
    rewrite omap_app. cbn. congruence.
Qed.

Lemma frame_irq_view e s :
  view_of (frame_irq e s) =
    mkView (tick_phase s) (phase_a_recue s) (go_inutile s) (pont s) (pont_fd s) (pont_pending s) (fn s)
           (deux_phases s) (marks s ++ [Irq]) (tdma_running s).
Proof. unfold frame_irq, view_of, marks, emit. cbn. by rewrite !omap_app, <- app_assoc. Qed.

Lemma retry_view c e s : view_of (retry c e s) = view_of s.
Proof. done. Qed.
Lemma attentes_view s n : view_of (s <| eoi_attentes := n |>) = view_of s.
Proof. done. Qed.
Lemma longues_view s n : view_of (s <| eoi_longues := n |>) = view_of s.
Proof. done. Qed.

Lemma view_eq s s' :
  view_of s' = view_of s →
  tick_phase s' = tick_phase s ∧ phase_a_recue s' = phase_a_recue s ∧ go_inutile s' = go_inutile s ∧
  pont s' = pont s ∧ pont_fd s' = pont_fd s ∧ pont_pending s' = pont_pending s ∧ fn s' = fn s ∧
  deux_phases s' = deux_phases s ∧ marks s' = marks s ∧ tdma_running s' = tdma_running s.
Proof. intros [=]. repeat split; assumption. Qed.

(** Phase 1 waits, or takes the answer of the DSP and raises the frame interrupt. *)
Lemma phase_a_collect_view e s :
  linked e → phase_a_recue s = false →
  let s1 := phase_a_collect e s in
  (tick_phase s1 = tick_phase s ∧ pont s1 = pont s ∧ pont_fd s1 = pont_fd s ∧ fn s1 = fn s ∧
   deux_phases s1 = deux_phases s ∧ tdma_running s1 = tdma_running s) ∧
  ((phase_a_recue s1 = false ∧ marks s1 = marks s ∧ go_inutile s1 = go_inutile s ∧ pont_pending s1 = pont_pending s) ∨
   ∃ a, phase_a_recue s1 = true ∧ marks s1 = marks s ++ [Done a; Irq] ∧
        go_inutile s1 = (if has a PONT_DONE_PHASE_A then go_inutile s else true) ∧
        pont_pending s1 = (if has a PONT_DONE_PHASE_A then pont_pending s else false)).
Proof.
  intros He Ea. cbn zeta. unfold phase_a_collect. rewrite Ea.
  pose proof (recv_done_linked e He s) as Hs. destruct (recv_done e s) as [[a|] s1]; cbn [fst snd] in Hs;
    unfold view_of in Hs; injection Hs as S1 S2 S3 S4 S5 S6 S7 S8 S9 S10.
  2: { rewrite S2, Ea. cbn iota. rewrite app_nil_r in S9. split; [done|]. left. split; [congruence|done]. }
  set (s2 := if has a PONT_DONE_PHASE_A then _ else _).
  assert (view_of s2 = mkView (tick_phase s) true (if has a PONT_DONE_PHASE_A then go_inutile s else true) (pont s) (pont_fd s)
            (if has a PONT_DONE_PHASE_A then pont_pending s else false) (fn s) (deux_phases s) (marks s ++ [Done a]) (tdma_running s)) as V.
  { unfold s2. destruct (has a PONT_DONE_PHASE_A).
    - unfold view_of, marks in *. cbn. congruence.
    - rewrite done_collected_view. unfold marks in *. cbn. congruence. }
  clearbody s2. unfold view_of in V. injection V as V1 V2 V3 V4 V5 V6 V7 V8 V9 V10. rewrite V2.
  match goal with |- context [frame_irq e ?s3] => pose proof (frame_irq_view e s3) as W; set (s4 := frame_irq e s3) in * end.
  clearbody s4. unfold view_of in W. cbn in W. injection W as W1 W2 W3 W4 W5 W6 W7 W8 W9 W10.
  split; [repeat split; congruence|]. right. exists a. rewrite W9. unfold marks in *. cbn in *.
  rewrite V9, <- app_assoc. repeat split; congruence.
Qed.

Lemma phase_b_view c e s :
  linked e → 0 ≤ pont_fd s →
  view_of (phase_b c e s) =
    mkView 0 (phase_a_recue s) (go_inutile s) (pont s) (pont_fd s) (pont_pending s) (fn s) (deux_phases s)
           (marks s ++ (if go_inutile s then [] else [Go (fn s)])) (tdma_running s).
Proof.
  intros He Hfd. unfold phase_b. cbn [go_inutile update_field].
  destruct (go_inutile s) eqn:Eg; cbn [negb].
  - rewrite app_nil_r. unfold view_of, tdma_pacer, marks. cbn. by rewrite Eg.
  - rewrite pont_send_linked; [|done|cbn; lia]. unfold view_of, tdma_pacer, marks, emit. cbn.
    rewrite omap_app. cbn. by rewrite Eg.
Qed.

Lemma force_go_view e s :
  view_of (force_go e s) =
    mkView (tick_phase s) (phase_a_recue s) (go_inutile s) (pont s) (pont_fd s) (pont_pending s) (fn s)
           (deux_phases s) (marks s ++ (if phase_a_recue s then [] else [Irq])) (tdma_running s).
Proof.
  unfold force_go. destruct (phase_a_recue s) eqn:Ea; cbn [negb].
  - rewrite app_nil_r. unfold view_of, marks. cbn. by rewrite Ea.
  - pose proof (frame_irq_view e s) as W. revert W. generalize (frame_irq e s). intros s4 W.
    unfold view_of, marks in *. cbn in *.
    injection W as W1 W2 W3 W4 W5 W6 W7 W8 W9 W10. congruence.
Qed.

(** ** The two-phase protocol *)
Definition nxt (f : Z) : Z := (f + 1) mod GSM_HYPERFRAME.

(** Before a TICK: the DONE that ends the previous frame when one is owed, and an
    optional channel announcement. *)
Definition opening (owed : bool) (pre : list mark) : Prop :=
  ∃ d n, pre = d ++ n ∧ (if owed then ∃ a, d = [Done a] else d = []) ∧ (n = [] ∨ n = [Dcch]).

(** After the TICK of frame [f]: the answer of the DSP, the frame interrupt and the
    GO; no GO exactly when the answer is final (without the PHASE_A flag); the
    interrupt and the GO alone when no answer came ([phase1_guard] says when the
    wait is given up).  The last argument says
    whether the DSP still owes the DONE of the frame. *)
Inductive closing (f : Z) : list mark → bool → Prop :=
  | closing_two a : has a PONT_DONE_PHASE_A = true → closing f [Done a; Irq; Go f] true
  | closing_one a : has a PONT_DONE_PHASE_A = false → closing f [Done a; Irq] false
  | closing_none : closing f [Irq; Go f] true.

(** Complete frames from [f0] on: the marks, the last frame number, and whether its
    DONE is owed. *)
Inductive frames (f0 : Z) (owed0 : bool) : list mark → Z → bool → Prop :=
  | frames_none : frames f0 owed0 [] f0 owed0
  | frames_next l g owed pre ans owed' :
      frames f0 owed0 l g owed → opening owed pre → closing (nxt g) ans owed' →
      frames f0 owed0 (l ++ pre ++ Tick (nxt g) :: ans) (nxt g) owed'.

(** The frame under way, [g] being the last complete one. *)
Definition under_way (g : Z) (owed : bool) (s : CalypsoTRX) (cur : list mark) : Prop :=
  (tick_phase s = 0 ∧ fn s = g ∧ pont_pending s = owed ∧ cur = []) ∨
  (tick_phase s = 1 ∧ fn s = nxt g ∧
   ∃ pre, opening owed pre ∧
     ((phase_a_recue s = false ∧ go_inutile s = false ∧ pont_pending s = true ∧ cur = pre ++ [Tick (fn s)]) ∨
      (phase_a_recue s = true ∧ ∃ a, go_inutile s = negb (has a PONT_DONE_PHASE_A) ∧
         pont_pending s = has a PONT_DONE_PHASE_A ∧ cur = pre ++ [Tick (fn s); Done a; Irq]))).

Record proto (f0 : Z) (owed0 : bool) (m0 : list mark) (s : CalypsoTRX) : Prop := {
  pr_pont : pont s = true;
  pr_fd : 0 ≤ pont_fd s;
  pr_deux : deux_phases s = false;
  pr_run : tdma_running s = true;
  pr_fn : 0 ≤ fn s < GSM_HYPERFRAME;
  pr_marks : ∃ l g owed cur, frames f0 owed0 l g owed ∧ marks s = m0 ++ l ++ cur ∧ under_way g owed s cur
}.

Lemma proto_quiet f0 owed0 m0 s s' : quiet s s' → proto f0 owed0 m0 s → proto f0 owed0 m0 s'.
Proof.
  intros (V1 & V2 & V3 & V4 & V5 & V6 & V7 & V8 & V9 & V10)%view_eq [H1 H2 H3 H6 H4 H5].
  split; try congruence. unfold under_way in *. by rewrite V1, V2, V3, V6, V7, V9.
Qed.

Section protocol.
  Context (shm_ok : option (list TSP.CalypsoRfProg)) (c : Cfg) (Hc : arm_first c = true).
  Context (f0 : Z) (owed0 : bool) (m0 : list mark).

(** The end of phase 1 completes the frame. *)
Lemma phase_b_proto e s l g owed pre ans :
  linked e → 0 ≤ pont_fd s → pont s = true → deux_phases s = false → tdma_running s = true →
  0 ≤ fn s < GSM_HYPERFRAME → frames f0 owed0 l g owed → opening owed pre → fn s = nxt g →
  marks s = m0 ++ l ++ pre ++ Tick (fn s) :: ans →
  closing (nxt g) (ans ++ (if go_inutile s then [] else [Go (nxt g)])) (pont_pending s) →
  proto f0 owed0 m0 (phase_b c e s).
Proof.
  intros He Hfd Hp Hd Hrun Hfn Hl Hpre Hg Hm Hans.
  pose proof (phase_b_view c e s He Hfd) as V. generalize dependent (phase_b c e s). intros s' V.
  unfold view_of in V. injection V as V1 V2 V3 V4 V5 V6 V7 V8 V9 V10. split; try congruence.
  eexists _, (nxt g), _, []. split; [exact (frames_next _ _ _ _ _ _ _ _ Hl Hpre Hans)|].
  split; [|left; split; [done|split; [congruence|done]]].
  rewrite V9, Hm, Hg, app_nil_r. rewrite <- !app_assoc. by destruct (go_inutile s).
Qed.

(** What phase 1 leaves when it does not end. *)
Lemma phase_a_collect_under e s g owed cur :
  linked e → tick_phase s = 1 → under_way g owed s cur →
  let s1 := phase_a_collect e s in
  (tick_phase s1 = tick_phase s ∧ pont s1 = pont s ∧ pont_fd s1 = pont_fd s ∧ fn s1 = fn s ∧
   deux_phases s1 = deux_phases s ∧ tdma_running s1 = tdma_running s) ∧
  ∃ more, marks s1 = marks s ++ more ∧ under_way g owed s1 (cur ++ more).
Proof.
  intros He Hph Hu. cbn zeta. destruct Hu as [[? _]|(_ & Hg & pre & Hpre & Hu)]; [congruence|].
  destruct Hu as [(Ha & Hgo & Hpend & ->)|(Ha & a & Hgo & Hpend & ->)].
  - destruct (phase_a_collect_view e s He Ha) as ((C1 & C2 & C3 & C4 & C5 & C6) & D).
    set (s1 := phase_a_collect e s) in *. clearbody s1. split; [done|].
    destruct D as [(D1 & D2 & D3 & D4)|(a & D1 & D2 & D3 & D4)].
    + exists []. rewrite !app_nil_r. split; [done|]. right. rewrite C1, C4. split; [done|]. split; [done|].
      exists pre. split; [done|]. left. repeat split; congruence.
    + exists [Done a; Irq]. split; [done|]. right. rewrite C1, C4. split; [done|]. split; [done|].
      exists pre. split; [done|]. right. split; [done|]. exists a. rewrite D3, D4, Hgo, Hpend, <- app_assoc.
      by destruct (has a PONT_DONE_PHASE_A).
  - unfold phase_a_collect. rewrite Ha. split; [done|]. exists []. rewrite !app_nil_r. split; [done|].
    right. split; [done|]. split; [done|]. exists pre. split; [done|]. right. split; [done|]. by exists a.
Qed.

Lemma tick_phase1_proto e s :
  linked e → tick_phase s = 1 → proto f0 owed0 m0 s → proto f0 owed0 m0 (tick_phase1 c e s).
Proof.
  intros He Hph [Hp Hfd Hd Hrun Hfn (l & g & owed & cur & Hl & Hm & Hu)].
  destruct (phase_a_collect_under e s g owed cur He Hph Hu) as ((C1 & C2 & C3 & C4 & C5 & C6) & more & Hm1 & Hu1).
  unfold tick_phase1. cbn zeta. set (s1 := phase_a_collect e s) in *. clearbody s1.
  rewrite Hm, <- !app_assoc in Hm1. set (cur1 := cur ++ more) in *. clearbody cur1.
  assert (proto f0 owed0 m0 s1) as Hs1 by (split; try congruence; by exists l, g, owed, cur1).
  assert (∀ s2, view_of s2 = view_of s1 → proto f0 owed0 m0 s2) as Hstay by (intros s2 V; by apply (proto_quiet _ _ _ s1)).
  destruct Hu1 as [[? _]|(_ & Hg & pre & Hpre & Hu1)]; [congruence|].
  destruct (fini e s1) eqn:Efini.
  { unfold fini in Efini. apply andb_true_iff in Efini as [Ha _].
    destruct Hu1 as [(? & _)|(_ & a & Hgo & Hpend & ->)]; [congruence|].
    apply (phase_b_proto e s1 l g owed pre [Done a; Irq]); try congruence.
    rewrite Hgo, Hpend. destruct (has a PONT_DONE_PHASE_A) eqn:Eh; by constructor. }
  case_if.
  { apply Hstay. rewrite retry_view, view_emit_quiet, attentes_view by done. by case_if. }
  case_if; [apply Hstay; by rewrite retry_view, view_emit_quiet, attentes_view by done|].
  case_if; [apply Hstay; by rewrite retry_view, !attentes_view|].
  pose proof (attentes_view s1 (eoi_attentes s1 + 1)) as X.
  set (x := s1 <| eoi_attentes := eoi_attentes s1 + 1 |>) in *. clearbody x.
  apply view_eq in X as (X1 & X2 & X3 & X4 & X5 & X6 & X7 & X8 & X9 & X10).
  pose proof (force_go_view e x) as V. set (s2 := force_go e x) in *. clearbody s2.
  unfold view_of in V. injection V as V1 V2 V3 V4 V5 V6 V7 V8 V9 V10. rewrite X9, X2, Hm1 in V9.
  destruct Hu1 as [(Ha & Hgo & Hpend & ->)|(Ha & a & Hgo & Hpend & ->)]; rewrite Ha in V9.
  - apply (phase_b_proto e s2 l g owed pre [Irq]); try congruence.
    + by rewrite V9, V7, X7, <- !app_assoc.
    + rewrite V3, V6, X3, X6, Hgo, Hpend. constructor.
  - apply (phase_b_proto e s2 l g owed pre [Done a; Irq]); try congruence.
    + by rewrite V9, V7, X7, app_nil_r.
    + rewrite V3, V6, X3, X6, Hgo, Hpend. destruct (has a PONT_DONE_PHASE_A) eqn:Eh; by constructor.
Qed.

(** In lock-step the previous frame is over when a tick goes on: the DONE it owed
    was taken. *)
Lemma lockstep_wait_view e s :
  linked e → pont s = true → 0 ≤ pont_fd s →
  let '(ready, s1) := lockstep_wait c e s in
  if ready : bool then
    ∃ d, (if pont_pending s then ∃ a, d = [Done a] else d = []) ∧
      view_of s1 = mkView (tick_phase s) (phase_a_recue s) (go_inutile s) (pont s) (pont_fd s) false (fn s)
                          (deux_phases s) (marks s ++ d) (tdma_running s)
  else view_of s1 = view_of s.
Proof using Hc.
  intros He Hp Hfd. assert (lockstep c = true) as Hls by (by apply andb_true_iff in Hc as [? _]).
  unfold lockstep_wait. rewrite Hp, Hls. destruct (Z.leb_spec 0 (pont_fd s)); [|lia]. cbn [andb].
  destruct (pont_pending s) eqn:Epend; cbn [andb].
  - pose proof (recv_done_linked e He s) as Hs. destruct (recv_done e s) as [[a|] s1]; cbn [fst snd] in Hs.
    + exists [Done a]. split; [by exists a|]. rewrite done_collected_view. unfold view_of in Hs.
      injection Hs as S1 S2 S3 S4 S5 S6 S7 S8 S9 S10. congruence.
    + rewrite retry_view, view_emit_quiet by done. rewrite Hs, app_nil_r. unfold view_of. congruence.
  - exists []. split; [done|]. unfold view_of. by rewrite Epend, Hp, app_nil_r.
Qed.

Lemma sequencer_tick_view s : view_of (sequencer_tick shm_ok s) = view_of s.
Proof. done. Qed.

Lemma frame_exchange_view e s :
  linked e → pont s = true → 0 ≤ pont_fd s → pont_pending s = false →
  view_of (frame_exchange c e s) =
    mkView (tick_phase s) (phase_a_recue s) (go_inutile s) true (pont_fd s) true (fn s) false
           (marks s ++ (if dcch_a_dire s then [Dcch] else []) ++ [Tick (fn s)]) (tdma_running s).
Proof using Hc.
  intros He Hp Hfd Hpend. unfold frame_exchange. rewrite Hp, Hc. cbv iota zeta.
  assert (pont_echange e (s <| deux_phases := true |>) = pont_tick_send e (s <| deux_phases := true |>)) as ->.
  { unfold pont_echange. change (pont_fd (s <| deux_phases := true |>)) with (pont_fd s).
    change (pont_pending (s <| deux_phases := true |>)) with (pont_pending s).
    destruct (Z.ltb_spec (pont_fd s) 0); [lia|]. by rewrite Hpend. }
  match goal with |- context [pont_tick_send e ?x] =>
    pose proof (pont_tick_send_view e x He Hfd) as V; revert V; generalize (pont_tick_send e x) end.
  intros s1 V. unfold view_of, marks in V |- *. cbn in V |- *.
  injection V as V1 V2 V3 V4 V5 V6 V7 V8 V9 V10. congruence.
Qed.

(** The start of phase 1. *)
Definition enter_phase1 (s : CalypsoTRX) : CalypsoTRX :=
  s <| eoi_attentes := 0 |> <| phase_a_recue := false |> <| go_inutile := false |> <| tick_phase := 1 |>.

Lemma enter_phase1_view s :
  view_of (enter_phase1 s) =
    mkView 1 false false (pont s) (pont_fd s) (pont_pending s) (fn s) (deux_phases s) (marks s) (tdma_running s).
Proof. done. Qed.

Lemma fn_view s f :
  view_of (s <| fn := f |>) =
    mkView (tick_phase s) (phase_a_recue s) (go_inutile s) (pont s) (pont_fd s) (pont_pending s) f
           (deux_phases s) (marks s) (tdma_running s).
Proof. done. Qed.

(** A frame start: nothing, or the next frame number and its TICK. *)
Lemma tick_phase0_view e s :
  linked e → pont s = true → 0 ≤ pont_fd s → 0 ≤ fn s < GSM_HYPERFRAME →
  view_of (tick_phase0 shm_ok c e s) = view_of s ∨
  ∃ pre, opening (pont_pending s) pre ∧
    view_of (tick_phase0 shm_ok c e s) =
      mkView 1 false false true (pont_fd s) true (nxt (fn s)) false (marks s ++ pre ++ [Tick (nxt (fn s))])
             (tdma_running s).
Proof using Hc.
  intros He Hp Hfd Hfn. unfold tick_phase0. pose proof (lockstep_wait_view e s He Hp Hfd) as V.
  destruct (lockstep_wait c e s) as [ready s1]. destruct ready; cbn [negb]; [right|by left].
  destruct V as (d & Hd & V). unfold view_of in V. injection V as V1 V2 V3 V4 V5 V6 V7 V8 V9 V10.
  assert (next_fn c e s1 = nxt (fn s)) as En.
  { unfold next_fn. apply andb_true_iff in Hc as [-> _]. rewrite V4, Hp, V5, V7.
    destruct (Z.leb_spec 0 (pont_fd s)); [|lia]. cbn [andb]. unfold nxt, GSM_HYPERFRAME in *.
    rewrite u32_small by lia. done. }
  rewrite En. set (s2 := emit (sequencer_tick shm_ok (s1 <| fn := nxt (fn s) |>)) UartPump).
  assert (view_of s2 = view_of (s1 <| fn := nxt (fn s) |>)) as W.
  { unfold s2. by rewrite view_emit_quiet, sequencer_tick_view. }
  clearbody s2. rewrite fn_view in W. unfold view_of in W. injection W as W1 W2 W3 W4 W5 W6 W7 W8 W9 W10.
  pose proof (frame_exchange_view e s2 He ltac:(congruence) ltac:(lia) ltac:(congruence)) as X.
  generalize dependent (frame_exchange c e s2). intros s3 X.
  unfold view_of in X. injection X as X1 X2 X3 X4 X5 X6 X7 X8 X9 X10.
  rewrite X4, X5, X6, Hc. destruct (Z.leb_spec 0 (pont_fd s2)); [|lia]. cbn [andb].
  fold (enter_phase1 s3). rewrite retry_view, enter_phase1_view.
  exists (d ++ if dcch_a_dire s2 then [Dcch] else []).
  split; [exists d; eexists; split; [done|]; split; [done|]; destruct (dcch_a_dire s2); auto|].
  rewrite X9, W9. cbn [fn update_field]. change (marks (s1 <| fn := nxt (fn s) |>)) with (marks s1). rewrite V9.
  rewrite <- !app_assoc. f_equal; congruence.
Qed.

Lemma tick_phase0_proto e s :
  linked e → tick_phase s = 0 → proto f0 owed0 m0 s → proto f0 owed0 m0 (tick_phase0 shm_ok c e s).
Proof using Hc.
  intros He Hph Hs. pose proof Hs as [Hp Hfd Hd Hrun Hfn (l & g & owed & cur & Hl & Hm & Hu)].
  destruct Hu as [(_ & Hg & Hpend & Hcur)|[? _]]; [|congruence].
  destruct (tick_phase0_view e s He Hp Hfd Hfn) as [V|(pre & Hpre & V)]; [by eapply proto_quiet|].
  generalize dependent (tick_phase0 shm_ok c e s). intros s' V.
  unfold view_of in V. injection V as V1 V2 V3 V4 V5 V6 V7 V8 V9 V10. split; try congruence; try lia.
  - rewrite V7. apply Z.mod_pos_bound. unfold GSM_HYPERFRAME. lia.
  - exists l, g, owed, (pre ++ [Tick (nxt g)]). split; [done|]. rewrite V9, Hm, Hcur, Hg, app_nil_r, <- !app_assoc.
    split; [done|]. right. rewrite V1, V7, V2, V3, V6, Hg. split; [done|]. split; [done|].
    exists pre. rewrite <- Hpend. split; [done|]. by left.
Qed.

Lemma tdma_tick_proto e s : linked e → proto f0 owed0 m0 s → proto f0 owed0 m0 (tdma_tick shm_ok c e s).
Proof using Hc.
  intros He Hs. unfold tdma_tick. destruct (running e); cbn [negb]; [|by apply (proto_quiet _ _ _ s)].
  destruct (Z.eqb_spec (tick_phase s) 1) as [E|E]; [by apply tick_phase1_proto|].
  apply tick_phase0_proto; [done| |done].
  destruct Hs as [_ _ _ _ _ (l & g & owed & cur & _ & _ & [[? _]|[? _]])]; congruence.
Qed.

(** A step of the machine: a tick of the TDMA timer, or anything that does not
    take part in the protocol. *)
Inductive sys_step : CalypsoTRX → CalypsoTRX → Prop :=
  | sys_tick e s : linked e → sys_step s (tdma_tick shm_ok c e s)
  | sys_quiet s s' : quiet s s' → sys_step s s'.

Lemma sys_step_proto s s' : sys_step s s' → proto f0 owed0 m0 s → proto f0 owed0 m0 s'.
Proof using Hc. intros [e s1 He|s1 s1' Hq]; [by apply tdma_tick_proto|by apply proto_quiet]. Qed.

Lemma reach_proto s s' : rtc sys_step s s' → proto f0 owed0 m0 s → proto f0 owed0 m0 s'.
Proof using Hc. induction 1; [done|]. eauto using sys_step_proto. Qed.

End protocol.

(** Between frames with the bridge up, the machine is in the protocol. *)
Lemma proto_start s :
  pont s = true → 0 ≤ pont_fd s → deux_phases s = false → tdma_running s = true →
  0 ≤ fn s < GSM_HYPERFRAME → tick_phase s = 0 →
  proto (fn s) (pont_pending s) (marks s) s.
Proof.
  intros. split; try done. exists [], (fn s), (pont_pending s), []. split; [constructor|]. rewrite app_nil_r. split; [done|]. by left.
Qed.

(** ** The wait of phase 1 is bounded *)
Definition wait_bound (c : Cfg) : Z := (if pont_arm_lock c then 64 else 32) * PONT_ATTENTES_MAX c.

Lemma attentes_max_range c : 16 ≤ PONT_ATTENTES_MAX c ≤ 131072.
Proof.
  unfold PONT_ATTENTES_MAX, pont_retry_div. cbn zeta. case_ifs; rewrite ?Z.quot_div_nonneg by lia; mlia.
Qed.

Lemma collect_attentes e s :
  eoi_attentes (phase_a_collect e s) = eoi_attentes s ∧ tick_phase (phase_a_collect e s) = tick_phase s ∧
  eoi_timeouts (phase_a_collect e s) = eoi_timeouts s.
Proof.
  unfold phase_a_collect, recv_done, pont_recv, done_collected. destruct (phase_a_recue s) eqn:Ea; [done|].
  destruct (pont_fd s <? 0); [by rewrite Ea|]. destruct (rx e) as [| |m].
  - by rewrite Ea.
  - cbn [phase_a_recue update_field]. by rewrite Ea.
  - destruct (m_type m =? PONT_DONE); [|cbn [phase_a_recue emit update_field]; by rewrite Ea].
    destruct (has (m_a m) PONT_DONE_PHASE_A), (has (m_a m) PONT_DONE_API_IRQ); done.
Qed.

Lemma phase_b_fields c e s :
  tick_phase (phase_b c e s) = 0 ∧ eoi_timeouts (phase_b c e s) = eoi_timeouts s ∧
  eoi_cible (phase_b c e s) = eoi_cible s ∧ phase_a_recue (phase_b c e s) = phase_a_recue s.
Proof.
  unfold phase_b, pont_send. cbn zeta. cbn [go_inutile pont_fd update_field].
  destruct (negb (go_inutile s)); [|done]. destruct (pont_fd s <? 0); [done|].
  match goal with |- context [tx_ok e ?m] => by destruct (tx_ok e m) end.
Qed.

(** A tick of phase 1 ends the phase, or counts one more wait below the bound. *)
Lemma phase1_progress c e s :
  let s' := tick_phase1 c e s in
  tick_phase s' = 0 ∨
  (tick_phase s' = tick_phase s ∧ eoi_attentes s + 1 ≤ eoi_attentes s' ∧ eoi_attentes s + 1 < wait_bound c).
Proof.
  cbn zeta. pose proof (attentes_max_range c). destruct (collect_attentes e s) as (E1 & E2 & E3).
  unfold tick_phase1, wait_bound. cbn zeta. set (s1 := phase_a_collect e s) in *. clearbody s1.
  destruct (fini e s1); [left; apply phase_b_fields|].
  case_if; bool_prop.
  { right. destruct (_ =? _); cbn; (split; [done|]); destruct (pont_arm_lock c); lia. }
  case_if; bool_prop; [right; cbn; split; [done|]; destruct (pont_arm_lock c); lia|].
  case_if; bool_prop; [right; cbn; split; [done|]|left; apply phase_b_fields].
  destruct (pont_arm_lock c); [lia|done].
Qed.

(** phase 1 always ends: the wait for the DSP and for the ARM is given up after
    a bounded number of ticks (8192 by default), also when the connection is
    lost, so that the machine does not hang on its peer. *)
Theorem phase1_ends shm_ok c envs s :
  tick_phase s = 1 → 0 ≤ eoi_attentes s → Forall (λ e, running e = true) envs →
  wait_bound c ≤ zlen envs →
  ∃ n, Z.of_nat n ≤ wait_bound c ∧ tick_phase (run (λ s e, tdma_tick shm_ok c e s) s (take n envs)) = 0.
Proof.
  intros Hph H0 Hr Hlen.
  pose proof (attentes_max_range c).
  assert (16 ≤ wait_bound c) by (unfold wait_bound; destruct (pont_arm_lock c); lia).
  enough (∀ k s, tick_phase s = 1 → wait_bound c - eoi_attentes s ≤ Z.of_nat (S k) → ∀ envs,
    Forall (λ e, running e = true) envs → (S k ≤ length envs)%nat →
    ∃ n, (n ≤ S k)%nat ∧ tick_phase (run (λ s e, tdma_tick shm_ok c e s) s (take n envs)) = 0) as Hk.
  { destruct (Hk (Z.to_nat (wait_bound c - 1)) s Hph ltac:(lia) envs Hr) as (n & Hn & Hz); [unfold zlen in *; lia|].
    exists n. split; [lia|done]. }
  clear. induction k as [|k IH]; intros s Hph Hk envs Hr Hlen;
    (destruct envs as [|e envs]; [cbn in Hlen; lia|]); apply Forall_cons_iff in Hr as [He Hr];
    (assert (tdma_tick shm_ok c e s = tick_phase1 c e s) as Et by (unfold tdma_tick; by rewrite He, Hph));
    destruct (phase1_progress c e s) as [Hz|(Hs & Ha & Hb)]; try lia;
    try (exists 1%nat; split; [lia|]; cbn; by rewrite Et).
  cbn in Hlen. destruct (IH (tick_phase1 c e s) ltac:(congruence) ltac:(lia) envs Hr ltac:(lia)) as (n & Hn & Hz).
  exists (S n). split; [lia|]. cbn [take run foldl]. by rewrite Et.
Qed.

(** ** What ends phase 1 *)
Lemma phase1_guard c e s :
  tick_phase s = 1 → tick_phase (tick_phase1 c e s) = 0 →
  fini e (phase_a_collect e s) = true ∨
  (eoi_timeouts (tick_phase1 c e s) = u32 (eoi_timeouts s + 1) ∧ PONT_ATTENTES_MAX c ≤ eoi_attentes s + 1 ∧
   (phase_a_recue (phase_a_collect e s) = true → PONT_ATTENTES_MAX c * 32 ≤ eoi_attentes s + 1)).
Proof.
  intros Hph. destruct (collect_attentes e s) as (E1 & E2 & E3). unfold tick_phase1. cbn zeta.
  set (s1 := phase_a_collect e s) in *. clearbody s1.
  destruct (fini e s1); [by left|]. intros Hz. right. revert Hz.
  case_if; [destruct (_ =? _); cbn; congruence|]. case_if; [cbn; congruence|]. case_if; [cbn; congruence|].
  intros _. rewrite andb_false_iff, andb_false_iff in *. bool_prop. split.
  - rewrite (proj1 (proj2 (phase_b_fields c e _))). unfold force_go.
    cbn [phase_a_recue update_field]. destruct (negb (phase_a_recue s1)); cbn; by rewrite E3.
  - split; [lia|]. intros Ha. rewrite Ha in E. destruct E as [[E|E]|E]; bool_prop; [lia|lia|done].
Qed.

(** ** The pacer *)
Lemma grid_loop_spec fuel now t :
  now - t < Z.of_nat fuel * GSM_TDMA_NS →
  ∃ k, 0 ≤ k ∧ grid_loop fuel now t = t + k * GSM_TDMA_NS ∧ now < grid_loop fuel now t ∧
       (k = 0 ∨ grid_loop fuel now t - GSM_TDMA_NS ≤ now).
Proof.
  revert t. induction fuel as [|fuel IH]; intros t H; cbn [grid_loop].
  - exists 0. lia.
  - destruct (Z.leb_spec t now); [|exists 0; lia].
    destruct (IH (t + GSM_TDMA_NS)) as (k & Hk & E & Hn & Hl); [lia|].
    exists (k + 1). rewrite E in *. unfold GSM_TDMA_NS in *. lia.
Qed.

Lemma grid_next_spec now t :
  ∃ k, 0 ≤ k ∧ grid_next now t = t + k * GSM_TDMA_NS ∧ now < grid_next now t ∧
       (k = 0 ∨ grid_next now t - GSM_TDMA_NS ≤ now).
Proof.
  apply grid_loop_spec. unfold GSM_TDMA_NS.
  destruct (Z.lt_ge_cases (now - t) 0); [nia|]. mlia.
Qed.

(** The instant the pacer starts from. *)
Definition pace_origin (e : Env) (s : CalypsoTRX) : Z := if target s =? 0 then rt e else target s.

(** The next frame is one period after the previous one.  With catch-up it is
    so even when that instant is past, unless the lateness exceeds the allowed
    number of frames, in which case the frame is due now; without catch-up it
    is on the first point of the same grid in the future. *)
Theorem pacer_next c e s :
  let t := target (tdma_pacer c e s) in
  let t0 := pace_origin e s in
  tdma_timer (tdma_pacer c e s) = Some t ∧
  (0 < rattrapage c →
     rt e - rattrapage c * GSM_TDMA_NS ≤ t ∧
     (t = t0 + GSM_TDMA_NS ∨ t = rt e ∧ t0 + GSM_TDMA_NS < rt e - rattrapage c * GSM_TDMA_NS)) ∧
  (rattrapage c = 0 →
     rt e < t ∧ ∃ k, 1 ≤ k ∧ t = t0 + k * GSM_TDMA_NS ∧ (k = 1 ∨ t - GSM_TDMA_NS ≤ rt e)).
Proof.
  cbn zeta. unfold tdma_pacer. cbn [target tdma_timer update_field]. fold (pace_origin e s).
  split; [done|]. split; intros Hr.
  - destruct (Z.eqb_spec (rattrapage c) 0); [lia|]. case_if; bool_prop; unfold GSM_TDMA_NS in *; lia.
  - rewrite Hr. cbn [Z.eqb].
    destruct (grid_next_spec (rt e) (pace_origin e s + GSM_TDMA_NS)) as (k & Hk & E & Hn & Hl).
    rewrite E in *. split; [done|]. exists (k + 1). unfold GSM_TDMA_NS in *. lia.
Qed.

(** No frame is lost: as long as the lateness stays within the limit, [n] frames
    take [n] periods, however irregular the instants they are served at. *)
Theorem pacer_keeps_rate c envs s :
  0 < rattrapage c → 0 < target s →
  (∀ i e, envs !! i = Some e →
     rt e ≤ target s + (Z.of_nat i + 1) * GSM_TDMA_NS + rattrapage c * GSM_TDMA_NS) →
  target (run (λ s e, tdma_pacer c e s) s envs) = target s + zlen envs * GSM_TDMA_NS.
Proof.
  intros Hr. revert s. induction envs as [|e envs IH]; intros s Ht He; [unfold zlen; cbn; lia|].
  cbn [run foldl].
  assert (target (tdma_pacer c e s) = target s + GSM_TDMA_NS) as E.
  { specialize (He 0%nat e eq_refl). destruct (pacer_next c e s) as (_ & H & _).
    unfold pace_origin in H. destruct (Z.eqb_spec (target s) 0); [lia|].
    specialize (H Hr). unfold GSM_TDMA_NS in *. lia. }
  fold (run (λ s e, tdma_pacer c e s)). rewrite IH; rewrite ?E.
  - unfold zlen. cbn [length]. unfold GSM_TDMA_NS. lia.
  - unfold GSM_TDMA_NS. lia.
  - intros i e' Hi. specialize (He (S i) e' Hi). unfold GSM_TDMA_NS in *. lia.
Qed.

(** ** An answer that comes late *)
Definition cfg_lockstep : Cfg := mkCfg true true false None 20 true true false None.

(** The machine between two frames with the bridge up, at frame 0. *)
Definition trx_linked : CalypsoTRX := trx_new <| pont := true |> <| pont_fd := 0 |> <| tdma_running := true |>.

(** A tick that finds [r] in the socket and the counter of ends of service at [n]. *)
Definition env_with (r : RxResult) (n : Z) : Env :=
  mkEnv true 1000000 0 0 r (λ _, true) n false None (λ m, m).

Definition done_msg (a : Z) : RxResult := RxMsg (mkMsg PONT_DONE a 0 0).

(** The DSP answers the TICK of frame 1 after the 256 waits, with PHASE_A, then
    ends the frame.  The lock-step test does not look at PHASE_A and takes the
    first answer for the end of frame 1; the true end of frame 1 then passes for
    the answer of a single-phase DSP to frame 2, whose GO is never sent. *)
Theorem late_phase_a_loses_go :
  let ticks := env_with RxNone 0 :: replicate 256 (env_with RxNone 0) ++
               [env_with (done_msg PONT_DONE_PHASE_A) 0; env_with (done_msg 0) 0;
                env_with RxNone 1; env_with RxNone 1] in
  marks (run (λ s e, tdma_tick None cfg_lockstep e s) trx_linked ticks) =
    [Tick 1; Irq; Go 1; Done PONT_DONE_PHASE_A; Tick 2; Done 0; Irq; Tick 3].
Proof. vm_compute. reflexivity. Qed.

(** One frame with a DSP that answers in time. *)
Definition frame_envs : list Env :=
  [env_with RxNone 0; env_with (done_msg PONT_DONE_PHASE_A) 0; env_with RxNone 1].

Lemma env_with_linked r n : r ≠ RxLost → linked (env_with r n).
Proof. done. Qed.

Lemma phase1_ends_witness :
  ∃ n, Z.of_nat n ≤ wait_bound cfg_lockstep ∧
    tick_phase (run (λ s e, tdma_tick None cfg_lockstep e s) (trx_linked <| tick_phase := 1 |>)
                  (take n (replicate (Z.to_nat 8192) (env_with RxNone 0)))) = 0.
Proof.
  apply (phase1_ends None cfg_lockstep).
  - reflexivity.
  - vm_compute. discriminate.
  - apply Forall_replicate. reflexivity.
  - unfold zlen. rewrite length_replicate, Z2Nat.id by lia. vm_compute. discriminate.
Defined.

Definition trx_paced : CalypsoTRX := trx_linked <| target := 5000000 |>.

Lemma pacer_keeps_rate_witness :
  target (run (λ s e, tdma_pacer cfg_lockstep e s) trx_paced [env_with RxNone 0; env_with RxNone 0]) =
    target trx_paced + zlen [env_with RxNone 0; env_with RxNone 0] * GSM_TDMA_NS.
Proof.
  apply (pacer_keeps_rate cfg_lockstep [env_with RxNone 0; env_with RxNone 0] trx_paced).
  - reflexivity.
  - reflexivity.
  - intros i e Hi. destruct i as [|[|i]]; [injection Hi as <-..|discriminate]; vm_compute; discriminate.
Defined.

End PONT.
