(* ===== verification/TrxApi.v ===== *)
(** * The register windows of the transceiver ([calypso_trx.c])

    The API RAM window as the ARM sees it (with the hooks towards layer 1, the
    emulated bootloader and the request reference of the immediate assignment),
    and the TPU, TSP and ULPD registers.  A window access carries the state of
    the layer 1 behind the seam ([L1Ops.v]). *)
From stdpp Require Import gmap strings.
From S2P Require Import Prelude ApiRam Elf Cstr L1Ops Rf Trx TrxPont.
Import API L1OPS TRX PONT.

Module TRX_API.
Create HintDb trxapi.

(** ** The request reference of the IMMEDIATE ASSIGNMENT *)

(** Octets 8 and 9 of the block for a frame number: T1', T3 and T2. *)
Definition reqref (memo : Z) : Z :=
  let t1p := memo / 1326 mod 32 in
  let t2 := memo mod 26 in
  let t3 := memo mod 51 in
  let o8 := u8 (Z.lor (Z.shiftl t1p 3) (Z.land (Z.shiftr t3 3) 7)) in
  let o9 := u8 (Z.lor (Z.shiftl (Z.land t3 7) 5) (Z.land t2 0x1f)) in
  u16 (Z.lor o8 (Z.shiftl o9 8)).

(** The firmware's [last_rach.fn], read in ARM memory at the symbol's address;
    0 when the symbol is not found. *)
Definition pont_last_rach_fn (c : Cfg) (w : World) : Z :=
  match ELF.calypso_firmware_symbol (firmware c) (str "last_rach") with
  | ELF.Value adr => if adr =? 0 then 0 else w_arm32 w adr
  | _ => 0
  end.

Definition pont_reqref_corrigee (c : Cfg) (w : World) (s : CalypsoTRX) (woff : Z) : option Z :=
  if negb (woff =? API_NDB + NDB_A_CD + 14) then None
  else
    let d k := aget8 (api_ram s) (API_NDB + NDB_A_CD + 6 + k) in
    if negb (d 1 =? 0x06) || negb (d 2 =? 0x3f) then None
    else
      let memo := rd (rach_fn s) (d 7) in
      let memo := if (memo =? 0) && rach_ra_vue s && (d 7 =? rach_ra s) then pont_last_rach_fn c w else memo in
      if memo =? 0 then None
      else
        let out := reqref memo in
        if negb (out =? u16 (Z.lor (d 8) (Z.shiftl (d 9) 8))) && negb (reqref_actif c) then None
        else Some out.

(** ** The API RAM window *)
Section window.
  Context {L : Type} (l1 : option (CalypsoL1Ops L)) (c : Cfg).

(** What layer 1 sees of the machine. *)
Definition world_of (w : World) (s : CalypsoTRX) : World :=
  mkWorld (calypso_trx_get_fn s) (TSP.trf (TPU.tsp (seq s))) (w_arm32 w) (w_file w) (w_writable w) (w_pwrite w).

(** A call through the seam: layer 1 works on the API RAM of the transceiver. *)
Definition via_l1 (f : World → ram * L → ram * L) (w : World) (x : CalypsoTRX * L) : CalypsoTRX * L :=
  let '(m, l) := f (world_of w (fst x)) (api_ram (fst x), snd x) in (fst x <| api_ram := m |>, l).

(** The memory word, halfword or byte of the access. *)
Definition api_val (m : ram) (off size : Z) : Z :=
  if size =? 2 then aget m (off / 2)
  else if size =? 4 then Z.lor (aget m (off / 2)) (Z.shiftl (aget m (off / 2 + 1)) 16)
  else aget8 m off.

(** With the external DSP the reference is corrected on its way to the ARM. *)
Definition reqref_patch (w : World) (s : CalypsoTRX) (off size val : Z) : Z :=
  if size =? 2 then default val (pont_reqref_corrigee c w s off)
  else if size =? 4 then
    let val := match pont_reqref_corrigee c w s off with
               | Some fix_ => Z.lor (Z.land val 0xFFFF0000) fix_ | None => val end in
    match pont_reqref_corrigee c w s (off + 2) with
    | Some fix_ => Z.lor (Z.land val 0x0000FFFF) (Z.shiftl fix_ 16) | None => val
    end
  else val.

(** A 16-bit read with the external DSP. *)
Definition api_read_pont (e : Env) (s : CalypsoTRX) (off val : Z) : Z * CalypsoTRX :=
  let s := if off =? API_BL_STATUS then s <| bl_lu_fn := u32 (fn s + 1) |> else s in
  if (off =? API_BL_STATUS) && negb (val =? 1) && negb (tdma_running s) && pont_boot_poll c then
    let s := s <| bl_polls := u32 (bl_polls s + 1) |> in
    if Z.land (bl_polls s) 31 =? 0 then
      let s := pont_boot_pas e s in (aget (api_ram s) (API_BL_STATUS / 2), s)
    else (val, s)
  else (val, s).

Definition is_rp (off field : Z) : bool := (off =? API_R_PAGE 0 + field) || (off =? API_R_PAGE 1 + field).

(** A read of [d_task_d] of a read page takes the next burst number. *)
Definition read_task_d (x : CalypsoTRX * L) (off val : Z) : Z * CalypsoTRX :=
  let s := fst x in
  if is_rp off RP_D_TASK_D then
    let s := s <| burst_cur := rd (burst_ring s) (Z.land (burst_r s) 7) |> <| burst_r := u32 (burst_r s + 1) |> in
    (if (val =? 0) && calypso_l1_do_si_valid l1 (api_ram s, snd x) then ALLC_DSP_TASK else val, s)
  else (val, s).

(** The emulated bootloader leaves its loop after three polls. *)
Definition bl_poll (s : CalypsoTRX) (off val : Z) : Z * CalypsoTRX :=
  if (off =? API_BL_STATUS) && negb (bl_booted s) then
    let s := s <| bl_polls := u32 (bl_polls s + 1) |> in
    if BOOT_POLLS_BEFORE_BOOT <? bl_polls s then
      let m := aset (api_ram s) (API_BL_STATUS / 2) BL_STATUS_BOOT in
      let m := aset m (API_VERSION / 2) API_VERSION_VALUE in
      let m := aset m (API_VERSION2 / 2) 0 in
      (BL_STATUS_BOOT, s <| api_ram := m |> <| bl_booted := true |>)
    else (val, s)
  else (val, s).

Definition api_read (e : Env) (w : World) (x : CalypsoTRX * L) (off size : Z) : Z * (CalypsoTRX * L) :=
  let s := fst x in
  if CALYPSO_API_SIZE <=? off then (0, x)
  else
    let val := api_val (api_ram s) off size in
    let val := if pont s then reqref_patch w s off size val else val in
    if negb (size =? 2) then (val, x)
    else if pont s then
      let '(val, s) := api_read_pont e s off val in (val, (s, snd x))
    else
      let '(rv, (m, l)) := calypso_l1_do_api_read_override l1 (world_of w s) (api_ram s, snd x) off in
      let s := s <| api_ram := m |> in
      let val := default val rv in
      let '(val, s) := read_task_d (s, l) off val in
      let val := if is_rp off RP_D_BURST_D then Z.land (burst_cur s + 3) 3 else val in
      let '(val, s) := bl_poll s off val in
      (val, (s, l)).

(** The store of the access. *)
Definition api_store (m : ram) (off value size : Z) : ram :=
  if size =? 2 then aset m (off / 2) (u16 value)
  else if size =? 4 then aset (aset m (off / 2) (u16 value)) (off / 2 + 1) (u16 (Z.shiftr value 16))
  else aset8 m off (u8 value).

(** [d_burst_d]: the burst numbers of consecutive frames queue up. *)
Definition burst_written_hook (w : World) (x : CalypsoTRX * L) (value : Z) : CalypsoTRX * L :=
  let '(s, l) := x in
  let wfn := calypso_l1_do_l1s_fn l1 (world_of w s) (api_ram s, l) in
  let s := if negb (wfn =? u32 (burst_last_fn s + 1)) then s <| burst_w := 0 |> <| burst_r := 0 |> else s in
  let s := s <| burst_last_fn := wfn |>
             <| burst_ring := wr (burst_ring s) (Z.land (burst_w s) 7) (Z.land value 3) |>
             <| burst_w := u32 (burst_w s + 1) |> in
  via_l1 (λ w y, calypso_l1_do_burst_written l1 w y (u16 value)) w (s, l).

Definition rach_written_hook (w : World) (x : CalypsoTRX * L) (value : Z) : CalypsoTRX * L :=
  let s := rach_push (fst x) value in
  via_l1 (λ w y, calypso_l1_do_rach_written l1 w y (u16 value) (fn s)) w (s, snd x).

Definition page_written_hook (w : World) (x : CalypsoTRX * L) (value : Z) : CalypsoTRX * L :=
  via_l1 (λ w y, calypso_l1_do_page_written l1 w y (u16 value)) w (fst x <| dsp_page := Z.land value 1 |>, snd x).

(** The bootloader command of the ARM. *)
Definition bl_written (s : CalypsoTRX) (value : Z) : CalypsoTRX :=
  if (value =? 0) && negb (pont s) then s <| bl_booted := false |> <| bl_polls := 0 |>
  else if value =? BL_STATUS_READY then
    let ver s := s <| api_ram := aset (aset (api_ram s) (API_VERSION / 2) API_VERSION_VALUE) (API_VERSION2 / 2) 0 |> in
    let s := if negb (pont s) then ver s else s in
    let s := emit s (InthUnmask CALYPSO_IRQ_API) in
    if negb (pont s) then s <| api_ram := aset (api_ram s) (API_NDB / 2) 0 |> else s
  else s.

Definition api_write (w : World) (x : CalypsoTRX * L) (off value size : Z) : CalypsoTRX * L :=
  if CALYPSO_API_SIZE <=? off then x
  else
    let '(s, l) := x in
    let s := s <| api_ram := api_store (api_ram s) off value size |> in
    let s := if ((off =? 0x001E) || (off =? 0x0046)) && (size =? 2) && has_twl3025 c
             then emit s (SetAfcDac (TSP.i16 (u16 value))) else s in
    let x := (s, l) in
    let x := if size =? 2
             then via_l1 (λ w y, calypso_l1_do_api_write_observed l1 w y off (u16 value) size) w x else x in
    let x := if (size =? 2) && ((off =? API_W_PAGE 0 + WP_D_BURST_D) || (off =? API_W_PAGE 1 + WP_D_BURST_D))
             then burst_written_hook w x value else x in
    let x := if (off =? API_NDB + NDB_D_RACH) && negb (value =? 0) && ((size =? 2) || (size =? 4))
             then rach_written_hook w x value else x in
    let x := if (off =? API_NDB + NDB_D_DSP_PAGE) && (size =? 2) then page_written_hook w x value else x in
    if off =? API_BL_STATUS then (bl_written (fst x) value, snd x) else x.

(** ** The end of the frame pulse *)

(** The idle loop of the firmware, interrupts enabled, in a mode that is not an
    exception: only there is the CPU halted. *)
Definition cpu_idle_park (e : Env) (s : CalypsoTRX) : CalypsoTRX :=
  match cpu e with
  | None => s
  | Some (pc, cpsr) =>
      if (pc <? IDLE_PC_LO) || (IDLE_PC_HI <=? pc) then s
      else
        let mode := Z.land cpsr 0x1f in
        if has cpsr 0x80 || (mode =? 0x12) || (mode =? 0x11) || (mode =? 0x17) || (mode =? 0x1b) then s
        else emit s CpuPark
  end.

Definition frame_irq_lower (e : Env) (w : World) (x : CalypsoTRX * L) : CalypsoTRX * L :=
  let s := emit (fst x) (IrqLower CALYPSO_IRQ_TPU_FRAME) <| frame_irq_timer := None |> in
  let '(s, l) := via_l1 (calypso_l1_do_frame_tick l1) w (s, snd x) in
  (cpu_idle_park e s, l).
End window.

(** ** The register files *)
Section regs.
  Context (shm_ok : option (list TSP.CalypsoRfProg)).

(** The scenario of the TPU runs on the registers of the transceiver. *)
Definition tpu_done (s : CalypsoTRX) : CalypsoTRX :=
  let s := s <| tpu_regs := wr (tpu_regs s) (TPU_CTRL / 2) (clr (rd (tpu_regs s) (TPU_CTRL / 2)) TPU_CTRL_EN) |> in
  let q := TPU.calypso_tpu_run_scenario shm_ok (seq s) (tpu_ram s) (fn s) (Some (tpu_regs s)) in
  let s := s <| seq := q |> <| tpu_regs := default (tpu_regs s) (TPU.tpu_regs q) |> in
  emit s (IrqRaise CALYPSO_IRQ_API).

Definition tpu_read (s : CalypsoTRX) (off : Z) : Z :=
  if off =? TPU_IT_DSP_PG then dsp_page s
  else if off / 2 <? CALYPSO_TPU_SIZE / 2 then rd (tpu_regs s) (off / 2) else 0.

Definition tpu_write (e : Env) (s : CalypsoTRX) (off val : Z) : CalypsoTRX :=
  let s := if off / 2 <? CALYPSO_TPU_SIZE / 2 then s <| tpu_regs := wr (tpu_regs s) (off / 2) (u16 val) |> else s in
  let s :=
    if (off =? TPU_CTRL) && has val TPU_CTRL_EN then
      let s := s <| tpu_regs := wr (tpu_regs s) (TPU_CTRL / 2)
                   (clr (rd (tpu_regs s) (TPU_CTRL / 2)) (Z.lor TPU_CTRL_EN TPU_CTRL_IDLE)) |> in
      let s := tpu_done s in
      if negb (tdma_running s) && negb (has (rd (tpu_regs s) (TPU_INT_CTRL / 2)) ICTRL_MCU_FRAME)
      then tdma_start e s else s
    else s in
  let s := if (off =? TPU_INT_CTRL) && negb (has val ICTRL_MCU_FRAME) && negb (tdma_running s)
           then tdma_start e s else s in
  if off =? TPU_IT_DSP_PG then s <| dsp_page := Z.land val 1 |> else s.

Definition tpu_ram_read (s : CalypsoTRX) (off : Z) : Z :=
  if off / 2 <? CALYPSO_TPU_RAM_SIZE / 2 then rd (tpu_ram s) (off / 2) else 0.
Definition tpu_ram_write (s : CalypsoTRX) (off v : Z) : CalypsoTRX :=
  if off / 2 <? CALYPSO_TPU_RAM_SIZE / 2 then s <| tpu_ram := wr (tpu_ram s) (off / 2) (u16 v) |> else s.

Definition tsp_read (s : CalypsoTRX) (off : Z) : Z :=
  if off =? TSP_RX_REG then 0xFFFF
  else if off / 2 <? CALYPSO_TSP_SIZE / 2 then rd (tsp_regs s) (off / 2) else 0.
Definition tsp_write (s : CalypsoTRX) (off v : Z) : CalypsoTRX :=
  if off / 2 <? CALYPSO_TSP_SIZE / 2 then s <| tsp_regs := wr (tsp_regs s) (off / 2) (u16 v) |> else s.

Definition ulpd_read (s : CalypsoTRX) (off : Z) : Z * CalypsoTRX :=
  if (0x20 <=? off) && (off <=? 0x40) then (0, s)
  else if off =? ULPD_SETUP_CLK13 then (0x2003, s)
  else if off =? ULPD_COUNTER_HI then
    let s := s <| ulpd_counter := u32 (ulpd_counter s + 100) |> in
    (Z.land (Z.shiftr (ulpd_counter s) 16) 0xFFFF, s)
  else if off =? ULPD_COUNTER_LO then (Z.land (ulpd_counter s) 0xFFFF, s)
  else if off =? ULPD_GAUGING_CTRL then (1, s)
  else if off =? ULPD_GSM_TIMER then (Z.land (fn s) 0xFFFF, s)
  else (if off / 2 <? CALYPSO_ULPD_SIZE / 2 then rd (ulpd_regs s) (off / 2) else 0, s).
Definition ulpd_write (s : CalypsoTRX) (off v : Z) : CalypsoTRX :=
  if (0x20 <=? off) && (off <=? 0x40) then s
  else if off / 2 <? CALYPSO_ULPD_SIZE / 2 then s <| ulpd_regs := wr (ulpd_regs s) (off / 2) (u16 v) |> else s.
End regs.

(** ** Start-up: with [CALYPSO_DSP_EXTERN] the bridge is connected first *)
Definition trx_init_own (s : CalypsoTRX) : CalypsoTRX :=
  let m := aset ∅ (API_BL_STATUS / 2) BL_STATUS_READY in
  s <| api_ram := aset m (API_VERSION / 2) API_VERSION_VALUE |> <| bl_booted := true |>.

Definition calypso_trx_init (e : Env) (dsp_extern : bool) (shm_size : option Z) (mapped connected : bool)
    (shared : ram) : option CalypsoTRX :=
  if dsp_extern then
    s ← pont_connect e trx_new shm_size mapped connected shared;
    Some (s <| bl_booted := true |> <| pont_boot_timer := Some (rt e + GSM_TDMA_NS) |>)
  else Some (trx_init_own trx_new).

(** ** The wall clock thread: absolute deadlines, one frame number per deadline *)
Definition wall_next (t : Z * Z) : Z * Z :=
  let '(sec, nsec) := t in
  let nsec := nsec + GSM_TDMA_NS in
  if 1000000000 <=? nsec then (sec + 1, nsec - 1000000000) else (sec, nsec).

(** ** The reference identifies the frame *)

(** What [gsm48_match_ra] of the mobile reads: T1', T2, T3. *)
Definition ref_t1 (out : Z) : Z := Z.land (Z.shiftr out 3) 0x1f.
Definition ref_t2 (out : Z) : Z := Z.land (Z.shiftr out 8) 0x1f.
Definition ref_t3 (out : Z) : Z := Z.lor (Z.shiftl (Z.land out 7) 3) (Z.land (Z.shiftr out 13) 7).

Definition ref_of (t1p t2 t3 : Z) : Z :=
  u16 (Z.lor (u8 (Z.lor (Z.shiftl t1p 3) (Z.land (Z.shiftr t3 3) 7)))
             (Z.shiftl (u8 (Z.lor (Z.shiftl (Z.land t3 7) 5) (Z.land t2 0x1f))) 8)).

Lemma ref_fields t1p t2 t3 :
  0 ≤ t1p < 32 → 0 ≤ t2 < 26 → 0 ≤ t3 < 51 →
  ref_t1 (ref_of t1p t2 t3) = t1p ∧ ref_t2 (ref_of t1p t2 t3) = t2 ∧ ref_t3 (ref_of t1p t2 t3) = t3.
Proof.
  intros H1 H2 H3.
  pose (ok a b d := (ref_t1 (ref_of a b d) =? a) && (ref_t2 (ref_of a b d) =? b) && (ref_t3 (ref_of a b d) =? d)).
  assert (ok t1p t2 t3 = true) as E.
  { apply (range_check (λ d, ok t1p t2 d) 51); [lia|].
    apply (range_check (λ b, forallb (λ d, ok t1p b d) (zseq 0 51)) 26); [lia|].
    apply (range_check (λ a, forallb (λ b, forallb (λ d, ok a b d) (zseq 0 51)) (zseq 0 26)) 32); [lia|].
    vm_compute. reflexivity. }
  unfold ok in E. bool_prop. done.
Qed.

Lemma reqref_fields memo :
  0 ≤ memo → ref_t1 (reqref memo) = memo / 1326 mod 32 ∧ ref_t2 (reqref memo) = memo mod 26 ∧
  ref_t3 (reqref memo) = memo mod 51.
Proof. intros H. apply ref_fields; mlia. Qed.

(** Two frame numbers have the same reference exactly when they are a multiple
    of 42432 frames apart: within that window (more than three minutes) the
    mobile recognises the frame of its own attempt and no other. *)
Theorem reqref_identifies m1 m2 :
  0 ≤ m1 → 0 ≤ m2 → reqref m1 = reqref m2 ↔ m1 mod 42432 = m2 mod 42432.
Proof.
  intros H1 H2. split; intros E.
  - destruct (reqref_fields m1 H1) as (A1 & A2 & A3). destruct (reqref_fields m2 H2) as (B1 & B2 & B3).
    rewrite E in *. assert (m1 mod 26 = m2 mod 26) as E2 by congruence.
    assert (m1 mod 51 = m2 mod 51) as E3 by congruence.
    assert (m1 / 1326 mod 32 = m2 / 1326 mod 32) as E1 by congruence.
    assert (m1 mod 1326 = m2 mod 1326) as E4.
    { assert (∃ a, m1 - m2 = 26 * a) as [a Ea] by (exists (m1 / 26 - m2 / 26); clear -E2; mlia).
      assert (∃ b, m1 - m2 = 51 * b) as [b Eb] by (exists (m1 / 51 - m2 / 51); clear -E3; mlia).
      assert (m1 = m2 + (2 * b - a) * 1326) as -> by lia. apply Z.mod_add. lia. }
    clear -E1 E4. mlia.
  - assert (m1 mod 26 = m2 mod 26 ∧ m1 mod 51 = m2 mod 51 ∧ m1 / 1326 mod 32 = m2 / 1326 mod 32) as (E1 & E2 & E3).
    { clear -E. split; [|split]; mlia. }
    unfold reqref. by rewrite E1, E2, E3.
Qed.

(** ** The window does not take part in the bridge protocol *)
Section quiet.
  Context {L : Type} (l1 : option (CalypsoL1Ops L)) (c : Cfg).

Lemma via_l1_fst f w (x : CalypsoTRX * L) : ∃ m, fst (via_l1 f w x) = fst x <| api_ram := m |>.
Proof. unfold via_l1. destruct (f _ _) as [m l]. by exists m. Qed.

Lemma via_l1_view f w (x : CalypsoTRX * L) : view_of (fst (via_l1 f w x)) = view_of (fst x).
Proof. by destruct (via_l1_fst f w x) as [m ->]. Qed.

Lemma rach_push_view s v : view_of (rach_push s v) = view_of s.
Proof. unfold rach_push. by destruct (8 <=? _). Qed.

Lemma bl_written_view s v : view_of (bl_written s v) = view_of s.
Proof.
  unfold bl_written. destruct ((v =? 0) && _); [done|]. destruct (v =? BL_STATUS_READY); [|done].
  destruct (negb (pont s)) eqn:E; cbn [pont update_field emit]; rewrite E;
    unfold view_of, marks, emit; cbn; by rewrite omap_app, app_nil_r.
Qed.

Lemma api_write_quiet w (x : CalypsoTRX * L) off v size : quiet (fst x) (fst (api_write l1 c w x off v size)).
Proof.
  unfold quiet, api_write. destruct (CALYPSO_API_SIZE <=? off); [done|]. destruct x as [s l]. cbn [fst].
  set (s1 := if _ && has_twl3025 c then _ else _).
  assert (view_of s1 = view_of s) as E1.
  { unfold s1. destruct (_ && has_twl3025 c); [by rewrite view_emit_quiet|done]. }
  clearbody s1.
  set (x2 := if size =? 2 then _ else (s1, l)).
  assert (view_of (fst x2) = view_of s) as E2.
  { unfold x2. destruct (size =? 2); [by rewrite via_l1_view|done]. }
  clearbody x2. set (x3 := if _ && _ then burst_written_hook l1 w x2 v else x2).
  assert (view_of (fst x3) = view_of s) as E3.
  { unfold x3. destruct (_ && _); [|done]. unfold burst_written_hook. destruct x2 as [s2 l2].
    rewrite via_l1_view. cbn [fst] in *. by destruct (negb _). }
  clearbody x3. set (x4 := if _ && _ && _ then rach_written_hook l1 w x3 v else x3).
  assert (view_of (fst x4) = view_of s) as E4.
  { unfold x4. destruct (_ && _ && _); [|done]. unfold rach_written_hook. rewrite via_l1_view. cbn [fst].
    by rewrite rach_push_view. }
  clearbody x4. set (x5 := if _ && _ then page_written_hook l1 w x4 v else x4).
  assert (view_of (fst x5) = view_of s) as E5.
  { unfold x5. destruct (_ && _); [|done]. unfold page_written_hook. by rewrite via_l1_view. }
  clearbody x5. destruct (off =? API_BL_STATUS); [cbn [fst]; by rewrite bl_written_view|done].
Qed.

Lemma read_task_d_view (x : CalypsoTRX * L) off val : view_of (snd (read_task_d l1 x off val)) = view_of (fst x).
Proof. unfold read_task_d. by destruct (is_rp _ _). Qed.

Lemma bl_poll_view s off val : view_of (snd (bl_poll s off val)) = view_of s.
Proof. unfold bl_poll. destruct (_ && _); [|done]. cbn [bl_polls update_field]. by destruct (_ <? _). Qed.

(** While the TDMA runs (the boot exchange is over). *)
Lemma api_read_quiet e w (x : CalypsoTRX * L) off size :
  tdma_running (fst x) = true → quiet (fst x) (fst (snd (api_read l1 c e w x off size))).
Proof.
  intros Hr. unfold quiet, api_read. destruct (CALYPSO_API_SIZE <=? off); [done|].
  destruct (negb (size =? 2)); [done|]. destruct (pont (fst x)).
  - unfold api_read_pont. destruct (off =? API_BL_STATUS); cbn [andb tdma_running update_field]; [|done].
    rewrite Hr. cbn [negb]. rewrite andb_false_r. done.
  - destruct (calypso_l1_do_api_read_override _ _ _ _) as [rv [m l]].
    pose proof (read_task_d_view (fst x <| api_ram := m |>, l) off) as E1.
    match goal with |- context [read_task_d l1 ?y off ?v] => specialize (E1 v); destruct (read_task_d l1 y off v) as [v1 s1] end.
    cbn [snd fst] in E1.
    match goal with |- context [bl_poll s1 off ?v] => pose proof (bl_poll_view s1 off v) as E2; destruct (bl_poll s1 off v) as [v2 s2] end.
    cbn [snd fst] in *. by rewrite E2, E1.
Qed.
End quiet.

Lemma rach_conf_quiet s f : quiet s (calypso_trx_rach_conf s f).
Proof. unfold quiet, calypso_trx_rach_conf. destruct (f =? 0); [done|]. by destruct (_ =? _). Qed.

Lemma dcch_quiet s genre ss tn : quiet s (calypso_trx_dcch s genre ss tn).
Proof. unfold quiet, calypso_trx_dcch. by destruct (negb _). Qed.

Lemma autosync_quiet s f : quiet s (calypso_trx_autosync_fn s f).
Proof. unfold quiet, calypso_trx_autosync_fn. cbn zeta. by destruct (_ && _). Qed.

Lemma tpu_write_quiet shm_ok e s off v : tdma_running s = true → quiet s (tpu_write shm_ok e s off v).
Proof.
  intros Hr. unfold quiet, tpu_write.
  set (s1 := if off / 2 <? _ then _ else s).
  assert (view_of s1 = view_of s ∧ tdma_running s1 = true) as [E1 R1] by (unfold s1; by destruct (_ <? _)).
  clearbody s1. set (s2 := if (off =? TPU_CTRL) && _ then _ else s1).
  assert (view_of s2 = view_of s ∧ tdma_running s2 = true) as [E2 R2].
  { unfold s2. destruct (_ && _); [|done]. unfold tpu_done. cbn [tdma_running update_field emit].
    rewrite R1. cbn [negb andb]. rewrite view_emit_quiet by done. done. }
  clearbody s2. rewrite R2. cbn [negb]. rewrite andb_false_r. by destruct (off =? TPU_IT_DSP_PG).
Qed.

(** ** The machine in lock-step *)
Section machine.
  Context {L : Type} (l1 : option (CalypsoL1Ops L)) (shm_ok : option (list TSP.CalypsoRfProg)) (c : Cfg).

(** What happens to the transceiver once the TDMA runs. *)
Inductive mop :=
  | MTick (e : Env)
  | MPulseEnd (e : Env) (w : World)
  | MRead (e : Env) (w : World) (off size : Z)
  | MWrite (w : World) (off v size : Z)
  | MTpuWrite (e : Env) (off v : Z)
  | MRachConf (f : Z)
  | MDcch (genre ss tn : Z)
  | MSch (f : Z).

Definition mstep (x : CalypsoTRX * L) (o : mop) : CalypsoTRX * L :=
  match o with
  | MTick e => (tdma_tick shm_ok c e (fst x), snd x)
  | MPulseEnd e w => frame_irq_lower l1 e w x
  | MRead e w off size => snd (api_read l1 c e w x off size)
  | MWrite w off v size => api_write l1 c w x off v size
  | MTpuWrite e off v => (tpu_write shm_ok e (fst x) off v, snd x)
  | MRachConf f => (calypso_trx_rach_conf (fst x) f, snd x)
  | MDcch genre ss tn => (calypso_trx_dcch (fst x) genre ss tn, snd x)
  | MSch f => (calypso_trx_autosync_fn (fst x) f, snd x)
  end.

(** The bridge is up at every tick. *)
Definition mop_linked (o : mop) : Prop := match o with MTick e => linked e | _ => True end.

Lemma frame_irq_lower_quiet e w (x : CalypsoTRX * L) : quiet (fst x) (fst (frame_irq_lower l1 e w x)).
Proof.
  unfold quiet, frame_irq_lower.
  match goal with |- context [via_l1 ?f w ?y] => pose proof (via_l1_view f w y) as E; destruct (via_l1 f w y) as [s l] end.
  cbn [fst] in E |- *. assert (view_of s = view_of (fst x)) as E2.
  { rewrite E. unfold view_of, marks, emit. cbn. by rewrite omap_app, app_nil_r. }
  unfold cpu_idle_park. destruct (cpu e) as [[pc cpsr]|]; [|done]. destruct (_ || _); [done|].
  destruct (_ || _); [done|]. by rewrite view_emit_quiet.
Qed.

Lemma mstep_sys x o :
  mop_linked o → tdma_running (fst x) = true → sys_step shm_ok c (fst x) (fst (mstep x o)).
Proof.
  intros Ho Hr. destruct o; cbn [mstep fst].
  - by apply sys_tick.
  - apply sys_quiet, frame_irq_lower_quiet.
  - by apply sys_quiet, api_read_quiet.
  - apply sys_quiet, api_write_quiet.
  - by apply sys_quiet, tpu_write_quiet.
  - apply sys_quiet, rach_conf_quiet.
  - apply sys_quiet, dcch_quiet.
  - apply sys_quiet, autosync_quiet.
Qed.

Lemma mrun_proto (Hc : arm_first c = true) f0 owed0 m0 x l :
  Forall mop_linked l → proto f0 owed0 m0 (fst x) → proto f0 owed0 m0 (fst (run mstep x l)).
Proof.
  intros Hl. revert x. induction Hl as [|o l Ho Hl IH]; intros x Hx; [done|].
  cbn [run foldl]. apply IH. eapply sys_step_proto; [done| |done]. apply mstep_sys; [done|]. apply Hx.
Qed.
End machine.

(** C4: in lock-step the machine keeps the two-phase protocol of the bridge,
    whatever the DSP answers and whenever, and whatever the ARM does, as long as
    the socket takes every message and does not close: from a state between two
    frames, every sequence of ticks, of accesses of the ARM to the API window
    and to the TPU, of ends of the frame pulse and of messages from the L1CTL tap
    and the synchronisation channel produces complete frames with consecutive
    numbers, and at most one frame under way.  A frame is the DONE the DSP still
    owed for the previous one, a channel announcement if there is one, its TICK,
    then the answer of the DSP, the frame interrupt of the ARM and the GO.  The
    GO is missing exactly when the answer lacks the PHASE_A flag (the frame is
    then over for the DSP); a frame whose answer never came has the interrupt and
    the GO alone, and its DONE is owed. *)
Theorem machine_protocol {L : Type} (l1 : option (CalypsoL1Ops L)) shm_ok c (x : CalypsoTRX * L) ops :
  let s := fst x in
  arm_first c = true → pont s = true → 0 ≤ pont_fd s → deux_phases s = false → tdma_running s = true →
  0 ≤ fn s < GSM_HYPERFRAME → tick_phase s = 0 → Forall mop_linked ops →
  let s' := fst (run (mstep l1 shm_ok c) x ops) in
  ∃ l g owed cur,
    frames (fn s) (pont_pending s) l g owed ∧ marks s' = marks s ++ l ++ cur ∧ under_way g owed s' cur.
Proof.
  cbn zeta. intros Hc Hp Hfd Hd Hrun Hfn Hph Hl.
  apply (pr_marks (fn (fst x)) (pont_pending (fst x)) (marks (fst x))), mrun_proto; [done|done|]. by apply proto_start.
Qed.

(** A frame in which the ARM reads and writes the window and the channel changes. *)
Definition frame_ops : list mop :=
  let w := mkWorld 0 TRF6151.trf_init (λ _, 0) (λ _, None) (λ _, false) (λ _, true) in
  [MDcch 1 2 0; MTick (env_with RxNone 0); MWrite w (API_NDB + NDB_D_RACH) 0x2500 2;
   MTick (env_with (done_msg PONT_DONE_PHASE_A) 0); MRead (env_with RxNone 0) w 0x50 2;
   MTick (env_with RxNone 1); MRachConf 7].

Lemma machine_protocol_witness :
  marks (fst (run (mstep (L := unit) None None cfg_lockstep) (trx_linked, tt) frame_ops)) =
    [Dcch; Tick 1; Done PONT_DONE_PHASE_A; Irq; Go 1] ∧
  let s' := fst (run (mstep (L := unit) None None cfg_lockstep) (trx_linked, tt) frame_ops) in
  ∃ l g owed cur,
    frames (fn trx_linked) (pont_pending trx_linked) l g owed ∧ marks s' = marks trx_linked ++ l ++ cur ∧ under_way g owed s' cur.
Proof.
  split; [vm_compute; reflexivity|].
  apply (machine_protocol (L := unit) None None cfg_lockstep (trx_linked, tt) frame_ops).
  - reflexivity.
  - reflexivity.
  - vm_compute. discriminate.
  - reflexivity.
  - reflexivity.
  - split; vm_compute; [discriminate|reflexivity].
  - reflexivity.
  - repeat apply List.Forall_cons; try exact I; try (by apply env_with_linked). apply List.Forall_nil.
Defined.

(** ** The reference of an immediate assignment, end to end *)
Section reference.
  Context (c : Cfg) (w : World).

(** The firmware's accesses: an attempt is a write of [d_rach], its confirmation
    the L1CTL message the tap reports.  The external DSP disables layer 1. *)
Definition rach_io (s : CalypsoTRX) (o : rach_op) : CalypsoTRX :=
  match o with
  | Attempt value => fst (api_write (L := unit) None c w (s, tt) (API_NDB + NDB_D_RACH) value 2)
  | Confirm f => calypso_trx_rach_conf s f
  end.

Definition attempt_ok (o : rach_op) : Prop :=
  match o with Attempt value => 0 < value < 65536 | Confirm f => True end.

Lemma rach_io_attempt s value :
  value ≠ 0 →
  rach_io s (Attempt value) = rach_push (s <| api_ram := aset (api_ram s) 570 (u16 value) |>) value.
Proof. intros Hv. by destruct value. Qed.

Lemma rach_io_step s o :
  attempt_ok o →
  ∃ s1, rach_io s o = rach_step s1 o ∧ pairing_of s1 = pairing_of s ∧ (rach_ok s → rach_ok s1) ∧ pont s1 = pont s.
Proof.
  intros Ho. destruct o as [value|f].
  - eexists. split; [apply rach_io_attempt; cbn in Ho; lia|]. done.
  - by exists s.
Qed.

Lemma rach_step_pont s o : pont (rach_step s o) = pont s.
Proof.
  destruct o as [value|f]; cbn [rach_step]; unfold rach_push, calypso_trx_rach_conf.
  - by destruct (8 <=? _).
  - destruct (f =? 0); [done|]. by destruct (_ =? _).
Qed.

Lemma rach_io_pairing l s :
  Forall attempt_ok l → rach_ok s →
  rach_ok (run rach_io s l) ∧ pairing_of (run rach_io s l) = run pair_step (pairing_of s) l ∧
  pont (run rach_io s l) = pont s.
Proof.
  intros Hl. revert s. induction Hl as [|o l Ho Hl IH]; intros s Hs; [done|]. cbn [run foldl].
  destruct (rach_io_step s o Ho) as (s1 & -> & E & Hs1 & Ep).
  destruct (rach_step_refines s1 o (Hs1 Hs)) as [H1 H2].
  destruct (IH _ H1) as (H3 & H4 & H5). split; [done|]. split.
  - by rewrite <- E, <- H2.
  - by rewrite <- Ep, <- (rach_step_pont s1 o).
Qed.
End reference.

(** The block in the API RAM: an IMMEDIATE ASSIGNMENT that answers [ra]. *)
Definition imm_ass (m : ram) (ra : Z) : Prop :=
  let d k := aget8 m (API_NDB + NDB_A_CD + 6 + k) in d 1 = 0x06 ∧ d 2 = 0x3f ∧ d 7 = ra.

(** the reference the mobile reads in an immediate assignment is that of
    its own attempt.  After any sequence of access attempts (writes of [d_rach])
    and confirmations, the ARM's read of octets 8-9 of an assignment that answers
    RA [ra] gives the reference of the frame confirmed for that RA by first-in
    first-out pairing, whatever the network put there. *)
Theorem assignment_reference c e w s l m ra f :
  pont s = true → reqref_actif c = true → rach_ok s → Forall attempt_ok l → imm_ass m ra →
  rd (frame_of (run pair_step (pairing_of s) l)) ra = f → f ≠ 0 →
  fst (api_read (L := unit) None c e w (run (rach_io c w) s l <| api_ram := m |>, tt)
         (API_NDB + NDB_A_CD + 14) 2) = reqref f.
Proof.
  intros Hp Ha Hok Hl (D1 & D2 & D7) Hf Hf0.
  destruct (rach_io_pairing c w l s Hl Hok) as (_ & H2 & H3).
  set (s' := run (rach_io c w) s l) in *. clearbody s'. rewrite Hp in H3. rewrite <- H2 in Hf. cbn [frame_of pairing_of] in Hf.
  unfold api_read. cbn [fst pont update_field]. rewrite H3.
  change (CALYPSO_API_SIZE <=? API_NDB + NDB_A_CD + 14) with false. cbn [Z.eqb Pos.eqb negb].
  unfold api_read_pont. change (API_NDB + NDB_A_CD + 14 =? API_BL_STATUS) with false. cbn [andb fst].
  unfold reqref_patch. cbn [Z.eqb Pos.eqb]. unfold pont_reqref_corrigee. rewrite Z.eqb_refl. cbn [negb].
  cbn [api_ram rach_fn rach_ra_vue rach_ra update_field]. rewrite D1, D2, D7.
  cbn [Z.eqb Pos.eqb negb orb]. rewrite Hf. apply Z.eqb_neq in Hf0. rewrite Hf0. cbn [andb]. rewrite Hf0, Ha.
  cbn [negb]. by rewrite andb_false_r.
Qed.

(** Three attempts with RA 5, 6 and 5 again, confirmed in frames 1000, 1010 and
    1020: an assignment that answers 6 carries frame 1010. *)
Definition ra_block : ram :=
  aput ∅ ((API_NDB + NDB_A_CD + 6) / 2) [0x062D; 0x003F; 0; 0x0600; 0].

Lemma assignment_reference_witness :
  let l := [Attempt 0x0500; Attempt 0x0600; Confirm 1000; Attempt 0x0500; Confirm 1010; Confirm 1020] in
  let w := mkWorld 0 TRF6151.trf_init (λ _, 0) (λ _, None) (λ _, false) (λ _, true) in
  fst (api_read (L := unit) None cfg_lockstep (env_with RxNone 0) w
         (run (rach_io cfg_lockstep w) trx_linked l <| api_ram := ra_block |>, tt)
         (API_NDB + NDB_A_CD + 14) 2) = reqref 1010.
Proof.
  intros l w. apply (assignment_reference cfg_lockstep (env_with RxNone 0) w trx_linked l ra_block 6 1010).
  - reflexivity.
  - reflexivity.
  - split; [reflexivity|]. split; [split; vm_compute; [discriminate|reflexivity]|].
    split; [split; vm_compute; [discriminate|reflexivity]|vm_compute; discriminate].
  - repeat apply List.Forall_cons; try exact I; try (split; reflexivity). apply List.Forall_nil.
  - vm_compute. repeat split; reflexivity.
  - vm_compute. reflexivity.
  - discriminate.
Defined.

(** ** Without a layer 1 the window is a memory *)
Section bare.
  Context {L : Type} (c : Cfg).

(** An aligned access inside the window. *)
Definition access_ok (off size : Z) : Prop :=
  (size = 1 ∨ size = 2 ∨ size = 4) ∧ 0 ≤ off ∧ off mod size = 0 ∧ off + size ≤ CALYPSO_API_SIZE.

(** The little-endian value of the bytes from [off] on. *)
Definition le_val (m : ram) (off : Z) (n : nat) : Z := foldr (λ k acc, aget8 m k + 256 * acc) 0 (zseq off n).

Lemma lor_shift16 a b : 0 ≤ a < 65536 → Z.lor a (Z.shiftl b 16) = a + b * 65536.
Proof. intros Ha. rewrite Z.lor_comm, lor_shiftl_add by lia. lia. Qed.

Lemma word_bytes m k : api_ok m → aget m k = aget8 m (2 * k) + 256 * aget8 m (2 * k + 1).
Proof.
  intros Hm. unfold aget8. specialize (Hm k).
  replace (2 * k mod 2) with 0 by mlia. replace ((2 * k + 1) mod 2) with 1 by mlia.
  replace (2 * k / 2) with k by mlia. replace ((2 * k + 1) / 2) with k by mlia. cbn [Z.eqb Pos.eqb]. mlia.
Qed.

Lemma le_val_S m off n : le_val m off (S n) = aget8 m off + 256 * le_val m (off + 1) n.
Proof. unfold le_val. by rewrite zseq_cons. Qed.

Lemma api_val_bytes m off size :
  api_ok m → access_ok off size → api_val m off size = le_val m off (Z.to_nat size).
Proof.
  intros Hm ([->|[->| ->]] & H0 & Hal & _); unfold api_val; cbn [Z.eqb Pos.eqb].
  - change (Z.to_nat 1) with 1%nat. rewrite le_val_S. change (le_val m (off + 1) 0) with 0. lia.
  - change (Z.to_nat 2) with 2%nat. rewrite !le_val_S. change (le_val m (off + 1 + 1) 0) with 0.
    rewrite (word_bytes m (off / 2) Hm). replace (2 * (off / 2)) with off by mlia. lia.
  - change (Z.to_nat 4) with 4%nat. rewrite !le_val_S, lor_shift16 by apply Hm.
    change (le_val m (off + 1 + 1 + 1 + 1) 0) with 0.
    rewrite (word_bytes m (off / 2) Hm), (word_bytes m (off / 2 + 1) Hm).
    replace (2 * (off / 2)) with off by mlia. replace (2 * (off / 2 + 1)) with (off + 1 + 1) by mlia. lia.
Qed.

(** Byte [j] of a value. *)
Definition byte_of (v j : Z) : Z := v / 256 ^ j mod 256.

Lemma api_store_bytes m off v size k :
  api_ok m → access_ok off size → 0 ≤ v →
  aget8 (api_store m off v size) k =
    if (off <=? k) && (k <? off + size) then byte_of v (k - off) else aget8 m k.
Proof.
  intros Hm ([->|[->| ->]] & H0 & Hal & _) Hv; unfold api_store; cbn [Z.eqb Pos.eqb].
  - rewrite aget8_aset8 by (done || apply u8_range).
    destruct (Z.eqb_spec k off) as [->|Hk].
    + rewrite Z.leb_refl. destruct (Z.ltb_spec off (off + 1)); [|lia]. rewrite Z.sub_diag.
      unfold byte_of, u8. by rewrite Z.pow_0_r, Z.div_1_r.
    + destruct (Z.leb_spec off k), (Z.ltb_spec k (off + 1)); try done. lia.
  - unfold aget8. rewrite aget_aset_dec.
    destruct (Z.leb_spec off k), (Z.ltb_spec k (off + 2)); cbn [andb].
    1: { assert (k = off ∨ k = off + 1) as [->| ->] by lia.
         - rewrite Z.eqb_refl, Z.sub_diag. unfold byte_of, u16. rewrite Z.pow_0_r, Z.div_1_r.
           replace (off mod 2) with 0 by mlia. cbn [Z.eqb]. mlia.
         - replace ((off + 1) / 2) with (off / 2) by mlia. rewrite Z.eqb_refl.
           replace (off + 1 - off) with 1 by lia. unfold byte_of, u16. rewrite Z.pow_1_r.
           replace ((off + 1) mod 2) with 1 by mlia. cbn [Z.eqb Pos.eqb]. mlia. }
    all: destruct (Z.eqb_spec (k / 2) (off / 2)); [|done]; exfalso; mlia.
  - unfold aget8. rewrite !aget_aset_dec, Z.shiftr_div_pow2 by lia. change (2 ^ 16) with 65536.
    destruct (Z.leb_spec off k), (Z.ltb_spec k (off + 4)); cbn [andb].
    1: { unfold byte_of, u16.
         assert (k = off ∨ k = off + 1 ∨ k = off + 2 ∨ k = off + 3) as [->|[->|[->| ->]]] by lia.
         - destruct (Z.eqb_spec (off / 2) (off / 2 + 1)); [lia|]. rewrite Z.eqb_refl, Z.sub_diag, Z.pow_0_r, Z.div_1_r.
           replace (off mod 2) with 0 by mlia. cbn [Z.eqb]. mlia.
         - replace ((off + 1) / 2) with (off / 2) by mlia. destruct (Z.eqb_spec (off / 2) (off / 2 + 1)); [lia|].
           rewrite Z.eqb_refl. replace (off + 1 - off) with 1 by lia. rewrite Z.pow_1_r.
           replace ((off + 1) mod 2) with 1 by mlia. cbn [Z.eqb Pos.eqb]. mlia.
         - replace ((off + 2) / 2) with (off / 2 + 1) by mlia. rewrite Z.eqb_refl.
           replace (off + 2 - off) with 2 by lia. change (256 ^ 2) with 65536.
           replace ((off + 2) mod 2) with 0 by mlia. cbn [Z.eqb]. mlia.
         - replace ((off + 3) / 2) with (off / 2 + 1) by mlia. rewrite Z.eqb_refl.
           replace (off + 3 - off) with 3 by lia. change (256 ^ 3) with 16777216.
           replace ((off + 3) mod 2) with 1 by mlia. cbn [Z.eqb Pos.eqb]. mlia. }
    all: destruct (Z.eqb_spec (k / 2) (off / 2 + 1)), (Z.eqb_spec (k / 2) (off / 2)); try done; exfalso; mlia.
Qed.

(** Reads the transceiver serves from the memory alone. *)
Definition plain_read (off size : Z) : Prop :=
  size ≠ 2 ∨ (is_rp off RP_D_TASK_D = false ∧ is_rp off RP_D_BURST_D = false ∧ off ≠ API_BL_STATUS).

Lemma bare_read e w (s : CalypsoTRX) (l : L) off size :
  pont s = false → access_ok off size → plain_read off size →
  fst (api_read None c e w (s, l) off size) = api_val (api_ram s) off size ∧
  api_ram (fst (snd (api_read None c e w (s, l) off size))) = api_ram s.
Proof.
  intros Hp Ha Hpl. unfold api_read. cbn [fst snd].
  destruct (Z.leb_spec CALYPSO_API_SIZE off) as [H|H]; [destruct Ha as (? & ? & ? & ?); lia|].
  rewrite Hp. destruct (Z.eqb_spec size 2) as [->|Hs]; cbn [negb]; [|done].
  destruct Hpl as [|(P1 & P2 & P3)]; [done|]. cbn [calypso_l1_do_api_read_override mbind option_bind].
  unfold read_task_d. rewrite P1. cbn [fst]. rewrite P2. unfold bl_poll. apply Z.eqb_neq in P3. rewrite P3. done.
Qed.

Lemma via_none_ram w (x : CalypsoTRX * L) :
  api_ram (fst (via_l1 (λ _ y, y) w x)) = api_ram (fst x).
Proof. done. Qed.

Lemma bare_write w (s : CalypsoTRX) (l : L) off v size :
  off < CALYPSO_API_SIZE → off ≠ API_BL_STATUS →
  api_ram (fst (api_write None c w (s, l) off v size)) = api_store (api_ram s) off v size.
Proof.
  intros Ho Hbl. unfold api_write. destruct (Z.leb_spec CALYPSO_API_SIZE off); [lia|].
  apply Z.eqb_neq in Hbl. rewrite Hbl.
  set (s1 := if _ && has_twl3025 c then _ else _).
  assert (api_ram s1 = api_store (api_ram s) off v size) as E1 by (unfold s1; by destruct (_ && has_twl3025 c)).
  clearbody s1. set (x2 := if size =? 2 then _ else (s1, l)).
  assert (api_ram (fst x2) = api_store (api_ram s) off v size) as E2 by (unfold x2; by destruct (size =? 2)).
  clearbody x2. set (x3 := if _ && _ then burst_written_hook None w x2 v else x2).
  assert (api_ram (fst x3) = api_store (api_ram s) off v size) as E3.
  { unfold x3. destruct (_ && _); [|done]. destruct x2 as [s2 l2]. unfold burst_written_hook. by destruct (negb _). }
  clearbody x3. set (x4 := if _ && _ && _ then rach_written_hook None w x3 v else x3).
  assert (api_ram (fst x4) = api_store (api_ram s) off v size) as E4.
  { unfold x4. destruct (_ && _ && _); [|done]. unfold rach_written_hook, rach_push. cbn. by destruct (8 <=? _). }
  clearbody x4. by destruct (_ && _).
Qed.
End bare.

(** Without a layer 1 and without the external DSP the API window is a
    little-endian memory: a write of one, two or four bytes changes those bytes
    and no other, and a read of any size gives the bytes at its address, apart
    from the three words the transceiver itself answers (task and burst of the
    read pages, bootloader status). *)
Theorem api_window_is_memory {L : Type} (c : Cfg) e w (s : CalypsoTRX) (l : L) off v size :
  pont s = false → api_ok (api_ram s) → access_ok off size → 0 ≤ v < 2 ^ (8 * size) → off ≠ API_BL_STATUS →
  let x' := api_write None c w (s, l) off v size in
  (∀ k, aget8 (api_ram (fst x')) k =
        if (off <=? k) && (k <? off + size) then byte_of v (k - off) else aget8 (api_ram s) k) ∧
  (∀ off' size', pont (fst x') = false → access_ok off' size' → plain_read off' size' →
     fst (api_read None c e w x' off' size') = le_val (api_ram (fst x')) off' (Z.to_nat size')).
Proof.
  intros Hp Hm Ha Hv Hbl. cbn zeta.
  assert (off < CALYPSO_API_SIZE) as Ho by (destruct Ha as (? & ? & ? & ?); lia).
  pose proof (bare_write c w s l off v size Ho Hbl) as E.
  assert (api_ok (api_store (api_ram s) off v size)) as Hm'.
  { unfold api_store. case_ifs; eauto using api_ok_aset, api_ok_aset8, u16_range, u8_range. }
  split.
  - intros k. rewrite E. apply api_store_bytes; [done|done|lia].
  - intros off' size' Hp' Ha' Hpl. destruct (api_write None c w (s, l) off v size) as [s' l']. cbn [fst] in *.
    destruct (bare_read c e w s' l' off' size' Hp' Ha' Hpl) as [-> _]. apply api_val_bytes; [by rewrite E|done].
Qed.

Lemma api_window_is_memory_witness :
  let w := mkWorld 0 TRF6151.trf_init (λ _, 0) (λ _, None) (λ _, false) (λ _, true) in
  let x' := api_write None cfg_lockstep w (trx_init_own trx_new, tt) 0x1000 0x12345678 4 in
  aget8 (api_ram (fst x')) 0x1002 = 0x34 ∧
  fst (api_read None cfg_lockstep (env_with RxNone 0) w x' 0x1002 2) = 0x1234 ∧
  (∀ k, aget8 (api_ram (fst x')) k =
        if (0x1000 <=? k) && (k <? 0x1000 + 4) then byte_of 0x12345678 (k - 0x1000)
        else aget8 (api_ram (trx_init_own trx_new)) k) ∧
  (∀ off' size', pont (fst x') = false → access_ok off' size' → plain_read off' size' →
     fst (api_read None cfg_lockstep (env_with RxNone 0) w x' off' size') =
       le_val (api_ram (fst x')) off' (Z.to_nat size')).
Proof.
  intros w x'. split; [vm_compute; reflexivity|]. split; [vm_compute; reflexivity|].
  apply (api_window_is_memory cfg_lockstep (env_with RxNone 0) w (trx_init_own trx_new) tt 0x1000 0x12345678 4).
  - reflexivity.
  - unfold trx_init_own. cbn [api_ram update_field].
    repeat apply api_ok_aset; [apply api_ok_empty|split; vm_compute; congruence..].
  - split; [by right; right|]. split; [vm_compute; discriminate|]. split; [reflexivity|vm_compute; discriminate].
  - split; vm_compute; [discriminate|reflexivity].
  - discriminate.
Defined.

(** ** The emulated bootloader *)

(** [n] reads of the bootloader status: the values, and the state after. *)
Fixpoint bl_reads (c : Cfg) (e : Env) (w : World) (n : nat) (x : CalypsoTRX * unit) : list Z * (CalypsoTRX * unit) :=
  match n with
  | O => ([], x)
  | S n => let '(v, x) := api_read None c e w x API_BL_STATUS 2 in
           let '(vs, x) := bl_reads c e w n x in (v :: vs, x)
  end.

Lemma bl_read_wait c e w s :
  pont s = false → bl_booted s = false → aget (api_ram s) (API_BL_STATUS / 2) = 0 → 0 ≤ bl_polls s < 3 →
  ∃ s', api_read (L := unit) None c e w (s, tt) API_BL_STATUS 2 = (0, (s', tt)) ∧ pont s' = false ∧
    bl_booted s' = false ∧ api_ram s' = api_ram s ∧ bl_polls s' = bl_polls s + 1.
Proof.
  intros Hp Hb H0 Hn. unfold api_read. cbn [fst snd]. rewrite Hp. change (CALYPSO_API_SIZE <=? API_BL_STATUS) with false.
  cbn [Z.eqb Pos.eqb negb calypso_l1_do_api_read_override mbind option_bind default].
  unfold read_task_d, bl_poll, api_val. cbn [fst snd Z.eqb Pos.eqb].
  change (is_rp API_BL_STATUS RP_D_TASK_D) with false. change (is_rp API_BL_STATUS RP_D_BURST_D) with false.
  cbn [bl_booted bl_polls update_field]. rewrite Hb, Z.eqb_refl, H0. cbn [andb negb].
  rewrite u32_small by lia. unfold BOOT_POLLS_BEFORE_BOOT. destruct (Z.ltb_spec 3 (bl_polls s + 1)); [lia|].
  eexists. split; [reflexivity|]. done.
Qed.

(** The fourth poll after the ARM cleared the status finds the bootloader in its
    boot loop and the version word in place; the three before find zero. *)
Theorem bootloader_answers c e w s :
  pont s = false →
  let x1 := api_write (L := unit) None c w (s, tt) API_BL_STATUS 0 2 in
  let '(vs, x2) := bl_reads c e w 4 x1 in
  vs = [0; 0; 0; BL_STATUS_BOOT] ∧ aget (api_ram (fst x2)) (API_VERSION / 2) = API_VERSION_VALUE ∧
  aget (api_ram (fst x2)) (API_BL_STATUS / 2) = BL_STATUS_BOOT ∧ bl_booted (fst x2) = true.
Proof.
  intros Hp. cbn zeta.
  assert (∃ s1, api_write (L := unit) None c w (s, tt) API_BL_STATUS 0 2 = (s1, tt) ∧ pont s1 = false ∧
    bl_booted s1 = false ∧ aget (api_ram s1) (API_BL_STATUS / 2) = 0 ∧ bl_polls s1 = 0) as (s1 & -> & P1 & B1 & A1 & N1).
  { destruct s. cbn in Hp. subst. eexists. split; [reflexivity|]. split; [reflexivity|].
    split; [reflexivity|]. split; [apply aget_aset|reflexivity]. }
  cbn [bl_reads].
  destruct (bl_read_wait c e w s1 P1 B1 A1 ltac:(lia)) as (s2 & -> & P2 & B2 & A2 & N2).
  destruct (bl_read_wait c e w s2 P2 B2 ltac:(congruence) ltac:(lia)) as (s3 & -> & P3 & B3 & A3 & N3).
  destruct (bl_read_wait c e w s3 P3 B3 ltac:(congruence) ltac:(lia)) as (s4 & -> & P4 & B4 & A4 & N4).
  assert (bl_polls s4 = 3) as E4 by lia.
  unfold api_read. cbn [fst snd]. rewrite P4. change (CALYPSO_API_SIZE <=? API_BL_STATUS) with false.
  cbn [Z.eqb Pos.eqb negb calypso_l1_do_api_read_override mbind option_bind default].
  unfold read_task_d, bl_poll. change (is_rp API_BL_STATUS RP_D_TASK_D) with false.
  change (is_rp API_BL_STATUS RP_D_BURST_D) with false.
  cbn [bl_booted bl_polls update_field fst snd]. rewrite B4, Z.eqb_refl, E4. cbn [andb negb].
  change (BOOT_POLLS_BEFORE_BOOT <? u32 (3 + 1)) with true. cbn [fst snd api_ram update_field bl_booted].
  rewrite !aget_aset_dec. done.
Qed.

(** ** ULPD: registers that cannot be read *)

(** Every register of the range 0x20-0x40 reads zero, the gauging control (0x24)
    and the GSM timer (0x28) included, although the code that follows has an
    answer for them. *)
Theorem ulpd_hidden_registers s :
  fst (ulpd_read s ULPD_GAUGING_CTRL) = 0 ∧ fst (ulpd_read s ULPD_GSM_TIMER) = 0.
Proof. done. Qed.
End TRX_API.
