(* ===== verification/TrxL1.v ===== *)
(** * The transceiver with a layer 1 behind the seam

    Proved against the interface of [L1Ops.v], for any layer 1 that keeps it:
    the API RAM stays a memory of 16-bit words, the layer 1 stays in its
    invariant, and a word that is neither in the area of the layer 1 nor one of
    the words the transceiver clears is changed by writes of the ARM only. *)
From stdpp Require Import gmap strings.
From S2P Require Import Prelude ApiRam L1Ops Rf Trx TrxPont TrxApi.
Import API L1OPS TRX PONT TRX_API.

Module TRX_L1.

(** The words the transceiver writes on its own: the tasks of the write pages it
    consumes at a tick, the words of the bootloader. *)
Definition trx_words : list Z :=
  [api_wp 0 WP_D_TASK_RA; api_wp 1 WP_D_TASK_RA; api_wp 0 WP_D_TASK_U; api_wp 1 WP_D_TASK_U;
   API_BL_STATUS / 2; API_VERSION / 2; API_VERSION2 / 2].

(** A word of the ARM alone. *)
Definition arm_word (k : Z) : Prop := ¬ l1_area k ∧ k ∉ trx_words.

Section seam.
  Context {L : Type} (l1 : option (CalypsoL1Ops L)) (I : L → Prop).
  Context (laws : ∀ ops, l1 = Some ops → L1Laws ops I).
  Context (shm_ok : option (list TSP.CalypsoRfProg)) (c : Cfg).

(** An operation of the machine, or an event of the layer 1 on its own (a
    datagram of its sockets). *)
Inductive wop :=
  | WMachine (o : mop)
  | WInternal (f : L → L).

Definition wstep (x : CalypsoTRX * L) (o : wop) : CalypsoTRX * L :=
  match o with
  | WMachine o => mstep l1 shm_ok c x o
  | WInternal f => (fst x, f (snd x))
  end.

Definition host_ok (w : World) : Prop :=
  (∀ a, 0 ≤ w_arm32 w a < 4294967296) ∧ (∀ p b, w_file w p = Some b → Forall (λ x, 0 ≤ x < 256) b).

Definition wop_ok (o : wop) : Prop :=
  match o with
  | WMachine (MPulseEnd _ w) => host_ok w
  | WMachine (MRead _ w off size) => host_ok w
  | WMachine (MWrite w off v size) => host_ok w ∧ access_ok off size ∧ 0 ≤ v < 2 ^ (8 * size)
  | WMachine _ => True
  | WInternal f => ∀ l, I l → I (f l)
  end.

(** The words of a write. *)
Definition writes (o : wop) (k : Z) : Prop :=
  match o with
  | WMachine (MWrite _ off v size) => off / 2 ≤ k ≤ (off + size - 1) / 2
  | _ => False
  end.

(** The machine with its own layer 1. *)
Record own_l1 (x : CalypsoTRX * L) : Prop := {
  ol_pont : pont (fst x) = false;
  ol_phase : tick_phase (fst x) = 0;
  ol_fn : 0 ≤ fn (fst x) < 4294967296;
  ol_sound : sound I (api_ram (fst x), snd x)
}.

(** A step that keeps [own_l1] and the words of [P]. *)
Definition kept (P : Z → Prop) (x y : CalypsoTRX * L) : Prop :=
  own_l1 y ∧ ∀ k, P k → aget (api_ram (fst y)) k = aget (api_ram (fst x)) k.

Lemma kept_refl P x : own_l1 x → kept P x x.
Proof. done. Qed.
Lemma kept_trans P x y z : kept P x y → (own_l1 y → kept P y z) → kept P x z.
Proof. intros [H1 H2] H. destruct (H H1) as [H3 H4]. split; [done|]. intros k Hk. by rewrite H4, H2. Qed.

(** The fields [own_l1] speaks of. *)
Definition own_view (s : CalypsoTRX) := (pont s, tick_phase s, fn s, api_ram s).

Lemma kept_view P s s' l : own_view s' = own_view s → own_l1 (s, l) → kept P (s, l) (s', l).
Proof.
  unfold own_view. intros E [H1 H2 H3 H4]. injection E as E1 E2 E3 E4. cbn in *.
  split; [|intros k _; cbn; by rewrite E4]. constructor; cbn; congruence.
Qed.

Lemma world_of_ok w (s : CalypsoTRX) : host_ok w → world_ok (world_of w s).
Proof. intros [H1 H2]. constructor; cbn; [apply get_fn_range|done|done]. Qed.

(** A call through the seam. *)
Lemma via_l1_kept f w x :
  host_ok w → own_l1 x →
  (∀ w' y, world_ok w' → sound I y → step_ok I y (f w' y)) → kept arm_word x (via_l1 f w x).
Proof.
  intros Hw [H1 H2 H3 H4] Hf. unfold via_l1.
  destruct (Hf (world_of w (fst x)) (api_ram (fst x), snd x) (world_of_ok w (fst x) Hw) H4) as [S1 S2].
  destruct (f _ _) as [m l]. cbn [fst snd] in *. split; [by constructor|]. intros k [Hk _]. by apply S2.
Qed.

Lemma api_store_kept m off v size k :
  access_ok off size → ¬ (off / 2 ≤ k ≤ (off + size - 1) / 2) → aget (api_store m off v size) k = aget m k.
Proof.
  intros ([->|[->| ->]] & H0 & Hal & _) Hk; unfold api_store, aset8; cbn [Z.eqb Pos.eqb].
  - apply aget_aset_ne. intros <-. apply Hk. mlia.
  - apply aget_aset_ne. intros <-. apply Hk. mlia.
  - rewrite !aget_aset_ne; [done| |]; intros <-; apply Hk; mlia.
Qed.

Lemma api_store_ok m off v size : api_ok m → api_ok (api_store m off v size).
Proof. intros H. unfold api_store. case_ifs; eauto using api_ok_aset, api_ok_aset8, u16_range, u8_range. Qed.

(** ** Ticks *)
Lemma exchange_kept e s l : own_l1 (s, l) → kept arm_word (s, l) (frame_exchange c e s, l).
Proof using.
  intros [H1 H2 H3 [H4 H5]]. cbn [fst snd] in *. unfold frame_exchange. rewrite H1. split.
  - constructor; try done. split; [|done]. cbn. repeat apply api_ok_aset; done || lia.
  - intros k [_ Hk]. cbn [fst api_ram update_field].
    assert (∀ off, off = WP_D_TASK_RA ∨ off = WP_D_TASK_U → api_wp (dsp_page s) off ≠ k) as Hne.
    { intros off Ho E. apply Hk. unfold trx_words. rewrite <- E. unfold api_wp at 1, API_W_PAGE at 1.
      destruct Ho as [->| ->]; destruct (dsp_page s =? 0); cbn [negb]; apply list_elem_of_In; vm_compute; tauto. }
    rewrite !aget_aset_ne by auto. done.
Qed.

Lemma tick_kept e x : own_l1 x → kept arm_word x (tdma_tick shm_ok c e (fst x), snd x).
Proof using.
  destruct x as [s l]. intros Ho. pose proof Ho as [H1 H2 H3 [H4 H5]]. cbn [fst snd] in *. unfold tdma_tick.
  destruct (negb (running e)); [by apply kept_view|]. rewrite H2. cbn [Z.eqb]. unfold tick_phase0, lockstep_wait.
  rewrite H1. cbn [andb negb].
  set (s1 := s <| fn := next_fn c e s |>).
  eapply (kept_trans _ _ (s1, l)).
  { split; [|done]. constructor; try done. cbn. unfold next_fn. rewrite H1. cbn [andb].
    pose proof (Z.mod_pos_bound (if negb (wall_fn e =? 0) then wall_fn e else u32 (fn s + 1)) GSM_HYPERFRAME ltac:(done)).
    change GSM_HYPERFRAME with 2715648 in *. lia. }
  intros O1. eapply (kept_trans _ _ (emit (sequencer_tick shm_ok s1) UartPump, l)); [by apply kept_view|]. intros O2.
  eapply kept_trans; [by apply (exchange_kept e)|]. intros O3.
  match goal with |- context [frame_exchange c e ?y] => set (s3 := frame_exchange c e y) in * end. clearbody s3.
  pose proof (ol_pont _ O3) as E. cbn [fst] in E. rewrite E. cbn [andb].
  apply kept_view; [|done]. by destruct (pont_fd s3 <? 0).
Qed.

(** ** Accesses of the ARM *)
Lemma cpu_park_view e s : own_view (cpu_idle_park e s) = own_view s.
Proof using.
  unfold cpu_idle_park. destruct (cpu e) as [[pc cpsr]|]; [|done]. destruct (_ || _); [done|]. by destruct (_ || _).
Qed.

Lemma pulse_end_kept e w x : host_ok w → own_l1 x → kept arm_word x (frame_irq_lower l1 e w x).
Proof using laws.
  intros Hw Ho. unfold frame_irq_lower. destruct x as [s l]. cbn [fst snd].
  set (s1 := emit s _ <| frame_irq_timer := None |>).
  eapply (kept_trans _ _ (s1, l)); [by apply kept_view|]. intros O1.
  pose proof (via_l1_kept (calypso_l1_do_frame_tick l1) w (s1, l) Hw O1) as K.
  destruct (via_l1 (calypso_l1_do_frame_tick l1) w (s1, l)) as [s2 l2].
  eapply kept_trans; [apply K|]; [intros; by apply do_frame_tick_ok|]. intros O2.
  apply kept_view; [apply cpu_park_view|done].
Qed.

Lemma read_kept e w x off size :
  host_ok w → own_l1 x → kept arm_word x (snd (api_read l1 c e w x off size)).
Proof using laws.
  intros Hw Ho. unfold api_read. destruct (CALYPSO_API_SIZE <=? off); [done|].
  pose proof (ol_pont x Ho) as Hp. destruct (negb (size =? 2)); [done|]. rewrite Hp.
  destruct (do_override_ok l1 I laws (world_of w (fst x)) (api_ram (fst x), snd x)
              (world_of_ok w (fst x) Hw) (ol_sound x Ho) off) as [[S1 S2] _].
  destruct (calypso_l1_do_api_read_override l1 _ _ off) as [rv [m l]]. cbn [fst snd] in S1, S2.
  assert (kept arm_word x (fst x <| api_ram := m |>, l)) as K1.
  { destruct Ho. split; [by constructor|]. intros k [Hk _]. by apply S2. }
  eapply kept_trans; [exact K1|]. intros O1. set (s1 := fst x <| api_ram := m |>) in *. clearbody s1.
  match goal with |- context [read_task_d l1 (s1, l) off ?v] => set (r := read_task_d l1 (s1, l) off v) end.
  assert (kept arm_word (s1, l) (snd r, l)) as K2.
  { apply kept_view; [|done]. unfold r, read_task_d. by destruct (is_rp _ _). }
  destruct r as [v2 s2]. eapply kept_trans; [exact K2|]. intros O2. cbn [snd] in *. unfold bl_poll.
  destruct (_ && _); [|done]. cbn zeta. destruct (_ <? _); [|by apply kept_view].
  destruct O2 as [? ? ? [Hm Hl]]. cbn [fst snd api_ram update_field] in *. split.
  - constructor; try done. split; [|done]. cbn. repeat apply api_ok_aset; done || (split; vm_compute; congruence).
  - intros k [_ Hk]. cbn. rewrite !aget_aset_ne; [done|..]; intros <-; apply Hk, list_elem_of_In; vm_compute; tauto.
Qed.

Lemma burst_hook_kept w x v : host_ok w → own_l1 x → kept arm_word x (burst_written_hook l1 w x v).
Proof using laws.
  intros Hw Ho. unfold burst_written_hook. destruct x as [s l]. cbn zeta.
  match goal with |- context [via_l1 ?f w (?y, l)] => set (s1 := y); pose proof (via_l1_kept f w (s1, l) Hw) as K end.
  eapply (kept_trans _ _ (s1, l)); [apply kept_view; [|done]; subst s1; by destruct (negb _)|].
  intros O1. apply K; [done|]. intros. apply do_burst_ok; [exact laws|done|done|apply u16_range].
Qed.

Lemma rach_push_own s v : own_view (rach_push s v) = own_view s.
Proof using. unfold rach_push. by destruct (8 <=? _). Qed.

Lemma rach_hook_kept w x v : host_ok w → own_l1 x → kept arm_word x (rach_written_hook l1 w x v).
Proof using laws.
  intros Hw Ho. unfold rach_written_hook. cbn zeta. destruct x as [s l]. cbn [fst snd].
  pose proof (rach_push_own s v) as E. set (s1 := rach_push s v) in *. clearbody s1.
  pose proof (kept_view arm_word s s1 l E Ho) as K1. eapply kept_trans; [exact K1|]. intros O1.
  apply via_l1_kept; [done|done|]. intros. pose proof (ol_fn _ O1).
  apply do_rach_ok; [exact laws|done|done|apply u16_range|done].
Qed.

Lemma page_hook_kept w x v : host_ok w → own_l1 x → kept arm_word x (page_written_hook l1 w x v).
Proof using laws.
  intros Hw Ho. unfold page_written_hook. destruct x as [s l]. cbn [fst snd].
  eapply (kept_trans _ _ (s <| dsp_page := Z.land v 1 |>, l)); [by apply kept_view|]. intros O1.
  apply via_l1_kept; [done|done|]. intros. apply do_page_ok; [exact laws|done|done|apply u16_range].
Qed.

Lemma bl_written_kept x v : own_l1 x → kept arm_word x (bl_written (fst x) v, snd x).
Proof using.
  destruct x as [s l]. intros Ho. cbn [fst snd]. pose proof (ol_pont _ Ho) as Hp. cbn [fst] in Hp. unfold bl_written.
  destruct (_ && _); [by apply kept_view|]. destruct (_ =? _); [|done]. rewrite Hp. cbn [negb emit update_field pont].
  rewrite Hp. cbn [negb]. destruct Ho as [? ? ? [Hm Hl]]. cbn [fst snd] in *. split.
  - constructor; try done. split; [|done]. cbn. repeat apply api_ok_aset; done || (split; vm_compute; congruence).
  - intros k [Ha Hk]. cbn. rewrite !aget_aset_ne; [done|..]; intros <-.
    + apply Hk, list_elem_of_In; vm_compute; tauto.
    + apply Hk, list_elem_of_In; vm_compute; tauto.
    + apply Ha. unfold l1_area. change (API_NDB / 2) with 0xD4. lia.
Qed.

(** The store of the ARM, then the hooks. *)
Lemma write_kept w x off v size :
  host_ok w → access_ok off size → own_l1 x →
  kept (λ k, arm_word k ∧ ¬ (off / 2 ≤ k ≤ (off + size - 1) / 2)) x (api_write l1 c w x off v size).
Proof using laws.
  intros Hw Ha Ho. unfold api_write. destruct (CALYPSO_API_SIZE <=? off); [done|]. destruct x as [s l].
  set (P := λ k, _). assert (∀ y z, kept arm_word y z → kept P y z) as Hsub.
  { intros y z [K1 K2]. split; [done|]. intros k [Hk _]. by apply K2. }
  set (s1 := s <| api_ram := _ |>). eapply (kept_trans _ _ (s1, l)).
  { destruct Ho as [? ? ? [Hm Hl]]. split; [constructor; try done; split; [by apply api_store_ok|done]|].
    intros k [_ Hk]. by apply api_store_kept. }
  intros O1. clearbody s1. set (s2 := if _ && has_twl3025 c then _ else s1).
  eapply (kept_trans _ _ (s2, l)); [apply kept_view; [|done]; subst s2; by destruct (_ && has_twl3025 c)|].
  intros O2. clearbody s2. set (x3 := if size =? 2 then _ else (s2, l)).
  eapply (kept_trans _ _ x3).
  { apply Hsub. subst x3. destruct (size =? 2); [|done]. apply via_l1_kept; [done|done|].
    intros. apply do_observed_ok; [exact laws|done|done|apply u16_range]. }
  intros O3. clearbody x3. set (x4 := if _ && _ then burst_written_hook l1 w x3 v else x3).
  eapply (kept_trans _ _ x4); [apply Hsub; subst x4; destruct (_ && _); [by apply burst_hook_kept|done]|].
  intros O4. clearbody x4. set (x5 := if _ && _ && _ then rach_written_hook l1 w x4 v else x4).
  eapply (kept_trans _ _ x5); [apply Hsub; subst x5; destruct (_ && _ && _); [by apply rach_hook_kept|done]|].
  intros O5. clearbody x5. set (x6 := if _ && _ then page_written_hook l1 w x5 v else x5).
  eapply (kept_trans _ _ x6); [apply Hsub; subst x6; destruct (_ && _); [by apply page_hook_kept|done]|].
  intros O6. clearbody x6. apply Hsub. destruct (off =? API_BL_STATUS); [by apply bl_written_kept|done].
Qed.

Lemma tpu_write_own e s l off v : own_l1 (s, l) → kept arm_word (s, l) (tpu_write shm_ok e s off v, l).
Proof using.
  intros Ho. assert (∀ s s1, own_l1 (s, l) → pont s1 = pont s → tick_phase s1 = tick_phase s → api_ram s1 = api_ram s →
                       0 ≤ fn s1 < 4294967296 → kept arm_word (s, l) (s1, l)) as Hk.
  { intros s0 s1 [] ? ? ? ?. cbn in *. split; [constructor; cbn; congruence|]. intros k _. cbn. congruence. }
  unfold tpu_write. set (s1 := if off / 2 <? _ then _ else s).
  eapply (kept_trans _ _ (s1, l)); [apply kept_view; [|done]; subst s1; by destruct (_ <? _)|]. intros O1. clearbody s1.
  set (s2 := if (off =? TPU_CTRL) && _ then _ else s1). eapply (kept_trans _ _ (s2, l)).
  { pose proof (ol_fn _ O1) as Hf. cbn [fst] in Hf. subst s2. destruct (_ && _); [|done]. destruct (_ && _); by apply Hk. }
  intros O2. clearbody s2. set (s3 := if (off =? TPU_INT_CTRL) && _ && _ then _ else s2). eapply (kept_trans _ _ (s3, l)).
  { subst s3. destruct (_ && _); [by apply Hk|done]. }
  intros O3. apply kept_view; [|done]. by destruct (off =? TPU_IT_DSP_PG).
Qed.

Lemma wstep_kept x o :
  own_l1 x → wop_ok o → kept (λ k, arm_word k ∧ ¬ writes o k) x (wstep x o).
Proof using laws.
  intros Ho Hop. assert (∀ y, kept arm_word x y → kept (λ k, arm_word k ∧ ¬ writes o k) x y) as Hsub.
  { intros y [K1 K2]. split; [done|]. intros k [Hk _]. by apply K2. }
  destruct o as [[e|e w|e w off size|w off v size|e off v|f|genre ss tn|f]|f]; cbn [wstep mstep wop_ok] in *.
  - by apply Hsub, tick_kept.
  - by apply Hsub, pulse_end_kept.
  - by apply Hsub, read_kept.
  - destruct Hop as (Hw & Ha & _). by apply write_kept.
  - apply Hsub. destruct x as [s l]. by apply tpu_write_own.
  - apply Hsub. destruct x as [s l]. apply kept_view; [|done]. unfold calypso_trx_rach_conf.
    destruct (f =? 0); [done|]. by destruct (_ =? _).
  - apply Hsub. destruct x as [s l]. apply kept_view; [|done]. unfold calypso_trx_dcch. by destruct (negb _).
  - apply Hsub. destruct x as [s l]. apply kept_view; [|done]. unfold calypso_trx_autosync_fn. cbn zeta. by destruct (_ && _).
  - apply Hsub. destruct Ho as [? ? ? [Hm Hl]]. split; [|done]. constructor; try done. split; [done|]. by apply Hop.
Qed.

(** Any run of the machine keeps the layer 1 in its invariant, the memory
    well-formed, and the words of the ARM that it does not write. *)
Lemma wrun_kept x ops k :
  own_l1 x → Forall wop_ok ops → arm_word k → Forall (λ o, ¬ writes o k) ops →
  own_l1 (run wstep x ops) ∧ aget (api_ram (fst (run wstep x ops))) k = aget (api_ram (fst x)) k.
Proof using laws.
  intros Ho Hops Hk Hw. revert x Ho Hw. induction Hops as [|o ops Hop _ IH]; intros x Ho Hw; [done|].
  apply Forall_cons_1 in Hw as [Hw1 Hw]. destruct (wstep_kept x o Ho Hop) as [K1 K2].
  destruct (IH (wstep x o) K1 Hw) as [R1 R2]. split; [exact R1|]. cbn [run foldl]. unfold run in R2. rewrite R2. by apply K2.
Qed.
End seam.
End TRX_L1.
