(* ===== verification/Lockstep.v ===== *)
(** * The transceiver and the interrupt controller together

    In lock-step the transceiver ([calypso_trx.c]) watches the interrupt
    controller ([calypso_inth.c]): GO is sent to the DSP when the ARM has ended
    the service of the frame interrupt, and otherwise only when that interrupt is
    masked or the wait is given up.  A state of the pair carries the trace of what
    happened: the messages and interrupts of the bridge, with what the tick that
    made them saw, and the ends of service of the ARM. *)
From stdpp Require Import gmap.
From S2P Require Import Prelude ApiRam Inth Rf Trx TrxPont.
Import API TRX PONT.

Module LOCKSTEP.

(** A mark of the bridge, with whether its tick found the frame interrupt masked
    and whether it gave up the wait; an end of service of the frame interrupt. *)
Inductive smark :=
  | P (m : mark) (masked given_up : bool)
  | Eoi.

Record Sys := mkSys {
  trx : CalypsoTRX;
  inth : INTH.CalypsoINTHState;
  trace : list smark
}.

(** The interrupt lines the transceiver drives. *)
Definition apply_irq (i : INTH.CalypsoINTHState) (ev : event) : INTH.CalypsoINTHState :=
  match ev with
  | IrqRaise n => INTH.calypso_inth_set_irq i n true
  | IrqLower n => INTH.calypso_inth_set_irq i n false
  | _ => i
  end.

(** A step of the transceiver and what it does to the controller. *)
Definition trx_step (y : Sys) (masked : bool) (s' : CalypsoTRX) : Sys :=
  let given_up := negb (eoi_timeouts s' =? eoi_timeouts (trx y)) in
  mkSys s' (foldl apply_irq (inth y) (drop (length (events (trx y))) (events s')))
        (trace y ++ ((λ m, P m masked given_up) <$> drop (length (marks (trx y))) (marks s'))).

(** An access of the ARM to the controller, a change of one of its other inputs,
    or its reset. *)
Definition arm_step (y : Sys) (o : INTH.op) : Sys :=
  let i := INTH.step (inth y) o in
  mkSys (trx y) i (trace y ++ (if INTH.frame_eoi i =? INTH.frame_eoi (inth y) + 1 then [Eoi] else [])).

(** What the tick reads is the state of the controller. *)
Definition reads (e : Env) (i : INTH.CalypsoINTHState) : Prop :=
  frame_eoi e = INTH.calypso_inth_frame_eoi i ∧
  frame_masked e = INTH.calypso_inth_irq_masked i CALYPSO_IRQ_TPU_FRAME.

(** Any tick, whatever the socket does; any access to the controller; anything of
    the transceiver that does not take part in the protocol.  The counters of
    ends of service do not wrap. *)
Inductive step (shm_ok : option (list TSP.CalypsoRfProg)) (c : Cfg) : Sys → Sys → Prop :=
  | step_tick e y :
      reads e (inth y) → eoi_cible (trx y) + 1 < 2 ^ 64 → INTH.frame_eoi (inth y) + 1 < 2 ^ 64 →
      step shm_ok c y (trx_step y (frame_masked e) (tdma_tick shm_ok c e (trx y)))
  | step_arm o y : INTH.frame_eoi (inth y) + 1 < 2 ^ 64 → step shm_ok c y (arm_step y o)
  | step_quiet s' y :
      quiet (trx y) s' → eoi_cible s' = eoi_cible (trx y) → step shm_ok c y (trx_step y false s').

(** Was the last frame interrupt served; was every GO sent after that, or by a tick
    that found the interrupt masked or gave up? *)
Definition serve (st : bool * bool) (m : smark) : bool * bool :=
  match m with
  | P Irq _ _ => (false, snd st)
  | Eoi => (true, snd st)
  | P (Go _) masked given_up => (fst st, snd st && (fst st || masked || given_up))
  | P _ _ _ => st
  end.
Definition served (tr : list smark) : bool * bool := foldl serve (true, true) tr.

(** ** The counter of ends of service *)
Lemma update_eoi i : INTH.frame_eoi (INTH.calypso_inth_update i) = INTH.frame_eoi i.
Proof. unfold INTH.calypso_inth_update. cbn zeta. destruct (INTH.scan _ _) as [[? ?] [? ?]]. by case_ifs. Qed.

Lemma apply_irqs_eoi l i : INTH.frame_eoi (foldl apply_irq i l) = INTH.frame_eoi i.
Proof.
  revert i. induction l as [|ev l IH]; intros i; [done|]. cbn [foldl]. rewrite IH.
  destruct ev; try done; cbn [apply_irq]; unfold INTH.calypso_inth_set_irq; rewrite ?update_eoi; case_ifs; by rewrite ?update_eoi.
Qed.

(** An operation of the controller leaves the counter, adds one to it or clears it. *)
Lemma arm_eoi o i :
  INTH.frame_eoi i + 1 < 2 ^ 64 → 0 ≤ INTH.frame_eoi i →
  0 ≤ INTH.frame_eoi (INTH.step i o) ≤ INTH.frame_eoi i ∨ INTH.frame_eoi (INTH.step i o) = INTH.frame_eoi i + 1.
Proof.
  intros Hb H0. destruct o as [irq level|off|off v| |]; cbn [INTH.step].
  - left. unfold INTH.calypso_inth_set_irq. rewrite ?update_eoi. case_ifs; rewrite ?update_eoi; cbn; lia.
  - left. unfold INTH.calypso_inth_read, INTH.ack_num. case_ifs; cbn [snd]; rewrite ?update_eoi; case_ifs; rewrite ?update_eoi; cbn; lia.
  - unfold INTH.calypso_inth_write. cbn zeta.
    repeat case_if; rewrite ?update_eoi; try (left; cbn; lia);
      try (right; cbn; unfold u64; apply Z.mod_small; lia).
    left. unfold INTH.write_ilr. cbn zeta. destruct (_ =? 7), (_ =? 18); cbn; lia.
  - left. unfold INTH.calypso_inth_arm_ack. case_ifs; cbn; lia.
  - left. cbn. lia.
Qed.

(** ** A frame start moves neither the target nor, before its end, the phase *)
Definition key (s : CalypsoTRX) : Z * Z := (tick_phase s, eoi_cible s).

Lemma send_key e s t a b d : key (snd (pont_send e s t a b d)) = key s.
Proof. unfold pont_send. destruct (pont_fd s <? 0); [done|]. by destruct (tx_ok e _). Qed.

Lemma tick_send_key e s : key (pont_tick_send e s) = key s.
Proof.
  unfold pont_tick_send. assert (key (snd (pont_tick_b s)) = key s) as E.
  { unfold pont_tick_b. by destruct (_ && _). }
  destruct (pont_tick_b s) as [b s1]. cbn [snd] in E.
  match goal with |- context [pont_send e ?x PONT_TICK ?f ?b ?o] =>
    pose proof (send_key e x PONT_TICK f b o) as E2; destruct (pont_send e x PONT_TICK f b o) as [sent s3] end.
  cbn [snd] in E2. assert (key s3 = key s) as E3.
  { rewrite E2, <- E. destruct (dcch_a_dire s1); [|done]. by rewrite send_key. }
  by destruct sent.
Qed.

Lemma done_key s a : key (done_collected s a) = key s.
Proof. unfold done_collected. by destruct (has a _). Qed.

Lemma recv_key e s : key (snd (recv_done e s)) = key s.
Proof. unfold recv_done, pont_recv. destruct (pont_fd s <? 0); [done|]. by destruct (rx e). Qed.

Lemma echange_key e s : key (pont_echange e s) = key s.
Proof.
  unfold pont_echange. destruct (pont_fd s <? 0); [done|]. destruct (negb (pont_pending s)); [apply tick_send_key|].
  pose proof (recv_key e s) as E. destruct (recv_done e s) as [[a|] s1]; cbn [snd] in E.
  - by rewrite tick_send_key, done_key.
  - by destruct (0 <=? pont_fd s1).
Qed.

Lemma wait_key c e s : key (snd (lockstep_wait c e s)) = key s.
Proof.
  unfold lockstep_wait. destruct (_ && _); [|done]. pose proof (recv_key e s) as E.
  destruct (recv_done e s) as [[a|] s1]; cbn [snd] in *; [by rewrite done_key|done].
Qed.

Lemma exchange_key c e s : key (frame_exchange c e s) = key s.
Proof.
  unfold frame_exchange. destruct (pont s); [|done].
  match goal with |- key (update_field _ _ (pont_echange e ?y)) = _ =>
    change (key (pont_echange e y) = key s); rewrite echange_key end.
  by destruct (arm_first c).
Qed.

Lemma phase0_cible shm_ok c e s : eoi_cible (tick_phase0 shm_ok c e s) = eoi_cible s.
Proof.
  unfold tick_phase0. pose proof (wait_key c e s) as E.
  destruct (lockstep_wait c e s) as [ready s1]. cbn [snd] in E. unfold key in E. injection E as _ E. destruct ready; cbn [negb]; [|done].
  match goal with |- context [frame_exchange c e ?x] => pose proof (exchange_key c e x) as E2; change (key x) with (key s1) in E2 end.
  generalize dependent (frame_exchange c e (emit (sequencer_tick shm_ok (s1 <| fn := next_fn c e s1 |>)) UartPump)).
  intros s3 E2. unfold key in E2. injection E2 as _ E2. destruct (_ && _); [cbn; congruence|]. destruct (pont_fd s3 <? 0); cbn; congruence.
Qed.

(** ** Steps without GO *)
Definition no_go (m : mark) : Prop := match m with Go _ => False | _ => True end.

(** The step adds marks other than GO. *)
Definition adds (s s' : CalypsoTRX) : Prop := ∃ l, marks s' = marks s ++ l ∧ Forall no_go l.

Lemma adds_events s s' : events s' = events s → adds s s'.
Proof. intros E. exists []. rewrite app_nil_r. split; [unfold marks; by rewrite E|done]. Qed.
Lemma adds_trans s s1 s2 : adds s s1 → adds s1 s2 → adds s s2.
Proof. intros (l & E & H) (l' & E' & H'). exists (l ++ l'). rewrite E', E, app_assoc. split; [done|]. by apply Forall_app. Qed.

(** A step that emits one event other than GO. *)
Lemma adds_emit s s' ev :
  events s' = events s ++ [ev] → match mark_of ev with Some (Go _) => False | _ => True end → adds s s'.
Proof.
  intros E H. exists (omap mark_of [ev]). split; [unfold marks; by rewrite E, omap_app|]. cbn.
  destruct (mark_of ev) as [[]|]; done || by repeat constructor.
Qed.

Lemma send_adds e s t a b d : t ≠ PONT_GO → adds s (snd (pont_send e s t a b d)).
Proof.
  intros Ht. unfold pont_send. destruct (pont_fd s <? 0); [by apply adds_events|].
  destruct (tx_ok e _); [|by apply adds_events]. eapply adds_emit; [done|]. cbn.
  rewrite (proj2 (Z.eqb_neq t PONT_GO) Ht). by repeat case_if.
Qed.
Lemma recv_adds e s : adds s (snd (recv_done e s)).
Proof.
  unfold recv_done, pont_recv. destruct (pont_fd s <? 0); [by apply adds_events|].
  destruct (rx e) as [| |m]; [by apply adds_events..|]. eapply adds_emit; [done|]. cbn. by case_if.
Qed.
Lemma done_adds s a : adds s (done_collected s a).
Proof. unfold done_collected. destruct (has a _); [by eapply adds_emit|by apply adds_events]. Qed.
Lemma frame_irq_adds e s : adds s (frame_irq e s).
Proof.
  apply (adds_trans _ (emit s (LostFrameTick (fn s)))); [by eapply adds_emit|]. by eapply adds_emit.
Qed.

Lemma tick_send_adds e s : adds s (pont_tick_send e s).
Proof.
  unfold pont_tick_send. assert (adds s (snd (pont_tick_b s))) as A0 by (unfold pont_tick_b; destruct (_ && _); by apply adds_events).
  destruct (pont_tick_b s) as [b s0]. cbn [snd] in A0. cbn zeta.
  set (s1 := if dcch_a_dire s0 then _ else s0). assert (adds s0 s1) as A1.
  { subst s1. destruct (dcch_a_dire s0); [|by apply adds_events].
    apply (adds_trans _ (s0 <| dcch_a_dire := false |>)); [by apply adds_events|by apply send_adds]. }
  clearbody s1. match goal with |- context [pont_send e s1 PONT_TICK ?f ?b ?o] =>
    pose proof (send_adds e s1 PONT_TICK f b o ltac:(done)) as A2; destruct (pont_send e s1 PONT_TICK f b o) as [sent s2] end.
  cbn [snd] in A2. apply (adds_trans _ s0); [done|]. apply (adds_trans _ s1); [done|]. apply (adds_trans _ s2); [done|].
  destruct sent; by apply adds_events.
Qed.

Lemma echange_adds e s : adds s (pont_echange e s).
Proof.
  unfold pont_echange. destruct (pont_fd s <? 0); [by apply adds_events|].
  destruct (negb (pont_pending s)); [apply tick_send_adds|]. pose proof (recv_adds e s) as A.
  destruct (recv_done e s) as [[a|] s1]; cbn [snd] in A; apply (adds_trans _ s1); try done.
  - apply (adds_trans _ (done_collected s1 a)); [apply done_adds|apply tick_send_adds].
  - destruct (0 <=? pont_fd s1); by apply adds_events.
Qed.

Lemma sequencer_adds shm_ok s f :
  adds s (emit (sequencer_tick shm_ok (s <| fn := f |>)) UartPump) ∧
  tick_phase (emit (sequencer_tick shm_ok (s <| fn := f |>)) UartPump) = tick_phase s.
Proof.
  unfold sequencer_tick. cbn zeta. generalize (TPU.calypso_tpu_sequencer_tick shm_ok). intros q.
  split; [by eapply adds_emit|done].
Qed.

(** A frame start sends no GO and leaves phase 1 without answer, or no phase 1. *)
Lemma phase0_adds shm_ok c e s :
  tick_phase s = 0 →
  let s' := tick_phase0 shm_ok c e s in
  adds s s' ∧ (tick_phase s' = 0 ∨ tick_phase s' = 1 ∧ phase_a_recue s' = false).
Proof.
  intros Hph. cbn zeta. unfold tick_phase0.
  assert (adds s (snd (lockstep_wait c e s))) as A0.
  { unfold lockstep_wait. destruct (_ && _); [|by apply adds_events]. pose proof (recv_adds e s) as A.
    destruct (recv_done e s) as [[a|] s1]; cbn [snd] in *; apply (adds_trans _ s1); try done; [apply done_adds|by eapply adds_emit]. }
  assert (tick_phase (snd (lockstep_wait c e s)) = 0) as P0 by (pose proof (wait_key c e s) as E; unfold key in E; congruence).
  destruct (lockstep_wait c e s) as [ready s1]. cbn [snd] in *. destruct ready; cbn [negb]; [|split; [done|by left]].
  destruct (sequencer_adds shm_ok s1 (next_fn c e s1)) as [A2 P2]. rewrite P0 in P2.
  generalize dependent (emit (sequencer_tick shm_ok (s1 <| fn := next_fn c e s1 |>)) UartPump). intros s2 A2 P2. assert (adds s2 (frame_exchange c e s2)) as A3.
  { unfold frame_exchange. destruct (pont s2); [|by apply adds_events].
    match goal with |- context [pont_echange e ?x] => apply (adds_trans _ x); [destruct (arm_first c); by apply adds_events|];
      apply (adds_trans _ (pont_echange e x)); [apply echange_adds|by apply adds_events] end. }
  assert (tick_phase (frame_exchange c e s2) = 0) as P3 by (pose proof (exchange_key c e s2) as E; unfold key in E; congruence).
  generalize dependent (frame_exchange c e s2). intros s3 A3 P3.
  pose proof (adds_trans _ _ _ A0 (adds_trans _ _ _ A2 A3)) as A. destruct (_ && _).
  - split; [|by right]. apply (adds_trans _ s3); [done|by apply adds_events].
  - split; [|left; by destruct (pont_fd s3 <? 0)]. apply (adds_trans _ s3); [done|].
    set (s4 := if pont_fd s3 <? 0 then _ else s3).
    assert (adds s3 s4) as A4 by (subst s4; destruct (pont_fd s3 <? 0); by apply adds_events).
    apply (adds_trans _ s4); [done|]. apply (adds_trans _ (frame_irq e s4)); [apply frame_irq_adds|by apply adds_events].
Qed.

(** ** Ticks of phase 1 *)

(** The target of the frame interrupt just raised is ahead of the counter; a tick
    that took no answer leaves the target. *)
Lemma collect_target e s :
  phase_a_recue s = false → 0 ≤ eoi_cible s → eoi_cible s + 1 < 2 ^ 64 → 0 ≤ frame_eoi e → frame_eoi e + 1 < 2 ^ 64 →
  let s1 := phase_a_collect e s in
  adds s s1 ∧ if phase_a_recue s1 then frame_eoi e < eoi_cible s1 < 2 ^ 64 else eoi_cible s1 = eoi_cible s.
Proof.
  intros Ha H1 H2 H3 H4. cbn zeta. unfold phase_a_collect. rewrite Ha.
  set (s2 := match recv_done e s with (Some a, s) => _ | (None, s) => _ end).
  assert (adds s s2 ∧ eoi_cible s2 = eoi_cible s) as [A E].
  { subst s2. pose proof (recv_adds e s) as A. pose proof (recv_key e s) as E. unfold key in E. destruct (recv_done e s) as [[a|] s1]; cbn [snd] in *.
    - destruct (has a PONT_DONE_PHASE_A).
      + split; [apply (adds_trans _ s1); [done|by apply adds_events]|cbn; congruence].
      + set (s3 := s1 <| phase_a_recue := true |> <| go_inutile := true |>).
        pose proof (done_key s3 a) as E3. unfold key in E3. cbn in E3. split; [|congruence].
        apply (adds_trans _ s1); [done|]. apply (adds_trans _ s3); [by apply adds_events|apply done_adds].
    - split; [done|congruence]. }
  clearbody s2. destruct (phase_a_recue s2) eqn:E2; [|by rewrite ?E2].
  set (s3 := s2 <| eoi_cible := _ |>). split.
  - apply (adds_trans _ s2); [done|]. apply (adds_trans _ s3); [by apply adds_events|apply frame_irq_adds].
  - subst s3. unfold frame_irq, emit. cbn [phase_a_recue eoi_cible update_field]. rewrite E2, E.
    destruct (Z.ltb_spec (eoi_cible s) (frame_eoi e)); unfold u64; rewrite Z.mod_small; lia.
Qed.

Lemma collect_keeps e s : phase_a_recue s = true → phase_a_collect e s = s.
Proof. intros Ha. unfold phase_a_collect. by rewrite Ha. Qed.

(** The end of phase 1 adds at most the GO. *)
Lemma phase_b_marks c e s :
  ∃ l, marks (phase_b c e s) = marks s ++ l ∧ (l = [] ∨ l = [Go (fn s)]).
Proof.
  unfold phase_b. cbn [go_inutile update_field]. destruct (negb (go_inutile s)).
  - unfold pont_send. cbn [pont_fd update_field]. destruct (pont_fd s <? 0); [exists []; rewrite app_nil_r; split; [done|by left]|].
    destruct (tx_ok e _); [|exists []; rewrite app_nil_r; split; [done|by left]].
    exists [Go (fn s)]. split; [|by right]. unfold tdma_pacer, marks, emit. cbn. by rewrite omap_app.
  - exists []. rewrite app_nil_r. split; [done|by left].
Qed.

(** A tick of phase 1: it stays in the phase; it ends with the condition met; or
    it gives up. *)
Lemma phase1_cases c e s :
  tick_phase s = 1 →
  let s1 := phase_a_collect e s in
  let s' := tick_phase1 c e s in
  (tick_phase s' = 1 ∧ marks s' = marks s1 ∧ phase_a_recue s' = phase_a_recue s1 ∧ eoi_cible s' = eoi_cible s1) ∨
  (tick_phase s' = 0 ∧ fini e s1 = true ∧ eoi_cible s' = eoi_cible s1 ∧ ∃ l, marks s' = marks s1 ++ l ∧ (l = [] ∨ l = [Go (fn s1)])) ∨
  (tick_phase s' = 0 ∧ eoi_timeouts s' ≠ eoi_timeouts s ∧ eoi_cible s' = frame_eoi e ∧
   ∃ l f, marks s' = marks s1 ++ l ∧ (l = [] ∨ l = [Irq] ∨ l = [Go f] ∨ l = [Irq; Go f])).
Proof.
  intros Hph. cbn zeta. destruct (collect_attentes e s) as (_ & E2 & E3). rewrite Hph in E2.
  unfold tick_phase1. cbn zeta. set (s1 := phase_a_collect e s) in *. clearbody s1.
  destruct (fini e s1) eqn:Ef.
  { right. left. destruct (phase_b_fields c e s1) as (F1 & _ & F3 & _). destruct (phase_b_marks c e s1) as (l & Hl). eauto. }
  case_if.
  { left. unfold marks. split; [by destruct (_ =? _)|]. split; [|by destruct (_ =? _)].
    destruct (_ =? _); cbn; by rewrite omap_app, app_nil_r. }
  case_if; [left; unfold marks; cbn; by rewrite omap_app, app_nil_r|].
  case_if; [by left|]. right. right. set (s2 := s1 <| eoi_attentes := _ |>). set (s3 := force_go e s2).
  destruct (phase_b_fields c e s3) as (F1 & F2 & F3 & _). destruct (phase_b_marks c e s3) as (l & Hl & Hl2).
  assert (eoi_timeouts s3 = u32 (eoi_timeouts s + 1) ∧ eoi_cible s3 = frame_eoi e) as [T1 T2].
  { unfold s3, force_go. split; [|done]. cbn [eoi_timeouts update_field phase_a_recue s2]. rewrite <- E3.
    by destruct (negb (phase_a_recue s1)). }
  split; [done|]. split; [rewrite F2, T1; unfold u32; mlia|]. split; [congruence|].
  exists ((if phase_a_recue s1 then [] else [Irq]) ++ l), (fn s3). split.
  - rewrite Hl. pose proof (force_go_view e s2) as V. injection V as _ _ _ _ _ _ _ _ V _. fold s3 in V. rewrite V.
    by rewrite app_assoc.
  - destruct (phase_a_recue s1), Hl2 as [->| ->]; auto.
Qed.

(** ** The invariant *)
Record inv (y : Sys) : Prop := {
  in_phase : tick_phase (trx y) = 0 ∨ tick_phase (trx y) = 1;
  in_cible : 0 ≤ eoi_cible (trx y);
  in_eoi : 0 ≤ INTH.frame_eoi (inth y);
  in_served : snd (served (trace y)) = true;
  in_target : tick_phase (trx y) = 1 → phase_a_recue (trx y) = true →
              fst (served (trace y)) = true ∨ INTH.frame_eoi (inth y) < eoi_cible (trx y)
}.

Lemma served_app a b : served (a ++ b) = foldl serve (served a) b.
Proof. apply foldl_app. Qed.

Lemma new_marks s s' l : marks s' = marks s ++ l → drop (length (marks s)) (marks s') = l.
Proof. intros ->. apply drop_app_length. Qed.

Lemma served_no_go st l m g : Forall no_go l → snd (foldl serve st ((λ x, P x m g) <$> l)) = snd st.
Proof.
  intros H. revert st. induction H as [|x l Hx _ IH]; intros st; [done|]. cbn [fmap list_fmap foldl]. rewrite IH.
  by destruct x.
Qed.

(** Steps of the transceiver that keep the view keep the invariant. *)
Lemma inv_quiet y m s' :
  view_of s' = view_of (trx y) → eoi_cible s' = eoi_cible (trx y) → inv y → inv (trx_step y m s').
Proof.
  intros (V1 & V2 & V3 & V4 & V5 & V6 & V7 & V8 & V9 & V10)%view_eq Hc [I1 I2 I3 I4 I5].
  unfold trx_step. rewrite (new_marks (trx y) s' []) by (by rewrite app_nil_r).
  split; cbn [trx inth trace fmap list_fmap]; rewrite ?app_nil_r, ?apply_irqs_eoi, ?V1, ?V2, ?Hc; done.
Qed.

Lemma inv_phase0 shm_ok c e y m :
  tick_phase (trx y) = 0 → inv y → inv (trx_step y m (tick_phase0 shm_ok c e (trx y))).
Proof.
  intros Hph [I1 I2 I3 I4 I5]. pose proof (phase0_cible shm_ok c e (trx y)) as Hcib.
  destruct (phase0_adds shm_ok c e (trx y) Hph) as [(l & Hl & Hg) Hp].
  generalize dependent (tick_phase0 shm_ok c e (trx y)). intros s' Hcib Hl Hp.
  unfold trx_step. rewrite (new_marks _ _ _ Hl).
  split; cbn [trx inth trace]; rewrite ?apply_irqs_eoi, ?served_app, ?served_no_go, ?Hcib by done; try done.
  - destruct Hp as [|[? _]]; auto.
  - destruct Hp as [|[_ ?]]; congruence.
Qed.

Lemma inv_phase1 c e y :
  reads e (inth y) → eoi_cible (trx y) + 1 < 2 ^ 64 → INTH.frame_eoi (inth y) + 1 < 2 ^ 64 →
  tick_phase (trx y) = 1 → inv y → inv (trx_step y (frame_masked e) (tick_phase1 c e (trx y))).
Proof.
  intros [Re Rm] Hb1 Hb2 Hph [I1 I2 I3 I4 I5]. unfold INTH.calypso_inth_frame_eoi in Re.
  assert (∃ l, marks (phase_a_collect e (trx y)) = marks (trx y) ++ l ∧ Forall no_go l ∧
    0 ≤ eoi_cible (phase_a_collect e (trx y)) ∧
    (phase_a_recue (phase_a_collect e (trx y)) = true →
       (fst (served (trace y)) = true ∧ l = []) ∨ INTH.frame_eoi (inth y) < eoi_cible (phase_a_collect e (trx y))))
    as (l & Hl & Hg & Hc0 & Ht).
  { destruct (phase_a_recue (trx y)) eqn:Ea.
    - rewrite collect_keeps by done. exists []. rewrite app_nil_r. split; [done|]. split; [done|]. split; [done|].
      intros _. destruct (I5 Hph eq_refl); auto.
    - destruct (collect_target e (trx y) Ea) as [(l & Hl & Hg) Ht]; try lia. exists l. split; [done|]. split; [done|].
      destruct (phase_a_recue (phase_a_collect e (trx y))); (split; [lia|]); [intros _; right; lia|done]. }
  destruct (phase1_cases c e (trx y) Hph) as [(C1 & C2 & C3 & C4)|[(C1 & C2 & C4 & l2 & C5 & C6)|(C1 & C2 & C4 & l2 & f & C5 & C6)]].
  - generalize dependent (tick_phase1 c e (trx y)). intros s' C1 C2 C3 C4.
    unfold trx_step. rewrite (new_marks (trx y) s' l) by congruence.
    split; cbn [trx inth trace]; rewrite ?apply_irqs_eoi, ?served_app, ?served_no_go, ?C4, ?C3 by done; auto.
    intros _ Ha. destruct (Ht Ha) as [[Hs ->]|]; auto.
  - generalize dependent (tick_phase1 c e (trx y)). intros s' C1 C4 C5.
    rewrite Hl, <- app_assoc in C5. unfold trx_step. rewrite (new_marks (trx y) s' _ C5). rewrite fmap_app.
    split; cbn [trx inth trace]; rewrite ?apply_irqs_eoi, ?served_app, ?foldl_app; auto; [by rewrite C4| |congruence].
    destruct C6 as [->| ->]; [cbn [fmap list_fmap foldl]; by rewrite served_no_go|]. cbn [fmap list_fmap foldl serve snd]. rewrite served_no_go by done.
    rewrite I4. cbn [andb]. unfold fini in C2. apply andb_true_iff in C2 as [Ha Hf].
    apply orb_true_iff in Hf as [Hf|Hf]; [|rewrite Hf; by rewrite orb_true_r].
    apply Z.leb_le in Hf. destruct (Ht Ha) as [[Hs ->]|]; [cbn; by rewrite Hs|lia].
  - generalize dependent (tick_phase1 c e (trx y)). intros s' C1 C2 C4 C5.
    rewrite Hl, <- app_assoc in C5. unfold trx_step. rewrite (new_marks (trx y) s' _ C5). rewrite fmap_app.
    rewrite (proj2 (Z.eqb_neq _ _) C2). cbn [negb].
    split; cbn [trx inth trace]; rewrite ?apply_irqs_eoi, ?served_app, ?foldl_app; auto; [rewrite C4; lia| |congruence].
    destruct C6 as [->|[->|[->| ->]]]; cbn [fmap list_fmap foldl serve snd fst]; rewrite ?served_no_go by done; rewrite I4, ?orb_true_r; done.
Qed.

(** ** Every run *)
Lemma inv_step shm_ok c y y' : step shm_ok c y y' → inv y → inv y'.
Proof.
  intros [e y1 Hr Hb1 Hb2|o y1 Hb|s' y1 Hq Hcib] Hi.
  - unfold tdma_tick. destruct (running e); cbn [negb]; [|by apply inv_quiet].
    destruct (Z.eqb_spec (tick_phase (trx y1)) 1) as [E|E]; [by apply inv_phase1|].
    apply inv_phase0; [|done]. destruct (in_phase y1 Hi); [done|congruence].
  - destruct Hi as [I1 I2 I3 I4 I5]. unfold arm_step.
    destruct (arm_eoi o (inth y1) Hb I3) as [E|E].
    + rewrite (proj2 (Z.eqb_neq _ _)) by lia. split; cbn [trx inth trace]; rewrite ?app_nil_r; try done; [lia|].
      intros H1 H2. destruct (I5 H1 H2); [by left|right; lia].
    + rewrite E, Z.eqb_refl. split; cbn [trx inth trace]; rewrite ?served_app; try done; [lia|]. by left.
  - by apply inv_quiet.
Qed.

Lemma inv_reach shm_ok c y y' : rtc (step shm_ok c) y y' → inv y → inv y'.
Proof. induction 1; [done|]. eauto using inv_step. Qed.

(** C10: the DSP gets the GO of a frame only after the ARM has served the frame
    interrupt.  In every run of the transceiver, the interrupt controller and
    the ARM, whatever the socket does (lost messages, lost connection), with the
    controller reset at any time, and as long as the 64-bit counters of ends of
    service do not wrap, an end of service of the frame interrupt lies between the
    interrupt and the GO of each frame, unless the tick that sent the GO found
    the frame interrupt masked or gave up the wait (its timeout counter moved). *)
Theorem go_after_service shm_ok c y y' :
  tick_phase (trx y) = 0 → 0 ≤ eoi_cible (trx y) → 0 ≤ INTH.frame_eoi (inth y) → trace y = [] →
  rtc (step shm_ok c) y y' → snd (served (trace y')) = true.
Proof.
  intros Hph Hcib Heoi Htr Hr. apply (in_served y'), (inv_reach shm_ok c y y' Hr).
  split; try done; [by left|by rewrite Htr|congruence].
Qed.

(** One frame: the TICK, the answer of the DSP and the frame interrupt, its service
    by the ARM (number read, end of service written), the GO; then the ARM masks
    the frame interrupt, and the next frame gets its GO at once. *)
Definition env_at (r : RxResult) (n : Z) (masked : bool) : Env :=
  mkEnv true 1000000 0 0 r (λ _, true) n masked None (λ m, m).
Definition tick_at (y : Sys) (r : RxResult) (n : Z) (masked : bool) : Sys :=
  trx_step y masked (tdma_tick None cfg_lockstep (env_at r n masked) (trx y)).
Definition y0 : Sys := mkSys trx_linked INTH.inth_init [].
Definition y1 : Sys := tick_at y0 RxNone 0 false.
Definition y2 : Sys := tick_at y1 (done_msg PONT_DONE_PHASE_A) 0 false.
Definition y3 : Sys := arm_step y2 (INTH.Read 0x10).
Definition y4 : Sys := arm_step y3 (INTH.Write 0x14 1).
Definition y5 : Sys := tick_at y4 RxNone 1 false.
Definition y6 : Sys := arm_step y5 (INTH.Write 0x08 0x10).
Definition y7 : Sys := tick_at y6 (done_msg 0) 1 true.
Definition y8 : Sys := tick_at y7 (done_msg PONT_DONE_PHASE_A) 1 true.

(** The premises of a step of this run, by evaluation. *)
Local Ltac premises := first [split; vm_compute; reflexivity | vm_compute; reflexivity].
Local Ltac tick r n m y := apply (step_tick None cfg_lockstep (env_at r n m) y); premises.
Local Ltac arm o y := apply (step_arm None cfg_lockstep o y); premises.

Lemma run_y : rtc (step None cfg_lockstep) y0 y8.
Proof.
  apply (rtc_l _ _ y1); [tick RxNone 0 false y0|].
  apply (rtc_l _ _ y2); [tick (done_msg PONT_DONE_PHASE_A) 0 false y1|].
  apply (rtc_l _ _ y3); [arm (INTH.Read 0x10) y2|].
  apply (rtc_l _ _ y4); [arm (INTH.Write 0x14 1) y3|].
  apply (rtc_l _ _ y5); [tick RxNone 1 false y4|].
  apply (rtc_l _ _ y6); [arm (INTH.Write 0x08 0x10) y5|].
  apply (rtc_l _ _ y7); [tick (done_msg 0) 1 true y6|].
  apply (rtc_l _ _ y8); [tick (done_msg PONT_DONE_PHASE_A) 1 true y7|]. apply rtc_refl.
Qed.

Lemma go_after_service_witness :
  trace y8 = [P (Tick 1) false false; P (Done PONT_DONE_PHASE_A) false false; P Irq false false; Eoi;
              P (Go 1) false false; P (Done 0) true false; P (Tick 2) true false;
              P (Done PONT_DONE_PHASE_A) true false; P Irq true false; P (Go 2) true false] ∧
  snd (served (trace y8)) = true.
Proof.
  split; [vm_compute; reflexivity|].
  apply (go_after_service None cfg_lockstep y0 y8).
  - reflexivity.
  - vm_compute. discriminate.
  - vm_compute. discriminate.
  - reflexivity.
  - exact run_y.
Defined.

End LOCKSTEP.
