(* ===== verification/Grgsm.v ===== *)
(** * The gr-gsm layer 1: state and elementary operations ([l1-grgsm/calypso_l1_grgsm.c])

    A host process demodulates the cell and sends the blocks by UDP; this layer 1
    puts them in the API RAM where the firmware expects the results of the DSP,
    and hands the uplink blocks of the firmware to the bench through files in
    shared memory.  The state [G] is the static structure [g] with the static
    variables of the functions and the L1CTL tap it owns; [out] is the list of
    the writes to the files, oldest first. *)
From stdpp Require Import gmap strings.
From S2P Require Import Prelude Cstr ApiRam Elf Rf L1Ops L1ctlTap.
Import API TRF6151 L1OPS.

Module GRGSM.
Create HintDb grgsm.

Definition GSMTAP_HDR_LEN : Z := 16.
Definition GSMTAP_TYPE_UM : Z := 0x01.
Definition GSMTAP_CHANNEL_BCCH : Z := 0x01.
Definition GSMTAP_CHANNEL_AGCH : Z := 0x04.
Definition GSMTAP_CHANNEL_SDCCH4 : Z := 0x07.
Definition GSMTAP_CHANNEL_TCH_F : Z := 0x09.
Definition GSMTAP_CHANNEL_SACCH : Z := 0x87.
Definition GSMTAP_CHANNEL_TCH_ACCH : Z := 0x89.
Definition SI_SLOTS : Z := 10.

Definition SHM_RACH : string := "/dev/shm/calypso_rach".
Definition SHM_SDCCH_UL : string := "/dev/shm/calypso_sdcch_ul".
Definition SHM_FACCH_UL : string := "/dev/shm/calypso_tch_facch_ul".
Definition SHM_TSACCH_UL : string := "/dev/shm/calypso_tch_sacch_ul".
Definition SHM_TCH_UL : string := "/dev/shm/calypso_tch_ul".
Definition SHM_TCH_DL : string := "/dev/shm/calypso_tch_dl".
Definition SHM_TCH_CFG : string := "/dev/shm/calypso_tch_cfg".
Definition SHM_KC : string := "/dev/shm/calypso_kc_l1".

Definition TOA_ON_TIME : Z := 23.
Definition SNR_NOMINAL : Z := 0x7000.
Definition RF_SERVING_DBM : Z := -60.
Definition RF_SILENT_DBM : Z := -110.
Definition SB_MAX_AGE_FRAMES : Z := 104.
Definition AGCH_TTL_TICKS : Z := 100.
Definition SDCCH_TTL_TICKS : Z := 4000.
Definition SDCCH_MAX_PRESENT : Z := 8.
Definition SDCCH_RING_N : Z := 32.
Definition SDCCH_UL_DEDUP_TICKS : Z := 60.
Definition SDCCH_UL_WINDOW_OFS : Z := 6.
Definition DCCH_GUARD_TICKS : Z := 108.
Definition TCH_DL_Q_N : Z := 8.
Definition TCH_DL_PREFETCH : Z := 4.
Definition TCH_DL_SLOT : Z := 48.
Definition TCH_DL_HOLD : Z := 5.
Definition TCH_TTL_TICKS : Z := 26.
Definition TCH_UL_SLOTS : Z := 16.
Definition TCH_UL_SLOT_SZ : Z := 64.
Definition KC_PUBLISH_EVERY : Z := 22.
Definition KC_CLEAR_GRACE : Z := 5.

Record sdcch_entry := mkEntry { e_l2 : list Z; e_fn : Z; e_tick : Z; e_reps : Z }.
#[export] Instance entry_eta : Settable sdcch_entry := λ e, mkEntry (e_l2 e) (e_fn e) (e_tick e) (e_reps e).
Definition entry0 : sdcch_entry := mkEntry (replicate 23 0) 0 0 0.

(** A write of a file of the bench: path, offset, bytes. *)
Record side_write := mkSide { s_path : string; s_off : Z; s_bytes : list Z }.

Record G := mkG {
  pending : bool;
  page : Z;
  d_task_md : Z;
  d_task_d : Z;
  d_task_u : Z;
  d_task_ra : Z;
  d_burst_d : Z;
  d_fn : Z;
  tick : Z;
  si_set : list (list Z);
  si_have : list bool;
  si_buf : list Z;
  g_si_valid : bool;
  si_rr : Z;
  si_rot : Z;
  sacch_buf : list Z;
  sacch_have : bool;
  sacch_real : bool;
  serving_arfcn : Z;
  sb_bsic : Z;
  sb_fn : Z;
  sb_valid : bool;
  sb_capture_fn : Z;
  agch_buf : list Z;
  agch_valid : bool;
  agch_tick : Z;
  sdcch_ring : list sdcch_entry;
  sdcch_head : Z;
  sdcch_tail : Z;
  sdcch_last_fn : Z;
  sdcch_valid : bool;
  sdcch_ss : Z;
  sdcch_ss_set : bool;
  sdcch_ch8 : bool;
  dcch_guard_armed : bool;
  dcch_guard_tick : Z;
  dcch_is_tch : bool;
  tch_dl_q : list (list Z);
  tch_dl_q_seq : list Z;
  tch_dl_q_head : Z;
  tch_dl_q_tail : Z;
  tch_dl_seq : Z;
  facch_dl : list Z;
  facch_dl_valid : bool;
  facch_dl_tick : Z;
  tsacch_dl : list Z;
  tsacch_dl_valid : bool;
  tsacch_dl_tick : Z;
  tch_cfg_valid : bool;
  last_ra : Z;
  rach_conf_fn : list Z;
  l1s_addr : Z;
  last_rach_addr : Z;
  waited : Z;                       (* static of dispatch_tch_dl *)
  fds : gmap string bool;           (* files opened: the static descriptors *)
  seqs : gmap string Z;             (* static sequence number of each file *)
  ul_last : option (list Z * Z);    (* statics of capture_sdcch_ul: block, tick *)
  cfg_last : Z;                     (* static of poll_tch_cfg *)
  kc_last : option (list Z);        (* statics of publish_kc: bytes 4..31 *)
  kc_tick : Z;
  kc_clear_pending : Z;
  tap : L1CTL_TAP.Tap;
  out : list side_write
}.

#[export] Instance g_eta : Settable G := λ g,
  mkG (pending g) (page g) (d_task_md g) (d_task_d g) (d_task_u g) (d_task_ra g) (d_burst_d g) (d_fn g)
    (tick g) (si_set g) (si_have g) (si_buf g) (g_si_valid g) (si_rr g) (si_rot g) (sacch_buf g)
    (sacch_have g) (sacch_real g) (serving_arfcn g) (sb_bsic g) (sb_fn g) (sb_valid g)
    (sb_capture_fn g) (agch_buf g) (agch_valid g) (agch_tick g) (sdcch_ring g) (sdcch_head g)
    (sdcch_tail g) (sdcch_last_fn g) (sdcch_valid g) (sdcch_ss g) (sdcch_ss_set g) (sdcch_ch8 g)
    (dcch_guard_armed g) (dcch_guard_tick g) (dcch_is_tch g) (tch_dl_q g) (tch_dl_q_seq g)
    (tch_dl_q_head g) (tch_dl_q_tail g) (tch_dl_seq g) (facch_dl g) (facch_dl_valid g)
    (facch_dl_tick g) (tsacch_dl g) (tsacch_dl_valid g) (tsacch_dl_tick g) (tch_cfg_valid g)
    (last_ra g) (rach_conf_fn g) (l1s_addr g) (last_rach_addr g) (waited g) (fds g) (seqs g)
    (ul_last g) (cfg_last g) (kc_last g) (kc_tick g) (kc_clear_pending g) (tap g) (out g).

Definition g_zero : G :=
  mkG false 0 0 0 0 0 0 0 0 (replicate 10 (replicate 23 0)) (replicate 10 false) (replicate 23 0) false 0 0
    (replicate 23 0) false false 0 0 0 false 0 (replicate 23 0) false 0 (replicate 32 entry0) 0 0 0 false 0
    false false false 0 false (replicate 8 (replicate 33 0)) (replicate 8 0) 0 0 0 (replicate 23 0) false 0
    (replicate 23 0) false 0 false 0 (replicate 256 0) 0 0 0 ∅ ∅ None 0 None 0 0 L1CTL_TAP.tap_init [].

(** ** Reads of the machine *)
Definition arm_read32 (w : World) (addr : Z) : Z := if addr =? 0 then 0 else w_arm32 w addr.
Definition calypso_l1s_fn (w : World) (g : G) : Z := arm_read32 w (l1s_addr g).
Definition last_rach_fn (w : World) (g : G) : Z := arm_read32 w (last_rach_addr g).

Definition tc51 (f : Z) : Z := Z.rem (Z.rem f 51 + 51) 51.

(** ** Blocks in the API RAM *)

(** The 12 words of a 23-byte block, padded with 0x2B. *)
Definition l2_words (l2 : list Z) : list Z :=
  (λ k, let lo := rd l2 (2 * k) in
        let hi := if 2 * k + 1 <? 23 then rd l2 (2 * k + 1) else 0x2B in
        Z.lor lo (Z.shiftl hi 8)) <$> zseq 0 12.
Definition ndb_put_l2 (m : ram) (w : Z) (l2 : list Z) : ram := aput m (w + 3) (l2_words l2).

(** The 17 words of a 33-byte speech frame, most significant byte first. *)
Definition fr_words (fr : list Z) : list Z :=
  ((λ k, Z.lor (Z.shiftl (rd fr (2 * k)) 8) (rd fr (2 * k + 1))) <$> zseq 0 16) ++ [Z.shiftl (rd fr 32) 8].
Definition ndb_put_fr (m : ram) (w : Z) (fr : list Z) : ram := aput m (w + 3) (fr_words fr).

Definition ndb_block (m : ram) (off hdr : Z) (l2 : list Z) : ram :=
  let w := api_ndb off in ndb_put_l2 (aput m w [hdr; 0; 0]) w l2.

Definition rp_serv_demod (m : ram) (page toa pm : Z) : ram :=
  aput m (api_rp page RP_A_SERV_DEMOD) [toa; pm; 0; SNR_NOMINAL].

Definition on_serving_cell (w : World) (g : G) : bool :=
  let tuned := calypso_trf6151_arfcn (w_trf w) in (tuned <? 0) || (tuned =? serving_arfcn g).
Definition apm_nominal (w : World) (g : G) : Z :=
  calypso_trf6151_apm_for_rf (w_trf w) (if on_serving_cell w g then RF_SERVING_DBM else RF_SILENT_DBM).

(** The 25-bit word of the synchronisation burst (04.08 10.5.2.33 packing). *)
Definition encode_sb (bsic f : Z) : Z :=
  let t1 := u16 (f / (26 * 51)) in
  let t2 := f mod 26 in
  let t3 := f mod 51 in
  let t3p := if t3 =? 0 then 0 else Z.quot (t3 - 1) 10 in
  let sb := Z.shiftl (Z.land bsic 0x3f) 2 in
  let sb := Z.lor sb (Z.shiftl (Z.land t1 0x001) 23) in
  let sb := Z.lor sb (Z.shiftl (Z.land t1 0x1fe) 7) in
  let sb := Z.lor sb (Z.shiftr (Z.land t1 0x600) 9) in
  let sb := Z.lor sb (Z.shiftl (Z.land t2 0x1f) 18) in
  let sb := Z.lor sb (Z.shiftl (Z.land t3p 1) 24) in
  Z.lor sb (Z.shiftl (Z.land t3p 6) 15).

(** ** Downlink results *)
Definition dispatch_pm (w : World) (m : ram) (g : G) (page : Z) : ram :=
  let pm := apm_nominal w g in
  aset (aput m (api_rp page RP_A_PM) [pm; pm; pm]) (api_rp page RP_D_TASK_MD) PM_DSP_TASK.

Definition dispatch_sb (w : World) (m : ram) (g : G) (page : Z) : ram :=
  if negb (sb_valid g) || negb (on_serving_cell w g) then m
  else if SB_MAX_AGE_FRAMES <? i32 (u32 (w_fn w - sb_capture_fn g)) then m
  else
    let sb := encode_sb (sb_bsic g) (sb_fn g) in
    let m := aput m (api_rp page RP_A_SCH) [0; 0; 0; Z.land sb 0xFFFF; u16 (Z.shiftr sb 16)] in
    let m := rp_serv_demod m page TOA_ON_TIME (apm_nominal w g) in
    aset m (api_rp page RP_D_TASK_MD) SB_DSP_TASK.

Definition present_ccch (w : World) (m : ram) (g : G) (page : Z) (l2 : list Z) : ram :=
  let m := ndb_block m NDB_A_CD 0 l2 in
  let m := aset m (api_rp page RP_D_TASK_D) ALLC_DSP_TASK in
  rp_serv_demod m page TOA_ON_TIME (apm_nominal w g).

(** [for (k = 1; k <= SI_SLOTS; k++)]: the next slot that holds a block. *)
Fixpoint rotate_from (have : list bool) (rr k : Z) (n : nat) : option Z :=
  match n with
  | O => None
  | S n =>
      let s := (rr + k) mod SI_SLOTS in
      if default false (have !! Z.to_nat s) then Some s else rotate_from have rr (k + 1) n
  end.
Definition rotate_si (g : G) : G :=
  match rotate_from (si_have g) (si_rr g) 1 10 with Some s => g <| si_rr := s |> | None => g end.

Definition si_slot_buf (g : G) (s : Z) : list Z := default [] (si_set g !! Z.to_nat s).

(** The dedicated channel is in use; it is released when nothing was heard of it. *)
Definition dcch_si_guard (g : G) : bool * G :=
  if negb (dcch_guard_armed g) then (false, g)
  else if DCCH_GUARD_TICKS <? u32 (tick g - dcch_guard_tick g) then
    (false, g <| dcch_guard_armed := false |> <| tap := L1CTL_TAP.calypso_l1ctl_tap_channel_released (tap g) |>)
  else (true, g).

Definition ring_slot (g : G) (i : Z) : sdcch_entry := default entry0 (sdcch_ring g !! Z.to_nat i).

(** The loop over the SDCCH ring; [true] when the function returns in it. *)
Fixpoint allc_ring (fuel : nat) (w : World) (lo hi page : Z) (m : ram) (g : G) : bool * ram * G :=
  match fuel with
  | O => (false, m, g)
  | S fuel =>
      if sdcch_tail g =? sdcch_head g then (false, m, g)
      else
        let i := sdcch_head g mod SDCCH_RING_N in
        let e := ring_slot g i in
        if SDCCH_TTL_TICKS <? u32 (tick g - e_tick e) then
          allc_ring fuel w lo hi page m (g <| sdcch_head := u32 (sdcch_head g + 1) |>)
        else
          let tc := tc51 (calypso_l1s_fn w g) in
          if (tc <? lo) || (hi <? tc) then (false, m, g)
          else
            let m := present_ccch w m g page (e_l2 e) in
            let reps := u16 (e_reps e + 1) in
            let g := g <| sdcch_ring := <[Z.to_nat i := e <| e_reps := reps |>]> (sdcch_ring g) |> in
            let g := if (3 <=? d_burst_d g) || (SDCCH_MAX_PRESENT <=? reps)
                     then g <| sdcch_head := u32 (sdcch_head g + 1) |> else g in
            let g := if sdcch_tail g =? sdcch_head g then g <| sdcch_valid := false |> else g in
            (true, m, g)
  end.

(** The system information rotation at the end of [dispatch_allc]. *)
Definition allc_si (w : World) (page : Z) (m : ram) (g : G) : ram * G :=
  let g := if d_burst_d g =? 0 then
             let g := rotate_si g in g <| si_buf := si_slot_buf g (si_rr g) |>
           else g in
  if dcch_guard_armed g then
    (aset (aset m (api_ndb NDB_A_CD) 0x0003) (api_rp page RP_D_TASK_D) ALLC_DSP_TASK, g)
  else
    let m := ndb_block m NDB_A_CD 0 (si_buf g) in
    let put m p := rp_serv_demod (aset m (api_rp p RP_D_TASK_D) ALLC_DSP_TASK) p TOA_ON_TIME (apm_nominal w g) in
    (put (put m 0) 1, g).

(** The immediate assignment, in the blocks of the common channel only. *)
Definition allc_agch (w : World) (page : Z) (m : ram) (g : G) : bool * ram * G :=
  if agch_valid g then
    if AGCH_TTL_TICKS <? u32 (tick g - agch_tick g) then (false, m, g <| agch_valid := false |>)
    else
      let tc := tc51 (calypso_l1s_fn w g) in
      if ((6 <=? tc) && (tc <=? 9)) || ((12 <=? tc) && (tc <=? 19))
      then (true, present_ccch w m g page (agch_buf g), g)
      else (false, m, g)
  else (false, m, g).

Definition dispatch_allc (w : World) (page : Z) (m : ram) (g : G) : ram * G :=
  let '(ret, m, g) := allc_agch w page m g in
  if ret : bool then (m, g)
  else
    let lo := if sdcch_ss_set g then (if sdcch_ch8 g then 0 else 22) else 0 in
    let hi := if sdcch_ss_set g then (if sdcch_ch8 g then 31 else 39) else 39 in
    let '(ret, m, g) := allc_ring (S (Z.to_nat (u32 (sdcch_tail g - sdcch_head g)))) w lo hi page m g in
    if ret : bool then (m, g)
    else
      let g := if sdcch_tail g =? sdcch_head g then g <| sdcch_valid := false |> else g in
      let tc := tc51 (calypso_l1s_fn w g) in
      if sacch_have g && ((42 <=? tc) && (tc <=? 46)) then (present_ccch w m g page (sacch_buf g), g)
      else if sdcch_valid g then (m, g)
      else allc_si w page m g.

(** ** Traffic channel *)
Definition tch_fresh (g : G) (valid : bool) (t : Z) : bool := valid && (u32 (tick g - t) <=? TCH_TTL_TICKS).

Definition tch_serv_demod (w : World) (m : ram) (g : G) : ram :=
  let pm := apm_nominal w g in rp_serv_demod (rp_serv_demod m 0 TOA_ON_TIME pm) 1 TOA_ON_TIME pm.

Definition tch_dl_depth (g : G) : Z := u32 (tch_dl_q_tail g - tch_dl_q_head g).

Definition tch_dl_push (g : G) (fr : list Z) (seq : Z) : G :=
  let i := tch_dl_q_tail g mod TCH_DL_Q_N in
  g <| tch_dl_q := <[Z.to_nat i := fr]> (tch_dl_q g) |> <| tch_dl_q_seq := wr (tch_dl_q_seq g) i seq |>
    <| tch_dl_q_tail := u32 (tch_dl_q_tail g + 1) |>.

(** A static descriptor: opened at the first use, for good or not at all. *)
Definition open_once (w : World) (g : G) (path : string) : bool * G :=
  match fds g !! path with
  | Some ok => (ok, g)
  | None => (w_writable w path, g <| fds := <[path := w_writable w path]> (fds g) |>)
  end.

(** [pread(fd, buf, n, off)] of exactly [n] bytes. *)
Definition pread (w : World) (path : string) (n : nat) (off : Z) : option (list Z) :=
  b ← w_file w path;
  let r := take n (drop (Z.to_nat off) b) in
  if (length r =? n)%nat then Some r else None.

Definition ldl_le (b : list Z) (i : Z) : Z :=
  rd b i + rd b (i + 1) * 256 + rd b (i + 2) * 65536 + rd b (i + 3) * 16777216.

(** The frame to fetch next, from the header of the ring file. *)
Definition tch_dl_next (g : G) (w_seq n_slots : Z) : Z :=
  let next := u32 (tch_dl_seq g + 1) in
  if (tch_dl_seq g =? 0) || (n_slots <=? u32 (w_seq - next)) then w_seq else next.

(** One frame fetched into the queue, when there is room and its slot is filled. *)
Definition tch_dl_fetch (w : World) (g : G) (w_seq n_slots : Z) : G :=
  if TCH_DL_PREFETCH <=? tch_dl_depth g then g
  else
    let next := tch_dl_next g w_seq n_slots in
    match pread w SHM_TCH_DL (Z.to_nat TCH_DL_SLOT) (8 + u32 (next - 1) mod n_slots * TCH_DL_SLOT) with
    | None => g
    | Some buf =>
        if negb (ldl_le buf 0 =? next) then g
        else tch_dl_push (g <| tch_dl_seq := next |>) (take 33 (drop 8 buf)) next
    end.

Definition tch_dl_poll (w : World) (g : G) : G :=
  let '(ok, g) := open_once w g SHM_TCH_DL in
  if negb ok then g
  else
    match pread w SHM_TCH_DL 8 0 with
    | None => g
    | Some hdr =>
        let w_seq := ldl_le hdr 0 in
        let n_slots := ldl_le hdr 4 in
        if (n_slots =? 0) || (4096 <? n_slots) || (w_seq =? 0) || (w_seq =? tch_dl_seq g) then g
        else
          let g := if w_seq <? tch_dl_seq g
                   then g <| tch_dl_seq := 0 |> <| tch_dl_q_head := 0 |> <| tch_dl_q_tail := 0 |> else g in
          tch_dl_fetch w g w_seq n_slots
    end.

(** One speech frame, when the firmware has taken the previous one or held it
    for five frames. *)
Definition tch_dl_speech (m : ram) (g : G) : ram * G :=
  let held := has (aget m (api_ndb NDB_A_DD_0)) B_BLUD && (waited g <? TCH_DL_HOLD) in
  if held then (m, g <| waited := waited g + 1 |>)
  else
    let g := g <| waited := 0 |> in
    if negb (tch_dl_q_head g =? tch_dl_q_tail g) then
      let i := tch_dl_q_head g mod TCH_DL_Q_N in
      let w := api_ndb NDB_A_DD_0 in
      (ndb_put_fr (aput m w [B_BLUD; 0; 0]) w (default [] (tch_dl_q g !! Z.to_nat i)),
       g <| tch_dl_q_head := u32 (tch_dl_q_head g + 1) |>)
    else (m, g).

Definition dispatch_tch_dl (w : World) (m : ram) (g : G) : ram * G :=
  let m := tch_serv_demod w m g in
  let '(m, g) := tch_dl_speech m g in
  if tch_fresh g (facch_dl_valid g) (facch_dl_tick g)
  then (ndb_block m NDB_A_FD B_BLUD (facch_dl g), g <| facch_dl_valid := false |>)
  else (m, g).

Definition dispatch_tch_sacch (w : World) (m : ram) (g : G) : ram * G :=
  let m := tch_serv_demod w m g in
  if negb (tch_fresh g (tsacch_dl_valid g) (tsacch_dl_tick g)) then (m, g)
  else (ndb_block m NDB_A_CD B_BLUD (tsacch_dl g), g <| tsacch_dl_valid := false |>).

(** The frame of the 102-frame cycle where the SACCH block of the channel starts. *)
Definition sacch_base (g : G) : Z :=
  if sdcch_ch8 g then rd [32; 36; 40; 44; 83; 87; 91; 95] (Z.land (sdcch_ss g / 4) 7)
  else rd [42; 46; 93; 97]
         (if sdcch_ss g =? 26 then 1 else if sdcch_ss g =? 32 then 2 else if sdcch_ss g =? 36 then 3 else 0).

Definition dcch_sacch_present (w : World) (m : ram) (g : G) : ram :=
  if dcch_is_tch g then m
  else
    let b := sacch_base g in
    let f102 := w_fn w mod 102 in
    if (f102 <? b) || (b + 3 <? f102) then m
    else if has (aget m (api_ndb NDB_A_CD)) B_BLUD then m
    else if negb (sacch_have g) then m
    else ndb_block m NDB_A_CD B_BLUD (sacch_buf g).

(** ** Uplink blocks *)

(** The next sequence number of a file, and a write when it could be opened. *)
Definition next_seq (g : G) (path : string) : Z := u32 (default 0 (seqs g !! path) + 1).
Definition side (g : G) (ok : bool) (path : string) (off : Z) (b : list Z) : G :=
  if ok then g <| out := out g ++ [mkSide path off b] |> else g.

Definition publish_l2 (w : World) (g : G) (path : string) (l2 : list Z) (task_u : Z) : G :=
  let '(ok, g) := open_once w g path in
  let f := w_fn w in
  let l1s := calypso_l1s_fn w g in
  let seq := next_seq g path in
  let g := g <| seqs := <[path := seq]> (seqs g) |> in
  side g ok path 0 (le32 seq ++ le32 l1s ++ le32 f ++ [u8 task_u; u8 (task_u / 256); u8 (l1s mod 51); 0] ++
                    l2 ++ replicate 9 0).

Definition publish_speech (w : World) (g : G) (fr : list Z) : G :=
  let first := negb (bool_decide (is_Some (fds g !! SHM_TCH_UL))) in
  let '(ok, g) := open_once w g SHM_TCH_UL in
  let g := if first then side g ok SHM_TCH_UL 0 (le32 0 ++ le32 TCH_UL_SLOTS) else g in
  let f := w_fn w in
  let l1s := calypso_l1s_fn w g in
  let seq := next_seq g SHM_TCH_UL in
  let g := g <| seqs := <[SHM_TCH_UL := seq]> (seqs g) |> in
  let b := le32 seq ++ le32 l1s ++ le32 f ++ replicate 4 0 ++ fr ++ replicate 15 0 in
  let g := side g ok SHM_TCH_UL (8 + u32 (seq - 1) mod TCH_UL_SLOTS * TCH_UL_SLOT_SZ) b in
  side g ok SHM_TCH_UL 0 (le32 seq).

(** The bytes of a block, taken from the firmware when it is marked. *)
Definition ul_bytes (m : ram) (w n : Z) : list Z :=
  (λ i, let v := aget m (w + 3 + i / 2) in
        if Bool.eqb (n =? 33) (i mod 2 =? 0) then u8 (Z.shiftr v 8) else Z.land v 0xff) <$> zseq 0 (Z.to_nat n).
Definition take_ul (m : ram) (off n : Z) : option (list Z) * ram :=
  let w := api_ndb off in
  if negb (has (aget m w) B_BLUD) then (None, m)
  else (Some (ul_bytes m w n), aset m w (clr (aget m w) B_BLUD)).

Definition capture_tch_ul (w : World) (m : ram) (g : G) (task_u : Z) : option (ram * G) :=
  let t := Z.land task_u 0x7FFF in
  if t =? TCHT_DSP_TASK then
    let '(l2, m) := take_ul m NDB_A_FU 23 in
    let g := match l2 with Some l2 => publish_l2 w g SHM_FACCH_UL l2 task_u | None => g end in
    let '(fr, m) := take_ul m NDB_A_DU_1 33 in
    let g := match fr with Some fr => publish_speech w g fr | None => g end in
    Some (m, g)
  else if t =? TCHA_DSP_TASK then
    let '(l2, m) := take_ul m NDB_A_CU 23 in
    let g := match l2 with Some l2 => publish_l2 w g SHM_TSACCH_UL l2 task_u | None => g end in
    Some (m, g)
  else if t =? TCHD_DSP_TASK then Some (m, g)
  else None.

(** Does a LAPDm header start at byte [j] of the window? *)
Definition lapdm_at (win : list Z) (j : Z) : bool :=
  let a := rd win j in
  let c := rd win (j + 1) in
  let l := rd win (j + 2) in
  let sapi := Z.land (Z.shiftr a 2) 7 in
  let addr_ok := has a 0x01 && (Z.land a 0x60 =? 0) && ((sapi =? 0) || (sapi =? 3)) in
  let ctrl_ok := negb (c =? 0x2b) && negb (c =? 0xff) in
  let len_ok := has l 0x01 && (Z.shiftr l 2 <=? 20) in
  addr_ok && ctrl_ok && len_ok.

(** The first such byte among 0..6, else 0. *)
Definition lapdm_start (win : list Z) : Z := default 0 (find (lapdm_at win) (zseq 0 7)).

Definition capture_sdcch_ul (w : World) (m : ram) (g : G) (task_u : Z) : G :=
  let win := abytes m (2 * api_ndb (NDB_A_CU + SDCCH_UL_WINDOW_OFS)) 30 in
  let l2 := take 23 (drop (Z.to_nat (lapdm_start win)) win) in
  let dup := match ul_last g with
             | Some (b, t) => bool_decide (b = l2) && (u32 (tick g - t) <? SDCCH_UL_DEDUP_TICKS)
             | None => false
             end in
  if dup then g
  else
    let g := g <| ul_last := Some (l2, tick g) |> in
    if rd l2 1 =? 0x03 then g else publish_l2 w g SHM_SDCCH_UL l2 task_u.

(** ** Events of the firmware *)
Definition l1_reset (g : G) : G :=
  g <| agch_valid := false |> <| sdcch_valid := false |> <| sdcch_ss_set := false |>
    <| dcch_guard_armed := false |> <| tap := L1CTL_TAP.calypso_l1ctl_tap_channel_released (tap g) |>.

Definition calypso_l1_page_written (w : World) (m : ram) (g : G) (v : Z) : ram * G :=
  if negb (has v B_GSM_TASK) then (m, if v =? 0 then l1_reset g else g)
  else
    let p := if has v B_GSM_PAGE then 1 else 0 in
    let f := aget m (api_wp p WP_D_FN) in
    let g := g <| page := p |> <| d_task_d := aget m (api_wp p WP_D_TASK_D) |>
               <| d_task_u := aget m (api_wp p WP_D_TASK_U) |> <| d_task_md := aget m (api_wp p WP_D_TASK_MD) |>
               <| d_task_ra := aget m (api_wp p WP_D_TASK_RA) |>
               <| d_fn := if f =? 0 then Z.land (w_fn w) 0xFFFF else f |> <| pending := true |> in
    let u := d_task_u g in
    let g := if dcch_guard_armed g && ((u =? DUL_DSP_TASK) || (u =? TCHT_DSP_TASK) || (u =? TCHA_DSP_TASK))
             then g <| dcch_guard_tick := tick g |> else g in
    if negb (u =? 0) then
      match capture_tch_ul w m g u with
      | Some x => x
      | None => (m, capture_sdcch_ul w m g u)
      end
    else (m, g).

Definition calypso_l1_burst_written (g : G) (v : Z) : G := g <| d_burst_d := Z.land v 3 |>.

Definition calypso_l1_rach_written (w : World) (g : G) (d_rach f : Z) : G :=
  let '(ok, g) := open_once w g SHM_RACH in
  let ra := u8 (Z.shiftr d_rach 8) in
  let bsic := u8 (Z.shiftr (Z.land d_rach 0xFF) 2) in
  let seq := next_seq g SHM_RACH in
  let g := g <| seqs := <[SHM_RACH := seq]> (seqs g) |> in
  side g ok SHM_RACH 0 (le32 seq ++ [ra; bsic; 0; 0] ++ le32 f ++ replicate 4 0) <| last_ra := ra |>.

Definition calypso_l1_rach_conf (g : G) (f : Z) : G := g <| rach_conf_fn := wr (rach_conf_fn g) (last_ra g) f |>.

Definition calypso_l1_read_override (w : World) (g : G) (off : Z) : option Z :=
  let fb := off =? API_NDB + NDB_D_FB_DET in
  let toa := off =? API_NDB + NDB_A_SYNC_DEMOD in
  let pm := off =? API_NDB + NDB_A_SYNC_DEMOD + 2 in
  let angle := off =? API_NDB + NDB_A_SYNC_DEMOD + 4 in
  let snr := off =? API_NDB + NDB_A_SYNC_DEMOD + 6 in
  if negb (sb_valid g) || negb (on_serving_cell w g) then
    if fb || toa || pm || angle || snr then Some 0 else None
  else if fb then Some 1
  else if pm then Some (apm_nominal w g)
  else if toa || angle || (off =? API_R_PAGE 0 + RP_A_SERV_DEMOD) || (off =? API_R_PAGE 1 + RP_A_SERV_DEMOD)
  then Some 0
  else if snr then Some SNR_NOMINAL
  else None.

Definition calypso_l1_dcch_set (g : G) (kind ss : Z) : G :=
  let base := if negb (kind =? 0) then u8 (Z.land ss 7 * 4) else rd [22; 26; 32; 36] (Z.land ss 3) in
  if sdcch_ss_set g && (sdcch_ss g =? base) && Bool.eqb (sdcch_ch8 g) (negb (kind =? 0)) then g
  else g <| sdcch_ss := base |> <| sdcch_ss_set := true |> <| sdcch_ch8 := negb (kind =? 0) |>.

Definition calypso_l1_dcch_active (g : G) : G := g <| dcch_guard_tick := tick g |> <| dcch_guard_armed := true |>.
Definition calypso_l1_dcch_is_tch (g : G) (on : bool) : G := g <| dcch_is_tch := on |>.

(** ** Blocks from the demodulator *)

(** [memcpy(dst, l2, n); memset(dst + n, 0x2B, 23 - n)] with [n = min(len, 23)]. *)
Definition pad23 (l2 : list Z) : list Z := take 23 (l2 ++ replicate 23 0x2B).

Definition is_imm (mt : Z) : bool := (mt =? 0x3f) || (mt =? 0x3a) || (mt =? 0x3b).

(** The request reference of an immediate assignment, rewritten with the frame
    the firmware memorised. *)
Definition rewrite_ref (buf : list Z) (memo : Z) : list Z :=
  let t1p := memo / 1326 mod 32 in
  let t2 := memo mod 26 in
  let t3 := memo mod 51 in
  let buf := wr buf 8 (u8 (Z.lor (Z.shiftl t1p 3) (Z.land (Z.shiftr t3 3) 7))) in
  wr buf 9 (u8 (Z.lor (Z.shiftl (Z.land t3 7) 5) (Z.land t2 0x1f))).

Definition feed_agch (w : World) (g : G) (l2 : list Z) : G :=
  let mt := rd l2 2 in
  if negb (is_imm mt) && agch_valid g && is_imm (rd (agch_buf g) 2) &&
     (u32 (tick g - agch_tick g) <=? AGCH_TTL_TICKS) then g
  else
    let n := Z.min (zlen l2) 23 in
    let buf := pad23 l2 in
    let buf :=
      if (mt =? 0x3f) && (10 <=? n) then
        let lr := last_rach_fn w g in
        let memo := if negb (lr =? 0) then lr else rd (rach_conf_fn g) (rd buf 7) in
        if negb (memo =? 0) then rewrite_ref buf memo else buf
      else buf in
    g <| agch_buf := buf |> <| agch_valid := true |> <| agch_tick := tick g |>.

Definition feed_sdcch (g : G) (l2 : list Z) (f : Z) : G :=
  if negb (f =? 0) && (f =? sdcch_last_fn g) then g
  else
    let g := g <| sdcch_last_fn := f |> in
    let g := if SDCCH_RING_N <=? u32 (sdcch_tail g - sdcch_head g)
             then g <| sdcch_head := u32 (sdcch_head g + 1) |> else g in
    let i := sdcch_tail g mod SDCCH_RING_N in
    g <| sdcch_ring := <[Z.to_nat i := mkEntry (pad23 l2) f (tick g) 0]> (sdcch_ring g) |>
      <| sdcch_tail := u32 (sdcch_tail g + 1) |> <| sdcch_valid := true |>.

(** System information 5 or 6 in a SACCH block: the first bytes of the message
    at one of the offsets 2..7. *)
Definition si56 (l2 : list Z) : bool :=
  let n := Z.min (zlen l2) 23 in
  existsb (λ i, (i + 1 <? n) && (rd l2 i =? 0x06) && ((rd l2 (i + 1) =? 0x1d) || (rd l2 (i + 1) =? 0x1e))) (zseq 2 6).

Definition feed_sacch (g : G) (l2 : list Z) : G :=
  if negb (si56 l2) then g
  else g <| sacch_buf := pad23 l2 |> <| sacch_have := true |> <| sacch_real := true |>.

Definition si_slot (mt : Z) : Z :=
  if (0x19 <=? mt) && (mt <=? 0x1e) then mt - 0x19
  else if mt =? 0x02 then 6
  else if mt =? 0x03 then 7
  else if mt =? 0x07 then 8
  else if mt =? 0x00 then 9
  else -1.

(** The SI6 made up from the cell identity of an SI3. *)
Definition si6_of_si3 (l2 : list Z) : list Z :=
  [0x00; 0x00; 0x03; 0x03; 0x2d; 0x06; 0x1e] ++ take 7 (drop 3 l2) ++ [0x0f; 0xff] ++ replicate 7 0x2b.

Definition feed_si (g : G) (l2 : list Z) : G :=
  let n := Z.min (zlen l2) 23 in
  let slot := if (3 <=? n) && (rd l2 1 =? 0x06) then si_slot (rd l2 2) else -1 in
  let g := if 0 <=? slot then
             g <| si_set := <[Z.to_nat slot := pad23 l2]> (si_set g) |>
               <| si_have := <[Z.to_nat slot := true]> (si_have g) |>
           else g in
  let g := if (slot =? 2) && (10 <=? n) && negb (sacch_real g)
           then g <| sacch_buf := si6_of_si3 l2 |> <| sacch_have := true |> else g in
  g <| si_buf := pad23 l2 |> <| g_si_valid := true |>.

(** One datagram of the GSMTAP socket (at most 512 bytes). *)
Definition gsmtap_datagram (w : World) (g : G) (buf : list Z) : G :=
  if zlen buf <? GSMTAP_HDR_LEN + 3 then g
  else if negb (rd buf 2 =? GSMTAP_TYPE_UM) then g
  else
    let sub := rd buf 12 in
    let l2 := drop 16 buf in
    let mt := rd l2 2 in
    if sub =? GSMTAP_CHANNEL_BCCH then
      if (rd l2 1 =? 0x06) && (0 <=? si_slot mt) then feed_si g l2 else g
    else if sub =? GSMTAP_CHANNEL_AGCH then
      if (rd l2 1 =? 0x06) && ((mt =? 0x3f) || (mt =? 0x39) || (mt =? 0x3a) || (mt =? 0x21) || (mt =? 0x22) || (mt =? 0x24))
      then feed_agch w g l2 else g
    else if sub =? GSMTAP_CHANNEL_SDCCH4 then feed_sdcch g l2 (ldl_be_p buf 8)
    else if sub =? GSMTAP_CHANNEL_SACCH then if 7 <=? zlen l2 then feed_sacch g l2 else g
    else if sub =? GSMTAP_CHANNEL_TCH_F then
      g <| facch_dl := pad23 l2 |> <| facch_dl_valid := true |> <| facch_dl_tick := tick g |>
    else if sub =? GSMTAP_CHANNEL_TCH_ACCH then
      g <| tsacch_dl := pad23 l2 |> <| tsacch_dl_valid := true |> <| tsacch_dl_tick := tick g |>
    else g.

(** One datagram of the synchronisation socket; the frame number given to
    [calypso_trx_autosync_fn], if any. *)
Definition sch_datagram (w : World) (g : G) (buf : list Z) : option Z * G :=
  if (zlen buf <? 16) || negb (bool_decide (take 4 buf = str "SCH2")) then (None, g)
  else
    let bsic := ldl_le buf 4 in
    let f := ldl_le buf 8 in
    (Some f,
     g <| sb_bsic := Z.land bsic 0x3f |> <| sb_fn := f |> <| serving_arfcn := i32 (ldl_le buf 12) |>
       <| sb_valid := true |> <| sb_capture_fn := w_fn w |>).

(** ** The files of the bench *)
Definition poll_tch_cfg (w : World) (g : G) : G :=
  let '(ok, g) := open_once w g SHM_TCH_CFG in
  if negb ok then g
  else
    match pread w SHM_TCH_CFG 16 0 with
    | None => g
    | Some b =>
        let seq := ldl_le b 0 in
        if seq =? 0 then
          let g := if tch_cfg_valid g
                   then g <| tch_cfg_valid := false |> <| facch_dl_valid := false |> <| tsacch_dl_valid := false |>
                   else g in
          g <| cfg_last := 0 |>
        else if seq =? cfg_last g then g
        else g <| cfg_last := seq |> <| tch_cfg_valid := true |> <| facch_dl_valid := false |>
               <| tsacch_dl_valid := false |>
    end.

(** Bytes 4..31 of the record of the ciphering key. *)
Definition kc_key (m : ram) : list Z :=
  concat ((λ i, let kw := aget m (api_ndb NDB_A_KC + i) in [u8 (Z.shiftr kw 8); Z.land kw 0xFF]) <$> [3; 2; 1; 0]).
Definition kc_algo (m : ram) : Z :=
  let mode := aget m (api_ndb NDB_D_A5MODE) in
  if (1 <=? mode) && (mode <=? 3) && existsb (λ b, negb (b =? 0)) (kc_key m) then u8 mode else 0.
Definition kc_record (m : ram) : list Z :=
  let algo := kc_algo m in
  [algo; if negb (algo =? 0) then 8 else 0] ++ (if negb (algo =? 0) then kc_key m else replicate 8 0) ++
  [0xFF] ++ replicate 17 0.

Definition publish_kc (w : World) (m : ram) (g : G) : G :=
  if kc_tick g + 1 <? KC_PUBLISH_EVERY then g <| kc_tick := kc_tick g + 1 |>
  else
    let g := g <| kc_tick := 0 |> in
    let rec := kc_record m in
    if bool_decide (kc_last g = Some rec) then g <| kc_clear_pending := 0 |>
    else
      let ciphered := match kc_last g with Some last => negb (rd last 0 =? 0) | None => false end in
      let leaving := (rd rec 0 =? 0) && ciphered in
      if leaving && (kc_clear_pending g + 1 <? KC_CLEAR_GRACE)
      then g <| kc_clear_pending := kc_clear_pending g + 1 |>
      else
        let g := g <| kc_clear_pending := 0 |> in
        let is_open := bool_decide (fds g !! SHM_KC = Some true) in
        if negb is_open && negb (w_writable w SHM_KC) then g
        else if negb (w_pwrite w SHM_KC) then g <| fds := delete SHM_KC (fds g) |>
        else
          let seq := next_seq g SHM_KC in
          side (g <| fds := <[SHM_KC := true]> (fds g) |> <| seqs := <[SHM_KC := seq]> (seqs g) |>
                  <| kc_last := Some rec |>) true SHM_KC 0 (le32 seq ++ rec).

(** ** The frame *)

(** The background of a synchronised cell: system information when no dedicated
    channel is in use, the SACCH otherwise. *)
Definition background (w : World) (m : ram) (g : G) : ram * G :=
  let m := dispatch_sb w m g 0 in
  let m := dispatch_sb w m g 1 in
  let imm_pending := agch_valid g && is_imm (rd (agch_buf g) 2) in
  let '(idle, g) :=
    if g_si_valid g && negb (sdcch_valid g) then
      let '(gd, g) := dcch_si_guard g in (negb gd && negb (tch_cfg_valid g) && negb imm_pending, g)
    else (false, g) in
  if idle : bool then
    let rot := Z.land (si_rot g) 7 =? 0 in
    let g := g <| si_rot := u32 (si_rot g + 1) |> in
    let g := if rot then rotate_si g else g in
    (tch_serv_demod w (ndb_block m NDB_A_CD 0 (si_slot_buf g (si_rr g))) g, g)
  else
    let '(gd, g) := dcch_si_guard g in
    if gd && negb (tch_fresh g (tsacch_dl_valid g) (tsacch_dl_tick g)) && negb (tch_cfg_valid g)
    then (dcch_sacch_present w m g, g)
    else (m, g).

(** The tasks the firmware posted. *)
Definition tasks (w : World) (m : ram) (g : G) : ram * G :=
  let g := g <| tick := u32 (tick g + 1) |> in
  let p := page g in
  let md := d_task_md g in
  let td := d_task_d g in
  let m := if md =? PM_DSP_TASK then dispatch_pm w m g p else m in
  let m := if md =? SB_DSP_TASK then dispatch_sb w m g p else m in
  let '(m, g) := if td =? ALLC_DSP_TASK then dispatch_allc w p m g else (m, g) in
  let t := Z.land td 0x7FFF in
  let '(m, g) := if t =? TCHT_DSP_TASK then dispatch_tch_dl w m g
                 else if t =? TCHA_DSP_TASK then dispatch_tch_sacch w m g
                 else (m, g) in
  (m, g <| pending := false |>).

Definition calypso_l1_frame_tick (w : World) (x : ram * G) : ram * G :=
  let '(m, g) := x in
  let g := poll_tch_cfg w (tch_dl_poll w (publish_kc w m g)) in
  let '(m, g) := if sb_valid g then background w m g else (m, g) in
  if negb (pending g) then (m, g) else tasks w m g.

(** ** The L1CTL tap acts on this layer 1 *)
Definition apply_tap (g : G) (ev : L1CTL_TAP.event) : G :=
  match ev with
  | L1CTL_TAP.ShmDcchCfg b => g
  | L1CTL_TAP.RachConf f => calypso_l1_rach_conf g f
  | L1CTL_TAP.DcchActive => calypso_l1_dcch_active g
  | L1CTL_TAP.DcchIsTch tch => calypso_l1_dcch_is_tch g tch
  | L1CTL_TAP.DcchSet kind ss => calypso_l1_dcch_set g kind ss
  end.

Definition tap_tx_byte (g : G) (ch : Z) : G :=
  let t := L1CTL_TAP.calypso_l1ctl_tap_tx_byte (tap g) ch in
  foldl apply_tap (g <| tap := t |>) (drop (length (L1CTL_TAP.events (tap g))) (L1CTL_TAP.events t)).

(** ** Initialisation and registration *)
Definition symbol (elf : option (list Z)) (name : list Z) : Z :=
  match ELF.calypso_firmware_symbol elf name with ELF.Value v => v | _ => 0 end.

Definition calypso_l1_init (elf : option (list Z)) (g : G) : G :=
  mkG (pending g_zero) (page g_zero) 0 0 0 0 0 0 0 (si_set g_zero) (si_have g_zero) (si_buf g_zero) false 0 0
    (sacch_buf g_zero) false false (-1) 0 0 false 0 (agch_buf g_zero) false 0 (sdcch_ring g_zero) 0 0 0 false 0
    false false false 0 false (tch_dl_q g_zero) (tch_dl_q_seq g_zero) 0 0 0 (facch_dl g_zero) false 0
    (tsacch_dl g_zero) false 0 false 0 (rach_conf_fn g_zero) (symbol elf (str "l1s")) (symbol elf (str "last_rach"))
    (waited g) (fds g) (seqs g) (ul_last g) (cfg_last g) (kc_last g) (kc_tick g) (kc_clear_pending g) (tap g) (out g).

Definition grgsm_ops : CalypsoL1Ops G :=
  mkOps (Some "grgsm"%string) (Some calypso_l1_init) (Some calypso_l1_frame_tick)
    (Some (λ w x off, (calypso_l1_read_override w (snd x) off, x)))
    (Some (λ x, g_si_valid (snd x)))
    (Some (λ w x, calypso_l1s_fn w (snd x)))
    (Some (λ w x v, (fst x, calypso_l1_burst_written (snd x) v)))
    (Some (λ w x v f, (fst x, calypso_l1_rach_written w (snd x) v f)))
    (Some (λ w x v, calypso_l1_page_written w (fst x) (snd x) v))
    None
    (Some (λ w x ch, (fst x, tap_tx_byte (snd x) ch))).
End GRGSM.
