(* ===== verification/GrgsmSpec.v ===== *)
(** * The gr-gsm layer 1: blocks, synchronisation and system information

    Properties of the elementary operations of [Grgsm.v]: the layouts of the
    blocks in the API RAM, the synchronisation word, the rotation of the system
    information, and the queues. *)
From stdpp Require Import gmap strings.
From S2P Require Import Prelude Ring FreeRing ApiRam Rf L1Ops L1ctlTap Grgsm.
Import API TRF6151 L1OPS GRGSM.

Module GRGSM_SPEC.

(** ** Blocks written and read back *)
Definition bytes (l : list Z) : Prop := Forall (λ b, 0 ≤ b < 256) l.

Lemma bytes_rd l i : bytes l → 0 ≤ rd l i < 256.
Proof.
  intros H. unfold rd. destruct (l !! Z.to_nat i) as [x|] eqn:E; [|cbn; lia].
  unfold bytes in H. rewrite Forall_lookup in H. by eapply H.
Qed.

Lemma length_l2_words l2 : length (l2_words l2) = 12%nat.
Proof. unfold l2_words. by rewrite length_fmap, length_zseq. Qed.
Lemma length_fr_words fr : length (fr_words fr) = 17%nat.
Proof. unfold fr_words. by rewrite length_app, length_fmap, length_zseq. Qed.

Lemma rd_fmap_zseq (f : Z → Z) n k : 0 ≤ k < Z.of_nat n → rd (f <$> zseq 0 n) k = f k.
Proof.
  intros Hk. unfold rd. rewrite list_lookup_fmap, lookup_zseq by lia. cbn. f_equal. lia.
Qed.

Lemma land_ff x : Z.land x 0xff = x mod 256.
Proof. change 0xff with (Z.ones 8). by rewrite Z.land_ones. Qed.

Lemma lor_hi_lo hi lo : 0 ≤ lo < 256 → Z.lor lo (Z.shiftl hi 8) = hi * 256 + lo.
Proof. intros. rewrite Z.lor_comm, lor_shiftl_add by lia. lia. Qed.

Lemma rd_list_ext (a b : list Z) :
  zlen a = zlen b → (∀ k, 0 ≤ k < zlen a → rd a k = rd b k) → a = b.
Proof.
  intros Hl H. apply list_eq. intros i. unfold zlen in *.
  destruct (decide (i < length a)%nat) as [Hi|Hi].
  - specialize (H (Z.of_nat i) ltac:(lia)). unfold rd in H. rewrite Nat2Z.id in H.
    destruct (lookup_lt_is_Some_2 a i Hi) as [x Hx]. destruct (lookup_lt_is_Some_2 b i ltac:(lia)) as [y Hy].
    rewrite Hx, Hy in *. cbn in H. congruence.
  - rewrite !lookup_ge_None_2 by lia. done.
Qed.

(** A 23-byte block is read back byte for byte. *)
Lemma l2_roundtrip m w l2 :
  bytes l2 → zlen l2 = 23 → ul_bytes (ndb_put_l2 m w l2) w 23 = l2.
Proof.
  intros Hb Hl. apply rd_list_ext; [unfold ul_bytes, zlen in *; rewrite length_fmap, length_zseq; lia|].
  intros k Hk. assert (0 ≤ k < 23) as Hk' by (unfold ul_bytes, zlen in Hk; rewrite length_fmap, length_zseq in Hk; lia).
  unfold ul_bytes. rewrite rd_fmap_zseq by lia. change (23 =? 33) with false. cbn [Bool.eqb].
  unfold ndb_put_l2. rewrite aget_aput_in by (unfold zlen; rewrite length_l2_words; mlia).
  unfold l2_words. rewrite rd_fmap_zseq by mlia. replace (w + 3 + k / 2 - (w + 3)) with (k / 2) by lia.
  pose proof (bytes_rd l2 (2 * (k / 2)) Hb). rewrite lor_hi_lo by lia.
  destruct (Z.eqb_spec (k mod 2) 0) as [E|E]; cbn [negb].
  - rewrite land_ff. replace (2 * (k / 2)) with k in * by mlia. mlia.
  - destruct (Z.ltb_spec (2 * (k / 2) + 1) 23); [|mlia]. rewrite Z.shiftr_div_pow2 by lia. change (2 ^ 8) with 256.
    replace (2 * (k / 2) + 1) with k by mlia. pose proof (bytes_rd l2 k Hb). unfold u8. mlia.
Qed.

(** A 33-byte speech frame likewise. *)
Lemma fr_roundtrip m w fr :
  bytes fr → zlen fr = 33 → ul_bytes (ndb_put_fr m w fr) w 33 = fr.
Proof.
  intros Hb Hl. apply rd_list_ext; [unfold ul_bytes, zlen in *; rewrite length_fmap, length_zseq; lia|].
  intros k Hk. assert (0 ≤ k < 33) as Hk' by (unfold ul_bytes, zlen in Hk; rewrite length_fmap, length_zseq in Hk; lia).
  unfold ul_bytes. rewrite rd_fmap_zseq by lia. rewrite Z.eqb_refl.
  unfold ndb_put_fr. rewrite aget_aput_in by (unfold zlen; rewrite length_fr_words; mlia).
  replace (w + 3 + k / 2 - (w + 3)) with (k / 2) by lia. pose proof (bytes_rd fr k Hb).
  assert (rd (fr_words fr) (k / 2) = rd fr (2 * (k / 2)) * 256 + (if k / 2 <? 16 then rd fr (2 * (k / 2) + 1) else 0)) as ->.
  { unfold fr_words. destruct (Z.ltb_spec (k / 2) 16) as [H16|H16].
    - unfold rd at 1. rewrite lookup_app_l by (rewrite length_fmap, length_zseq; mlia).
      fold (rd ((λ k, Z.lor (Z.shiftl (rd fr (2 * k)) 8) (rd fr (2 * k + 1))) <$> zseq 0 16) (k / 2)).
      rewrite rd_fmap_zseq by mlia. pose proof (bytes_rd fr (2 * (k / 2) + 1) Hb). apply lor_shiftl_add; lia.
    - assert (k = 32) as -> by mlia. change (32 / 2) with 16. unfold rd at 1.
      rewrite lookup_app_r by (rewrite length_fmap, length_zseq; done). rewrite length_fmap, length_zseq.
      change ([Z.shiftl (rd fr 32) 8] !! (Z.to_nat 16 - 16)%nat) with (Some (Z.shiftl (rd fr 32) 8)).
      cbn [default]. rewrite Z.shiftl_mul_pow2 by lia. change (2 * 16) with 32. unfold id. lia. }
  pose proof (bytes_rd fr (2 * (k / 2)) Hb). pose proof (bytes_rd fr (2 * (k / 2) + 1) Hb).
  destruct (Z.eqb_spec (k mod 2) 0) as [E|E]; cbn [Bool.eqb].
  - rewrite Z.shiftr_div_pow2 by lia. change (2 ^ 8) with 256. replace (2 * (k / 2)) with k in * by mlia.
    unfold u8. destruct (_ <? _); mlia.
  - rewrite land_ff. destruct (Z.ltb_spec (k / 2) 16); [|mlia]. replace (2 * (k / 2) + 1) with k in * by mlia. mlia.
Qed.

(** The block layouts of the API RAM lose nothing: a signalling block of 23
    bytes and a speech frame of 33 bytes written the way the layer 1 writes them
    (least significant byte first for the one, most significant first for the
    other) are read back byte for byte by the code that takes the uplink, which
    also clears the mark of the block. *)
Theorem block_roundtrip m off l2 fr :
  bytes l2 → zlen l2 = 23 → bytes fr → zlen fr = 33 →
  fst (take_ul (ndb_block m off B_BLUD l2) off 23) = Some l2 ∧
  fst (take_ul (ndb_put_fr (aput m (api_ndb off) [B_BLUD; 0; 0]) (api_ndb off) fr) off 33) = Some fr ∧
  aget (snd (take_ul (ndb_block m off B_BLUD l2) off 23)) (api_ndb off) = 0.
Proof.
  intros Hb1 Hl1 Hb2 Hl2.
  assert (∀ ws, aget (aput (aput m (api_ndb off) [B_BLUD; 0; 0]) (api_ndb off + 3) ws) (api_ndb off) = B_BLUD) as H0.
  { intros ws. rewrite aget_aput_out by lia. rewrite aget_aput_in by (unfold zlen; cbn; lia). by rewrite Z.sub_diag. }
  unfold take_ul, ndb_block. unfold ndb_put_l2 at 1 4. unfold ndb_put_fr at 1. rewrite !H0.
  change (negb (has B_BLUD B_BLUD)) with false. cbn [fst snd].
  rewrite l2_roundtrip, fr_roundtrip by done. split; [done|]. split; [done|].
  unfold ndb_put_l2. rewrite !H0. change (negb (has B_BLUD B_BLUD)) with false. cbn [snd]. by rewrite aget_aset.
Qed.

Lemma block_roundtrip_witness :
  let l2 := replicate 23 0x2B in let fr := replicate 33 0x5A in
  fst (take_ul (ndb_block ∅ NDB_A_CU B_BLUD l2) NDB_A_CU 23) = Some l2 ∧
  fst (take_ul (ndb_put_fr (aput ∅ (api_ndb NDB_A_CU) [B_BLUD; 0; 0]) (api_ndb NDB_A_CU) fr) NDB_A_CU 33) = Some fr ∧
  aget (snd (take_ul (ndb_block ∅ NDB_A_CU B_BLUD l2) NDB_A_CU 23)) (api_ndb NDB_A_CU) = 0.
Proof.
  intros l2 fr. apply (block_roundtrip ∅ NDB_A_CU l2 fr).
  - apply (bool_decide_unpack _). vm_compute. exact I.
  - reflexivity.
  - apply (bool_decide_unpack _). vm_compute. exact I.
  - reflexivity.
Defined.

(** ** The synchronisation burst *)

(** The fields of the 25-bit word as 04.08 (10.5.2.33) places them. *)
Definition sb_t1 (sb : Z) : Z :=
  Z.lor (Z.lor (Z.land (Z.shiftr sb 23) 1) (Z.land (Z.shiftr sb 7) 0x1fe)) (Z.land (Z.shiftl sb 9) 0x600).
Definition sb_t2 (sb : Z) : Z := Z.land (Z.shiftr sb 18) 0x1f.
Definition sb_t3p (sb : Z) : Z := Z.lor (Z.land (Z.shiftr sb 24) 1) (Z.land (Z.shiftr sb 15) 6).
Definition sb_bsic_of (sb : Z) : Z := Z.land (Z.shiftr sb 2) 0x3f.

(** The frame number: T3 = 10 T3' + 1 in the frames that carry the burst. *)
Definition decode_sb_fn (sb : Z) : Z :=
  let t1 := sb_t1 sb in let t2 := sb_t2 sb in let t3 := 10 * sb_t3p sb + 1 in
  51 * ((t3 - t2) mod 26) + t3 + 1326 * t1.

(** Evaluate the bits of constants. *)
Ltac const_bits :=
  repeat match goal with
  | |- context [Z.testbit (Zpos ?c) ?k] =>
      let v := eval vm_compute in (Z.testbit (Zpos c) k) in change (Z.testbit (Zpos c) k) with v
  | |- context [Z.testbit ?x (Zneg ?k)] => rewrite (Z.testbit_neg_r x (Zneg k)) by lia
  end.

Ltac word_bits :=
  repeat first [rewrite Z.lor_spec | rewrite Z.land_spec | rewrite Z.shiftr_spec by lia | rewrite Z.shiftl_spec by lia];
  cbn [Z.add Z.sub Z.opp Z.pos_sub Pos.add Pos.sub Pos.succ Pos.pred_double Z.double Z.succ_double Z.pred_double
       Pos.add_carry Pos.sub_mask Pos.pred_N Pos.double_mask Pos.succ_double_mask Pos.double_pred_mask];
  const_bits; rewrite ?andb_false_r, ?andb_true_r, ?orb_false_r, ?orb_false_l, ?orb_true_r; reflexivity.

Section SyncWord.
Context (bsic t1 t2 t3p : Z).
Context (Hbsic : 0 ≤ bsic < 64) (Ht1 : 0 ≤ t1 < 2048) (Ht2 : 0 ≤ t2 < 32) (Ht3 : 0 ≤ t3p < 8).

Definition sb_word : Z :=
  let sb := Z.shiftl (Z.land bsic 0x3f) 2 in
  let sb := Z.lor sb (Z.shiftl (Z.land t1 0x001) 23) in
  let sb := Z.lor sb (Z.shiftl (Z.land t1 0x1fe) 7) in
  let sb := Z.lor sb (Z.shiftr (Z.land t1 0x600) 9) in
  let sb := Z.lor sb (Z.shiftl (Z.land t2 0x1f) 18) in
  let sb := Z.lor sb (Z.shiftl (Z.land t3p 1) 24) in
  Z.lor sb (Z.shiftl (Z.land t3p 6) 15).

Ltac word_field w t :=
  let n := fresh "n" in
  apply Z.bits_inj'; intros n ?; destruct (Z.lt_ge_cases n (Z.of_nat w));
  [match goal with |- Z.testbit ?a _ = _ => apply (range_split (λ i, Z.testbit a i = Z.testbit t i) w n) end;
     [lia|]; forall_cases; word_bits
  |rewrite (testbit_high (Z.of_nat w) t) by (done || lia);
   rewrite ?Z.lor_spec, ?Z.land_spec;
   repeat match goal with |- context [Z.testbit (Zpos ?c) n] =>
     rewrite (testbit_high (Z.of_nat w) (Zpos c)) by (done || lia) end;
   rewrite ?andb_false_r; reflexivity].

Lemma sb_word_fields :
  sb_t1 sb_word = t1 ∧ sb_t2 sb_word = t2 ∧ sb_t3p sb_word = t3p ∧ sb_bsic_of sb_word = bsic.
Proof.
  unfold sb_t1, sb_t2, sb_t3p, sb_bsic_of, sb_word. repeat split.
  - word_field 11%nat t1.
  - word_field 5%nat t2.
  - word_field 3%nat t3p.
  - word_field 6%nat bsic.
Qed.
End SyncWord.

Lemma frame_crt r : 0 ≤ r < 1326 → 51 * ((r mod 51 - r mod 26) mod 26) + r mod 51 = r.
Proof.
  intros Hr. apply Z.eqb_eq.
  apply (range_check (λ r, 51 * ((r mod 51 - r mod 26) mod 26) + r mod 51 =? r) 1326); [lia|by vm_compute].
Qed.

(** C36: the synchronisation word tells the mobile the cell and the frame: for
    every BSIC and every frame number of the hyperframe in which the burst is
    sent (T3 = 1, 11, 21, 31, 41), decoding the 25 bits as 04.08 places them
    gives that BSIC and that frame number back. *)
Theorem sb_roundtrip bsic fn :
  0 ≤ bsic < 64 → 0 ≤ fn < 2715648 → fn mod 51 mod 10 = 1 →
  sb_bsic_of (encode_sb bsic fn) = bsic ∧ decode_sb_fn (encode_sb bsic fn) = fn.
Proof.
  intros Hb Hf Hs. set (t3p := Z.quot (fn mod 51 - 1) 10).
  assert (encode_sb bsic fn = sb_word bsic (fn / 1326) (fn mod 26) t3p) as ->.
  { unfold encode_sb, sb_word. destruct (Z.eqb_spec (fn mod 51) 0) as [E|_]; [rewrite E in Hs; done|].
    change (26 * 51) with 1326. replace (u16 (fn / 1326)) with (fn / 1326) by (unfold u16; mlia). done. }
  assert (10 * t3p + 1 = fn mod 51 ∧ 0 ≤ t3p < 8) as [H3 Hr].
  { subst t3p. rewrite Z.quot_div_nonneg by mlia. mlia. }
  destruct (sb_word_fields bsic (fn / 1326) (fn mod 26) t3p) as (E1 & E2 & E3 & E4); [done|mlia|mlia|done|].
  unfold decode_sb_fn. rewrite E1, E2, E3, E4, H3. split; [done|].
  pose proof (frame_crt (fn mod 1326) ltac:(mlia)) as C.
  replace (fn mod 1326 mod 51) with (fn mod 51) in C by mlia. replace (fn mod 1326 mod 26) with (fn mod 26) in C by mlia.
  rewrite C. mlia.
Qed.

Lemma sb_roundtrip_witness :
  sb_bsic_of (encode_sb 41 1326062) = 41 ∧ decode_sb_fn (encode_sb 41 1326062) = 1326062.
Proof. apply (sb_roundtrip 41 1326062); [lia|lia|reflexivity]. Defined.
End GRGSM_SPEC.
