(* ===== verification/GrgsmQueue.v ===== *)
(** * The gr-gsm layer 1: rotation, queues and the published key

    The system information is rotated fairly; the ring of SDCCH blocks is a
    queue that drops its oldest block when full and serves its head in the
    windows of the sub-channel; the speech frames fetched from the ring file
    stay in order; the ciphering key is published with a grace on the way out. *)
From stdpp Require Import gmap strings sorting.
From S2P Require Import Prelude Ring FreeRing ApiRam Rf L1Ops L1ctlTap Grgsm GrgsmSpec.
Import API TRF6151 L1OPS GRGSM GRGSM_SPEC.

Module GRGSM_QUEUE.

(** ** System information *)
Definition held (have : list bool) (s : Z) : Prop := have !! Z.to_nat s = Some true.

(** Slots to go from [rr], exclusive, to [s], cyclically. *)
Definition ahead (rr s : Z) : Z := (s - rr - 1) mod 10.

Lemma rotate_from_spec have rr k n s :
  0 ≤ s < 10 → held have s → k ≤ ahead rr s + 1 < k + Z.of_nat n → 1 ≤ k →
  ∃ s', rotate_from have rr k n = Some s' ∧ 0 ≤ s' < 10 ∧ held have s' ∧
        k ≤ ahead rr s' + 1 ≤ ahead rr s + 1.
Proof.
  intros Hs Hh. revert k. induction n as [|n IH]; intros k Hk H1; [lia|]. cbn [rotate_from].
  unfold SI_SLOTS. pose proof (Z.mod_pos_bound (s - rr - 1) 10 ltac:(lia)). fold (ahead rr s) in *.
  assert (ahead rr ((rr + k) mod 10) = k - 1) as Ea by (unfold ahead in *; mlia).
  destruct (default false (have !! Z.to_nat ((rr + k) mod 10))) eqn:E.
  - eexists. split; [done|]. split; [mlia|]. split; [|lia].
    unfold held. by destruct (have !! _) as [[]|].
  - destruct (IH (k + 1)) as (s' & ? & ? & ? & ?); [|lia|exists s'; repeat split; lia || done].
    destruct (Z.eq_dec k (ahead rr s + 1)) as [->|]; [|lia]. exfalso.
    replace ((rr + (ahead rr s + 1)) mod 10) with s in E by (unfold ahead; mlia).
    unfold held in Hh. rewrite Hh in E. done.
Qed.

Lemma rotate_si_spec g s :
  0 ≤ s < 10 → held (si_have g) s →
  0 ≤ si_rr (rotate_si g) < 10 ∧ held (si_have g) (si_rr (rotate_si g)) ∧
  si_have (rotate_si g) = si_have g ∧
  (si_rr (rotate_si g) = s ∨ ahead (si_rr (rotate_si g)) s < ahead (si_rr g) s).
Proof.
  intros Hs Hh. destruct (rotate_from_spec (si_have g) (si_rr g) 1 10 s Hs Hh) as (s' & E & Hr & Hh' & Ha); [|lia|].
  { unfold ahead. mlia. }
  unfold rotate_si. rewrite E. cbn. split; [done|]. split; [done|]. split; [done|].
  destruct (Z.eq_dec s' s) as [|Hne]; [by left|right]. unfold ahead in *. mlia.
Qed.

Lemma rotation_reaches n g s :
  0 ≤ s < 10 → held (si_have g) s → ahead (si_rr g) s < Z.of_nat n →
  ∃ k, (1 ≤ k ≤ n)%nat ∧ si_rr (Nat.iter k rotate_si g) = s.
Proof.
  intros Hs. revert g. induction n as [|n IH]; intros g Hh Ha.
  { unfold ahead in Ha. mlia. }
  destruct (rotate_si_spec g s Hs Hh) as (Hr & Hh' & Eh & [E|Hd]).
  - exists 1%nat. split; [lia|done].
  - destruct (IH (rotate_si g)) as (k & Hk & Ek); [by rewrite Eh|lia|].
    exists (S k). split; [lia|]. by rewrite Nat.iter_succ_r.
Qed.

Lemma rotation_held n g :
  (∃ s, 0 ≤ s < 10 ∧ held (si_have g) s) →
  si_have (Nat.iter n rotate_si g) = si_have g ∧
  ((0 < n)%nat → held (si_have g) (si_rr (Nat.iter n rotate_si g))).
Proof.
  intros (s & Hs & Hh). induction n as [|n [IH _]]; [split; [done|lia]|].
  cbn [Nat.iter]. destruct (rotate_si_spec (Nat.iter n rotate_si g) s Hs) as (_ & Hh' & Eh & _); [by rewrite IH|].
  rewrite IH in *. done.
Qed.

(** The system information is rotated fairly: every block held is presented
    within ten rotations, whatever the position of the rotation, and only slots
    that hold a block are ever presented. *)
Theorem si_rotation_fair g s :
  0 ≤ s < 10 → held (si_have g) s →
  (∃ k, (1 ≤ k ≤ 10)%nat ∧ si_rr (Nat.iter k rotate_si g) = s) ∧
  (∀ n, (0 < n)%nat → held (si_have g) (si_rr (Nat.iter n rotate_si g))).
Proof.
  intros Hs Hh. split.
  - apply rotation_reaches; [done|done|]. unfold ahead. mlia.
  - intros n Hn. apply rotation_held; eauto.
Qed.

Definition two_si : G := g_zero <| si_have := [false; false; true; false; false; false; false; true; false; false] |>.

Lemma si_rotation_fair_witness :
  (∃ k, (1 ≤ k ≤ 10)%nat ∧ si_rr (Nat.iter k rotate_si two_si) = 7) ∧
  (∀ n, (0 < n)%nat → held (si_have two_si) (si_rr (Nat.iter n rotate_si two_si))).
Proof. apply (si_rotation_fair two_si 7); [lia|reflexivity]. Defined.

(** ** The SDCCH blocks *)

(** The blocks that wait, oldest first. *)
Definition sdcch_queue (g : G) : list sdcch_entry := fr_contents entry0 32 (sdcch_ring g) (sdcch_head g) (sdcch_tail g).
Definition sdcch_ok (g : G) : Prop := fr_ok 32 (sdcch_ring g) (sdcch_head g) (sdcch_tail g).

Definition expired (now : Z) (e : sdcch_entry) : bool := SDCCH_TTL_TICKS <? u32 (now - e_tick e).

(** What a frame does to the queue: blocks that waited too long are dropped; the
    head is presented in its window, and leaves after the last burst of the block
    or the eighth presentation. *)
Fixpoint drop_expired (now : Z) (q : list sdcch_entry) : list sdcch_entry :=
  match q with
  | e :: q' => if expired now e then drop_expired now q' else q
  | [] => []
  end.
Definition present_head (last in_window : bool) (q : list sdcch_entry) : option (list Z) * list sdcch_entry :=
  match q with
  | [] => (None, [])
  | e :: q' =>
      if in_window then
        let reps := u16 (e_reps e + 1) in
        (Some (e_l2 e), if last || (8 <=? reps) then q' else e <| e_reps := reps |> :: q')
      else (None, q)
  end.
Definition serve_queue (now : Z) (last in_window : bool) (q : list sdcch_entry) : option (list Z) * list sdcch_entry :=
  present_head last in_window (drop_expired now q).

Lemma ring_slot_head g : sdcch_ok g → sdcch_head g ≠ sdcch_tail g →
  sdcch_queue g = ring_slot g (sdcch_head g mod 32) ::
                  fr_contents entry0 32 (sdcch_ring g) (u32 (sdcch_head g + 1)) (sdcch_tail g) ∧
  fr_ok 32 (sdcch_ring g) (u32 (sdcch_head g + 1)) (sdcch_tail g).
Proof.
  intros Hok Hne.
  destruct (fr_pop entry0 32 ltac:(lia) ltac:(lia) eq_refl _ _ _ Hok Hne) as [H1 H2]. split; [exact H2|done].
Qed.

Lemma sdcch_queue_nil g : sdcch_head g = sdcch_tail g → sdcch_ok g → sdcch_queue g = [].
Proof.
  intros E (Hl & Hr & _). unfold sdcch_queue. rewrite E in *. by apply fr_empty.
Qed.

(** A block received is appended; the oldest of a full ring is lost; a block of
    the frame just received is ignored. *)
Lemma feed_sdcch_queue g l2 f :
  sdcch_ok g →
  sdcch_ok (feed_sdcch g l2 f) ∧
  sdcch_queue (feed_sdcch g l2 f) =
    if negb (f =? 0) && (f =? sdcch_last_fn g) then sdcch_queue g
    else push_drop 32 (sdcch_queue g) (mkEntry (pad23 l2) f (tick g) 0).
Proof.
  intros Hok. unfold feed_sdcch. destruct (negb _ && _); [done|].
  pose proof (fr_push_drop entry0 32 _ _ _ (mkEntry (pad23 l2) f (tick g) 0) ltac:(lia) ltac:(lia) eq_refl Hok) as H.
  cbn zeta in H. unfold sdcch_ok, sdcch_queue, SDCCH_RING_N in *. unfold fr_count in H.
  destruct g. cbn in *. destruct (32 <=? _); exact H.
Qed.

Definition in_window (w : World) (g : G) (lo hi : Z) : bool :=
  let tc := tc51 (calypso_l1s_fn w g) in negb ((tc <? lo) || (hi <? tc)).

(** The loop of [dispatch_allc] serves the queue, and has fuel for it. *)
Lemma allc_ring_queue fuel w lo hi page m g :
  sdcch_ok g → fr_count (sdcch_head g) (sdcch_tail g) < Z.of_nat fuel →
  let '(pres, q) := serve_queue (tick g) (3 <=? d_burst_d g) (in_window w g lo hi) (sdcch_queue g) in
  let '(ret, m', g') := allc_ring fuel w lo hi page m g in
  sdcch_ok g' ∧ sdcch_queue g' = q ∧ ret = bool_decide (is_Some pres) ∧
  m' = match pres with Some l2 => present_ccch w m g page l2 | None => m end.
Proof.
  revert g. induction fuel as [|fuel IH]; intros g Hok Hf.
  { pose proof (fr_count_range (sdcch_head g) (sdcch_tail g)). lia. }
  cbn [allc_ring]. destruct (Z.eqb_spec (sdcch_tail g) (sdcch_head g)) as [E|E].
  { rewrite (sdcch_queue_nil g) by done. unfold serve_queue. by cbn [drop_expired present_head]. }
  destruct (ring_slot_head g Hok ltac:(congruence)) as [Hq Hok1].
  change SDCCH_RING_N with 32. set (e := ring_slot g (sdcch_head g mod 32)) in *. rewrite Hq.
  assert (fr_count (u32 (sdcch_head g + 1)) (sdcch_tail g) < Z.of_nat fuel) as Hf1.
  { apply (f_equal (@zlen _)) in Hq. unfold sdcch_queue in Hq. rewrite fr_length in Hq.
    unfold zlen in Hq. cbn [length] in Hq. rewrite Nat2Z.inj_succ in Hq.
    fold (zlen (fr_contents entry0 32 (sdcch_ring g) (u32 (sdcch_head g + 1)) (sdcch_tail g))) in Hq.
    rewrite fr_length in Hq. lia. }
  unfold serve_queue. cbn [drop_expired]. unfold expired.
  destruct (SDCCH_TTL_TICKS <? u32 (tick g - e_tick e)).
  { exact (IH (g <| sdcch_head := u32 (sdcch_head g + 1) |>) Hok1 Hf1). }
  unfold present_head, in_window.
  destruct ((tc51 (calypso_l1s_fn w g) <? lo) || (hi <? tc51 (calypso_l1s_fn w g))); cbn [negb]; [done|].
  destruct (fr_update_head entry0 32 ltac:(lia) ltac:(lia) eq_refl _ _ _ (e <| e_reps := u16 (e_reps e + 1) |>) Hok
              ltac:(congruence)) as (Hu1 & Hu2 & Hu3).
  destruct (fr_pop entry0 32 ltac:(lia) ltac:(lia) eq_refl _ _ _ Hu1 ltac:(congruence)) as [Hu4 _].
  change SDCCH_MAX_PRESENT with 8. change (d_burst_d (g <| sdcch_ring := _ |>)) with (d_burst_d g).
  destruct ((3 <=? d_burst_d g) || (8 <=? u16 (e_reps e + 1))).
  all: split; [|split; [|done]]; [by destruct (_ =? _)|].
  - rewrite <- Hu3. by destruct (_ =? _).
  - rewrite <- Hu2. by destruct (_ =? _).
Qed.

(** What happens to the ring: a block arrives from the demodulator, a frame
    starts, the firmware writes the burst number, [dispatch_allc] runs its loop. *)
Inductive ring_op :=
  | OpFeed (l2 : list Z) (f : Z)
  | OpTick
  | OpBurst (v : Z)
  | OpServe (w : World) (lo hi page : Z) (m : ram).

Definition ring_step (g : G) (op : ring_op) : list (list Z) * G :=
  match op with
  | OpFeed l2 f => ([], feed_sdcch g l2 f)
  | OpTick => ([], g <| tick := u32 (tick g + 1) |>)
  | OpBurst v => ([], calypso_l1_burst_written g v)
  | OpServe w lo hi page m =>
      let '(ret, m', g') := allc_ring (S (Z.to_nat (u32 (sdcch_tail g - sdcch_head g)))) w lo hi page m g in
      (if ret : bool then [awords m' (api_ndb NDB_A_CD) 15] else [], g')
  end.

(** The specification: a list of blocks, the last frame received, the clock and
    the burst number. *)
Record RingSpec := mkRS { rs_q : list sdcch_entry; rs_last_fn : Z; rs_now : Z; rs_burst : Z }.

Definition spec_step (addr : Z) (s : RingSpec) (op : ring_op) : list (list Z) * RingSpec :=
  match op with
  | OpFeed l2 f =>
      ([], if negb (f =? 0) && (f =? rs_last_fn s) then s
           else mkRS (push_drop 32 (rs_q s) (mkEntry (pad23 l2) f (rs_now s) 0)) f (rs_now s) (rs_burst s))
  | OpTick => ([], mkRS (rs_q s) (rs_last_fn s) (u32 (rs_now s + 1)) (rs_burst s))
  | OpBurst v => ([], mkRS (rs_q s) (rs_last_fn s) (rs_now s) (Z.land v 3))
  | OpServe w lo hi page m =>
      let tc := tc51 (arm_read32 w addr) in
      let '(pres, q) := serve_queue (rs_now s) (3 <=? rs_burst s) (negb ((tc <? lo) || (hi <? tc))) (rs_q s) in
      (match pres with Some l2 => [[0; 0; 0] ++ l2_words l2] | None => [] end,
       mkRS q (rs_last_fn s) (rs_now s) (rs_burst s))
  end.

Definition ring_abs (g : G) : RingSpec := mkRS (sdcch_queue g) (sdcch_last_fn g) (tick g) (d_burst_d g).

Fixpoint outputs {S O} (step : S → ring_op → list O * S) (s : S) (ops : list ring_op) : list O :=
  match ops with
  | [] => []
  | op :: ops => fst (step s op) ++ outputs step (snd (step s op)) ops
  end.

Lemma aget_rp_demod m page toa pm k :
  k < api_rp page RP_A_SERV_DEMOD ∨ api_rp page RP_A_SERV_DEMOD + 4 ≤ k → aget (rp_serv_demod m page toa pm) k = aget m k.
Proof. intros H. unfold rp_serv_demod. by apply aget_aput_out. Qed.

(** The page of the results is below the NDB. *)
Lemma api_rp_range page off : 0 ≤ off < 0x28 → 0x28 ≤ api_rp page off < 0x50.
Proof. intros H. unfold api_rp, API_R_PAGE. case_if; mlia. Qed.

Lemma aget_present_ccch w m g page l2 k :
  0x50 ≤ k → aget (present_ccch w m g page l2) k = aget (ndb_block m NDB_A_CD 0 l2) k.
Proof.
  intros Hk. unfold present_ccch. pose proof (api_rp_range page RP_A_SERV_DEMOD ltac:(done)).
  pose proof (api_rp_range page (RP_A_SERV_DEMOD + 6) ltac:(done)). pose proof (api_rp_range page RP_D_TASK_D ltac:(done)).
  assert (api_rp page (RP_A_SERV_DEMOD + 6) = api_rp page RP_A_SERV_DEMOD + 3) by (unfold api_rp, RP_A_SERV_DEMOD; mlia).
  rewrite aget_rp_demod by lia. apply aget_aset_ne. lia.
Qed.

Lemma awords_ext m m' a n : (∀ k, a ≤ k → aget m k = aget m' k) → awords m a n = awords m' a n.
Proof. intros H. unfold awords. apply list_fmap_ext. intros i k Hk. apply list_elem_of_lookup_2, elem_of_zseq in Hk. apply H. lia. Qed.

Lemma ndb_block_words m off hdr l2 : awords (ndb_block m off hdr l2) (api_ndb off) 15 = [hdr; 0; 0] ++ l2_words l2.
Proof.
  assert (ndb_block m off hdr l2 = aput m (api_ndb off) ([hdr; 0; 0] ++ l2_words l2)) as ->.
  { unfold ndb_block, ndb_put_l2. cbn [app aput]. f_equal. lia. }
  pose proof (awords_aput m (api_ndb off) ([hdr; 0; 0] ++ l2_words l2)) as H. exact H.
Qed.

Lemma present_ccch_block w m g page l2 :
  awords (present_ccch w m g page l2) (api_ndb NDB_A_CD) 15 = [0; 0; 0] ++ l2_words l2.
Proof.
  rewrite <- (ndb_block_words m NDB_A_CD 0 l2). apply awords_ext. intros k Hk. apply aget_present_ccch.
  change (api_ndb NDB_A_CD) with 0x1D2 in Hk. lia.
Qed.

(** The loop keeps the clock, the burst number, the last frame and the address. *)
Lemma allc_ring_keeps fuel w lo hi page m g :
  let '(_, _, g') := allc_ring fuel w lo hi page m g in
  tick g' = tick g ∧ d_burst_d g' = d_burst_d g ∧ sdcch_last_fn g' = sdcch_last_fn g ∧ l1s_addr g' = l1s_addr g.
Proof.
  revert g. induction fuel as [|fuel IH]; intros g; cbn [allc_ring]; [done|].
  destruct (_ =? _); [done|]. cbn zeta. destruct (_ <? _); [exact (IH (g <| sdcch_head := u32 (sdcch_head g + 1) |>))|]. destruct (_ || _); [done|].
  by case_ifs.
Qed.

Lemma ring_step_refines g op :
  sdcch_ok g →
  sdcch_ok (snd (ring_step g op)) ∧ l1s_addr (snd (ring_step g op)) = l1s_addr g ∧
  fst (ring_step g op) = fst (spec_step (l1s_addr g) (ring_abs g) op) ∧
  ring_abs (snd (ring_step g op)) = snd (spec_step (l1s_addr g) (ring_abs g) op).
Proof.
  intros Hok. destruct op as [l2 f| |v|w lo hi page m].
  - cbn [ring_step spec_step fst snd]. destruct (feed_sdcch_queue g l2 f Hok) as [H1 H2].
    split; [done|]. unfold ring_abs at 1. rewrite H2. unfold feed_sdcch.
    change (rs_last_fn (ring_abs g)) with (sdcch_last_fn g). destruct (negb _ && _); [done|]. by destruct (_ <=? _).
  - done.
  - done.
  - cbn [ring_step spec_step].
    pose proof (allc_ring_queue (S (Z.to_nat (u32 (sdcch_tail g - sdcch_head g)))) w lo hi page m g Hok) as H.
    pose proof (allc_ring_keeps (S (Z.to_nat (u32 (sdcch_tail g - sdcch_head g)))) w lo hi page m g) as K.
    change (serve_queue (rs_now (ring_abs g)) (3 <=? rs_burst (ring_abs g)) _ (rs_q (ring_abs g)))
      with (serve_queue (tick g) (3 <=? d_burst_d g) (in_window w g lo hi) (sdcch_queue g)).
    destruct (serve_queue _ _ _ _) as [pres q]. destruct (allc_ring _ _ _ _ _ _ _) as [[ret m'] g'].
    destruct H as (H1 & H2 & -> & ->).
    { unfold fr_count. pose proof (u32_range (sdcch_tail g - sdcch_head g)). lia. }
    destruct K as (K1 & K2 & K3 & K4). cbn [fst snd]. split; [done|]. split; [done|]. split.
    + destruct pres; cbn; [|done]. f_equal. apply present_ccch_block.
    + unfold ring_abs. by rewrite H2, K1, K2, K3.
Qed.

(** C16: the SDCCH blocks are a queue: over any sequence of received blocks,
    frames, burst numbers and servings, the words put in the block of the common
    channel are those of the specification, where the blocks wait in the order
    they came, the oldest leaves when 32 wait, those older than 4000 frames are
    dropped, the head is presented in the window of its sub-channel only, and
    leaves with the last burst of a block or the eighth presentation. *)
Theorem sdcch_refines_queue g ops :
  sdcch_ok g → outputs ring_step g ops = outputs (spec_step (l1s_addr g)) (ring_abs g) ops.
Proof.
  revert g. induction ops as [|op ops IH]; intros g Hok; [done|]. cbn [outputs].
  destruct (ring_step_refines g op Hok) as (H1 & H2 & H3 & H4).
  by rewrite IH, H2, H3, H4 by done.
Qed.

Definition world0 : World := mkWorld 0 trf_init (λ _, 23) (λ _, None) (λ _, false) (λ _, true).
Definition ring_ops : list ring_op :=
  [OpFeed [1; 2; 3] 7; OpFeed [4; 5; 6] 8; OpBurst 0; OpServe world0 22 39 0 ∅; OpBurst 3; OpServe world0 22 39 0 ∅;
   OpTick; OpServe world0 22 39 0 ∅].

Definition ring_g : G := g_zero <| l1s_addr := 0x811000 |>.

Lemma sdcch_refines_queue_witness :
  sdcch_ok ring_g ∧ length (outputs ring_step ring_g ring_ops) = 3%nat ∧
  outputs ring_step ring_g ring_ops = outputs (spec_step 0x811000) (ring_abs ring_g) ring_ops.
Proof.
  assert (sdcch_ok ring_g) as H by (apply (bool_decide_unpack _); vm_compute; exact I).
  split; [exact H|]. split; [vm_compute; reflexivity|]. exact (sdcch_refines_queue ring_g ring_ops H).
Defined.

(** A reset of the layer 1 marks the SDCCH as not valid and leaves the ring: the
    blocks of the channel that was left are still served. *)
Lemma reset_keeps_ring g : sdcch_queue (l1_reset g) = sdcch_queue g.
Proof. done. Qed.

(** ** The speech frames *)

(** The frames that wait with their sequence numbers, oldest first. *)
Definition speech_seqs (g : G) : list Z := fr_contents 0 8 (tch_dl_q_seq g) (tch_dl_q_head g) (tch_dl_q_tail g).
Definition speech_frames (g : G) : list (list Z) :=
  fr_contents [] 8 (tch_dl_q g) (tch_dl_q_head g) (tch_dl_q_tail g).

Record speech_ok (g : G) : Prop := {
  so_frames : fr_ok 8 (tch_dl_q g) (tch_dl_q_head g) (tch_dl_q_tail g);
  so_seqs : fr_ok 8 (tch_dl_q_seq g) (tch_dl_q_head g) (tch_dl_q_tail g);
  so_depth : zlen (speech_seqs g) ≤ TCH_DL_PREFETCH;
  so_sorted : StronglySorted Z.lt (speech_seqs g);
  so_below : Forall (λ s, s ≤ tch_dl_seq g) (speech_seqs g);
  so_range : 0 ≤ tch_dl_seq g < 4294967296
}.

(** The fields of the queue. *)
Definition speech_view (g : G) := (tch_dl_q g, tch_dl_q_seq g, tch_dl_q_head g, tch_dl_q_tail g, tch_dl_seq g).

Lemma speech_ok_view g g' : speech_view g = speech_view g' → speech_ok g → speech_ok g'.
Proof.
  unfold speech_view. intros E [H1 H2 H3 H4 H5 H6]. injection E as E1 E2 E3 E4 E5.
  unfold speech_seqs in *. constructor; unfold speech_seqs; by rewrite <- ?E1, <- ?E2, <- ?E3, <- ?E4, <- ?E5.
Qed.

Lemma speech_push g fr seq :
  speech_ok g → tch_dl_depth g < TCH_DL_PREFETCH → tch_dl_seq g < seq < 4294967296 →
  let g' := tch_dl_push (g <| tch_dl_seq := seq |>) fr seq in
  speech_ok g' ∧ speech_seqs g' = speech_seqs g ++ [seq] ∧ speech_frames g' = speech_frames g ++ [fr].
Proof.
  intros [H1 H2 H3 H4 H5 H6] Hd Hs g'. unfold TCH_DL_PREFETCH, tch_dl_depth in *.
  destruct (fr_push [] 8 ltac:(lia) ltac:(lia) eq_refl _ _ _ fr H1) as [F1 F2]; [unfold fr_count; lia|].
  destruct (fr_push 0 8 ltac:(lia) ltac:(lia) eq_refl _ _ _ seq H2) as [S1 S2]; [unfold fr_count; lia|].
  assert (speech_seqs g' = speech_seqs g ++ [seq]) as E by exact S2.
  split; [|split; [done|exact F2]]. constructor.
  - exact F1.
  - exact S1.
  - rewrite E. unfold zlen. rewrite length_app. cbn [length]. pose proof (fr_length 0 8 (tch_dl_q_seq g) (tch_dl_q_head g) (tch_dl_q_tail g)) as L.
    fold (speech_seqs g) in L. unfold zlen, fr_count in L. unfold TCH_DL_PREFETCH. lia.
  - rewrite E. apply StronglySorted_app_2; [|done|repeat constructor].
    intros x y Hx Hy. apply list_elem_of_singleton in Hy as ->. rewrite Forall_forall in H5. apply list_elem_of_In in Hx. specialize (H5 x Hx). lia.
  - rewrite E. apply Forall_app_2; [|repeat constructor; cbn; lia].
    eapply Forall_impl; [|exact H5]. intros x Hx. cbn in *. lia.
  - cbn. lia.
Qed.

Lemma speech_pop g :
  speech_ok g → tch_dl_q_head g ≠ tch_dl_q_tail g →
  let g' := g <| tch_dl_q_head := u32 (tch_dl_q_head g + 1) |> in
  speech_ok g' ∧ speech_seqs g = slot 0 (tch_dl_q_seq g) (tch_dl_q_head g mod 8) :: speech_seqs g' ∧
  speech_frames g = slot [] (tch_dl_q g) (tch_dl_q_head g mod 8) :: speech_frames g'.
Proof.
  intros [H1 H2 H3 H4 H5 H6] Hne g'.
  destruct (fr_pop [] 8 ltac:(lia) ltac:(lia) eq_refl _ _ _ H1 Hne) as [F1 F2].
  destruct (fr_pop 0 8 ltac:(lia) ltac:(lia) eq_refl _ _ _ H2 Hne) as [S1 S2].
  fold (speech_seqs g) in S2. change (fr_contents 0 8 _ _ _) with (speech_seqs g') in S2.
  split; [|split; [exact S2|exact F2]]. rewrite S2 in *. constructor; try done.
  - unfold zlen in *. cbn [length] in H3. lia.
  - by apply StronglySorted_cons in H4 as [_ H4].
  - by apply Forall_cons_1 in H5 as [_ H5].
Qed.

(** The header of the ring file, when it can be read. *)
Definition speech_header (w : World) (g : G) : option (Z * Z) :=
  if fst (open_once w g SHM_TCH_DL) then
    hdr ← pread w SHM_TCH_DL 8 0;
    let w_seq := ldl_le hdr 0 in let n_slots := ldl_le hdr 4 in
    if (n_slots =? 0) || (4096 <? n_slots) || (w_seq =? 0) then None else Some (w_seq, n_slots)
  else None.
Definition restarts (w : World) (g : G) : bool :=
  match speech_header w g with Some (w_seq, _) => w_seq <? tch_dl_seq g | None => false end.

Lemma ldl_le_range b i : bytes b → 0 ≤ ldl_le b i < 4294967296.
Proof.
  intros Hb. unfold ldl_le. pose proof (bytes_rd b i Hb). pose proof (bytes_rd b (i + 1) Hb).
  pose proof (bytes_rd b (i + 2) Hb). pose proof (bytes_rd b (i + 3) Hb). lia.
Qed.

Lemma pread_bytes w p n off b : world_ok w → pread w p n off = Some b → bytes b ∧ length b = n.
Proof.
  intros Hw. unfold pread. destruct (w_file w p) as [f|] eqn:E; cbn; [|done].
  destruct (Nat.eqb_spec (length (take n (drop (Z.to_nat off) f))) n) as [Hl|]; [|done].
  intros [= <-]. split; [|done]. apply Forall_take, Forall_drop. by eapply wo_file.
Qed.

Lemma open_once_view w g path : speech_view (snd (open_once w g path)) = speech_view g.
Proof. unfold open_once. by destruct (fds g !! path). Qed.

Lemma speech_restart g : speech_ok g →
  speech_ok (g <| tch_dl_seq := 0 |> <| tch_dl_q_head := 0 |> <| tch_dl_q_tail := 0 |>) .
Proof.
  intros [(H1 & _) (H2 & _) _ _ _ _].
  constructor; try done; repeat split; try done; cbn; try lia; repeat constructor.
Qed.

(** The slot of frame [seq] in the ring file. *)
Definition speech_slot (w : World) (n_slots seq : Z) : option (list Z) :=
  pread w SHM_TCH_DL 48 (8 + u32 (seq - 1) mod n_slots * 48).

(** What a fetch appends to the queue. *)
Definition fetched (w : World) (g g' : G) (w_seq n_slots seq : Z) (fr : list Z) : Prop :=
  0 < n_slots ∧ tch_dl_seq g < seq ≤ w_seq ∧ (0 < tch_dl_seq g → w_seq - tch_dl_seq g ≤ n_slots → seq = tch_dl_seq g + 1) ∧
  (∃ buf, speech_slot w n_slots seq = Some buf ∧ ldl_le buf 0 = seq ∧ fr = take 33 (drop 8 buf)) ∧
  speech_seqs g' = speech_seqs g ++ [seq] ∧ speech_frames g' = speech_frames g ++ [fr] ∧ tch_dl_seq g' = seq.

Lemma tch_dl_fetch_spec w g w_seq n_slots :
  speech_ok g → tch_dl_seq g < w_seq < 4294967296 → 0 < n_slots ≤ 4096 →
  let g' := tch_dl_fetch w g w_seq n_slots in
  speech_ok g' ∧ (g' = g ∨ ∃ seq fr, fetched w g g' w_seq n_slots seq fr).
Proof.
  intros Hok Hs Hn. pose proof (so_range g Hok) as Hr. unfold tch_dl_fetch.
  destruct (Z.leb_spec TCH_DL_PREFETCH (tch_dl_depth g)); [by split; [|left]|].
  assert (tch_dl_seq g < tch_dl_next g w_seq n_slots ≤ w_seq ∧
    (0 < tch_dl_seq g → w_seq - tch_dl_seq g ≤ n_slots → tch_dl_next g w_seq n_slots = tch_dl_seq g + 1)) as [Hx Hg].
  { unfold tch_dl_next. rewrite (u32_small (tch_dl_seq g + 1)), (u32_small (w_seq - _)) by lia.
    destruct (Z.eqb_spec (tch_dl_seq g) 0), (Z.leb_spec n_slots (w_seq - (tch_dl_seq g + 1))); cbn [orb]; lia. }
  set (next := tch_dl_next g w_seq n_slots) in *. cbn zeta. change TCH_DL_SLOT with 48.
  destruct (pread _ _ _ _) as [buf|] eqn:E; [|by split; [|left]].
  destruct (Z.eqb_spec (ldl_le buf 0) next) as [En|]; cbn [negb]; [|by split; [|left]].
  destruct (speech_push g (take 33 (drop 8 buf)) next Hok) as (P1 & P2 & P3); [done|lia|].
  split; [done|right]. exists next, (take 33 (drop 8 buf)). repeat split; try done; try lia. by exists buf.
Qed.

Lemma tch_dl_poll_spec w g :
  world_ok w → speech_ok g →
  let g' := tch_dl_poll w g in
  speech_ok g' ∧
  (restarts w g = false →
   speech_view g' = speech_view g ∨
   ∃ w_seq n_slots seq fr, speech_header w g = Some (w_seq, n_slots) ∧ fetched w g g' w_seq n_slots seq fr).
Proof.
  intros Hw Hok. unfold tch_dl_poll, restarts, speech_header.
  pose proof (open_once_view w g SHM_TCH_DL) as V. destruct (open_once w g SHM_TCH_DL) as [ok g1]. cbn [fst snd] in *.
  assert (speech_ok g1) as Hok1 by (by eapply speech_ok_view).
  destruct ok; cbn [negb]; [|by split; [|left]].
  destruct (pread w SHM_TCH_DL 8 0) as [hdr|] eqn:E; cbn [mbind option_bind]; [|by split; [|left]].
  pose proof (ldl_le_range hdr 0 (proj1 (pread_bytes _ _ _ _ _ Hw E))) as R0.
  pose proof (ldl_le_range hdr 4 (proj1 (pread_bytes _ _ _ _ _ Hw E))) as R4.
  cbn zeta. set (w_seq := ldl_le hdr 0) in *. set (n_slots := ldl_le hdr 4) in *.
  destruct (Z.eqb_spec n_slots 0); cbn [orb]; [by split; [|left]|].
  destruct (Z.ltb_spec 4096 n_slots); cbn [orb]; [by split; [|left]|].
  destruct (Z.eqb_spec w_seq 0); cbn [orb]; [by split; [|left]|].
  destruct (Z.eqb_spec w_seq (tch_dl_seq g1)) as [|Hne]; [by split; [|left]|].
  assert (tch_dl_seq g1 = tch_dl_seq g) as Es by (by injection V).
  rewrite <- Es. destruct (Z.ltb_spec w_seq (tch_dl_seq g1)).
  { split; [|done]. apply tch_dl_fetch_spec; [by apply speech_restart|cbn; lia|lia]. }
  destruct (tch_dl_fetch_spec w g1 w_seq n_slots) as [F1 [->|F2]]; [done|lia|lia|by split; [|left]|].
  split; [done|]. intros _. right. exists w_seq, n_slots. destruct F2 as (seq & fr & F2). exists seq, fr.
  split; [done|]. unfold fetched, speech_seqs, speech_frames in *. injection V as V1 V2 V3 V4 V5.
  by rewrite <- V1, <- V2, <- V3, <- V4, <- V5.
Qed.

(** One frame of a call: the file is polled, then a speech frame is handed over
    when the firmware has taken the previous one; [m] is the API RAM as the
    firmware left it.  The frame handed over, with its sequence number. *)
Definition handed_over (m : ram) (g : G) : bool :=
  negb (has (aget m (api_ndb NDB_A_DD_0)) B_BLUD && (waited g <? TCH_DL_HOLD)) &&
  negb (tch_dl_q_head g =? tch_dl_q_tail g).
Definition speech_step (g : G) (f : World * ram) : list (Z * list Z) * G :=
  let g := tch_dl_poll (fst f) g in
  let '(m, g') := tch_dl_speech (snd f) g in
  (if handed_over (snd f) g then [(rd (tch_dl_q_seq g) (tch_dl_q_head g mod 8), awords m (api_ndb NDB_A_DD_0) 20)] else [], g').

Fixpoint speech_run (g : G) (fs : list (World * ram)) : list (Z * list Z) :=
  match fs with
  | [] => []
  | f :: fs => fst (speech_step g f) ++ speech_run (snd (speech_step g f)) fs
  end.
Fixpoint never_restarts (g : G) (fs : list (World * ram)) : Prop :=
  match fs with
  | [] => True
  | f :: fs => restarts (fst f) g = false ∧ never_restarts (snd (speech_step g f)) fs
  end.

Lemma ndb_fr_words m off fr :
  awords (ndb_put_fr (aput m (api_ndb off) [B_BLUD; 0; 0]) (api_ndb off) fr) (api_ndb off) 20 = [B_BLUD; 0; 0] ++ fr_words fr.
Proof.
  assert (ndb_put_fr (aput m (api_ndb off) [B_BLUD; 0; 0]) (api_ndb off) fr =
          aput m (api_ndb off) ([B_BLUD; 0; 0] ++ fr_words fr)) as ->.
  { unfold ndb_put_fr. cbn [app aput]. f_equal. lia. }
  pose proof (awords_aput m (api_ndb off) ([B_BLUD; 0; 0] ++ fr_words fr)) as H.
  rewrite length_app, length_fr_words in H. exact H.
Qed.

(** A frame handed over is the head of the queue. *)
Lemma tch_dl_speech_spec m g :
  speech_ok g →
  let '(m', g') := tch_dl_speech m g in
  speech_ok g' ∧ tch_dl_seq g' = tch_dl_seq g ∧
  if handed_over m g then
    ∃ s fr, rd (tch_dl_q_seq g) (tch_dl_q_head g mod 8) = s ∧
      awords m' (api_ndb NDB_A_DD_0) 20 = [B_BLUD; 0; 0] ++ fr_words fr ∧
      speech_seqs g = s :: speech_seqs g' ∧ speech_frames g = fr :: speech_frames g'
  else speech_seqs g' = speech_seqs g ∧ speech_frames g' = speech_frames g.
Proof.
  intros Hok. unfold tch_dl_speech, handed_over.
  destruct (has _ _ && _); cbn [negb andb].
  { split; [|done]. by eapply speech_ok_view; [|exact Hok]. }
  change (tch_dl_q_head (g <| waited := 0 |>)) with (tch_dl_q_head g).
  change (tch_dl_q_tail (g <| waited := 0 |>)) with (tch_dl_q_tail g).
  destruct (Z.eqb_spec (tch_dl_q_head g) (tch_dl_q_tail g)) as [|Hne]; cbn [negb].
  { split; [|done]. by eapply speech_ok_view; [|exact Hok]. }
  destruct (speech_pop g Hok Hne) as (P1 & P2 & P3). split; [by eapply speech_ok_view; [|exact P1]|].
  split; [done|]. eexists _, _. split; [done|]. split; [apply ndb_fr_words|]. split; [exact P2|exact P3].
Qed.

Section in_order.
  Context (P : Z → list Z → Prop).

Definition speech_source (w : World) : Prop :=
  world_ok w ∧
  ∀ k buf, 0 ≤ k → pread w SHM_TCH_DL 48 (8 + k * 48) = Some buf → P (ldl_le buf 0) (take 33 (drop 8 buf)).

Lemma speech_run_ordered L fs g :
  speech_ok g → Forall2 P (speech_seqs g) (speech_frames g) → Forall (λ s, L < s) (speech_seqs g) → L ≤ tch_dl_seq g →
  Forall (λ f, speech_source (fst f)) fs → never_restarts g fs →
  StronglySorted Z.lt ((speech_run g fs).*1) ∧ Forall (λ s, L < s) ((speech_run g fs).*1) ∧
  Forall (λ o, ∃ fr, P (fst o) fr ∧ snd o = [B_BLUD; 0; 0] ++ fr_words fr) (speech_run g fs).
Proof.
  revert L g. induction fs as [|[w m] fs IH]; intros L g Hok HP HL Hs Hfs Hn.
  { cbn. split; [constructor|]. split; constructor. }
  apply Forall_cons_1 in Hfs as [[Hw Hsrc] Hfs]. destruct Hn as [Hr Hn]. cbn [speech_run].
  unfold speech_step in *. cbn [fst snd] in *.
  destruct (tch_dl_poll_spec w g Hw Hok) as [Q1 Q2]. specialize (Q2 Hr).
  set (g1 := tch_dl_poll w g) in *.
  assert (Forall2 P (speech_seqs g1) (speech_frames g1) ∧ Forall (λ s, L < s) (speech_seqs g1) ∧ L ≤ tch_dl_seq g1)
    as (HP1 & HL1 & Hs1).
  { destruct Q2 as [V|(w_seq & n & seq & fr & _ & Hn0 & F1 & _ & (buf & F3 & F4 & F5) & F6 & F7 & F8)].
    - unfold speech_seqs, speech_frames in *. injection V as -> -> -> -> ->. done.
    - rewrite F6, F7, F8. split; [|split; [|lia]].
      + apply Forall2_app; [done|]. constructor; [|constructor]. rewrite <- F4, F5. eapply Hsrc; [|exact F3]. apply Z.mod_pos_bound. lia.
      + apply Forall_app_2; [done|]. constructor; [lia|constructor]. }
  clearbody g1. pose proof (tch_dl_speech_spec m g1 Q1) as T. destruct (tch_dl_speech m g1) as [m' g2].
  destruct T as (T1 & T2 & T3). destruct (handed_over m g1).
  - destruct T3 as (s & fr & -> & -> & T4 & T5). rewrite T4, T5 in *.
    apply Forall2_cons_1 in HP1 as [HPs HP1]. apply Forall_cons_1 in HL1 as [HLs HL1].
    pose proof (so_sorted g1 Q1) as So. pose proof (so_below g1 Q1) as Sb. rewrite T4 in So, Sb.
    apply StronglySorted_cons in So as [So _]. apply Forall_cons_1 in Sb as [Sb _].
    destruct (IH s g2) as (I1 & I2 & I3); [done|done|done|lia|done|done|].
    cbn [app fmap list_fmap fst]. split; [|split].
    + apply StronglySorted_cons. split; [|done]. done.
    + constructor; [done|]. eapply Forall_impl; [|exact I2]. cbn in *. intros; lia.
    + constructor; [|done]. by exists fr.
  - destruct T3 as [T4 T5]. cbn [app fst snd]. apply IH; rewrite ?T4, ?T5; try done. lia.
Qed.
End in_order.

(** C24: the speech of a call comes in order and unaltered: over any frames during
    which the producer does not restart its count, whatever the firmware does
    with the block and whenever the file can be read, the frames handed to the
    firmware have increasing sequence numbers, none twice, and each is, packed in
    its 17 words and marked, a frame of that number that the file held. *)
Theorem speech_in_order P g fs :
  speech_ok g → speech_seqs g = [] → Forall (λ f, speech_source P (fst f)) fs → never_restarts g fs →
  StronglySorted Z.lt ((speech_run g fs).*1) ∧
  Forall (λ o, ∃ fr, P (fst o) fr ∧ snd o = [B_BLUD; 0; 0] ++ fr_words fr) (speech_run g fs).
Proof.
  intros Hok Hq Hfs Hn. pose proof (so_range g Hok).
  assert (speech_frames g = []) as Hf.
  { apply length_zero_iff_nil. pose proof (fr_length [] 8 (tch_dl_q g) (tch_dl_q_head g) (tch_dl_q_tail g)) as L1.
    pose proof (fr_length 0 8 (tch_dl_q_seq g) (tch_dl_q_head g) (tch_dl_q_tail g)) as L2.
    fold (speech_seqs g) in L2. rewrite Hq in L2. unfold speech_frames. unfold zlen in *. cbn in L2. lia. }
  destruct (speech_run_ordered P (tch_dl_seq g) fs g) as (H1 & _ & H2); try done.
  - rewrite Hq, Hf. constructor.
  - rewrite Hq. constructor.
Qed.

(** A file with two frames in its four slots, read by a firmware that takes each. *)
Definition speech_file : list Z :=
  le32 2 ++ le32 4 ++ (le32 1 ++ replicate 4 0 ++ replicate 33 0xD1 ++ replicate 7 0) ++
  (le32 2 ++ replicate 4 0 ++ replicate 33 0xD2 ++ replicate 7 0).
Definition speech_world : World :=
  mkWorld 0 trf_init (λ _, 0) (λ p, if bool_decide (p = SHM_TCH_DL) then Some speech_file else None) (λ _, true) (λ _, true).
Definition speech_frame_of (s : Z) (fr : list Z) : Prop :=
  (s = 1 → fr = replicate 33 0xD1) ∧ (s = 2 → fr = replicate 33 0xD2).
Definition speech_frame_g : G := g_zero <| fds := {[SHM_TCH_DL := true]} |>.
Definition speech_frames_fs : list (World * ram) := replicate 4 (speech_world, ∅).

Lemma speech_world_source : speech_source speech_frame_of speech_world.
Proof.
  split.
  - split; [cbn; unfold GSM_HYPERFRAME; lia|intros a; cbn; lia|].
    intros p b. cbn. case_bool_decide; [|done]. intros [= <-].
    apply (bool_decide_unpack _). vm_compute. exact I.
  - intros k buf Hk H. assert (k = 0 ∨ k = 1 ∨ 2 ≤ k) as [->|[->|Hk2]] by lia.
    + vm_compute in H. injection H as <-. split; vm_compute; congruence.
    + vm_compute in H. injection H as <-. split; vm_compute; congruence.
    + exfalso. unfold pread in H. cbn [w_file speech_world] in H. rewrite bool_decide_true in H by done.
      cbn [mbind option_bind] in H. rewrite drop_ge in H; [done|].
      change (length speech_file) with 104%nat. lia.
Qed.

Lemma speech_in_order_witness :
  (speech_run speech_frame_g speech_frames_fs).*1 = [2] ∧
  StronglySorted Z.lt ((speech_run speech_frame_g speech_frames_fs).*1) ∧
  Forall (λ o, ∃ fr, speech_frame_of (fst o) fr ∧ snd o = [B_BLUD; 0; 0] ++ fr_words fr)
    (speech_run speech_frame_g speech_frames_fs).
Proof.
  split; [vm_compute; reflexivity|]. apply (speech_in_order speech_frame_of).
  - constructor; try (apply (bool_decide_unpack _); vm_compute; exact I); vm_compute; try lia; constructor.
  - reflexivity.
  - apply Forall_replicate. exact speech_world_source.
  - repeat split; vm_compute; reflexivity.
Defined.

(** ** The published key *)

(** The API RAM shows no ciphering. *)
Definition clear_mode (m : ram) : Prop := kc_algo m = 0.

Definition ciphered_g (g : G) (last : list Z) : Prop :=
  kc_last g = Some last ∧ rd last 0 ≠ 0 ∧ kc_tick g = 0 ∧ kc_clear_pending g = 0.

Lemma kc_frame_clear w m g last :
  clear_mode m → kc_last g = Some last → rd last 0 ≠ 0 → 0 ≤ kc_tick g < 22 → 0 ≤ kc_clear_pending g →
  let g' := publish_kc w m g in
  if kc_tick g <? 21 then g' = g <| kc_tick := kc_tick g + 1 |>
  else if kc_clear_pending g <? 4
  then g' = g <| kc_tick := 0 |> <| kc_clear_pending := kc_clear_pending g + 1 |>
  else w_writable w SHM_KC = true → w_pwrite w SHM_KC = true → kc_last g' = Some (kc_record m) ∧
    out g' = out g ++ [mkSide SHM_KC 0 (le32 (next_seq g SHM_KC) ++ kc_record m)].
Proof.
  intros Hc Hl Hr Ht Hp. unfold publish_kc, KC_PUBLISH_EVERY, KC_CLEAR_GRACE. cbn zeta.
  destruct (Z.ltb_spec (kc_tick g) 21).
  { destruct (Z.ltb_spec (kc_tick g + 1) 22); [done|lia]. }
  destruct (Z.ltb_spec (kc_tick g + 1) 22); [lia|].
  assert (rd (kc_record m) 0 = 0) as E0 by (unfold kc_record; by rewrite Hc).
  change (kc_last (g <| kc_tick := 0 |>)) with (kc_last g). rewrite Hl.
  rewrite bool_decide_false by (intros [= ->]; congruence). rewrite E0. apply Z.eqb_neq in Hr. rewrite Hr.
  cbn [Z.eqb negb andb]. change (kc_clear_pending (g <| kc_tick := 0 |>)) with (kc_clear_pending g).
  destruct (Z.ltb_spec (kc_clear_pending g) 4), (Z.ltb_spec (kc_clear_pending g + 1) 5); try lia; [done|].
  intros Hw Hpw. rewrite Hw, Hpw, andb_false_r. done.
Qed.

Lemma kc_run_clear last g ms :
  Forall clear_mode (snd <$> ms) → ciphered_g g last → zlen ms < 110 →
  run (λ g f, publish_kc (fst f) (snd f) g) g ms =
    g <| kc_tick := zlen ms mod 22 |> <| kc_clear_pending := zlen ms / 22 |>.
Proof.
  intros Hm (H1 & H2 & H3 & H4). induction ms as [|[w m] ms IH] using rev_ind; intros Hl.
  { change (zlen []) with 0. cbn. destruct g. cbn in *. by subst. }
  rewrite fmap_app in Hm. apply Forall_app in Hm as [Hm Hm1]. apply Forall_cons_1 in Hm1 as [Hm1 _].
  assert (zlen (ms ++ [(w, m)]) = zlen ms + 1) as E by (unfold zlen; rewrite length_app; cbn; lia). rewrite E in *.
  assert (0 ≤ zlen ms) by (unfold zlen; lia).
  unfold run in *. rewrite foldl_app. cbn [foldl fst snd]. rewrite IH by (done || lia).
  set (g1 := g <| kc_tick := _ |> <| kc_clear_pending := _ |>).
  pose proof (kc_frame_clear w m g1 last Hm1 H1 H2) as F. cbn zeta in F.
  change (kc_tick g1) with (zlen ms mod 22) in F. change (kc_clear_pending g1) with (zlen ms / 22) in F.
  specialize (F ltac:(mlia) ltac:(mlia)).
  destruct (Z.ltb_spec (zlen ms mod 22) 21) as [L|L].
  - rewrite F. replace ((zlen ms + 1) mod 22) with (zlen ms mod 22 + 1) by mlia.
    replace ((zlen ms + 1) / 22) with (zlen ms / 22) by mlia. done.
  - destruct (Z.ltb_spec (zlen ms / 22) 4) as [L4|L4]; [|mlia].
    rewrite F. replace ((zlen ms + 1) mod 22) with 0 by mlia.
    replace ((zlen ms + 1) / 22) with (zlen ms / 22 + 1) by mlia. done.
Qed.

(** The end of ciphering is announced late and once: while a key is
    published, up to 109 consecutive frames in which the firmware shows no
    ciphering leave the record alone (the host keeps deciphering across the
    handling of a command), and the 110th writes one record without a key. *)
Theorem key_clear_grace last g ms w m :
  ciphered_g g last → Forall clear_mode (snd <$> ms) → clear_mode m → w_writable w SHM_KC = true → w_pwrite w SHM_KC = true →
  let step g f := publish_kc (fst f) (snd f) g in
  (zlen ms < 110 → out (run step g ms) = out g ∧ kc_last (run step g ms) = Some last) ∧
  (zlen ms = 109 → out (step (run step g ms) (w, m)) = out g ++ [mkSide SHM_KC 0 (le32 (next_seq g SHM_KC) ++ kc_record m)]).
Proof.
  intros Hg Hm Hm1 Hw Hpw step. split; intros Hl.
  - unfold step. rewrite (kc_run_clear last) by done. split; [done|]. apply Hg.
  - unfold step. rewrite (kc_run_clear last) by (done || lia). rewrite Hl. cbn [fst snd].
    set (g1 := g <| kc_tick := _ |> <| kc_clear_pending := _ |>). destruct Hg as (H1 & H2 & _).
    apply (kc_frame_clear w m g1 last Hm1 H1 H2); done.
Qed.

Definition ciphering_g : G := g_zero <| kc_last := Some ([1; 8] ++ replicate 8 0x55 ++ [0xFF] ++ replicate 17 0) |>.
Definition bench_world : World := mkWorld 0 trf_init (λ _, 0) (λ _, None) (λ _, true) (λ _, true).

Lemma key_clear_grace_witness :
  let last := [1; 8] ++ replicate 8 0x55 ++ [0xFF] ++ replicate 17 0 in
  let ms := replicate 109 (bench_world, ∅ : ram) in
  let step g f := publish_kc (fst f) (snd f) g in
  (zlen ms < 110 → out (run step ciphering_g ms) = out ciphering_g ∧ kc_last (run step ciphering_g ms) = Some last) ∧
  (zlen ms = 109 → out (step (run step ciphering_g ms) (bench_world, ∅)) =
     out ciphering_g ++ [mkSide SHM_KC 0 (le32 (next_seq ciphering_g SHM_KC) ++ kc_record ∅)]).
Proof.
  intros last ms. apply (key_clear_grace last ciphering_g ms bench_world ∅).
  - repeat split. vm_compute. discriminate.
  - apply (bool_decide_unpack _). vm_compute. exact I.
  - reflexivity.
  - reflexivity.
  - reflexivity.
Defined.
End GRGSM_QUEUE.
