(* ===== verification/GrgsmLaws.v ===== *)
(** * The gr-gsm layer 1 keeps the promises of the layer-1 interface

    The invariant of the state of [Grgsm.v] (blocks of 23 bytes, speech frames
    of 33, rings and indices in their arrays), its preservation by every entry
    point, and the instance of the interface of [L1Ops.v]: what the transceiver
    may rely on when this layer 1 is registered. *)
From stdpp Require Import gmap strings.
From S2P Require Import Prelude Ring FreeRing ApiRam Rf L1Ops L1ctlTap Grgsm GrgsmSpec GrgsmQueue.
Import API TRF6151 L1OPS GRGSM GRGSM_SPEC GRGSM_QUEUE.

Module GRGSM_LAWS.

Definition block (n : Z) (l : list Z) : Prop := zlen l = n ∧ bytes l.

Record g_wf (g : G) : Prop := {
  wf_page : page g = 0 ∨ page g = 1;
  wf_si_set : zlen (si_set g) = 10 ∧ Forall (block 23) (si_set g);
  wf_si_have : zlen (si_have g) = 10;
  wf_si_rr : 0 ≤ si_rr g < 10;
  wf_si_buf : block 23 (si_buf g);
  wf_sacch : block 23 (sacch_buf g);
  wf_agch : block 23 (agch_buf g);
  wf_facch : block 23 (facch_dl g);
  wf_tsacch : block 23 (tsacch_dl g);
  wf_ring : sdcch_ok g ∧ Forall (λ e, block 23 (e_l2 e)) (sdcch_ring g);
  wf_speech : speech_ok g ∧ Forall (block 33) (tch_dl_q g);
  wf_conf : zlen (rach_conf_fn g) = 256 ∧ 0 ≤ last_ra g < 256
}.
#[export] Hint Resolve wf_page wf_si_rr wf_si_buf wf_sacch wf_agch wf_facch wf_tsacch : grgsm.

(** The fields the invariant speaks of; the other fields are free. *)
Definition g_view (g : G) :=
  (page g, si_set g, si_have g, si_rr g, si_buf g, sacch_buf g, agch_buf g, facch_dl g, tsacch_dl g,
   (sdcch_ring g, sdcch_head g, sdcch_tail g), speech_view g, (rach_conf_fn g, last_ra g)).

Lemma g_wf_view g g' : g_view g = g_view g' → g_wf g → g_wf g'.
Proof.
  unfold g_view. intros E [H1 H2 H3 H4 H5 H6 H7 H8 H9 [H10 H10'] [H11 H11'] H12].
  injection E as E1 E2 E3 E4 E5 E6 E7 E8 E9 E10 E11 E12 E13 E14 E15 E16 E17 E18 E19.
  constructor; try congruence.
  - unfold sdcch_ok in *. split; congruence.
  - split; [|congruence]. eapply speech_ok_view; [|exact H11]. unfold speech_view. congruence.
Qed.

(** [same]: a step that leaves these fields; [wf_step]: one field is written. *)
Ltac same := match goal with H : g_wf ?g |- g_wf _ => apply (g_wf_view g); [reflexivity|exact H] end.
Ltac wf_step :=
  match goal with H : g_wf _ |- g_wf _ => destruct H as [? ? ? ? ? ? ? ? ? ? [? ?] ?] end;
  constructor; cbn; try done;
  try (split; [match goal with H : speech_ok ?g |- _ => apply (speech_ok_view g); [reflexivity|exact H] end|done]).

(** ** Reads keep to their buffers *)
Lemma block_bytes n l : block n l → bytes l.
Proof. by intros [_ H]. Qed.
#[export] Hint Resolve block_bytes : grgsm.

Lemma word16 lo hi : 0 ≤ lo < 256 → 0 ≤ hi < 256 → 0 ≤ Z.lor lo (Z.shiftl hi 8) < 65536.
Proof. intros. rewrite lor_hi_lo by lia. lia. Qed.

Lemma l2_words_ok l2 : bytes l2 → Forall (λ v, 0 ≤ v < 65536) (l2_words l2).
Proof.
  intros H. apply Forall_fmap, Forall_forall. intros k _. cbn. apply word16; [by apply bytes_rd|].
  case_if; [by apply bytes_rd|lia].
Qed.

Lemma fr_words_ok fr : bytes fr → Forall (λ v, 0 ≤ v < 65536) (fr_words fr).
Proof.
  intros H. apply Forall_app_2.
  - apply Forall_fmap, Forall_forall. intros k _. cbn. rewrite Z.lor_comm. apply word16; by apply bytes_rd.
  - constructor; [|done]. pose proof (bytes_rd fr 32 H). rewrite Z.shiftl_mul_pow2 by lia. lia.
Qed.

Lemma apm_range w g : 0 ≤ apm_nominal w g < 65536.
Proof. unfold apm_nominal, calypso_trf6151_apm_for_rf. apply u16_range. Qed.
#[export] Hint Resolve l2_words_ok fr_words_ok apm_range : grgsm.

(** ** Writes keep to the area of the layer 1 *)

(** [m'] is [m] with words of the area rewritten. *)
Definition in_area (m m' : ram) : Prop := api_ok m' ∧ ∀ w, ¬ l1_area w → aget m' w = aget m w.

Lemma in_area_refl m : api_ok m → in_area m m.
Proof. done. Qed.
Lemma in_area_trans m1 m2 m3 : in_area m1 m2 → in_area m2 m3 → in_area m1 m3.
Proof. intros [_ H1] [H2 H3]. split; [done|]. intros w Hw. by rewrite H3, H1. Qed.
Lemma in_area_ok m m' : in_area m m' → api_ok m'.
Proof. by intros [H _]. Qed.

Lemma in_area_aput m w vs :
  api_ok m → Forall (λ v, 0 ≤ v < 65536) vs → (∀ k, w ≤ k < w + zlen vs → l1_area k) → in_area m (aput m w vs).
Proof.
  intros Hm Hv Ha. split; [by apply api_ok_aput|]. intros k Hk. apply aget_aput_out.
  destruct (Z.lt_ge_cases k w); [by left|right]. destruct (Z.lt_ge_cases k (w + zlen vs)); [|done].
  exfalso. apply Hk, Ha. lia.
Qed.

Lemma in_area_aset m w v : api_ok m → 0 ≤ v < 65536 → l1_area w → in_area m (aset m w v).
Proof.
  intros Hm Hv Ha. apply (in_area_aput m w [v]); [done|by constructor|].
  unfold zlen. cbn. intros k Hk. by replace k with w by lia.
Qed.

Lemma rp_area page off n : 0 ≤ off → 0 ≤ n → off + 2 * n ≤ 0x28 → off mod 2 = 0 →
  ∀ k, api_rp page off ≤ k < api_rp page off + n → l1_area k.
Proof. intros. unfold l1_area, api_rp, API_R_PAGE in *. left. destruct (negb _); mlia. Qed.

(** The NDB blocks the layer 1 writes: their first word and those that follow. *)
Definition ndb_area (off n : Z) : Prop := ∀ k, api_ndb off ≤ k < api_ndb off + n → l1_area k.
Lemma ndb_areas : ndb_area NDB_A_CD 15 ∧ ndb_area NDB_A_FD 15 ∧ ndb_area NDB_A_DD_0 20 ∧
                  ndb_area NDB_A_CU 15 ∧ ndb_area NDB_A_FU 15 ∧ ndb_area NDB_A_DU_1 20.
Proof. unfold ndb_area, l1_area. repeat split; intros k; vm_compute (api_ndb _); intros; right; lia. Qed.

Lemma ndb_block_area m off hdr l2 :
  api_ok m → ndb_area off 15 → 0 ≤ hdr < 65536 → bytes l2 → in_area m (ndb_block m off hdr l2).
Proof.
  intros Hm Ha Hh Hb. assert (ndb_block m off hdr l2 = aput m (api_ndb off) ([hdr; 0; 0] ++ l2_words l2)) as ->.
  { unfold ndb_block, ndb_put_l2. cbn [app aput]. f_equal. lia. }
  apply in_area_aput; [done| |].
  - apply Forall_app_2; [repeat constructor; lia|by apply l2_words_ok].
  - unfold zlen. rewrite length_app, length_l2_words. exact Ha.
Qed.

Lemma ndb_speech_area m fr :
  api_ok m → bytes fr →
  in_area m (ndb_put_fr (aput m (api_ndb NDB_A_DD_0) [B_BLUD; 0; 0]) (api_ndb NDB_A_DD_0) fr).
Proof.
  intros Hm Hb. set (w := api_ndb NDB_A_DD_0).
  assert (ndb_put_fr (aput m w [B_BLUD; 0; 0]) w fr = aput m w ([B_BLUD; 0; 0] ++ fr_words fr)) as ->.
  { unfold ndb_put_fr. cbn [app aput]. reflexivity. }
  apply in_area_aput; [done| |].
  - apply Forall_app_2; [repeat constructor; unfold B_BLUD; lia|by apply fr_words_ok].
  - unfold zlen. rewrite length_app, length_fr_words. apply ndb_areas.
Qed.

Lemma rp_demod_area m page pm :
  api_ok m → 0 ≤ pm < 65536 → in_area m (rp_serv_demod m page TOA_ON_TIME pm).
Proof.
  intros Hm Hp. apply in_area_aput; [done| |].
  - unfold TOA_ON_TIME, SNR_NOMINAL. repeat constructor; lia.
  - apply (rp_area page RP_A_SERV_DEMOD 4); unfold RP_A_SERV_DEMOD; done.
Qed.

Lemma rp_word_area m page off v :
  api_ok m → 0 ≤ v < 65536 → 0 ≤ off ≤ 0x26 → off mod 2 = 0 → in_area m (aset m (api_rp page off) v).
Proof. intros Hm Hv Ho He. apply in_area_aset; [done|done|]. apply (rp_area page off 1); lia. Qed.

(** Chaining writes, from the last one. *)
Lemma area_last m m1 m2 : (api_ok m1 → in_area m1 m2) → in_area m m1 → in_area m m2.
Proof. intros H2 H1. eapply in_area_trans; [exact H1|]. apply H2. by eapply in_area_ok. Qed.
Ltac after lem := eapply area_last; [intros ?; apply lem; auto with grgsm|].

Lemma task_word_area m page off t :
  api_ok m → off = RP_D_TASK_D ∨ off = RP_D_TASK_MD → t = ALLC_DSP_TASK ∨ t = SB_DSP_TASK ∨ t = PM_DSP_TASK →
  in_area m (aset m (api_rp page off) t).
Proof.
  intros Hm Ho Ht. apply rp_word_area; [done| | |].
  - destruct Ht as [->|[->| ->]]; unfold ALLC_DSP_TASK, SB_DSP_TASK, PM_DSP_TASK; lia.
  - destruct Ho as [->| ->]; unfold RP_D_TASK_D, RP_D_TASK_MD; lia.
  - by destruct Ho as [->| ->].
Qed.

Lemma present_ccch_area w m g page l2 : api_ok m → bytes l2 → in_area m (present_ccch w m g page l2).
Proof.
  intros Hm Hb. unfold present_ccch. after rp_demod_area. after task_word_area.
  apply ndb_block_area; [done|apply ndb_areas|lia|done].
Qed.

Lemma tch_serv_demod_area w m g : api_ok m → in_area m (tch_serv_demod w m g).
Proof. intros Hm. unfold tch_serv_demod. cbn zeta. after rp_demod_area. apply rp_demod_area; auto with grgsm. Qed.

Lemma dispatch_pm_area w m g page : api_ok m → in_area m (dispatch_pm w m g page).
Proof.
  intros Hm. unfold dispatch_pm. pose proof (apm_range w g). after task_word_area.
  apply in_area_aput; [done|repeat constructor; lia|]. apply (rp_area page RP_A_PM 3); unfold RP_A_PM; done.
Qed.

Lemma dispatch_sb_area w m g page : api_ok m → in_area m (dispatch_sb w m g page).
Proof.
  intros Hm. unfold dispatch_sb. destruct (_ || _); [done|]. destruct (_ <? _); [done|]. cbn zeta.
  after task_word_area. after rp_demod_area. apply in_area_aput; [done| |].
  - pose proof (land_range (encode_sb (sb_bsic g) (sb_fn g)) 0xFFFF ltac:(lia)).
    pose proof (u16_range (Z.shiftr (encode_sb (sb_bsic g) (sb_fn g)) 16)). repeat constructor; lia.
  - apply (rp_area page RP_A_SCH 5); unfold RP_A_SCH; done.
Qed.

(** ** System information and the common channel *)
Lemma rotate_from_range have rr k n s : rotate_from have rr k n = Some s → 0 ≤ s < 10.
Proof.
  revert k. induction n as [|n IH]; intros k; cbn [rotate_from]; [done|].
  destruct (default false _); [|apply IH]. intros [= <-]. unfold SI_SLOTS. mlia.
Qed.

Lemma rotate_si_wf g : g_wf g → g_wf (rotate_si g).
Proof.
  intros H. unfold rotate_si. destruct (rotate_from _ _ _ _) as [s|] eqn:E; [|done].
  apply rotate_from_range in E. wf_step.
Qed.

Lemma si_slot_block g : g_wf g → block 23 (si_slot_buf g (si_rr g)).
Proof.
  intros H. destruct (wf_si_set g H) as [Hl Hf]. pose proof (wf_si_rr g H). unfold si_slot_buf, zlen in *.
  destruct (lookup_lt_is_Some_2 (si_set g) (Z.to_nat (si_rr g)) ltac:(lia)) as [b Hb]. rewrite Hb. cbn.
  rewrite Forall_lookup in Hf. by eapply Hf.
Qed.

Lemma dcch_si_guard_wf g : g_wf g → g_wf (snd (dcch_si_guard g)).
Proof. intros H. unfold dcch_si_guard. destruct (negb _); [done|]. destruct (_ <? _); [same|done]. Qed.
#[export] Hint Resolve rotate_si_wf si_slot_block dcch_si_guard_wf in_area_refl present_ccch_area tch_serv_demod_area
  dispatch_pm_area dispatch_sb_area : grgsm.

(** A state and a memory reached by an operation. *)
Definition keeps (m : ram) (x : ram * G) : Prop := in_area m (fst x) ∧ g_wf (snd x).

Lemma si_buf_wf g b : g_wf g → block 23 b → g_wf (g <| si_buf := b |>).
Proof. intros H Hb. wf_step. Qed.

Lemma allc_si_keeps w page m g : api_ok m → g_wf g → keeps m (allc_si w page m g).
Proof.
  intros Hm Hg. unfold allc_si.
  set (g1 := if d_burst_d g =? 0 then _ else g). assert (g_wf g1) as H1.
  { subst g1. destruct (_ =? 0); [|done]. apply si_buf_wf; auto with grgsm. }
  clearbody g1. destruct (dcch_guard_armed g1); split; cbn [fst snd]; try done.
  - after task_word_area. apply in_area_aset; [done|lia|]. apply (proj1 ndb_areas). lia.
  - after rp_demod_area. after task_word_area. after rp_demod_area. after task_word_area.
    apply ndb_block_area; [done|apply ndb_areas|lia|eauto with grgsm].
Qed.

Lemma keeps_refl m g : api_ok m → g_wf g → keeps m (m, g).
Proof. done. Qed.
Lemma keeps_then m m1 g1 x : keeps m (m1, g1) → (api_ok m1 → g_wf g1 → keeps m1 x) → keeps m x.
Proof.
  intros [H1 H2] H. cbn in *. destruct (H (in_area_ok _ _ H1) H2) as [H3 H4].
  split; [by eapply in_area_trans|done].
Qed.
#[export] Hint Resolve keeps_refl : grgsm.

Lemma ring_slot_block g i : g_wf g → block 23 (e_l2 (ring_slot g i)).
Proof.
  intros H. destruct (wf_ring g H) as [_ Hf]. unfold ring_slot.
  destruct (sdcch_ring g !! Z.to_nat i) as [e|] eqn:E; cbn.
  - rewrite Forall_lookup in Hf. by eapply Hf.
  - split; [done|]. apply (bool_decide_unpack _). vm_compute. exact I.
Qed.
#[export] Hint Resolve ring_slot_block : grgsm.

Lemma sdcch_valid_wf g b : g_wf g → g_wf (g <| sdcch_valid := b |>).
Proof. intros H. same. Qed.

(** The head of the ring advanced, or its repetitions counted. *)
Lemma ring_advance_wf g :
  g_wf g → sdcch_head g ≠ sdcch_tail g → g_wf (g <| sdcch_head := u32 (sdcch_head g + 1) |>).
Proof.
  intros H Hne. destruct (ring_slot_head g (proj1 (wf_ring g H)) Hne) as [_ Hok]. wf_step.
  split; [exact Hok|]. by apply wf_ring0.
Qed.

Lemma ring_repeat_wf g r :
  g_wf g → sdcch_head g ≠ sdcch_tail g →
  g_wf (g <| sdcch_ring := <[Z.to_nat (sdcch_head g mod 32) := ring_slot g (sdcch_head g mod 32) <| e_reps := r |>]>
                             (sdcch_ring g) |>).
Proof.
  intros H Hne. pose proof (ring_slot_block g (sdcch_head g mod 32) H) as Hb. destruct (wf_ring g H) as [Hok Hf].
  destruct (fr_update_head entry0 32 ltac:(lia) ltac:(lia) eq_refl _ _ _
    (ring_slot g (sdcch_head g mod 32) <| e_reps := r |>) Hok Hne) as [Hok' _].
  wf_step. split; [exact Hok'|]. apply Forall_insert; done.
Qed.

Lemma allc_ring_keeps_wf fuel w lo hi page m g :
  api_ok m → g_wf g →
  let '(_, m', g') := allc_ring fuel w lo hi page m g in keeps m (m', g').
Proof.
  intros Hm. revert g. induction fuel as [|fuel IH]; intros g Hg; cbn [allc_ring]; [done|].
  destruct (Z.eqb_spec (sdcch_tail g) (sdcch_head g)) as [|Hne]; [done|]. cbn zeta.
  destruct (_ <? _); [apply IH, ring_advance_wf; congruence|]. destruct (_ || _); [done|].
  change SDCCH_RING_N with 32.
  split; cbn [fst snd]; [apply present_ccch_area; eauto with grgsm|].
  pose proof (ring_repeat_wf g (u16 (e_reps (ring_slot g (sdcch_head g mod 32)) + 1)) Hg ltac:(congruence)) as H1.
  set (g1 := g <| sdcch_ring := _ |>) in *. assert (sdcch_head g1 ≠ sdcch_tail g1) as Hne1 by (cbn; congruence).
  clearbody g1. destruct (_ || _).
  - set (g2 := g1 <| sdcch_head := _ |>). assert (g_wf g2) as H2 by (by apply ring_advance_wf).
    clearbody g2. destruct (_ =? _); [by apply sdcch_valid_wf|done].
  - destruct (_ =? _); [by apply sdcch_valid_wf|done].
Qed.

Lemma allc_agch_keeps w page m g :
  api_ok m → g_wf g → let '(_, m', g') := allc_agch w page m g in keeps m (m', g').
Proof.
  intros Hm Hg. unfold allc_agch. destruct (agch_valid g); [|done]. destruct (_ <? _).
  - split; [done|]. cbn [snd]. same.
  - destruct (_ || _); [|done]. split; [|done]. apply present_ccch_area; eauto with grgsm.
Qed.

Lemma dispatch_allc_keeps w page m g : api_ok m → g_wf g → keeps m (dispatch_allc w page m g).
Proof.
  intros Hm Hg. unfold dispatch_allc. pose proof (allc_agch_keeps w page m g Hm Hg) as HA.
  destruct (allc_agch w page m g) as [[ret m1] g1]. destruct ret; [done|].
  eapply keeps_then; [exact HA|]. intros Hm1 Hg1. cbn zeta. clear HA.
  match goal with |- context [allc_ring ?n w ?lo ?hi page m1 g1] => pose proof (allc_ring_keeps_wf n w lo hi page m1 g1 Hm1 Hg1) as HR;
    destruct (allc_ring n w lo hi page m1 g1) as [[ret m2] g2] end.
  destruct ret; [done|]. eapply keeps_then; [exact HR|]. intros Hm2 Hg2.
  set (g3 := if sdcch_tail g2 =? sdcch_head g2 then _ else g2).
  assert (g_wf g3) as Hg3 by (subst g3; destruct (_ =? _); [by apply sdcch_valid_wf|done]). clearbody g3.
  destruct (_ && _). { split; [|done]. apply present_ccch_area; eauto with grgsm. }
  destruct (sdcch_valid g3); [done|]. by apply allc_si_keeps.
Qed.

(** ** Traffic channel *)
Lemma open_once_wf w g path : g_wf g → g_wf (snd (open_once w g path)).
Proof. intros H. unfold open_once. destruct (fds g !! path); [done|]. cbn [snd]. same. Qed.

Lemma tch_dl_fetch_wf w g w_seq n_slots :
  world_ok w → g_wf g → tch_dl_seq g < w_seq < 4294967296 → 0 < n_slots ≤ 4096 →
  g_wf (tch_dl_fetch w g w_seq n_slots).
Proof.
  intros Hw H Hs Hn. destruct (wf_speech g H) as [Hso Hf].
  pose proof (tch_dl_fetch_spec w g w_seq n_slots Hso Hs Hn) as [Hso' _]. cbn zeta in Hso'.
  unfold tch_dl_fetch in *. destruct (_ <=? _); [done|]. cbn zeta in *.
  destruct (pread _ _ _ _) as [buf|] eqn:E; [|done]. destruct (negb _); [done|].
  apply pread_bytes in E as [Hb Hl]; [|done].
  destruct H as [? ? ? ? ? ? ? ? ? ? _ ?]. constructor; try done. split; [exact Hso'|].
  unfold tch_dl_push. cbn. apply Forall_insert; [done|]. split; [|by apply Forall_take, Forall_drop].
  unfold zlen. rewrite length_take, length_drop, Hl. done.
Qed.

Lemma tch_dl_poll_wf w g : world_ok w → g_wf g → g_wf (tch_dl_poll w g).
Proof.
  intros Hw Hg. unfold tch_dl_poll. pose proof (open_once_wf w g SHM_TCH_DL Hg) as H1.
  destruct (open_once w g SHM_TCH_DL) as [ok g1]. cbn [snd] in H1. destruct ok; cbn [negb]; [|done].
  destruct (pread w SHM_TCH_DL 8 0) as [hdr|] eqn:E; [|done].
  pose proof (ldl_le_range hdr 0 (proj1 (pread_bytes _ _ _ _ _ Hw E))) as R0.
  pose proof (ldl_le_range hdr 4 (proj1 (pread_bytes _ _ _ _ _ Hw E))) as R4. cbn zeta.
  destruct (Z.eqb_spec (ldl_le hdr 4) 0); cbn [orb]; [done|]. destruct (Z.ltb_spec 4096 (ldl_le hdr 4)); cbn [orb]; [done|].
  destruct (Z.eqb_spec (ldl_le hdr 0) 0); cbn [orb]; [done|].
  destruct (Z.eqb_spec (ldl_le hdr 0) (tch_dl_seq g1)) as [|Hne]; [done|].
  destruct (Z.ltb_spec (ldl_le hdr 0) (tch_dl_seq g1)).
  - apply tch_dl_fetch_wf; [done| |cbn; lia|lia]. destruct (wf_speech g1 H1) as [Hso Hf].
    pose proof (speech_restart g1 Hso) as Hso'. destruct H1 as [? ? ? ? ? ? ? ? ? ? _ ?]. by constructor.
  - apply tch_dl_fetch_wf; [done|done|lia|lia].
Qed.

Lemma tch_dl_speech_keeps m g : api_ok m → g_wf g → keeps m (tch_dl_speech m g).
Proof.
  intros Hm Hg. destruct (wf_speech g Hg) as [Hso Hf]. pose proof (tch_dl_speech_spec m g Hso) as S.
  unfold tch_dl_speech in *. destruct (has _ _ && _). { split; [done|]. cbn [snd]. same. }
  cbn zeta in *. destruct (negb _). 2: { split; [done|]. cbn [snd]. same. }
  destruct S as (S1 & _). split; cbn [fst snd].
  - apply ndb_speech_area; [done|]. change (tch_dl_q (g <| waited := 0 |>)) with (tch_dl_q g).
    destruct (tch_dl_q g !! _) as [b|] eqn:E; cbn; [|by constructor].
    rewrite Forall_lookup in Hf. by apply Hf in E as [_ Hb].
  - destruct Hg as [? ? ? ? ? ? ? ? ? ? _ ?]. by constructor.
Qed.

Lemma dispatch_tch_dl_keeps w m g : api_ok m → g_wf g → keeps m (dispatch_tch_dl w m g).
Proof.
  intros Hm Hg. unfold dispatch_tch_dl. pose proof (tch_serv_demod_area w m g Hm) as HA.
  eapply (keeps_then m _ g); [split; [exact HA|done]|]. intros Hm1 _.
  pose proof (tch_dl_speech_keeps _ g Hm1 Hg) as HS. destruct (tch_dl_speech _ g) as [m2 g2].
  destruct (tch_fresh _ _ _); [|done]. eapply keeps_then; [exact HS|]. intros Hm2 Hg2. split; cbn [fst snd].
  - apply ndb_block_area; [done|apply ndb_areas|unfold B_BLUD; lia|eauto with grgsm].
  - same.
Qed.

Lemma dispatch_tch_sacch_keeps w m g : api_ok m → g_wf g → keeps m (dispatch_tch_sacch w m g).
Proof.
  intros Hm Hg. unfold dispatch_tch_sacch. pose proof (tch_serv_demod_area w m g Hm) as HA.
  eapply (keeps_then m _ g); [split; [exact HA|done]|]. intros Hm1 _.
  destruct (negb _); [done|]. split; cbn [fst snd].
  - apply ndb_block_area; [done|apply ndb_areas|unfold B_BLUD; lia|eauto with grgsm].
  - same.
Qed.

Lemma dcch_sacch_area w m g : api_ok m → g_wf g → in_area m (dcch_sacch_present w m g).
Proof.
  intros Hm Hg. unfold dcch_sacch_present. repeat (case_if; [done|]).
  apply ndb_block_area; [done|apply ndb_areas|unfold B_BLUD; lia|eauto with grgsm].
Qed.

(** ** Uplink *)
Lemma side_wf g ok path off b : g_wf g → g_wf (side g ok path off b).
Proof. intros H. unfold side. destruct ok; [same|done]. Qed.
Lemma seqs_wf g x : g_wf g → g_wf (g <| seqs := x |>).
Proof. intros H. same. Qed.
#[export] Hint Resolve side_wf seqs_wf : grgsm.

Lemma publish_l2_wf w g path l2 u : g_wf g → g_wf (publish_l2 w g path l2 u).
Proof.
  intros H. unfold publish_l2. pose proof (open_once_wf w g path H). destruct (open_once w g path) as [ok g1].
  auto with grgsm.
Qed.

Lemma publish_speech_wf w g fr : g_wf g → g_wf (publish_speech w g fr).
Proof.
  intros H. unfold publish_speech. pose proof (open_once_wf w g SHM_TCH_UL H) as H1.
  destruct (open_once w g SHM_TCH_UL) as [ok g1]. cbn [snd] in H1. cbn zeta.
  apply side_wf, side_wf, seqs_wf. destruct (negb _); auto with grgsm.
Qed.

(** Taking a block clears its mark. *)
Lemma take_ul_area m off n :
  api_ok m → ndb_area off 1 → in_area m (snd (take_ul m off n)).
Proof.
  intros Hm Ha. unfold take_ul. destruct (negb _); [done|]. cbn [snd]. apply in_area_aset; [done| |apply Ha; lia].
  pose proof (Hm (api_ndb off)). change 65536 with (2 ^ 16). apply ldiff_range; [lia|]. change (2 ^ 16) with 65536. lia.
Qed.

Lemma ndb_area_le off n n' : ndb_area off n → n' ≤ n → ndb_area off n'.
Proof. intros H Hn k Hk. apply H. lia. Qed.

Lemma ul_areas : ndb_area NDB_A_CU 1 ∧ ndb_area NDB_A_FU 1 ∧ ndb_area NDB_A_DU_1 1.
Proof.
  destruct ndb_areas as (_ & _ & _ & H1 & H2 & H3).
  split; [|split]; eapply ndb_area_le; [exact H1|lia|exact H2|lia|exact H3|lia].
Qed.

Lemma capture_tch_ul_keeps w m g u x : api_ok m → g_wf g → capture_tch_ul w m g u = Some x → keeps m x.
Proof.
  intros Hm Hg. destruct ul_areas as (A1 & A2 & A3). unfold capture_tch_ul.
  destruct (_ =? _).
  { pose proof (take_ul_area m NDB_A_FU 23 Hm A2) as T1. destruct (take_ul m NDB_A_FU 23) as [l2 m1]. cbn [snd] in T1.
    pose proof (take_ul_area m1 NDB_A_DU_1 33 (in_area_ok _ _ T1) A3) as T2.
    destruct (take_ul m1 NDB_A_DU_1 33) as [fr m2]. cbn [snd] in T2. intros [= <-].
    split; cbn [fst snd]; [by eapply in_area_trans|].
    destruct l2, fr; auto using publish_l2_wf, publish_speech_wf. }
  destruct (_ =? _).
  { pose proof (take_ul_area m NDB_A_CU 23 Hm A1) as T1. destruct (take_ul m NDB_A_CU 23) as [l2 m1]. cbn [snd] in T1.
    intros [= <-]. split; [done|]. cbn [snd]. destruct l2; auto using publish_l2_wf. }
  destruct (_ =? _); [|done]. by intros [= <-].
Qed.

Lemma capture_sdcch_ul_wf w m g u : g_wf g → g_wf (capture_sdcch_ul w m g u).
Proof.
  intros H. unfold capture_sdcch_ul. cbn zeta. case_match; [done|].
  assert (g_wf (g <| ul_last := Some (take 23 (drop (Z.to_nat (lapdm_start (abytes m (2 * api_ndb (NDB_A_CU + SDCCH_UL_WINDOW_OFS)) 30)))
    (abytes m (2 * api_ndb (NDB_A_CU + SDCCH_UL_WINDOW_OFS)) 30)), tick g) |>)) as H1 by same.
  destruct (_ =? _); [done|]. by apply publish_l2_wf.
Qed.

(** ** Events of the firmware *)
Lemma page_written_keeps w m g v : api_ok m → g_wf g → keeps m (calypso_l1_page_written w m g v).
Proof.
  intros Hm Hg. unfold calypso_l1_page_written. destruct (negb (has v B_GSM_TASK)).
  { split; [done|]. cbn [snd]. destruct (_ =? _); [same|done]. }
  cbn zeta. set (p := if has v B_GSM_PAGE then 1 else 0). assert (p = 0 ∨ p = 1) as Hp by (subst p; case_if; auto).
  clearbody p. match goal with |- context [if _ && _ then ?x <| dcch_guard_tick := _ |> else ?x] => set (g1 := x) end.
  assert (g_wf g1) as H1 by (subst g1; wf_step). clearbody g1.
  match goal with |- context [if ?b && ?c then ?x else g1] => set (g2 := if b && c then x else g1) end.
  assert (g_wf g2) as H2 by (subst g2; destruct (_ && _); [same|done]). clearbody g2.
  destruct (negb _); [|done]. destruct (capture_tch_ul _ _ _ _) as [x|] eqn:E; [by eapply capture_tch_ul_keeps|].
  split; [done|]. by apply capture_sdcch_ul_wf.
Qed.

Lemma rach_written_wf w g d f : g_wf g → g_wf (calypso_l1_rach_written w g d f).
Proof.
  intros H. unfold calypso_l1_rach_written. pose proof (open_once_wf w g SHM_RACH H) as H1.
  destruct (open_once w g SHM_RACH) as [ok g1]. cbn [snd] in H1. cbn zeta.
  match goal with |- g_wf (?x <| last_ra := _ |>) => assert (g_wf x) as H2 by auto with grgsm; set (g2 := x) in * end.
  clearbody g2. pose proof (u8_range (Z.shiftr d 8)). wf_step.
  split; [by apply wf_conf0|done].
Qed.

Lemma apply_tap_wf g ev : g_wf g → g_wf (apply_tap g ev).
Proof.
  intros H. destruct ev; cbn [apply_tap]; [done| | |same|].
  - unfold calypso_l1_rach_conf. wf_step. unfold wr. split; [|by apply wf_conf0].
    destruct wf_conf0. unfold zlen in *. by rewrite length_insert.
  - unfold calypso_l1_dcch_active. same.
  - unfold calypso_l1_dcch_set. cbn zeta. destruct (_ && _); [done|same].
Qed.

Lemma tap_tx_byte_wf g ch : g_wf g → g_wf (tap_tx_byte g ch).
Proof.
  intros H. unfold tap_tx_byte. cbn zeta. set (evs := drop _ _).
  assert (g_wf (g <| tap := L1CTL_TAP.calypso_l1ctl_tap_tx_byte (tap g) ch |>)) as H1 by same.
  revert H1. generalize (g <| tap := L1CTL_TAP.calypso_l1ctl_tap_tx_byte (tap g) ch |>). clearbody evs. clear H.
  induction evs as [|ev evs IH]; intros g0 H0; cbn [foldl]; [done|]. apply IH. by apply apply_tap_wf.
Qed.

(** ** The frame *)
Lemma poll_tch_cfg_wf w g : g_wf g → g_wf (poll_tch_cfg w g).
Proof.
  intros Hg. unfold poll_tch_cfg. pose proof (open_once_wf w g SHM_TCH_CFG Hg) as H.
  destruct (open_once w g SHM_TCH_CFG) as [ok g1]. cbn [snd] in H. clear Hg. destruct (negb ok); [done|].
  destruct (pread _ _ _ _) as [b|]; [|done]. cbn zeta. destruct (_ =? 0).
  - destruct (tch_cfg_valid g1); same.
  - destruct (_ =? _); [done|same].
Qed.

Lemma publish_kc_wf w m g : g_wf g → g_wf (publish_kc w m g).
Proof.
  intros H. unfold publish_kc. destruct (_ <? _); [same|]. cbn zeta. case_bool_decide; [same|].
  match goal with |- g_wf (if ?b then _ else _) => destruct b end; [same|].
  destruct (negb _ && _); [same|]. destruct (negb _); [same|]. unfold side. same.
Qed.

Lemma background_keeps w m g : api_ok m → g_wf g → keeps m (background w m g).
Proof.
  intros Hm Hg. unfold background.
  pose proof (dispatch_sb_area w m g 0 Hm) as A0. pose proof (dispatch_sb_area w _ g 1 (in_area_ok _ _ A0)) as A1.
  eapply (keeps_then m _ g); [split; [eapply in_area_trans; [exact A0|exact A1]|done]|].
  set (m1 := dispatch_sb w (dispatch_sb w m g 0) g 1). clearbody m1. intros Hm1 _. cbn zeta.
  match goal with |- context [let '(idle, g) := ?e in _] => set (sel := e) end.
  assert (g_wf (snd sel)) as Hs.
  { subst sel. destruct (_ && _); [|done]. pose proof (dcch_si_guard_wf g Hg). by destruct (dcch_si_guard g). }
  destruct sel as [idle g1]. cbn [snd] in Hs. destruct idle.
  - match goal with |- context [if ?b then rotate_si ?x else ?x] => set (g2 := if b then rotate_si x else x) end.
    assert (g_wf g2) as H2.
    { subst g2. assert (g_wf (g1 <| si_rot := u32 (si_rot g1 + 1) |>)) by same.
      destruct (_ =? _); auto with grgsm. }
    clearbody g2. split; [|done]. cbn [fst]. after tch_serv_demod_area.
    apply ndb_block_area; [done|apply ndb_areas|lia|eauto with grgsm].
  - pose proof (dcch_si_guard_wf g1 Hs) as H2. destruct (dcch_si_guard g1) as [gd g2]. cbn [snd] in H2.
    destruct (_ && _); [|done]. split; [|done]. by apply dcch_sacch_area.
Qed.

Lemma tasks_keeps w m g : api_ok m → g_wf g → keeps m (tasks w m g).
Proof.
  intros Hm Hg. unfold tasks. cbn zeta. set (g1 := g <| tick := _ |>). assert (g_wf g1) as H1 by same. clearbody g1.
  set (m1 := if d_task_md g1 =? PM_DSP_TASK then _ else m). 
  assert (in_area m m1) as A1 by (subst m1; destruct (_ =? _); auto with grgsm). clearbody m1.
  set (m2 := if d_task_md g1 =? SB_DSP_TASK then _ else m1).
  assert (in_area m1 m2) as A2 by (pose proof (in_area_ok _ _ A1); subst m2; destruct (_ =? _); auto with grgsm).
  eapply (keeps_then m m2 g1); [split; [by eapply in_area_trans|done]|]. clearbody m2. clear A1 A2 m1. intros Hm2 _.
  match goal with |- context [if d_task_d g1 =? ALLC_DSP_TASK then ?x else ?y] =>
    assert (keeps m2 (if d_task_d g1 =? ALLC_DSP_TASK then x else y)) as K
      by (destruct (_ =? _); [by apply dispatch_allc_keeps|done]); destruct (if d_task_d g1 =? ALLC_DSP_TASK then x else y) as [m3 g3] end.
  eapply keeps_then; [exact K|]. intros Hm3 Hg3.
  match goal with |- context [let '(m0, g0) := ?x in _] => assert (keeps m3 x) as K2; [|destruct x as [m4 g4]] end.
  { destruct (_ =? _); [by apply dispatch_tch_dl_keeps|]. destruct (_ =? _); [by apply dispatch_tch_sacch_keeps|done]. }
  destruct K2 as [K2 Hg4]. split; [done|]. cbn [snd] in *. same.
Qed.

Lemma frame_tick_keeps w m g :
  world_ok w → api_ok m → g_wf g → keeps m (calypso_l1_frame_tick w (m, g)).
Proof.
  intros Hw Hm Hg. unfold calypso_l1_frame_tick.
  assert (g_wf (poll_tch_cfg w (tch_dl_poll w (publish_kc w m g)))) as H1
    by (apply poll_tch_cfg_wf, tch_dl_poll_wf, publish_kc_wf; done).
  set (g1 := poll_tch_cfg w _) in *. clearbody g1.
  assert (keeps m (if sb_valid g1 then background w m g1 else (m, g1))) as K
    by (destruct (sb_valid g1); [by apply background_keeps|done]).
  destruct (if sb_valid g1 then _ else _) as [m2 g2]. destruct (negb _); [done|].
  eapply keeps_then; [exact K|]. intros. by apply tasks_keeps.
Qed.

(** ** Blocks from the demodulator *)
Lemma pad23_block l2 : bytes l2 → block 23 (pad23 l2).
Proof.
  intros H. unfold pad23, block, zlen. split.
  - rewrite length_take, length_app, length_replicate. lia.
  - apply Forall_take, Forall_app_2; [done|]. apply Forall_replicate. lia.
Qed.
#[export] Hint Resolve pad23_block : grgsm.

Lemma wr_block n l i v : block n l → 0 ≤ v < 256 → block n (wr l i v).
Proof.
  intros [Hl Hb] Hv. unfold wr, block, zlen in *. rewrite length_insert. split; [done|]. by apply Forall_insert.
Qed.

Lemma rewrite_ref_block l memo : block 23 l → block 23 (rewrite_ref l memo).
Proof. intros H. unfold rewrite_ref. cbn zeta. apply wr_block; [apply wr_block; [done|]|]; apply u8_range. Qed.

Lemma feed_agch_wf w g l2 : bytes l2 → g_wf g → g_wf (feed_agch w g l2).
Proof.
  intros Hb H. unfold feed_agch. cbn zeta. destruct (_ && _); [done|].
  set (buf := if _ && _ then _ else pad23 l2). assert (block 23 buf) as Hbuf.
  { subst buf. destruct (_ && _); [|by apply pad23_block]. destruct (negb (_ =? 0)); [|by apply pad23_block].
    by apply rewrite_ref_block, pad23_block. }
  clearbody buf. wf_step.
Qed.

Lemma feed_sdcch_wf g l2 f : bytes l2 → g_wf g → g_wf (feed_sdcch g l2 f).
Proof.
  intros Hb H. destruct (wf_ring g H) as [Hok Hf]. pose proof (proj1 (feed_sdcch_queue g l2 f Hok)) as Hok'.
  pose proof (pad23_block l2 Hb). unfold feed_sdcch in *. destruct (negb _ && _); [done|]. cbn zeta in *.
  destruct (_ <=? _); wf_step; (split; [exact Hok'|]); by apply Forall_insert.
Qed.

Lemma si6_block l2 : bytes l2 → 10 ≤ zlen l2 → block 23 (si6_of_si3 l2).
Proof.
  intros Hb Hl. unfold si6_of_si3, block, zlen in *. split.
  - rewrite !length_app, length_take, length_drop, length_replicate. cbn [length]. lia.
  - repeat apply Forall_app_2; [|by apply Forall_take, Forall_drop| |]; apply (bool_decide_unpack _); vm_compute; exact I.
Qed.

Lemma feed_sacch_wf g l2 : bytes l2 → g_wf g → g_wf (feed_sacch g l2).
Proof. intros Hb H. pose proof (pad23_block l2 Hb). unfold feed_sacch. destruct (negb _); [done|]. wf_step. Qed.

Lemma feed_si_wf g l2 : bytes l2 → g_wf g → g_wf (feed_si g l2).
Proof.
  intros Hb H. pose proof (pad23_block l2 Hb) as Hp. unfold feed_si. cbn zeta.
  set (slot := if (3 <=? _) && _ then _ else -1). clearbody slot.
  set (g1 := if 0 <=? slot then _ else g). assert (g_wf g1) as H1.
  { subst g1. destruct (_ <=? _); [|done]. wf_step.
    - destruct wf_si_set0 as [Hl Hf]. unfold zlen in *. rewrite length_insert. split; [done|]. by apply Forall_insert.
    - unfold zlen in *. by rewrite length_insert. }
  clearbody g1. clear H. set (g2 := if (slot =? 2) && _ && _ then _ else g1). assert (g_wf g2) as H2.
  { subst g2. destruct (_ && _) eqn:E; [|done]. bool_prop.
    assert (block 23 (si6_of_si3 l2)) by (apply si6_block; [done|lia]). wf_step. }
  clearbody g2. clear H1. wf_step.
Qed.

Lemma gsmtap_datagram_wf w buf g : bytes buf → g_wf g → g_wf (gsmtap_datagram w g buf).
Proof.
  intros Hb H. unfold gsmtap_datagram. assert (bytes (drop 16 buf)) as Hd by (by apply Forall_drop).
  pose proof (pad23_block _ Hd) as Hp.
  destruct (_ <? _); [done|]. destruct (negb _); [done|]. cbn zeta.
  destruct (_ =? _); [destruct (_ && _); [by apply feed_si_wf|done]|].
  destruct (_ =? _); [destruct (_ && _); [by apply feed_agch_wf|done]|].
  destruct (_ =? _); [by apply feed_sdcch_wf|].
  destruct (_ =? _); [destruct (_ <=? _); [by apply feed_sacch_wf|done]|].
  destruct (_ =? _); [wf_step|]. destruct (_ =? _); [wf_step|done].
Qed.

Lemma sch_datagram_wf w buf g : g_wf g → g_wf (snd (sch_datagram w g buf)).
Proof. intros H. unfold sch_datagram. destruct (_ || _); [done|]. cbn [snd]. same. Qed.

Lemma g_zero_wf : g_wf g_zero.
Proof.
  constructor; try (apply (bool_decide_unpack _); vm_compute; exact I).
  split; [|apply (bool_decide_unpack _); vm_compute; exact I].
  constructor; apply (bool_decide_unpack _); vm_compute; exact I.
Qed.

Lemma init_wf elf g : g_wf (calypso_l1_init elf g).
Proof. pose proof g_zero_wf as H. apply (g_wf_view g_zero); [reflexivity|done]. Qed.

(** ** The interface *)
Lemma step_of_keeps m g y : keeps m y → step_ok g_wf (m, g) y.
Proof. intros [[K1 K2] K3]. split; [by split|exact K2]. Qed.

#[export] Instance grgsm_laws : L1Laws grgsm_ops g_wf.
Proof.
  constructor.
  - intros f w [m g] [= <-] Hw [Hm Hg]. apply step_of_keeps. by apply frame_tick_keeps.
  - intros f w [m g] off [= <-] Hw [Hm Hg]. split; [done|]. cbn [fst snd]. intros v.
    unfold calypso_l1_read_override. cbn zeta. pose proof (apm_range w g).
    repeat (case_if; [intros [= <-]; done || (unfold SNR_NOMINAL; lia)|]); try done.
    all: case_ifs; intros; simplify_eq; unfold SNR_NOMINAL; lia.
  - intros f w [m g] [= <-] Hw _. cbn [snd]. unfold calypso_l1s_fn, arm_read32. case_if; [lia|]. by apply wo_arm32.
  - intros f w [m g] v [= <-] Hw [Hm Hg] Hv. apply step_of_keeps. split; [done|]. cbn [fst snd].
    unfold calypso_l1_burst_written. same.
  - intros f w [m g] v fn [= <-] Hw [Hm Hg] Hv Hf. apply step_of_keeps. split; [done|]. by apply rach_written_wf.
  - intros f w [m g] v [= <-] Hw [Hm Hg] Hv. apply step_of_keeps. by apply page_written_keeps.
  - intros f w x off v size. done.
  - intros f w [m g] ch [= <-] Hw [Hm Hg] Hc. apply step_of_keeps. split; [done|]. by apply tap_tx_byte_wf.
Qed.
End GRGSM_LAWS.
