(* ===== verification/GrgsmTrx.v ===== *)
(** * The machine with the gr-gsm layer 1

    The transceiver of [Trx.v] and [TrxApi.v] with the layer 1 of [Grgsm.v]
    registered, as the board does: safety of every run, and the way of an
    immediate assignment from the datagram of the demodulator to the words the
    firmware reads. *)
From stdpp Require Import gmap strings.
From S2P Require Import Prelude FreeRing ApiRam Rf L1Ops L1ctlTap Trx TrxPont TrxApi TrxL1 Grgsm GrgsmSpec GrgsmQueue GrgsmLaws.
Import API L1OPS TRX PONT TRX_API TRX_L1 GRGSM GRGSM_SPEC GRGSM_QUEUE GRGSM_LAWS.

Module GRGSM_TRX.

(** ** Every run *)
Inductive gop :=
  | GMachine (o : mop)
  | GGsmtap (w : World) (buf : list Z)       (* a datagram of the GSMTAP socket *)
  | GSch (w : World) (buf : list Z)          (* a datagram of the synchronisation socket *)
  | GUart (ch : Z).                          (* a byte the firmware sends on its L1CTL link *)

Definition gstep shm_ok (c : Cfg) (x : CalypsoTRX * G) (o : gop) : CalypsoTRX * G :=
  match o with
  | GMachine o => mstep (Some grgsm_ops) shm_ok c x o
  | GGsmtap w buf => (fst x, gsmtap_datagram w (snd x) buf)
  | GSch w buf =>
      let '(f, g) := sch_datagram w (snd x) buf in
      (match f with Some f => calypso_trx_autosync_fn (fst x) f | None => fst x end, g)
  | GUart ch => (fst x, tap_tx_byte (snd x) ch)
  end.

Definition gop_ok (o : gop) : Prop :=
  match o with
  | GMachine o => wop_ok g_wf (WMachine o)
  | GGsmtap _ buf => bytes buf
  | GSch _ _ => True
  | GUart ch => 0 ≤ ch < 256
  end.
Definition gwrites (o : gop) (k : Z) : Prop := match o with GMachine o => writes (L := G) (WMachine o) k | _ => False end.

(** The operation as operations of the machine and events of the layer 1. *)
Definition expand (o : gop) : list (wop (L := G)) :=
  match o with
  | GMachine o => [WMachine o]
  | GGsmtap w buf => [WInternal (λ g, gsmtap_datagram w g buf)]
  | GSch w buf =>
      WInternal (λ g, snd (sch_datagram w g buf)) ::
      match fst (sch_datagram w g_zero buf) with Some f => [WMachine (MSch f)] | None => [] end
  | GUart ch => [WInternal (λ g, tap_tx_byte g ch)]
  end.

Lemma sch_datagram_fn w g g' buf : fst (sch_datagram w g buf) = fst (sch_datagram w g' buf).
Proof. unfold sch_datagram. by destruct (_ || _). Qed.

Lemma expand_step shm_ok c x o : run (wstep (Some grgsm_ops) shm_ok c) x (expand o) = gstep shm_ok c x o.
Proof.
  destruct o as [o|w buf|w buf|ch]; cbn [expand gstep]; try done.
  rewrite (sch_datagram_fn w g_zero (snd x)). destruct (sch_datagram w (snd x) buf) as [[f|] g] eqn:E;
    unfold run; cbn [fst foldl wstep mstep snd]; by rewrite E.
Qed.

Lemma expand_run shm_ok c x ops :
  run (gstep shm_ok c) x ops = run (wstep (Some grgsm_ops) shm_ok c) x (concat (expand <$> ops)).
Proof.
  revert x. induction ops as [|o ops IH]; intros x; [done|]. cbn [fmap list_fmap concat].
  unfold run in *. rewrite foldl_app. cbn [foldl]. rewrite IH. f_equal. symmetry. apply expand_step.
Qed.

Lemma expand_ok o : gop_ok o → Forall (wop_ok g_wf) (expand o).
Proof.
  intros H. destruct o as [o|w buf|w buf|ch]; cbn [expand gop_ok] in *.
  - by constructor.
  - constructor; [|done]. intros g Hg. by apply gsmtap_datagram_wf.
  - constructor; [intros g Hg; by apply sch_datagram_wf|]. destruct (fst _); by repeat constructor.
  - constructor; [|done]. intros g Hg. by apply tap_tx_byte_wf.
Qed.

Lemma expand_writes o k : ¬ gwrites o k → Forall (λ o, ¬ writes o k) (expand o).
Proof.
  intros H. destruct o as [o|w buf|w buf|ch]; cbn [expand gwrites] in *; repeat (constructor; try done).
  destruct (fst _); by repeat constructor.
Qed.

(** C5: with the gr-gsm layer 1 the machine is safe: over any sequence of ticks,
    ends of the frame pulse, accesses of the ARM, datagrams of the demodulator of
    any content and bytes of the L1CTL link, the layer 1 stays in its invariant
    (every block of 23 bytes, every speech frame of 33, rings and indices in
    their arrays), the API RAM holds 16-bit words, and every word outside the
    area of the layer 1, the write pages of the ARM included, keeps the value the
    ARM gave it last, but for the seven words the transceiver clears or sets
    itself ([trx_words]: d_task_ra and d_task_u of the two write pages, the
    boot-loader status and the two version words). *)
Theorem grgsm_machine_safe shm_ok c x ops k :
  own_l1 g_wf x → Forall gop_ok ops → arm_word k → Forall (λ o, ¬ gwrites o k) ops →
  let x' := run (gstep shm_ok c) x ops in
  g_wf (snd x') ∧ api_ok (api_ram (fst x')) ∧ aget (api_ram (fst x')) k = aget (api_ram (fst x)) k.
Proof.
  intros Ho Hops Hk Hw. cbn zeta. rewrite expand_run.
  destruct (wrun_kept (Some grgsm_ops) g_wf ltac:(intros ? [= <-]; apply grgsm_laws) shm_ok c x (concat (expand <$> ops)) k)
    as [[_ _ _ [H1 H2]] H3]; [done| |done| |done].
  - apply Forall_concat, Forall_fmap. eapply Forall_impl; [|exact Hops]. exact expand_ok.
  - apply Forall_concat, Forall_fmap. eapply Forall_impl; [|exact Hw]. intros o. apply expand_writes.
Qed.

(** The write page of the ARM after a frame with a datagram in it. *)
Definition quiet_world : World := mkWorld 0 TRF6151.trf_init (λ _, 0) (λ _, None) (λ _, false) (λ _, true).
Definition safe_ops : list gop :=
  [GGsmtap quiet_world (replicate 40 0x2B); GMachine (MWrite quiet_world (API_NDB + NDB_D_DSP_PAGE) 2 2);
   GUart 0x7E; GMachine (MTick (env_with RxNone 0)); GMachine (MPulseEnd (env_with RxNone 0) quiet_world)].
Definition own_start : CalypsoTRX * G := (trx_init_own trx_new <| api_ram := {[ 5 := 0x1234 ]} |>, g_zero).

Lemma grgsm_machine_safe_witness :
  let x' := run (gstep None cfg_lockstep) own_start safe_ops in
  aget (api_ram (fst own_start)) 5 = 0x1234 ∧
  g_wf (snd x') ∧ api_ok (api_ram (fst x')) ∧ aget (api_ram (fst x')) 5 = aget (api_ram (fst own_start)) 5.
Proof.
  intros x'. split; [vm_compute; reflexivity|]. apply (grgsm_machine_safe None cfg_lockstep own_start safe_ops 5).
  - constructor; [reflexivity|reflexivity|vm_compute; split; congruence|]. split; [|apply g_zero_wf].
    intros w. unfold own_start, aget. cbn. destruct (decide (w = 5)) as [->|H].
    + rewrite lookup_singleton_eq. cbn. lia.
    + rewrite lookup_singleton_ne by congruence. cbn. lia.
  - assert (host_ok quiet_world) as Hw by (split; cbn; [lia|done]).
    repeat apply Forall_cons_2; try apply Forall_nil_2; cbn [gop_ok wop_ok]; try done.
    split; [done|]. split; [split; [by right; left|]; split; [vm_compute; discriminate|split; [reflexivity|vm_compute; discriminate]]|].
    vm_compute. split; congruence.
  - split; [unfold l1_area; lia|]. intros H. apply list_elem_of_In in H. vm_compute in H. intuition discriminate.
  - repeat apply Forall_cons_2; try apply Forall_nil_2; cbn [gwrites writes]; try tauto.
    change ((API_NDB + NDB_D_DSP_PAGE) / 2) with 0xD4. lia.
Defined.

(** ** The way of an immediate assignment *)

(** What the presentation of the access grant depends on. *)
Definition agch_view (g : G) :=
  (agch_buf g, agch_valid g, agch_tick g, tick g, d_task_d g, l1s_addr g, pending g).

Lemma open_once_agch w g path : agch_view (snd (open_once w g path)) = agch_view g.
Proof. unfold open_once. by destruct (fds g !! path). Qed.

Lemma publish_kc_agch w m g : agch_view (publish_kc w m g) = agch_view g.
Proof. unfold publish_kc, side. cbn zeta. by case_ifs. Qed.

Lemma tch_dl_poll_agch w g : agch_view (tch_dl_poll w g) = agch_view g.
Proof.
  unfold tch_dl_poll. rewrite <- (open_once_agch w g SHM_TCH_DL). destruct (open_once w g SHM_TCH_DL) as [ok g1].
  cbn [snd]. destruct (negb ok); [done|]. destruct (pread _ _ _ _) as [hdr|]; [|done]. cbn zeta. destruct (_ || _); [done|].
  unfold tch_dl_fetch. destruct (_ <? _); (destruct (_ <=? _); [done|]; cbn zeta;
    destruct (pread _ _ _ _); [by destruct (negb _)|done]).
Qed.

Lemma poll_tch_cfg_agch w g : agch_view (poll_tch_cfg w g) = agch_view g.
Proof.
  unfold poll_tch_cfg. rewrite <- (open_once_agch w g SHM_TCH_CFG). destruct (open_once w g SHM_TCH_CFG) as [ok g1].
  cbn [snd]. destruct (negb ok); [done|]. destruct (pread _ _ _ _) as [b|]; [|done]. cbn zeta.
  destruct (_ =? 0); [by destruct (tch_cfg_valid g1)|by destruct (_ =? _)].
Qed.

Lemma guard_agch g : agch_view (snd (dcch_si_guard g)) = agch_view g.
Proof. unfold dcch_si_guard. destruct (negb _); [done|]. by destruct (_ <? _). Qed.

Lemma rotate_agch g : agch_view (rotate_si g) = agch_view g.
Proof. unfold rotate_si. by destruct (rotate_from _ _ _ _). Qed.

Lemma background_agch w m g : agch_view (snd (background w m g)) = agch_view g.
Proof.
  unfold background. cbn zeta. pose proof (guard_agch g) as E.
  match goal with |- context [let '(idle, g) := ?e in _] => set (sel := e) end.
  assert (agch_view (snd sel) = agch_view g) as Es.
  { subst sel. destruct (_ && _); [|done]. by destruct (dcch_si_guard g). }
  destruct sel as [idle g1]. cbn [snd] in Es. destruct idle.
  - cbn [snd]. destruct (_ =? 0); [by rewrite rotate_agch|done].
  - pose proof (guard_agch g1) as E1. destruct (dcch_si_guard g1) as [gd g2]. cbn [snd] in E1.
    destruct (_ && _); cbn [snd]; congruence.
Qed.

(** The frames of the common channel where an access grant is presented. *)
Definition grant_window (tc : Z) : bool := ((6 <=? tc) && (tc <=? 9)) || ((12 <=? tc) && (tc <=? 19)).

Lemma dispatch_allc_grant w page m g :
  agch_valid g = true → u32 (tick g - agch_tick g) ≤ AGCH_TTL_TICKS → grant_window (tc51 (calypso_l1s_fn w g)) = true →
  dispatch_allc w page m g = (present_ccch w m g page (agch_buf g), g).
Proof.
  intros Hv Ht Hw. unfold dispatch_allc, allc_agch. rewrite Hv.
  destruct (Z.ltb_spec AGCH_TTL_TICKS (u32 (tick g - agch_tick g))); [lia|].
  cbn zeta. unfold grant_window in Hw. by rewrite Hw.
Qed.

(** A frame with the task posted presents the grant held. *)
Lemma frame_presents w m g :
  pending g = true → d_task_d g = ALLC_DSP_TASK → agch_valid g = true →
  u32 (u32 (tick g + 1) - agch_tick g) ≤ AGCH_TTL_TICKS → grant_window (tc51 (calypso_l1s_fn w g)) = true →
  awords (fst (calypso_l1_frame_tick w (m, g))) (api_ndb NDB_A_CD) 15 = [0; 0; 0] ++ l2_words (agch_buf g).
Proof.
  intros Hp Hd Hv Ht Hw. unfold calypso_l1_frame_tick.
  assert (agch_view (poll_tch_cfg w (tch_dl_poll w (publish_kc w m g))) = agch_view g) as E1
    by (by rewrite poll_tch_cfg_agch, tch_dl_poll_agch, publish_kc_agch).
  set (g1 := poll_tch_cfg w _) in *. clearbody g1.
  assert (agch_view (snd (if sb_valid g1 then background w m g1 else (m, g1))) = agch_view g) as E2
    by (destruct (sb_valid g1); [by rewrite background_agch|done]).
  destruct (if sb_valid g1 then _ else _) as [m2 g2]. cbn [snd] in E2. unfold agch_view in E2.
  injection E2 as V1 V2 V3 V4 V5 V6 V7. rewrite V7, Hp. cbn [negb].
  unfold tasks. cbn zeta. set (g3 := g2 <| tick := _ |>).
  assert (d_task_d g3 = ALLC_DSP_TASK) as -> by (cbn; congruence). rewrite Z.eqb_refl.
  rewrite dispatch_allc_grant.
  - cbn [fst]. change (agch_buf g3) with (agch_buf g2). rewrite V1. apply present_ccch_block.
  - cbn. congruence.
  - cbn. by rewrite V3, V4.
  - unfold calypso_l1s_fn in *. cbn. by rewrite V6.
Qed.

(** A read of the block by the ARM. *)
Lemma read_block_word c e w x k :
  own_l1 g_wf x → 0 ≤ k < 12 →
  fst (api_read (Some grgsm_ops) c e w x (API_NDB + NDB_A_CD + 6 + 2 * k) 2) =
    aget (api_ram (fst x)) (api_ndb NDB_A_CD + 3 + k).
Proof.
  intros Ho Hk. destruct x as [s g]. pose proof (ol_pont _ _ Ho) as Hp. cbn [fst] in Hp.
  unfold api_read. cbn [fst snd]. rewrite Hp. set (off := API_NDB + NDB_A_CD + 6 + 2 * k).
  assert (calypso_l1_read_override (world_of w s) g off = None ∧ is_rp off RP_D_TASK_D = false ∧
          is_rp off RP_D_BURST_D = false ∧ (off =? API_BL_STATUS) = false ∧ (CALYPSO_API_SIZE <=? off) = false ∧
          off / 2 = api_ndb NDB_A_CD + 3 + k) as (H1 & H2 & H3 & H4 & H5 & H6).
  { revert off. apply (range_split (λ k, let off := API_NDB + NDB_A_CD + 6 + 2 * k in _) 12 k); [lia|].
    forall_cases; (split; [unfold calypso_l1_read_override; cbn zeta; cbn; by destruct (negb _ || negb _)|done]). }
  rewrite H5. cbn [Z.eqb Pos.eqb negb]. unfold calypso_l1_do_api_read_override. cbn [mbind option_bind api_read_override grgsm_ops snd].
  rewrite H1. cbn [default]. unfold read_task_d, bl_poll. rewrite H2. cbn [fst snd]. rewrite H3, H4. cbn [andb fst].
  unfold api_val. cbn [Z.eqb Pos.eqb]. by rewrite H6.
Qed.

(** ** The datagram *)
Lemma pad23_id l2 : zlen l2 = 23 → pad23 l2 = l2.
Proof. intros H. unfold pad23, zlen in *. rewrite take_app_le by lia. apply take_ge. lia. Qed.

(** The frame number of the attempt the assignment answers: the firmware's own
    memory of it, else the last confirmation for that random reference. *)
Definition attempt_frame (w : World) (g : G) (l2 : list Z) : Z :=
  if negb (last_rach_fn w g =? 0) then last_rach_fn w g else rd (rach_conf_fn g) (rd l2 7).

Definition agch_header (hdr : list Z) : Prop :=
  zlen hdr = 16 ∧ rd hdr 2 = GSMTAP_TYPE_UM ∧ rd hdr 12 = GSMTAP_CHANNEL_AGCH.

Lemma imm_assign_datagram w g hdr l2 :
  agch_header hdr → zlen l2 = 23 → rd l2 1 = 0x06 → rd l2 2 = 0x3f → attempt_frame w g l2 ≠ 0 →
  gsmtap_datagram w g (hdr ++ l2) =
    g <| agch_buf := rewrite_ref l2 (attempt_frame w g l2) |> <| agch_valid := true |> <| agch_tick := tick g |>.
Proof.
  intros (H1 & H2 & H3) Hl E1 E2 Hm. unfold gsmtap_datagram.
  assert (zlen (hdr ++ l2) = 39) as -> by (unfold zlen in *; rewrite length_app; lia).
  rewrite !rd_app_l, H2, H3 by lia.
  assert (drop 16 (hdr ++ l2) = l2) as -> by (apply drop_app_length'; unfold zlen in *; lia).
  change (39 <? GSMTAP_HDR_LEN + 3) with false. rewrite E1, E2. cbn [Z.eqb Pos.eqb negb andb orb].
  change (GSMTAP_TYPE_UM =? GSMTAP_TYPE_UM) with true. change (GSMTAP_CHANNEL_AGCH =? GSMTAP_CHANNEL_BCCH) with false.
  change (GSMTAP_CHANNEL_AGCH =? GSMTAP_CHANNEL_AGCH) with true. cbn [negb].
  unfold feed_agch. rewrite E2, Hl. change (is_imm 0x3f) with true. cbn [negb andb Z.eqb Pos.eqb].
  change (10 <=? Z.min 23 23) with true. cbn [andb]. rewrite pad23_id by done. cbn zeta. fold (attempt_frame w g l2).
  apply Z.eqb_neq in Hm. by rewrite Hm.
Qed.

(** The words of the block with the reference rewritten. *)
Lemma rewrite_ref_words l2 memo :
  block 23 l2 →
  rd (l2_words (rewrite_ref l2 memo)) 4 = reqref memo ∧
  ∀ k, 0 ≤ k < 12 → k ≠ 4 → rd (l2_words (rewrite_ref l2 memo)) k = rd (l2_words l2) k.
Proof.
  intros [Hl Hb]. unfold l2_words. split.
  - rewrite rd_fmap_zseq by lia. change (2 * 4) with 8. change (8 + 1 <? 23) with true. cbn iota.
    unfold rewrite_ref, reqref. cbn zeta. set (b8 := u8 (Z.lor (Z.shiftl _ 3) _)). set (b9 := u8 (Z.lor (Z.shiftl _ 5) _)).
    rewrite (rd_wr_ne _ 9 8), (rd_wr_eq _ 8) by (unfold zlen, wr in *; rewrite ?length_insert; lia).
    rewrite (rd_wr_eq _ 9) by (unfold zlen, wr in *; rewrite ?length_insert; lia).
    symmetry. apply u16_small. apply word16; apply u8_range.
  - intros k Hk Hne. rewrite !rd_fmap_zseq by lia. unfold rewrite_ref. cbn zeta.
    rewrite !rd_wr_ne by lia. done.
Qed.

Lemma rd_awords m a n k : 0 ≤ k < Z.of_nat n → rd (awords m a n) k = aget m (a + k).
Proof.
  intros H. unfold rd, awords. rewrite list_lookup_fmap, lookup_zseq by lia. cbn. unfold id. f_equal. lia.
Qed.

(** ** A grant held from its datagram to its frame *)

(** The layer 1 holds the block [blk] since its frame [t0], at most [n] frames ago. *)
Record holds (blk : list Z) (t0 n : Z) (g : G) : Prop := mkHolds {
  ho_buf : agch_buf g = blk;
  ho_valid : agch_valid g = true;
  ho_tick : agch_tick g = t0;
  ho_age : u32 (tick g - t0) ≤ n
}.

Definition grant_view (g : G) := (agch_buf g, agch_valid g, agch_tick g, tick g).

Lemma holds_view blk t0 n g g' : grant_view g' = grant_view g → holds blk t0 n g → holds blk t0 n g'.
Proof. intros [= E1 E2 E3 E4] []. constructor; by rewrite ?E1, ?E2, ?E3, ?E4. Qed.

Lemma holds_fresh blk t0 n g : holds blk t0 n g → n ≤ AGCH_TTL_TICKS → u32 (tick g - agch_tick g) ≤ AGCH_TTL_TICKS.
Proof. intros [_ _ -> Ht] Hn. lia. Qed.

(** The operations that do not touch it. *)
Lemma open_once_grant w g path : grant_view (snd (open_once w g path)) = grant_view g.
Proof. unfold open_once. by destruct (fds g !! path). Qed.
Lemma side_grant g ok path off b : grant_view (side g ok path off b) = grant_view g.
Proof. unfold side. by destruct ok. Qed.

Lemma publish_l2_grant w g path l2 u : grant_view (publish_l2 w g path l2 u) = grant_view g.
Proof.
  unfold publish_l2. rewrite <- (open_once_grant w g path). destruct (open_once w g path) as [ok g1]. cbn zeta. by rewrite side_grant.
Qed.
Lemma publish_speech_grant w g fr : grant_view (publish_speech w g fr) = grant_view g.
Proof.
  unfold publish_speech. rewrite <- (open_once_grant w g SHM_TCH_UL). destruct (open_once w g SHM_TCH_UL) as [ok g1]. cbn zeta.
  rewrite !side_grant. destruct (negb _); [|done]. cbn [snd]. by rewrite <- (side_grant g1 ok SHM_TCH_UL 0 (le32 0 ++ le32 TCH_UL_SLOTS)).
Qed.

Lemma capture_tch_grant w m g u x : capture_tch_ul w m g u = Some x → grant_view (snd x) = grant_view g.
Proof.
  unfold capture_tch_ul. cbn zeta. repeat case_if; try done; intros H.
  - destruct (take_ul m NDB_A_FU 23) as [l2 m1], (take_ul m1 NDB_A_DU_1 33) as [fr m2]. simplify_eq. cbn [snd].
    destruct fr, l2; by rewrite ?publish_speech_grant, ?publish_l2_grant.
  - destruct (take_ul m NDB_A_CU 23) as [l2 m1]. simplify_eq. cbn [snd]. destruct l2; by rewrite ?publish_l2_grant.
  - by simplify_eq.
Qed.
Lemma capture_sdcch_grant w m g u : grant_view (capture_sdcch_ul w m g u) = grant_view g.
Proof. unfold capture_sdcch_ul. cbn zeta. case_if; [done|]. case_if; [done|]. by rewrite publish_l2_grant. Qed.

(** A write of the page register other than the reset. *)
Lemma page_written_grant w m g v : v ≠ 0 → grant_view (snd (calypso_l1_page_written w m g v)) = grant_view g.
Proof.
  intros Hv. unfold calypso_l1_page_written. destruct (negb (has v B_GSM_TASK)).
  { rewrite (proj2 (Z.eqb_neq _ _) Hv). done. }
  cbn zeta. set (g1 := if dcch_guard_armed _ && _ then _ else _). assert (grant_view g1 = grant_view g) as E by (subst g1; by case_if).
  clearbody g1. case_if; [|done]. destruct (capture_tch_ul _ _ _ _) eqn:Ec; [by rewrite (capture_tch_grant _ _ _ _ _ Ec)|].
  cbn [snd]. by rewrite capture_sdcch_grant.
Qed.

Lemma rach_written_grant w g v f : grant_view (calypso_l1_rach_written w g v f) = grant_view g.
Proof.
  unfold calypso_l1_rach_written. rewrite <- (open_once_grant w g SHM_RACH). destruct (open_once w g SHM_RACH) as [ok g1]. cbn zeta.
  rewrite <- (side_grant g1 ok SHM_RACH 0 []) at 1. unfold side. by destruct ok.
Qed.

Lemma tap_grant g ch : grant_view (tap_tx_byte g ch) = grant_view g.
Proof.
  unfold tap_tx_byte. cbn zeta. set (l := drop _ _). set (g1 := g <| tap := _ |>). change (grant_view g) with (grant_view g1).
  clearbody g1 l. revert g1. induction l as [|ev l IH]; intros g1; [done|]. cbn [foldl]. rewrite IH.
  destruct ev; try done. cbn [apply_tap]. unfold calypso_l1_dcch_set. cbn zeta. by case_if.
Qed.

Lemma sch_grant w g buf : grant_view (snd (sch_datagram w g buf)) = grant_view g.
Proof. unfold sch_datagram. by destruct (_ || _). Qed.

(** A datagram that is no immediate assignment does not displace one. *)
Lemma gsmtap_grant w blk t0 n g buf :
  n ≤ AGCH_TTL_TICKS → is_imm (rd blk 2) = true → is_imm (rd (drop 16 buf) 2) = false →
  holds blk t0 n g → holds blk t0 n (gsmtap_datagram w g buf).
Proof.
  intros Hn Hb Hi H. pose proof (holds_fresh _ _ _ _ H Hn) as Hf. unfold gsmtap_datagram. cbn zeta.
  repeat (case_if; [try exact H|]); try exact H.
  - apply (holds_view blk t0 n g); [|done]. unfold feed_si. cbn zeta. by repeat case_if.
  - unfold feed_agch. rewrite Hi, (ho_valid _ _ _ _ H), (ho_buf _ _ _ _ H), Hb, (proj2 (Z.leb_le _ _) Hf). exact H.
  - apply (holds_view blk t0 n g); [|done]. unfold feed_sdcch. cbn zeta. by repeat case_if.
  - apply (holds_view blk t0 n g); [|done]. unfold feed_sacch. by case_if.
  - by apply (holds_view blk t0 n g).
  - by apply (holds_view blk t0 n g).
Qed.

(** ** The frames before its own *)
Lemma allc_ring_grant fuel w lo hi p m g : grant_view (allc_ring fuel w lo hi p m g).2 = grant_view g.
Proof.
  revert g. induction fuel as [|fuel IH]; intros g; [done|]. cbn [allc_ring]. case_if; [done|]. cbn zeta. case_if; [by rewrite IH|].
  case_if; [done|]. cbn [snd]. by repeat case_if.
Qed.

Lemma dispatch_allc_grant_view w p m g :
  u32 (tick g - agch_tick g) ≤ AGCH_TTL_TICKS → grant_view (snd (dispatch_allc w p m g)) = grant_view g.
Proof.
  intros Hf. unfold dispatch_allc.
  assert ((allc_agch w p m g).2 = g) as E.
  { unfold allc_agch. destruct (agch_valid g); [|done]. rewrite (proj2 (Z.ltb_ge _ _) Hf). cbn zeta. by case_if. }
  destruct (allc_agch w p m g) as [[ret m1] g1]. cbn [snd] in E. subst g1. destruct ret; [done|]. cbn zeta.
  match goal with |- context [allc_ring ?f w ?lo ?hi p m1 g] => pose proof (allc_ring_grant f w lo hi p m1 g) as Er;
    destruct (allc_ring f w lo hi p m1 g) as [[ret m2] g2] end.
  cbn [snd] in Er. destruct ret; [done|]. set (g3 := if _ =? _ then _ else g2).
  assert (grant_view g3 = grant_view g) as E3 by (subst g3; by case_if). clearbody g3.
  case_if; [done|]. case_if; [done|]. unfold allc_si. cbn zeta. set (g4 := if d_burst_d g3 =? 0 then _ else g3).
  assert (grant_view g4 = grant_view g) as E4.
  { subst g4. case_if; [|done]. rewrite <- E3. unfold rotate_si. by destruct (rotate_from _ _ _ _). }
  clearbody g4. by case_if.
Qed.

Lemma dispatch_tch_grant w m g : grant_view (snd (dispatch_tch_dl w m g)) = grant_view g.
Proof.
  unfold dispatch_tch_dl. assert (∀ m, grant_view (snd (tch_dl_speech m g)) = grant_view g) as E.
  { intros m1. unfold tch_dl_speech. case_if; [done|]. cbn zeta. by case_if. }
  specialize (E (tch_serv_demod w m g)). destruct (tch_dl_speech (tch_serv_demod w m g) g) as [m1 g1]. cbn [snd] in E. by case_if.
Qed.

Lemma tasks_grant w m blk t0 n g :
  n + 1 ≤ AGCH_TTL_TICKS → holds blk t0 n g → holds blk t0 (n + 1) (snd (tasks w m g)).
Proof.
  intros Hn [E1 E2 E3 E4]. unfold tasks. cbn zeta. set (g1 := g <| tick := _ |>).
  assert (holds blk t0 (n + 1) g1) as H1.
  { constructor; try done. unfold g1, AGCH_TTL_TICKS in *. cbn [tick update_field]. unfold u32 in *. mlia. }
  clearbody g1. match goal with |- context [let '(m, g) := if ?b then dispatch_allc w ?p ?m1 g1 else _ in _] =>
    assert (holds blk t0 (n + 1) (snd (if b then dispatch_allc w p m1 g1 else (m1, g1)))) as H2;
    [destruct b; [|done]; apply (holds_view blk t0 (n + 1) g1); [apply dispatch_allc_grant_view, (holds_fresh _ _ _ _ H1); lia|done]|];
    destruct (if b then dispatch_allc w p m1 g1 else (m1, g1)) as [m2 g2] end.
  cbn [snd] in H2. repeat case_if.
  - pose proof (dispatch_tch_grant w m2 g2) as Ed. destruct (dispatch_tch_dl w m2 g2) as [m3 g3]. by apply (holds_view _ _ _ g2).
  - unfold dispatch_tch_sacch. case_if; by apply (holds_view _ _ _ g2).
  - by apply (holds_view _ _ _ g2).
Qed.

Lemma frame_tick_grant w x blk t0 n :
  n + 1 ≤ AGCH_TTL_TICKS → holds blk t0 n (snd x) → holds blk t0 (n + 1) (snd (calypso_l1_frame_tick w x)).
Proof.
  intros Hn H. destruct x as [m g]. unfold calypso_l1_frame_tick. cbn [snd] in H.
  assert (agch_view (poll_tch_cfg w (tch_dl_poll w (publish_kc w m g))) = agch_view g) as V1
    by (by rewrite poll_tch_cfg_agch, tch_dl_poll_agch, publish_kc_agch).
  set (g1 := poll_tch_cfg w _) in *. clearbody g1.
  assert (agch_view (snd (if sb_valid g1 then background w m g1 else (m, g1))) = agch_view g) as V2
    by (destruct (sb_valid g1); [by rewrite background_agch|done]).
  destruct (if sb_valid g1 then _ else _) as [m2 g2]. cbn [snd] in V2.
  assert (holds blk t0 n g2) as H2 by (apply (holds_view _ _ _ g); [unfold agch_view, grant_view in *; congruence|done]).
  destruct (negb (pending g2)); [|by apply tasks_grant]. cbn [snd].
  destruct H2. constructor; done || lia.
Qed.

(** ** The events before its own frame *)

(** No reset of the layer 1 and no other immediate assignment. *)
Definition grant_safe (o : gop) : Prop :=
  match o with
  | GMachine (MWrite _ off v size) => off = API_NDB + NDB_D_DSP_PAGE → size = 2 → u16 v ≠ 0
  | GGsmtap _ buf => is_imm (rd (drop 16 buf) 2) = false
  | _ => True
  end.

(** The ends of the frame pulse among the events. *)
Definition pulse (o : gop) : bool := match o with GMachine (MPulseEnd _ _) => true | _ => false end.
Fixpoint pulses (ops : list gop) : Z := match ops with [] => 0 | o :: ops => (if pulse o then 1 else 0) + pulses ops end.

Lemma via_l1_snd f w (x : CalypsoTRX * G) : snd (via_l1 f w x) = snd (f (world_of w (fst x)) (api_ram (fst x), snd x)).
Proof. unfold via_l1. by destruct (f _ _). Qed.

Lemma api_read_snd c e w (x : CalypsoTRX * G) off size : snd (snd (api_read (Some grgsm_ops) c e w x off size)) = snd x.
Proof.
  unfold api_read. case_if; [done|]. case_if; [done|]. cbn zeta. destruct (pont (fst x)); [by destruct (api_read_pont _ _ _ _ _)|].
  cbn [calypso_l1_do_api_read_override mbind option_bind api_read_override grgsm_ops snd].
  match goal with |- context [read_task_d ?l ?y off ?v] => destruct (read_task_d l y off v) as [v1 s1] end. by destruct (bl_poll _ _ _).
Qed.

Lemma api_write_grant c w (x : CalypsoTRX * G) off v size :
  (off = API_NDB + NDB_D_DSP_PAGE → size = 2 → u16 v ≠ 0) →
  grant_view (snd (api_write (Some grgsm_ops) c w x off v size)) = grant_view (snd x).
Proof.
  intros Hs. unfold api_write. case_if; [done|]. destruct x as [s g]. cbn zeta. cbn [snd].
  set (s1 := if _ && has_twl3025 c then _ else _). set (x1 := if size =? 2 then _ else (s1, g)).
  assert (snd x1 = g) as E1 by (subst x1; case_if; [by rewrite via_l1_snd|done]). clearbody x1. clear s1.
  set (x2 := if _ && _ then burst_written_hook _ w x1 v else x1).
  assert (grant_view (snd x2) = grant_view g) as E2.
  { subst x2. case_if; [|by rewrite E1]. unfold burst_written_hook. destruct x1 as [s1 g1]. cbn zeta. rewrite via_l1_snd. cbn in *. by rewrite E1. }
  clearbody x2. set (x3 := if _ && _ && _ then rach_written_hook _ w x2 v else x2).
  assert (grant_view (snd x3) = grant_view g) as E3.
  { subst x3. case_if; [|done]. unfold rach_written_hook. cbn zeta. rewrite via_l1_snd. cbn [snd]. rewrite <- E2. apply rach_written_grant. }
  clearbody x3. set (x4 := if _ && _ then page_written_hook _ w x3 v else x3).
  assert (grant_view (snd x4) = grant_view g) as E4.
  { subst x4. case_if; [|done]. bool_prop. unfold page_written_hook. rewrite via_l1_snd. cbn [snd]. rewrite <- E3. apply page_written_grant. auto. }
  clearbody x4. by case_if.
Qed.

Lemma gstep_grant shm_ok c blk t0 n x o :
  n + (if pulse o then 1 else 0) ≤ AGCH_TTL_TICKS → is_imm (rd blk 2) = true → grant_safe o →
  holds blk t0 n (snd x) → holds blk t0 (n + (if pulse o then 1 else 0)) (snd (gstep shm_ok c x o)).
Proof.
  intros Hn Hb Hs H. destruct o as [[e|e w|e w off size|w off v size|e off v|f|genre ss tn|f]|w buf|w buf|ch];
    cbn [pulse gstep mstep snd grant_safe] in *; rewrite ?Z.add_0_r in *; try exact H.
  - unfold frame_irq_lower. set (s1 := emit _ _ <| frame_irq_timer := None |>).
    pose proof (via_l1_snd (calypso_l1_do_frame_tick (Some grgsm_ops)) w (s1, snd x)) as E.
    destruct (via_l1 _ w (s1, snd x)) as [s2 g2]. cbn [snd] in E |- *. rewrite E. by apply frame_tick_grant.
  - by rewrite api_read_snd.
  - apply (holds_view _ _ _ (snd x)); [by apply api_write_grant|done].
  - by apply gsmtap_grant.
  - pose proof (sch_grant w (snd x) buf) as E. destruct (sch_datagram w (snd x) buf) as [f g]. by apply (holds_view _ _ _ (snd x)).
  - apply (holds_view _ _ _ (snd x)); [apply tap_grant|done].
Qed.

Lemma grun_grant shm_ok c blk t0 ops : ∀ n x,
  n + pulses ops ≤ AGCH_TTL_TICKS → is_imm (rd blk 2) = true → Forall grant_safe ops →
  holds blk t0 n (snd x) → holds blk t0 (n + pulses ops) (snd (run (gstep shm_ok c) x ops)).
Proof.
  induction ops as [|o ops IH]; intros n x Hn Hb Hs H; cbn [pulses] in *; [by rewrite Z.add_0_r|].
  assert (∀ l, 0 ≤ pulses l) as P by (induction l as [|o' l IHl]; cbn [pulses]; [lia|destruct (pulse o'); lia]).
  specialize (P ops). apply Forall_cons_1 in Hs as [Hs1 Hs]. rewrite Z.add_assoc in *. cbn [run foldl].
  apply IH; [done|done|done|]. apply gstep_grant; [lia|done|done|done].
Qed.

(** The memory after the frame that presents the grant. *)
Lemma pulse_presents e w x blk t0 n :
  own_l1 g_wf x → holds blk t0 n (snd x) → n + 1 ≤ AGCH_TTL_TICKS →
  pending (snd x) = true → d_task_d (snd x) = ALLC_DSP_TASK → grant_window (tc51 (calypso_l1s_fn w (snd x))) = true →
  awords (api_ram (fst (frame_irq_lower (Some grgsm_ops) e w x))) (api_ndb NDB_A_CD) 15 = [0; 0; 0] ++ l2_words blk.
Proof.
  intros Ho [E1 E2 E3 E4] Hn Hp Hd Hg. destruct x as [s g]. cbn [snd] in *.
  transitivity (awords (fst (calypso_l1_frame_tick (world_of w s) (api_ram s, g))) (api_ndb NDB_A_CD) 15).
  - f_equal. unfold frame_irq_lower, via_l1. cbn [fst snd calypso_l1_do_frame_tick mbind option_bind frame_tick grgsm_ops].
    change (world_of w (emit s _ <| frame_irq_timer := None |>)) with (world_of w s).
    change (api_ram (emit s _ <| frame_irq_timer := None |>)) with (api_ram s).
    destruct (calypso_l1_frame_tick (world_of w s) (api_ram s, g)) as [m l]. cbn [fst].
    unfold cpu_idle_park. destruct (cpu e) as [[pc cpsr]|]; [|done]. destruct (_ || _); [done|]. by destruct (_ || _).
  - rewrite frame_presents, E1; try done. rewrite E3. unfold u32, AGCH_TTL_TICKS in *. mlia.
Qed.

Lemma rewrite_ref_mt l2 memo : rd (rewrite_ref l2 memo) 2 = rd l2 2.
Proof. unfold rewrite_ref. cbn zeta. by rewrite !rd_wr_ne by lia. Qed.

(** C8: an immediate assignment reaches the mobile with the reference of its own
    attempt.  After the datagram of the demodulator, whatever the machine does
    for less than 100 ends of the frame pulse (ticks, accesses of the ARM, its
    posting of tasks, other datagrams, bytes of the L1CTL link), short of another
    immediate assignment and of a reset of the layer 1, the end of a frame pulse
    that finds the common-channel task posted, in a frame where grants are sent,
    puts the block where the firmware reads it; the ARM then reads the words of
    the block through the window unchanged, but for octets 8 and 9, which give
    the frame of its attempt: the one the mobile memorised, or else the one the
    last confirmation for that random reference told (one of them must be
    known). *)
Theorem assignment_delivered shm_ok c e e' w w2 w3 x hdr l2 ops :
  own_l1 g_wf x → agch_header hdr → block 23 l2 → rd l2 1 = 0x06 → rd l2 2 = 0x3f → attempt_frame w (snd x) l2 ≠ 0 →
  Forall gop_ok ops → Forall grant_safe ops → pulses ops < AGCH_TTL_TICKS →
  let x1 := run (gstep shm_ok c) (fst x, gsmtap_datagram w (snd x) (hdr ++ l2)) ops in
  host_ok w2 → pending (snd x1) = true → d_task_d (snd x1) = ALLC_DSP_TASK →
  grant_window (tc51 (calypso_l1s_fn w2 (snd x1))) = true →
  let x2 := frame_irq_lower (Some grgsm_ops) e w2 x1 in
  let read k := fst (api_read (Some grgsm_ops) c e' w3 x2 (API_NDB + NDB_A_CD + 6 + 2 * k) 2) in
  read 4 = reqref (attempt_frame w (snd x) l2) ∧ ∀ k, 0 ≤ k < 12 → k ≠ 4 → read k = rd (l2_words l2) k.
Proof.
  intros Ho Hh Hb E1 E2 Hm Hops Hsafe Hn x1 Hw2 Hp Hd Hg x2 read. set (blk := rewrite_ref l2 (attempt_frame w (snd x) l2)).
  pose proof (imm_assign_datagram w (snd x) hdr l2 Hh (proj1 Hb) E1 E2 Hm) as Eg. fold blk in Eg.
  assert (own_l1 g_wf (fst x, gsmtap_datagram w (snd x) (hdr ++ l2))) as Ho1.
  { destruct Ho as [? ? ? [? Hgw]]. constructor; try done. split; [done|]. cbn [snd] in *. rewrite Eg.
    assert (block 23 blk) by (by apply rewrite_ref_block). clearbody blk. wf_step. }
  assert (holds blk (tick (snd x)) 0 (gsmtap_datagram w (snd x) (hdr ++ l2))) as H0.
  { rewrite Eg. constructor; try done. cbn [tick update_field]. by rewrite Z.sub_diag. }
  assert (own_l1 g_wf x1) as Hx1.
  { subst x1. rewrite expand_run. apply (run_invariant (wstep (Some grgsm_ops) shm_ok c) (wop_ok g_wf)); [|done|].
    - intros y o Hy Ho'. by apply (wstep_kept (Some grgsm_ops) g_wf ltac:(intros ? [= <-]; apply grgsm_laws) shm_ok c y o).
    - apply Forall_concat, Forall_fmap. eapply Forall_impl; [|exact Hops]. exact expand_ok. }
  assert (own_l1 g_wf x2) as Hx2 by (apply (pulse_end_kept (Some grgsm_ops) g_wf); [intros ? [= <-]; apply grgsm_laws|done|done]).
  pose proof (grun_grant shm_ok c blk (tick (snd x)) ops 0 (fst x, gsmtap_datagram w (snd x) (hdr ++ l2))
    ltac:(lia) ltac:(unfold blk; by rewrite rewrite_ref_mt, E2) Hsafe H0) as H1.
  fold x1 in H1. pose proof (pulse_presents e w2 x1 blk _ _ Hx1 H1 ltac:(lia) Hp Hd Hg) as Ea. fold x2 in Ea.
  assert (∀ k, 0 ≤ k < 12 → read k = rd (l2_words blk) k) as Hr.
  { intros k Hk. unfold read. rewrite read_block_word by done.
    pose proof (rd_awords (api_ram (fst x2)) (api_ndb NDB_A_CD) 15 (3 + k) ltac:(lia)) as R. rewrite Ea in R.
    replace (api_ndb NDB_A_CD + 3 + k) with (api_ndb NDB_A_CD + (3 + k)) by lia. rewrite <- R.
    unfold rd. rewrite lookup_app_r by (cbn; lia). do 2 f_equal. cbn. lia. }
  destruct (rewrite_ref_words l2 (attempt_frame w (snd x) l2) Hb) as [R1 R2].
  split; [by rewrite Hr by lia|]. intros k Hk Hne. rewrite Hr by done. by apply R2.
Qed.

(** A mobile that attempted at frame 1234; the ARM posts the task after the
    datagram, in the fourteenth frame of the cycle. *)
Definition grant_world : World :=
  mkWorld 0 TRF6151.trf_init (λ a, if a =? 0x812000 then 1234 else 14) (λ _, None) (λ _, false) (λ _, true).
Definition grant_g : G := g_zero <| l1s_addr := 0x811000 |> <| last_rach_addr := 0x812000 |>.
Definition grant_hdr : list Z := [2; 4; 1] ++ replicate 9 0 ++ [4; 0; 0; 0].
Definition grant_l2 : list Z := [0x2d; 0x06; 0x3f; 0; 0x52; 0xf0; 0xab; 0x17; 0; 0] ++ replicate 13 0x2B.
Definition grant_ops : list gop :=
  [GMachine (MTick (env_with RxNone 0)); GMachine (MPulseEnd (env_with RxNone 0) grant_world);
   GMachine (MWrite grant_world (API_W_PAGE 0 + WP_D_TASK_D) ALLC_DSP_TASK 2);
   GMachine (MWrite grant_world (API_NDB + NDB_D_DSP_PAGE) B_GSM_TASK 2); GMachine (MTick (env_with RxNone 0))].

Lemma assignment_delivered_witness :
  let x1 := run (gstep None cfg_lockstep) (trx_init_own trx_new, gsmtap_datagram grant_world grant_g (grant_hdr ++ grant_l2)) grant_ops in
  let x2 := frame_irq_lower (Some grgsm_ops) (env_with RxNone 0) grant_world x1 in
  let read k := fst (api_read (Some grgsm_ops) cfg_lockstep (env_with RxNone 0) grant_world x2
                       (API_NDB + NDB_A_CD + 6 + 2 * k) 2) in
  read 4 = reqref 1234 ∧ ∀ k, 0 ≤ k < 12 → k ≠ 4 → read k = rd (l2_words grant_l2) k.
Proof.
  assert (host_ok grant_world) as Hw by (split; cbn; [intros a; destruct (_ =? _); lia|done]).
  apply (assignment_delivered None cfg_lockstep (env_with RxNone 0) (env_with RxNone 0) grant_world grant_world grant_world
           (trx_init_own trx_new, grant_g) grant_hdr grant_l2 grant_ops).
  - constructor; [reflexivity|reflexivity|vm_compute; split; congruence|]. split.
    + unfold trx_init_own. cbn [api_ram update_field fst]. repeat apply api_ok_aset; [apply api_ok_empty|split; vm_compute; congruence..].
    + apply (g_wf_view g_zero); [reflexivity|apply g_zero_wf].
  - repeat split; reflexivity.
  - split; [reflexivity|]. apply (bool_decide_unpack _). vm_compute. exact I.
  - reflexivity.
  - reflexivity.
  - vm_compute. discriminate.
  - repeat apply Forall_cons_2; try apply Forall_nil_2; cbn [gop_ok wop_ok]; try done;
      (split; [done|]; split; [split; [by right; left|]; split; [vm_compute; discriminate|split; [reflexivity|vm_compute; discriminate]]|]);
      vm_compute; split; congruence.
  - repeat apply Forall_cons_2; try apply Forall_nil_2; cbn [grant_safe]; done.
  - reflexivity.
  - exact Hw.
  - vm_compute. reflexivity.
  - vm_compute. reflexivity.
  - vm_compute. reflexivity.
Defined.
End GRGSM_TRX.
