(* ===== verification/Comp128.v ===== *)
(** * COMP128v1 ([calypso_comp128.c])

    The authentication algorithm the SIM card runs: eight rounds of a
    compression of 32 bytes into 32 nibbles by five table look-ups ("butterfly"
    passes), each but the last followed by a permutation of the 128 bits.  The
    tables are those of the source. *)
From S2P Require Import Prelude.

Module COMP128.

Definition table_0 : list Z :=
  [
   102; 177; 186; 162;   2; 156; 112;  75;  55;  25;   8;  12; 251; 193; 246; 188;
   109; 213; 151;  53;  42;  79; 191; 115; 233; 242; 164; 223; 209; 148; 108; 161;
   252;  37; 244;  47;  64; 211;   6; 237; 185; 160; 139; 113;  76; 138;  59;  70;
    67;  26;  13; 157;  63; 179; 221;  30; 214;  36; 166;  69; 152; 124; 207; 116;
   247; 194;  41;  84;  71;   1;  49;  14;  95;  35; 169;  21;  96;  78; 215; 225;
   182; 243;  28;  92; 201; 118;   4;  74; 248; 128;  17;  11; 146; 132; 245;  48;
   149;  90; 120;  39;  87; 230; 106; 232; 175;  19; 126; 190; 202; 141; 137; 176;
   250;  27; 101;  40; 219; 227;  58;  20;  51; 178;  98; 216; 140;  22;  32; 121;
    61; 103; 203;  72;  29; 110;  85; 212; 180; 204; 150; 183;  15;  66; 172; 196;
    56; 197; 158;   0; 100;  45; 153;   7; 144; 222; 163; 167;  60; 135; 210; 231;
   174; 165;  38; 249; 224;  34; 220; 229; 217; 208; 241;  68; 206; 189; 125; 255;
   239;  54; 168;  89; 123; 122;  73; 145; 117; 234; 143;  99; 129; 200; 192;  82;
   104; 170; 136; 235;  93;  81; 205; 173; 236;  94; 105;  52;  46; 228; 198;   5;
    57; 254;  97; 155; 142; 133; 199; 171; 187;  50;  65; 181; 127; 107; 147; 226;
   184; 218; 131;  33;  77;  86;  31;  44;  88;  62; 238;  18;  24;  43; 154;  23;
    80; 159; 134; 111;   9; 114;   3;  91;  16; 130;  83;  10; 195; 240; 253; 119;
   177; 102; 162; 186; 156;   2;  75; 112;  25;  55;  12;   8; 193; 251; 188; 246;
   213; 109;  53; 151;  79;  42; 115; 191; 242; 233; 223; 164; 148; 209; 161; 108;
    37; 252;  47; 244; 211;  64; 237;   6; 160; 185; 113; 139; 138;  76;  70;  59;
    26;  67; 157;  13; 179;  63;  30; 221;  36; 214;  69; 166; 124; 152; 116; 207;
   194; 247;  84;  41;   1;  71;  14;  49;  35;  95;  21; 169;  78;  96; 225; 215;
   243; 182;  92;  28; 118; 201;  74;   4; 128; 248;  11;  17; 132; 146;  48; 245;
    90; 149;  39; 120; 230;  87; 232; 106;  19; 175; 190; 126; 141; 202; 176; 137;
    27; 250;  40; 101; 227; 219;  20;  58; 178;  51; 216;  98;  22; 140; 121;  32;
   103;  61;  72; 203; 110;  29; 212;  85; 204; 180; 183; 150;  66;  15; 196; 172;
   197;  56;   0; 158;  45; 100;   7; 153; 222; 144; 167; 163; 135;  60; 231; 210;
   165; 174; 249;  38;  34; 224; 229; 220; 208; 217;  68; 241; 189; 206; 255; 125;
    54; 239;  89; 168; 122; 123; 145;  73; 234; 117;  99; 143; 200; 129;  82; 192;
   170; 104; 235; 136;  81;  93; 173; 205;  94; 236;  52; 105; 228;  46;   5; 198;
   254;  57; 155;  97; 133; 142; 171; 199;  50; 187; 181;  65; 107; 127; 226; 147;
   218; 184;  33; 131;  86;  77;  44;  31;  62;  88;  18; 238;  43;  24;  23; 154;
   159;  80; 111; 134; 114;   9;  91;   3; 130;  16;  10;  83; 240; 195; 119; 253 ].

Definition table_1 : list Z :=
  [
    19;  11;  80; 114;  43;   1;  69;  94;  39;  18; 127; 117;  97;   3;  85;  43;
    27; 124;  70;  83;  47;  71;  63;  10;  47;  89;  79;   4;  14;  59;  11;   5;
    35; 107; 103;  68;  21;  86;  36;  91;  85; 126;  32;  50; 109;  94; 120;   6;
    53;  79;  28;  45;  99;  95;  41;  34;  88;  68;  93;  55; 110; 125; 105;  20;
    90;  80;  76;  96;  23;  60;  89;  64; 121;  56;  14;  74; 101;   8;  19;  78;
    76;  66; 104;  46; 111;  50;  32;   3;  39;   0;  58;  25;  92;  22;  18;  51;
    57;  65; 119; 116;  22; 109;   7;  86;  59;  93;  62; 110;  78;  99;  77;  67;
    12; 113;  87;  98; 102;   5;  88;  33;  38;  56;  23;   8;  75;  45;  13;  75;
    95;  63;  28;  49; 123; 120;  20; 112;  44;  30;  15;  98; 106;   2; 103;  29;
    82; 107;  42; 124;  24;  30;  41;  16; 108; 100; 117;  40;  73;  40;   7; 114;
    82; 115;  36; 112;  12; 102; 100;  84;  92;  48;  72;  97;   9;  54;  55;  74;
   113; 123;  17;  26;  53;  58;   4;   9;  69; 122;  21; 118;  42;  60;  27;  73;
   118; 125;  34;  15;  65; 115;  84;  64;  62;  81;  70;   1;  24; 111; 121;  83;
   104;  81;  49; 127;  48; 105;  31;  10;   6;  91;  87;  37;  16;  54; 116; 126;
    31;  38;  13;   0;  72; 106;  77;  61;  26;  67;  46;  29;  96;  37;  61;  52;
   101;  17;  44; 108;  71;  52;  66;  57;  33;  51;  25;  90;   2; 119; 122;  35 ].

Definition table_2 : list Z :=
  [
    52;  50;  44;   6;  21;  49;  41;  59;  39;  51;  25;  32;  51;  47;  52;  43;
    37;   4;  40;  34;  61;  12;  28;   4;  58;  23;   8;  15;  12;  22;   9;  18;
    55;  10;  33;  35;  50;   1;  43;   3;  57;  13;  62;  14;   7;  42;  44;  59;
    62;  57;  27;   6;   8;  31;  26;  54;  41;  22;  45;  20;  39;   3;  16;  56;
    48;   2;  21;  28;  36;  42;  60;  33;  34;  18;   0;  11;  24;  10;  17;  61;
    29;  14;  45;  26;  55;  46;  11;  17;  54;  46;   9;  24;  30;  60;  32;   0;
    20;  38;   2;  30;  58;  35;   1;  16;  56;  40;  23;  48;  13;  19;  19;  27;
    31;  53;  47;  38;  63;  15;  49;   5;  37;  53;  25;  36;  63;  29;   5;   7 ].

Definition table_3 : list Z :=
  [
     1;   5;  29;   6;  25;   1;  18;  23;  17;  19;   0;   9;  24;  25;   6;  31;
    28;  20;  24;  30;   4;  27;   3;  13;  15;  16;  14;  18;   4;   3;   8;   9;
    20;   0;  12;  26;  21;   8;  28;   2;  29;   2;  15;   7;  11;  22;  14;  10;
    17;  21;  12;  30;  26;  27;  16;  31;  11;   7;  13;  23;  10;   5;  22;  19 ].

Definition table_4 : list Z :=
  [
    15;  12;  10;   4;   1;  14;  11;   7;   5;   0;  14;   7;   1;   2;  13;   8;
    10;   3;   4;   9;   6;   0;   3;   2;   5;   6;   8;   9;  11;  13;  15;  12 ].

Definition comp128_table (n : Z) : list Z :=
  match n with
  | 0 => table_0
  | 1 => table_1
  | 2 => table_2
  | 3 => table_3
  | _ => table_4
  end.

(** The body of the double loop. *)
Definition butterfly (tbl : list Z) (m : Z) (x : list Z) (a b : Z) : list Z :=
  let y := Z.land (rd x a + Z.shiftl (rd x b) 1) (Z.shiftl 32 m - 1) in
  let z := Z.land (Z.shiftl (rd x a) 1 + rd x b) (Z.shiftl 32 m - 1) in
  wr (wr x a (rd tbl y)) b (rd tbl z).

Definition comp128_compression_round (x : list Z) (n : Z) (tbl : list Z) : list Z :=
  let m := 4 - n in
  foldl (λ x i,
    foldl (λ x j,
      let a := j + i * Z.shiftl 2 m in
      let b := a + Z.shiftl 1 m in
      butterfly tbl m x a b) x (zseq 0 (Z.to_nat (Z.shiftl 1 m))))
    x (zseq 0 (Z.to_nat (Z.shiftl 1 n))).

Definition comp128_compression (x : list Z) : list Z :=
  foldl (λ x n, comp128_compression_round x n (comp128_table n)) x (zseq 0 5).

Definition comp128_bitsfrombytes (x : list Z) : list Z :=
  foldl (λ bits i,
    if has (rd x (Z.shiftr i 2)) (Z.shiftl 1 (3 - Z.land i 3)) then wr bits i 1 else bits)
    (replicate 128 0) (zseq 0 128).

Definition comp128_permutation (x bits : list Z) : list Z :=
  let x := take 16 x ++ replicate 16 0 in
  foldl (λ x i,
    wr x (Z.shiftr i 3 + 16)
      (u8 (Z.lor (rd x (Z.shiftr i 3 + 16))
             (Z.shiftl (rd bits (Z.land (i * 17) 127)) (7 - Z.land i 7)))))
    x (zseq 0 128).

(** One of the first seven rounds, and the last one. *)
Definition comp128_round (ki x : list Z) : list Z :=
  let x := comp128_compression (ki ++ drop 16 x) in
  comp128_permutation x (comp128_bitsfrombytes x).

Definition comp128_nibbles (ki rand : list Z) : list Z :=
  let x := foldl (λ x _, comp128_round ki x) (replicate 16 0 ++ rand) (zseq 0 7) in
  comp128_compression (ki ++ drop 16 x).

(** The four bytes of SRES and the eight of Kc. *)
Definition comp128v1 (ki rand : list Z) : list Z * list Z :=
  let x := comp128_nibbles ki rand in
  let sres := (λ i, u8 (Z.lor (Z.shiftl (rd x (2 * i)) 4) (rd x (2 * i + 1)))) <$> zseq 0 4 in
  let kc := (λ i, u8 (Z.lor (Z.lor (Z.shiftl (rd x (2 * i + 18)) 6) (Z.shiftl (rd x (2 * i + 19)) 2))
                        (Z.shiftr (rd x (2 * i + 20)) 2))) <$> zseq 0 6 in
  (sres, kc ++ [u8 (Z.lor (Z.shiftl (rd x 30) 6) (Z.shiftl (rd x 31) 2)); 0]).

Definition comp128 (ki rand : list Z) : list Z * list Z := comp128v1 ki rand.

(** ** Bounds *)

(** The entries of table [n] have [8 - n] bits. *)
Lemma table_entries n :
  0 ≤ n < 5 → zlen (comp128_table n) = Z.shiftl 32 (4 - n) ∧
  Forall (λ v, 0 ≤ v < 2 ^ (8 - n)) (comp128_table n).
Proof.
  intros Hn. apply (range_split (λ n, zlen (comp128_table n) = Z.shiftl 32 (4 - n) ∧
    Forall (λ v, 0 ≤ v < 2 ^ (8 - n)) (comp128_table n)) 5); [lia|].
  forall_cases; (split; [by vm_compute|]); apply Forall_forall;
    (assert (∀ l w, forallb (λ v, (0 <=? v) && (v <? 2 ^ w)) l = true → ∀ v, In v l → 0 ≤ v < 2 ^ w) as H
      by (intros l w Hl v Hv; rewrite forallb_forall in Hl; specialize (Hl v Hv); bool_prop; lia));
    apply H; by vm_compute.
Qed.

(** The look-up index is always inside the table. *)
Lemma index_in_table n v :
  0 ≤ n < 5 → 0 ≤ Z.land v (Z.shiftl 32 (4 - n) - 1) < zlen (comp128_table n).
Proof.
  intros Hn. destruct (table_entries n Hn) as [-> _].
  assert (0 < Z.shiftl 32 (4 - n)) by (rewrite Z.shiftl_mul_pow2 by lia; lia).
  pose proof (land_range v (Z.shiftl 32 (4 - n) - 1)). lia.
Qed.

(** ** The in-place passes as parallel ones *)

(** The double loop with the two look-ups left abstract. *)
Definition pass (f g : Z → Z → Z) (x : list Z) (n : Z) : list Z :=
  let m := 4 - n in
  foldl (λ x i,
    foldl (λ x j,
      let a := j + i * Z.shiftl 2 m in
      let b := a + Z.shiftl 1 m in
      wr (wr x a (f (rd x a) (rd x b))) b (g (rd x a) (rd x b))) x (zseq 0 (Z.to_nat (Z.shiftl 1 m))))
    x (zseq 0 (Z.to_nat (Z.shiftl 1 n))).

(** All elements computed from the old ones: the low half of each block of
    [2^(m+1)] is combined with the high half. *)
Definition pass_spec (f g : Z → Z → Z) (x : list Z) (n : Z) : list Z :=
  let m := 4 - n in
  (λ k, if Z.testbit k m then g (rd x (k - Z.shiftl 1 m)) (rd x k) else f (rd x k) (rd x (k + Z.shiftl 1 m)))
    <$> zseq 0 32.

Lemma pass_parallel f g x n : length x = 32%nat → 0 ≤ n < 5 → pass f g x n = pass_spec f g x n.
Proof.
  intros Hx. do 32 (destruct x as [|? x]; [done|]). destruct x; [|done]. intros Hn.
  apply (range_split (λ n, pass f g _ n = pass_spec f g _ n) 5 n); [lia|]. forall_cases; vm_compute; reflexivity.
Qed.

(** The two look-ups of a pass. *)
Definition look_lo (n a b : Z) : Z :=
  rd (comp128_table n) (Z.land (a + Z.shiftl b 1) (Z.shiftl 32 (4 - n) - 1)).
Definition look_hi (n a b : Z) : Z :=
  rd (comp128_table n) (Z.land (Z.shiftl a 1 + b) (Z.shiftl 32 (4 - n) - 1)).

Definition compression_spec (x : list Z) : list Z :=
  foldl (λ x n, pass_spec (look_lo n) (look_hi n) x n) x (zseq 0 5).

Lemma length_pass_spec f g x n : length (pass_spec f g x n) = 32%nat.
Proof. done. Qed.

Lemma compression_parallel x :
  length x = 32%nat → comp128_compression x = compression_spec x.
Proof.
  intros Hx. unfold comp128_compression, compression_spec.
  assert (Forall (λ n, 0 ≤ n < 5) (zseq 0 5)) as Hn by (forall_cases; lia).
  revert x Hx. induction Hn as [|n l Hn _ IH]; intros x Hx; [done|]. cbn [foldl].
  change (comp128_compression_round x n (comp128_table n)) with (pass (look_lo n) (look_hi n) x n).
  rewrite pass_parallel by done. apply IH. apply length_pass_spec.
Qed.

(** Each pass leaves values of [8 - n] bits. *)
Lemma pass_spec_range x n :
  0 ≤ n < 5 → Forall (λ v, 0 ≤ v < 2 ^ (8 - n)) (pass_spec (look_lo n) (look_hi n) x n).
Proof.
  intros Hn. destruct (table_entries n Hn) as [_ Ht]. unfold pass_spec. apply Forall_fmap, Forall_forall.
  intros k _. cbn. unfold look_lo, look_hi. assert (0 < 2 ^ (8 - n)) by (apply Z.pow_pos_nonneg; lia).
  case_if; apply (rd_Forall (λ v, 0 ≤ v < 2 ^ (8 - n))); done || lia.
Qed.

Lemma compression_nibbles x :
  length (compression_spec x) = 32%nat ∧ Forall (λ v, 0 ≤ v < 16) (compression_spec x).
Proof. split; [done|]. apply (pass_spec_range _ 4). lia. Qed.

(** ** The permutation loses no bit *)
Definition bit_source (i : Z) : Z := Z.land (i * 17) 127.

Lemma bit_source_perm : bit_source <$> zseq 0 128 ≡ₚ zseq 0 128.
Proof.
  apply NoDup_Permutation.
  - apply (bool_decide_unpack _). by vm_compute.
  - apply (bool_decide_unpack _). by vm_compute.
  - intros k. rewrite list_elem_of_fmap, elem_of_zseq. split.
    + intros (i & -> & _). unfold bit_source. pose proof (land_range (i * 17) 127 ltac:(lia)). lia.
    + intros Hk. exists (Z.land (k * 113) 127). split.
      * symmetry. apply Z.eqb_eq. apply (range_check (λ k, bit_source (Z.land (k * 113) 127) =? k) 128); [lia|by vm_compute].
      * apply elem_of_zseq. pose proof (land_range (k * 113) 127 ltac:(lia)). lia.
Qed.

(** Bit [i] of the 128 bits of 32 nibbles, most significant first. *)
Definition nibble_bit (x : list Z) (i : Z) : bool := Z.testbit (rd x (i / 4)) (3 - i mod 4).

Lemma bits_prefix x n i :
  (n ≤ 128)%nat → 0 ≤ i < 128 →
  let bits := foldl (λ bits i,
    if has (rd x (Z.shiftr i 2)) (Z.shiftl 1 (3 - Z.land i 3)) then wr bits i 1 else bits)
    (replicate 128 0) (zseq 0 n) in
  zlen bits = 128 ∧ rd bits i = Z.b2z ((i <? Z.of_nat n) && nibble_bit x i).
Proof.
  intros Hn Hi. cbn zeta. induction n as [|n IH].
  { split; [done|]. destruct (Z.ltb_spec i (Z.of_nat 0)); [lia|]. cbn [foldl zseq seq fmap list_fmap].
    unfold rd. rewrite lookup_replicate_2 by lia. done. }
  rewrite zseq_S, foldl_app. cbn [foldl]. destruct IH as [Hl IH]; [lia|].
  set (bits := foldl _ _ _) in *. rewrite Z.add_0_l.
  assert (Z.shiftr (Z.of_nat n) 2 = Z.of_nat n / 4 ∧ Z.land (Z.of_nat n) 3 = Z.of_nat n mod 4) as [-> ->].
  { rewrite Z.shiftr_div_pow2 by lia. by rewrite <- (Z.land_ones _ 2). }
  rewrite has_bit by mlia. fold (nibble_bit x (Z.of_nat n)).
  destruct (Z.eqb_spec i (Z.of_nat n)) as [->|Hne].
  - destruct (Z.ltb_spec (Z.of_nat n) (Z.of_nat (S n))); [|lia]. cbn [andb].
    destruct (Z.ltb_spec (Z.of_nat n) (Z.of_nat n)) in IH; [lia|].
    destruct (nibble_bit x (Z.of_nat n)); [|done]. rewrite zlen_wr. split; [done|]. by apply rd_wr_eq; lia.
  - assert ((i <? Z.of_nat (S n)) = (i <? Z.of_nat n)) as ->.
    { destruct (Z.ltb_spec i (Z.of_nat n)), (Z.ltb_spec i (Z.of_nat (S n))); done || lia. }
    destruct (nibble_bit x (Z.of_nat n)); [|done]. rewrite zlen_wr. split; [done|].
    rewrite rd_wr_ne by lia. done.
Qed.

Lemma bitsfrombytes_spec x i :
  0 ≤ i < 128 → rd (comp128_bitsfrombytes x) i = Z.b2z (nibble_bit x i).
Proof.
  intros Hi. destruct (bits_prefix x 128 i) as [_ H]; [lia|done|]. unfold comp128_bitsfrombytes. rewrite H.
  by destruct (Z.ltb_spec i (Z.of_nat 128)); [|lia].
Qed.

(** Bit [i] of the 16 bytes from index 16, most significant first. *)
Definition byte_bit (x : list Z) (i : Z) : bool := Z.testbit (rd x (16 + i / 8)) (7 - i mod 8).

Definition is_bits (bits : list Z) (v : Z → bool) : Prop := ∀ i, 0 ≤ i < 128 → rd bits i = Z.b2z (v i).

Lemma permutation_prefix x bits v n i :
  length x = 32%nat → is_bits bits v → (n ≤ 128)%nat → 0 ≤ i < 128 →
  let x' := foldl (λ x i,
    wr x (Z.shiftr i 3 + 16)
      (u8 (Z.lor (rd x (Z.shiftr i 3 + 16))
             (Z.shiftl (rd bits (Z.land (i * 17) 127)) (7 - Z.land i 7)))))
    (take 16 x ++ replicate 16 0) (zseq 0 n) in
  zlen x' = 32 ∧ byte_bit x' i = (i <? Z.of_nat n) && v (bit_source i).
Proof.
  intros Hx Hb Hn Hi. cbn zeta. induction n as [|n IH].
  { cbn [foldl zseq seq fmap list_fmap]. split.
    - unfold zlen. rewrite length_app, length_take, length_replicate. lia.
    - destruct (Z.ltb_spec i (Z.of_nat 0)); [lia|]. unfold byte_bit.
      replace (16 + i / 8) with (zlen (take 16 x) + i / 8) by (unfold zlen; rewrite length_take; lia).
      rewrite rd_app_r by mlia. unfold rd. rewrite lookup_replicate_2 by mlia. apply Z.bits_0. }
  rewrite zseq_S, foldl_app. cbn [foldl]. destruct IH as [Hl IH]; [lia|].
  set (y := foldl _ _ _) in *. rewrite Z.add_0_l, zlen_wr. split; [done|].
  set (k := Z.of_nat n) in *. assert (0 ≤ k < 128) as Hk by lia.
  assert (Z.shiftr k 3 = k / 8 ∧ Z.land k 7 = k mod 8) as [-> ->].
  { rewrite Z.shiftr_div_pow2 by lia. by rewrite <- (Z.land_ones _ 3). }
  fold (bit_source k). rewrite Hb by (unfold bit_source; pose proof (land_range (k * 17) 127 ltac:(lia)); lia).
  unfold byte_bit. rewrite rd_wr by mlia. rewrite (Z.add_comm (k / 8) 16).
  assert (0 ≤ 7 - i mod 8 < 8) by mlia. assert (0 ≤ 7 - k mod 8 < 8) by mlia.
  destruct (Z.eqb_spec (16 + i / 8) (16 + k / 8)) as [E|E].
  - replace (16 + k / 8) with (16 + i / 8) by lia. unfold u8. change 256 with (2 ^ 8).
    rewrite Z.mod_pow2_bits_low, Z.lor_spec by lia. unfold byte_bit in IH. rewrite IH.
    rewrite Z.shiftl_spec by lia. destruct (Z.eqb_spec i k) as [->|Hne].
    + rewrite Z.sub_diag, Z.b2z_bit0. destruct (Z.ltb_spec k k), (Z.ltb_spec k (Z.of_nat (S n))); done || lia.
    + assert (Z.testbit (Z.b2z (v (bit_source k))) (7 - i mod 8 - (7 - k mod 8)) = false) as ->.
      { destruct (Z.lt_ge_cases (7 - i mod 8) (7 - k mod 8)).
        - apply Z.testbit_neg_r. lia.
        - apply (testbit_high 1); [by destruct (v (bit_source k))|]. clear IH. mlia. }
      rewrite orb_false_r. f_equal. destruct (Z.ltb_spec i k), (Z.ltb_spec i (Z.of_nat (S n))); done || lia.
  - unfold byte_bit in IH. rewrite IH. f_equal.
    assert (i ≠ k) by (intros ->; lia).
    destruct (Z.ltb_spec i k), (Z.ltb_spec i (Z.of_nat (S n))); done || lia.
Qed.

Lemma permutation_spec x bits v i :
  length x = 32%nat → is_bits bits v → 0 ≤ i < 128 →
  byte_bit (comp128_permutation x bits) i = v (bit_source i).
Proof.
  intros Hx Hb Hi. destruct (permutation_prefix x bits v 128 i Hx Hb) as [_ H]; [lia|done|].
  unfold comp128_permutation. rewrite H. by destruct (Z.ltb_spec i (Z.of_nat 128)); [|lia].
Qed.

Lemma length_permutation x bits :
  length x = 32%nat → length (comp128_permutation x bits) = 32%nat.
Proof.
  intros Hx. unfold comp128_permutation. assert (length (take 16 x ++ replicate 16 0) = 32%nat) as H.
  { rewrite length_app, length_take, length_replicate. lia. }
  revert H. generalize (take 16 x ++ replicate 16 0). generalize (zseq 0 128).
  intros l. induction l as [|i l IH]; intros y Hy; [done|]. cbn [foldl]. apply IH. by rewrite length_wr.
Qed.

Lemma length_comp128_round ki x :
  length ki = 16%nat → length x = 32%nat → length (comp128_round ki x) = 32%nat.
Proof.
  intros Hk Hx. unfold comp128_round. apply length_permutation.
  rewrite compression_parallel by (rewrite length_app, length_drop; lia). apply compression_nibbles.
Qed.

(** C39: a round of COMP128 is the intended function of its input: the
    in-place butterfly passes compute what five parallel passes over the old
    values compute, and bit [i] of the 128 output bits is bit [17 i mod 128] of
    the 32 nibbles, a permutation of the bits. *)
Theorem comp128_round_spec ki x i :
  length ki = 16%nat → length x = 32%nat → 0 ≤ i < 128 →
  byte_bit (comp128_round ki x) i = nibble_bit (compression_spec (ki ++ drop 16 x)) (bit_source i) ∧
  bit_source <$> zseq 0 128 ≡ₚ zseq 0 128.
Proof.
  intros Hk Hx Hi. split; [|apply bit_source_perm]. unfold comp128_round.
  rewrite compression_parallel by (rewrite length_app, length_drop; lia).
  apply permutation_spec; [apply compression_nibbles| |done].
  intros j Hj. by apply bitsfrombytes_spec.
Qed.

Lemma comp128_round_spec_witness :
  byte_bit (comp128_round (replicate 16 7) (replicate 32 9)) 5 =
  nibble_bit (compression_spec (replicate 16 7 ++ replicate 16 9)) 85.
Proof.
  refine (proj1 (comp128_round_spec (replicate 16 7) (replicate 32 9) 5 _ _ _)); [done|done|lia].
Defined.

(** For a 16-byte key and challenge, every table look-up of the algorithm
    is inside its table, the 32 values before the output stage are nibbles,
    SRES has 4 bytes and Kc 8, and the 10 low bits of Kc are zero (Kc has 54
    significant bits). *)
Theorem comp128_output ki rand :
  length ki = 16%nat → length rand = 16%nat →
  (∀ n v, 0 ≤ n < 5 → 0 ≤ Z.land v (Z.shiftl 32 (4 - n) - 1) < zlen (comp128_table n)) ∧
  (length (comp128_nibbles ki rand) = 32%nat ∧ Forall (λ v, 0 ≤ v < 16) (comp128_nibbles ki rand)) ∧
  let '(sres, kc) := comp128v1 ki rand in
  length sres = 4%nat ∧ length kc = 8%nat ∧ Forall (λ b, 0 ≤ b < 256) (sres ++ kc) ∧
  rd kc 7 = 0 ∧ Z.land (rd kc 6) 3 = 0.
Proof.
  intros Hk Hr. split; [intros; by apply index_in_table|].
  assert (length (comp128_nibbles ki rand) = 32%nat ∧ Forall (λ v, 0 ≤ v < 16) (comp128_nibbles ki rand)) as [Hl Hn].
  { unfold comp128_nibbles. rewrite compression_parallel; [apply compression_nibbles|].
    rewrite length_app, length_drop.
    assert (∀ l x, length x = 32%nat → length (foldl (λ (x : list Z) (_ : Z), comp128_round ki x) x l) = 32%nat) as H.
    { induction l as [|? l IH]; intros y Hy; [done|]. apply IH. by apply length_comp128_round. }
    rewrite H; [lia|]. rewrite length_app, length_replicate. lia. }
  split; [done|]. unfold comp128v1. revert Hl Hn. generalize (comp128_nibbles ki rand). intros x Hl Hn.
  split; [done|]. split; [done|]. split.
  { apply Forall_app_2; [|apply Forall_app_2]; try (apply Forall_fmap, Forall_true; intros; apply u8_range).
    constructor; [apply u8_range|]. constructor; [lia|done]. }
  split; [done|]. change (Z.land (u8 (Z.lor (Z.shiftl (rd x 30) 6) (Z.shiftl (rd x 31) 2))) 3 = 0). unfold u8.
  change 256 with (2 ^ 8). change 3 with (Z.ones 2). apply Z.bits_inj'. intros i Hi.
  rewrite Z.land_spec, Z.bits_0, Z.testbit_ones_nonneg by lia. destruct (Z.ltb_spec i 2); [|apply andb_false_r].
  rewrite Z.mod_pow2_bits_low, Z.lor_spec, !Z.shiftl_spec_low by lia. done.
Qed.

Lemma comp128_output_witness :
  Z.land (rd (snd (comp128v1 (replicate 16 1) (replicate 16 2))) 6) 3 = 0.
Proof.
  refine (proj2 (proj2 (proj2 (proj2 (proj2 (proj2 (comp128_output (replicate 16 1) (replicate 16 2) _ _))))))); done.
Defined.

End COMP128.
