(* ===== verification/SimFs.v ===== *)
(** * The file system of the SIM card (first part of [calypso_sim.c])

    The elementary files of the emulated card, their look-up, the IMSI and SMS
    centre encodings, the record store and the SELECT response. *)
From S2P Require Import Prelude.

Module SIMFS.

Inductive EfStructure := EF_TRANSPARENT | EF_LINEAR_FIXED | EF_CYCLIC | EF_DF | EF_MF.

#[export] Instance EfStructure_eq_dec : EqDecision EfStructure.
Proof. solve_decision. Defined.

Record SimFile := mkFile {
  fid : Z;
  parent : Z;
  structure : EfStructure;
  size : Z;
  rec_len : Z;
  data : list Z
}.

#[export] Instance file_eta : Settable SimFile := λ f,
  mkFile (fid f) (parent f) (structure f) (size f) (rec_len f) (data f).

(** An initialiser of [data[64]]: the missing bytes are 0. *)
Definition file_data (l : list Z) : list Z := l ++ replicate (64 - length l) 0.

Definition sim_files : list SimFile :=
  [
   mkFile 0x3F00 0x0000 EF_MF 0 0 (file_data []);
   mkFile 0x7F20 0x3F00 EF_DF 0 0 (file_data []);
   mkFile 0x7F10 0x3F00 EF_DF 0 0 (file_data []);
   mkFile 0x2FE2 0x3F00 EF_TRANSPARENT 10 0 (file_data [0x98; 0x10; 0x10; 0x10; 0x00; 0x00; 0x00; 0x00; 0x00; 0xF1]);
   mkFile 0x6F07 0x7F20 EF_TRANSPARENT 9 0 (file_data [0x08; 0x09; 0x10; 0x10; 0x00; 0x00; 0x00; 0x00; 0xF1]);
   mkFile 0x6F30 0x7F20 EF_TRANSPARENT 24 0 (file_data [0x00; 0xF1; 0x10; 0xFF; 0xFF; 0xFF; 0xFF; 0xFF; 0xFF; 0xFF; 0xFF; 0xFF; 0xFF; 0xFF; 0xFF; 0xFF; 0xFF; 0xFF; 0xFF; 0xFF; 0xFF; 0xFF; 0xFF; 0xFF]);
   mkFile 0x6F38 0x7F20 EF_TRANSPARENT 14 0 (file_data [0xFF; 0x33; 0xFF; 0xFF; 0x00; 0x00; 0x00; 0x00; 0x00; 0x00; 0x00; 0x00; 0x00; 0x00]);
   mkFile 0x6F78 0x7F20 EF_TRANSPARENT 2 0 (file_data [0x00; 0x01]);
   mkFile 0x6FAD 0x7F20 EF_TRANSPARENT 4 0 (file_data [0x00; 0x00; 0x00; 0x02]);
   mkFile 0x6F7E 0x7F20 EF_TRANSPARENT 11 0 (file_data [0xFF; 0xFF; 0xFF; 0xFF; 0xFF; 0xFF; 0xFF; 0x00; 0x00; 0xFF; 0x00]);
   mkFile 0x6F74 0x7F20 EF_TRANSPARENT 16 0 (file_data [0x40; 0x00; 0x00; 0x00; 0x00; 0x00; 0x00; 0x00; 0x00; 0x00; 0x00; 0x00; 0x00; 0x00; 0x00; 0x00]);
   mkFile 0x6F46 0x7F20 EF_TRANSPARENT 17 0 (file_data [0x01; 81; 69; 77; 85; 45; 83; 73; 77; 32; 32; 32; 32; 32; 32; 32; 32]);
   mkFile 0x6F20 0x7F20 EF_TRANSPARENT 9 0 (file_data [0x00; 0x00; 0x00; 0x00; 0x00; 0x00; 0x00; 0x00; 0x07]);
   mkFile 0x6FB7 0x7F20 EF_TRANSPARENT 3 0 (file_data [0x11; 0xF2; 0xFF]);
   mkFile 0x6F05 0x7F20 EF_TRANSPARENT 1 0 (file_data [0x01]);
   mkFile 0x6FAE 0x7F20 EF_TRANSPARENT 1 0 (file_data [0x03]);
   mkFile 0x6F31 0x7F20 EF_TRANSPARENT 1 0 (file_data [0xFF]);
   mkFile 0x6F7B 0x7F20 EF_TRANSPARENT 12 0 (file_data [0xFF; 0xFF; 0xFF; 0xFF; 0xFF; 0xFF; 0xFF; 0xFF; 0xFF; 0xFF; 0xFF; 0xFF]);
   mkFile 0x6F3C 0x7F20 EF_LINEAR_FIXED 704 176 (file_data []);
   mkFile 0x6F42 0x7F20 EF_LINEAR_FIXED 28 28 (file_data [0xFF]);
   mkFile 0x6F43 0x7F20 EF_TRANSPARENT 2 0 (file_data [0xFF; 0xFF]);
   mkFile 0x6F45 0x7F20 EF_TRANSPARENT 2 0 (file_data [0xFF; 0xFF]);
   mkFile 0x6F48 0x7F20 EF_TRANSPARENT 2 0 (file_data [0xFF; 0xFF]);
   mkFile 0x6F39 0x7F20 EF_CYCLIC 9 3 (file_data []);
   mkFile 0x6F37 0x7F20 EF_TRANSPARENT 3 0 (file_data []);
   mkFile 0x6F41 0x7F20 EF_TRANSPARENT 5 0 (file_data [0xFF; 0xFF; 0xFF; 0x00; 0x00]);
   mkFile 0x6F3E 0x7F20 EF_TRANSPARENT 1 0 (file_data [0xFF]);
   mkFile 0x6F3F 0x7F20 EF_TRANSPARENT 1 0 (file_data [0xFF]);
   mkFile 0x6F3A 0x7F10 EF_LINEAR_FIXED 280 28 (file_data [0xFF]);
   mkFile 0x6F3B 0x7F10 EF_LINEAR_FIXED 28 28 (file_data [0xFF]);
   mkFile 0x6F40 0x7F10 EF_LINEAR_FIXED 28 28 (file_data [0xFF]);
   mkFile 0x6F44 0x7F10 EF_CYCLIC 140 28 (file_data [0xFF]);
   mkFile 0x6F4A 0x7F10 EF_LINEAR_FIXED 13 13 (file_data [0xFF]);
   mkFile 0x6F4B 0x7F10 EF_LINEAR_FIXED 13 13 (file_data [0xFF]);
   mkFile 0x6F16 0x7F20 EF_TRANSPARENT 3 0 (file_data [0x02; 0x00; 0x00]);
   mkFile 0x6F11 0x7F20 EF_TRANSPARENT 2 0 (file_data [0x55; 0x55]);
   mkFile 0x6F13 0x7F20 EF_TRANSPARENT 2 0 (file_data [0x55; 0x55]);
   mkFile 0x6F14 0x7F20 EF_TRANSPARENT 10 0 (file_data [0xFF; 0xFF; 0xFF; 0xFF; 0xFF; 0xFF; 0xFF; 0xFF; 0xFF; 0xFF]);
   mkFile 0x6F15 0x7F20 EF_TRANSPARENT 2 0 (file_data [0xFF; 0xFF]);
   mkFile 0x6F17 0x7F20 EF_LINEAR_FIXED 28 28 (file_data [0xFF]) ].

(** The files, the record stores allocated so far and the SMS centre number
    (a C string). *)
Record Fs := mkFs {
  files : list SimFile;
  store : list (option (list Z));
  sim_smsc : list Z
}.

#[export] Instance fs_eta : Settable Fs := λ f, mkFs (files f) (store f) (sim_smsc f).

(** The index of the first file that satisfies a test. *)
Fixpoint index_of (p : SimFile → bool) (l : list SimFile) : option nat :=
  match l with
  | [] => None
  | f :: l => if p f then Some 0%nat else S <$> index_of p l
  end.

Definition find_file (fs : Fs) (id parent_pref : Z) : option nat :=
  let any := index_of (λ f, fid f =? id) (files fs) in
  if negb (parent_pref =? 0) then
    match index_of (λ f, (fid f =? id) && (parent f =? parent_pref)) (files fs) with
    | Some i => Some i
    | None => any
    end
  else any.

(** ** IMSI *)
Definition is_digit (c : Z) : bool := (48 <=? c) && (c <=? 57).

Fixpoint digits (s : list Z) : list Z :=
  match s with
  | [] => []
  | c :: s => if is_digit c then c :: digits s else []
  end.

(** The loop over the remaining digits, two per byte. *)
Fixpoint bcd_pairs (d : list Z) : list Z :=
  match d with
  | [] => []
  | [lo] => [u8 (Z.lor (Z.shiftl 0xF 4) (lo - 48))]
  | lo :: hi :: d => u8 (Z.lor (Z.shiftl (hi - 48) 4) (lo - 48)) :: bcd_pairs d
  end.

(** The nine bytes of EF_IMSI and the value returned, [None] for -1. *)
Definition encode_imsi_bcd (imsi_str : list Z) : option (list Z * Z) :=
  match digits imsi_str with
  | [] => None
  | d0 :: d =>
      let n := zlen (d0 :: d) in
      if 15 <? n then None
      else
        let odd := negb (Z.land n 1 =? 0) in
        let data_len := n / 2 + 1 in
        let out := [u8 data_len; u8 (Z.lor (Z.shiftl (d0 - 48) 4) (if odd then 0x9 else 0x1))] ++ bcd_pairs d in
        Some (out ++ replicate (9 - length out) 0xFF, data_len + 1)
  end.

(** The effect of an [imsi] line of the configuration. *)
Definition load_imsi (fs : Fs) (imsi : list Z) : Fs :=
  match encode_imsi_bcd imsi with
  | Some (bcd, _) =>
      match find_file fs 0x6F07 0x7F20 with
      | Some i => fs <| files := alter (λ f, f <| data := bcd ++ drop 9 (data f) |> <| size := 9 |>) i (files fs) |>
      | None => fs
      end
  | None => fs
  end.

(** ** Records *)
Definition SIM_REC_MAX : Z := 1024.

(** The digit loop: at most 20 digits, other characters skipped. *)
Fixpoint smsc_digits (s : list Z) (n : nat) : list Z :=
  match s with
  | [] => []
  | c :: s =>
      match n with
      | O => []
      | S m => if c =? 0 then []
               else if is_digit c then (c - 48) :: smsc_digits s m else smsc_digits s n
      end
  end.

Fixpoint bcd_swapped (d : list Z) : list Z :=
  match d with
  | [] => []
  | [lo] => [Z.lor 0xF0 lo]
  | lo :: hi :: d => Z.lor (Z.land (Z.lor 0xF0 lo) 0x0F) (Z.shiftl hi 4) :: bcd_swapped d
  end.

(** [memcpy(&r[i], src, len)]. *)
Definition splice (r : list Z) (i : Z) (src : list Z) : list Z :=
  take (Z.to_nat i) r ++ src ++ drop (Z.to_nat i + length src) r.

Definition smsp_remplir (smsc r : list Z) : list Z :=
  let '(ton, d) := match smsc with
                   | 43 :: d => (0x91, d)
                   | d => (0x81, d)
                   end in
  let v := smsc_digits d 20 in
  let n := zlen v in
  if n =? 0 then r
  else
    let r := wr (wr (wr r 0 0xE1) 13 (u8 (1 + (n + 1) / 2))) 14 ton in
    let r := splice r 15 (bcd_swapped v) in
    wr (wr (wr r 25 0x00) 26 0x00) 27 0xA7.

(** The contents of a record store when it is allocated. *)
Definition new_store (smsc : list Z) (f : SimFile) : list Z :=
  let s := replicate (Z.to_nat (size f)) 0xFF in
  let s := if fid f =? 0x6F3C
           then foldl (λ s r, wr s (r * rec_len f) 0x00) s (zseq 0 (Z.to_nat (size f / rec_len f))) else s in
  let s := if fid f =? 0x6F39 then replicate (Z.to_nat (size f)) 0x00 else s in
  if (fid f =? 0x6F42) && (rec_len f =? 28) then smsp_remplir smsc s else s.

(** The record store of file [i], allocated on its first use; [None] is NULL. *)
Definition rec_store (fs : Fs) (i : nat) : option (list Z) * Fs :=
  match files fs !! i with
  | None => (None, fs)
  | Some f =>
      if (rec_len f =? 0) || (SIM_REC_MAX <? size f) then (None, fs)
      else
        match mjoin (store fs !! i) with
        | Some st => (Some st, fs)
        | None =>
            let st := new_store (sim_smsc fs) f in
            (Some st, fs <| store := <[i := Some st]> (store fs) |>)
        end
  end.

(** ** SELECT *)
Definition build_select_response (f : SimFile) : list Z :=
  [0x00; 0x00; Z.land (Z.shiftr (size f) 8) 0xFF; Z.land (size f) 0xFF;
   Z.land (Z.shiftr (fid f) 8) 0xFF; Z.land (fid f) 0xFF] ++
  (if bool_decide (structure f = EF_DF) || bool_decide (structure f = EF_MF) then
     [if bool_decide (structure f = EF_MF) then 0x01 else 0x02;
      0x00; 0x00; 0x00; 0x00; 0x00; 0x00; 0x91; 0x02; 0x09; 0x04; 0x00;
      0x83; 0x8A; 0x83; 0x8A; 0x00; 0x00; 0x00]
   else
     [0x04; 0x00; 0x00; 0x00; 0x00; 0xAB; 0x02;
      (if bool_decide (structure f = EF_TRANSPARENT) then 0x00
       else if bool_decide (structure f = EF_LINEAR_FIXED) then 0x01 else 0x03);
      rec_len f]).

(** ** Well-formed file systems

    Commands never change what identifies a file, only its contents. *)
Definition meta (f : SimFile) : Z * Z * EfStructure * Z * Z :=
  (fid f, parent f, structure f, size f, rec_len f).

Definition is_byte (b : Z) : Prop := 0 ≤ b < 256.

Definition file_ok (f : SimFile) : Prop := length (data f) = 64%nat ∧ Forall is_byte (data f).

(** The record store of file [f], when it has been allocated, holds [size f]
    bytes. *)
Definition store_ok (f : SimFile) (o : option (list Z)) : Prop :=
  match o with Some st => zlen st = size f ∧ Forall is_byte st | None => True end.

Record fs_ok (fs : Fs) : Prop := {
  ok_meta : meta <$> files fs = meta <$> sim_files;
  ok_files : Forall file_ok (files fs);
  ok_store : Forall2 store_ok (files fs) (store fs)
}.

Definition fs_init (smsc : list Z) : Fs := mkFs sim_files (replicate (length sim_files) None) smsc.

(** A file fits the buffers of the commands that access it: [data] for a
    transparent file, a record store of whole records for the others. *)
Definition shape (f : SimFile) : bool :=
  match structure f with
  | EF_TRANSPARENT => (0 <=? size f) && (size f <=? 64) && (rec_len f =? 0)
  | EF_LINEAR_FIXED | EF_CYCLIC =>
      (0 <? rec_len f) && (rec_len f <? 256) && (size f =? rec_len f * (size f / rec_len f)) &&
      (size f / rec_len f <? 256) && (0 <? size f) && (size f <=? SIM_REC_MAX) &&
      (negb (fid f =? 0x6F42) || (size f =? 28))
  | _ => (size f =? 0) && (rec_len f =? 0)
  end && (0 <=? fid f) && (fid f <? 65536).

Lemma shape_meta f g : meta f = meta g → shape f = shape g.
Proof. unfold meta. intros [= E1 _ E3 E4 E5]. unfold shape. by rewrite E1, E3, E4, E5. Qed.

Lemma file_shape fs i f : fs_ok fs → files fs !! i = Some f → shape f = true.
Proof.
  intros Hok Hf. assert ((meta <$> files fs) !! i = Some (meta f)) as E by (by rewrite list_lookup_fmap, Hf).
  rewrite (ok_meta _ Hok), list_lookup_fmap in E. destruct (sim_files !! i) as [g|] eqn:Eg; [|done].
  cbn in E. rewrite (shape_meta f g) by congruence.
  assert (forallb shape sim_files = true) as Hall by by vm_compute.
  rewrite forallb_forall in Hall. apply Hall, list_elem_of_In. by eapply list_elem_of_lookup_2.
Qed.

Lemma fs_init_ok smsc : fs_ok (fs_init smsc).
Proof.
  split; cbn [files store fs_init].
  - done.
  - assert (forallb (λ f, (length (data f) =? 64)%nat && forallb (λ b, (0 <=? b) && (b <? 256)) (data f)) sim_files = true)
      as Hall by by vm_compute.
    apply Stdlib.Lists.List.Forall_forall. intros f Hf. rewrite forallb_forall in Hall. specialize (Hall f Hf).
    bool_prop. split; [by apply Nat.eqb_eq|]. apply Stdlib.Lists.List.Forall_forall. intros b Hb.
    rewrite forallb_forall in H0. specialize (H0 b Hb). bool_prop. split; lia.
  - apply Forall2_same_length_lookup_2; [by rewrite length_replicate|].
    intros i f o _ Ho. apply lookup_replicate in Ho as [-> _]. done.
Qed.

(** ** Look-up *)
Lemma index_of_Some p l i :
  index_of p l = Some i → ∃ f, l !! i = Some f ∧ p f = true.
Proof.
  revert i. induction l as [|g l IH]; intros i; cbn; [done|].
  destruct (p g) eqn:Ep; [intros; simplify_eq; by exists g|].
  destruct (index_of p l) as [j|]; [|done]. intros [= <-]. by apply IH.
Qed.

Lemma index_of_None p l : index_of p l = None → Forall (λ f, p f = false) l.
Proof.
  induction l as [|g l IH]; cbn; [constructor|]. destruct (p g) eqn:Ep; [done|].
  destruct (index_of p l); [done|]. constructor; auto.
Qed.

Lemma find_file_Some fs id pref i :
  find_file fs id pref = Some i → ∃ f, files fs !! i = Some f ∧ fid f = id.
Proof.
  unfold find_file. intros E. case_match; [case_match; simplify_eq|];
    (match goal with H : index_of _ _ = Some _ |- _ => apply index_of_Some in H as (f & Hf & Ep) end);
    exists f; split; try done; bool_prop; done.
Qed.

Lemma fids_unique fs i j f g :
  fs_ok fs → files fs !! i = Some f → files fs !! j = Some g → fid f = fid g → i = j.
Proof.
  intros Hok Hf Hg E.
  assert (NoDup (fid <$> files fs)) as Hnd.
  { assert (fid <$> files fs = (λ m, m.1.1.1.1) <$> (meta <$> files fs)) as ->.
    { rewrite <- list_fmap_compose. done. }
    rewrite (ok_meta _ Hok). apply (bool_decide_unpack _). by vm_compute. }
  eapply NoDup_lookup; [exact Hnd| |]; rewrite list_lookup_fmap; [rewrite Hf|rewrite Hg]; cbn; [done|by rewrite E].
Qed.

(** The parent preference never changes which file an identifier names. *)
Lemma find_file_pref fs id pref :
  fs_ok fs → find_file fs id pref = find_file fs id 0.
Proof.
  intros Hok. unfold find_file at 1. destruct (pref =? 0) eqn:Ep; cbn [negb].
  { done. }
  destruct (index_of _ (files fs)) as [i|] eqn:Ei; [|done].
  apply index_of_Some in Ei as (f & Hf & Hp). bool_prop.
  unfold find_file. cbn. destruct (index_of (λ f, fid f =? id) (files fs)) as [j|] eqn:Ej.
  - apply index_of_Some in Ej as (g & Hg & Hq). bool_prop. f_equal.
    eapply fids_unique; try done. congruence.
  - apply index_of_None in Ej. eapply Forall_lookup_1 in Ej; [|exact Hf]. cbn in Ej. bool_prop. done.
Qed.

Lemma find_file_eq fs i f :
  fs_ok fs → files fs !! i = Some f → find_file fs (fid f) 0 = Some i.
Proof.
  intros Hok Hf. unfold find_file. cbn.
  destruct (index_of _ (files fs)) as [j|] eqn:Ej.
  - apply index_of_Some in Ej as (g & Hg & Hq). bool_prop. f_equal. eapply fids_unique; done.
  - apply index_of_None in Ej. eapply Forall_lookup_1 in Ej; [|exact Hf]. cbn in Ej. bool_prop. done.
Qed.

(** ** Record stores *)
Lemma length_splice r i src :
  0 ≤ i → i + zlen src ≤ zlen r → length (splice r i src) = length r.
Proof. unfold zlen, splice. intros. rewrite !length_app, length_take, length_drop. lia. Qed.

Lemma splice_Forall (P : Z → Prop) r i src : Forall P r → Forall P src → Forall P (splice r i src).
Proof.
  intros. unfold splice. repeat apply Forall_app_2; auto using Forall_take, Forall_drop.
Qed.

(** What was copied in is read back, and nothing else changes. *)
Lemma take_splice r i src :
  0 ≤ i → i + zlen src ≤ zlen r → take (length src) (drop (Z.to_nat i) (splice r i src)) = src.
Proof.
  unfold zlen, splice. intros. rewrite drop_app_length' by (rewrite length_take; lia).
  by rewrite take_app_length.
Qed.

Lemma lookup_splice_ne r i src k :
  0 ≤ i → i + zlen src ≤ zlen r → Z.of_nat k < i ∨ i + zlen src ≤ Z.of_nat k →
  splice r i src !! k = r !! k.
Proof.
  unfold zlen, splice. intros Hi Hl [Hk|Hk].
  - rewrite lookup_app_l by (rewrite length_take; lia). apply lookup_take_lt. lia.
  - rewrite app_assoc, lookup_app_r by (rewrite length_app, length_take; lia).
    rewrite lookup_drop, length_app, length_take. f_equal. lia.
Qed.

Lemma slice_splice_ne r i src o n :
  0 ≤ i → i + zlen src ≤ zlen r → 0 ≤ o → o + n ≤ i ∨ i + zlen src ≤ o →
  take (Z.to_nat n) (drop (Z.to_nat o) (splice r i src)) = take (Z.to_nat n) (drop (Z.to_nat o) r).
Proof.
  intros Hi Hl Ho Hd. apply list_eq. intros k. destruct (decide (k < Z.to_nat n)%nat) as [Hk|Hk].
  - rewrite !lookup_take_lt, !lookup_drop by done. apply lookup_splice_ne; [done..|]. lia.
  - rewrite !lookup_take_ge by lia. done.
Qed.

(** Induction over the digits two at a time. *)
Lemma pair_ind (P : list Z → Prop) :
  P [] → (∀ a, P [a]) → (∀ a b d, P d → P (a :: b :: d)) → ∀ d, P d.
Proof.
  intros H0 H1 H2 d. cut (P d ∧ ∀ a, P (a :: d)); [by intros [? _]|].
  induction d as [|b d [IH1 IH2]]; split; auto.
Qed.

Lemma length_bcd_swapped d : (2 * length (bcd_swapped d) <= length d + 1)%nat.
Proof. induction d using pair_ind; cbn [bcd_swapped length] in *; lia. Qed.

Lemma bcd_swapped_bytes d : Forall (λ v, 0 ≤ v < 10) d → Forall is_byte (bcd_swapped d).
Proof.
  induction d as [|a|a b d IH] using pair_ind; intros Hd; [constructor| |].
  - inversion Hd; subst. constructor; [|constructor]. apply (lor_range 8); lia.
  - inversion Hd as [|? ? Ha Hd']; subst. inversion Hd' as [|? ? Hb Hd'']; subst.
    cbn [bcd_swapped]. constructor; [|auto].
    apply (lor_range 8); [lia| |rewrite Z.shiftl_mul_pow2; lia].
    pose proof (land_range (Z.lor 240 a) 15). change (2 ^ 8) with 256. lia.
Qed.

Lemma smsc_digits_ok s n : (length (smsc_digits s n) <= n)%nat ∧ Forall (λ v, 0 ≤ v < 10) (smsc_digits s n).
Proof.
  revert n. induction s as [|c s IH]; intros n; cbn; [split; [lia|constructor]|].
  destruct n as [|n]; [split; [cbn; lia|constructor]|]. case_if; [split; [cbn; lia|constructor]|].
  case_if; [|apply IH]. destruct (IH n) as [Hl Hf]. unfold is_digit in *. bool_prop.
  cbn [length]. split; [lia|]. constructor; [lia|done].
Qed.

Lemma smsp_remplir_ok smsc r :
  zlen r = 28 → Forall is_byte r → zlen (smsp_remplir smsc r) = 28 ∧ Forall is_byte (smsp_remplir smsc r).
Proof.
  intros Hl Hb. unfold smsp_remplir.
  destruct (match smsc with 43 :: d => (0x91, d) | d => (0x81, d) end) as [ton d] eqn:Et.
  assert (is_byte ton) as Hton by (unfold is_byte; repeat case_match; simplify_eq; lia).
  destruct (smsc_digits_ok d 20) as [Hn Hd]. case_if; [done|].
  pose proof (length_bcd_swapped (smsc_digits d 20)) as Hw.
  assert (∀ r', zlen r' = 28 → zlen (splice r' 15 (bcd_swapped (smsc_digits d 20))) = 28) as Hs.
  { intros r' Hr'. unfold zlen in *. rewrite length_splice; unfold zlen; lia. }
  rewrite !zlen_wr, Hs by by rewrite !zlen_wr. split; [done|].
  repeat (apply wr_Forall; [unfold is_byte; lia|]). apply splice_Forall; [|by apply bcd_swapped_bytes].
  repeat (apply wr_Forall; [try apply u8_range; done|]). done.
Qed.

Lemma foldl_wr_ok (g : Z → Z) v l s :
  is_byte v → Forall is_byte s →
  zlen (foldl (λ s r, wr s (g r) v) s l) = zlen s ∧ Forall is_byte (foldl (λ s r, wr s (g r) v) s l).
Proof.
  intros Hv. revert s. induction l as [|x l IH]; intros s Hs; cbn; [done|].
  destruct (IH (wr s (g x) v)) as [-> ?]; [by apply wr_Forall|]. by rewrite zlen_wr.
Qed.

Definition has_records (f : SimFile) : Prop := structure f = EF_LINEAR_FIXED ∨ structure f = EF_CYCLIC.

Lemma shape_records f : shape f = true → has_records f →
  0 < rec_len f < 256 ∧ size f = rec_len f * (size f / rec_len f) ∧ 0 < size f ≤ SIM_REC_MAX ∧
  size f / rec_len f < 256 ∧ (fid f = 0x6F42 → size f = 28).
Proof.
  unfold shape. intros Hs [E|E]; rewrite E in Hs; bool_prop;
    (match goal with H : (_ || _)%bool = true |- _ => apply orb_true_iff in H as [H|H] end); bool_prop;
    repeat split; try lia.
Qed.

Lemma new_store_ok smsc f : shape f = true → has_records f → store_ok f (Some (new_store smsc f)).
Proof.
  intros Hs Hr. destruct (shape_records f Hs Hr) as (Hrl & _ & Hsz & _ & H28).
  assert (∀ v, is_byte v → store_ok f (Some (replicate (Z.to_nat (size f)) v))) as Hrep.
  { intros v Hv. split; [unfold zlen; rewrite length_replicate; lia|by apply Forall_replicate]. }
  cbn in Hrep |- *. unfold new_store.
  set (s1 := if fid f =? 0x6F3C then _ else _).
  assert (zlen s1 = size f ∧ Forall is_byte s1) as H1.
  { unfold s1. case_if; [|apply Hrep; unfold is_byte; lia].
    destruct (Hrep 0xFF) as [Hl Hf]; [unfold is_byte; lia|].
    destruct (foldl_wr_ok (λ r, r * rec_len f) 0 (zseq 0 (Z.to_nat (size f / rec_len f))) _ ltac:(unfold is_byte; lia) Hf)
      as [El Ef]. split; [by rewrite El|done]. }
  set (s2 := if fid f =? 0x6F39 then _ else s1).
  assert (zlen s2 = size f ∧ Forall is_byte s2) as H2.
  { unfold s2. case_if; [|done]. apply Hrep. unfold is_byte; lia. }
  destruct H2 as [Hl Hf]. case_if; [|done]. bool_prop. rewrite H28 in * by done.
  by apply smsp_remplir_ok.
Qed.

Lemma set_store_ok fs i f st :
  fs_ok fs → files fs !! i = Some f → store_ok f (Some st) →
  fs_ok (fs <| store := <[i := Some st]> (store fs) |>).
Proof.
  intros [Hm Hf Hst] Hi Hok. split; cbn; [done..|].
  rewrite <- (list_insert_id (files fs) i f) by done. by apply Forall2_insert.
Qed.

Lemma set_data_ok fs i f d :
  fs_ok fs → files fs !! i = Some f → length d = 64%nat → Forall is_byte d →
  fs_ok (fs <| files := <[i := f <| data := d |>]> (files fs) |>).
Proof.
  intros [Hm Hf Hst] Hi Hl Hd. split; cbn [files store update_field].
  - rewrite list_fmap_insert, <- Hm. apply list_insert_id. by rewrite list_lookup_fmap, Hi.
  - apply Forall_insert; [done|]. by split.
  - apply Forall2_same_length_lookup_2; [rewrite length_insert; by eapply Forall2_length|].
    intros j g o Hg Ho. destruct (decide (i = j)) as [<-|Hne].
    + rewrite list_lookup_insert_eq in Hg by (by eapply lookup_lt_Some). simplify_eq.
      exact (Forall2_lookup_lr _ _ _ _ _ _ Hst Hi Ho).
    + rewrite list_lookup_insert_ne in Hg by done. exact (Forall2_lookup_lr _ _ _ _ _ _ Hst Hg Ho).
Qed.

(** A record file always has a store, of whole records. *)
Lemma rec_store_ok fs i f :
  fs_ok fs → files fs !! i = Some f → has_records f →
  ∃ st fs', rec_store fs i = (Some st, fs') ∧ store_ok f (Some st) ∧ fs_ok fs' ∧
    files fs' = files fs ∧ store fs' !! i = Some (Some st).
Proof.
  intros Hok Hi Hr. pose proof (file_shape _ _ _ Hok Hi) as Hsh.
  destruct (shape_records f Hsh Hr) as (Hrl & _ & Hsz & _). unfold rec_store. rewrite Hi.
  case_if; [apply orb_true_iff in E as [E|E]; bool_prop; lia|].
  pose proof (ok_store _ Hok) as Hst. destruct (Forall2_lookup_l _ _ _ _ _ Hst Hi) as (o & Ho & Hso).
  rewrite Ho. destruct o as [st|]; cbn.
  - exists st, fs. done.
  - exists (new_store (sim_smsc fs) f). eexists. split; [done|].
    pose proof (new_store_ok (sim_smsc fs) f Hsh Hr). split; [done|]. split; [by eapply set_store_ok|].
    split; [done|]. cbn. apply list_lookup_insert_eq. by eapply lookup_lt_Some.
Qed.

Lemma rec_store_allocated fs i f st :
  fs_ok fs → files fs !! i = Some f → has_records f → store fs !! i = Some (Some st) →
  rec_store fs i = (Some st, fs).
Proof.
  intros Hok Hi Hr Hst. destruct (shape_records f (file_shape _ _ _ Hok Hi) Hr) as (Hrl & _ & Hsz & _).
  unfold rec_store. rewrite Hi, Hst. case_if; [apply orb_true_iff in E as [E|E]; bool_prop; lia|done].
Qed.

(** ** The IMSI *)
Definition nibbles (b : Z) : list Z := [Z.land b 0xF; Z.shiftr b 4].

(** EF_IMSI read back (GSM 11.11, 10.3.2): a length, the parity and the first
    digit, then two digits per byte; an even number of digits leaves a filler. *)
Definition decode_imsi (ef : list Z) : list Z :=
  let b := rd ef 1 in
  let d := Z.shiftr b 4 :: mjoin (nibbles <$> take (Z.to_nat (rd ef 0) - 1) (drop 2 ef)) in
  Z.add 48 <$> (if has b 0x8 then d else take (length d - 1) d).

Lemma nibbles_pack hi lo :
  0 ≤ hi < 16 → 0 ≤ lo < 16 → nibbles (u8 (Z.lor (Z.shiftl hi 4) lo)) = [lo; hi].
Proof.
  intros Hh Hlo. rewrite lor_shiftl_add by lia. rewrite u8_small by lia. unfold nibbles.
  change 15 with (Z.ones 4). rewrite Z.land_ones, Z.shiftr_div_pow2 by lia. f_equal; [|f_equal]; mlia.
Qed.

Lemma bcd_pairs_ok d :
  Forall (λ c, is_digit c = true) d →
  Forall is_byte (bcd_pairs d) ∧ length (bcd_pairs d) = ((length d + 1) / 2)%nat ∧
  mjoin (nibbles <$> bcd_pairs d) = ((λ c, c - 48) <$> d) ++ (if Nat.odd (length d) then [15] else []).
Proof.
  unfold is_digit. induction d as [|a|a b d IH] using pair_ind; intros Hd; [done| |].
  - inversion Hd; subst. bool_prop. split; [repeat constructor; apply u8_range|]. split; [done|].
    cbn [bcd_pairs fmap list_fmap mjoin list_join]. rewrite nibbles_pack by lia. done.
  - inversion Hd as [|? ? Ha Hd']; subst. inversion Hd' as [|? ? Hb Hd'']; subst. bool_prop.
    destruct (IH Hd'') as (B1 & B2 & B3). split; [constructor; [apply u8_range|done]|]. split.
    { cbn [bcd_pairs length]. rewrite B2. replace (S (S (length d)) + 1)%nat with (length d + 1 + 1 * 2)%nat by lia.
      rewrite Nat.div_add by done. lia. }
    cbn [bcd_pairs].
    match goal with |- mjoin (nibbles <$> (?x :: ?l)) = _ =>
      change (mjoin (nibbles <$> (x :: l))) with (nibbles x ++ mjoin (nibbles <$> l)) end.
    rewrite nibbles_pack, B3 by lia. done.
Qed.

Lemma digits_app ds rest :
  Forall (λ c, is_digit c = true) ds → digits rest = [] → digits (ds ++ rest) = ds.
Proof. intros Hds Hr. induction Hds as [|c l Hc _ IH]; cbn; [done|]. by rewrite Hc, IH. Qed.

Lemma encode_imsi_ok ds rest :
  Forall (λ c, is_digit c = true) ds → digits rest = [] → (1 <= length ds <= 15)%nat →
  ∃ bcd, encode_imsi_bcd (ds ++ rest) = Some (bcd, zlen ds / 2 + 2) ∧
    length bcd = 9%nat ∧ Forall is_byte bcd ∧ decode_imsi bcd = ds.
Proof.
  intros Hds Hrest Hn. unfold encode_imsi_bcd. rewrite digits_app by done.
  destruct ds as [|d0 d]; [cbn in Hn; lia|]. cbn [length] in Hn.
  inversion Hds as [|? ? Hd0 Hd]; subst. destruct (bcd_pairs_ok d Hd) as (Hb & Hl & Hj).
  unfold is_digit in Hd0. bool_prop.
  assert (Z.land (zlen (d0 :: d)) 1 = if Nat.odd (length d) then 0 else 1) as Hpar.
  { unfold zlen. cbn [length]. change 1 with (Z.ones 1) at 1. rewrite Z.land_ones by lia.
    change (2 ^ 1) with 2. destruct (Nat.odd (length d)) eqn:Eo.
    - apply Nat.odd_spec in Eo as [m Em]. mlia.
    - rewrite <- Nat.negb_even, negb_false_iff in Eo. apply Nat.even_spec in Eo as [m Em]. mlia. }
  rewrite Hpar. assert (zlen (d0 :: d) = Z.of_nat (length d) + 1) as Hz by (unfold zlen; cbn; lia).
  case_if; bool_prop; [lia|]. set (b1 := u8 (Z.lor _ _)). set (dl := u8 _).
  assert (nibbles b1 = [if Nat.odd (length d) then 1 else 9; d0 - 48]) as Hb1.
  { unfold b1. rewrite nibbles_pack; [by destruct (Nat.odd _)|lia|destruct (Nat.odd _); cbn; lia]. }
  injection Hb1 as Hlow Hhigh.
  assert (Z.to_nat dl - 1 = length (bcd_pairs d))%nat as Hdl.
  { unfold dl. rewrite Hl, Hz, u8_small by mlia. rewrite <- (Nat2Z.id ((length d + 1) / 2)), Nat2Z.inj_div. mlia. }
  replace (zlen (d0 :: d) / 2 + 2) with (zlen (d0 :: d) / 2 + 1 + 1) by lia.
  eexists. split; [done|]. split.
  { rewrite length_app, length_replicate. cbn [length app]. rewrite Hl.
    assert ((length d + 1) / 2 < 8)%nat by (apply Nat.Div0.div_lt_upper_bound; lia). lia. }
  split; [|].
  { apply Forall_app_2; [repeat constructor; [apply u8_range..|done]|apply Forall_replicate; unfold is_byte; lia]. }
  unfold decode_imsi. cbn [app]. change (rd (dl :: b1 :: ?l) 0) with dl. change (rd (dl :: b1 :: ?l) 1) with b1.
  rewrite !skipn_cons, skipn_O, Hdl, take_app_length, Hj, Hhigh.
  assert (has b1 8 = negb (Nat.odd (length d))) as ->.
  { unfold has. replace (Z.land b1 8) with (Z.land (Z.land b1 15) 8) by (rewrite <- Z.land_assoc; done).
    rewrite Hlow. by destruct (Nat.odd _). }
  assert (Z.add 48 <$> ((λ c, c - 48) <$> d) = d) as Hback.
  { rewrite <- list_fmap_compose. etrans; [|apply list_fmap_id]. apply list_fmap_ext. intros; cbn; lia. }
  destruct (Nat.odd (length d)); cbn [negb].
  - cbn [length]. rewrite length_app, length_fmap. cbn [length].
    replace (S (length d + 1) - 1)%nat with (S (length d)) by lia. rewrite firstn_cons.
    rewrite take_app_length' by by rewrite length_fmap. rewrite fmap_cons, Hback. f_equal. lia.
  - rewrite app_nil_r. rewrite fmap_cons, Hback. f_equal. lia.
Qed.

Definition EF_IMSI : Z := 0x6F07.

Lemma imsi_file fs : fs_ok fs →
  ∃ i f, find_file fs EF_IMSI 0 = Some i ∧ files fs !! i = Some f ∧ fid f = EF_IMSI ∧ size f = 9.
Proof.
  intros Hok. assert ((meta <$> files fs) !! 4%nat = Some (EF_IMSI, 0x7F20, EF_TRANSPARENT, 9, 0)) as E.
  { rewrite (ok_meta _ Hok). done. }
  rewrite list_lookup_fmap in E. destruct (files fs !! 4%nat) as [f|] eqn:Hf; [|done].
  injection E as E1 _ _ E4 _. exists 4%nat, f. split; [|done].
  rewrite <- E1. by apply find_file_eq.
Qed.

Lemma list_alter_lookup {A} (g : A → A) (l : list A) (i : nat) (x : A) :
  l !! i = Some x → alter g i l = <[i := g x]> l.
Proof.
  revert i. induction l as [|y l IH]; intros [|i] H; cbn in *; simplify_eq; [done|].
  f_equal. by apply IH.
Qed.

(** An [imsi] line of the configuration with one to fifteen digits is
    stored so that reading the nine bytes of EF_IMSI and decoding them as
    GSM 11.11 prescribes gives back exactly those digits, for odd and even
    lengths; the file system stays well formed. *)
Theorem imsi_roundtrip fs ds rest :
  fs_ok fs → Forall (λ c, is_digit c = true) ds → digits rest = [] → (1 <= length ds <= 15)%nat →
  fs_ok (load_imsi fs (ds ++ rest)) ∧
  ∃ i f, find_file (load_imsi fs (ds ++ rest)) EF_IMSI 0 = Some i ∧
    files (load_imsi fs (ds ++ rest)) !! i = Some f ∧ size f = 9 ∧
    decode_imsi (take 9 (data f)) = ds.
Proof.
  intros Hok Hds Hrest Hn. destruct (encode_imsi_ok ds rest Hds Hrest Hn) as (bcd & He & Hl & Hb & Hdec).
  destruct (imsi_file fs Hok) as (i & f & Hfind & Hi & Hid & Hsize).
  assert (load_imsi fs (ds ++ rest) =
    fs <| files := <[i := f <| data := bcd ++ drop 9 (data f) |>]> (files fs) |>) as ->.
  { unfold load_imsi. change 0x6F07 with EF_IMSI. rewrite He, (find_file_pref _ _ _ Hok), Hfind. unfold update_field. f_equal.
    rewrite (list_alter_lookup _ _ _ f) by done. f_equal. destruct f; cbn in *; by subst. }
  assert (fs_ok (fs <| files := <[i := f <| data := bcd ++ drop 9 (data f) |>]> (files fs) |>)) as Hok'.
  { pose proof (Forall_lookup_1 _ _ _ _ (ok_files _ Hok) Hi) as [Hfl Hfb].
    apply set_data_ok; [done..| |]; [rewrite length_app, length_drop; lia|].
    apply Forall_app_2; [done|by apply Forall_drop]. }
  split; [done|]. exists i, (f <| data := bcd ++ drop 9 (data f) |>).
  assert (files (fs <| files := <[i := f <| data := bcd ++ drop 9 (data f) |>]> (files fs) |>) !! i
          = Some (f <| data := bcd ++ drop 9 (data f) |>)) as Hi'.
  { cbn. apply list_lookup_insert_eq. by eapply lookup_lt_Some. }
  split; [|split; [done|]]. { rewrite <- Hid. exact (find_file_eq _ _ _ Hok' Hi'). }
  split; [done|]. cbn. by rewrite take_app_length'.
Qed.

Lemma imsi_roundtrip_witness :
  fs_ok (load_imsi (fs_init []) [48; 48; 49; 48; 49; 49; 50; 51; 52; 53; 54; 55; 56; 57; 48; 10]).
Proof.
  refine (proj1 (imsi_roundtrip (fs_init []) [48; 48; 49; 48; 49; 49; 50; 51; 52; 53; 54; 55; 56; 57; 48] [10] _ _ _ _)).
  - apply fs_init_ok.
  - repeat constructor.
  - done.
  - cbn. lia.
Defined.

End SIMFS.
