(* ===== verification/SimCard.v ===== *)
(** * The commands of the SIM card (second part of [calypso_sim.c])

    The card state is the file system, the selection, the response that waits
    for GET RESPONSE, the record pointer of READ RECORD (static variables of the
    function) and the key.  A command returns the bytes it pushes towards the
    terminal, in order, and the new card; [Sim] puts those bytes into the
    reception path. *)
From S2P Require Import Prelude SimFs Comp128.
Import SIMFS.

Module CARD.

Record Card := mkCard {
  fs : Fs;
  selected_df : Z;
  selected_ef : Z;
  resp_buf : list Z;
  resp_len : Z;
  rec_ef : Z;
  rec_cur : Z;
  ki : list Z;
  ki_valid : bool
}.

#[export] Instance card_eta : Settable Card := λ c,
  mkCard (fs c) (selected_df c) (selected_ef c) (resp_buf c) (resp_len c) (rec_ef c) (rec_cur c)
    (ki c) (ki_valid c).

Definition respond_sw (sw1 sw2 : Z) : list Z := [sw1; sw2].

Definition respond_with_data_pending (c : Card) (d : list Z) : list Z * Card :=
  let len := Z.min (zlen d) 64 in
  (respond_sw 0x9F (u8 len),
   c <| resp_buf := splice (resp_buf c) 0 (take (Z.to_nat len) d) |> <| resp_len := len |>).

(** The file a command works on: [find_file(s->selected_ef, 0)]. *)
Definition selected_file (c : Card) : option (nat * SimFile) :=
  i ← find_file (fs c) (selected_ef c) 0; f ← files (fs c) !! i; Some (i, f).

(** The look-up of SELECT and the directory it selects on the way. *)
Definition select_lookup (c : Card) (id : Z) : option nat * Card :=
  if id =? 0x3F00 then (find_file (fs c) 0x3F00 0, c <| selected_df := 0x3F00 |>)
  else if Z.land id 0xFF00 =? 0x7F00 then
    match find_file (fs c) id 0 with
    | Some i => (Some i, c <| selected_df := id |>)
    | None => (None, c)
    end
  else if Z.land id 0xFF00 =? 0x2F00 then (find_file (fs c) id 0x3F00, c)
  else
    match find_file (fs c) id (selected_df c) with
    | Some i => (Some i, c)
    | None => (find_file (fs c) id 0, c)
    end.

Definition cmd_select (c : Card) (lc : Z) (data : list Z) : list Z * Card :=
  if negb (lc =? 2) then (respond_sw 0x67 0x00, c)
  else
    let id := u16 (Z.lor (Z.shiftl (rd data 0) 8) (rd data 1)) in
    let '(i, c) := select_lookup c id in
    match i ≫= (λ i, files (fs c) !! i) with
    | None => (respond_sw 0x6A 0x82, c)
    | Some f =>
        let c := c <| selected_ef := fid f |> in
        respond_with_data_pending c (build_select_response f)
    end.

Definition cmd_get_response (c : Card) (le : Z) : list Z * Card :=
  if resp_len c =? 0 then (respond_sw 0x6F 0x00, c)
  else
    let n := if le =? 0 then resp_len c else if resp_len c <? le then resp_len c else le in
    (take (Z.to_nat n) (resp_buf c) ++ respond_sw 0x90 0x00, c <| resp_len := 0 |>).

Definition is_record_file (f : SimFile) : bool :=
  bool_decide (structure f = EF_LINEAR_FIXED) || bool_decide (structure f = EF_CYCLIC).

(** [n] bytes of the store from offset [o], or [n] bytes 0xFF without a store. *)
Definition record_bytes (st : option (list Z)) (o n : Z) : list Z :=
  match st with
  | Some st => take (Z.to_nat n) (drop (Z.to_nat o) st)
  | None => replicate (Z.to_nat n) 0xFF
  end.

Definition cmd_read_record (c : Card) (rec mode le : Z) : list Z * Card :=
  match selected_file c with
  | None => (respond_sw 0x94 0x00, c)
  | Some (i, f) =>
      if negb (is_record_file f) then (respond_sw 0x94 0x00, c)
      else
        let nrec := size f / rec_len f in
        let c := if negb (rec_ef c =? selected_ef c)
                 then c <| rec_ef := selected_ef c |> <| rec_cur := 0 |> else c in
        if negb ((mode =? 0x02) || (mode =? 0x03) || (mode =? 0x04)) then (respond_sw 0x6B 0x00, c)
        else
          let rec := if mode =? 0x02 then u8 (rec_cur c + 1)
                     else if mode =? 0x03 then u8 (if 0 <? rec_cur c then rec_cur c - 1 else nrec)
                     else rec in
          if (rec <? 1) || (nrec <? rec) then (respond_sw 0x94 0x02, c)
          else
            let c := c <| rec_cur := rec |> in
            let n := if le =? 0 then rec_len f else le in
            let n := if rec_len f <? n then rec_len f else n in
            let '(st, fs') := rec_store (fs c) i in
            (record_bytes st ((rec - 1) * rec_len f) n ++ respond_sw 0x90 0x00, c <| fs := fs' |>)
  end.

Definition cmd_read_binary (c : Card) (p1 p2 le : Z) : list Z * Card :=
  match selected_file c with
  | None => (respond_sw 0x94 0x00, c)
  | Some (i, f) =>
      if negb (bool_decide (structure f = EF_TRANSPARENT)) then (respond_sw 0x94 0x00, c)
      else
        let offset := Z.lor (Z.shiftl p1 8) p2 in
        let n := if le =? 0 then 256 else le in
        if size f <? offset + n then (respond_sw 0x67 0x00, c)
        else (take (Z.to_nat n) (drop (Z.to_nat offset) (data f)) ++ respond_sw 0x90 0x00, c)
  end.

Definition cmd_update_binary (c : Card) (p1 p2 lc : Z) (d : list Z) : list Z * Card :=
  match selected_file c with
  | None => (respond_sw 0x94 0x08, c)
  | Some (i, f) =>
      if negb (bool_decide (structure f = EF_TRANSPARENT)) then (respond_sw 0x94 0x08, c)
      else
        let offset := Z.lor (Z.shiftl p1 8) p2 in
        if size f <? offset + lc then (respond_sw 0x67 0x00, c)
        else
          let c := if offset + lc <=? 64
                   then c <| fs := (fs c) <| files := <[i := f <| data := splice (data f) offset (take (Z.to_nat lc) d) |>]> (files (fs c)) |> |>
                   else c in
          (respond_sw 0x90 0x00, c)
  end.

(** [d] is [None] when the command carries no data (a null pointer). *)
Definition cmd_update_record (c : Card) (rec mode lc : Z) (d : option (list Z)) : list Z * Card :=
  match selected_file c with
  | None => (respond_sw 0x94 0x08, c)
  | Some (i, f) =>
      if negb (is_record_file f) then (respond_sw 0x94 0x08, c)
      else if negb (lc =? rec_len f) then (respond_sw 0x67 0x00, c)
      else
        let nrec := size f / rec_len f in
        if (mode =? 0x04) && ((rec <? 1) || (nrec <? rec)) then (respond_sw 0x94 0x02, c)
        else if mode =? 0x04 then
          let '(st, fs') := rec_store (fs c) i in
          let fs' := match st, d with
                     | Some st, Some d =>
                         fs' <| store := <[i := Some (splice st ((rec - 1) * rec_len f) (take (Z.to_nat lc) d))]> (store fs') |>
                     | _, _ => fs'
                     end in
          (respond_sw 0x90 0x00, c <| fs := fs' |>)
        else (respond_sw 0x90 0x00, c)
  end.

Definition cmd_status (c : Card) (le : Z) : list Z * Card :=
  match find_file (fs c) (selected_df c) 0 ≫= (λ i, files (fs c) !! i) with
  | None => (respond_sw 0x6F 0x00, c)
  | Some df =>
      let resp := build_select_response df in
      let n := zlen resp in
      let outn := if (le =? 0) || (n <? le) then n else le in
      (take (Z.to_nat outn) resp ++ respond_sw 0x90 0x00, c)
  end.

Definition cmd_verify_chv (c : Card) : list Z * Card := (respond_sw 0x90 0x00, c).

Definition cmd_run_gsm_algo (c : Card) (lc : Z) (d : list Z) : list Z * Card :=
  if negb (lc =? 16) then (respond_sw 0x67 0x00, c)
  else
    let resp := if ki_valid c then let '(sres, kc) := COMP128.comp128v1 (ki c) (take 16 d) in sres ++ kc
                else ((λ i, Z.lxor (rd d i) 0xAA) <$> zseq 0 4) ++ replicate 8 0 in
    respond_with_data_pending c resp.

(** A command that returns data starts with the procedure byte. *)
Definition returns_data (ins : Z) : bool :=
  (ins =? 0xC0) || (ins =? 0xB0) || (ins =? 0xB2) || (ins =? 0xF2) || (ins =? 0x12).

(** The [switch] of [dispatch_apdu]; [data] is [None] for a null pointer, which
    all the handlers but UPDATE RECORD receive as an empty string. *)
Definition command (c : Card) (ins p1 p2 p3 : Z) (data : option (list Z)) : list Z * Card :=
  let str := default [0] data in
  if ins =? 0xA4 then cmd_select c p3 str
  else if ins =? 0xB0 then cmd_read_binary c p1 p2 p3
  else if ins =? 0xB2 then cmd_read_record c p1 p2 p3
  else if ins =? 0xD6 then cmd_update_binary c p1 p2 p3 str
  else if ins =? 0xDC then cmd_update_record c p1 p2 p3 data
  else if ins =? 0xC0 then cmd_get_response c p3
  else if ins =? 0xF2 then cmd_status c p3
  else if ins =? 0x20 then cmd_verify_chv c
  else if ins =? 0x88 then cmd_run_gsm_algo c p3 str
  else (respond_sw 0x6D 0x00, c).

(** The bytes [dispatch_apdu] pushes for the APDU in the buffer, and the card. *)
Definition execute (c : Card) (apdu : list Z) (apdu_pos : Z) : list Z * Card :=
  let ins := rd apdu 1 in
  let data := if 5 <? apdu_pos then Some (drop 5 apdu) else None in
  let '(out, c) := command c ins (rd apdu 2) (rd apdu 3) (rd apdu 4) data in
  ((if returns_data ins then [ins] else []) ++ out, c).

(** ** The card invariant *)
Record card_ok (c : Card) : Prop := {
  ok_fs : fs_ok (fs c);
  ok_resp : zlen (resp_buf c) = 64 ∧ Forall is_byte (resp_buf c);
  ok_resp_len : 0 ≤ resp_len c ≤ 64;
  ok_ki : length (ki c) = 16%nat ∧ Forall is_byte (ki c)
}.

(** What a command hands to the interface: at most 258 bytes, and a well-formed
    card. *)
Definition result_ok (r : list Z * Card) : Prop :=
  Forall is_byte r.1 ∧ zlen r.1 ≤ 258 ∧ card_ok r.2.

(** Closes [Forall is_byte] of an explicit list. *)
Ltac solve_bytes :=
  repeat (apply Forall_cons_2; [first [done | unfold is_byte; lia]|]); try apply Forall_nil_2.

Lemma respond_sw_ok a b c : is_byte a → is_byte b → card_ok c → result_ok (respond_sw a b, c).
Proof. intros. split; [by solve_bytes|]. split; [unfold zlen; cbn; lia|done]. Qed.

Lemma respond_data_ok d c :
  Forall is_byte d → zlen d ≤ 256 → card_ok c → result_ok (d ++ respond_sw 0x90 0x00, c).
Proof.
  intros Hd Hl Hc. split; cbn [fst snd].
  - apply Forall_app_2; [done|]. solve_bytes.
  - split; [|done]. unfold zlen in *. rewrite length_app. cbn. lia.
Qed.

Ltac solve_sw := apply respond_sw_ok; [unfold is_byte; lia..|try done].

Lemma pending_ok c d : Forall is_byte d → card_ok c → result_ok (respond_with_data_pending c d).
Proof.
  intros Hd [Hfs [Hr Hrb] Hrl Hki]. unfold respond_with_data_pending.
  apply respond_sw_ok; [unfold is_byte; lia|apply u8_range|].
  assert (zlen (take (Z.to_nat (Z.min (zlen d) 64)) d) ≤ 64) by (unfold zlen; rewrite length_take; lia).
  split; cbn; [done| |unfold zlen; lia|done]. split.
  - unfold zlen. rewrite length_splice; unfold zlen in *; lia.
  - apply splice_Forall; [done|by apply Forall_take].
Qed.

Lemma selected_file_Some c i f :
  selected_file c = Some (i, f) → files (fs c) !! i = Some f ∧ fid f = selected_ef c.
Proof.
  unfold selected_file. intros E. destruct (find_file (fs c) (selected_ef c) 0) as [j|] eqn:Ej; [|done].
  apply find_file_Some in Ej as (g & Hg & Hid). cbn in E. rewrite Hg in E. cbn in E. by simplify_eq.
Qed.

Lemma selected_file_eq c i f :
  fs_ok (fs c) → files (fs c) !! i = Some f → fid f = selected_ef c → selected_file c = Some (i, f).
Proof.
  intros Hok Hi Hid. unfold selected_file. rewrite <- Hid, (find_file_eq _ i f) by done. cbn. by rewrite Hi.
Qed.

Lemma select_response_ok f : shape f = true →
  Forall is_byte (build_select_response f) ∧ (length (build_select_response f) <= 25)%nat.
Proof.
  intros Hs. assert (is_byte (rec_len f)) as Hr.
  { unfold shape in Hs. unfold is_byte. destruct (structure f); bool_prop; lia. }
  assert (∀ x, is_byte (Z.land x 255)) as Hl.
  { intros x. pose proof (land_range x 255). unfold is_byte. lia. }
  unfold build_select_response. split.
  - apply Forall_app_2; [solve_bytes|]. repeat case_match; solve_bytes.
  - rewrite length_app. case_match; cbn; lia.
Qed.

Lemma select_lookup_ok c id : card_ok c →
  card_ok (select_lookup c id).2 ∧ fs (select_lookup c id).2 = fs c.
Proof. intros [? ? ? ?]. unfold select_lookup. repeat case_match; (split; [by split|done]). Qed.

Lemma cmd_select_ok c lc d : card_ok c → result_ok (cmd_select c lc d).
Proof.
  intros Hc. unfold cmd_select. case_if; [by solve_sw|].
  destruct (select_lookup _ _) as [i c'] eqn:Es.
  destruct (select_lookup_ok c (u16 (Z.lor (Z.shiftl (rd d 0) 8) (rd d 1))) Hc) as [Hc' Hfs].
  rewrite Es in Hc', Hfs. cbn in Hc', Hfs. destruct (i ≫= _) as [f|] eqn:Ef; [|by solve_sw].
  destruct i as [i|]; [|done]. cbn in Ef. apply pending_ok.
  - apply select_response_ok. eapply file_shape; [apply (ok_fs _ Hc')|exact Ef].
  - destruct Hc'. by split.
Qed.

Lemma is_record_file_spec f : is_record_file f = true ↔ has_records f.
Proof.
  unfold is_record_file, has_records. rewrite orb_true_iff, !bool_decide_eq_true. done.
Qed.

Lemma cmd_get_response_ok c le : card_ok c → result_ok (cmd_get_response c le).
Proof.
  intros Hc. unfold cmd_get_response. case_if; [by solve_sw|].
  destruct Hc as [Hfs [Hr Hrb] Hrl Hki]. apply respond_data_ok.
  - by apply Forall_take.
  - unfold zlen in *. rewrite length_take. lia.
  - split; cbn; [done..|lia|done].
Qed.

Lemma record_bytes_ok st o n :
  match st with Some st => Forall is_byte st | None => True end → n ≤ 256 →
  Forall is_byte (record_bytes st o n) ∧ zlen (record_bytes st o n) ≤ 256.
Proof.
  unfold record_bytes, zlen. destruct st as [st|]; intros Hst Hn.
  - split; [by apply Forall_take, Forall_drop|]. rewrite length_take. lia.
  - split; [apply Forall_replicate; unfold is_byte; lia|]. rewrite length_replicate. lia.
Qed.

Lemma cmd_read_record_ok c rec mode le : card_ok c → result_ok (cmd_read_record c rec mode le).
Proof.
  intros Hc. unfold cmd_read_record. destruct (selected_file c) as [[i f]|] eqn:Ef; [|by solve_sw].
  apply selected_file_Some in Ef as [Hi Hid]. case_if; bool_prop; [by solve_sw|].
  apply is_record_file_spec in E. destruct (rec_store_ok (fs c) i f (ok_fs _ Hc) Hi E) as (st & fs' & Hst & [_ Hsb] & Hok & _).
  pose proof (shape_records f (file_shape _ _ _ (ok_fs _ Hc) Hi) E) as (Hrl & _).
  set (c1 := if negb (rec_ef c =? selected_ef c) then _ else c).
  assert (card_ok c1 ∧ fs c1 = fs c) as [Hc1 Hfs].
  { unfold c1. destruct Hc. case_if; (split; [by split|done]). }
  clearbody c1. case_if; [by solve_sw|]. set (rec' := if mode =? 2 then _ else _). clearbody rec'.
  case_if; [by solve_sw|].
  change (fs (c1 <| rec_cur := rec' |>)) with (fs c1). rewrite Hfs, Hst.
  destruct (record_bytes_ok (Some st) ((rec' - 1) * rec_len f)
    (if rec_len f <? (if le =? 0 then rec_len f else le) then rec_len f else if le =? 0 then rec_len f else le))
    as [Hb Hl]; [done|case_ifs; lia|].
  apply respond_data_ok; [done..|]. destruct Hc1. by split.
Qed.

Lemma cmd_read_binary_ok c p1 p2 le : le < 256 → card_ok c → result_ok (cmd_read_binary c p1 p2 le).
Proof.
  intros Hle Hc. unfold cmd_read_binary. destruct (selected_file c) as [[i f]|] eqn:Ef; [|by solve_sw].
  apply selected_file_Some in Ef as [Hi _]. case_if; [by solve_sw|]. case_if; [by solve_sw|].
  pose proof (Forall_lookup_1 _ _ _ _ (ok_files _ (ok_fs _ Hc)) Hi) as [_ Hfb].
  apply respond_data_ok; [by apply Forall_take, Forall_drop| |done].
  unfold zlen. rewrite length_take. case_ifs; lia.
Qed.

Lemma cmd_update_binary_ok c p1 p2 lc d :
  is_byte p1 → is_byte p2 → 0 ≤ lc → Forall is_byte d → card_ok c → result_ok (cmd_update_binary c p1 p2 lc d).
Proof.
  intros Hp1 Hp2 Hlc Hd Hc. unfold cmd_update_binary.
  destruct (selected_file c) as [[i f]|] eqn:Ef; [|by solve_sw].
  apply selected_file_Some in Ef as [Hi _]. case_if; [by solve_sw|]. case_if; [by solve_sw|].
  solve_sw. case_if; [|done]. bool_prop.
  pose proof (Forall_lookup_1 _ _ _ _ (ok_files _ (ok_fs _ Hc)) Hi) as [Hfl Hfb].
  destruct Hc. split; cbn; [|done..]. apply set_data_ok; [done..| |].
  - assert (0 ≤ Z.lor (Z.shiftl p1 8) p2) by (unfold is_byte in *; rewrite lor_shiftl_add; lia).
    rewrite length_splice; unfold zlen; rewrite ?length_take; lia.
  - apply splice_Forall; [done|by apply Forall_take].
Qed.

(** A record of the store and the bytes of an UPDATE RECORD. *)
Lemma record_fits f rec : shape f = true → has_records f → 1 ≤ rec ≤ size f / rec_len f →
  0 ≤ (rec - 1) * rec_len f ∧ (rec - 1) * rec_len f + rec_len f ≤ size f.
Proof.
  intros Hs Hr Hrec. destruct (shape_records f Hs Hr) as (Hrl & Hsz & _).
  split; [nia|]. rewrite Hsz. nia.
Qed.

Lemma cmd_update_record_ok c rec mode lc d :
  (∀ l, d = Some l → Forall is_byte l) → card_ok c → result_ok (cmd_update_record c rec mode lc d).
Proof.
  intros Hd Hc. unfold cmd_update_record. destruct (selected_file c) as [[i f]|] eqn:Ef; [|by solve_sw].
  apply selected_file_Some in Ef as [Hi Hid]. case_if; bool_prop; [by solve_sw|].
  apply is_record_file_spec in E. pose proof (file_shape _ _ _ (ok_fs _ Hc) Hi) as Hsh.
  destruct (rec_store_ok (fs c) i f (ok_fs _ Hc) Hi E) as (st & fs' & -> & [Hsl Hsb] & Hok & Hfiles & _).
  pose proof (shape_records f Hsh E) as (Hrl & _).
  case_if; bool_prop; [by solve_sw|]. case_if; [by solve_sw|]. case_if; [|by solve_sw]. bool_prop. solve_sw.
  destruct Hc as [Hfs Hr Hl Hk]. split; cbn; [|done..]. destruct d as [d|]; [|done].
  apply andb_false_iff in E1 as [E1|E1]; bool_prop; [done|].
  destruct (record_fits f rec Hsh E) as [? ?]; [lia|].
  apply (set_store_ok _ i f); [done|by rewrite Hfiles|]. split.
  - unfold zlen in *. rewrite length_splice; unfold zlen; rewrite ?length_take; lia.
  - apply splice_Forall; [done|by apply Forall_take, Hd].
Qed.

Lemma cmd_status_ok c le : card_ok c → result_ok (cmd_status c le).
Proof.
  intros Hc. unfold cmd_status. destruct (find_file _ _ _) as [i|]; cbn [mbind option_bind]; [|by solve_sw].
  destruct (files (fs c) !! i) as [f|] eqn:Hi; [|by solve_sw].
  destruct (select_response_ok f (file_shape _ _ _ (ok_fs _ Hc) Hi)) as [Hb Hl].
  apply respond_data_ok; [by apply Forall_take| |done]. revert Hl. generalize (build_select_response f).
  intros l Hl. unfold zlen. rewrite length_take. lia.
Qed.

Lemma comp128v1_bytes k r : let '(sres, kc) := COMP128.comp128v1 k r in
  length sres = 4%nat ∧ length kc = 8%nat ∧ Forall is_byte (sres ++ kc).
Proof.
  unfold COMP128.comp128v1. split; [by rewrite length_fmap, length_zseq|].
  split; [by rewrite length_app, length_fmap, length_zseq|].
  repeat apply Forall_app_2; [apply Forall_fmap, Forall_true; intros; apply u8_range..|].
  apply Forall_cons_2; [apply u8_range|]. solve_bytes.
Qed.

Lemma cmd_run_gsm_algo_ok c lc d :
  Forall is_byte d → card_ok c → result_ok (cmd_run_gsm_algo c lc d).
Proof.
  intros Hd Hc. unfold cmd_run_gsm_algo. case_if; [by solve_sw|]. apply pending_ok; [|done].
  destruct (ki_valid c).
  - pose proof (comp128v1_bytes (ki c) (take 16 d)) as Hb.
    destruct (COMP128.comp128v1 _ _) as [sres kc]. apply Hb.
  - apply Forall_app_2; [|apply Forall_replicate; unfold is_byte; lia].
    apply Forall_fmap, Forall_true. intros k. apply (lxor_range 8); [lia| |lia].
    apply rd_Forall; [lia|done].
Qed.

Lemma command_ok c ins p1 p2 p3 d :
  is_byte p1 → is_byte p2 → is_byte p3 → (∀ l, d = Some l → Forall is_byte l) →
  card_ok c → result_ok (command c ins p1 p2 p3 d).
Proof.
  intros H1 H2 H3 Hd Hc. assert (Forall is_byte (default [0] d)) as Hs.
  { destruct d; [by apply Hd|]. solve_bytes. }
  unfold is_byte in H3. unfold command.
  repeat (case_if; [first [apply cmd_select_ok | apply cmd_read_binary_ok | apply cmd_read_record_ok |
    apply cmd_update_binary_ok | apply cmd_update_record_ok | apply cmd_get_response_ok |
    apply cmd_status_ok | unfold cmd_verify_chv; solve_sw | apply cmd_run_gsm_algo_ok]; first [done|lia]|]).
  by solve_sw.
Qed.

Lemma execute_ok c apdu pos :
  Forall is_byte apdu → card_ok c →
  Forall is_byte (execute c apdu pos).1 ∧ zlen (execute c apdu pos).1 ≤ 259 ∧ card_ok (execute c apdu pos).2.
Proof.
  intros Ha Hc. unfold execute.
  assert (∀ k, is_byte (rd apdu k)) as Hrd by (intros; apply rd_Forall; [unfold is_byte; lia|done]).
  destruct (command_ok c (rd apdu 1) (rd apdu 2) (rd apdu 3) (rd apdu 4)
    (if 5 <? pos then Some (drop 5 apdu) else None)) as (Hb & Hl & Hok); try done.
  { intros l E. case_match; [|done]. simplify_eq. by apply Forall_drop. }
  destruct (command _ _ _ _ _ _) as [out c']. cbn in *. case_match; cbn.
  - split; [by apply Forall_cons_2|]. unfold zlen in *. cbn. split; [lia|done].
  - split; [done|]. split; [lia|done].
Qed.

(** ** Round trips *)
(** Rewriting a file in place leaves it selected. *)
Lemma selected_file_update c i f g s' :
  card_ok c → selected_file c = Some (i, f) → fs_ok s' → files s' !! i = Some g → fid g = fid f →
  selected_file (c <| fs := s' |>) = Some (i, g).
Proof.
  intros Hc Hsel Hok Hg E. apply selected_file_Some in Hsel as [_ Hid].
  apply selected_file_eq; [done..|]. cbn. congruence.
Qed.

Lemma update_then_read_binary c i f p1 p2 lc d :
  card_ok c → selected_file c = Some (i, f) → structure f = EF_TRANSPARENT →
  is_byte p1 → is_byte p2 → 0 < lc < 256 → lc ≤ zlen d → Forall is_byte d → p1 * 256 + p2 + lc ≤ size f →
  ∃ c', cmd_update_binary c p1 p2 lc d = ([0x90; 0x00], c') ∧
    cmd_read_binary c' p1 p2 lc = (take (Z.to_nat lc) d ++ [0x90; 0x00], c').
Proof.
  intros Hc Hsel Hst Hp1 Hp2 Hlc Hd Hdb Hfit. pose proof (selected_file_Some _ _ _ Hsel) as [Hi Hid].
  pose proof (file_shape _ _ _ (ok_fs _ Hc) Hi) as Hsh. unfold shape in Hsh. rewrite Hst in Hsh. bool_prop.
  pose proof (Forall_lookup_1 _ _ _ _ (ok_files _ (ok_fs _ Hc)) Hi) as [Hfl Hfb].
  assert (Z.lor (Z.shiftl p1 8) p2 = p1 * 256 + p2) as Ho by (unfold is_byte in *; rewrite lor_shiftl_add; lia).
  unfold is_byte in Hp1, Hp2.
  assert (zlen (take (Z.to_nat lc) d) = lc) as Hl by (unfold zlen in *; rewrite length_take; lia).
  set (g := f <| data := splice (data f) (p1 * 256 + p2) (take (Z.to_nat lc) d) |>).
  set (s' := (fs c) <| files := <[i := g]> (files (fs c)) |>).
  assert (fs_ok s') as Hok'.
  { apply set_data_ok; [apply (ok_fs _ Hc)|done| |apply splice_Forall; auto using Forall_take].
    rewrite length_splice; unfold zlen in *; lia. }
  exists (c <| fs := s' |>). unfold cmd_update_binary. rewrite Hsel, Hst, Ho. cbn [negb bool_decide decide].
  destruct (Z.ltb_spec (size f) (p1 * 256 + p2 + lc)); [lia|].
  destruct (Z.leb_spec (p1 * 256 + p2 + lc) 64); [|lia]. split; [done|].
  unfold cmd_read_binary. rewrite Ho, (selected_file_update c i f g s'); try done.
  2: { unfold s'. cbn. apply list_lookup_insert_eq. by eapply lookup_lt_Some. }
  change (structure g) with (structure f). change (size g) with (size f). rewrite Hst. cbn [negb bool_decide decide].
  destruct (Z.eqb_spec lc 0); [lia|]. destruct (Z.ltb_spec (size f) (p1 * 256 + p2 + lc)); [lia|].
  do 2 f_equal. etrans; [|apply (take_splice (data f) (p1 * 256 + p2)); unfold zlen in *; lia].
  unfold g. cbn [data update_field]. f_equal. unfold zlen in *. lia.
Qed.

(** READ RECORD of a whole record in absolute mode reads the store. *)
Lemma read_record_absolute c i f st k :
  selected_file c = Some (i, f) → has_records f → (rec_store (fs c) i).1 = Some st →
  0 < rec_len f → 1 ≤ k ≤ size f / rec_len f →
  (cmd_read_record c k 0x04 (rec_len f)).1 =
  take (Z.to_nat (rec_len f)) (drop (Z.to_nat ((k - 1) * rec_len f)) st) ++ [0x90; 0x00].
Proof.
  intros Hsel Hr Hst Hrl Hk. unfold cmd_read_record.
  rewrite Hsel, (proj2 (is_record_file_spec f) Hr). cbn [negb].
  set (c1 := if negb (rec_ef c =? selected_ef c) then _ else c).
  assert (fs c1 = fs c) as Hfs by (unfold c1; by case_if). clearbody c1. cbn.
  destruct (Z.ltb_spec k 1); [lia|]. destruct (Z.ltb_spec (size f / rec_len f) k); [lia|]. cbn [orb].
  rewrite Hfs. destruct (rec_store (fs c) i) as [o s']. cbn in Hst. subst o. cbn [fst].
  destruct (Z.eqb_spec (rec_len f) 0); [lia|]. rewrite Z.ltb_irrefl. done.
Qed.

(** UPDATE RECORD (absolute) is read back by READ RECORD, and every other record
    reads as before. *)
Lemma update_then_read_record c i f rec d :
  card_ok c → selected_file c = Some (i, f) → has_records f →
  1 ≤ rec ≤ size f / rec_len f → rec_len f ≤ zlen d → Forall is_byte d →
  ∃ c', cmd_update_record c rec 0x04 (rec_len f) (Some d) = ([0x90; 0x00], c') ∧ card_ok c' ∧ selected_file c' = Some (i, f) ∧
    ∀ k, 1 ≤ k ≤ size f / rec_len f →
      (cmd_read_record c' k 0x04 (rec_len f)).1 =
      if k =? rec then take (Z.to_nat (rec_len f)) d ++ [0x90; 0x00]
      else (cmd_read_record c k 0x04 (rec_len f)).1.
Proof.
  intros Hc Hsel Hr Hrec Hd Hdb. pose proof (selected_file_Some _ _ _ Hsel) as [Hi Hid].
  pose proof (file_shape _ _ _ (ok_fs _ Hc) Hi) as Hsh. destruct (shape_records f Hsh Hr) as (Hrl & _).
  destruct (rec_store_ok (fs c) i f (ok_fs _ Hc) Hi Hr) as (st & fs' & Est & [Hsl Hsb] & Hok & Hfiles & Hst).
  set (st' := splice st ((rec - 1) * rec_len f) (take (Z.to_nat (rec_len f)) d)).
  set (c' := c <| fs := fs' <| store := <[i := Some st']> (store fs') |> |>).
  assert (cmd_update_record c rec 4 (rec_len f) (Some d) = ([144; 0], c')) as Eup.
  { unfold cmd_update_record. rewrite Hsel, (proj2 (is_record_file_spec f) Hr), Z.eqb_refl, Est. cbn [negb].
    case_if; [|done]. cbn in E. apply orb_true_iff in E as [E|E]; bool_prop; lia. }
  pose proof (cmd_update_record_ok c rec 4 (rec_len f) (Some d)) as Hres.
  rewrite Eup in Hres. destruct Hres as (_ & _ & Hc'); [by intros ? [= <-]|done|]. cbn in Hc'.
  assert (files (fs c') !! i = Some f) as Hi' by (unfold c'; cbn; by rewrite Hfiles).
  assert (selected_file c' = Some (i, f)) as Hsel'.
  { apply (selected_file_update c i f f); [done..|apply (ok_fs _ Hc')|done|done]. }
  exists c'. split; [done|]. split; [done|]. split; [done|]. intros k Hk.
  rewrite (read_record_absolute c' i f st'), (read_record_absolute c i f st); try done; try lia.
  - destruct (record_fits f rec Hsh Hr Hrec), (record_fits f k Hsh Hr Hk).
    assert (zlen (take (Z.to_nat (rec_len f)) d) = rec_len f) as Hl by (unfold zlen in *; rewrite length_take; lia).
    destruct (Z.eqb_spec k rec) as [->|Hne]; f_equal.
    + etrans; [|apply (take_splice st ((rec - 1) * rec_len f)); unfold zlen in *; lia].
      f_equal. unfold zlen in *. lia.
    + apply slice_splice_ne; [lia..|]. rewrite Hl. nia.
  - by rewrite Est.
  - rewrite (rec_store_allocated _ i f st'); [done|apply (ok_fs _ Hc')|done|done|].
    unfold c'. cbn. apply list_lookup_insert_eq. by eapply lookup_lt_Some.
Qed.

(** Reading a record changes what no other read returns. *)
Lemma read_record_stable c i f rec k :
  card_ok c → selected_file c = Some (i, f) → has_records f → 1 ≤ k ≤ size f / rec_len f →
  (cmd_read_record (cmd_read_record c rec 0x04 (rec_len f)).2 k 0x04 (rec_len f)).1 =
  (cmd_read_record c k 0x04 (rec_len f)).1.
Proof.
  intros Hc Hsel Hr Hk. pose proof (selected_file_Some _ _ _ Hsel) as [Hi Hid].
  pose proof (file_shape _ _ _ (ok_fs _ Hc) Hi) as Hsh. destruct (shape_records f Hsh Hr) as (Hrl & _).
  destruct (rec_store_ok (fs c) i f (ok_fs _ Hc) Hi Hr) as (st & fs' & Est & Hso & Hok & Hfiles & Hst).
  set (c2 := (cmd_read_record c rec 4 (rec_len f)).2).
  assert (selected_ef c2 = selected_ef c ∧ (fs c2 = fs c ∨ fs c2 = fs')) as [Hef Hfs].
  { unfold c2, cmd_read_record. rewrite Hsel, (proj2 (is_record_file_spec f) Hr). cbn [negb].
    set (c1 := if negb (rec_ef c =? selected_ef c) then _ else c).
    assert (fs c1 = fs c ∧ selected_ef c1 = selected_ef c) as [E1 E2] by (unfold c1; by case_if). clearbody c1.
    cbn. case_if; [by auto|]. rewrite E1, Est. cbn. auto. }
  clearbody c2. assert (fs_ok (fs c2) ∧ files (fs c2) = files (fs c)) as [Hok2 Hf2].
  { destruct Hfs as [->| ->]; [split; [apply (ok_fs _ Hc)|done]|done]. }
  rewrite (read_record_absolute c2 i f st), (read_record_absolute c i f st); try done; try lia.
  - by rewrite Est.
  - apply selected_file_eq; [done|by rewrite Hf2|by rewrite Hef].
  - destruct Hfs as [->| ->]; [by rewrite Est|]. rewrite (rec_store_allocated _ i f st); try done. by rewrite Hfiles.
Qed.

(** What a command leaves pending is what GET RESPONSE fetches. *)
Lemma pending_then_get c d :
  zlen (resp_buf c) = 64 → 0 < zlen d ≤ 64 →
  ∃ c', respond_with_data_pending c d = ([0x9F; zlen d], c') ∧
    cmd_get_response c' (zlen d) = (d ++ [0x90; 0x00], c' <| resp_len := 0 |>) ∧
    fs c' = fs c ∧ selected_ef c' = selected_ef c ∧ selected_df c' = selected_df c.
Proof.
  intros Hr Hd. eexists. unfold respond_with_data_pending. rewrite Z.min_l by lia.
  rewrite (take_ge d) by (unfold zlen; lia). split; [unfold respond_sw; by rewrite u8_small by lia|].
  split; [|done]. unfold cmd_get_response. cbn [resp_len resp_buf update_field].
  destruct (Z.eqb_spec (zlen d) 0); [lia|]. rewrite Z.ltb_irrefl. do 2 f_equal.
  pose proof (take_splice (resp_buf c) 0 d) as E. unfold zlen in *. rewrite Nat2Z.id. apply E; lia.
Qed.

Lemma select_lookup_found c i f :
  card_ok c → files (fs c) !! i = Some f → (select_lookup c (fid f)).1 = Some i.
Proof.
  intros Hc Hi. pose proof (find_file_eq _ i f (ok_fs _ Hc) Hi) as E. unfold select_lookup.
  case_if; bool_prop; [by rewrite <- E0|]. case_if; [by rewrite E|].
  case_if; [|]; by rewrite (find_file_pref _ _ _ (ok_fs _ Hc)), E.
Qed.

Lemma select_then_get c i f rest :
  card_ok c → files (fs c) !! i = Some f →
  ∃ n c', cmd_select c 2 (fid f / 256 :: fid f mod 256 :: rest) = ([0x9F; n], c') ∧
    selected_file c' = Some (i, f) ∧ n = zlen (build_select_response f) ∧
    cmd_get_response c' n = (build_select_response f ++ [0x90; 0x00], c' <| resp_len := 0 |>).
Proof.
  intros Hc Hi. pose proof (file_shape _ _ _ (ok_fs _ Hc) Hi) as Hsh.
  assert (0 ≤ fid f < 65536) as Hid by (unfold shape in Hsh; bool_prop; lia).
  unfold cmd_select. cbn [negb Z.eqb Pos.eqb].
  change (rd (?a :: ?b :: rest) 0) with a. change (rd (?a :: ?b :: rest) 1) with b.
  rewrite lor_shiftl_add, u16_small by mlia. replace (fid f / 256 * 2 ^ 8 + fid f mod 256) with (fid f) by mlia.
  pose proof (select_lookup_found c i f Hc Hi) as E. pose proof (select_lookup_ok c (fid f) Hc) as [Hc' Hfs].
  destruct (select_lookup c (fid f)) as [o c1]. cbn [fst snd] in *. subst o. cbn [mbind option_bind]. rewrite Hfs, Hi.
  destruct (select_response_ok f Hsh) as [_ Hlen].
  assert (0 < zlen (build_select_response f)) as Hpos by (unfold build_select_response, zlen; rewrite length_app; cbn; lia).
  revert Hlen Hpos. generalize (build_select_response f) as d. intros d Hlen Hpos.
  destruct (pending_then_get (c1 <| selected_ef := fid f |>) d) as (c2 & E1 & E2 & E3 & E4 & _);
    [apply (ok_resp _ Hc')|unfold zlen in *; lia|].
  exists (zlen d), c2. split; [done|]. split; [|done].
  apply selected_file_eq; [by rewrite E3; apply (ok_fs _ Hc')|by rewrite E3; cbn; rewrite Hfs|by rewrite E4].
Qed.

Lemma run_gsm_then_get c rand rest sres kc :
  card_ok c → ki_valid c = true → length rand = 16%nat → COMP128.comp128v1 (ki c) rand = (sres, kc) →
  ∃ c', cmd_run_gsm_algo c 16 (rand ++ rest) = ([0x9F; 12], c') ∧
    cmd_get_response c' 12 = (sres ++ kc ++ [0x90; 0x00], c' <| resp_len := 0 |>).
Proof.
  intros Hc Hk Hr E. pose proof (comp128v1_bytes (ki c) rand) as Hb. rewrite E in Hb. destruct Hb as (Hs & Hkc & _).
  unfold cmd_run_gsm_algo. rewrite Hk, take_app_length', E by done. cbn [negb Z.eqb Pos.eqb].
  assert (zlen (sres ++ kc) = 12) as Hl by (unfold zlen; rewrite length_app; lia).
  destruct (pending_then_get c (sres ++ kc)) as (c' & E1 & E2 & _); [apply (ok_resp _ Hc)|lia|].
  rewrite Hl in *. exists c'. split; [done|]. by rewrite E2, <- app_assoc.
Qed.

End CARD.
