(* ===== verification/Sim.v ===== *)
(** * The SIM interface (third part of [calypso_sim.c])

    The registers of the SIM interface, the reception ring, the assembly of the
    command APDUs from the bytes written to DTX, the deferred responses and the
    timers.  A timer is the deadline it is armed for; the virtual clock is an
    argument of the operations that read it. *)
From S2P Require Import Prelude Ring SimFs SimCard Comp128.
Import SIMFS.
Import CARD.

Module SIM.

Definition APDU_MAX_LEN : Z := 261.
Definition RX_FIFO_SIZE : Z := 512.
Definition PEND_SIZE : Z := APDU_MAX_LEN + 16.
Definition SIM_ATR : list Z := [0x3B; 0x02; 0x14; 0x50].
Definition ATR_DELAY_NS : Z := 1000000.
Definition WT_DELAY_NS : Z := 2000000.
Definition RESP_DELAY_NS : Z := 1500000.
Definition APDU_ABANDON_NS : Z := 500000000.

Definition REG_CMD : Z := 0x00.
Definition REG_STAT : Z := 0x02.
Definition REG_CONF1 : Z := 0x04.
Definition REG_CONF2 : Z := 0x06.
Definition REG_IT : Z := 0x08.
Definition REG_DRX : Z := 0x0A.
Definition REG_DTX : Z := 0x0C.
Definition REG_MASKIT : Z := 0x0E.
Definition REG_IT_CD : Z := 0x10.

Definition CMD_CARDRST : Z := 1.
Definition CMD_IFRST : Z := 2.
Definition CMD_STOP : Z := 4.
Definition CMD_START : Z := 8.

Definition STAT_NOCARD : Z := 1.
Definition STAT_TXPAR : Z := 2.
Definition STAT_FIFOFULL : Z := 4.
Definition STAT_FIFOEMPTY : Z := 8.

Definition IT_NATR : Z := 1.
Definition IT_WT : Z := 2.
Definition IT_OV : Z := 4.
Definition IT_TX : Z := 8.
Definition IT_RX : Z := 16.

Definition CONF1_SCLKEN : Z := 8.
Definition CONF1_BYPASS : Z := 256.
Definition CONF1_SVCCLEV : Z := 512.
Definition CONF1_SRSTLEV : Z := 1024.

Record CalypsoSim := mkSim {
  card : Card;
  cmd : Z; stat : Z; conf1 : Z; conf2 : Z; maskit : Z; it_cd : Z;
  it : Z;
  apdu : list Z;
  apdu_pos : Z;
  apdu_expected : Z;
  rx : list Z;
  rx_head : Z;
  rx_tail : Z;
  powered : bool;
  atr_manual_done : bool;
  defer : bool;
  pend : list Z;
  pend_len : Z;
  last_tx_ns : Z;
  atr_timer : option Z;
  wt_timer : option Z;
  resp_timer : option Z;
  tx_timer : option Z;
  irq : bool
}.

#[export] Instance sim_eta : Settable CalypsoSim := λ s,
  mkSim (card s) (cmd s) (stat s) (conf1 s) (conf2 s) (maskit s) (it_cd s) (it s)
    (apdu s) (apdu_pos s) (apdu_expected s) (rx s) (rx_head s) (rx_tail s)
    (powered s) (atr_manual_done s) (defer s) (pend s) (pend_len s) (last_tx_ns s)
    (atr_timer s) (wt_timer s) (resp_timer s) (tx_timer s) (irq s).

(** ** Reception *)
Definition rx_count (s : CalypsoSim) : Z :=
  let c := rx_head s - rx_tail s in
  if c <? 0 then c + RX_FIFO_SIZE else c.

Definition rx_push (s : CalypsoSim) (b : Z) : CalypsoSim :=
  if defer s then
    if pend_len s <? PEND_SIZE
    then s <| pend := wr (pend s) (pend_len s) b |> <| pend_len := pend_len s + 1 |>
    else s
  else
    let next := (rx_head s + 1) mod RX_FIFO_SIZE in
    if next =? rx_tail s then s
    else s <| rx := wr (rx s) (rx_head s) b |> <| rx_head := next |>.

(** [None] when the ring is empty ([rx_pop] returns 0). *)
Definition rx_pop (s : CalypsoSim) : option Z * CalypsoSim :=
  if rx_head s =? rx_tail s then (None, s)
  else (Some (rd (rx s) (rx_tail s)), s <| rx_tail := (rx_tail s + 1) mod RX_FIFO_SIZE |>).

Definition rx_push_n (s : CalypsoSim) (buf : list Z) : CalypsoSim := foldl rx_push s buf.

(** ** Interrupts *)
Definition refresh_it_rx (s : CalypsoSim) : CalypsoSim :=
  if 0 <? rx_count s then s <| it := Z.lor (it s) IT_RX |>
  else s <| it := clr (it s) IT_RX |>.

Definition update_irq (s : CalypsoSim) : CalypsoSim :=
  let s := refresh_it_rx s in
  s <| irq := negb (clr (it s) (maskit s) =? 0) |>.

Definition schedule_wt (s : CalypsoSim) (now : Z) : CalypsoSim :=
  s <| wt_timer := Some (now + WT_DELAY_NS) |>.

Definition schedule_atr (s : CalypsoSim) (now : Z) : CalypsoSim :=
  s <| atr_timer := Some (now + ATR_DELAY_NS) |>.

(** Callback of [wt_timer]. *)
Definition fire_wt (s : CalypsoSim) (now : Z) : CalypsoSim :=
  if 0 <? rx_count s then s
  else if 0 <? pend_len s then schedule_wt s now
  else update_irq (s <| it := Z.lor (it s) IT_WT |>).

(** Callback of [tx_timer]. *)
Definition tx_fire (s : CalypsoSim) : CalypsoSim :=
  update_irq (s <| it := Z.lor (it s) IT_TX |>).

(** Callback of [resp_timer]: the deferred response enters the ring. *)
Definition resp_fire (s : CalypsoSim) : CalypsoSim :=
  let s := s <| defer := false |> in
  let s := rx_push_n s (take (Z.to_nat (pend_len s)) (pend s)) in
  let s := s <| pend_len := 0 |> in
  let s := s <| defer := false |> in
  update_irq s.

Section us_octet.
  (** The value of the environment variable CALYPSO_SIM_US_OCTET, 1040 by
      default. *)
  Context (us_octet : Z).

Definition resp_delai_ns (n : Z) : Z :=
  let d := n * us_octet * 1000 in
  if RESP_DELAY_NS <? d then d else RESP_DELAY_NS.

Definition schedule_resp (s : CalypsoSim) (now : Z) : CalypsoSim :=
  s <| resp_timer := Some (now + resp_delai_ns (pend_len s)) |>.

Definition raise_rx_irq (s : CalypsoSim) (now : Z) : CalypsoSim :=
  if defer s then schedule_resp s now else update_irq s.

(** Callback of [atr_timer]; also called on CMD writes. *)
Definition deliver_atr (s : CalypsoSim) (now : Z) : CalypsoSim :=
  if negb (powered s) then s
  else raise_rx_irq (rx_push_n s SIM_ATR) now.

(** ** Command APDUs *)
Definition dispatch_apdu (s : CalypsoSim) (now : Z) : CalypsoSim :=
  let '(out, c) := execute (card s) (apdu s) (apdu_pos s) in
  let s := s <| card := c |> in
  raise_rx_irq (rx_push_n s out) now.

Definition is_outgoing_data (ins : Z) : bool :=
  (ins =? 0xA4) || (ins =? 0xD6) || (ins =? 0xDC) || (ins =? 0x20) || (ins =? 0x24) || (ins =? 0x88).

(** The fifth byte completes the header. *)
Definition header_complete (s : CalypsoSim) (now : Z) : CalypsoSim :=
  let ins := rd (apdu s) 1 in
  let outgoing := is_outgoing_data ins && negb (rd (apdu s) 4 =? 0) in
  let s := if outgoing then s <| apdu_expected := 5 + rd (apdu s) 4 |> else s <| apdu_expected := 5 |> in
  if outgoing then raise_rx_irq (rx_push s ins) now else s.

Definition apdu_tx_byte_inner (s : CalypsoSim) (now b : Z) : CalypsoSim :=
  let s := if (0 <? apdu_pos s) && (APDU_ABANDON_NS <? now - last_tx_ns s)
           then s <| apdu_pos := 0 |> <| apdu_expected := 0 |> else s in
  let s := s <| last_tx_ns := now |> in
  let s := if apdu_pos s <? APDU_MAX_LEN
           then s <| apdu := wr (apdu s) (apdu_pos s) b |> <| apdu_pos := apdu_pos s + 1 |> else s in
  let s := if apdu_pos s =? 5 then header_complete s now else s in
  if apdu_pos s =? apdu_expected s
  then dispatch_apdu s now <| apdu_pos := 0 |> <| apdu_expected := 0 |> else s.

Definition apdu_tx_byte (s : CalypsoSim) (now b : Z) : CalypsoSim :=
  let s := s <| defer := true |> in
  let s := apdu_tx_byte_inner s now b in
  let s := s <| defer := false |> in
  if negb (pend_len s =? 0) then schedule_resp s now else s.

(** ** Registers *)
Definition read_stat (s : CalypsoSim) : Z :=
  let v := if powered s then STAT_NOCARD else 0 in
  let v := Z.lor v STAT_TXPAR in
  let v := if rx_count s =? 0 then Z.lor v STAT_FIFOEMPTY else v in
  if RX_FIFO_SIZE - 1 <=? rx_count s then Z.lor v STAT_FIFOFULL else v.

(** Reading IT acknowledges the edge bits. *)
Definition read_it (s : CalypsoSim) : Z * CalypsoSim :=
  let s := refresh_it_rx s in
  let v := it s in
  let edge_seen := Z.land v (Z.lor (Z.lor (Z.lor IT_NATR IT_WT) IT_OV) IT_TX) in
  let s := s <| it := clr (it s) edge_seen |> in
  (v, update_irq s).

Definition read_drx (s : CalypsoSim) : Z * CalypsoSim :=
  let '(o, s) := rx_pop s in
  (Z.lor (default 0 o) (Z.shiftl 1 8), update_irq s).

Definition calypso_sim_reg_read (s : CalypsoSim) (off : Z) : Z * CalypsoSim :=
  if off =? REG_CMD then (cmd s, s)
  else if off =? REG_STAT then (read_stat s, s)
  else if off =? REG_CONF1 then (conf1 s, s)
  else if off =? REG_CONF2 then (conf2 s, s)
  else if off =? REG_IT then read_it s
  else if off =? REG_DRX then read_drx s
  else if off =? REG_DTX then (0, s)
  else if off =? REG_MASKIT then (maskit s, s)
  else if off =? REG_IT_CD then (it_cd s, s)
  else (0, s).

(** The reset branch of a CMD write. *)
Definition card_reset (s : CalypsoSim) (now : Z) : CalypsoSim :=
  let s := s <| apdu_pos := 0 |> <| apdu_expected := 0 |>
             <| rx_tail := 0 |> <| rx_head := 0 |>
             <| card := (card s) <| resp_len := 0 |> <| selected_df := 0x3F00 |> <| selected_ef := 0x3F00 |> |> in
  if powered s then deliver_atr s now else s.

Definition write_cmd (s : CalypsoSim) (now val : Z) : CalypsoSim :=
  let s := s <| cmd := val |> in
  let s := if has val CMD_START then deliver_atr (s <| powered := true |>) now else s in
  let s := if has val CMD_STOP then s <| powered := false |> else s in
  if has val (Z.lor CMD_CARDRST CMD_IFRST) then card_reset s now else s.

Definition write_conf1 (s : CalypsoSim) (now val : Z) : CalypsoSim :=
  let old := conf1 s in
  let s := s <| conf1 := val |> in
  let s := if has val CONF1_SVCCLEV then s <| powered := true |> else s in
  let s := if negb (has val CONF1_SRSTLEV) && has old CONF1_SRSTLEV
           then s <| atr_manual_done := false |> <| rx_tail := 0 |> <| rx_head := 0 |>
                  <| apdu_pos := 0 |> <| apdu_expected := 0 |>
           else s in
  let s := if has val CONF1_BYPASS && powered s && negb (atr_manual_done s) &&
              ((has val CONF1_SCLKEN && negb (has old CONF1_SCLKEN)) ||
               (has val CONF1_SRSTLEV && negb (has old CONF1_SRSTLEV)))
           then schedule_atr (s <| atr_manual_done := true |>) now
           else s in
  if negb (has val CONF1_SVCCLEV) && has old CONF1_SVCCLEV
  then s <| atr_manual_done := false |> else s.

Definition write_dtx (s : CalypsoSim) (now val : Z) : CalypsoSim :=
  let s := apdu_tx_byte s now (Z.land val 0xFF) in
  s <| tx_timer := Some (now + us_octet * 1000) |>.

Definition write_maskit (s : CalypsoSim) (now val : Z) : CalypsoSim :=
  let s := update_irq (s <| maskit := val |>) in
  if negb (has val IT_WT) && negb (has (it s) IT_WT) && (rx_count s =? 0)
  then schedule_wt s now else s.

Definition calypso_sim_reg_write (s : CalypsoSim) (now off val : Z) : CalypsoSim :=
  if off =? REG_CMD then write_cmd s now val
  else if off =? REG_STAT then s <| stat := val |>
  else if off =? REG_CONF1 then write_conf1 s now val
  else if off =? REG_CONF2 then s <| conf2 := val |>
  else if off =? REG_IT then s
  else if off =? REG_DRX then s
  else if off =? REG_DTX then write_dtx s now val
  else if off =? REG_MASKIT then write_maskit s now val
  else if off =? REG_IT_CD then s <| it_cd := val |>
  else s.

(** The state after [calypso_sim_new]: [k] and [ok] are the key of the
    configuration (zeros and [false] without one), [f] the file system after the
    configuration was read. *)
Definition calypso_sim_new (f : Fs) (k : list Z) (ok : bool) : CalypsoSim :=
  mkSim (mkCard f 0x3F00 0x3F00 (replicate 64 0) 0 0 0 k ok)
    0 0 0 0 0 0 0
    (replicate (Z.to_nat APDU_MAX_LEN) 0) 0 0
    (replicate (Z.to_nat RX_FIFO_SIZE) 0) 0 0
    false false false
    (replicate (Z.to_nat PEND_SIZE) 0) 0 0
    None None None None false.

(** ** Events *)
Inductive op :=
  | Read (off : Z)
  | Write (now off val : Z)
  | AtrTimer (now : Z)
  | WtTimer (now : Z)
  | RespTimer (now : Z)
  | TxTimer (now : Z).

(** A timer runs its callback when its deadline has passed; it is then disarmed. *)
Definition due (t : option Z) (now : Z) : bool :=
  match t with Some d => d <=? now | None => false end.

Definition step (s : CalypsoSim) (o : op) : CalypsoSim :=
  match o with
  | Read off => (calypso_sim_reg_read s off).2
  | Write now off val => calypso_sim_reg_write s now off val
  | AtrTimer now => if due (atr_timer s) now then deliver_atr (s <| atr_timer := None |>) now else s
  | WtTimer now => if due (wt_timer s) now then fire_wt (s <| wt_timer := None |>) now else s
  | RespTimer now => if due (resp_timer s) now then resp_fire (s <| resp_timer := None |>) else s
  | TxTimer now => if due (tx_timer s) now then tx_fire (s <| tx_timer := None |>) else s
  end.

End us_octet.

(** ** The reception path as streams *)

(** The unread bytes of the ring, oldest first, and the deferred response. *)
Definition rxq (s : CalypsoSim) : list Z := ring_contents 0 RX_FIFO_SIZE (rx s) (rx_tail s) (rx_count s).
Definition response (s : CalypsoSim) : list Z := take (Z.to_nat (pend_len s)) (pend s).

Record path_ok (s : CalypsoSim) : Prop := {
  ok_rx : zlen (rx s) = RX_FIFO_SIZE ∧ Forall is_byte (rx s);
  ok_head : 0 ≤ rx_head s < RX_FIFO_SIZE;
  ok_tail : 0 ≤ rx_tail s < RX_FIFO_SIZE;
  ok_pend : zlen (pend s) = PEND_SIZE ∧ Forall is_byte (pend s);
  ok_pend_len : 0 ≤ pend_len s ≤ PEND_SIZE
}.

Lemma rx_ring s : path_ok s →
  ring_ok RX_FIFO_SIZE (rx s) (rx_head s) (rx_tail s) (rx_count s) ∧ rx_count s < RX_FIFO_SIZE.
Proof.
  intros [[Hl _] Hh Ht _ _]. unfold rx_count, ring_ok, RX_FIFO_SIZE in *.
  destruct (Z.ltb_spec (rx_head s - rx_tail s) 0); repeat split; try lia; mlia.
Qed.

Lemma zlen_rxq s : path_ok s → zlen (rxq s) = rx_count s.
Proof. intros H. destruct (rx_ring s H) as [(_ & _ & ? & _) _]. apply length_ring_contents. lia. Qed.

Lemma zlen_response s : path_ok s → zlen (response s) = pend_len s.
Proof. intros [_ _ _ [Hl _] Hp]. unfold response, zlen in *. rewrite length_take. lia. Qed.

(** A push only touches the reception path. *)
Lemma rx_push_n_frame l s : ∃ p n r h,
  rx_push_n s l = s <| pend := p |> <| pend_len := n |> <| rx := r |> <| rx_head := h |>.
Proof.
  revert s. induction l as [|b l IH]; intros s.
  { exists (pend s), (pend_len s), (rx s), (rx_head s). by destruct s. }
  change (rx_push_n s (b :: l)) with (rx_push_n (rx_push s b) l).
  assert (∃ p n r h, rx_push s b = s <| pend := p |> <| pend_len := n |> <| rx := r |> <| rx_head := h |>)
    as (p & n & r & h & ->).
  { unfold rx_push. repeat case_if; [exists (wr (pend s) (pend_len s) b), (pend_len s + 1), (rx s), (rx_head s)|
      exists (pend s), (pend_len s), (rx s), (rx_head s)|exists (pend s), (pend_len s), (rx s), (rx_head s)|
      exists (pend s), (pend_len s), (wr (rx s) (rx_head s) b), ((rx_head s + 1) mod RX_FIFO_SIZE)];
      by destruct s. }
  destruct (IH (s <| pend := p |> <| pend_len := n |> <| rx := r |> <| rx_head := h |>)) as (p' & n' & r' & h' & E).
  exists p', n', r', h'. by rewrite E.
Qed.

Lemma rx_push_ok s b : is_byte b → path_ok s → path_ok (rx_push s b).
Proof.
  intros Hb [[Hl Hr] Hh Ht [Hp Hpb] Hn]. unfold rx_push. repeat case_if; bool_prop; try by split.
  - split; cbn; try done; [|lia]. split; [by rewrite zlen_wr|by apply wr_Forall].
  - split; cbn; try done; [|apply Z.mod_pos_bound; unfold RX_FIFO_SIZE; lia].
    split; [by rewrite zlen_wr|by apply wr_Forall].
Qed.

Lemma rx_push_n_ok l s : Forall is_byte l → path_ok s → path_ok (rx_push_n s l).
Proof.
  intros Hl. revert s. induction Hl as [|b l Hb _ IH]; intros s Hs; [done|]. exact (IH _ (rx_push_ok _ _ Hb Hs)).
Qed.

(** In deferred mode a push appends to the response. *)
Lemma rx_push_defer s b :
  defer s = true → path_ok s → pend_len s < PEND_SIZE →
  response (rx_push s b) = response s ++ [b] ∧ pend_len (rx_push s b) = pend_len s + 1 ∧ rxq (rx_push s b) = rxq s.
Proof.
  intros Hd [_ _ _ [Hp _] Hn] Hlt. unfold rx_push. rewrite Hd. destruct (Z.ltb_spec (pend_len s) PEND_SIZE); [|lia].
  split; [|done]. unfold response, wr. cbn [pend pend_len update_field]. unfold zlen in Hp.
  replace (Z.to_nat (pend_len s + 1)) with (S (Z.to_nat (pend_len s))) by lia.
  rewrite (take_S_r _ _ b) by (apply list_lookup_insert_eq; lia).
  rewrite take_insert_ge by lia. done.
Qed.

Lemma rx_push_n_defer l s :
  defer s = true → Forall is_byte l → path_ok s → pend_len s + zlen l ≤ PEND_SIZE →
  response (rx_push_n s l) = response s ++ l ∧ rxq (rx_push_n s l) = rxq s.
Proof.
  intros Hd Hl. revert s Hd. induction Hl as [|b l Hb _ IH]; intros s Hd Hs Hfit; [by rewrite app_nil_r|].
  change (rx_push_n s (b :: l)) with (rx_push_n (rx_push s b) l).
  unfold zlen in *. cbn [length] in Hfit. destruct (rx_push_defer s b Hd Hs) as (E1 & E2 & E3); [lia|].
  destruct (rx_push_n_frame [b] s) as (? & ? & ? & ? & E).
  destruct (IH (rx_push s b)) as [E4 E5]; [cbn in E; by rewrite E|by apply rx_push_ok|lia|].
  by rewrite E4, E5, E1, E3, <- app_assoc.
Qed.

(** Otherwise it appends to the ring, which holds 511 bytes. *)
Lemma rx_push_ring s b :
  defer s = false → path_ok s → rx_count s < RX_FIFO_SIZE - 1 →
  rxq (rx_push s b) = rxq s ++ [b] ∧ rx_count (rx_push s b) = rx_count s + 1 ∧ response (rx_push s b) = response s.
Proof.
  intros Hd Hs Hlt. destruct (rx_ring s Hs) as [Hring Hc].
  destruct (ring_push 0 RX_FIFO_SIZE ltac:(unfold RX_FIFO_SIZE; lia) _ _ _ _ b Hring Hc) as [Hring' Hcont].
  pose proof (ok_head _ Hs) as Hh. pose proof (ok_tail _ Hs) as Ht.
  assert ((rx_head s + 1) mod RX_FIFO_SIZE ≠ rx_tail s) as Hne.
  { unfold rx_count, RX_FIFO_SIZE in *. destruct (Z.ltb_spec (rx_head s - rx_tail s) 0); mlia. }
  assert (rx_count (rx_push s b) = rx_count s + 1) as Hcnt.
  { unfold rx_push. rewrite Hd. destruct (Z.eqb_spec ((rx_head s + 1) mod RX_FIFO_SIZE) (rx_tail s)); [done|].
    unfold rx_count, RX_FIFO_SIZE in *. cbn [rx_head rx_tail update_field].
    destruct (Z.ltb_spec (rx_head s - rx_tail s) 0), (Z.ltb_spec ((rx_head s + 1) mod 512 - rx_tail s) 0); mlia. }
  unfold rxq. rewrite Hcnt. unfold rx_push. rewrite Hd.
  destruct (Z.eqb_spec ((rx_head s + 1) mod RX_FIFO_SIZE) (rx_tail s)); [done|]. done.
Qed.

Lemma rx_push_n_ring l s :
  defer s = false → Forall is_byte l → path_ok s → rx_count s + zlen l ≤ RX_FIFO_SIZE - 1 →
  rxq (rx_push_n s l) = rxq s ++ l ∧ response (rx_push_n s l) = response s.
Proof.
  intros Hd Hl. revert s Hd. induction Hl as [|b l Hb _ IH]; intros s Hd Hs Hfit; [by rewrite app_nil_r|].
  change (rx_push_n s (b :: l)) with (rx_push_n (rx_push s b) l).
  unfold zlen in *. cbn [length] in Hfit. destruct (rx_push_ring s b Hd Hs) as (E1 & E2 & E3); [lia|].
  destruct (rx_push_n_frame [b] s) as (? & ? & ? & ? & E).
  destruct (IH (rx_push s b)) as [E4 E5]; [cbn in E; by rewrite E|by apply rx_push_ok|lia|].
  by rewrite E4, E5, E1, E3, <- app_assoc.
Qed.

Lemma rx_pop_spec s : path_ok s →
  match rx_pop s with
  | (None, s') => s' = s ∧ rxq s = []
  | (Some b, s') => rxq s = b :: rxq s' ∧ response s' = response s ∧ path_ok s' ∧ is_byte b
  end.
Proof.
  intros Hs. destruct (rx_ring s Hs) as [Hring Hc]. unfold rx_pop.
  destruct (Z.eqb_spec (rx_head s) (rx_tail s)) as [E|Hne].
  { split; [done|]. unfold rxq, rx_count. rewrite E, Z.sub_diag. done. }
  assert (0 < rx_count s) as Hpos.
  { destruct Hs. unfold rx_count, RX_FIFO_SIZE in *. destruct (Z.ltb_spec (rx_head s - rx_tail s) 0); lia. }
  destruct (ring_pop 0 RX_FIFO_SIZE ltac:(unfold RX_FIFO_SIZE; lia) _ _ _ _ Hring Hpos) as [_ Hcont].
  destruct Hs as [[Hl Hb] Hh Ht Hp Hn]. split; [|split; [done|split]].
  - unfold rxq. rewrite Hcont. f_equal. cbn [rx rx_tail update_field]. f_equal.
    unfold rx_count, RX_FIFO_SIZE in *. cbn [rx_head rx_tail update_field].
    destruct (Z.ltb_spec (rx_head s - rx_tail s) 0), (Z.ltb_spec (rx_head s - (rx_tail s + 1) mod 512) 0); mlia.
  - split; try done. apply Z.mod_pos_bound. unfold RX_FIFO_SIZE. lia.
  - apply rd_Forall; [unfold is_byte; lia|done].
Qed.

(** ** Interrupt line

    An event is pending when the event register, its reception bit brought up
    to date with the ring, has an unmasked bit. *)
Definition pending (s : CalypsoSim) : bool := negb (clr (it (refresh_it_rx s)) (maskit s) =? 0).

(** The stored event register agrees with the ring. *)
Definition settled (s : CalypsoSim) : Prop := it (refresh_it_rx s) = it s.

(** The line is the one of the stored event register, which agrees with the
    ring as long as the ring has an unread byte. *)
Definition irq_ok (s : CalypsoSim) : Prop :=
  irq s = negb (clr (it s) (maskit s) =? 0) ∧ (0 < rx_count s → settled s).

Lemma irq_settled s : irq_ok s → settled s → irq s = pending s.
Proof. intros [H _] E. unfold pending. by rewrite E. Qed.

Lemma update_irq_frame s : ∃ i q, update_irq s = s <| it := i |> <| irq := q |>.
Proof. unfold update_irq, refresh_it_rx. case_if; by do 2 eexists. Qed.

Lemma update_irq_settled s : settled (update_irq s).
Proof.
  unfold settled, update_irq, refresh_it_rx. destruct (0 <? rx_count s) eqn:E;
    (match goal with |- context [0 <? rx_count ?x] => change (rx_count x) with (rx_count s) end); rewrite E; cbn [it update_field].
  - by rewrite <- Z.lor_assoc, Z.lor_diag.
  - unfold clr. by rewrite Z.ldiff_ldiff_l, Z.lor_diag.
Qed.

Lemma update_irq_ok s : irq_ok (update_irq s).
Proof. split; [|intros _; apply update_irq_settled]. unfold update_irq, refresh_it_rx. by case_if. Qed.

(** A low line: nothing is pending. *)
Lemma irq_low s : irq_ok s → irq s = false → pending s = false.
Proof.
  intros [Hi Hc] Hq. destruct (Z.ltb_spec 0 (rx_count s)) as [Hr|Hr].
  { rewrite <- Hq. symmetry. apply irq_settled; [by split|by apply Hc]. }
  rewrite Hq in Hi. symmetry in Hi. apply negb_false_iff, Z.eqb_eq in Hi. unfold pending, refresh_it_rx.
  rewrite (proj2 (Z.ltb_ge 0 (rx_count s)) Hr). cbn [it maskit update_field]. apply negb_false_iff, Z.eqb_eq.
  unfold clr in *. by rewrite Z.ldiff_ldiff_l, Z.lor_comm, <- Z.ldiff_ldiff_l, Hi, Z.ldiff_0_l.
Qed.

(** ** The card as a byte transducer

    What a byte written to DTX does to the command assembler and the card, and
    the bytes it makes the card send, without the registers and the timing of
    their delivery. *)
Record Core := mkCore {
  k_card : Card;
  k_apdu : list Z;
  k_pos : Z;
  k_expected : Z;
  k_last : Z
}.

Definition core (s : CalypsoSim) : Core :=
  mkCore (card s) (apdu s) (apdu_pos s) (apdu_expected s) (last_tx_ns s).

Definition feed (k : Core) (now b : Z) : list Z * Core :=
  let abandoned := (0 <? k_pos k) && (APDU_ABANDON_NS <? now - k_last k) in
  let pos := if abandoned then 0 else k_pos k in
  let expected := if abandoned then 0 else k_expected k in
  let apdu := wr (k_apdu k) pos b in
  let pos := pos + 1 in
  let outgoing := is_outgoing_data (rd apdu 1) && negb (rd apdu 4 =? 0) in
  let ack := if (pos =? 5) && outgoing then [rd apdu 1] else [] in
  let expected := if pos =? 5 then if outgoing then 5 + rd apdu 4 else 5 else expected in
  if pos =? expected then
    let '(out, c) := execute (k_card k) apdu pos in
    (ack ++ out, mkCore c apdu 0 0 now)
  else (ack, mkCore (k_card k) apdu pos expected now).

(** Fewer than five bytes of a header, or a header and a part of its data. *)
Definition pos_ok (pos expected : Z) : Prop :=
  (expected = 0 ∧ 0 ≤ pos < 5) ∨ (5 ≤ pos < expected ∧ expected ≤ 260).

Record core_ok (k : Core) : Prop := {
  core_card : card_ok (k_card k);
  core_apdu : zlen (k_apdu k) = APDU_MAX_LEN ∧ Forall is_byte (k_apdu k);
  core_pos : pos_ok (k_pos k) (k_expected k)
}.

Lemma feed_ok k now b : is_byte b → core_ok k →
  core_ok (feed k now b).2 ∧ Forall is_byte (feed k now b).1 ∧ zlen (feed k now b).1 ≤ 260.
Proof.
  intros Hb [Hc [Hl Ha] Hp]. unfold feed.
  set (pos := if (0 <? k_pos k) && _ then 0 else k_pos k). set (expd := if (0 <? k_pos k) && _ then 0 else k_expected k).
  assert (pos_ok pos expd) as Hp'.
  { unfold pos, expd. case_if; [left; lia|done]. }
  clearbody pos expd. set (a := wr (k_apdu k) pos b).
  assert (Forall is_byte a) as Ha' by by apply wr_Forall.
  assert (∀ i, is_byte (rd a i)) as Hrd by (intros; apply rd_Forall; [unfold is_byte; lia|done]).
  assert (zlen a = APDU_MAX_LEN) as Hl' by by unfold a; rewrite zlen_wr. clearbody a.
  set (outg := is_outgoing_data _ && _).
  set (ack := if (pos + 1 =? 5) && outg then _ else []).
  assert (Forall is_byte ack ∧ zlen ack ≤ 1) as [Hab Hal].
  { unfold ack. case_if; split; try solve_bytes; unfold zlen; cbn; lia. }
  set (e := if pos + 1 =? 5 then _ else expd).
  assert (pos + 1 ≠ e → pos_ok (pos + 1) e) as He.
  { pose proof (Hrd 4). unfold is_byte in *. unfold e, outg, pos_ok in *. case_ifs; lia. }
  clearbody ack e. case_if; bool_prop.
  - destruct (execute_ok (k_card k) a (pos + 1) Ha' Hc) as (Hob & Hol & Hoc).
    destruct (execute _ _ _) as [out c]. cbn in *. unfold zlen in *. rewrite length_app.
    split; [|split; [by apply Forall_app_2|lia]]. split; cbn; [done|done|left; lia].
  - cbn. split; [|split; [done|lia]]. split; cbn; auto.
Qed.

(** [s'] is [s] with [l] appended to the deferred response. *)
Record grows (s : CalypsoSim) (l : list Z) (s' : CalypsoSim) : Prop := {
  g_path : path_ok s';
  g_rxq : rxq s' = rxq s ∧ rx_count s' = rx_count s;
  g_irq : it s' = it s ∧ maskit s' = maskit s ∧ irq s' = irq s;
  g_resp : pend_len s + zlen l ≤ PEND_SIZE → response s' = response s ++ l
}.

Lemma grows_trans s l1 s1 l2 s2 :
  path_ok s → grows s l1 s1 → grows s1 l2 s2 → grows s (l1 ++ l2) s2.
Proof.
  intros Hs [P1 [Q1 Q1'] (I1 & I1' & I1'') R1] [P2 [Q2 Q2'] (I2 & I2' & I2'') R2].
  split; [done|by rewrite Q2, Q2'|by rewrite I2, I2', I2''|].
  unfold zlen in *. rewrite length_app. intros Hfit. pose proof (zlen_response s Hs) as L.
  pose proof (zlen_response s1 P1) as L1. specialize (R1 ltac:(lia)). rewrite R1 in *. unfold zlen in *. rewrite length_app in L1.
  rewrite R2 by lia. by rewrite <- app_assoc.
Qed.

Lemma grows_nil s s' :
  path_ok s → rx s' = rx s → rx_head s' = rx_head s → rx_tail s' = rx_tail s → pend s' = pend s →
  pend_len s' = pend_len s → it s' = it s → maskit s' = maskit s → irq s' = irq s → grows s [] s'.
Proof.
  intros [] E1 E2 E3 E4 E5 E6 E7 E8. split.
  - split; by rewrite ?E1, ?E2, ?E3, ?E4, ?E5.
  - unfold rxq, rx_count. by rewrite E1, E2, E3.
  - done.
  - intros _. unfold response. by rewrite E4, E5, app_nil_r.
Qed.

Lemma push_raise_spec us s l now :
  defer s = true → Forall is_byte l → path_ok s →
  grows s l (raise_rx_irq us (rx_push_n s l) now) ∧
  core (raise_rx_irq us (rx_push_n s l) now) = core s ∧ defer (raise_rx_irq us (rx_push_n s l) now) = true.
Proof.
  intros Hd Hl Hs. pose proof (rx_push_n_ok l s Hl Hs) as Hok.
  assert (rxq (rx_push_n s l) = rxq s ∧ rx_count (rx_push_n s l) = rx_count s) as Hq.
  { clear Hok. revert s Hd Hs. induction Hl as [|b l Hb _ IH]; intros s Hd Hs; [done|].
    change (rx_push_n s (b :: l)) with (rx_push_n (rx_push s b) l).
    assert (rxq (rx_push s b) = rxq s ∧ rx_count (rx_push s b) = rx_count s ∧ defer (rx_push s b) = true) as (E1 & E2 & E3).
    { unfold rx_push. rewrite Hd. by case_if. }
    destruct (IH (rx_push s b) E3) as [-> ->]; [by apply rx_push_ok|]. done. }
  pose proof (rx_push_n_defer l s Hd Hl Hs) as Hr.
  destruct (rx_push_n_frame l s) as (p & n & r & h & E).
  assert (defer (rx_push_n s l) = true) as Hd' by by rewrite E.
  unfold raise_rx_irq. rewrite Hd'. unfold schedule_resp. split; [|by rewrite E].
  split; [by destruct Hok| |by rewrite E|].
  - by destruct Hq.
  - intros Hfit. by apply Hr.
Qed.

Lemma header_complete_spec us s now :
  defer s = true → Forall is_byte (apdu s) → path_ok s →
  let outgoing := is_outgoing_data (rd (apdu s) 1) && negb (rd (apdu s) 4 =? 0) in
  let s' := header_complete us s now in
  grows s (if outgoing then [rd (apdu s) 1] else []) s' ∧
  core s' = core (s <| apdu_expected := if outgoing then 5 + rd (apdu s) 4 else 5 |>) ∧ defer s' = true.
Proof.
  intros Hd Ha Hs outg s'. unfold s', header_complete. fold outg. destruct outg.
  - set (s1 := s <| apdu_expected := 5 + rd (apdu s) 4 |>).
    assert (path_ok s1) as Hs1 by by destruct Hs.
    assert (is_byte (rd (apdu s) 1)) as Hb by (apply rd_Forall; [unfold is_byte; lia|done]).
    destruct (push_raise_spec us s1 [rd (apdu s) 1] now) as (G & C & D); [done|by solve_bytes|done|].
    split; [|done]. change ([rd (apdu s) 1]) with ([] ++ [rd (apdu s) 1]).
    apply (grows_trans s [] s1); [done|by apply grows_nil|exact G].
  - split; [|done]. by apply grows_nil.
Qed.

Lemma dispatch_apdu_spec us s now :
  defer s = true → Forall is_byte (apdu s) → path_ok s → card_ok (card s) →
  let s' := dispatch_apdu us s now in
  let '(out, c) := execute (card s) (apdu s) (apdu_pos s) in
  grows s out s' ∧ core s' = core (s <| card := c |>) ∧ defer s' = true.
Proof.
  intros Hd Ha Hs Hc s'. unfold s', dispatch_apdu.
  destruct (execute_ok (card s) (apdu s) (apdu_pos s) Ha Hc) as (Hob & _).
  destruct (execute _ _ _) as [out c]. cbn [fst] in Hob.
  set (s1 := s <| card := c |>). assert (path_ok s1) as Hs1 by by destruct Hs.
  destruct (push_raise_spec us s1 out now) as (G & C & D); [done..|]. split; [|done].
  apply (grows_trans s [] s1 out); [done|by apply grows_nil|exact G].
Qed.

(** The byte stored, before the header or the command is complete. *)
Definition stored (s : CalypsoSim) (now b : Z) : CalypsoSim :=
  let s := s <| defer := true |> in
  let s := if (0 <? apdu_pos s) && (APDU_ABANDON_NS <? now - last_tx_ns s)
           then s <| apdu_pos := 0 |> <| apdu_expected := 0 |> else s in
  let s := s <| last_tx_ns := now |> in
  s <| apdu := wr (apdu s) (apdu_pos s) b |> <| apdu_pos := apdu_pos s + 1 |>.

Lemma stored_spec s now b : path_ok s →
  let abandoned := (0 <? apdu_pos s) && (APDU_ABANDON_NS <? now - last_tx_ns s) in
  let pos := if abandoned then 0 else apdu_pos s in
  grows s [] (stored s now b) ∧ defer (stored s now b) = true ∧
  core (stored s now b) =
    mkCore (card s) (wr (apdu s) pos b) (pos + 1) (if abandoned then 0 else apdu_expected s) now.
Proof.
  intros Hs. cbn zeta. unfold stored. cbn [apdu_pos last_tx_ns update_field].
  destruct ((0 <? apdu_pos s) && (APDU_ABANDON_NS <? now - last_tx_ns s));
    (split; [by apply grows_nil|done]).
Qed.

Lemma inner_stored us s now b : core_ok (core s) →
  apdu_tx_byte_inner us (s <| defer := true |>) now b =
  let s := stored s now b in
  let s := if apdu_pos s =? 5 then header_complete us s now else s in
  if apdu_pos s =? apdu_expected s
  then dispatch_apdu us s now <| apdu_pos := 0 |> <| apdu_expected := 0 |> else s.
Proof.
  intros [_ _ Hp]. cbn in Hp. unfold apdu_tx_byte_inner, stored. cbn [apdu_pos last_tx_ns update_field].
  destruct ((0 <? apdu_pos s) && (APDU_ABANDON_NS <? now - last_tx_ns s)); cbn [apdu_pos update_field]; [done|].
  destruct (Z.ltb_spec (apdu_pos s) APDU_MAX_LEN); [done|].
  unfold pos_ok, APDU_MAX_LEN in *. lia.
Qed.

Lemma inner_spec us s now b : is_byte b → core_ok (core s) → path_ok s →
  let s' := apdu_tx_byte_inner us (s <| defer := true |>) now b in
  grows s (feed (core s) now b).1 s' ∧ core s' = (feed (core s) now b).2.
Proof.
  intros Hb Hk Hs. cbn zeta. rewrite inner_stored by done. pose proof (stored_spec s now b Hs) as (G & D & C).
  destruct Hk as [Hc [_ Ha] _]. cbn in Hc, Ha. unfold feed. cbn [core k_card k_apdu k_pos k_expected k_last].
  set (ab := (0 <? apdu_pos s) && _) in *. set (pos := if ab then 0 else apdu_pos s) in *.
  set (expd := if ab then 0 else apdu_expected s) in *. set (a := wr (apdu s) pos b) in *.
  assert (Forall is_byte a) as Ha' by by apply wr_Forall. clearbody a expd pos ab.
  set (s1 := stored s now b) in *. clearbody s1. injection C as C1 C2 C3 C4 C5. cbn zeta.
  set (outg := is_outgoing_data (rd a 1) && negb (rd a 4 =? 0)).
  set (s2 := if apdu_pos s1 =? 5 then header_complete us s1 now else s1).
  assert (grows s (if (pos + 1 =? 5) && outg then [rd a 1] else []) s2 ∧ defer s2 = true ∧
          core s2 = mkCore (card s) a (pos + 1) (if pos + 1 =? 5 then if outg then 5 + rd a 4 else 5 else expd) now)
    as (G2 & D2 & E2).
  { unfold s2. rewrite C3. destruct (pos + 1 =? 5); cbn [andb].
    - destruct (header_complete_spec us s1 now D) as (H1 & H2 & H3); [by rewrite C2|apply (g_path _ _ _ G)|].
      rewrite C2 in H1, H2. fold outg in H1, H2.
      split; [exact (grows_trans s [] s1 _ _ Hs G H1)|]. split; [done|]. rewrite H2. unfold core. cbn.
      by rewrite C1, C2, C3, C5.
    - split; [done|]. split; [done|]. unfold core. by rewrite C1, C2, C3, C4, C5. }
  clearbody s2. injection E2 as F1 F2 F3 F4 F5. rewrite F3, F4. case_if; [|split; [done|unfold core; by rewrite F1, F2, F3, F4, F5]].
  pose proof (dispatch_apdu_spec us s2 now D2) as Hdisp. rewrite F1, F2, F3 in Hdisp.
  specialize (Hdisp Ha' (g_path _ _ _ G2) Hc). cbn zeta in Hdisp.
  destruct (execute (card s) a (pos + 1)) as [out c]. destruct Hdisp as (G3 & C6 & D3). cbn [fst snd].
  split.
  - rewrite <- (app_nil_r (_ ++ out)). apply (grows_trans s _ (dispatch_apdu us s2 now)); [done| |].
    + exact (grows_trans s _ s2 _ _ Hs G2 G3).
    + apply grows_nil; try done. apply (g_path _ _ _ G3).
  - injection C6 as A1 A2 A3 A4 A5. unfold core. cbn. by rewrite A1, A2, A5, F2, F5.
Qed.

Lemma apdu_tx_byte_spec us s now b : is_byte b → core_ok (core s) → path_ok s →
  let s' := apdu_tx_byte us s now b in
  grows s (feed (core s) now b).1 s' ∧ core s' = (feed (core s) now b).2 ∧ defer s' = false.
Proof.
  intros Hb Hk Hs. destruct (inner_spec us s now b Hb Hk Hs) as [G C]. cbn zeta. unfold apdu_tx_byte.
  set (s1 := apdu_tx_byte_inner us _ now b) in *. clearbody s1. cbn [pend_len update_field].
  assert (∀ s2, s2 = s1 <| defer := false |> ∨ s2 = schedule_resp us (s1 <| defer := false |>) now →
    grows s (feed (core s) now b).1 s2 ∧ core s2 = (feed (core s) now b).2 ∧ defer s2 = false) as H.
  { intros s2 Hs2. rewrite <- (app_nil_r (feed _ _ _).1), <- C. split; [|by destruct Hs2; subst].
    apply (grows_trans s _ s1); [done..|]. apply grows_nil; [apply (g_path _ _ _ G)|by destruct Hs2; subst..]. }
  case_if; apply H; auto.
Qed.

(** ** The invariant of the interface *)
Record sim_ok (s : CalypsoSim) : Prop := {
  sim_core : core_ok (core s);
  sim_path : path_ok s;
  sim_defer : defer s = false;
  sim_irq : irq_ok s
}.

Lemma sim_ok_grows s l s' :
  sim_ok s → grows s l s' → core_ok (core s') → defer s' = false → sim_ok s'.
Proof.
  intros [_ _ _ Hi] [Hp [_ Hq] (E1 & E2 & E3) _] Hc Hd. split; try done.
  unfold irq_ok, settled, refresh_it_rx in *. rewrite Hq, E1, E2, E3. destruct Hi as [Hi Hi']. split; [done|].
  intros H. specialize (Hi' H). revert Hi'. by case_if.
Qed.

(** A change of the other registers and of the timers keeps the invariant. *)
Lemma sim_ok_quiet s s' :
  sim_ok s → core s' = core s → defer s' = defer s →
  rx s' = rx s → rx_head s' = rx_head s → rx_tail s' = rx_tail s → pend s' = pend s →
  pend_len s' = pend_len s → it s' = it s → maskit s' = maskit s → irq s' = irq s → sim_ok s'.
Proof.
  intros Hs Ec Ed **. eapply (sim_ok_grows s []); [done| |by rewrite Ec; apply Hs|by rewrite Ed; apply Hs].
  apply grows_nil; try done. apply (sim_path _ Hs).
Qed.

Ltac quiet s := apply (sim_ok_quiet s); done.

Lemma update_irq_sim s : core_ok (core s) → path_ok s → defer s = false → sim_ok (update_irq s).
Proof.
  intros Hc [] Hd. pose proof (update_irq_ok s) as Hi. destruct (update_irq_frame s) as (i & q & E).
  rewrite E in *. by split.
Qed.

Lemma deliver_atr_ok us s now : sim_ok s → sim_ok (deliver_atr us s now).
Proof.
  intros Hs. unfold deliver_atr. case_if; [done|].
  assert (Forall is_byte SIM_ATR) as Hb by (unfold SIM_ATR; solve_bytes).
  pose proof (rx_push_n_ok SIM_ATR s Hb (sim_path _ Hs)) as Hp. destruct (rx_push_n_frame SIM_ATR s) as (p & n & r & h & E').
  rewrite E' in *. unfold raise_rx_irq. cbn [defer update_field]. rewrite (sim_defer _ Hs).
  apply update_irq_sim; [apply (sim_core _ Hs)|done|apply (sim_defer _ Hs)].
Qed.

(** Emptying the ring keeps the invariant. *)
Lemma sim_ok_flush s s' :
  sim_ok s → core_ok (core s') → defer s' = defer s → rx s' = rx s → rx_head s' = 0 → rx_tail s' = 0 →
  pend s' = pend s → pend_len s' = pend_len s → it s' = it s → maskit s' = maskit s → irq s' = irq s → sim_ok s'.
Proof.
  intros Hs Hc Ed Er Eh Et Ep En E1 E2 E3. destruct Hs as [_ [H1 H2 H3 H4 H5] Hd Hi]. split; [done| |by rewrite Ed|].
  { split; rewrite ?Er, ?Eh, ?Et, ?Ep, ?En; try done; unfold RX_FIFO_SIZE; lia. }
  destruct Hi as [Hi _]. unfold irq_ok. rewrite E1, E2, E3. split; [done|].
  unfold rx_count. rewrite Eh, Et. change (if 0 - 0 <? 0 then 0 - 0 + RX_FIFO_SIZE else 0 - 0) with 0. lia.
Qed.

Lemma reg_read_ok s off : sim_ok s → sim_ok (calypso_sim_reg_read s off).2.
Proof.
  intros Hs. unfold calypso_sim_reg_read. repeat (case_if; [try done|]); try done.
  - unfold read_it. cbn [snd]. destruct Hs as [Hc [] Hd _]. apply update_irq_sim;
      unfold refresh_it_rx; case_if; done.
  - unfold read_drx. pose proof (rx_pop_spec s (sim_path _ Hs)) as Hpop. unfold rx_pop in *.
    case_if; cbn [snd]; destruct Hs as [Hc Hp Hd _]; apply update_irq_sim; try done. apply Hpop.
Qed.

Lemma land_byte v : is_byte (Z.land v 0xFF).
Proof. pose proof (land_range v 255). unfold is_byte. lia. Qed.

Lemma apdu_tx_byte_ok us s now b : is_byte b → sim_ok s → sim_ok (apdu_tx_byte us s now b).
Proof.
  intros Hb Hs. destruct (apdu_tx_byte_spec us s now b Hb (sim_core _ Hs) (sim_path _ Hs)) as (G & C & D).
  eapply sim_ok_grows; [done|exact G| |done]. rewrite C. by apply feed_ok, Hs.
Qed.

Lemma card_reset_ok us s now : sim_ok s → sim_ok (card_reset us s now).
Proof.
  intros Hs. unfold card_reset. cbn [powered update_field].
  match goal with |- sim_ok (if _ then deliver_atr _ ?s' _ else _) => assert (sim_ok s') as H end.
  { eapply (sim_ok_flush s); try done. destruct (sim_core _ Hs) as [[? ? ? ?] Ha _].
    split; [split; cbn; try done; lia|done|left; cbn; lia]. }
  case_if; [by apply deliver_atr_ok|done].
Qed.

Lemma write_cmd_ok us s now val : sim_ok s → sim_ok (write_cmd us s now val).
Proof.
  intros Hs. unfold write_cmd.
  assert (sim_ok (s <| cmd := val |>)) as H1 by quiet s.
  set (s2 := if has val CMD_START then _ else _).
  assert (sim_ok s2) as H2.
  { unfold s2. case_if; [|done]. apply deliver_atr_ok. quiet (s <| cmd := val |>). }
  clearbody s2. set (s3 := if has val CMD_STOP then _ else _).
  assert (sim_ok s3) as H3 by (unfold s3; case_if; [quiet s2|done]).
  clearbody s3. case_if; [by apply card_reset_ok|done].
Qed.

Lemma write_conf1_ok s now val : sim_ok s → sim_ok (write_conf1 s now val).
Proof.
  intros Hs. unfold write_conf1. cbn zeta. set (old := conf1 s).
  set (s2 := if has val CONF1_SVCCLEV then _ else _).
  assert (sim_ok s2) as H2 by (unfold s2; case_if; quiet s). clearbody s2.
  set (s3 := if negb (has val CONF1_SRSTLEV) && _ then _ else _).
  assert (sim_ok s3) as H3.
  { unfold s3. case_if; [|done]. apply (sim_ok_flush s2); try done.
    destruct (sim_core _ H2) as [Hc Ha _]. split; [done|done|left; cbn; lia]. }
  clearbody s3. set (s4 := if has val CONF1_BYPASS && _ && _ && _ then _ else _).
  assert (sim_ok s4) as H4 by (unfold s4; case_if; [quiet s3|done]). clearbody s4.
  case_if; [quiet s4|done].
Qed.

Lemma reg_write_ok us s now off val : sim_ok s → sim_ok (calypso_sim_reg_write us s now off val).
Proof.
  intros Hs. unfold calypso_sim_reg_write.
  repeat (case_if; [first [done | by apply write_cmd_ok | by apply write_conf1_ok | quiet s | idtac]|]); [..|done].
  - unfold write_dtx. pose proof (apdu_tx_byte_ok us s now _ (land_byte val) Hs) as H. revert H.
    generalize (apdu_tx_byte us s now (Z.land val 255)). intros s1 H1. quiet s1.
  - unfold write_maskit. assert (sim_ok (update_irq (s <| maskit := val |>))) as H.
    { destruct Hs as [Hc [] Hd _]. by apply update_irq_sim. }
    revert H. generalize (update_irq (s <| maskit := val |>)). intros s1 H1. case_if; [quiet s1|done].
Qed.

Lemma path_ok_clear s : path_ok s → path_ok (s <| pend_len := 0 |> <| defer := false |>).
Proof. intros []. split; try assumption. cbn. unfold PEND_SIZE, APDU_MAX_LEN. lia. Qed.

Lemma resp_fire_ok s : sim_ok s → sim_ok (resp_fire s).
Proof.
  intros [Hc Hp Hd _]. unfold resp_fire. cbn [pend pend_len update_field].
  assert (path_ok (s <| defer := false |>)) as Hp' by by destruct Hp.
  assert (Forall is_byte (take (Z.to_nat (pend_len s)) (pend s))) as Hb by (apply Forall_take, Hp).
  revert Hb. generalize (take (Z.to_nat (pend_len s)) (pend s)). intros l Hb.
  pose proof (rx_push_n_ok _ _ Hb Hp') as Hp2. apply path_ok_clear in Hp2.
  apply update_irq_sim; [|exact Hp2|done].
  destruct (rx_push_n_frame l (s <| defer := false |>)) as (p & n & r & h & E). rewrite E. exact Hc.
Qed.

Lemma step_ok us s o : sim_ok s → sim_ok (step us s o).
Proof.
  intros Hs. destruct o as [off|now off val|now|now|now|now]; cbn [step].
  - by apply reg_read_ok.
  - by apply reg_write_ok.
  - case_if; [|done]. apply deliver_atr_ok. quiet s.
  - case_if; [|done]. assert (sim_ok (s <| wt_timer := None |>)) as H by quiet s. revert H.
    generalize (s <| wt_timer := None |>). intros s1 H1. unfold fire_wt. case_if; [done|]. case_if; [quiet s1|].
    destruct H1 as [? [] ? _]. by apply update_irq_sim.
  - case_if; [|done]. apply resp_fire_ok. quiet s.
  - case_if; [|done]. destruct Hs as [? [] ? _]. by apply update_irq_sim.
Qed.

Lemma sim_new_ok f k ok : fs_ok f → length k = 16%nat → Forall is_byte k → sim_ok (calypso_sim_new f k ok).
Proof.
  intros Hf Hk Hb. assert (∀ n, Forall is_byte (replicate n 0)) as Hz.
  { intros n. apply Forall_replicate. unfold is_byte. lia. }
  split.
  - split; cbn [core k_card k_apdu k_pos k_expected].
    + split; [done|split; [done|apply Hz]|cbn; lia|done].
    + split; [done|apply Hz].
    + left. cbn. lia.
  - split; cbn; unfold RX_FIFO_SIZE, PEND_SIZE, APDU_MAX_LEN; try lia; (split; [done|apply Hz]).
  - done.
  - done.
Qed.

Lemma reachable_ok us f k ok ops :
  fs_ok f → length k = 16%nat → Forall is_byte k → sim_ok (run (step us) (calypso_sim_new f k ok) ops).
Proof.
  intros Hf Hk Hb. apply (run_invariant (step us) (λ _, True)).
  - intros s o Hs _. by apply step_ok.
  - by apply sim_new_ok.
  - by apply Forall_true.
Qed.

(** ** The writes that empty the ring without looking at the interrupt line

    A reset by CMD that leaves the card without power, and the warm reset by
    CONF1. *)
Definition flush (s : CalypsoSim) (o : op) : bool :=
  match o with
  | Write _ off val =>
      if off =? REG_CMD then
        has val (Z.lor CMD_CARDRST CMD_IFRST) && negb (negb (has val CMD_STOP) && (has val CMD_START || powered s))
      else (off =? REG_CONF1) && negb (has val CONF1_SRSTLEV) && has (conf1 s) CONF1_SRSTLEV
  | _ => false
  end.
Fixpoint flushed (us : Z) (s : CalypsoSim) (ops : list op) : bool :=
  match ops with [] => false | o :: ops => flush s o || flushed us (step us s o) ops end.

Lemma settled_same s s' : settled s → it s' = it s → rx_count s' = rx_count s → settled s'.
Proof. unfold settled, refresh_it_rx. intros H E1 E2. rewrite E2, E1. revert H. by case_if. Qed.

Lemma deliver_atr_powered us s now : powered (deliver_atr us s now) = powered s.
Proof.
  unfold deliver_atr, raise_rx_irq. case_if; [done|]. destruct (rx_push_n_frame SIM_ATR s) as (p & n & r & h & ->).
  case_if; [done|]. match goal with |- powered (update_irq ?x) = _ => by destruct (update_irq_frame x) as (i & q & ->) end.
Qed.

(** Delivering the answer to reset to a powered card settles the line. *)
Lemma deliver_atr_settled us s now : sim_ok s → settled s ∨ powered s = true → settled (deliver_atr us s now).
Proof.
  intros Hs H. unfold deliver_atr, raise_rx_irq. case_if; [destruct H as [H|H]; [done|by rewrite H in E]|].
  destruct (rx_push_n_frame SIM_ATR s) as (p & n & r & h & ->). cbn [defer update_field].
  rewrite (sim_defer _ Hs). apply update_irq_settled.
Qed.

Lemma reg_read_settled s off : settled s → settled (calypso_sim_reg_read s off).2.
Proof.
  intros Hs. unfold calypso_sim_reg_read. repeat (case_if; [try done|]); try done.
  - unfold read_it. cbn [snd]. apply update_irq_settled.
  - unfold read_drx. destruct (rx_pop s). cbn [snd]. apply update_irq_settled.
Qed.

Lemma write_cmd_settled us s now val :
  sim_ok s → settled s → flush s (Write now REG_CMD val) = false → settled (write_cmd us s now val).
Proof.
  intros Hs Hi Hf. cbn [flush] in Hf. rewrite Z.eqb_refl in Hf. unfold write_cmd.
  assert (sim_ok (s <| cmd := val |>)) as H1 by quiet s.
  assert (settled (s <| cmd := val |>)) as I1 by by apply (settled_same s).
  set (s2 := if has val CMD_START then _ else _).
  assert (sim_ok s2 ∧ settled s2 ∧ powered s2 = has val CMD_START || powered s) as (H2 & I2 & P2).
  { unfold s2. case_if; [|done]. assert (sim_ok (s <| cmd := val |> <| powered := true |>)) as H by quiet s.
    split; [by apply deliver_atr_ok|]. split; [apply deliver_atr_settled; auto|by rewrite deliver_atr_powered]. }
  clearbody s2. set (s3 := if has val CMD_STOP then _ else _).
  assert (sim_ok s3 ∧ settled s3 ∧ powered s3 = negb (has val CMD_STOP) && (has val CMD_START || powered s)) as (H3 & I3 & P3).
  { unfold s3. case_if; [|by rewrite P2]. split; [quiet s2|]. split; [by apply (settled_same s2)|done]. }
  clearbody s3. rewrite <- P3 in Hf. case_if; [|done]. cbn [andb] in Hf. apply negb_false_iff in Hf.
  unfold card_reset. cbn [powered update_field]. rewrite Hf. apply deliver_atr_settled; [|by right].
  eapply (sim_ok_flush s3); try done. destruct (sim_core _ H3) as [[? ? ? ?] Ha _].
  split; [split; cbn; try done; lia|done|left; cbn; lia].
Qed.

Lemma write_conf1_settled s now val :
  settled s → flush s (Write now REG_CONF1 val) = false → settled (write_conf1 s now val).
Proof.
  intros Hi Hf. change (negb (has val CONF1_SRSTLEV) && has (conf1 s) CONF1_SRSTLEV = false) in Hf.
  unfold write_conf1. cbn zeta. rewrite Hf. apply (settled_same s); repeat case_if; done.
Qed.

Lemma reg_write_settled us s now off val :
  sim_ok s → settled s → flush s (Write now off val) = false → settled (calypso_sim_reg_write us s now off val).
Proof.
  intros Hs Hi Hf. unfold calypso_sim_reg_write.
  destruct (Z.eqb_spec off REG_CMD) as [->|_]; [by apply write_cmd_settled|].
  case_if; [by apply (settled_same s)|].
  destruct (Z.eqb_spec off REG_CONF1) as [->|_]; [by apply write_conf1_settled|].
  repeat (case_if; [first [done | by apply (settled_same s) | idtac]|]); [..|done].
  - unfold write_dtx. destruct (apdu_tx_byte_spec us s now _ (land_byte val) (sim_core _ Hs) (sim_path _ Hs)) as ([_ [_ Q] (I & _) _] & _).
    revert Q I. generalize (apdu_tx_byte us s now (Z.land val 255)). intros s1 Q I. by apply (settled_same s).
  - unfold write_maskit. pose proof (update_irq_settled (s <| maskit := val |>)) as H. revert H.
    generalize (update_irq (s <| maskit := val |>)). intros s1 H1. case_if; [by apply (settled_same s1)|done].
Qed.

Lemma step_settled us s o : sim_ok s → settled s → flush s o = false → settled (step us s o).
Proof.
  intros Hs Hi Hf. destruct o as [off|now off val|now|now|now|now]; cbn [step].
  - by apply reg_read_settled.
  - by apply reg_write_settled.
  - case_if; [|done]. apply deliver_atr_settled; [quiet s|]. left. by apply (settled_same s).
  - case_if; [|done]. unfold fire_wt. case_if; [by apply (settled_same s)|]. case_if; [by apply (settled_same s)|].
    apply update_irq_settled.
  - case_if; [|done]. apply update_irq_settled.
  - case_if; [|done]. apply update_irq_settled.
Qed.

Lemma run_settled us ops s : sim_ok s → settled s → flushed us s ops = false → settled (run (step us) s ops).
Proof.
  revert s. induction ops as [|o ops IH]; intros s Hs Hi Hf; [done|].
  cbn [flushed] in Hf. apply orb_false_iff in Hf as [Hf Hf']. cbn [run fold_left].
  apply (IH (step us s o)); [by apply step_ok|by apply step_settled|done].
Qed.

(** C9: From power-on, whatever the firmware reads and writes and whenever the
    timers fire, the SIM model stays in bounds: the ring indices stay below 512,
    the deferred response within its 277 bytes and GET RESPONSE data within 64;
    the assembler holds either less than a header or a header whose command is
    complete within the 261-byte buffer ([pos_ok]), so no command byte is ever
    dropped; the file table keeps its identifiers and sizes and every record
    store its length.  The interrupt line is never low while an unmasked event,
    unread data in the ring included, is pending, and it is high exactly then as long as
    no reset empties the ring of a card without power and no warm reset by CONF1
    occurs ([flush]: these writes do not bring the line up to date). *)
Theorem sim_invariant us f k ok ops :
  fs_ok f → length k = 16%nat → Forall is_byte k →
  let s0 := calypso_sim_new f k ok in
  let s := run (step us) s0 ops in
  sim_ok s ∧ (irq s = false → pending s = false) ∧ (flushed us s0 ops = false → irq s = pending s).
Proof.
  intros Hf Hk Hb s0 s. assert (sim_ok s) as Hs by by apply reachable_ok.
  split; [done|]. split.
  - apply irq_low, Hs.
  - intros Hfl. apply irq_settled; [apply Hs|]. apply run_settled; [by apply sim_new_ok|done|done].
Qed.

Lemma sim_invariant_witness :
  let s0 := calypso_sim_new (fs_init []) (replicate 16 7) true in
  let s := run (step 1040) s0 [Write 0 REG_CMD 8; Read REG_DRX; Write 5 REG_DTX 0xA0; RespTimer 9] in
  sim_ok s ∧ (irq s = false → pending s = false) ∧
  (flushed 1040 s0 [Write 0 REG_CMD 8; Read REG_DRX; Write 5 REG_DTX 0xA0; RespTimer 9] = false → irq s = pending s).
Proof.
  apply (sim_invariant 1040 (fs_init []) (replicate 16 7) true).
  - apply fs_init_ok.
  - done.
  - apply Forall_replicate. split; lia.
Defined.

(** A start that delivers the answer to reset, then a stop with a reset: the
    ring is empty, nothing is pending and the line stays high. *)
Example reset_leaves_line_high :
  let s := run (step 1040) (calypso_sim_new (fs_init []) (replicate 16 7) true)
             [Write 0 REG_MASKIT 0; Write 1 REG_CMD CMD_START; Write 2 REG_CMD (Z.lor CMD_STOP CMD_CARDRST)] in
  irq s = true ∧ pending s = false ∧ rx_count s = 0.
Proof. vm_compute. done. Qed.

End SIM.
