(* ===== verification/SimSession.v ===== *)
(** * Sessions with the SIM card

    The end-to-end behaviour of the SIM interface: the firmware writes the bytes
    of command APDUs to DTX and reads DRX, with the response, transmission and
    waiting timers firing at any moment in between.  The interface is shown to
    implement the byte transducer [SIM.feed]; the protocol theorems follow from
    the card lemmas. *)
From S2P Require Import Prelude Ring SimFs SimCard Sim Comp128.
Import SIMFS.
Import CARD.
Import SIM.

Module SESSION.

(** The bytes sent by the card that the firmware has not read yet. *)
Definition incoming (s : CalypsoSim) : list Z := rxq s ++ response s.

(** The byte an event writes to DTX, with its time. *)
Definition sent_byte (o : op) : option (Z * Z) :=
  match o with
  | Write now off v => if off =? REG_DTX then Some (now, Z.land v 0xFF) else None
  | _ => None
  end.

Fixpoint sends (l : list op) : list (Z * Z) :=
  match l with
  | [] => []
  | o :: l => match sent_byte o with Some x => x :: sends l | None => sends l end
  end.

(** The byte an event takes from the ring. *)
Definition received_byte (s : CalypsoSim) (o : op) : list Z :=
  match o with
  | Read off => if off =? REG_DRX then match (rx_pop s).1 with Some b => [b] | None => [] end else []
  | _ => []
  end.

Fixpoint received (us : Z) (s : CalypsoSim) (l : list op) : list Z :=
  match l with
  | [] => []
  | o :: l => received_byte s o ++ received us (step us s o) l
  end.

(** No reset and no power-up during a session. *)
Definition session_op (o : op) : bool :=
  match o with
  | Write _ off _ => negb (off =? REG_CMD) && negb (off =? REG_CONF1)
  | AtrTimer _ => false
  | _ => true
  end.

Fixpoint feeds (k : Core) (l : list (Z * Z)) : list Z * Core :=
  match l with
  | [] => ([], k)
  | (t, b) :: l =>
      let '(out, k) := feed k t b in
      let '(outs, k) := feeds k l in
      (out ++ outs, k)
  end.

Definition feed_op (k : Core) (o : op) : list Z * Core :=
  match sent_byte o with Some (t, b) => feed k t b | None => ([], k) end.

Lemma incoming_same s s' :
  rx s' = rx s → rx_head s' = rx_head s → rx_tail s' = rx_tail s → pend s' = pend s →
  pend_len s' = pend_len s → incoming s' = incoming s.
Proof. intros E1 E2 E3 E4 E5. unfold incoming, rxq, response, rx_count. by rewrite E1, E2, E3, E4, E5. Qed.

Lemma update_irq_stream s : incoming (update_irq s) = incoming s ∧ core (update_irq s) = core s.
Proof. destruct (update_irq_frame s) as (i & q & ->). done. Qed.

Lemma zlen_incoming s : path_ok s → zlen (incoming s) = rx_count s + pend_len s.
Proof.
  intros Hs. pose proof (zlen_rxq s Hs). pose proof (zlen_response s Hs).
  unfold incoming, zlen in *. rewrite length_app. lia.
Qed.

Lemma resp_fire_ring s :
  path_ok s → rx_count s + pend_len s ≤ RX_FIFO_SIZE - 1 →
  rxq (resp_fire s) = rxq s ++ response s ∧ response (resp_fire s) = [] ∧ core (resp_fire s) = core s.
Proof.
  intros Hp Hfit. unfold resp_fire.
  assert (path_ok (s <| defer := false |>)) as Hp' by by destruct Hp.
  assert (Forall is_byte (response s)) as Hb by (apply Forall_take, Hp).
  pose proof (zlen_response s Hp) as Hl.
  change (take (Z.to_nat (pend_len (s <| defer := false |>))) (pend (s <| defer := false |>))) with (response s).
  destruct (rx_push_n_ring (response s) (s <| defer := false |>)) as [E1 E2]; [done..| |].
  { change (rx_count (s <| defer := false |>)) with (rx_count s). lia. }
  destruct (rx_push_n_frame (response s) (s <| defer := false |>)) as (p & n & r & h & E).
  match goal with |- rxq (update_irq ?x) = _ ∧ _ => destruct (update_irq_frame x) as (i & q & ->) end.
  split; [exact E1|]. split; [done|]. by rewrite E.
Qed.

Lemma resp_fire_stream s :
  sim_ok s → zlen (incoming s) ≤ PEND_SIZE → incoming (resp_fire s) = incoming s ∧ core (resp_fire s) = core s.
Proof.
  intros Hs Hfit. rewrite zlen_incoming in Hfit by apply Hs.
  destruct (resp_fire_ring s (sim_path _ Hs)) as (E1 & E2 & E3).
  { unfold PEND_SIZE, APDU_MAX_LEN, RX_FIFO_SIZE in *. lia. }
  split; [|done]. unfold incoming. by rewrite E1, E2, app_nil_r.
Qed.

Lemma read_stream s off : sim_ok s →
  received_byte s (Read off) ++ incoming (calypso_sim_reg_read s off).2 = incoming s ∧
  core (calypso_sim_reg_read s off).2 = core s.
Proof.
  intros Hs. unfold calypso_sim_reg_read, received_byte.
  destruct (Z.eqb_spec off REG_DRX) as [->|Hne].
  - change (REG_DRX =? ?x) with false. unfold read_drx. cbn [Z.eqb Pos.eqb REG_DRX]. cbn [Z.eqb].
    pose proof (rx_pop_spec s (sim_path _ Hs)) as Hpop.
    assert (core (rx_pop s).2 = core s) as Hc by (unfold rx_pop; by case_if).
    destruct (rx_pop s) as [[b|] s']; cbn [fst snd] in *; destruct (update_irq_stream s') as [-> ->]; (split; [|done]).
    + destruct Hpop as (E1 & E2 & _). unfold incoming. by rewrite E1, E2.
    + by destruct Hpop as [-> _].
  - repeat (case_if; [try done|]); try done. unfold read_it. cbn [snd].
    match goal with |- _ ++ incoming (update_irq ?x) = _ ∧ _ => destruct (update_irq_stream x) as [-> ->] end.
    unfold refresh_it_rx. by case_if.
Qed.

Lemma write_stream us s now off val :
  sim_ok s → off ≠ REG_CMD → off ≠ REG_CONF1 →
  zlen (incoming s) + zlen (feed_op (core s) (Write now off val)).1 ≤ PEND_SIZE →
  incoming (calypso_sim_reg_write us s now off val) = incoming s ++ (feed_op (core s) (Write now off val)).1 ∧
  core (calypso_sim_reg_write us s now off val) = (feed_op (core s) (Write now off val)).2.
Proof.
  intros Hs H1 H2. unfold feed_op, sent_byte, calypso_sim_reg_write.
  destruct (Z.eqb_spec off REG_CMD); [done|]. destruct (Z.eqb_spec off REG_CONF1); [done|].
  destruct (Z.eqb_spec off REG_DTX) as [->|Hne].
  - intros Hfit. cbn [Z.eqb Pos.eqb REG_DTX REG_STAT REG_CONF2 REG_IT REG_DRX]. unfold write_dtx.
    destruct (apdu_tx_byte_spec us s now _ (land_byte val) (sim_core _ Hs) (sim_path _ Hs)) as ([Gp [Gq _] _ Gr] & C & _).
    rewrite zlen_incoming in Hfit by apply Hs.
    assert (0 ≤ rx_count s) as H0 by (rewrite <- zlen_rxq by apply Hs; unfold zlen; lia).
    specialize (Gr ltac:(lia)). revert Gq Gr C. generalize (apdu_tx_byte us s now (Z.land val 255)). intros s1 Gq Gr C.
    split; [|exact C]. rewrite (incoming_same s1) by done. unfold incoming. by rewrite Gq, Gr, app_assoc.
  - intros _. rewrite app_nil_r. cbn [fst snd]. repeat (case_if; [try done|]); try done.
    unfold write_maskit. destruct (update_irq_stream (s <| maskit := val |>)) as [F1 F2].
    revert F1 F2. generalize (update_irq (s <| maskit := val |>)). intros s1 F1 F2. case_if; done.
Qed.

Lemma step_stream us s o :
  sim_ok s → session_op o = true →
  zlen (incoming s) + zlen (feed_op (core s) o).1 ≤ PEND_SIZE →
  received_byte s o ++ incoming (step us s o) = incoming s ++ (feed_op (core s) o).1 ∧
  core (step us s o) = (feed_op (core s) o).2.
Proof.
  intros Hs Ho. unfold feed_op. destruct o as [off|now off val|now|now|now|now]; cbn [sent_byte received_byte step fst snd].
  - intros _. rewrite app_nil_r. apply read_stream; done.
  - cbn in Ho. bool_prop. apply write_stream; done.
  - done.
  - intros _. rewrite app_nil_r. case_if; [|done]. unfold fire_wt. case_if; [done|]. case_if; [done|].
    match goal with |- [] ++ incoming (update_irq ?x) = _ ∧ _ => destruct (update_irq_stream x) as [-> ->]; done end.
  - unfold zlen at 2. cbn [length]. intros Hfit. rewrite app_nil_r. case_if; [|done].
    destruct (resp_fire_stream (s <| resp_timer := None |>)) as [-> ->]; [apply (sim_ok_quiet s); done| |done].
    change (incoming (s <| resp_timer := None |>)) with (incoming s). lia.
  - intros _. rewrite app_nil_r. case_if; [|done].
    match goal with |- [] ++ incoming (tx_fire ?x) = _ ∧ _ => unfold tx_fire;
      destruct (update_irq_stream (x <| it := Z.lor (it x) IT_TX |>)) as [-> ->]; done end.
Qed.

(** At every event the bytes the firmware has not read, with those the event
    adds, fit in the response buffer ([PEND_SIZE], 277 bytes). *)
Fixpoint fits (us : Z) (s : CalypsoSim) (l : list op) : Prop :=
  match l with
  | [] => True
  | o :: l => zlen (incoming s) + zlen (feed_op (core s) o).1 ≤ PEND_SIZE ∧ fits us (step us s o) l
  end.

(** ** Refinement: the interface implements the transducer *)
Lemma session_stream us l : ∀ s,
  sim_ok s → Forall (λ o, session_op o = true) l → fits us s l →
  received us s l ++ incoming (run (step us) s l) = incoming s ++ (feeds (core s) (sends l)).1 ∧
  core (run (step us) s l) = (feeds (core s) (sends l)).2.
Proof.
  induction l as [|o l IH]; intros s Hs Hl Hdr; [by rewrite app_nil_r|].
  inversion Hl as [|? ? Ho Hl']; subst. destruct Hdr as [Hroom Hdr].
  destruct (step_stream us s o Hs Ho Hroom) as [E1 E2].
  destruct (IH (step us s o) (step_ok us s o Hs) Hl' Hdr) as [F1 F2].
  assert (feeds (core s) (sends (o :: l)) =
    ((feed_op (core s) o).1 ++ (feeds (feed_op (core s) o).2 (sends l)).1,
     (feeds (feed_op (core s) o).2 (sends l)).2)) as ->.
  { unfold feed_op.
    cbn [sends].
    destruct (sent_byte o) as [[t b]|]; cbn [feeds fst snd].
    - destruct (feed _ _ _) as [out k]. cbn [fst snd]. by destruct (feeds k (sends l)).
    - by destruct (feeds (core s) (sends l)). }
  cbn [received fst snd]. change (run (step us) s (o :: l)) with (run (step us) (step us s o) l).
  rewrite <- app_assoc, F1, app_assoc, E1, E2 in *. rewrite F2. split; [by rewrite <- app_assoc|done].
Qed.

(** It is enough to write a byte when at most 17 bytes are unread. *)
Lemma feed_op_room k o n : core_ok k → n ≤ PEND_SIZE → sent_byte o = None ∨ n ≤ 17 →
  n + zlen (feed_op k o).1 ≤ PEND_SIZE.
Proof.
  intros Hk Hn Ho. unfold feed_op. destruct (sent_byte o) as [[t b]|] eqn:E; [|unfold zlen; cbn; lia].
  assert (is_byte b) as Hb.
  { destruct o; cbn in E; simplify_eq. case_match; simplify_eq. apply land_byte. }
  destruct (feed_ok k t b Hb Hk) as (_ & _ & Hl). unfold PEND_SIZE, APDU_MAX_LEN. destruct Ho; [done|]. lia.
Qed.

(** ** Command APDUs *)

(** A header and the data its third parameter announces. *)
Definition outgoing (l : list Z) : bool := is_outgoing_data (rd l 1) && negb (rd l 4 =? 0).

Definition apdu_ok (l : list Z) : Prop :=
  Forall is_byte l ∧ (5 <= length l)%nat ∧ zlen l = 5 + (if outgoing l then rd l 4 else 0).

(** The procedure byte that invites the data, and the reply of the card. *)
Definition exec (c : Card) (l : list Z) : list Z * Card :=
  let '(out, c) := execute c l (zlen l) in
  ((if outgoing l then [rd l 1] else []) ++ out, c).

Fixpoint script (c : Card) (l : list (list Z)) : list Z * Card :=
  match l with
  | [] => ([], c)
  | a :: l =>
      let '(out, c) := exec c a in
      let '(outs, c) := script c l in
      (out ++ outs, c)
  end.

(** The bytes of a command follow each other without the long silence that
    abandons it. *)
Definition paced (l : list (Z * Z)) : Prop :=
  match l with
  | [] => True
  | (t, _) :: l => chain (λ a b, b - a ≤ APDU_ABANDON_NS) t (fst <$> l)
  end.

(** The assembler after the bytes [l1] of the command [l], in a buffer that held
    [a0]. *)
Definition mid (c : Card) (a0 l l1 : list Z) (t : Z) : Core :=
  mkCore c (l1 ++ drop (length l1) a0) (zlen l1) (if zlen l1 <? 5 then 0 else zlen l) t.

Lemma wr_mid l1 a0 b : (length l1 < length a0)%nat →
  wr (l1 ++ drop (length l1) a0) (zlen l1) b = (l1 ++ [b]) ++ drop (length (l1 ++ [b])) a0.
Proof.
  intros H. unfold wr, zlen. rewrite Nat2Z.id, insert_app_r_alt, Nat.sub_diag by lia.
  destruct (lookup_lt_is_Some_2 a0 (length l1) H) as [x Hx].
  rewrite (drop_S a0 x (length l1) Hx), length_app, <- app_assoc, Nat.add_1_r. done.
Qed.

Lemma apdu_ok_range l : apdu_ok l → 5 ≤ zlen l ≤ 260.
Proof.
  intros (Hb & H5 & E). assert (is_byte (rd l 4)) as H4 by (apply rd_Forall; [unfold is_byte; lia|done]).
  unfold is_byte, zlen in *. case_match; lia.
Qed.

Lemma rd_prefix l1 l2 r k : 0 ≤ k < zlen l1 → rd (l1 ++ r) k = rd (l1 ++ l2) k.
Proof. intros H. by rewrite !rd_app_l. Qed.

Lemma feed_mid c a0 l1 b l2 t t' :
  apdu_ok (l1 ++ b :: l2) → zlen a0 = APDU_MAX_LEN → l1 = [] ∨ t' - t ≤ APDU_ABANDON_NS →
  let l := l1 ++ b :: l2 in
  let ack := if (zlen l1 =? 4) && outgoing l then [rd l 1] else [] in
  feed (mid c a0 l l1 t) t' b =
  match l2 with
  | [] => let '(out, c') := execute c (l ++ drop (length l) a0) (zlen l) in
          (ack ++ out, mkCore c' (l ++ drop (length l) a0) 0 0 t')
  | _ => (ack, mid c a0 l (l1 ++ [b]) t')
  end.
Proof.
  intros Hok Ha Ht. cbn zeta. set (l := l1 ++ b :: l2) in *. pose proof (apdu_ok_range l Hok) as Hn.
  assert (zlen l = zlen l1 + 1 + zlen l2) as Hl by (unfold l, zlen; rewrite length_app; cbn; lia).
  assert (zlen (l1 ++ [b]) = zlen l1 + 1) as Hlb by (unfold zlen; rewrite length_app; cbn; lia).
  unfold feed, mid. cbn [k_card k_apdu k_pos k_expected k_last].
  assert ((0 <? zlen l1) && (APDU_ABANDON_NS <? t' - t) = false) as ->.
  { destruct Ht as [->|Ht]; [done|]. apply andb_false_iff. right. apply Z.ltb_ge. lia. }
  rewrite wr_mid by (unfold zlen, APDU_MAX_LEN in *; lia). rewrite Hlb.
  assert (zlen l1 + 1 = 5 → ∀ k, 0 ≤ k < 5 → rd ((l1 ++ [b]) ++ drop (length (l1 ++ [b])) a0) k = rd l k) as Hrd.
  { intros E k Hk. unfold l. replace (l1 ++ b :: l2) with ((l1 ++ [b]) ++ l2) by by rewrite <- app_assoc.
    apply rd_prefix. lia. }
  destruct (Z.eqb_spec (zlen l1 + 1) 5) as [E5|N5].
  - rewrite !Hrd by lia. fold (outgoing l). destruct Hok as (_ & _ & Hz). rewrite (proj2 (Z.eqb_eq (zlen l1) 4)) by lia. cbn [andb].
    assert ((if outgoing l then 5 + rd l 4 else 5) = zlen l) as -> by (destruct (outgoing l); lia).
    destruct (Z.ltb_spec (zlen l1 + 1) 5); [lia|]. destruct l2 as [|b2 l2].
    + assert (zlen l = zlen l1 + 1) as -> by (rewrite Hl; unfold zlen; cbn [length]; lia).
      rewrite Z.eqb_refl. done.
    + assert (0 < zlen (b2 :: l2)) by (unfold zlen; cbn [length]; lia).
      destruct (Z.eqb_spec (zlen l1 + 1) (zlen l)); [lia|done].
  - rewrite (proj2 (Z.eqb_neq (zlen l1) 4)) by lia. cbn [andb]. destruct l2 as [|b2 l2].
    + assert (zlen l = zlen l1 + 1) as E by (rewrite Hl; unfold zlen; cbn [length]; lia). rewrite E.
      destruct (Z.ltb_spec (zlen l1) 5); [lia|]. rewrite Z.eqb_refl. done.
    + assert (0 < zlen (b2 :: l2)) by (unfold zlen; cbn [length]; lia). assert (0 ≤ zlen l1) by (unfold zlen; lia).
      destruct (Z.ltb_spec (zlen l1) 5), (Z.ltb_spec (zlen l1 + 1) 5); try lia.
      * destruct (Z.eqb_spec (zlen l1 + 1) 0); [lia|done].
      * destruct (Z.eqb_spec (zlen l1 + 1) (zlen l)); [lia|done].
Qed.

Lemma feeds_mid c a0 g : ∀ l l1 t,
  l = l1 ++ (snd <$> g) → g ≠ [] → apdu_ok l → zlen a0 = APDU_MAX_LEN →
  (l1 = [] ∧ paced g) ∨ chain (λ a b, b - a ≤ APDU_ABANDON_NS) t (fst <$> g) →
  ∃ t', feeds (mid c a0 l l1 t) g =
    let '(out, c') := execute c (l ++ drop (length l) a0) (zlen l) in
    ((if (zlen l1 <? 5) && outgoing l then [rd l 1] else []) ++ out, mkCore c' (l ++ drop (length l) a0) 0 0 t').
Proof.
  induction g as [|[t' b] g IH]; intros l l1 t -> Hne Hok Ha Ht; [done|].
  assert (l1 = [] ∨ t' - t ≤ APDU_ABANDON_NS) as Ht' by (destruct Ht as [[-> _]|[? _]]; auto).
  assert (chain (λ a b, b - a ≤ APDU_ABANDON_NS) t' (fst <$> g)) as Hch by (destruct Ht as [[_ ?]|[_ ?]]; done).
  cbn [fmap list_fmap snd] in *. cbn [feeds]. rewrite feed_mid by done.
  destruct g as [|[t2 b2] g].
  - cbn [fmap list_fmap feeds]. exists t'. pose proof (apdu_ok_range _ Hok) as Hn.
    assert (zlen (l1 ++ [b]) = zlen l1 + 1) as Hl by (unfold zlen; rewrite length_app; cbn; lia). cbn in Hn.
    destruct Hok as (_ & _ & Hz). cbn [fmap list_fmap] in Hz.
    assert ((zlen l1 =? 4) && outgoing (l1 ++ [b]) = (zlen l1 <? 5) && outgoing (l1 ++ [b])) as ->.
    { f_equal. destruct (Z.eqb_spec (zlen l1) 4), (Z.ltb_spec (zlen l1) 5); try done; lia. }
    destruct (execute _ _ _) as [out c']. by rewrite app_nil_r.
  - destruct (IH (l1 ++ b :: (snd <$> (t2, b2) :: g)) (l1 ++ [b]) t') as [t3 E]; try done.
    { by rewrite <- app_assoc. } { by right. }
    exists t3. cbn [fmap list_fmap snd] in *. rewrite E. destruct (execute _ _ _) as [out c']. f_equal.
    rewrite app_assoc. f_equal. assert (zlen (l1 ++ [b]) = zlen l1 + 1) as -> by (unfold zlen; rewrite length_app; cbn; lia).
    set (o := outgoing _). destruct o, (Z.eqb_spec (zlen l1) 4), (Z.ltb_spec (zlen l1) 5), (Z.ltb_spec (zlen l1 + 1) 5); cbn; try done; lia.
Qed.

(** The card reads no byte beyond the command. *)
Lemma command_residue c ins p1 p2 p3 d r :
  0 < p3 → zlen d = p3 → command c ins p1 p2 p3 (Some (d ++ r)) = command c ins p1 p2 p3 (Some d).
Proof.
  intros Hp Hd. assert (take (Z.to_nat p3) (d ++ r) = take (Z.to_nat p3) d) as Ht.
  { rewrite take_app_le by (unfold zlen in Hd; lia). done. }
  unfold command. cbn [from_option id]. repeat (case_if; [try done|]); try done.
  - unfold cmd_select. case_if; [done|]. bool_prop. rewrite !rd_app_l by lia. done.
  - unfold cmd_update_binary. by rewrite Ht.
  - unfold cmd_update_record. by rewrite Ht.
  - unfold cmd_run_gsm_algo. case_if; [done|]. bool_prop.
    match goal with H : p3 = 16 |- _ => rewrite H in * end. change (Z.to_nat 16) with 16%nat in Ht. rewrite Ht.
    assert ((λ i, Z.lxor (rd (d ++ r) i) 170) <$> zseq 0 4 = (λ i, Z.lxor (rd d i) 170) <$> zseq 0 4) as ->; [|done].
    apply list_fmap_ext. intros i x Hx. apply list_elem_of_lookup_2, elem_of_zseq in Hx. rewrite rd_app_l by lia. done.
Qed.

Lemma execute_residue c l r : apdu_ok l → execute c (l ++ r) (zlen l) = execute c l (zlen l).
Proof.
  intros Hok. pose proof (apdu_ok_range l Hok) as Hn. destruct Hok as (Hb & H5 & Hz). unfold execute.
  rewrite !rd_app_l by lia. destruct (Z.ltb_spec 5 (zlen l)); [|done].
  rewrite drop_app_le by done. destruct (outgoing l); [|lia]. rewrite command_residue; [done|lia|].
  unfold zlen in *. rewrite length_drop. lia.
Qed.

(** A paced command sent to an idle assembler is executed exactly once. *)
Lemma feeds_apdu k g :
  core_ok k → k_pos k = 0 → paced g → apdu_ok (snd <$> g) →
  (feeds k g).1 = (exec (k_card k) (snd <$> g)).1 ∧
  k_card (feeds k g).2 = (exec (k_card k) (snd <$> g)).2 ∧ k_pos (feeds k g).2 = 0 ∧ core_ok (feeds k g).2.
Proof.
  intros [Hc [Ha Hab] Hp] H0 Hg Hok. assert (k = mid (k_card k) (k_apdu k) (snd <$> g) [] (k_last k)) as Ek.
  { unfold mid. destruct k; cbn in *. subst. unfold pos_ok in Hp. f_equal. change (zlen [] <? 5) with true. cbn. lia. }
  assert (g ≠ []) as Hne by (intros ->; destruct Hok as (_ & ? & _); cbn in *; lia).
  destruct (feeds_mid (k_card k) (k_apdu k) g (snd <$> g) [] (k_last k)) as [t E]; [done..|by left|].
  rewrite <- Ek in E. rewrite execute_residue in E by done. unfold exec.
  destruct (execute_ok (k_card k) (snd <$> g) (zlen (snd <$> g)) (proj1 Hok) Hc) as (_ & _ & Hc').
  destruct (execute _ _ _) as [out c']. rewrite E. cbn. split; [done|]. split; [done|]. split; [done|].
  split; cbn; [done| |left; lia]. pose proof (apdu_ok_range _ Hok). unfold APDU_MAX_LEN in *.
  split; [unfold zlen in *; rewrite length_app, length_drop; lia|apply Forall_app_2; [apply Hok|by apply Forall_drop]].
Qed.

Lemma feeds_app k g1 g2 :
  feeds k (g1 ++ g2) =
  ((feeds k g1).1 ++ (feeds (feeds k g1).2 g2).1, (feeds (feeds k g1).2 g2).2).
Proof.
  revert k. induction g1 as [|[t b] g1 IH]; intros k; cbn [feeds app fst snd]; [by destruct (feeds k g2)|].
  destruct (feed k t b) as [out k1]. rewrite IH. destruct (feeds k1 g1) as [outs k2]. cbn. by rewrite app_assoc.
Qed.

Definition commands_ok (gs : list (list (Z * Z))) : Prop :=
  Forall (λ g, paced g ∧ apdu_ok (snd <$> g)) gs.

Definition apdus (gs : list (list (Z * Z))) : list (list Z) := map (λ g : list (Z * Z), snd <$> g) gs.

Lemma feeds_script gs : ∀ k,
  core_ok k → k_pos k = 0 → commands_ok gs →
  (feeds k (concat gs)).1 = (script (k_card k) (apdus gs)).1 ∧
  k_card (feeds k (concat gs)).2 = (script (k_card k) (apdus gs)).2 ∧ k_pos (feeds k (concat gs)).2 = 0.
Proof.
  induction gs as [|g gs IH]; intros k Hk H0 Hgs; [done|]. inversion Hgs as [|? ? [Hp Hok] Hgs']; subst.
  destruct (feeds_apdu k g Hk H0 Hp Hok) as (E1 & E2 & E3 & Hk').
  destruct (IH (feeds k g).2 Hk' E3 Hgs') as (F1 & F2 & F3).
  cbn [concat]. rewrite feeds_app. cbn [fst snd]. rewrite F1, F2, F3, E1, E2.
  change (apdus (g :: gs)) with ((snd <$> g) :: apdus gs). cbn [script].
  destruct (exec _ _) as [o c1]. cbn [fst snd]. by destruct (script c1 (apdus gs)).
Qed.

(** A session: events [ev] that send the commands [gs] to an idle interface. *)
Record session (us : Z) (s : CalypsoSim) (ev : list op) (gs : list (list (Z * Z))) : Prop := {
  ses_ok : sim_ok s;
  ses_idle : apdu_pos s = 0;
  ses_ops : Forall (λ o, session_op o = true) ev;
  ses_fits : fits us s ev;
  ses_sent : sends ev = concat gs;
  ses_commands : commands_ok gs
}.

Lemma session_script us s ev gs : session us s ev gs →
  received us s ev ++ incoming (run (step us) s ev) = incoming s ++ (script (card s) (apdus gs)).1 ∧
  card (run (step us) s ev) = (script (card s) (apdus gs)).2 ∧ apdu_pos (run (step us) s ev) = 0.
Proof.
  intros [Hs Hi Ho Hd Hsent Hgs]. destruct (session_stream us ev s Hs Ho Hd) as [E1 E2].
  destruct (feeds_script gs (core s) (sim_core _ Hs) Hi Hgs) as (F1 & F2 & F3). rewrite Hsent, E1 in *.
  change (k_card (core s)) with (card s) in *. rewrite F1.
  assert (card (run (step us) s ev) = k_card (core (run (step us) s ev))) as -> by done.
  assert (apdu_pos (run (step us) s ev) = k_pos (core (run (step us) s ev))) as -> by done.
  by rewrite E2, F2, F3.
Qed.

(** ** Commands of the tests below *)
Definition apdu_out (ins p1 p2 : Z) (d : list Z) : list Z := [0xA0; ins; p1; p2; zlen d] ++ d.
Definition apdu_in (ins p1 p2 le : Z) : list Z := [0xA0; ins; p1; p2; le].

Lemma exec_out c ins p1 p2 d :
  is_outgoing_data ins = true → returns_data ins = false → 0 < zlen d →
  exec c (apdu_out ins p1 p2 d) =
  let '(out, c') := command c ins p1 p2 (zlen d) (Some d) in (ins :: out, c').
Proof.
  intros H1 H2 Hd. assert (5 < zlen (apdu_out ins p1 p2 d)) as Hl by (unfold apdu_out, zlen in *; cbn [app length]; lia).
  unfold exec, execute. destruct (Z.ltb_spec 5 (zlen (apdu_out ins p1 p2 d))); [|lia].
  assert (outgoing (apdu_out ins p1 p2 d) = true) as ->.
  { unfold outgoing. change (rd (apdu_out ins p1 p2 d) 1) with ins. change (rd (apdu_out ins p1 p2 d) 4) with (zlen d).
    rewrite H1. cbn. apply negb_true_iff, Z.eqb_neq. lia. }
  change (rd (apdu_out ins p1 p2 d) 1) with ins. rewrite H2. change (drop 5 (apdu_out ins p1 p2 d)) with d.
  change (rd (apdu_out ins p1 p2 d) 2) with p1. change (rd (apdu_out ins p1 p2 d) 3) with p2.
  change (rd (apdu_out ins p1 p2 d) 4) with (zlen d). by destruct (command _ _ _ _ _ _).
Qed.

Lemma exec_in c ins p1 p2 le :
  is_outgoing_data ins = false → returns_data ins = true →
  exec c (apdu_in ins p1 p2 le) = let '(out, c') := command c ins p1 p2 le None in (ins :: out, c').
Proof.
  intros H1 H2. unfold exec, execute, outgoing. change (zlen (apdu_in ins p1 p2 le)) with 5.
  change (rd (apdu_in ins p1 p2 le) 1) with ins. rewrite H1, H2. cbn [andb app].
  change (rd (apdu_in ins p1 p2 le) 2) with p1. change (rd (apdu_in ins p1 p2 le) 3) with p2.
  change (rd (apdu_in ins p1 p2 le) 4) with le. by destruct (command _ _ _ _ _ _).
Qed.

(** The two-command scripts: the data command, then the one that fetches. *)
Lemma script_two c ins p1 p2 d ins' p1' p2' le out c1 out' c2 :
  is_outgoing_data ins = true → returns_data ins = false → 0 < zlen d →
  is_outgoing_data ins' = false → returns_data ins' = true →
  command c ins p1 p2 (zlen d) (Some d) = (out, c1) → command c1 ins' p1' p2' le None = (out', c2) →
  script c [apdu_out ins p1 p2 d; apdu_in ins' p1' p2' le] = ((ins :: out) ++ (ins' :: out'), c2).
Proof.
  intros H1 H2 H3 H4 H5 E1 E2. cbn [script]. rewrite exec_out, E1 by done. rewrite exec_in, E2 by done.
  by rewrite app_nil_r.
Qed.

Lemma session_bytes us s ev gs l :
  session us s ev gs → l ∈ apdus gs → Forall is_byte l.
Proof.
  intros Hs Hl. pose proof (ses_commands _ _ _ _ Hs) as Hc. unfold commands_ok in Hc.
  apply list_elem_of_In, in_map_iff in Hl as (g & <- & Hg).
  rewrite Forall_forall in Hc. apply (Hc g Hg).
Qed.

Lemma apdu_out_bytes ins p1 p2 d : Forall is_byte (apdu_out ins p1 p2 d) →
  is_byte p1 ∧ is_byte p2 ∧ is_byte (zlen d) ∧ Forall is_byte d.
Proof.
  unfold apdu_out. cbn [app]. intros H. do 5 (apply Forall_cons_1 in H as [? H]). done.
Qed.

(** ** The protocol *)

(** C3: Commands are executed exactly once and answered in order: wherever the
    DRX reads and the response, transmission and waiting timers fall between the
    bytes of a sequence of commands without reset, without the long pause inside
    a command that abandons it, and such that the bytes not read yet never
    exceed the 277 bytes of the response buffer, the bytes read from DRX followed
    by those still unread are the earlier unread ones followed by the replies of
    the card to the commands, each preceded by the procedure byte that invites
    its data; the card ends as after those commands and the assembler is idle. *)
Theorem sim_session us s ev gs :
  session us s ev gs →
  received us s ev ++ incoming (run (step us) s ev) = incoming s ++ (script (card s) (apdus gs)).1 ∧
  card (run (step us) s ev) = (script (card s) (apdus gs)).2 ∧
  apdu_pos (run (step us) s ev) = 0 ∧ sim_ok (run (step us) s ev).
Proof.
  intros Hs. destruct (session_script us s ev gs Hs) as (E1 & E2 & E3). split_and!; try done.
  apply (run_invariant (step us) (λ _, True)); [intros; by apply step_ok|apply (ses_ok _ _ _ _ Hs)|by apply Forall_true].
Qed.

(** UPDATE BINARY then READ BINARY of the same bytes of the selected
    transparent file, over the interface: the terminal reads the procedure bytes,
    the data it wrote and the status words 9000. *)
Theorem sim_update_read_binary us s ev gs i f p1 p2 d :
  session us s ev gs → apdus gs = [apdu_out 0xD6 p1 p2 d; apdu_in 0xB0 p1 p2 (zlen d)] →
  selected_file (card s) = Some (i, f) → structure f = EF_TRANSPARENT → 0 < zlen d →
  p1 * 256 + p2 + zlen d ≤ size f →
  received us s ev ++ incoming (run (step us) s ev) =
  incoming s ++ [0xD6; 0x90; 0x00] ++ [0xB0] ++ d ++ [0x90; 0x00].
Proof.
  intros Hs Hg Hsel Hst Hd Hfit. destruct (session_script us s ev gs Hs) as [-> _]. f_equal. rewrite Hg.
  destruct (apdu_out_bytes 0xD6 p1 p2 d) as (H1 & H2 & H3 & H4).
  { apply (session_bytes us s ev gs); [done|]. rewrite Hg. by left. }
  unfold is_byte in H3.
  destruct (update_then_read_binary (card s) i f p1 p2 (zlen d) d) as (c' & E1 & E2); try done; try lia.
  { apply (sim_core _ (ses_ok _ _ _ _ Hs)). }
  rewrite (script_two _ _ _ _ _ _ _ _ _ [0x90; 0x00] c' (take (Z.to_nat (zlen d)) d ++ [0x90; 0x00]) c');
    [|done..|exact E1|exact E2].
  cbn [fst app]. rewrite take_ge by (unfold zlen; lia). done.
Qed.

(** UPDATE RECORD then READ RECORD (absolute mode) of a record of the
    selected record file, over the interface: the terminal reads back the record
    it wrote; and the card is left such that every other record reads as before. *)
Theorem sim_update_read_record us s ev gs i f rec d :
  session us s ev gs → apdus gs = [apdu_out 0xDC rec 0x04 d; apdu_in 0xB2 rec 0x04 (zlen d)] →
  selected_file (card s) = Some (i, f) → has_records f → zlen d = rec_len f →
  1 ≤ rec ≤ size f / rec_len f →
  received us s ev ++ incoming (run (step us) s ev) =
    incoming s ++ [0xDC; 0x90; 0x00] ++ [0xB2] ++ d ++ [0x90; 0x00] ∧
  ∀ k, 1 ≤ k ≤ size f / rec_len f → k ≠ rec →
    (cmd_read_record (card (run (step us) s ev)) k 0x04 (rec_len f)).1 =
    (cmd_read_record (card s) k 0x04 (rec_len f)).1.
Proof.
  intros Hs Hg Hsel Hr Hd Hrec. destruct (session_script us s ev gs Hs) as (-> & -> & _). rewrite Hg.
  destruct (apdu_out_bytes 0xDC rec 0x04 d) as (_ & _ & _ & H4).
  { apply (session_bytes us s ev gs); [done|]. rewrite Hg. by left. }
  pose proof (core_card _ (sim_core _ (ses_ok _ _ _ _ Hs))) as Hc. cbn in Hc.
  pose proof (selected_file_Some _ _ _ Hsel) as [Hi _].
  destruct (shape_records f (file_shape _ _ _ (ok_fs _ Hc) Hi) Hr) as (Hrl & _).
  destruct (update_then_read_record (card s) i f rec d) as (c' & E1 & Hc' & Hsel' & E2); try done; try lia.
  rewrite Hd in *. pose proof (E2 rec Hrec) as E3. rewrite Z.eqb_refl in E3.
  destruct (cmd_read_record c' rec 4 (rec_len f)) as [out' c2] eqn:E4. cbn in E3. subst out'.
  assert (script (card s) [apdu_out 0xDC rec 4 d; apdu_in 0xB2 rec 4 (rec_len f)] =
    ((0xDC :: [0x90; 0x00]) ++ (0xB2 :: take (Z.to_nat (rec_len f)) d ++ [0x90; 0x00]), c2)) as ->.
  { eapply script_two; [done|done|lia|done|done|rewrite Hd; exact E1|exact E4]. }
  cbn [fst snd]. split; [rewrite take_ge by (unfold zlen in Hd; lia); done|].
  intros k Hk Hne. specialize (E2 k Hk). rewrite (proj2 (Z.eqb_neq k rec)) in E2 by done. rewrite <- E2.
  assert (c2 = (cmd_read_record c' rec 4 (rec_len f)).2) as -> by (by rewrite E4).
  by apply (read_record_stable c' i f rec k).
Qed.

(** SELECT of a file of the card announces the length of its description,
    GET RESPONSE of that length returns exactly the description of that file
    (size, identifier, type and structure), and the file is the one the following
    commands access, whatever directory is selected. *)
Theorem sim_select_get_response us s ev gs i f :
  session us s ev gs → files (fs (card s)) !! i = Some f →
  apdus gs = [apdu_out 0xA4 0 0 [fid f / 256; fid f mod 256];
              apdu_in 0xC0 0 0 (zlen (build_select_response f))] →
  received us s ev ++ incoming (run (step us) s ev) =
    incoming s ++ [0xA4; 0x9F; zlen (build_select_response f); 0xC0] ++ build_select_response f ++ [0x90; 0x00] ∧
  selected_file (card (run (step us) s ev)) = Some (i, f).
Proof.
  intros Hs Hi Hg. destruct (session_script us s ev gs Hs) as (-> & -> & _). rewrite Hg.
  pose proof (core_card _ (sim_core _ (ses_ok _ _ _ _ Hs))) as Hc. cbn in Hc.
  destruct (select_then_get (card s) i f [] Hc Hi) as (n & c' & E1 & Hsel & -> & E2).
  rewrite (script_two _ _ _ _ _ _ _ _ _ [0x9F; zlen (build_select_response f)] c'
    (build_select_response f ++ [0x90; 0x00]) (c' <| resp_len := 0 |>)); [|done..|exact E1|exact E2].
  split; [done|]. exact Hsel.
Qed.

(** C40: Authentication: with a key, RUN GSM ALGORITHM on a 16-byte challenge
    followed by GET RESPONSE gives the terminal the SRES and Kc that COMP128v1
    computes from the key and the challenge. *)
Theorem sim_authentication us s ev gs rand sres kc :
  session us s ev gs → apdus gs = [apdu_out 0x88 0 0 rand; apdu_in 0xC0 0 0 12] →
  length rand = 16%nat → ki_valid (card s) = true → COMP128.comp128v1 (ki (card s)) rand = (sres, kc) →
  received us s ev ++ incoming (run (step us) s ev) =
  incoming s ++ [0x88; 0x9F; 12; 0xC0] ++ sres ++ kc ++ [0x90; 0x00].
Proof.
  intros Hs Hg Hr Hk E. destruct (session_script us s ev gs Hs) as (-> & _ & _). rewrite Hg.
  pose proof (core_card _ (sim_core _ (ses_ok _ _ _ _ Hs))) as Hc. cbn in Hc.
  destruct (run_gsm_then_get (card s) rand [] sres kc Hc Hk Hr E) as (c' & E1 & E2). rewrite app_nil_r in E1.
  assert (zlen rand = 16) as Hz by (unfold zlen; lia).
  rewrite (script_two _ _ _ _ _ _ _ _ _ [0x9F; 12] c' (sres ++ kc ++ [0x90; 0x00]) (c' <| resp_len := 0 |>));
    [done|done|done|lia|done|done|rewrite Hz; exact E1|exact E2].
Qed.

Lemma reset_stream us s now :
  sim_ok s → powered s = true →
  let s' := calypso_sim_reg_write us s now REG_CMD CMD_CARDRST in
  rxq s' = SIM_ATR ∧ response s' = response s ∧ resp_timer s' = resp_timer s.
Proof.
  intros Hs Hp s'.
  set (s1 := s <| cmd := CMD_CARDRST |> <| apdu_pos := 0 |> <| apdu_expected := 0 |> <| rx_tail := 0 |> <| rx_head := 0 |>
             <| card := (card s) <| resp_len := 0 |> <| selected_df := 0x3F00 |> <| selected_ef := 0x3F00 |> |>).
  assert (s' = deliver_atr us s1 now) as ->.
  { change s' with (card_reset us (s <| cmd := CMD_CARDRST |>) now). unfold card_reset.
    cbn [powered update_field]. rewrite Hp. done. }
  unfold deliver_atr. change (powered s1) with (powered s). rewrite Hp. cbn [negb].
  assert (path_ok s1) as Hp1.
  { destruct (sim_path _ Hs) as [? ? ? ? ?]. split; try assumption; cbn; unfold RX_FIFO_SIZE; lia. }
  destruct (rx_push_n_ring SIM_ATR s1) as [E1 E2]; [apply (sim_defer _ Hs)|unfold SIM_ATR; solve_bytes|done|done|].
  destruct (rx_push_n_frame SIM_ATR s1) as (p & n & r & h & E).
  unfold raise_rx_irq. assert (defer (rx_push_n s1 SIM_ATR) = false) as -> by (rewrite E; apply (sim_defer _ Hs)).
  destruct (update_irq_frame (rx_push_n s1 SIM_ATR)) as (i & q & ->).
  split; [exact E1|]. split; [exact E2|]. by rewrite E.
Qed.

(** A card reset does not cancel the response that is being transmitted:
    after a CMD write with the card reset bit, the ring holds the ATR, and the
    deferred response of the command from before the reset follows it when the
    response timer fires. *)
Theorem sim_reset_keeps_response us s now :
  sim_ok s → powered s = true →
  let s' := calypso_sim_reg_write us s now REG_CMD CMD_CARDRST in
  rxq s' = SIM_ATR ∧ response s' = response s ∧ resp_timer s' = resp_timer s ∧
  rxq (resp_fire s') = SIM_ATR ++ response s.
Proof.
  intros Hs Hp s'. assert (sim_ok s') as Hs' by by apply reg_write_ok.
  assert (rxq s' = SIM_ATR ∧ response s' = response s ∧ resp_timer s' = resp_timer s) as (E1 & E2 & E3).
  { unfold s'. apply reset_stream; done. }
  split; [exact E1|]. split; [exact E2|]. split; [exact E3|]. clearbody s'.
  destruct (resp_fire_ring s' (sim_path _ Hs')) as [E _].
  - rewrite <- (zlen_rxq s' (sim_path _ Hs')), E1. pose proof (ok_pend_len _ (sim_path _ Hs')).
    change (zlen SIM_ATR) with 4. unfold PEND_SIZE, APDU_MAX_LEN, RX_FIFO_SIZE in *. lia.
  - by rewrite E, E1, E2.
Qed.

(** ** Sample sessions *)
Definition sample_sim : CalypsoSim := calypso_sim_new (fs_init []) (replicate 16 1) true.

Definition send (t : Z) (l : list Z) : list op := map (λ b, Write t REG_DTX b) l.
Definition timed (t : Z) (l : list Z) : list (Z * Z) := map (λ b, (t, b)) l.

(** Selection of a file, its response read. *)
Definition select_ops (hi lo : Z) : list op :=
  send 0 (apdu_out 0xA4 0 0 [hi; lo]) ++ [RespTimer 1000000000] ++ replicate 3 (Read REG_DRX).

Lemma sample_ok ops : sim_ok (run (step 1040) sample_sim ops).
Proof.
  apply reachable_ok; [apply fs_init_ok|done|]. apply Forall_replicate. unfold is_byte. lia.
Qed.

Ltac solve_apdu :=
  split; [cbn; repeat split; by vm_compute|split; [cbn; solve_bytes|split; [cbn; lia|by vm_compute]]].
Ltac solve_session :=
  split; [apply sample_ok|by vm_compute|apply (bool_decide_unpack _); by vm_compute
         |repeat split; by vm_compute|by vm_compute|
          repeat (apply Forall_cons_2; [solve_apdu|]); apply Forall_nil_2].

Lemma sim_session_witness :
  let s := run (step 1040) sample_sim [] in
  let ev := send 5 (apdu_in 0xF2 0 0 2) ++ [RespTimer 1000000000; Read REG_DRX] in
  card (run (step 1040) s ev) = (script (card s) [apdu_in 0xF2 0 0 2]).2.
Proof.
  refine (proj1 (proj2 (sim_session 1040 (run (step 1040) sample_sim [])
    (send 5 (apdu_in 0xF2 0 0 2) ++ [RespTimer 1000000000; Read REG_DRX]) [timed 5 (apdu_in 0xF2 0 0 2)] _))).
  solve_session.
Defined.

Lemma sim_update_read_binary_witness :
  let s := run (step 1040) sample_sim (select_ops 0x6F 0x07) in
  let ev := send 7 (apdu_out 0xD6 0 1 [17; 18]) ++ [RespTimer 1000000000; Read REG_DRX] ++
            send 9 (apdu_in 0xB0 0 1 2) in
  received 1040 s ev ++ incoming (run (step 1040) s ev) =
  [] ++ [0xD6; 0x90; 0x00] ++ [0xB0] ++ [17; 18] ++ [0x90; 0x00].
Proof.
  refine (sim_update_read_binary 1040 (run (step 1040) sample_sim (select_ops 0x6F 0x07))
    (send 7 (apdu_out 0xD6 0 1 [17; 18]) ++ [RespTimer 1000000000; Read REG_DRX] ++ send 9 (apdu_in 0xB0 0 1 2))
    [timed 7 (apdu_out 0xD6 0 1 [17; 18]); timed 9 (apdu_in 0xB0 0 1 2)]
    4 (mkFile 0x6F07 0x7F20 EF_TRANSPARENT 9 0 (file_data [0x08; 0x09; 0x10; 0x10; 0x00; 0x00; 0x00; 0x00; 0xF1]))
    0 1 [17; 18] _ _ _ _ _ _).
  - solve_session.
  - done.
  - by vm_compute.
  - done.
  - done.
  - done.
Defined.

Lemma sim_update_read_record_witness :
  let s := run (step 1040) sample_sim (select_ops 0x6F 0x39) in
  let ev := send 7 (apdu_out 0xDC 2 4 [17; 18; 19]) ++ send 9 (apdu_in 0xB2 2 4 3) in
  received 1040 s ev ++ incoming (run (step 1040) s ev) =
  [] ++ [0xDC; 0x90; 0x00] ++ [0xB2] ++ [17; 18; 19] ++ [0x90; 0x00].
Proof.
  refine (proj1 (sim_update_read_record 1040 (run (step 1040) sample_sim (select_ops 0x6F 0x39))
    (send 7 (apdu_out 0xDC 2 4 [17; 18; 19]) ++ send 9 (apdu_in 0xB2 2 4 3))
    [timed 7 (apdu_out 0xDC 2 4 [17; 18; 19]); timed 9 (apdu_in 0xB2 2 4 3)]
    23 (mkFile 0x6F39 0x7F20 EF_CYCLIC 9 3 (file_data [])) 2 [17; 18; 19] _ _ _ _ _ _)).
  - solve_session.
  - done.
  - by vm_compute.
  - by right.
  - done.
  - by vm_compute.
Defined.

Lemma sim_select_get_response_witness :
  selected_file (card (run (step 1040) (run (step 1040) sample_sim [])
    (send 7 (apdu_out 0xA4 0 0 [0x6F; 0x07]) ++ send 9 (apdu_in 0xC0 0 0 15)))) =
  Some (4%nat, mkFile 0x6F07 0x7F20 EF_TRANSPARENT 9 0 (file_data [0x08; 0x09; 0x10; 0x10; 0x00; 0x00; 0x00; 0x00; 0xF1])).
Proof.
  refine (proj2 (sim_select_get_response 1040 (run (step 1040) sample_sim [])
    (send 7 (apdu_out 0xA4 0 0 [0x6F; 0x07]) ++ send 9 (apdu_in 0xC0 0 0 15))
    [timed 7 (apdu_out 0xA4 0 0 [0x6F; 0x07]); timed 9 (apdu_in 0xC0 0 0 15)] 4
    (mkFile 0x6F07 0x7F20 EF_TRANSPARENT 9 0 (file_data [0x08; 0x09; 0x10; 0x10; 0x00; 0x00; 0x00; 0x00; 0xF1])) _ _ _)).
  - solve_session.
  - done.
  - by vm_compute.
Defined.

Lemma sim_authentication_witness :
  let s := run (step 1040) sample_sim [] in
  let ev := send 7 (apdu_out 0x88 0 0 (replicate 16 5)) ++ send 9 (apdu_in 0xC0 0 0 12) in
  received 1040 s ev ++ incoming (run (step 1040) s ev) =
  [] ++ [0x88; 0x9F; 12; 0xC0] ++ (COMP128.comp128v1 (replicate 16 1) (replicate 16 5)).1 ++
  (COMP128.comp128v1 (replicate 16 1) (replicate 16 5)).2 ++ [0x90; 0x00].
Proof.
  refine (sim_authentication 1040 (run (step 1040) sample_sim [])
    (send 7 (apdu_out 0x88 0 0 (replicate 16 5)) ++ send 9 (apdu_in 0xC0 0 0 12))
    [timed 7 (apdu_out 0x88 0 0 (replicate 16 5)); timed 9 (apdu_in 0xC0 0 0 12)] (replicate 16 5)
    (COMP128.comp128v1 (replicate 16 1) (replicate 16 5)).1 (COMP128.comp128v1 (replicate 16 1) (replicate 16 5)).2 _ _ _ _ _).
  - solve_session.
  - done.
  - done.
  - done.
  - by vm_compute.
Defined.

Lemma sim_reset_keeps_response_witness :
  let s := run (step 1040) sample_sim ([Write 0 REG_CMD CMD_START] ++ replicate 4 (Read REG_DRX) ++ send 7 (apdu_in 0xF2 0 0 2)) in
  rxq (resp_fire (calypso_sim_reg_write 1040 s 8 REG_CMD CMD_CARDRST)) = SIM_ATR ++ response s.
Proof.
  refine (proj2 (proj2 (proj2 (sim_reset_keeps_response 1040
    (run (step 1040) sample_sim ([Write 0 REG_CMD CMD_START] ++ replicate 4 (Read REG_DRX) ++ send 7 (apdu_in 0xF2 0 0 2))) 8 _ _)))).
  - apply sample_ok.
  - by vm_compute.
Defined.

End SESSION.
