(* ===== verification/A5.v ===== *)
(** * The A5 coprocessor of the DSP ([l1-dsp/calypso_a5.c])

    The DSP hands Kc and COUNT to the coprocessor through I/O ports and reads
    the key stream back.  The cipher itself, [osmo_a5], belongs to libosmocore
    and is a parameter; the frame numbers the other components hold at the
    moment of the computation are inputs. *)
From S2P Require Import Prelude.

Module A5.

Definition A5_PA_CTRL : Z := 0x2800.
Definition A5_PA_TRACE : Z := 0x2801.
Definition A5_PA_ETAT : Z := 0x2802.
Definition A5_PA_KC0 : Z := 0x2803.
Definition A5_PA_CNT0 : Z := 0x2807.
Definition A5_PA_CNT1 : Z := 0x2808.
Definition A5_PA_FLUX0 : Z := 0x2809.
Definition A5_N_FLUX : Z := 16.
Definition A5_IT_BIT : Z := 11.

(** [ifr] is the interrupt flag register of the DSP core that executes the port
    write. *)
Record A5State := mkA5 {
  ctrl : Z;
  kc : list Z;
  cnt : list Z;
  etat : Z;
  flux : list Z;
  n_calculs : Z;
  n_recales : Z;
  n_dl_bsp : Z;
  dernier_fn : Z;
  dernier_algo : Z;
  ifr : Z
}.

#[export] Instance a5_eta : Settable A5State := λ s,
  mkA5 (ctrl s) (kc s) (cnt s) (etat s) (flux s) (n_calculs s) (n_recales s) (n_dl_bsp s)
    (dernier_fn s) (dernier_algo s) (ifr s).

Definition a5_init : A5State := mkA5 0 (replicate 4 0) (replicate 2 0) 0 (replicate 16 0) 0 0 0 0 0 0.

(** The environment switches (CALYPSO_A5, _RECALE, _DL_BSP, _DL_DECAL), the last
    frame the BSP deposited, and the frame the BSP plays at the current tick
    when it knows it. *)
Record Env := mkEnv {
  a5_on : bool;
  recale : bool;
  dl_bsp : bool;
  dl_decal : Z;
  daram_last_fn : Z;
  bsp_fn : option Z
}.

Definition calypso_a5_on (e : Env) : bool := a5_on e.

Definition calypso_a5_dernier (e : Env) (s : A5State) : option Z :=
  if negb (calypso_a5_on e) || (dernier_algo s =? 0) then None else Some (dernier_fn s).

(** 114 bits into 8 words, most significant bit first. *)
Definition pack_step (b : list Z) (w : list Z) (i : Z) : list Z :=
  if negb (rd b i =? 0) then wr w (i / 16) (Z.lor (rd w (i / 16)) (Z.shiftr 0x8000 (i mod 16))) else w.

Definition empaqueter (b : list Z) : list Z := foldl (pack_step b) (replicate 8 0) (zseq 0 114).

(** The key bytes, [a_kc] being reversed. *)
Definition key_step (kc : list Z) (key : list Z) (i : Z) : list Z :=
  wr (wr key (7 - 2 * i) (u8 (Z.land (rd kc i) 0xff))) (6 - 2 * i) (u8 (Z.shiftr (rd kc i) 8)).

Definition a5_key (kc : list Z) : list Z := foldl (key_step kc) (replicate 8 0) (zseq 0 4).

(** COUNT to frame number. *)
Definition a5_count_fn (cnt : list Z) : Z :=
  let t2 := Z.land (rd cnt 0) 0x1f in
  let t3 := Z.land (Z.shiftr (rd cnt 0) 5) 0x3f in
  let t1 := Z.land (rd cnt 1) 0x7ff in
  u32 (51 * 26 * t1 + 51 * ((t3 - t2 + 26 * 3) mod 26) + t3).

(** The realignment of the SACCH frames: the frame number and whether it moved. *)
Definition a5_recaler (e : Env) (fn : Z) : Z * bool :=
  let p26 := fn mod 26 in
  if recale e && (fn =? daram_last_fn e) && ((p26 =? 12) || (p26 =? 25))
  then ((fn + 1) mod 2715648, true) else (fn, false).

(** The frame number of the downlink stream. *)
Definition a5_fn_dl (e : Env) (fn : Z) : Z * bool :=
  match (if dl_bsp e then bsp_fn e else None) with
  | Some ft =>
      let d := i32 ft - i32 fn in
      if (-3 <=? d) && (d <=? 3) && negb (d =? 0) then (u32 (i32 ft + dl_decal e), true) else (fn, false)
  | None => (fn, false)
  end.

Section a5.
  (** [osmo_a5(algo, key, fn, dl, ul)]: the downlink and uplink streams, or
      [None] for a negative result. *)
  Context (osmo_a5 : Z → list Z → Z → option (list Z * list Z)).

Definition a5_calculer (e : Env) (s : A5State) (algo : Z) : A5State :=
  let key := a5_key (kc s) in
  let '(fn, moved) := a5_recaler e (a5_count_fn (cnt s)) in
  let s := if moved then s <| n_recales := n_recales s + 1 |> else s in
  let '(fn_dl, used) := a5_fn_dl e fn in
  let s := if used then s <| n_dl_bsp := n_dl_bsp s + 1 |> else s in
  let s :=
    match osmo_a5 algo key fn with
    | None => s <| flux := replicate 16 0 |>
    | Some (dl, ul) =>
        let dl := if negb (fn_dl =? fn)
                  then match osmo_a5 algo key fn_dl with Some (dl2, _) => dl2 | None => dl end else dl in
        s <| flux := empaqueter dl ++ empaqueter ul |> <| dernier_fn := fn |> <| dernier_algo := algo |>
    end in
  let s := s <| etat := Z.lor (etat s) 0x0001 |> in
  let s := s <| n_calculs := n_calculs s + 1 |> in
  s <| ifr := Z.lor (ifr s) (u16 (Z.shiftl 1 A5_IT_BIT)) |>.

(** A write to the control port. *)
Definition write_ctrl (e : Env) (s : A5State) (val : Z) : A5State :=
  let avant := ctrl s in
  let s := s <| ctrl := val |> in
  if val =? 0 then s <| etat := 0 |>
  else if has val 0x0001 && negb (has avant 0x0001) then
    let algo := Z.land (Z.shiftr val 2) 3 in
    if (algo =? 1) || (algo =? 2) then a5_calculer e s algo
    else s <| flux := replicate 16 0 |> <| etat := Z.lor (etat s) 0x0001 |>
           <| ifr := Z.lor (ifr s) (u16 (Z.shiftl 1 A5_IT_BIT)) |>
  else s.

(** [None] when the port is not one of the coprocessor ([false]). *)
Definition calypso_a5_portw (e : Env) (s : A5State) (pa val : Z) : option A5State :=
  if negb (calypso_a5_on e) || (pa <? A5_PA_CTRL) || (A5_PA_CNT1 <? pa) then None
  else Some (
    if pa =? A5_PA_CTRL then write_ctrl e s val
    else if pa =? A5_PA_CNT0 then s <| cnt := wr (cnt s) 0 val |>
    else if pa =? A5_PA_CNT1 then s <| cnt := wr (cnt s) 1 val |>
    else if (pa =? A5_PA_TRACE) || (pa =? A5_PA_ETAT) then s
    else s <| kc := wr (kc s) (pa - A5_PA_KC0) val |>).

Definition calypso_a5_portr (e : Env) (s : A5State) (pa : Z) : option Z :=
  if negb (calypso_a5_on e) || (pa <? A5_PA_CTRL) || (A5_PA_FLUX0 + A5_N_FLUX <=? pa) then None
  else Some (
    if A5_PA_FLUX0 <=? pa then rd (flux s) (pa - A5_PA_FLUX0)
    else if pa =? A5_PA_ETAT then etat s
    else if pa =? A5_PA_CTRL then ctrl s
    else if pa =? A5_PA_TRACE then 0
    else if pa <=? A5_PA_KC0 + 3 then rd (kc s) (pa - A5_PA_KC0)
    else rd (cnt s) (pa - A5_PA_CNT0)).

(** The port writes of the DSP, in order. *)
Definition port_writes (e : Env) (s : A5State) (l : list (Z * Z)) : option A5State :=
  foldl (λ o '(pa, val), o ≫= λ s, calypso_a5_portw e s pa val) (Some s) l.

End a5.

(** ** Packing *)
Lemma empaqueter_bits b n j p :
  (n <= 114)%nat → 0 ≤ j < 8 → 0 ≤ p < 16 →
  let w := foldl (pack_step b) (replicate 8 0) (zseq 0 n) in
  length w = 8%nat ∧
  Z.testbit (rd w j) p = (16 * j + 15 - p <? Z.of_nat n) && negb (rd b (16 * j + 15 - p) =? 0).
Proof.
  intros Hn Hj Hp. revert j p Hj Hp. induction n as [|n IH]; intros j p Hj Hp; cbn zeta.
  { split; [done|]. destruct (Z.ltb_spec (16 * j + 15 - p) (Z.of_nat 0)); [lia|]. change (foldl _ _ (zseq 0 0)) with (replicate 8 0).
    assert (rd (replicate 8 0) j = 0) as ->; [|by rewrite Z.bits_0].
    apply (rd_Forall (λ v, v = 0)); [done|]. by apply Forall_replicate. }
  rewrite zseq_S, foldl_app. cbn [foldl]. rewrite Z.add_0_l.
  set (w := foldl (pack_step b) (replicate 8 0) (zseq 0 n)) in *.
  assert (length w = 8%nat) as Hw by (apply (IH ltac:(lia) j p); lia).
  destruct (IH ltac:(lia) j p Hj Hp) as [_ Hbit]. clearbody w.
  assert (0 ≤ Z.of_nat n / 16 < 8) as Hq by mlia. unfold pack_step.
  destruct (rd b (Z.of_nat n) =? 0) eqn:Eb; cbn [negb].
  - split; [done|]. rewrite Hbit. destruct (Z.ltb_spec (16 * j + 15 - p) (Z.of_nat n)), (Z.ltb_spec (16 * j + 15 - p) (Z.of_nat (S n))); try done; try lia.
    replace (16 * j + 15 - p) with (Z.of_nat n) by lia. by rewrite Eb.
  - split; [by rewrite length_wr|]. rewrite rd_wr by (unfold zlen; lia).
    assert (Z.shiftr 0x8000 (Z.of_nat n mod 16) = Z.shiftl 1 (15 - Z.of_nat n mod 16)) as ->.
    { change 0x8000 with (Z.shiftl 1 15). rewrite Z.shiftr_shiftl_r by mlia.
      replace (Z.of_nat n mod 16 - 15) with (- (15 - Z.of_nat n mod 16)) by lia. by rewrite Z.shiftr_opp_r. }
    destruct (Z.eqb_spec j (Z.of_nat n / 16)) as [->|Hne].
    + rewrite testbit_setbit by mlia. rewrite Hbit.
      destruct (Z.eqb_spec p (15 - Z.of_nat n mod 16)) as [->|Hp'].
      * replace (16 * (Z.of_nat n / 16) + 15 - (15 - Z.of_nat n mod 16)) with (Z.of_nat n) by mlia.
        rewrite Eb, orb_true_r. destruct (Z.ltb_spec (Z.of_nat n) (Z.of_nat (S n))); [done|lia].
      * rewrite orb_false_r. f_equal. apply eq_true_iff_eq. rewrite !Z.ltb_lt. mlia.
    + rewrite Hbit. f_equal. apply eq_true_iff_eq. rewrite !Z.ltb_lt. mlia.
Qed.

Lemma empaqueter_spec b i :
  0 ≤ i < 114 → length (empaqueter b) = 8%nat ∧
  Z.testbit (rd (empaqueter b) (i / 16)) (15 - i mod 16) = negb (rd b i =? 0).
Proof.
  intros Hi. destruct (empaqueter_bits b 114 (i / 16) (15 - i mod 16)) as [Hl Hb]; [lia|mlia|mlia|].
  split; [exact Hl|]. unfold empaqueter. rewrite Hb.
  replace (16 * (i / 16) + 15 - (15 - i mod 16)) with i by mlia.
  destruct (Z.ltb_spec i (Z.of_nat 114)); [done|lia].
Qed.

(** ** Key and COUNT, as the firmware writes them *)
Definition kc_words (k : list Z) : list Z :=
  (λ i, Z.lor (rd k (7 - 2 * i)) (Z.shiftl (rd k (6 - 2 * i)) 8)) <$> zseq 0 4.

Definition count_words (fn : Z) : list Z := [Z.lor (Z.shiftl (fn mod 51) 5) (fn mod 26); fn / 1326].

Lemma word_lo hi lo : 0 ≤ lo < 256 → u8 (Z.land (Z.lor lo (Z.shiftl hi 8)) 0xff) = lo.
Proof.
  intros Hl. rewrite Z.lor_comm, lor_shiftl_add by lia. change 0xff with (Z.ones 8).
  rewrite Z.land_ones by lia. unfold u8. change (2 ^ 8) with 256. mlia.
Qed.

Lemma word_hi hi lo : 0 ≤ hi < 256 → 0 ≤ lo < 256 → u8 (Z.shiftr (Z.lor lo (Z.shiftl hi 8)) 8) = hi.
Proof.
  intros Hh Hl. rewrite Z.lor_comm, lor_shiftl_add by lia.
  rewrite Z.shiftr_div_pow2 by lia. unfold u8. change (2 ^ 8) with 256. mlia.
Qed.

Lemma a5_key_words k : length k = 8%nat → Forall (λ b, 0 ≤ b < 256) k → a5_key (kc_words k) = k.
Proof.
  intros Hl Hb. destruct k as [|k0 [|k1 [|k2 [|k3 [|k4 [|k5 [|k6 [|k7 [|]]]]]]]]]; try done.
  do 8 (apply Forall_cons_1 in Hb as [? Hb]).
  set (w := λ lo hi, Z.lor lo (Z.shiftl hi 8)). set (lo := λ w, u8 (Z.land w 0xff)). set (hi := λ w, u8 (Z.shiftr w 8)).
  transitivity [hi (w k1 k0); lo (w k1 k0); hi (w k3 k2); lo (w k3 k2);
                hi (w k5 k4); lo (w k5 k4); hi (w k7 k6); lo (w k7 k6)]; [done|].
  unfold hi, lo, w. by rewrite !word_lo, !word_hi by done.
Qed.

Lemma crt_51_26 r : 0 ≤ r < 1326 → 51 * ((r mod 51 - r mod 26 + 26 * 3) mod 26) + r mod 51 = r.
Proof.
  intros Hr. apply Z.eqb_eq.
  apply (range_check (λ r, 51 * ((r mod 51 - r mod 26 + 26 * 3) mod 26) + r mod 51 =? r) 1326); [lia|by vm_compute].
Qed.

(** The frame number is recovered from T1, T2 and T3. *)
Lemma count_fn_words fn : 0 ≤ fn < 2715648 → a5_count_fn (count_words fn) = fn.
Proof.
  intros Hfn. unfold a5_count_fn, count_words.
  change (rd [?a; ?b] 0) with a. change (rd [?a; ?b] 1) with b.
  assert (0 ≤ fn mod 51 < 51) by mlia. assert (0 ≤ fn mod 26 < 26) by mlia.
  rewrite lor_shiftl_add by lia. change 0x1f with (Z.ones 5). change 0x3f with (Z.ones 6). change 0x7ff with (Z.ones 11).
  rewrite !Z.land_ones, Z.shiftr_div_pow2 by lia. change (2 ^ 5) with 32. change (2 ^ 6) with 64. change (2 ^ 11) with 2048.
  assert ((fn mod 51 * 32 + fn mod 26) mod 32 = fn mod 26) as -> by mlia.
  assert ((fn mod 51 * 32 + fn mod 26) / 32 mod 64 = fn mod 51) as -> by mlia.
  assert (fn / 1326 mod 2048 = fn / 1326) as -> by mlia.
  assert (fn mod 51 = fn mod 1326 mod 51) as -> by mlia. assert (fn mod 26 = fn mod 1326 mod 26) as -> by mlia.
  rewrite <- Z.add_assoc, crt_51_26 by mlia. rewrite u32_small by mlia. mlia.
Qed.

(** ** The programming sequence of the DSP ROM *)
Definition start_word (algo : Z) : Z := Z.lor (Z.shiftl algo 2) 0x12.

Definition rom_program (k : list Z) (fn algo : Z) : list (Z * Z) :=
  [(A5_PA_CTRL, 0)] ++
  ((λ i, (A5_PA_KC0 + i, rd (kc_words k) i)) <$> zseq 0 4) ++
  [(A5_PA_CNT0, rd (count_words fn) 0); (A5_PA_CNT1, rd (count_words fn) 1);
   (A5_PA_CTRL, start_word algo); (A5_PA_CTRL, Z.lor (start_word algo) 0x0001)].

Definition a5_ok (s : A5State) : Prop := length (kc s) = 4%nat ∧ length (cnt s) = 2%nat.

Section stream.
  Context (osmo_a5 : Z → list Z → Z → option (list Z * list Z)) (e : Env) (Hon : a5_on e = true).

(** The state the ROM program leaves just before the start bit. *)
Definition programmed (s : A5State) (k : list Z) (fn algo : Z) : A5State :=
  s <| etat := 0 |> <| kc := kc_words k |> <| cnt := count_words fn |> <| ctrl := start_word algo |>.

Lemma rom_program_runs s k fn algo :
  a5_ok s → algo = 1 ∨ algo = 2 →
  port_writes osmo_a5 e s (rom_program k fn algo) =
  Some (a5_calculer osmo_a5 e (programmed s k fn algo <| ctrl := Z.lor (start_word algo) 0x0001 |>) algo).
Proof using Hon.
  intros [Hk Hc] Ha. destruct s as [ct kk cc et fx n1 n2 n3 df da irf]. cbn in Hk, Hc.
  destruct kk as [|a0 [|a1 [|a2 [|a3 [|]]]]]; try done. destruct cc as [|c0 [|c1 [|]]]; try done.
  unfold port_writes, rom_program, calypso_a5_portw, calypso_a5_on. rewrite Hon.
  destruct Ha as [-> | ->]; cbn -[a5_calculer kc_words count_words Z.land Z.lor Z.shiftl Z.shiftr rd]; done.
Qed.

Lemma a5_calculer_spec s k fn algo dl ul dl2 ul2 :
  kc s = kc_words k → cnt s = count_words fn → length k = 8%nat → Forall (λ b, 0 ≤ b < 256) k → 0 ≤ fn < 2715648 →
  let fn' := (a5_recaler e fn).1 in
  osmo_a5 algo k fn' = Some (dl, ul) → osmo_a5 algo k (a5_fn_dl e fn').1 = Some (dl2, ul2) →
  let s' := a5_calculer osmo_a5 e s algo in
  flux s' = empaqueter dl2 ++ empaqueter ul ∧ etat s' = Z.lor (etat s) 1 ∧
  ifr s' = Z.lor (ifr s) (Z.shiftl 1 A5_IT_BIT) ∧ dernier_fn s' = fn'.
Proof.
  intros Hk Hc Hl Hb Hfn fn' E1 E2 s'. unfold s', a5_calculer.
  rewrite Hk, Hc, a5_key_words, count_fn_words by done. fold fn'.
  destruct (a5_recaler e fn) as [f mv] eqn:Er. cbn in fn'. subst fn'.
  destruct (a5_fn_dl e f) as [fd us]. cbn [fst] in *. rewrite E1.
  destruct mv, us, (Z.eqb_spec fd f) as [->|Hne]; cbn [negb]; simplify_eq; rewrite ?E2; by simplify_eq.
Qed.

Lemma read_flux s i : 0 ≤ i < 16 → calypso_a5_portr e s (A5_PA_FLUX0 + i) = Some (rd (flux s) i).
Proof using Hon.
  intros Hi. unfold calypso_a5_portr, calypso_a5_on. rewrite Hon. cbn [negb orb].
  unfold A5_PA_FLUX0, A5_PA_CTRL, A5_N_FLUX.
  destruct (Z.ltb_spec (10249 + i) 10240), (Z.leb_spec (10249 + 16) (10249 + i)), (Z.leb_spec 10249 (10249 + i)); try lia.
  cbn [orb]. do 2 f_equal. lia.
Qed.

End stream.

(** C35: Programmed as the DSP ROM does it, with Kc in the reversed words of the
    firmware and COUNT as T3, T2 and T1, the coprocessor calls the cipher with
    the eight key bytes in order and exactly the frame number that was split
    (realigned on a SACCH frame, and for the downlink replaced by the frame the
    BSP plays when it is at most three away); it reports completion and raises
    its interrupt, and the 114 downlink and 114 uplink bits are read from the
    stream ports, most significant bit first. *)
Theorem a5_stream osmo_a5 e s k fn algo dl ul dl2 ul2 :
  a5_on e = true → a5_ok s → length k = 8%nat → Forall (λ b, 0 ≤ b < 256) k →
  0 ≤ fn < 2715648 → algo = 1 ∨ algo = 2 →
  let fn' := (a5_recaler e fn).1 in
  osmo_a5 algo k fn' = Some (dl, ul) → osmo_a5 algo k (a5_fn_dl e fn').1 = Some (dl2, ul2) →
  ∃ s', port_writes osmo_a5 e s (rom_program k fn algo) = Some s' ∧
    calypso_a5_portr e s' A5_PA_ETAT = Some 1 ∧ Z.testbit (ifr s') A5_IT_BIT = true ∧
    calypso_a5_dernier e s' = Some fn' ∧
    ∀ i, 0 ≤ i < 114 →
      (∃ w, calypso_a5_portr e s' (A5_PA_FLUX0 + i / 16) = Some w ∧
            Z.testbit w (15 - i mod 16) = negb (rd dl2 i =? 0)) ∧
      (∃ w, calypso_a5_portr e s' (A5_PA_FLUX0 + 8 + i / 16) = Some w ∧
            Z.testbit w (15 - i mod 16) = negb (rd ul i =? 0)).
Proof.
  intros Hon Hs Hl Hb Hfn Ha fn' E1 E2.
  set (s0 := programmed s k fn algo <| ctrl := Z.lor (start_word algo) 0x0001 |>).
  pose proof (a5_calculer_spec osmo_a5 e s0 k fn algo dl ul dl2 ul2 eq_refl eq_refl Hl Hb Hfn E1 E2) as (F1 & F2 & F3 & F4).
  exists (a5_calculer osmo_a5 e s0 algo). split; [by apply rom_program_runs|].
  assert (dernier_algo (a5_calculer osmo_a5 e s0 algo) = algo) as F5.
  { unfold a5_calculer. change (kc s0) with (kc_words k). change (cnt s0) with (count_words fn).
    rewrite a5_key_words, count_fn_words by done. subst fn'. destruct (a5_recaler e fn) as [f mv].
    cbn [fst] in *. destruct (a5_fn_dl e f) as [fd us]. rewrite E1. by destruct mv, us. }
  split; [unfold calypso_a5_portr, calypso_a5_on; rewrite Hon; cbn; by rewrite F2|].
  split; [rewrite F3, testbit_setbit by (unfold A5_IT_BIT; lia); by rewrite Z.eqb_refl, orb_true_r|].
  split.
  { unfold calypso_a5_dernier, calypso_a5_on. rewrite Hon, F5, F4. by destruct Ha as [-> | ->]. }
  intros i Hi. destruct (empaqueter_spec dl2 i Hi) as [Ld Hd]. destruct (empaqueter_spec ul i Hi) as [Lu Hu]. split.
  - exists (rd (empaqueter dl2) (i / 16)). split; [|done]. rewrite read_flux, F1 by (done || mlia).
    rewrite rd_app_l by (unfold zlen; rewrite Ld; mlia). done.
  - exists (rd (empaqueter ul) (i / 16)). split; [|done].
    rewrite <- Z.add_assoc, read_flux, F1 by (done || mlia).
    replace 8 with (zlen (empaqueter dl2)) by (unfold zlen; by rewrite Ld). rewrite rd_app_r by mlia. done.
Qed.

Definition sample_env : Env := mkEnv true true true 0 12 (Some 14).
Definition sample_cipher (algo : Z) (k : list Z) (fn : Z) : option (list Z * list Z) :=
  Some ((λ i, (fn + i) mod 2) <$> zseq 0 114, replicate 114 1).

Lemma a5_stream_witness :
  ∃ s', port_writes sample_cipher sample_env a5_init (rom_program [1; 2; 3; 4; 5; 6; 7; 8] 12 1) = Some s' ∧
    calypso_a5_portr sample_env s' A5_PA_ETAT = Some 1.
Proof.
  destruct (a5_stream sample_cipher sample_env a5_init [1; 2; 3; 4; 5; 6; 7; 8] 12 1
    ((λ i, (13 + i) mod 2) <$> zseq 0 114) (replicate 114 1) ((λ i, (14 + i) mod 2) <$> zseq 0 114) (replicate 114 1))
    as (s' & H1 & H2 & _).
  - done.
  - done.
  - done.
  - repeat (apply Forall_cons_2; [lia|]). apply Forall_nil_2.
  - lia.
  - by left.
  - done.
  - done.
  - exists s'. split; [exact H1|exact H2].
Defined.

End A5.
