(* ===== verification/Armio.v ===== *)
(** * ARMIO: GPIO and matrix keypad ([calypso_armio.c])

    The key matrix as the firmware scans it, the interrupt line, and the two
    sources of key events: the datagram socket and the graphical console. *)
From stdpp Require Import strings.
From S2P Require Import Prelude Cstr.

Module ARMIO.

Definition ARMIO_LATCH_IN : Z := 0x00.
Definition ARMIO_LATCH_OUT : Z := 0x02.
Definition ARMIO_IO_CNTL : Z := 0x04.
Definition ARMIO_KBR_LATCH : Z := 0x0a.
Definition ARMIO_KBC : Z := 0x0c.
Definition ARMIO_GPIO_INT : Z := 0x16.
Definition ARMIO_GPIO_MASKIT : Z := 0x18.
Definition TAP_MS_DEFAULT : Z := 150.
Definition KEY_BITS : Z := 25.

Record CalypsoArmioState := mkArmio {
  irq : bool;
  latch_out : Z; io_cntl : Z; kbc : Z; gpio_int : Z; gpio_maskit : Z;
  keys : Z;
  tap_mask : Z;
  tap_timer : option Z
}.

#[export] Instance armio_eta : Settable CalypsoArmioState := λ s,
  mkArmio (irq s) (latch_out s) (io_cntl s) (kbc s) (gpio_int s) (gpio_maskit s) (keys s) (tap_mask s) (tap_timer s).

Definition key_names : list (list Z * Z) :=
  [(str "ok", 0); (str "up", 1); (str "down", 2); (str "left", 3); (str "right", 4);
   (str "3", 5); (str "6", 6); (str "9", 7); (str "hash", 8); (str "#", 8); (str "rsb", 9);
   (str "2", 10); (str "5", 11); (str "8", 12); (str "0", 13); (str "menu", 14);
   (str "1", 15); (str "4", 16); (str "7", 17); (str "star", 18); (str "*", 18);
   (str "lsb", 19); (str "power", 24)].

Fixpoint named_key (l : list (list Z * Z)) (name : list Z) : option Z :=
  match l with
  | [] => None
  | (n, bit) :: l => if streq n name then Some bit else named_key l name
  end.

Definition armio_key_bit (name : list Z) : Z :=
  match named_key key_names name with
  | Some bit => bit
  | None =>
      if (rd name 0 =? 107) && (48 <=? rd name 1) && (rd name 1 <=? 57) then
        let b := atoi (drop 1 name) in
        if (0 <=? b) && (b <? KEY_BITS) then b else -1
      else -1
  end.

Definition armio_update_irq (s : CalypsoArmioState) : CalypsoArmioState :=
  let active := negb (keys s =? 0) && (Z.land (kbc s) 0x1f =? 0) in
  let level := active && negb (has (gpio_maskit s) 0x1) in
  s <| gpio_int := if active then 0x1 else 0 |> <| irq := level |>.

Definition armio_set_key (s : CalypsoArmioState) (bit : Z) (down : bool) : CalypsoArmioState :=
  let m := Z.shiftl 1 bit in
  let s := if down then s <| keys := Z.lor (keys s) m |>
           else s <| keys := clr (keys s) m |> <| tap_mask := clr (tap_mask s) m |> in
  armio_update_irq s.

(** Callback of [tap_timer]. *)
Definition expire_step (m : Z) (s : CalypsoArmioState) (b : Z) : CalypsoArmioState :=
  if has m (Z.shiftl 1 b) then armio_set_key s b false else s.

Definition armio_tap_expire (s : CalypsoArmioState) : CalypsoArmioState :=
  let m := tap_mask s in
  let s := s <| tap_mask := 0 |> in
  foldl (expire_step m) s (zseq 0 (Z.to_nat KEY_BITS)).

Definition armio_command (s : CalypsoArmioState) (now : Z) (line : list Z) : CalypsoArmioState :=
  match tokens [] line with
  | cmd :: name :: args =>
      let bit := armio_key_bit name in
      if bit <? 0 then s
      else if streq cmd (str "press") || streq cmd (str "down") then armio_set_key s bit true
      else if streq cmd (str "release") || streq cmd (str "up") then armio_set_key s bit false
      else if streq cmd (str "tap") then
        let ms := match args with arg :: _ => atoi arg | [] => TAP_MS_DEFAULT end in
        let ms := if ms <=? 0 then TAP_MS_DEFAULT else ms in
        let s := armio_set_key s bit true in
        s <| tap_mask := Z.lor (tap_mask s) (Z.shiftl 1 bit) |> <| tap_timer := Some (now + ms) |>
      else s
  | _ => s
  end.

(** The lines of a datagram: the bytes up to the first NUL, cut at newlines. *)
Fixpoint lines (cur l : list Z) : list (list Z) :=
  match l with
  | [] => [rev cur]
  | c :: l => if c =? 10 then rev cur :: lines [] l else lines (c :: cur) l
  end.

(** One datagram of at most 255 bytes received on the socket. *)
Definition armio_sock_read (s : CalypsoArmioState) (now : Z) (buf : list Z) : CalypsoArmioState :=
  foldl (λ s line, match line with [] => s | _ => armio_command s now line end) s (lines [] (cstr (take 255 buf))).

(** The keys of the console that the keypad knows. *)
Inductive QKeyCode :=
  | Q_0 | Q_KP_0 | Q_1 | Q_KP_1 | Q_2 | Q_KP_2 | Q_3 | Q_KP_3 | Q_4 | Q_KP_4
  | Q_5 | Q_KP_5 | Q_6 | Q_KP_6 | Q_7 | Q_KP_7 | Q_8 | Q_KP_8 | Q_9 | Q_KP_9
  | Q_KP_MULTIPLY | Q_S | Q_H | Q_UP | Q_DOWN | Q_LEFT | Q_RIGHT | Q_RET
  | Q_KP_ENTER | Q_O | Q_ESC | Q_P | Q_F1 | Q_F2 | Q_OTHER.

Definition armio_qcode_bit (q : QKeyCode) : Z :=
  match q with
  | Q_0 | Q_KP_0 => 13
  | Q_1 | Q_KP_1 => 15
  | Q_2 | Q_KP_2 => 10
  | Q_3 | Q_KP_3 => 5
  | Q_4 | Q_KP_4 => 16
  | Q_5 | Q_KP_5 => 11
  | Q_6 | Q_KP_6 => 6
  | Q_7 | Q_KP_7 => 17
  | Q_8 | Q_KP_8 => 12
  | Q_9 | Q_KP_9 => 7
  | Q_KP_MULTIPLY | Q_S => 18
  | Q_H => 8
  | Q_UP => 1
  | Q_DOWN => 2
  | Q_LEFT => 3
  | Q_RIGHT => 4
  | Q_RET => 14
  | Q_KP_ENTER | Q_O => 0
  | Q_ESC | Q_P => 24
  | Q_F1 => 19
  | Q_F2 => 9
  | Q_OTHER => -1
  end.

Definition armio_input_event (s : CalypsoArmioState) (q : QKeyCode) (down : bool) : CalypsoArmioState :=
  let bit := armio_qcode_bit q in
  if 0 <=? bit then armio_set_key s bit down else s.

(** ** Registers *)
Definition rows_step (s : CalypsoArmioState) (rows col : Z) : Z :=
  if negb (has (kbc s) (Z.shiftl 1 col)) then Z.lor rows (Z.land (Z.shiftr (keys s) (col * 5)) 0x1f) else rows.

Definition kbr_latch (s : CalypsoArmioState) : Z :=
  Z.land (Z.lnot (foldl (rows_step s) 0 (zseq 0 5))) 0x1f.

Definition armio_read (s : CalypsoArmioState) (offset : Z) : Z :=
  if offset =? ARMIO_LATCH_IN then 0
  else if offset =? ARMIO_LATCH_OUT then latch_out s
  else if offset =? ARMIO_IO_CNTL then io_cntl s
  else if offset =? ARMIO_KBR_LATCH then kbr_latch s
  else if offset =? ARMIO_KBC then kbc s
  else if offset =? ARMIO_GPIO_INT then gpio_int s
  else if offset =? ARMIO_GPIO_MASKIT then gpio_maskit s
  else 0.

Definition armio_write (s : CalypsoArmioState) (offset value : Z) : CalypsoArmioState :=
  if offset =? ARMIO_LATCH_OUT then s <| latch_out := u16 value |>
  else if offset =? ARMIO_IO_CNTL then s <| io_cntl := u16 value |>
  else if offset =? ARMIO_KBC then armio_update_irq (s <| kbc := Z.land value 0xff |>)
  else if offset =? ARMIO_GPIO_INT then s <| gpio_int := u16 value |>
  else if offset =? ARMIO_GPIO_MASKIT then armio_update_irq (s <| gpio_maskit := u16 value |>)
  else s.

(** After realisation. *)
Definition armio_init : CalypsoArmioState := mkArmio false 0 0 0 0 0 0 0 None.

Inductive op :=
  | Write (offset value : Z)
  | Datagram (now : Z) (buf : list Z)
  | Key (q : QKeyCode) (down : bool)
  | TapTimer (now : Z).

Definition step (s : CalypsoArmioState) (o : op) : CalypsoArmioState :=
  match o with
  | Write offset value => armio_write s offset value
  | Datagram now buf => armio_sock_read s now buf
  | Key q down => armio_input_event s q down
  | TapTimer now =>
      match tap_timer s with
      | Some d => if d <=? now then armio_tap_expire (s <| tap_timer := None |>) else s
      | None => s
      end
  end.

(** ** Invariant *)
Definition irq_level (s : CalypsoArmioState) : bool :=
  negb (keys s =? 0) && (Z.land (kbc s) 0x1f =? 0) && negb (has (gpio_maskit s) 0x1).

Record armio_ok (s : CalypsoArmioState) : Prop := {
  ok_keys : 0 ≤ keys s < 2 ^ 25;
  ok_tap : ∀ n, Z.testbit (tap_mask s) n = true → Z.testbit (keys s) n = true;
  ok_timer : tap_mask s ≠ 0 → tap_timer s ≠ None;
  ok_irq : irq s = irq_level s
}.

Lemma armio_irq_ok s :
  0 ≤ keys s < 2 ^ 25 → (∀ n, Z.testbit (tap_mask s) n = true → Z.testbit (keys s) n = true) →
  (tap_mask s ≠ 0 → tap_timer s ≠ None) → armio_ok (armio_update_irq s).
Proof. intros. by split. Qed.

Lemma armio_set_key_ok s bit down :
  0 ≤ bit < KEY_BITS → armio_ok s → armio_ok (armio_set_key s bit down).
Proof.
  unfold KEY_BITS. intros Hb [Hk Ht Htm _]. unfold armio_set_key. destruct down; apply armio_irq_ok; cbn.
  - apply lor_range; [lia|done|]. rewrite Z.shiftl_1_l. split; [apply Z.pow_nonneg; lia|apply Z.pow_lt_mono_r; lia].
  - intros n Hn. rewrite Z.lor_spec, Ht by done. done.
  - done.
  - by apply ldiff_range; [lia|].
  - intros n. unfold clr. rewrite !Z.ldiff_spec, !andb_true_iff. intros [H1 H2]. split; [by apply Ht|done].
  - intros Hne. apply Htm. intros E. apply Hne. rewrite E. apply Z.ldiff_0_l.
Qed.

Lemma named_key_range l name bit :
  Forall (λ x, 0 ≤ x.2 < KEY_BITS) l → named_key l name = Some bit → 0 ≤ bit < KEY_BITS.
Proof.
  induction 1 as [|[n b] l Hb _ IH]; cbn; [done|]. destruct (streq n name); [intros [= <-]; done|done].
Qed.

Lemma key_bit_range name : 0 ≤ armio_key_bit name → armio_key_bit name < KEY_BITS.
Proof.
  unfold armio_key_bit. destruct (named_key key_names name) as [bit|] eqn:E; intros H.
  - eapply (named_key_range key_names name bit); [|done].
    unfold key_names, KEY_BITS. repeat (apply Forall_cons_2; [cbn; lia|]). apply Forall_nil_2.
  - unfold KEY_BITS in *. case_ifs; lia.
Qed.

Lemma armio_command_ok s now line : armio_ok s → armio_ok (armio_command s now line).
Proof.
  intros Hs. unfold armio_command. destruct (tokens [] line) as [|cmd [|name args]]; try done.
  case_if; [done|]. bool_prop. pose proof (key_bit_range name ltac:(lia)) as Hr.
  case_if; [by apply armio_set_key_ok|]. case_if; [by apply armio_set_key_ok|]. case_if; [|done].
  pose proof (armio_set_key_ok s (armio_key_bit name) true ltac:(lia) Hs) as [Hk Ht Htm Hi].
  split; [done| |done|done]. cbn [tap_mask keys update_field]. intros n. rewrite Z.lor_spec, orb_true_iff.
  intros [Hn|Hn]; [by apply Ht|]. unfold armio_set_key. cbn. by rewrite Z.lor_spec, Hn, orb_true_r.
Qed.

Lemma armio_sock_read_ok s now buf : armio_ok s → armio_ok (armio_sock_read s now buf).
Proof.
  unfold armio_sock_read. revert s. induction (lines [] (cstr (take 255 buf))) as [|l ls IH]; intros s Hs; [done|].
  cbn [foldl]. apply IH. destruct l; [done|]. by apply armio_command_ok.
Qed.

Lemma qcode_range q : 0 ≤ armio_qcode_bit q → armio_qcode_bit q < KEY_BITS.
Proof. unfold KEY_BITS. destruct q; cbn; lia. Qed.

Lemma armio_expire_ok m l s :
  Forall (λ b, 0 ≤ b < KEY_BITS) l → armio_ok s → armio_ok (foldl (expire_step m) s l).
Proof.
  intros Hl. revert s. induction Hl as [|b l Hb _ IH]; intros s Hs; [done|]. cbn [foldl]. apply IH.
  unfold expire_step. case_if; [by apply armio_set_key_ok|done].
Qed.

Lemma armio_step_ok s o : armio_ok s → armio_ok (step s o).
Proof.
  intros Hs. destruct o as [offset value|now buf|q down|now]; cbn [step].
  - unfold armio_write. destruct Hs as [Hk Ht Htm Hi].
    repeat (case_if; [first [by split|by apply armio_irq_ok]|]); by split.
  - by apply armio_sock_read_ok.
  - unfold armio_input_event. case_if; [|done]. bool_prop. apply armio_set_key_ok; [|done].
    split; [done|by apply qcode_range].
  - destruct (tap_timer s); [|done]. case_if; [|done]. unfold armio_tap_expire. apply armio_expire_ok.
    + apply Stdlib.Lists.List.Forall_forall. intros b Hb. apply list_elem_of_In, elem_of_zseq in Hb.
      unfold KEY_BITS in *. lia.
    + destruct Hs as [Hk _ _ Hi]. split; cbn; try done. intros n. by rewrite Z.bits_0.
Qed.

(** ** Scanning *)
Definition column_select (c : Z) : Z := clr 0x1f (Z.shiftl 1 c).

Lemma kbr_column s c r :
  0 ≤ c < 5 → 0 ≤ r < 5 →
  Z.testbit (kbr_latch (armio_write s ARMIO_KBC (column_select c))) r = negb (Z.testbit (keys s) (5 * c + r)).
Proof.
  intros Hc Hr. set (s' := armio_write s ARMIO_KBC (column_select c)).
  assert (keys s' = keys s ∧ kbc s' = Z.land (column_select c) 0xff) as [Ek Eb] by done.
  assert (Z.testbit 0x1f r = true) as H31.
  { revert r Hr. intros r Hr. apply (range_check (Z.testbit 0x1f) 5); [lia|by vm_compute]. }
  assert (kbr_latch s' = Z.land (Z.lnot (Z.land (Z.shiftr (keys s) (c * 5)) 0x1f)) 0x1f) as ->.
  { unfold kbr_latch, rows_step. rewrite Ek, Eb.
    assert (c = 0 ∨ c = 1 ∨ c = 2 ∨ c = 3 ∨ c = 4) as Hcase by lia.
    repeat destruct Hcase as [->|Hcase]; [..|subst c]; cbn [foldl zseq seq fmap list_fmap];
      repeat match goal with |- context [has ?a ?b] => let v := eval vm_compute in (has a b) in change (has a b) with v end;
      cbn [negb]; by rewrite Z.lor_0_l. }
  rewrite Z.land_spec, Z.lnot_spec, Z.land_spec, Z.shiftr_spec, H31, !andb_true_r by lia. do 2 f_equal. lia.
Qed.

(** In every reachable state the keypad is as the firmware expects it: with
    one column driven, KBR reads low exactly the rows of the pressed keys of
    that column, so the column-by-column scan finds exactly the pressed keys; the
    interrupt line is high exactly while a key is pressed, all columns are
    driven and the source is not masked; and every key held by a tap is pressed
    and has the release timer running. *)
Theorem armio_keypad ops :
  let s := run step armio_init ops in
  (∀ c r, 0 ≤ c < 5 → 0 ≤ r < 5 →
    Z.testbit (armio_read (armio_write s ARMIO_KBC (column_select c)) ARMIO_KBR_LATCH) r =
    negb (Z.testbit (keys s) (5 * c + r))) ∧
  irq s = negb (keys s =? 0) && (Z.land (kbc s) 0x1f =? 0) && negb (has (gpio_maskit s) 0x1) ∧
  0 ≤ keys s < 2 ^ 25 ∧
  (∀ n, Z.testbit (tap_mask s) n = true → Z.testbit (keys s) n = true) ∧
  (tap_mask s ≠ 0 → tap_timer s ≠ None).
Proof.
  assert (armio_ok (run step armio_init ops)) as [Hk Ht Htm Hi].
  { apply (run_invariant step (λ _, True)); [intros; by apply armio_step_ok| |by apply Forall_true].
    split; cbn; [lia|intros n; by rewrite Z.bits_0|done|done]. }
  cbn zeta. split; [|done]. intros c r Hc Hr. by apply kbr_column.
Qed.

End ARMIO.
