(* ===== verification/Uwire.v ===== *)
(** * uWire controller and the C139 colour display ([calypso_uwire.c])

    The serial controller, the 96x64 display behind its chip select 0 with its
    drawing window, and the shared image.  The drawing on the QEMU console is
    not modelled. *)
From S2P Require Import Prelude.

Module UWIRE.

Definition UW_TDR : Z := 0x00.
Definition UW_CSR : Z := 0x02.
Definition UW_SR1 : Z := 0x04.
Definition UW_SR2 : Z := 0x06.
Definition UW_SR3 : Z := 0x08.
Definition CSR_START : Z := Z.shiftl 1 13.
Definition CSR_CSRB : Z := Z.shiftl 1 14.
Definition LCD_W : Z := 96.
Definition LCD_H : Z := 64.
Definition SHM_HDR : Z := 32.

(** The display: the image memory, the window, the cursor, the command waiting
    for its parameter and the high byte of the current pixel (-1 for none). *)
Record C139 := mkC139 {
  ram : list Z;
  xs : Z; xe : Z; ys : Z; ye : Z; cx : Z; cy : Z;
  cmd : Z;
  pix_hi : Z;
  dirty : bool; redraw : bool;
  seq : Z;
  image : list Z
}.

#[export] Instance c139_eta : Settable C139 := λ d,
  mkC139 (ram d) (xs d) (xe d) (ys d) (ye d) (cx d) (cy d) (cmd d) (pix_hi d) (dirty d) (redraw d) (seq d) (image d).

Record CalypsoUwireState := mkUwire {
  tdr : Z; csr : Z; sr1 : Z; sr2 : Z; sr3 : Z;
  lcd_enabled : bool;
  lcd : C139
}.

#[export] Instance uwire_eta : Settable CalypsoUwireState := λ s,
  mkUwire (tdr s) (csr s) (sr1 s) (sr2 s) (sr3 s) (lcd_enabled s) (lcd s).

Definition magic : list Z := [67; 49; 51; 57; 76; 67; 68; 0].

Definition header (n : Z) : list Z :=
  magic ++ [LCD_W; 0; LCD_H; 0; 2; 0; 0; 0;
            Z.land n 0xff; Z.land (Z.shiftr n 8) 0xff; Z.land (Z.shiftr n 16) 0xff; Z.land (Z.shiftr n 24) 0xff] ++
  replicate 12 0.

(** The shared image; [shm] is false without a file. *)
Definition c139_export (shm : bool) (d : C139) : C139 :=
  if negb shm then d
  else
    let d := d <| seq := u32 (seq d + 1) |> in
    d <| image := header (seq d) ++ mjoin ((λ p, [Z.land p 0xff; u8 (Z.shiftr p 8)]) <$> ram d) |>.

Definition c139_flush_cb (shm : bool) (d : C139) : C139 :=
  if dirty d then c139_export shm (d <| dirty := false |>) else d.

(** The parameter of a command. *)
Definition c139_parameter (d : C139) (v : Z) : C139 :=
  if cmd d =? 0x10 then d <| xs := v |>
  else if cmd d =? 0x11 then d <| ys := v |>
  else if cmd d =? 0x12 then d <| xe := v |>
  else if cmd d =? 0x13 then d <| ye := v |>
  else if cmd d =? 0x14 then d <| cx := v |>
  else if cmd d =? 0x15 then d <| cy := v |>
  else d.

(** The cursor moves within the window after each pixel. *)
Definition c139_advance (d : C139) : C139 :=
  let d := d <| cx := cx d + 1 |> in
  if xe d <? cx d then
    let d := d <| cx := xs d |> <| cy := cy d + 1 |> in
    if ye d <? cy d then d <| cy := ys d |> else d
  else d.

Definition c139_word (d : C139) (w : Z) : C139 :=
  let v := Z.land w 0xff in
  if negb (has w 0x100) then d <| cmd := v |> <| pix_hi := -1 |>
  else if 0 <=? cmd d then c139_parameter d v <| cmd := -1 |>
  else if pix_hi d <? 0 then d <| pix_hi := v |>
  else
    let d := if (cx d <? LCD_W) && (cy d <? LCD_H)
             then d <| ram := wr (ram d) (cy d * LCD_W + cx d) (u16 (Z.lor (Z.shiftl (pix_hi d) 8) v)) |>
                    <| redraw := true |> <| dirty := true |>
             else d in
    c139_advance (d <| pix_hi := -1 |>).

Definition uwire_read (s : CalypsoUwireState) (offset : Z) : Z :=
  if offset =? UW_TDR then 0
  else if offset =? UW_CSR then clr (csr s) (Z.lor CSR_START CSR_CSRB)
  else if offset =? UW_SR1 then sr1 s
  else if offset =? UW_SR2 then sr2 s
  else if offset =? UW_SR3 then sr3 s
  else 0.

(** The START bit sends the word.  More than 16 bits would shift by a negative
    count, which is undefined in C. *)
Definition start_transfer (s : CalypsoUwireState) (v : Z) : CalypsoUwireState :=
  let nbits := Z.land (Z.shiftr v 5) 0x1f in
  let cs := Z.land (Z.shiftr v 10) 3 in
  let nbits := if nbits =? 0 then 16 else nbits in
  let word := u16 (Z.land (Z.shiftr (tdr s) (16 - nbits)) (Z.shiftl 1 nbits - 1)) in
  let s := if (cs =? 0) && lcd_enabled s then s <| lcd := c139_word (lcd s) word |> else s in
  s <| csr := clr (csr s) CSR_START |>.

Definition uwire_write (s : CalypsoUwireState) (offset value : Z) : CalypsoUwireState :=
  let v := u16 value in
  if offset =? UW_TDR then s <| tdr := v |>
  else if offset =? UW_CSR then
    let s := s <| csr := v |> in
    if has v CSR_START then start_transfer s v else s
  else if offset =? UW_SR1 then s <| sr1 := v |>
  else if offset =? UW_SR2 then s <| sr2 := v |>
  else if offset =? UW_SR3 then s <| sr3 := v |>
  else s.

(** After realisation. *)
Definition uwire_realize (lcd_on shm : bool) : CalypsoUwireState :=
  let d := mkC139 (replicate (Z.to_nat (LCD_W * LCD_H)) 0) 0 (LCD_W - 1) 0 (LCD_H - 1) 0 0 (-1) (-1) false false 0 [] in
  mkUwire 0 0 0 0 0 lcd_on (if lcd_on then c139_export shm d else d).

(** ** Drawing a window *)

(** The firmware sends a 9-bit word left-aligned in TDR. *)
Definition send_word (s : CalypsoUwireState) (w : Z) : CalypsoUwireState :=
  uwire_write (uwire_write s UW_TDR (Z.shiftl w 7)) UW_CSR (Z.lor CSR_START (Z.shiftl 9 5)).

Definition send_words (s : CalypsoUwireState) (l : list Z) : CalypsoUwireState := foldl send_word s l.

Definition cmd_words (c v : Z) : list Z := [c; 0x100 + v].
Definition window_words (x0 y0 x1 y1 : Z) : list Z :=
  cmd_words 0x10 x0 ++ cmd_words 0x11 y0 ++ cmd_words 0x12 x1 ++ cmd_words 0x13 y1 ++
  cmd_words 0x14 x0 ++ cmd_words 0x15 y0.
Definition pixel_words (p : Z) : list Z := [0x100 + p / 256; 0x100 + p mod 256].

Lemma send_word_lcd s w :
  lcd_enabled s = true → 0 ≤ w < 512 →
  lcd (send_word s w) = c139_word (lcd s) w ∧ lcd_enabled (send_word s w) = true.
Proof.
  intros Hen Hw. unfold send_word, uwire_write. cbn [Z.eqb UW_TDR UW_CSR Pos.eqb].
  change (has (u16 (Z.lor CSR_START (Z.shiftl 9 5))) CSR_START) with true. cbn iota.
  unfold start_transfer.
  change (Z.land (Z.shiftr (u16 (Z.lor CSR_START (Z.shiftl 9 5))) 5) 31) with 9.
  change (Z.land (Z.shiftr (u16 (Z.lor CSR_START (Z.shiftl 9 5))) 10) 3) with 0.
  change (9 =? 0) with false. change (0 =? 0) with true. cbn [andb lcd_enabled tdr lcd csr update_field]. rewrite Hen.
  cbn [lcd lcd_enabled update_field]. split; [|done]. f_equal.
  rewrite Z.shiftl_mul_pow2 by lia. change (2 ^ 7) with 128. rewrite (u16_small (w * 128)) by lia. change (16 - 9) with 7.
  change (Z.shiftl 1 9 - 1) with (Z.ones 9). rewrite Z.shiftr_div_pow2, Z.land_ones by lia.
  change (2 ^ 7) with 128. change (2 ^ 9) with 512. rewrite u16_small by mlia. mlia.
Qed.

Lemma send_words_lcd l : ∀ s,
  lcd_enabled s = true → Forall (λ w, 0 ≤ w < 512) l →
  lcd (send_words s l) = foldl c139_word (lcd s) l ∧ lcd_enabled (send_words s l) = true.
Proof.
  induction l as [|w l IH]; intros s Hen Hl; [done|]. apply Forall_cons_1 in Hl as [Hw Hl].
  destruct (send_word_lcd s w Hen Hw) as [E1 E2]. destruct (IH (send_word s w) E2 Hl) as [F1 F2].
  change (send_words s (w :: l)) with (send_words (send_word s w) l). by rewrite F1, E1.
Qed.

(** Bit 8 tells a command from data. *)
Lemma flag_word v : 0 ≤ v < 256 → has v 0x100 = false ∧ has (0x100 + v) 0x100 = true.
Proof.
  intros Hv. change 0x100 with (Z.shiftl 1 8). rewrite !has_bit, !Z.testbit_eqb by lia.
  change (Z.shiftl 1 8) with 256. change (2 ^ 8) with 256. mlia.
Qed.

Lemma land_flag_byte v : 0 ≤ v < 256 → Z.land (0x100 + v) 0xff = v.
Proof. intros Hv. change 0xff with (Z.ones 8). rewrite Z.land_ones by lia. change (2 ^ 8) with 256. mlia. Qed.

Lemma land_byte_id v : 0 ≤ v < 256 → Z.land v 0xff = v.
Proof. intros Hv. change 0xff with (Z.ones 8). rewrite Z.land_ones by lia. change (2 ^ 8) with 256. mlia. Qed.

(** A command and its parameter. *)
Lemma cmd_words_lcd c v d :
  0 ≤ c < 256 → 0 ≤ v < 256 →
  foldl c139_word d (cmd_words c v) =
  c139_parameter (d <| cmd := c |> <| pix_hi := -1 |>) v <| cmd := -1 |>.
Proof.
  intros Hc Hv. cbn [foldl cmd_words]. unfold c139_word at 2.
  rewrite (proj1 (flag_word c ltac:(lia))). cbn [negb]. rewrite land_byte_id by lia.
  unfold c139_word. rewrite (proj2 (flag_word v ltac:(lia))). cbn [negb cmd update_field].
  rewrite (proj2 (Z.leb_le 0 c)) by lia. by rewrite land_flag_byte.
Qed.

Lemma cmd_words_effect c v d :
  0 ≤ c < 256 → 0 ≤ v < 256 →
  let d' := foldl c139_word d (cmd_words c v) in
  ram d' = ram d ∧ xs d' = (if c =? 0x10 then v else xs d) ∧ ys d' = (if c =? 0x11 then v else ys d) ∧
  xe d' = (if c =? 0x12 then v else xe d) ∧ ye d' = (if c =? 0x13 then v else ye d) ∧
  cx d' = (if c =? 0x14 then v else cx d) ∧ cy d' = (if c =? 0x15 then v else cy d) ∧
  cmd d' = -1 ∧ pix_hi d' = -1.
Proof.
  intros Hc Hv. cbv zeta. rewrite cmd_words_lcd by lia. unfold c139_parameter. cbn [cmd update_field].
  repeat (case_match; bool_prop; subst; try lia); cbn [ram xs ys xe ye cx cy cmd pix_hi update_field];
    repeat apply conj; reflexivity.
Qed.

(** [after_cmd c v d Hv d'] names [d'] the display after a command. *)
Ltac after_cmd c v d Hv d' :=
  let H := fresh "H" in
  pose proof (cmd_words_effect c v d ltac:(lia) Hv) as H; cbv zeta in H; revert H;
  generalize (foldl c139_word d (cmd_words c v)); intros d' H.

(** The window commands set the window, put the cursor on its corner and leave
    the image alone. *)
Lemma window_words_lcd x0 y0 x1 y1 d :
  0 ≤ x0 < 256 → 0 ≤ y0 < 256 → 0 ≤ x1 < 256 → 0 ≤ y1 < 256 →
  let d' := foldl c139_word d (window_words x0 y0 x1 y1) in
  ram d' = ram d ∧ xs d' = x0 ∧ ys d' = y0 ∧ xe d' = x1 ∧ ye d' = y1 ∧
  cx d' = x0 ∧ cy d' = y0 ∧ cmd d' = -1 ∧ pix_hi d' = -1.
Proof.
  intros Hx0 Hy0 Hx1 Hy1. cbv zeta. unfold window_words. rewrite !foldl_app.
  after_cmd 0x10 x0 d Hx0 d1. after_cmd 0x11 y0 d1 Hy0 d2. after_cmd 0x12 x1 d2 Hx1 d3.
  after_cmd 0x13 y1 d3 Hy1 d4. after_cmd 0x14 x0 d4 Hx0 d5. after_cmd 0x15 y0 d5 Hy0 d6.
  cbn [Z.eqb Pos.eqb] in *. destruct_and!. repeat split; congruence.
Qed.

(** One pixel. *)
Lemma pixel_words_lcd p d :
  0 ≤ p < 65536 → cmd d = -1 → pix_hi d = -1 → cx d < LCD_W → cy d < LCD_H →
  foldl c139_word d (pixel_words p) =
  c139_advance (d <| ram := wr (ram d) (cy d * LCD_W + cx d) p |>
                  <| redraw := true |> <| dirty := true |> <| pix_hi := -1 |>).
Proof.
  intros Hp Hc Hh Hx Hy. cbn [foldl pixel_words]. unfold c139_word at 2.
  rewrite (proj2 (flag_word (p / 256) ltac:(mlia))). cbn [negb]. rewrite Hc, Hh. cbn [Z.leb Z.ltb Z.compare].
  rewrite land_flag_byte by mlia. unfold c139_word. rewrite (proj2 (flag_word (p mod 256) ltac:(mlia))).
  cbn [negb cmd pix_hi cx cy ram update_field]. rewrite Hc. cbn [Z.leb Z.compare].
  rewrite (proj2 (Z.ltb_ge (p / 256) 0)) by mlia.
  rewrite (proj2 (Z.ltb_lt _ _) Hx), (proj2 (Z.ltb_lt _ _) Hy). cbn [andb].
  rewrite land_flag_byte by mlia. replace (u16 (Z.lor (Z.shiftl (p / 256) 8) (p mod 256))) with p; [done|].
  rewrite lor_shiftl_add by mlia. change (2 ^ 8) with 256. rewrite u16_small; mlia.
Qed.

(** *** The raster

    After [k] pixels of a [w]-wide, [h]-high window the cursor is on column
    [k mod w] and row [k / w], back on the corner after the last one. *)
Section raster.
Context (x0 y0 w h : Z) (Hx0 : 0 ≤ x0) (Hy0 : 0 ≤ y0) (Hw : 0 < w) (Hh : 0 < h)
        (Hxw : x0 + w ≤ LCD_W) (Hyh : y0 + h ≤ LCD_H).

Definition inside (x y : Z) : bool := (x0 <=? x) && (x <? x0 + w) && (y0 <=? y) && (y <? y0 + h).
Definition raster_index (x y : Z) : Z := (y - y0) * w + (x - x0).

Record drawn (a px : list Z) (k : Z) (d : C139) : Prop := {
  dr_win : xs d = x0 ∧ xe d = x0 + w - 1 ∧ ys d = y0 ∧ ye d = y0 + h - 1;
  dr_cx : cx d = x0 + k mod w;
  dr_cy : cy d = y0 + (k / w) mod h;
  dr_idle : cmd d = -1 ∧ pix_hi d = -1;
  dr_dirty : 0 < k → dirty d = true;
  dr_len : zlen (ram d) = LCD_W * LCD_H;
  dr_ram : ∀ x y, 0 ≤ x < LCD_W → 0 ≤ y < LCD_H →
    rd (ram d) (y * LCD_W + x) =
    if inside x y && (raster_index x y <? k) then rd px (raster_index x y) else rd a (y * LCD_W + x)
}.

Lemma row_range k : 0 ≤ k < w * h → 0 ≤ k / w < h ∧ (k / w) mod h = k / w.
Proof using Hw.
  intros Hk. assert (0 ≤ k / w < h) by (split; [apply Z.div_pos; lia|apply Z.div_lt_upper_bound; lia]).
  split; [done|]. by apply Z.mod_small.
Qed.

Lemma next_pixel k : 0 ≤ k < w * h →
  (k mod w + 1 < w ∧ (k + 1) mod w = k mod w + 1 ∧ (k + 1) / w = k / w) ∨
  (k mod w + 1 = w ∧ (k + 1) mod w = 0 ∧ (k + 1) / w = k / w + 1).
Proof using Hw.
  intros Hk. pose proof (Z.mod_pos_bound k w Hw) as Hr. pose proof (Z.div_mod k w ltac:(lia)) as E.
  destruct (Z.lt_ge_cases (k mod w + 1) w); [left|right].
  - repeat split; [lia|symmetry; apply Z.mod_unique with (k / w)|symmetry; apply Z.div_unique with (k mod w + 1)]; lia.
  - repeat split; [lia|symmetry; apply Z.mod_unique with (k / w + 1)|symmetry; apply Z.div_unique with 0]; lia.
Qed.

Lemma raster_index_inv x y k : inside x y = true → raster_index x y = k →
  k mod w = x - x0 ∧ k / w = y - y0.
Proof using.
  unfold inside, raster_index. intros Hi E. bool_prop.
  split; symmetry; [apply Z.mod_unique with (y - y0)|apply Z.div_unique with (x - x0)]; lia.
Qed.

(** Writing pixel [k] at the cursor extends what is drawn by one pixel. *)
Lemma drawn_ram a px k r : 0 ≤ k < w * h → zlen r = LCD_W * LCD_H →
  (∀ x y, 0 ≤ x < LCD_W → 0 ≤ y < LCD_H →
    rd r (y * LCD_W + x) =
    if inside x y && (raster_index x y <? k) then rd px (raster_index x y) else rd a (y * LCD_W + x)) →
  ∀ x y, 0 ≤ x < LCD_W → 0 ≤ y < LCD_H →
    rd (wr r ((y0 + k / w) * LCD_W + (x0 + k mod w)) (rd px k)) (y * LCD_W + x) =
    if inside x y && (raster_index x y <? k + 1) then rd px (raster_index x y) else rd a (y * LCD_W + x).
Proof using Hw Hx0 Hy0 Hxw Hyh.
  intros Hk Hlen Hr x y Hx Hy. destruct (row_range k Hk) as [Hq _].
  pose proof (Z.mod_pos_bound k w Hw) as Hm. unfold LCD_W, LCD_H in *. rewrite rd_wr by lia.
  destruct (Z.eqb_spec (y * 96 + x) ((y0 + k / w) * 96 + (x0 + k mod w))) as [E|E].
  - assert (y = y0 + k / w ∧ x = x0 + k mod w) as [-> ->] by lia.
    assert (raster_index (x0 + k mod w) (y0 + k / w) = k) as -> by
      (unfold raster_index; pose proof (Z.div_mod k w ltac:(lia)); lia).
    assert (inside (x0 + k mod w) (y0 + k / w) = true) as -> by (unfold inside; lia).
    by rewrite (proj2 (Z.ltb_lt k (k + 1))) by lia.
  - rewrite Hr by lia. destruct (inside x y) eqn:Hi; [|done]. cbn [andb].
    destruct (Z.eq_dec (raster_index x y) k) as [Ek|Ek].
    { destruct (raster_index_inv x y k Hi Ek). lia. }
    replace (raster_index x y <? k + 1) with (raster_index x y <? k) by lia. done.
Qed.

Lemma drawn_step a px k d :
  0 ≤ k < w * h → 0 ≤ rd px k < 65536 → drawn a px k d →
  drawn a px (k + 1) (foldl c139_word d (pixel_words (rd px k))).
Proof using Hw Hh Hx0 Hy0 Hxw Hyh.
  intros Hk Hp [(W1 & W2 & W3 & W4) Hcx Hcy [Hc Hph] _ Hlen Hram].
  destruct (row_range k Hk) as [Hq Eq]. rewrite Eq in Hcy. pose proof (Z.mod_pos_bound k w Hw) as Hm.
  rewrite pixel_words_lcd by (unfold LCD_W, LCD_H in *; lia).
  unfold c139_advance. cbn [cx cy xs xe ys ye update_field]. rewrite Hcx, Hcy, W1, W2, W3, W4.
  destruct (next_pixel k Hk) as [(N1 & N2 & N3)|(N1 & N2 & N3)].
  - rewrite (proj2 (Z.ltb_ge _ _)) by lia.
    split; cbn [ram xs xe ys ye cx cy cmd pix_hi dirty update_field]; rewrite ?zlen_wr, ?N2, ?N3, ?Eq; try lia; [done..|].
    by apply drawn_ram.
  - rewrite (proj2 (Z.ltb_lt (x0 + w - 1) _)) by lia. cbn [cy update_field].
    destruct (Z.ltb_spec (y0 + h - 1) (y0 + k / w + 1)) as [Hl|Hl].
    + assert (((k + 1) / w) mod h = 0) as Ez by (rewrite N3; replace (k / w + 1) with h by lia; apply Z.mod_same; lia).
      split; cbn [ram xs xe ys ye cx cy cmd pix_hi dirty update_field]; rewrite ?zlen_wr, ?N2, ?Ez; try lia; [done..|].
      by apply drawn_ram.
    + assert (((k + 1) / w) mod h = k / w + 1) as Ez by (rewrite N3; apply Z.mod_small; lia).
      split; cbn [ram xs xe ys ye cx cy cmd pix_hi dirty update_field]; rewrite ?zlen_wr, ?N2, ?Ez; try lia; [done..|].
      by apply drawn_ram.
Qed.

Lemma drawn_run a px : zlen px = w * h → Forall (λ p, 0 ≤ p < 65536) px → ∀ n d,
  (n ≤ length px)%nat → drawn a px 0 d →
  drawn a px (Z.of_nat n) (foldl c139_word d (mjoin (pixel_words <$> take n px))).
Proof using Hw Hh Hx0 Hy0 Hxw Hyh.
  intros Hl Hpx. induction n as [|n IH]; intros d Hn Hd; [done|].
  destruct (px !! n) as [p|] eqn:E; [|apply lookup_ge_None in E; lia].
  assert (rd px (Z.of_nat n) = p) as Ep by (unfold rd; by rewrite Nat2Z.id, E).
  rewrite (take_S_r _ _ _ E), fmap_app. rewrite join_app. rewrite foldl_app.
  cbn [fmap list_fmap mjoin list_join app]. rewrite app_nil_r, Nat2Z.inj_succ, <-Z.add_1_r, <-Ep.
  apply drawn_step; [unfold zlen in Hl; lia|rewrite Ep; by apply (Forall_lookup_1 _ _ _ _ Hpx E)|].
  apply IH; [lia|done].
Qed.

End raster.

(** The two bytes of a pixel in the shared image. *)
Lemma image_bytes l : ∀ i, 0 ≤ i < zlen l →
  let b := mjoin ((λ p, [Z.land p 0xff; u8 (Z.shiftr p 8)]) <$> l) in
  rd b (2 * i) = Z.land (rd l i) 0xff ∧ rd b (2 * i + 1) = u8 (Z.shiftr (rd l i) 8).
Proof.
  induction l as [|p l IH]; intros i Hi; [unfold zlen in Hi; cbn in Hi; lia|]. cbv zeta. cbn [fmap list_fmap mjoin list_join app].
  destruct (Z.eq_dec i 0) as [->|]; [done|]. specialize (IH (i - 1)). cbv zeta in IH. unfold zlen in *. cbn [length] in Hi.
  unfold rd in *. replace (Z.to_nat (2 * i)) with (S (S (Z.to_nat (2 * (i - 1))))) by lia.
  replace (Z.to_nat (2 * i + 1)) with (S (S (Z.to_nat (2 * (i - 1) + 1)))) by lia.
  replace (Z.to_nat i) with (S (Z.to_nat (i - 1))) by lia. cbn [lookup list_lookup]. apply IH. lia.
Qed.

Lemma export_bytes d i : dirty d = true → 0 ≤ i < zlen (ram d) →
  let m := image (c139_flush_cb true d) in
  rd m (SHM_HDR + 2 * i) = Z.land (rd (ram d) i) 0xff ∧
  rd m (SHM_HDR + 2 * i + 1) = u8 (Z.shiftr (rd (ram d) i) 8).
Proof.
  intros Hd Hi. cbv zeta. unfold c139_flush_cb, c139_export. rewrite Hd. cbn [negb image ram seq update_field].
  destruct (image_bytes (ram d) i Hi) as [A B]. rewrite <-A, <-B.
  assert (∀ n (b : list Z) j, 0 ≤ j → rd (header n ++ b) (SHM_HDR + j) = rd b j) as H.
  { intros n b j Hj. unfold rd, SHM_HDR. rewrite lookup_app_r by (cbn; lia). cbn [length header]. do 2 f_equal. cbn. lia. }
  split; [|rewrite <-Z.add_assoc]; apply H; lia.
Qed.

Lemma window_pixels_words x0 y0 x1 y1 px :
  0 ≤ x0 < 256 → 0 ≤ y0 < 256 → 0 ≤ x1 < 256 → 0 ≤ y1 < 256 → Forall (λ p, 0 ≤ p < 65536) px →
  Forall (λ v, 0 ≤ v < 512) (window_words x0 y0 x1 y1 ++ mjoin (pixel_words <$> px)).
Proof.
  intros ???? Hpx. apply Forall_app_2; [repeat (apply Forall_cons_2; [lia|]); apply Forall_nil_2|].
  induction Hpx as [|p px Hp Hpx IH]; [apply Forall_nil_2|].
  cbn [fmap list_fmap mjoin list_join]. apply Forall_app_2; [|done].
  repeat (apply Forall_cons_2; [mlia|]). apply Forall_nil_2.
Qed.

Lemma drawn_start x0 y0 w h px d :
  0 < w → 0 < h → zlen (ram d) = LCD_W * LCD_H → xs d = x0 → xe d = x0 + w - 1 → ys d = y0 → ye d = y0 + h - 1 →
  cx d = x0 → cy d = y0 → cmd d = -1 → pix_hi d = -1 → drawn x0 y0 w h (ram d) px 0 d.
Proof.
  intros. split; try done; try (rewrite ?Z.div_0_l, ?Z.mod_0_l by lia; lia).
  intros x y Hx Hy. destruct (inside x0 y0 w h x y) eqn:Ei; [|done]. cbn [andb].
  rewrite (proj2 (Z.ltb_ge _ _)); [done|]. unfold inside, raster_index in *. bool_prop. nia.
Qed.

Lemma raster_index_lt x0 y0 w h x y : inside x0 y0 w h x y = true → raster_index x0 y0 w x y < w * h.
Proof. unfold inside, raster_index. intros Hi. bool_prop. nia. Qed.

(** Drawing a window through the uWire registers.  The commands of a
    window inside the 96x64 screen, then its pixels row by row, high byte
    first, change exactly the pixels of the window, each one to its value; the
    cursor is back on the corner of the window and the next flush puts every
    pixel of the screen, low byte first, in the shared image. *)
Theorem uwire_raster (s : CalypsoUwireState) (x0 y0 w h : Z) (px : list Z) :
  lcd_enabled s = true → zlen (ram (lcd s)) = LCD_W * LCD_H →
  0 ≤ x0 → 0 ≤ y0 → 0 < w → 0 < h → x0 + w ≤ LCD_W → y0 + h ≤ LCD_H →
  zlen px = w * h → Forall (λ p, 0 ≤ p < 65536) px →
  let s' := send_words s (window_words x0 y0 (x0 + w - 1) (y0 + h - 1) ++ mjoin (pixel_words <$> px)) in
  cx (lcd s') = x0 ∧ cy (lcd s') = y0 ∧
  ∀ x y, 0 ≤ x < LCD_W → 0 ≤ y < LCD_H →
    let i := y * LCD_W + x in
    let p := if inside x0 y0 w h x y then rd px ((y - y0) * w + (x - x0)) else rd (ram (lcd s)) i in
    let m := image (c139_flush_cb true (lcd s')) in
    rd (ram (lcd s')) i = p ∧ rd m (SHM_HDR + 2 * i) = Z.land p 0xff ∧ rd m (SHM_HDR + 2 * i + 1) = u8 (Z.shiftr p 8).
Proof.
  intros Hen Hlen Hx0 Hy0 Hw Hh Hxw Hyh Hl Hpx s'. assert (LCD_W = 96 ∧ LCD_H = 64) as [EW EH] by done.
  destruct (send_words_lcd (window_words x0 y0 (x0 + w - 1) (y0 + h - 1) ++ mjoin (pixel_words <$> px)) s Hen)
    as [E _].
  { apply window_pixels_words; [lia..|done]. }
  fold s' in E. rewrite foldl_app in E.
  pose proof (window_words_lcd x0 y0 (x0 + w - 1) (y0 + h - 1) (lcd s) ltac:(lia) ltac:(lia) ltac:(lia) ltac:(lia)) as H.
  cbv zeta in H. revert H E. generalize (foldl c139_word (lcd s) (window_words x0 y0 (x0 + w - 1) (y0 + h - 1))).
  intros d (R & W1 & W2 & W3 & W4 & C1 & C2 & Cc & Cp) E.
  assert (drawn x0 y0 w h (ram (lcd s)) px 0 d) as D0 by (rewrite <-R; apply drawn_start; congruence).
  pose proof (drawn_run x0 y0 w h Hx0 Hy0 Hw Hh Hxw Hyh _ _ Hl Hpx (length px) d ltac:(lia) D0) as D.
  rewrite firstn_all, <-E in D. destruct D as [_ D1 D2 _ D3 D4 D5].
  unfold zlen in Hl. rewrite Hl in *. split; [rewrite D1, Z.mul_comm, Z.mod_mul; lia|].
  split; [rewrite D2, Z.mul_comm, Z.div_mul, Z.mod_same; lia|]. intros x y Hx Hy. cbv zeta.
  assert (rd (ram (lcd s')) (y * LCD_W + x) =
          if inside x0 y0 w h x y then rd px ((y - y0) * w + (x - x0)) else rd (ram (lcd s)) (y * LCD_W + x)) as P.
  { rewrite D5 by done. destruct (inside x0 y0 w h x y) eqn:Ei; [|done].
    by rewrite (proj2 (Z.ltb_lt _ _) (raster_index_lt x0 y0 w h x y Ei)). }
  destruct (export_bytes (lcd s') (y * LCD_W + x)) as [B1 B2]; [apply D3; lia|rewrite D4; lia|].
  by rewrite B1, B2, P.
Qed.

Lemma uwire_raster_witness :
  let s := uwire_realize true true in
  let s' := send_words s (window_words 10 20 (10 + 2 - 1) (20 + 3 - 1) ++
                          mjoin (pixel_words <$> [0x5555; 0xFFFF; 0; 0x1234; 0x0FF0; 0x8001])) in
  cx (lcd s') = 10 ∧ rd (ram (lcd s')) (21 * LCD_W + 11) = 0x1234.
Proof.
  intros s s'. assert (0 ≤ 11 < LCD_W ∧ 0 ≤ 21 < LCD_H) as [Hx Hy] by done.
  destruct (uwire_raster s 10 20 2 3 [0x5555; 0xFFFF; 0; 0x1234; 0x0FF0; 0x8001]) as (A & _ & B);
    [done|by vm_compute|lia|lia|lia|lia|done|done|done|repeat constructor; lia|].
  split; [exact A|]. etransitivity; [exact (proj1 (B 11 21 Hx Hy))|by vm_compute].
Defined.

End UWIRE.
