(* ===== verification/Spi.v ===== *)
(** * SPI controller and the analogue baseband registers ([hw/ssi/calypso_spi.c])

    The controller registers, the 16-bit frames of the TWL3025 and its two
    pages of registers; the contract is a register file per page, which every
    sequence of driver transfers reads and writes. *)
From S2P Require Import Prelude.

Module SPI.

Definition SPI_REG_SET1 : Z := 0x00.
Definition SPI_REG_SET2 : Z := 0x02.
Definition SPI_REG_CTRL : Z := 0x04.
Definition SPI_REG_STATUS : Z := 0x06.
Definition SPI_REG_TX_LSB : Z := 0x08.
Definition SPI_REG_TX_MSB : Z := 0x0A.
Definition SPI_REG_RX_LSB : Z := 0x0C.
Definition SPI_REG_RX_MSB : Z := 0x0E.
Definition SPI_CTRL_RDWR : Z := Z.shiftl 1 0.
Definition SPI_CTRL_WR : Z := Z.shiftl 1 1.
Definition SPI_STATUS_RE_ST : Z := Z.shiftl 1 0.
Definition SPI_STATUS_WE_ST : Z := Z.shiftl 1 1.
Definition ABB_PAGEREG : Z := 0x01.
Definition ABB_ONBSTS : Z := 0x01.
Definition ABB_VRPCDEV : Z := 0x01.
Definition ABB_VRPCSTS : Z := 0x02.
Definition ABB_ITSTATREG : Z := 0x1B.

(** [pulses] counts the pulses on the interrupt line. *)
Record CalypsoSPIState := mkSpi {
  set1 : Z; set2 : Z; ctrl : Z; status : Z;
  tx_data : Z; tx_lsb : Z;
  page : Z;
  rx_data : Z;
  abb_regs : list Z;
  pulses : Z
}.

#[export] Instance spi_eta : Settable CalypsoSPIState := λ s,
  mkSpi (set1 s) (set2 s) (ctrl s) (status s) (tx_data s) (tx_lsb s) (page s) (rx_data s) (abb_regs s) (pulses s).

Definition twl3025_spi_xfer (s : CalypsoSPIState) (tx : Z) : CalypsoSPIState * Z :=
  let rdf := Z.land tx 1 in
  let reg := Z.land (Z.shiftr tx 1) 0x1f in
  let data := Z.land (Z.shiftr tx 6) 0x3ff in
  let idx := Z.lor (Z.shiftl (page s) 5) reg in
  if negb (rdf =? 0) then (s, u16 (Z.shiftl (Z.land (rd (abb_regs s) idx) 0x3ff) 6))
  else if reg =? ABB_PAGEREG then (s <| page := if has data 0x2 then 1 else 0 |>, 0)
  else
    let s := s <| abb_regs := wr (abb_regs s) idx data |> in
    let s := if idx =? Z.lor (Z.shiftl 1 5) 23 then s <| abb_regs := wr (abb_regs s) idx (Z.lor data 0x04) |> else s in
    let s := if idx =? ABB_VRPCDEV then s <| abb_regs := wr (abb_regs s) ABB_VRPCSTS ABB_ONBSTS |> else s in
    (s, 0).

Definition calypso_spi_read (s : CalypsoSPIState) (offset : Z) : Z :=
  if offset =? SPI_REG_SET1 then set1 s
  else if offset =? SPI_REG_SET2 then set2 s
  else if offset =? SPI_REG_CTRL then ctrl s
  else if offset =? SPI_REG_STATUS then Z.lor SPI_STATUS_RE_ST SPI_STATUS_WE_ST
  else if offset =? SPI_REG_TX_LSB then tx_lsb s
  else if offset =? SPI_REG_TX_MSB then tx_data s
  else if offset =? SPI_REG_RX_LSB then rx_data s
  else if offset =? SPI_REG_RX_MSB then 0
  else 0.

Definition calypso_spi_write (s : CalypsoSPIState) (offset value : Z) : CalypsoSPIState :=
  if offset =? SPI_REG_SET1 then s <| set1 := Z.land value 0xFFFF |>
  else if offset =? SPI_REG_SET2 then s <| set2 := Z.land value 0xFFFF |>
  else if offset =? SPI_REG_CTRL then
    let s := s <| ctrl := Z.land value 0xFFFF |> in
    if has value (Z.lor SPI_CTRL_RDWR SPI_CTRL_WR) then
      let '(s, r) := twl3025_spi_xfer s (tx_data s) in
      s <| rx_data := r |> <| pulses := pulses s + 1 |>
    else s
  else if offset =? SPI_REG_STATUS then s
  else if offset =? SPI_REG_TX_LSB then s <| tx_lsb := Z.land value 0xFFFF |>
  else if offset =? SPI_REG_TX_MSB then s <| tx_data := Z.land value 0xFFFF |>
  else s.

Definition calypso_spi_reset (s : CalypsoSPIState) : CalypsoSPIState :=
  let s := s <| set1 := 0 |> <| set2 := 0 |> <| ctrl := 0 |>
             <| status := Z.lor SPI_STATUS_RE_ST SPI_STATUS_WE_ST |>
             <| tx_data := 0 |> <| tx_lsb := 0 |> <| rx_data := 0 |> <| page := 0 |>
             <| abb_regs := replicate 256 0 |> in
  let s := s <| abb_regs := wr (abb_regs s) ABB_VRPCSTS ABB_ONBSTS |> in
  s <| abb_regs := wr (abb_regs s) ABB_ITSTATREG 0x00 |>.

(** ** The contract: two pages of 32 ten-bit registers *)

(** A transfer of the driver. *)
Inductive xfer := WriteReg (reg data : Z) | ReadReg (reg : Z).

Definition xfer_ok (x : xfer) : Prop :=
  match x with
  | WriteReg r d => 0 ≤ r < 32 ∧ 0 ≤ d < 1024
  | ReadReg r => 0 ≤ r < 32
  end.

(** The frame of a transfer: data in bits 15..6, register in 5..1, read in 0. *)
Definition frame (x : xfer) : Z :=
  match x with
  | WriteReg r d => d * 64 + r * 2
  | ReadReg r => r * 2 + 1
  end.

(** The driver writes the frame, starts the transfer and reads the answer. *)
Definition driver (s : CalypsoSPIState) (x : xfer) : CalypsoSPIState * Z :=
  let s := calypso_spi_write s SPI_REG_TX_MSB (frame x) in
  let s := calypso_spi_write s SPI_REG_CTRL (match x with WriteReg _ _ => SPI_CTRL_WR | ReadReg _ => SPI_CTRL_RDWR end) in
  (s, Z.shiftr (calypso_spi_read s SPI_REG_RX_LSB) 6).

Fixpoint drive (s : CalypsoSPIState) (l : list xfer) : list Z :=
  match l with
  | [] => []
  | x :: l => let '(s, v) := driver s x in v :: drive s l
  end.

(** The register file: [regs p r] is register [r] of page [p]; register 1 of
    either page selects the page, and the SIM regulator register always reads
    back as running. *)
Record abb := mkAbb { apage : bool; regs : bool → Z → Z }.

Definition abb_reset : abb := mkAbb false (λ p r, if negb p && (r =? 2) then 1 else 0).

Definition abb_step (a : abb) (x : xfer) : abb * Z :=
  match x with
  | ReadReg r => (a, regs a (apage a) r)
  | WriteReg r d =>
      (if r =? 1 then mkAbb (Z.testbit d 1) (regs a)
       else
         let v := if apage a && (r =? 23) then Z.lor d 4 else d in
         mkAbb (apage a) (λ p q, if Bool.eqb p (apage a) && (q =? r) then v else regs a p q), 0)
  end.

Fixpoint abb_run (a : abb) (l : list xfer) : list Z :=
  match l with
  | [] => []
  | x :: l => let '(a, v) := abb_step a x in v :: abb_run a l
  end.

Definition b2z (b : bool) : Z := if b then 1 else 0.

Record refines (s : CalypsoSPIState) (a : abb) : Prop := {
  re_len : length (abb_regs s) = 256%nat;
  re_page : page s = b2z (apage a);
  re_regs : ∀ p r, 0 ≤ r < 32 → rd (abb_regs s) (32 * b2z p + r) = regs a p r ∧ 0 ≤ regs a p r < 1024
}.

Lemma frame_fields x : xfer_ok x →
  0 ≤ frame x < 65536 ∧
  Z.land (frame x) 1 = match x with WriteReg _ _ => 0 | ReadReg _ => 1 end ∧
  Z.land (Z.shiftr (frame x) 1) 0x1f = match x with WriteReg r _ | ReadReg r => r end ∧
  Z.land (Z.shiftr (frame x) 6) 0x3ff = match x with WriteReg _ d => d | ReadReg _ => 0 end.
Proof.
  intros Hx. assert (∀ y, Z.land y 1 = y mod 2) as -> by (intros y; by apply (Z.land_ones y 1)).
  assert (∀ y, Z.land y 0x1f = y mod 32) as -> by (intros y; by apply (Z.land_ones y 5)).
  assert (∀ y, Z.land y 0x3ff = y mod 1024) as -> by (intros y; by apply (Z.land_ones y 10)).
  rewrite !Z.shiftr_div_pow2 by lia. change (2 ^ 1) with 2. change (2 ^ 6) with 64.
  destruct x; cbn in *; mlia.
Qed.

Lemma abb_idx p r : 0 ≤ r < 32 → Z.lor (Z.shiftl (b2z p) 5) r = 32 * b2z p + r.
Proof. intros. rewrite lor_shiftl_add by lia. change (2 ^ 5) with 32. lia. Qed.

(** The transfer a driver access starts, on the state it starts it in. *)
Lemma driver_xfer s x : xfer_ok x →
  ∃ s0, page s0 = page s ∧ abb_regs s0 = abb_regs s ∧
    let '(s1, v) := twl3025_spi_xfer s0 (frame x) in
    page (driver s x).1 = page s1 ∧ abb_regs (driver s x).1 = abb_regs s1 ∧ (driver s x).2 = Z.shiftr v 6.
Proof.
  intros Hx. destruct (frame_fields x Hx) as [Hf _].
  assert (Z.land (frame x) 0xFFFF = frame x) as E
    by (change 0xFFFF with (Z.ones 16); rewrite Z.land_ones by lia; change (2 ^ 16) with 65536; mlia).
  set (c := match x with WriteReg _ _ => SPI_CTRL_WR | ReadReg _ => SPI_CTRL_RDWR end).
  exists (s <| tx_data := frame x |> <| ctrl := Z.land c 0xFFFF |>). do 2 (split; [done|]).
  unfold driver. fold c. change (calypso_spi_write s SPI_REG_TX_MSB (frame x)) with (s <| tx_data := Z.land (frame x) 0xFFFF |>).
  rewrite E. unfold calypso_spi_write. cbn [Z.eqb SPI_REG_CTRL SPI_REG_SET1 SPI_REG_SET2 Pos.eqb].
  assert (has c (Z.lor SPI_CTRL_RDWR SPI_CTRL_WR) = true) as -> by (subst c; by destruct x).
  cbn [tx_data update_field]. destruct (twl3025_spi_xfer _ _) as [s1 v]. done.
Qed.

(** Each transfer does what the register file does. *)
Lemma driver_refines s a x : xfer_ok x → refines s a →
  refines (driver s x).1 (abb_step a x).1 ∧ (driver s x).2 = (abb_step a x).2.
Proof.
  intros Hx [Hl Hp Hr]. destruct (driver_xfer s x Hx) as (s0 & P0 & R0 & H). revert H.
  generalize (driver s x). intros [s' v']. cbn [fst snd].
  destruct (frame_fields x Hx) as (_ & E1 & E2 & E3). unfold twl3025_spi_xfer. rewrite E1, E2, E3, P0, R0, Hp.
  destruct x as [r d|r]; cbn in Hx; cbn [Z.eqb negb abb_step fst snd]; rewrite abb_idx by lia.
  - unfold ABB_PAGEREG, ABB_VRPCDEV. change (Z.lor (Z.shiftl 1 5) 23) with 55.
    destruct (Z.eqb_spec r 1) as [->|Hr1].
    { intros (A & B & C). cbn in A, B. split; [|done]. rewrite R0 in B.
      split; [by rewrite B|rewrite A|cbn; intros p q Hq; rewrite B; by apply Hr].
      cbn [apage]. change 2 with (Z.shiftl 1 1). rewrite has_bit by lia. by destruct (Z.testbit d 1). }
    rewrite (proj2 (Z.eqb_neq (32 * b2z (apage a) + r) 1)) by (destruct (apage a); cbn; lia).
    replace (32 * b2z (apage a) + r =? 55) with (apage a && (r =? 23)) by (destruct (apage a); cbn; lia).
    intros (A & B & C). split; [|done].
    assert (abb_regs s' =
            wr (abb_regs s) (32 * b2z (apage a) + r) (if apage a && (r =? 23) then Z.lor d 4 else d)) as B'.
    { rewrite B. destruct (apage a && (r =? 23)); cbn [abb_regs update_field]; [|done].
      unfold wr. apply list_insert_insert_eq. }
    split; [by rewrite B', length_wr|rewrite A; by destruct (apage a && (r =? 23)); cbn; rewrite P0|].
    intros p q Hq. cbn [regs]. rewrite B', rd_wr by (unfold zlen; rewrite ?Hl; destruct (apage a), p; cbn; lia).
    replace (32 * b2z p + q =? 32 * b2z (apage a) + r) with (Bool.eqb p (apage a) && (q =? r))
      by (destruct p, (apage a); cbn; lia).
    destruct (Bool.eqb p (apage a) && (q =? r)); [|by apply Hr]. split; [done|].
    case_match; [|lia]. apply (lor_range 10); lia.
  - intros (A & B & C). split; [split; [by rewrite B, R0|by rewrite A, P0|intros p q Hq; rewrite B, R0; by apply Hr]|].
    rewrite C. destruct (Hr (apage a) r ltac:(lia)) as [-> Hb]. change 0x3ff with (Z.ones 10).
    rewrite Z.land_ones by lia. change (2 ^ 10) with 1024. rewrite Z.mod_small by lia.
    rewrite Z.shiftl_mul_pow2 by lia. change (2 ^ 6) with 64. rewrite u16_small by lia.
    rewrite Z.shiftr_div_pow2 by lia. change (2 ^ 6) with 64. mlia.
Qed.

Lemma drive_refines l : ∀ s a, Forall xfer_ok l → refines s a → drive s l = abb_run a l.
Proof.
  induction l as [|x l IH]; intros s a Hl Hr; [done|]. apply Forall_cons_1 in Hl as [Hx Hl].
  pose proof (driver_refines s a x Hx Hr) as [H E]. cbn [drive abb_run].
  destruct (driver s x) as [s' v], (abb_step a x) as [a' v']. cbn [fst snd] in *. subst. f_equal. by apply IH.
Qed.

Lemma reset_refines s : refines (calypso_spi_reset s) abb_reset.
Proof.
  split; [done..|]. intros p r Hr. change (abb_regs _) with (wr (wr (replicate 256 0) 2 1) 0x1B 0).
  assert (∀ i, 0 ≤ i < 64 → rd (wr (wr (replicate 256 0) 2 1) 0x1B 0) i = if i =? 2 then 1 else 0) as H.
  { intros i Hi. rewrite !rd_wr by (unfold zlen; rewrite ?length_wr, ?length_replicate; lia).
    assert (rd (replicate 256 0) i = 0) as -> by (unfold rd; by rewrite lookup_replicate_2 by lia).
    case_ifs; lia. }
  rewrite H by (destruct p; cbn; lia). cbn [regs abb_reset]. destruct p; cbn; case_ifs; lia.
Qed.

(** The analogue baseband behind the SPI.  From a reset, any sequence of
    driver transfers (frame into TX_MSB, start, answer from RX_LSB) returns
    what two pages of 32 ten-bit registers return: a read gives the last value
    written to that register of the selected page, register 1 selects the page
    on both, the SIM regulator register reads back with its running bit set
    and the power-on status reads 1 until it is written. *)
Theorem spi_refines_register_file (s : CalypsoSPIState) (l : list xfer) :
  Forall xfer_ok l → drive (calypso_spi_reset s) l = abb_run abb_reset l.
Proof. intros Hl. apply drive_refines; [done|apply reset_refines]. Qed.

Lemma spi_refines_register_file_witness :
  drive (calypso_spi_reset (mkSpi 1 2 3 4 5 6 0 7 [] 0))
    [ReadReg 2; WriteReg 1 2; WriteReg 23 1; ReadReg 23; WriteReg 9 1023; WriteReg 1 1; ReadReg 9] = [1; 0; 0; 5; 0; 0; 0].
Proof.
  rewrite (spi_refines_register_file (mkSpi 1 2 3 4 5 6 0 7 [] 0)); [by vm_compute|].
  repeat (apply Forall_cons_2; [cbn; lia|]). apply Forall_nil_2.
Defined.

End SPI.
