(* ===== verification/I2c.v ===== *)
(** * I2C bus and controller ([hw/i2c/core.c], [calypso_i2c_ctrl.c])

    The bus with its slaves, as the QEMU core runs a transaction, and the
    controller that replays its FIFO on it.  A slave is known by the operations
    of its class; the controller is proved against that interface and
    [St7558.v] gives the display that implements it. *)
From S2P Require Import Prelude.

Module I2C.

Inductive i2c_event := I2C_START_RECV | I2C_START_SEND | I2C_START_SEND_ASYNC | I2C_FINISH | I2C_NACK.

Definition I2C_BROADCAST : Z := 0x00.

(** The operations of a slave class: [event], [send] and [recv] return the new
    state of the slave and the value the C function returns. *)
Class I2CSlaveClass (S : Type) := {
  event : S → i2c_event → S * Z;
  send : S → Z → S * Z;
  recv : S → S * Z
}.

(** What a master relies on: the slave acknowledges the start of a transfer. *)
Class AcknowledgesStart (S : Type) `{I2CSlaveClass S} := {
  ack_send : ∀ s, (event s I2C_START_SEND).2 = 0;
  ack_recv : ∀ s, (event s I2C_START_RECV).2 = 0
}.

(** The children of the bus with their addresses; [current_devs] holds their
    positions. *)
Record I2CBus (S : Type) := mkBus {
  children : list (Z * S);
  current_devs : list nat;
  broadcast : bool
}.
Arguments mkBus {S} _ _ _.
Arguments children {S} _.
Arguments current_devs {S} _.
Arguments broadcast {S} _.

#[export] Instance bus_eta {S} : Settable (I2CBus S) := λ b, mkBus (children b) (current_devs b) (broadcast b).

Section bus.
Context {S : Type} `{I2CSlaveClass S}.

(** The slave at position [k] runs an operation. *)
Definition on_slave (b : I2CBus S) (k : nat) (f : S → S * Z) : I2CBus S * Z :=
  match children b !! k with
  | Some (a, s) => (b <| children := <[k := (a, (f s).1)]> (children b) |>, (f s).2)
  | None => (b, 0)
  end.

Definition i2c_slave_match (k : nat) (a address : Z) (bc : bool) (cur : list nat) : bool * list nat :=
  if (a =? address) || bc then (true, k :: cur) else (false, cur).

(** The children from position [k] on. *)
Fixpoint scan_from (kids : list (Z * S)) (k : nat) (address : Z) (bc : bool) (cur : list nat) : bool * list nat :=
  match kids with
  | [] => (bc, cur)
  | (a, _) :: kids =>
      let '(m, cur) := i2c_slave_match k a address bc cur in
      if m && negb bc then (true, cur) else scan_from kids (k + 1)%nat address bc cur
  end.

Definition i2c_scan_bus (b : I2CBus S) (address : Z) (bc : bool) : bool * list nat :=
  scan_from (children b) 0 address bc (current_devs b).

Definition i2c_end_transfer (b : I2CBus S) : I2CBus S :=
  let b := foldl (λ b k, (on_slave b k (λ s, event s I2C_FINISH)).1) b (current_devs b) in
  b <| current_devs := [] |> <| broadcast := false |>.

(** The start event to each selected slave. *)
Fixpoint start_devs (b : I2CBus S) (nodes : list nat) (e : i2c_event) (bus_scanned : bool) : I2CBus S * Z :=
  match nodes with
  | [] => (b, 0)
  | k :: nodes =>
      let '(b, rv) := on_slave b k (λ s, event s e) in
      if negb (rv =? 0) && negb (broadcast b) then
        (if bus_scanned then i2c_end_transfer b else b, rv)
      else start_devs b nodes e bus_scanned
  end.

Definition i2c_do_start_transfer (b : I2CBus S) (address : Z) (e : i2c_event) : I2CBus S * Z :=
  let b := if address =? I2C_BROADCAST then b <| broadcast := true |> else b in
  let bus_scanned := match current_devs b with [] => true | _ => false end in
  let b := if bus_scanned then b <| current_devs := (i2c_scan_bus b address (broadcast b)).2 |> else b in
  match current_devs b with
  | [] => (b, 1)
  | nodes => start_devs b nodes e bus_scanned
  end.

Definition i2c_start_recv (b : I2CBus S) (address : Z) := i2c_do_start_transfer b address I2C_START_RECV.
Definition i2c_start_send (b : I2CBus S) (address : Z) := i2c_do_start_transfer b address I2C_START_SEND.

(** [ret || send(...)]: after a refusal the next slaves are not called. *)
Definition i2c_send (b : I2CBus S) (data : Z) : I2CBus S * Z :=
  let '(b, ret) := foldl (λ '(b, ret) k,
    if (ret : bool) then (b, true)
    else let '(b, r) := on_slave b k (λ s, send s data) in (b, negb (r =? 0))) (b, false) (current_devs b) in
  (b, if ret then -1 else 0).

Definition i2c_recv (b : I2CBus S) : I2CBus S * Z :=
  match current_devs b with
  | k :: _ => if broadcast b then (b, 0xff) else on_slave b k recv
  | [] => (b, 0xff)
  end.

End bus.

(** ** The controller *)

Definition REG_DEVICE : Z := 0.
Definition REG_ADDRESS : Z := 1.
Definition REG_DATA_WR : Z := 2.
Definition REG_DATA_RD : Z := 3.
Definition REG_CMD : Z := 4.
Definition REG_CONF_FIFO : Z := 5.
Definition REG_CONF_CLK : Z := 6.
Definition REG_CONF_CLK_REF : Z := 7.
Definition REG_STATUS_FIFO : Z := 8.
Definition REG_STATUS_ACTIVITY : Z := 9.

Definition CMD_SOFT_RESET : Z := Z.shiftl 1 0.
Definition CMD_EN_CLK : Z := Z.shiftl 1 1.
Definition CMD_START : Z := Z.shiftl 1 2.
Definition CMD_RW_READ : Z := Z.shiftl 1 3.
Definition STATUS_ERROR_DATA : Z := Z.shiftl 1 0.
Definition STATUS_ERROR_DEV : Z := Z.shiftl 1 1.
Definition STATUS_BUSY : Z := Z.shiftl 1 2.
Definition FIFO_LEN : Z := 16.

Record CalypsoI2CCtrlState (S : Type) := mkCtrl {
  bus : I2CBus S;
  device : Z; address : Z; cmd : Z; conf_fifo : Z; conf_clk : Z; conf_clk_ref : Z; status : Z;
  fifo : list Z;
  fifo_len : Z;
  rdata : Z
}.
Arguments mkCtrl {S}.
Arguments bus {S} _.
Arguments device {S} _.
Arguments address {S} _.
Arguments cmd {S} _.
Arguments conf_fifo {S} _.
Arguments conf_clk {S} _.
Arguments conf_clk_ref {S} _.
Arguments status {S} _.
Arguments fifo {S} _.
Arguments fifo_len {S} _.
Arguments rdata {S} _.

#[export] Instance ctrl_eta {S} : Settable (CalypsoI2CCtrlState S) := λ s,
  mkCtrl (bus s) (device s) (address s) (cmd s) (conf_fifo s) (conf_clk s) (conf_clk_ref s) (status s)
         (fifo s) (fifo_len s) (rdata s).

Section controller.
Context {S : Type} `{I2CSlaveClass S}.
Implicit Types s : CalypsoI2CCtrlState S.

Definition i2c_ctrl_transfer s : CalypsoI2CCtrlState S :=
  let s := s <| status := clr (status s) (Z.lor STATUS_ERROR_DATA STATUS_ERROR_DEV) |> in
  let s :=
    if has (cmd s) CMD_RW_READ then
      let '(b, rv) := i2c_start_recv (bus s) (device s) in
      let s := s <| bus := b |> in
      if rv <? 0 then s <| status := Z.lor (status s) STATUS_ERROR_DEV |>
      else
        let '(b, v) := i2c_recv (bus s) in
        s <| bus := i2c_end_transfer b |> <| rdata := u8 v |>
    else
      let '(b, rv) := i2c_start_send (bus s) (device s) in
      let s := s <| bus := b |> in
      if rv <? 0 then s <| status := Z.lor (status s) STATUS_ERROR_DEV |>
      else
        let b := (i2c_send (bus s) (address s)).1 in
        let b := foldl (λ b i, (i2c_send b (rd (fifo s) i)).1) b (zseq 0 (Z.to_nat (fifo_len s))) in
        s <| bus := i2c_end_transfer b |> in
  s <| fifo_len := 0 |>.

Definition i2c_ctrl_read s (offset : Z) : Z :=
  if offset =? REG_DEVICE then device s
  else if offset =? REG_ADDRESS then address s
  else if offset =? REG_DATA_RD then rdata s
  else if offset =? REG_CMD then cmd s
  else if offset =? REG_CONF_FIFO then conf_fifo s
  else if offset =? REG_CONF_CLK then conf_clk s
  else if offset =? REG_CONF_CLK_REF then conf_clk_ref s
  else if offset =? REG_STATUS_FIFO then fifo_len s
  else if offset =? REG_STATUS_ACTIVITY then clr (status s) STATUS_BUSY
  else 0.

Definition write_data s (v : Z) : CalypsoI2CCtrlState S :=
  if fifo_len s <? FIFO_LEN then s <| fifo := wr (fifo s) (fifo_len s) v |> <| fifo_len := fifo_len s + 1 |>
  else s <| status := Z.lor (status s) STATUS_ERROR_DATA |>.

Definition write_command s (v : Z) : CalypsoI2CCtrlState S :=
  let rst := has v CMD_SOFT_RESET in
  let s := if rst then s <| fifo_len := 0 |> <| status := 0 |> else s in
  let v := if rst then clr v CMD_SOFT_RESET else v in
  let s := s <| cmd := clr v CMD_START |> in
  if has v CMD_START then i2c_ctrl_transfer s else s.

Definition i2c_ctrl_write s (offset value : Z) : CalypsoI2CCtrlState S :=
  let v := u8 value in
  if offset =? REG_DEVICE then s <| device := Z.land v 0x7f |>
  else if offset =? REG_ADDRESS then s <| address := v |>
  else if offset =? REG_DATA_WR then write_data s v
  else if offset =? REG_CMD then write_command s v
  else if offset =? REG_CONF_FIFO then s <| conf_fifo := v |>
  else if offset =? REG_CONF_CLK then s <| conf_clk := v |>
  else if offset =? REG_CONF_CLK_REF then s <| conf_clk_ref := v |>
  else s.

(** After realisation, with the slaves the board puts on the bus. *)
Definition i2c_ctrl_realize (kids : list (Z * S)) : CalypsoI2CCtrlState S :=
  mkCtrl (mkBus kids [] false) 0 0 0 0 0 0 0 (replicate 16 0) 0 0.

(** ** One transaction, as a slave sees it *)

Definition transaction (sl : S) (bytes : list Z) : S :=
  (event (foldl (λ sl b, (send sl b).1) (event sl I2C_START_SEND).1 bytes) I2C_FINISH).1.

(** The firmware's access: device, internal address, FIFO, start. *)
Definition ctrl_writes s (l : list (Z * Z)) : CalypsoI2CCtrlState S :=
  foldl (λ s '(o, v), i2c_ctrl_write s o v) s l.

Definition send_packet (dev a : Z) (bytes : list Z) : list (Z * Z) :=
  (REG_DEVICE, dev) :: (REG_ADDRESS, a) :: ((λ v, (REG_DATA_WR, v)) <$> bytes) ++
  [(REG_CMD, Z.lor CMD_EN_CLK CMD_START)].

(** The first slave with the address. *)
Definition slave_at (kids : list (Z * S)) (dev : Z) (k : nat) (sl : S) : Prop :=
  kids !! k = Some (dev, sl) ∧ ∀ j a x, (j < k)%nat → kids !! j = Some (a, x) → a ≠ dev.

Definition idle s : Prop := current_devs (bus s) = [] ∧ broadcast (bus s) = false ∧ fifo_len s = 0 ∧ length (fifo s) = 16%nat.

(** *** The bus *)

Lemma scan_found kids : ∀ i dev k sl, slave_at kids dev k sl →
  scan_from kids i dev false [] = (true, [(i + k)%nat]).
Proof.
  induction kids as [|[a x] kids IH]; intros i dev k sl [Hk Hf]; [done|].
  destruct k as [|k]; cbn [scan_from]; unfold i2c_slave_match; rewrite orb_false_r.
  - injection Hk as -> ->. rewrite Z.eqb_refl. cbn. by rewrite Nat.add_0_r.
  - rewrite (proj2 (Z.eqb_neq a dev)) by (by apply (Hf 0%nat a x); [lia|]). cbn [andb].
    rewrite (IH _ dev k sl); [do 2 f_equal; lia|].
    split; [done|]. intros j b y Hj Hy. apply (Hf (Datatypes.S j) b y); [lia|done].
Qed.

Lemma scan_none kids : ∀ i dev, (∀ k a x, kids !! k = Some (a, x) → a ≠ dev) →
  scan_from (S := S) kids i dev false [] = (false, []).
Proof.
  induction kids as [|[a x] kids IH]; intros i dev Hn; [done|]. cbn [scan_from]. unfold i2c_slave_match.
  rewrite orb_false_r, (proj2 (Z.eqb_neq a dev)) by (by apply (Hn 0%nat a x)). cbn [andb].
  apply IH. intros k b y. apply (Hn (Datatypes.S k)).
Qed.

Lemma send_selected kids k a sl d : kids !! k = Some (a, sl) →
  (i2c_send (mkBus kids [k] false) d).1 = mkBus (<[k := (a, (send sl d).1)]> kids) [k] false.
Proof. intros Hk. unfold i2c_send, on_slave. cbn. by rewrite Hk. Qed.

Lemma sends_selected bytes : ∀ kids k a sl, kids !! k = Some (a, sl) →
  foldl (λ b d, (i2c_send b d).1) (mkBus kids [k] false) bytes =
  mkBus (<[k := (a, foldl (λ sl b, (send sl b).1) sl bytes)]> kids) [k] false.
Proof.
  induction bytes as [|d bytes IH]; intros kids k a sl Hk; cbn [foldl].
  - by rewrite list_insert_id.
  - rewrite (send_selected _ _ a sl _ Hk), (IH _ _ a (send sl d).1), list_insert_insert_eq; [done|].
    apply list_lookup_insert_eq. by eapply lookup_lt_Some.
Qed.

Lemma end_selected kids k a sl : kids !! k = Some (a, sl) →
  i2c_end_transfer (mkBus kids [k] false) = mkBus (<[k := (a, (event sl I2C_FINISH).1)]> kids) [] false.
Proof. intros Hk. unfold i2c_end_transfer, on_slave. cbn. by rewrite Hk. Qed.

Lemma slave_at_insert kids dev k sl sl' : slave_at kids dev k sl → slave_at (<[k := (dev, sl')]> kids) dev k sl'.
Proof.
  intros [Hk Hf]. split; [apply list_lookup_insert_eq; by eapply lookup_lt_Some|].
  intros j a y Hj. rewrite list_lookup_insert_ne by lia. by apply Hf.
Qed.

(** *** The FIFO *)

Lemma fifo_writes bytes : ∀ s, length (fifo s) = 16%nat → 0 ≤ fifo_len s → fifo_len s + zlen bytes ≤ 16 →
  Forall (λ v, 0 ≤ v < 256) bytes →
  let s' := ctrl_writes s ((λ v, (REG_DATA_WR, v)) <$> bytes) in
  s' = s <| fifo := fifo s' |> <| fifo_len := fifo_len s + zlen bytes |> ∧
  length (fifo s') = 16%nat ∧
  take (Z.to_nat (fifo_len s + zlen bytes)) (fifo s') = take (Z.to_nat (fifo_len s)) (fifo s) ++ bytes.
Proof.
  induction bytes as [|v bytes IH]; intros s Hl H0 Hn Hb; cbv zeta.
  { rewrite Z.add_0_r, app_nil_r. split; [by destruct s|done]. }
  apply Forall_cons_1 in Hb as [Hv Hb]. unfold zlen in Hn. cbn [length] in Hn.
  assert (i2c_ctrl_write s REG_DATA_WR v = s <| fifo := wr (fifo s) (fifo_len s) v |> <| fifo_len := fifo_len s + 1 |>) as E.
  { unfold i2c_ctrl_write, write_data. rewrite u8_small by lia.
    cbn [Z.eqb REG_DATA_WR REG_DEVICE REG_ADDRESS Pos.eqb]. by rewrite (proj2 (Z.ltb_lt _ _)) by (unfold FIFO_LEN; lia). }
  change (ctrl_writes s ((λ v0, (REG_DATA_WR, v0)) <$> v :: bytes))
    with (ctrl_writes (i2c_ctrl_write s REG_DATA_WR v) ((λ v0, (REG_DATA_WR, v0)) <$> bytes)).
  rewrite E. destruct (IH (s <| fifo := wr (fifo s) (fifo_len s) v |> <| fifo_len := fifo_len s + 1 |>))
    as (A & B & C); cbn [fifo fifo_len update_field]; [by rewrite length_wr|lia|unfold zlen; lia|done|].
  cbn [fifo fifo_len update_field] in *. revert A B C. generalize (ctrl_writes
    (s <| fifo := wr (fifo s) (fifo_len s) v |> <| fifo_len := fifo_len s + 1 |>) ((λ v0, (REG_DATA_WR, v0)) <$> bytes)).
  intros s' A B C. unfold zlen in *. cbn [length]. rewrite Nat2Z.inj_succ.
  replace (fifo_len s + Z.succ (Z.of_nat (length bytes))) with (fifo_len s + 1 + Z.of_nat (length bytes)) by lia.
  split; [exact A|]. split; [done|]. rewrite C. replace (Z.to_nat (fifo_len s + 1)) with (Datatypes.S (Z.to_nat (fifo_len s))) by lia.
  unfold wr. rewrite (take_S_r _ _ v) by (apply list_lookup_insert_eq; lia).
  rewrite take_insert_ge, <-app_assoc by lia. done.
Qed.

Lemma replay_fifo {A} (f : A → Z → A) l n : ∀ b, (n ≤ length l)%nat →
  foldl (λ b i, f b (rd l i)) b (zseq 0 n) = foldl f b (take n l).
Proof.
  induction n as [|n IH]; intros b Hn; [done|].
  destruct (l !! n) as [v|] eqn:E; [|apply lookup_ge_None in E; lia].
  rewrite (take_S_r _ _ _ E), foldl_app, <-IH by lia. rewrite zseq_S, foldl_app.
  cbn [foldl]. unfold rd at 2. by rewrite Z.add_0_l, Nat2Z.id, E.
Qed.

(** *** The transfer *)

Section transfer.
Context `{!AcknowledgesStart S}.

Lemma transfer_found s kids k sl :
  bus s = mkBus kids [] false → has (cmd s) CMD_RW_READ = false → device s ≠ 0 → (Z.to_nat (fifo_len s) ≤ length (fifo s))%nat →
  slave_at kids (device s) k sl →
  i2c_ctrl_transfer s =
  s <| status := clr (status s) (Z.lor STATUS_ERROR_DATA STATUS_ERROR_DEV) |>
    <| bus := mkBus (<[k := (device s, transaction sl (address s :: take (Z.to_nat (fifo_len s)) (fifo s)))]> kids) [] false |>
    <| fifo_len := 0 |>.
Proof.
  intros Hb Hc Hd Hn Hk. pose proof (proj1 Hk) as Hl. pose proof (lookup_lt_Some _ _ _ Hl) as Hlt.
  unfold i2c_ctrl_transfer. cbn [cmd bus device update_field]. rewrite Hc, Hb.
  unfold i2c_start_send, i2c_do_start_transfer. rewrite (proj2 (Z.eqb_neq (device s) I2C_BROADCAST)) by done.
  cbn [current_devs broadcast update_field]. unfold i2c_scan_bus. cbn [children current_devs].
  rewrite (scan_found kids 0 (device s) k sl Hk). cbn [snd current_devs start_devs update_field Nat.add].
  unfold on_slave. cbn [children update_field]. rewrite Hl. cbn [fst snd].
  rewrite ack_send. cbn [Z.eqb negb andb start_devs Z.ltb Z.compare bus address fifo fifo_len update_field].
  assert (∀ x : Z * S, <[k := x]> kids !! k = Some x) as Hi by (intros; by apply list_lookup_insert_eq).
  change (mkBus ?c ?d ?e <| children := ?f |>) with (mkBus f d e).
  change (mkBus kids [] false <| current_devs := [k] |> <| children := ?f |>) with (mkBus f [k] false).
  rewrite (send_selected _ _ (device s) _ _ (Hi _)), list_insert_insert_eq.
  rewrite (replay_fifo (λ b d, (i2c_send b d).1)) by done.
  rewrite (sends_selected _ _ _ (device s) _ (Hi _)), list_insert_insert_eq.
  rewrite (end_selected _ _ (device s) _ (Hi _)), list_insert_insert_eq. done.
Qed.

Lemma transfer_none s kids :
  bus s = mkBus kids [] false → has (cmd s) CMD_RW_READ = false → device s ≠ 0 →
  (∀ k a x, kids !! k = Some (a, x) → a ≠ device s) →
  i2c_ctrl_transfer s =
  s <| status := clr (status s) (Z.lor STATUS_ERROR_DATA STATUS_ERROR_DEV) |>
    <| bus := mkBus kids [] false |> <| fifo_len := 0 |>.
Proof.
  intros Hb Hc Hd Hk.
  unfold i2c_ctrl_transfer. cbn [cmd bus device update_field]. rewrite Hc, Hb.
  unfold i2c_start_send, i2c_do_start_transfer. rewrite (proj2 (Z.eqb_neq (device s) I2C_BROADCAST)) by done.
  cbn [current_devs broadcast update_field]. unfold i2c_scan_bus. cbn [children current_devs].
  rewrite (scan_none kids 0 (device s) Hk). cbn [snd current_devs update_field Z.ltb Z.compare bus].
  change (mkBus kids [] false <| current_devs := [] |>) with (mkBus (S := S) kids [] false).
  assert (∀ d, (i2c_send (mkBus (S := S) kids [] false) d).1 = mkBus kids [] false) as E by done.
  cbn [address fifo fifo_len update_field]. rewrite E.
  assert (∀ l b, b = mkBus kids [] false → foldl (λ b i, (i2c_send b (rd (fifo s) i)).1) b l = mkBus kids [] false) as F.
  { intros l. induction l as [|i l IH]; intros b ->; [done|]. cbn [foldl]. by apply IH. }
  by rewrite F.
Qed.

(** The registers of a packet, up to the command. *)
Lemma packet_ready s dev a bytes :
  idle s → 0 < dev < 128 → 0 ≤ a < 256 → Forall (λ v, 0 ≤ v < 256) bytes → zlen bytes ≤ 16 →
  ∃ s1, ctrl_writes s (send_packet dev a bytes) = i2c_ctrl_transfer s1 ∧
    bus s1 = mkBus (children (bus s)) [] false ∧ cmd s1 = CMD_EN_CLK ∧ device s1 = dev ∧ address s1 = a ∧
    fifo_len s1 = zlen bytes ∧ length (fifo s1) = 16%nat ∧ take (Z.to_nat (fifo_len s1)) (fifo s1) = bytes.
Proof.
  intros (I1 & I2 & I3 & I4) Hd Ha Hb Hn. unfold send_packet, ctrl_writes. cbn [foldl]. rewrite foldl_app.
  set (s0 := i2c_ctrl_write (i2c_ctrl_write s REG_DEVICE dev) REG_ADDRESS a).
  assert (s0 = s <| device := dev |> <| address := a |>) as E0.
  { subst s0. unfold i2c_ctrl_write. rewrite !u8_small by lia. cbn [Z.eqb REG_DEVICE REG_ADDRESS].
    assert (Z.land dev 127 = dev) as -> by (change 127 with (Z.ones 7); rewrite Z.land_ones, Z.mod_small; lia). done. }
  pose proof (fifo_writes bytes s0) as F. rewrite E0 in F. cbn [fifo fifo_len update_field] in F.
  rewrite I3 in F. destruct (F I4 ltac:(lia) ltac:(lia) Hb) as (A & B & C). clear F. rewrite E0. revert A B C.
  unfold ctrl_writes. generalize (foldl (λ s '(o, v), i2c_ctrl_write s o v) (s <| device := dev |> <| address := a |>)
    ((λ v, (REG_DATA_WR, v)) <$> bytes)). intros s2 A B C.
  exists (s2 <| cmd := CMD_EN_CLK |>). split; [done|]. cbn [bus cmd device address fifo_len fifo update_field].
  rewrite Z.add_0_l in *. assert (fifo_len s2 = zlen bytes) as L by (by rewrite A). rewrite L.
  split; [|repeat split; try done; by rewrite A].
  rewrite A. cbn [bus update_field]. destruct (bus s). cbn in *. by subst.
Qed.

Lemma packet_found s dev a bytes k sl :
  idle s → 0 < dev < 128 → 0 ≤ a < 256 → Forall (λ v, 0 ≤ v < 256) bytes → zlen bytes ≤ 16 →
  slave_at (children (bus s)) dev k sl →
  let s' := ctrl_writes s (send_packet dev a bytes) in
  children (bus s') = <[k := (dev, transaction sl (a :: bytes))]> (children (bus s)) ∧ idle s'.
Proof using All.
  intros Hi Hd Ha Hb Hn Hk. cbv zeta.
  destruct (packet_ready s dev a bytes Hi Hd Ha Hb Hn) as (s1 & -> & B1 & C1 & D1 & A1 & L1 & F1 & T1).
  rewrite (transfer_found s1 (children (bus s)) k sl) by (rewrite ?C1, ?D1, ?L1, ?F1; unfold zlen in *; first [done|lia]).
  by rewrite A1, T1, D1.
Qed.

Lemma clr_error_dev x : has (clr (clr x (Z.lor STATUS_ERROR_DATA STATUS_ERROR_DEV)) STATUS_BUSY) STATUS_ERROR_DEV = false.
Proof.
  unfold STATUS_ERROR_DEV at 2. rewrite has_bit by lia. unfold clr. rewrite !Z.ldiff_spec.
  change (Z.testbit (Z.lor STATUS_ERROR_DATA STATUS_ERROR_DEV) 1) with true. cbn. by rewrite andb_false_r.
Qed.

(** A packet on the I2C bus.  Writing the device, the internal address,
    up to sixteen bytes and START gives the first slave with that address
    exactly the start, the internal address, the bytes in order and the end of
    the transfer, and leaves every other slave alone; the bus and the FIFO are
    ready for the next packet.  When no slave has the address nothing on the
    bus changes, and the status register does not show the device error: the
    bus reports a missing slave with 1, the controller tests for a negative. *)
Theorem i2c_packet s (dev a : Z) (bytes : list Z) :
  idle s → 0 < dev < 128 → 0 ≤ a < 256 → Forall (λ v, 0 ≤ v < 256) bytes → zlen bytes ≤ 16 →
  let s' := ctrl_writes s (send_packet dev a bytes) in
  (∀ k sl, slave_at (children (bus s)) dev k sl →
     children (bus s') = <[k := (dev, transaction sl (a :: bytes))]> (children (bus s)) ∧ idle s') ∧
  ((∀ k b x, children (bus s) !! k = Some (b, x) → b ≠ dev) →
     children (bus s') = children (bus s) ∧ idle s' ∧
     has (i2c_ctrl_read s' REG_STATUS_ACTIVITY) STATUS_ERROR_DEV = false).
Proof using All.
  intros Hi Hd Ha Hb Hn s'. split; [intros k sl Hk; by apply packet_found|]. intros Hk.
  destruct (packet_ready s dev a bytes Hi Hd Ha Hb Hn) as (s1 & E & B1 & C1 & D1 & _ & _ & F1 & _).
  fold s' in E. rewrite E, (transfer_none s1 (children (bus s))) by (rewrite ?C1, ?D1; first [done|lia]).
  split; [done|]. split; [done|apply clr_error_dev].
Qed.

End transfer.

End controller.

End I2C.
