(* ===== verification/St7558.v ===== *)
(** * The C123 display ([calypso_st7558.c])

    The ST7558 as an I2C slave: control byte, commands, image memory and the
    shared image; the drawing on the QEMU console is not modelled. *)
From S2P Require Import Prelude I2c.

Module ST7558.
Import I2C.

Definition ST7558_COLS : Z := 102.
Definition ST7558_PAGES : Z := 9.
Definition LCD_W : Z := 96.
Definition LCD_H : Z := 65.
Definition SHM_HDR : Z := 32.

Inductive Mode := MODE_IDLE | MODE_CMD | MODE_DATA.

(** [shm] tells whether the shared image is open, [image] is its content. *)
Record St7558State := mkSt7558 {
  ram : list Z;
  page : Z; x : Z;
  mode : Mode;
  ext : bool; inverse : bool; off : bool;
  redraw : bool; dirty : bool;
  shm : bool;
  seq : Z;
  image : list Z
}.

#[export] Instance st7558_eta : Settable St7558State := λ s,
  mkSt7558 (ram s) (page s) (x s) (mode s) (ext s) (inverse s) (off s) (redraw s) (dirty s) (shm s) (seq s) (image s).

Definition magic : list Z := [67; 49; 50; 51; 76; 67; 68; 0].

Definition header (s : St7558State) : list Z :=
  let n := seq s in
  magic ++ [LCD_W; 0; LCD_H; 0; ST7558_PAGES; 0;
            Z.lor (if inverse s then 1 else 0) (if off s then 2 else 0); 0;
            Z.land n 0xff; Z.land (Z.shiftr n 8) 0xff; Z.land (Z.shiftr n 16) 0xff; Z.land (Z.shiftr n 24) 0xff] ++
  replicate 12 0.

(** Row [p] of the image: the first 96 columns of a page. *)
Definition page_row (r : list Z) (p : Z) : list Z := take (Z.to_nat LCD_W) (drop (Z.to_nat (p * ST7558_COLS)) r).

Definition st7558_export (s : St7558State) : St7558State :=
  if negb (shm s) then s
  else
    let s := s <| seq := u32 (seq s + 1) |> in
    s <| image := header s ++ mjoin (page_row (ram s) <$> zseq 0 (Z.to_nat ST7558_PAGES)) |>.

Definition st7558_recv (s : St7558State) : St7558State * Z := (s, 0xff).

(** A byte in command mode. *)
Definition st7558_command (s : St7558State) (data : Z) : St7558State :=
  if has data 0x80 then s <| x := Z.land data 0x7f |>
  else if Z.land data 0xf0 =? 0x40 then s <| page := Z.land data 0x0f |>
  else if Z.land data 0xfe =? 0x20 then s <| ext := has data 1 |>
  else if negb (ext s) then
    if data =? 0x0c then s <| inverse := false |> <| off := false |> <| redraw := true |> <| dirty := true |>
    else if data =? 0x0d then s <| inverse := true |> <| off := false |> <| redraw := true |> <| dirty := true |>
    else if data =? 0x08 then s <| off := true |> <| redraw := true |> <| dirty := true |>
    else s
  else s.

Definition st7558_data (s : St7558State) (data : Z) : St7558State :=
  let s := if (page s <? ST7558_PAGES) && (x s <? ST7558_COLS)
           then s <| ram := wr (ram s) (page s * ST7558_COLS + x s) data |> <| redraw := true |> <| dirty := true |>
           else s in
  s <| x := x s + 1 |>.

Definition st7558_send (s : St7558State) (data : Z) : St7558State * Z :=
  (match mode s with
   | MODE_IDLE => s <| mode := if has data 0x40 then MODE_DATA else MODE_CMD |>
   | MODE_DATA => st7558_data s data
   | MODE_CMD => st7558_command s data
   end, 0).

Definition st7558_event (s : St7558State) (e : i2c_event) : St7558State * Z :=
  match e with
  | I2C_START_SEND | I2C_START_RECV => (s <| mode := MODE_IDLE |>, 0)
  | I2C_FINISH =>
      let s := s <| mode := MODE_IDLE |> in
      (if dirty s then st7558_export (s <| dirty := false |>) else s, 0)
  | I2C_NACK => (s, 0)
  | I2C_START_SEND_ASYNC => (s, -1)
  end.

#[export] Instance st7558_class : I2CSlaveClass St7558State := {
  event := st7558_event;
  send := st7558_send;
  recv := st7558_recv
}.

#[export] Instance st7558_acknowledges : AcknowledgesStart St7558State.
Proof. split; intros s; reflexivity. Qed.

(** After realisation. *)
Definition st7558_realize (sh : bool) : St7558State :=
  st7558_export (mkSt7558 (replicate (Z.to_nat (ST7558_PAGES * ST7558_COLS)) 0) 0 0 MODE_IDLE false false false false false sh 0 []).

(** ** What a transaction does to the display *)

Definition sends (s : St7558State) (l : list Z) : St7558State := foldl (λ s b, (send s b).1) s l.

(** Data bytes fill consecutive columns of the page. *)
Lemma data_bytes l : ∀ s, mode s = MODE_DATA → 0 ≤ page s < 9 → 0 ≤ x s → x s + zlen l ≤ 102 → zlen (ram s) = 918 →
  let s' := sends s l in
  mode s' = MODE_DATA ∧ page s' = page s ∧ x s' = x s + zlen l ∧ zlen (ram s') = 918 ∧
  shm s' = shm s ∧ (dirty s = true ∨ l ≠ [] → dirty s' = true) ∧
  ∀ i, 0 ≤ i < 918 → rd (ram s') i =
    if (page s * 102 + x s <=? i) && (i <? page s * 102 + x s + zlen l) then rd l (i - (page s * 102 + x s)) else rd (ram s) i.
Proof.
  induction l as [|b l IH]; intros s Hm Hp Hx Hl Hr; cbv zeta.
  { change (sends s []) with s. change (@zlen Z []) with 0. rewrite !Z.add_0_r. do 5 (split; [done|]). split; [by intros [|]|].
    intros i Hi. case_ifs; [lia|done..]. }
  unfold zlen in Hl. cbn [length] in Hl.
  assert ((send s b).1 = s <| ram := wr (ram s) (page s * 102 + x s) b |> <| redraw := true |> <| dirty := true |>
                           <| x := x s + 1 |>) as E.
  { cbn [send st7558_class]. unfold st7558_send, st7558_data. rewrite Hm. cbn [fst].
    rewrite (proj2 (Z.ltb_lt (page s) ST7558_PAGES)), (proj2 (Z.ltb_lt (x s) ST7558_COLS)) by (unfold ST7558_PAGES, ST7558_COLS; lia).
    done. }
  change (sends s (b :: l)) with (sends (send s b).1 l). rewrite E. clear E.
  destruct (IH (s <| ram := wr (ram s) (page s * 102 + x s) b |> <| redraw := true |> <| dirty := true |> <| x := x s + 1 |>))
    as (A & B & C & D & F & G & I); cbn [mode page x ram update_field]; [done..|lia|unfold zlen; lia|by rewrite zlen_wr|].
  revert A B C D F G I. cbn [page x shm dirty ram update_field]. generalize (sends
    (s <| ram := wr (ram s) (page s * 102 + x s) b |> <| redraw := true |> <| dirty := true |> <| x := x s + 1 |>) l).
  intros s' A B C D F G I. do 2 (split; [done|]). split; [rewrite C; unfold zlen; cbn [length]; lia|].
  do 2 (split; [done|]). split; [intros; apply G; by left|]. intros i Hi. rewrite I by done. rewrite rd_wr by lia.
  unfold zlen. cbn [length]. rewrite Nat2Z.inj_succ. set (o := page s * 102 + x s) in *. unfold rd.
  destruct (Z.eqb_spec i o) as [->|Hne].
  - rewrite Z.sub_diag. rewrite (proj2 (Z.leb_le o o)), (proj2 (Z.ltb_lt o (o + _))) by lia.
    by rewrite (proj2 (Z.leb_gt (page s * 102 + (x s + 1)) o)) by lia.
  - replace (page s * 102 + (x s + 1) <=? i) with (o <=? i) by lia.
    replace (i <? page s * 102 + (x s + 1) + Z.of_nat (length l)) with (i <? o + Z.succ (Z.of_nat (length l)))
      by (f_equal; lia).
    destruct (Z.leb_spec o i); [|done]. destruct (i <? o + _); [|done]. cbn [andb].
    by replace (Z.to_nat (i - o)) with (S (Z.to_nat (i - (page s * 102 + (x s + 1))))) by lia.
Qed.

(** The end of a transfer publishes, and changes neither memory nor position. *)
Lemma finish_fields s :
  let s' := (event s I2C_FINISH).1 in
  ram s' = ram s ∧ page s' = page s ∧ x s' = x s ∧ shm s' = shm s ∧
  (dirty s = true → shm s = true → ∃ h, length h = 32%nat ∧ image s' = h ++ mjoin (page_row (ram s) <$> zseq 0 9)).
Proof.
  cbn [event st7558_class st7558_event dirty update_field fst]. unfold st7558_export. cbn [shm seq ram update_field].
  destruct (dirty s), (shm s) eqn:E; cbn [negb ram page x shm update_field]; repeat split; try done.
  intros _ _. eexists. split; [|reflexivity]. done.
Qed.

Lemma page_command p : 0 ≤ p < 16 →
  has (0x40 + p) 0x80 = false ∧ Z.land (0x40 + p) 0xf0 = 0x40 ∧ Z.land (0x40 + p) 0x0f = p.
Proof.
  intros Hp. apply (range_split (λ p, has (0x40 + p) 0x80 = false ∧ Z.land (0x40 + p) 0xf0 = 0x40 ∧ Z.land (0x40 + p) 0x0f = p) 16);
    [lia|]. forall_cases; by vm_compute.
Qed.

Lemma column_command c : 0 ≤ c < 128 → has (0x80 + c) 0x80 = true ∧ Z.land (0x80 + c) 0x7f = c.
Proof.
  intros Hc. split.
  - change 0x80 with (Z.shiftl 1 7). rewrite has_bit, Z.testbit_eqb by lia.
    change (Z.shiftl 1 7) with 128. change (2 ^ 7) with 128. mlia.
  - change 0x7f with (Z.ones 7). rewrite Z.land_ones by lia. change (2 ^ 7) with 128. mlia.
Qed.

(** The page and column commands: 0x40 | page, then 0x80 | column. *)
Lemma position_bytes s p c : 0 ≤ p < 9 → 0 ≤ c < 102 →
  let s' := transaction s [0x00; 0x40 + p; 0x80 + c] in
  ram s' = ram s ∧ page s' = p ∧ x s' = c ∧ shm s' = shm s.
Proof.
  intros Hp Hc. cbv zeta. unfold transaction. cbn [foldl].
  assert ((send (send (send (event s I2C_START_SEND).1 0).1 (0x40 + p)).1 (0x80 + c)).1 =
          s <| mode := MODE_IDLE |> <| mode := MODE_CMD |> <| page := p |> <| x := c |>) as ->.
  { change (send (event s I2C_START_SEND).1 0).1 with (s <| mode := MODE_IDLE |> <| mode := MODE_CMD |>).
    assert (∀ t, st7558_command t (0x40 + p) = t <| page := p |>) as Ep.
    { intros t. unfold st7558_command. by destruct (page_command p ltac:(lia)) as (-> & -> & ->). }
    assert (∀ t, st7558_command t (0x80 + c) = t <| x := c |>) as Ec.
    { intros t. unfold st7558_command. by destruct (column_command c ltac:(lia)) as (-> & ->). }
    cbn [send st7558_class]. unfold st7558_send. cbn [mode update_field fst]. rewrite Ep. cbn [mode update_field].
    by rewrite Ec. }
  destruct (finish_fields (s <| mode := MODE_IDLE |> <| mode := MODE_CMD |> <| page := p |> <| x := c |>))
    as (A & B & C & D & _). by rewrite A, B, C, D.
Qed.

(** The rows of the image. *)
Lemma image_row r q y : zlen r = 918 → 0 ≤ q < 9 → 0 ≤ y < 96 →
  rd (mjoin (page_row r <$> zseq 0 9)) (q * 96 + y) = rd r (q * 102 + y).
Proof.
  intros Hr Hq Hy. assert (∀ p, 0 ≤ p < 9 → length (page_row r p) = 96%nat) as Hl.
  { intros p Hp. unfold page_row, LCD_W, ST7558_COLS, zlen in *. rewrite length_take, length_drop. lia. }
  assert (∀ n a, a + Z.of_nat n ≤ 9 → 0 ≤ a → ∀ k, 0 ≤ k < Z.of_nat n →
    rd (mjoin (page_row r <$> zseq a n)) (k * 96 + y) = rd r ((a + k) * 102 + y)) as H.
  { induction n as [|n IH]; intros a Ha Ha0 k Hk; [lia|]. rewrite zseq_cons. cbn [fmap list_fmap mjoin list_join].
    pose proof (Hl a ltac:(lia)) as La. destruct (Z.eq_dec k 0) as [->|Hk0].
    - unfold rd. rewrite lookup_app_l by lia. unfold page_row, LCD_W, ST7558_COLS.
      rewrite lookup_take_lt, lookup_drop by lia. do 2 f_equal. lia.
    - specialize (IH (a + 1) ltac:(lia) ltac:(lia) (k - 1) ltac:(lia)).
      replace ((a + k) * 102 + y) with ((a + 1 + (k - 1)) * 102 + y) by lia. rewrite <-IH.
      unfold rd. rewrite lookup_app_r by lia. do 2 f_equal. lia. }
  apply (H 9%nat 0); lia.
Qed.

(** A data packet after the position commands, as the display sees it. *)
Lemma data_transaction s bytes : 0 ≤ page s < 9 → 0 ≤ x s → x s + zlen bytes ≤ 102 → zlen (ram s) = 918 →
  bytes ≠ [] → shm s = true →
  let s' := transaction s (0x40 :: bytes) in
  (∀ q y, 0 ≤ q < 9 → 0 ≤ y < 102 → rd (ram s') (q * 102 + y) =
     if (q =? page s) && (x s <=? y) && (y <? x s + zlen bytes) then rd bytes (y - x s) else rd (ram s) (q * 102 + y)) ∧
  (∀ q y, 0 ≤ q < 9 → 0 ≤ y < 96 → rd (image s') (32 + q * 96 + y) = rd (ram s') (q * 102 + y)).
Proof.
  intros Hp Hx Hn Hr Hb Hs. cbv zeta. unfold transaction. cbn [foldl].
  change (send (event s I2C_START_SEND).1 0x40).1 with (s <| mode := MODE_IDLE |> <| mode := MODE_DATA |>).
  pose proof (data_bytes bytes (s <| mode := MODE_IDLE |> <| mode := MODE_DATA |>) eq_refl Hp Hx Hn Hr) as H.
  cbn [page x ram shm dirty update_field] in H. revert H. unfold sends.
  generalize (foldl (λ s b, (send s b).1) (s <| mode := MODE_IDLE |> <| mode := MODE_DATA |>) bytes).
  intros s' (_ & _ & _ & L & S' & D & R). destruct (finish_fields s') as (E & _ & _ & _ & I).
  destruct (I (D (or_intror Hb)) (eq_trans S' Hs)) as (h & Hh & Ei). rewrite E, Ei. split.
  - intros q y Hq Hy. rewrite R by lia.
    replace ((page s * 102 + x s <=? q * 102 + y) && (q * 102 + y <? page s * 102 + x s + zlen bytes))
      with ((q =? page s) && (x s <=? y) && (y <? x s + zlen bytes)) by lia.
    destruct (q =? page s) eqn:Eq; [|done]. cbn [andb]. apply Z.eqb_eq in Eq as ->. case_match; [|done]. f_equal. lia.
  - intros q y Hq Hy. rewrite <-(image_row (ram s') q y L Hq Hy). unfold rd.
    rewrite lookup_app_r by lia. do 2 f_equal. lia.
Qed.

(** drawing on the C123 display through the I2C controller.  A position
    packet (page, column) and a data packet of up to sixteen bytes write
    exactly those columns of that page of the display memory; no other slave
    and no other cell changes, and the shared image, published at the end of
    the packet, shows the first 96 columns of every page. *)
Theorem st7558_draw (s : CalypsoI2CCtrlState St7558State) (k : nat) (sl : St7558State) (p c : Z) (bytes : list Z) :
  idle s → slave_at (children (bus s)) 0x3c k sl → zlen (ram sl) = 918 → shm sl = true →
  0 ≤ p < 9 → 0 ≤ c → bytes ≠ [] → zlen bytes ≤ 16 → c + zlen bytes ≤ 102 → Forall (λ v, 0 ≤ v < 256) bytes →
  let s' := ctrl_writes s (send_packet 0x3c 0x00 [0x40 + p; 0x80 + c] ++ send_packet 0x3c 0x40 bytes) in
  ∃ sl', children (bus s') = <[k := (0x3c, sl')]> (children (bus s)) ∧ idle s' ∧
    (∀ q y, 0 ≤ q < 9 → 0 ≤ y < 102 → rd (ram sl') (q * 102 + y) =
       if (q =? p) && (c <=? y) && (y <? c + zlen bytes) then rd bytes (y - c) else rd (ram sl) (q * 102 + y)) ∧
    (∀ q y, 0 ≤ q < 9 → 0 ≤ y < 96 → rd (image sl') (32 + q * 96 + y) = rd (ram sl') (q * 102 + y)).
Proof.
  intros Hi Hk Hr Hs Hp Hc Hb Hn Hcn HF s'. assert (0 < zlen bytes) by (destruct bytes; [done|unfold zlen; cbn; lia]).
  unfold s', ctrl_writes. rewrite foldl_app. fold (ctrl_writes s (send_packet 0x3c 0x00 [0x40 + p; 0x80 + c])).
  destruct (packet_found s 0x3c 0x00 [0x40 + p; 0x80 + c] k sl Hi ltac:(lia) ltac:(lia)) as [E1 I1]; [|done|done|].
  { repeat (apply Forall_cons_2; [lia|]). apply Forall_nil_2. }
  revert E1 I1. generalize (ctrl_writes s (send_packet 0x3c 0x00 [0x40 + p; 0x80 + c])). intros s1 E1 I1.
  pose proof (position_bytes sl p c Hp ltac:(lia)) as P. cbv zeta in P. revert E1 P.
  generalize (transaction sl [0x00; 0x40 + p; 0x80 + c]). intros sl1 E1 (P1 & P2 & P3 & P4).
  destruct (packet_found s1 0x3c 0x40 bytes k sl1 I1 ltac:(lia) ltac:(lia) HF Hn) as [E2 I2].
  { rewrite E1. by eapply slave_at_insert. }
  exists (transaction sl1 (0x40 :: bytes)). split; [etransitivity; [exact E2|by rewrite E1, list_insert_insert_eq]|].
  split; [done|]. rewrite <-P2, <-P3, <-P1. apply data_transaction; by rewrite ?P1, ?P2, ?P3, ?P4.
Qed.

(** The board: the display at 0x3c, alone on the bus. *)
Definition board : CalypsoI2CCtrlState St7558State := i2c_ctrl_realize [(0x3c, st7558_realize true)].

Lemma board_idle : idle board.
Proof. done. Qed.

Lemma board_slave : slave_at (children (bus board)) 0x3c 0 (st7558_realize true).
Proof. split; [done|]. intros; lia. Qed.

Lemma st7558_draw_witness :
  let s' := ctrl_writes board (send_packet 0x3c 0x00 [0x40 + 2; 0x80 + 7] ++ send_packet 0x3c 0x40 [0xAA; 0x55]) in
  ∃ sl', children (bus s') = [(0x3c, sl')] ∧ rd (ram sl') (2 * 102 + 8) = 0x55 ∧ rd (image sl') (32 + 2 * 96 + 7) = 0xAA.
Proof.
  cbv zeta. assert (0 ≤ 2 < 9 ∧ 0 ≤ 7 < 96 ∧ 0 ≤ 7 < 102 ∧ 0 ≤ 8 < 102) as (H2 & H7 & H7' & H8) by lia.
  assert (zlen (ram (st7558_realize true)) = 918) as HL by (by vm_compute).
  destruct (st7558_draw board 0 (st7558_realize true) 2 7 [0xAA; 0x55] board_idle board_slave HL eq_refl)
    as (sl & A & _ & B & C); [lia|lia|done|done|done|repeat (apply Forall_cons_2; [lia|]); apply Forall_nil_2|].
  exists sl. split; [exact A|]. split; [exact (eq_trans (B 2 8 H2 H8) eq_refl)|].
  exact (eq_trans (C 2 7 H2 H7) (eq_trans (B 2 7 H2 H7') eq_refl)).
Defined.

(** The controller's theorem on this board: a packet for the display, and one
    for an address nobody has. *)
Lemma i2c_packet_witness :
  children (bus (ctrl_writes board (send_packet 0x3c 0x00 [0x0d]))) = [(0x3c, transaction (st7558_realize true) [0x00; 0x0d])] ∧
  has (i2c_ctrl_read (ctrl_writes board (send_packet 0x3d 0x00 [0x0d])) REG_STATUS_ACTIVITY) STATUS_ERROR_DEV = false.
Proof.
  assert (Forall (λ v, 0 ≤ v < 256) [0x0d]) as HF by (apply Forall_cons_2; [lia|apply Forall_nil_2]).
  split.
  - exact (proj1 (proj1 (i2c_packet board 0x3c 0x00 [0x0d] board_idle ltac:(lia) ltac:(lia) HF ltac:(done)) 0%nat _ board_slave)).
  - refine (proj2 (proj2 (proj2 (i2c_packet board 0x3d 0x00 [0x0d] board_idle ltac:(lia) ltac:(lia) HF ltac:(done)) _))).
    intros [|k] b y Hk; [injection Hk as <- _; lia|done].
Defined.

End ST7558.
