(* ===== verification/C54xAddr.v ===== *)
(** * Address and accumulator arithmetic of the C54x DSP
    ([hw/arm/calypso/l1-dsp/c54x_mem.c], [c54x_internal.h])

    The pure functions every instruction of the DSP core goes through: sign
    extension and saturation of the 40-bit accumulators, circular addressing
    modulo BK, and the reverse-carry (bit-reversed) addressing of the FFT
    loops.  The theorems relate each of them to the textbook definition: a
    modular counter, and the bit-reversal permutation. *)
From S2P Require Import Prelude.

Module C54xAddr.

(** [(int16_t)x]. *)
Definition i16 (x : Z) : Z := (x + 32768) mod 65536 - 32768.

(** Sign-extend a 40-bit accumulator held in an [int64_t]. *)
Definition sext40 (v : Z) : Z :=
  if has v (Z.shiftl 1 39) then Z.lor v (Z.lnot (Z.shiftl 1 40 - 1))
  else Z.land v (Z.shiftl 1 40 - 1).

(** Saturate to 32 bits (OVM mode). *)
Definition sat32 (v : Z) : Z :=
  if 0x7FFFFFFF <? v then 0x7FFFFFFF
  else if v <? -0x80000000 then -0x80000000
  else v.

(** [while ((1u << n) < (unsigned)bk) n++;] *)
Fixpoint circ_bits (fuel : nat) (n bk : Z) : Z :=
  match fuel with
  | O => n
  | S fuel => if Z.shiftl 1 n <? bk then circ_bits fuel (n + 1) bk else n
  end.

Definition c54x_circ_ref (ar step bk : Z) : Z :=
  if bk =? 0 then u16 (ar + step)
  else
    let n := circ_bits 16 0 bk in
    let masque := u16 (Z.shiftl 1 n - 1) in
    let base := Z.land ar (u16 (Z.lnot masque)) in
    let idx := Z.land ar masque + step in
    let idx := if bk <=? idx then idx - bk else if idx <? 0 then idx + bk else idx in
    u16 (base + idx).

Definition c54x_bitrev16 (v : Z) : Z :=
  let v := u16 (Z.lor (Z.shiftr (Z.land v 0xAAAA) 1) (Z.shiftl (Z.land v 0x5555) 1)) in
  let v := u16 (Z.lor (Z.shiftr (Z.land v 0xCCCC) 2) (Z.shiftl (Z.land v 0x3333) 2)) in
  let v := u16 (Z.lor (Z.shiftr (Z.land v 0xF0F0) 4) (Z.shiftl (Z.land v 0x0F0F) 4)) in
  u16 (Z.lor (Z.shiftr (Z.land v 0xFF00) 8) (Z.shiftl (Z.land v 0x00FF) 8)).

Definition c54x_revcarry (ar ar0 : Z) (sub : bool) : Z :=
  let r := c54x_bitrev16 ar in
  let r := u16 (if sub then r - c54x_bitrev16 ar0 else r + c54x_bitrev16 ar0) in
  c54x_bitrev16 r.

(** ** Accumulators *)
Lemma i16_range x : -32768 ≤ i16 x < 32768.
Proof. unfold i16. mlia. Qed.

Lemma i16_u16 x : i16 (u16 x) = i16 x.
Proof. unfold i16, u16. mlia. Qed.

(** [sext40] is reduction modulo 2^40 into the signed range. *)
Lemma sext40_spec v : sext40 v = (v + 2 ^ 39) mod 2 ^ 40 - 2 ^ 39.
Proof.
  unfold sext40. rewrite has_bit by lia.
  change (Z.shiftl 1 40 - 1) with (Z.ones 40).
  pose proof (Z.testbit_spec' v 39 ltac:(lia)) as B.
  destruct (Z.testbit v 39); cbn [Z.b2z] in B.
  - rewrite <- (Z.lnot_involutive v) at 1. rewrite <- Z.lnot_land.
    rewrite Z.land_ones by lia. unfold Z.lnot. mlia.
  - rewrite Z.land_ones by lia. mlia.
Qed.

Lemma sext40_range v : - 2 ^ 39 ≤ sext40 v < 2 ^ 39.
Proof. rewrite sext40_spec. mlia. Qed.

Lemma sext40_mod v : sext40 v mod 2 ^ 40 = v mod 2 ^ 40.
Proof. rewrite sext40_spec. mlia. Qed.

Lemma sext40_eqm v w : v mod 2 ^ 40 = w mod 2 ^ 40 → sext40 v = sext40 w.
Proof. rewrite !sext40_spec. mlia. Qed.

Lemma sext40_small v : - 2 ^ 39 ≤ v < 2 ^ 39 → sext40 v = v.
Proof. rewrite sext40_spec. mlia. Qed.

Lemma sext40_idem v : sext40 (sext40 v) = sext40 v.
Proof. apply sext40_small, sext40_range. Qed.

Lemma sat32_range v : - 2 ^ 31 ≤ sat32 v < 2 ^ 31.
Proof. unfold sat32. case_ifs; lia. Qed.

(** ** Circular addressing *)

(** The loop computes the least [n] with [bk ≤ 2^n]; 16 rounds are enough for
    a 16-bit BK. *)
Lemma circ_bits_spec fuel n bk :
  0 ≤ n → bk ≤ 2 ^ (n + Z.of_nat fuel) →
  n ≤ circ_bits fuel n bk ≤ n + Z.of_nat fuel ∧
  bk ≤ 2 ^ circ_bits fuel n bk ∧
  (circ_bits fuel n bk = n ∨ 2 ^ (circ_bits fuel n bk - 1) < bk).
Proof.
  revert n. induction fuel as [|fuel IH]; intros n Hn Hbk; cbn [circ_bits].
  - rewrite Z.add_0_r in Hbk. split_and!; [lia|lia|done|by left].
  - rewrite Z.shiftl_1_l. destruct (Z.ltb_spec (2 ^ n) bk) as [Hlt|Hge].
    + destruct (IH (n + 1)) as (Hr & Hb & Hm); [lia| |].
      { replace (n + 1 + Z.of_nat fuel) with (n + Z.of_nat (S fuel)) by lia. done. }
      split_and!; [lia|lia|done|right].
      destruct Hm as [E|?]; [|done]. rewrite E. replace (n + 1 - 1) with n by lia. done.
    + split_and!; [lia|lia|lia|by left].
Qed.

Lemma circ_bits_16 bk :
  0 < bk < 65536 → 0 ≤ circ_bits 16 0 bk ≤ 16 ∧ bk ≤ 2 ^ circ_bits 16 0 bk.
Proof.
  intros H. destruct (circ_bits_spec 16 0 bk) as (? & ? & _); [lia|lia|]. split; [lia|done].
Qed.

(** The window [2^N ≥ BK] a circular buffer is aligned on. *)
Definition circ_window (bk : Z) : Z := 2 ^ circ_bits 16 0 bk.

Lemma circ_mask_split n ar :
  0 ≤ n ≤ 16 → 0 ≤ ar < 65536 →
  Z.land ar (u16 (2 ^ n - 1)) = ar mod 2 ^ n ∧
  Z.land ar (u16 (Z.lnot (u16 (2 ^ n - 1)))) = ar - ar mod 2 ^ n.
Proof.
  intros Hn Har.
  assert (0 < 2 ^ n ≤ 65536) as Hp.
  { split; [apply Z.pow_pos_nonneg; lia|]. change 65536 with (2 ^ 16). apply Z.pow_le_mono_r; lia. }
  rewrite (u16_small (2 ^ n - 1)) by lia.
  assert (Z.land ar (2 ^ n - 1) = ar mod 2 ^ n) as E1.
  { replace (2 ^ n - 1) with (Z.ones n) by (rewrite Z.ones_equiv; lia). apply Z.land_ones; lia. }
  split; [exact E1|].
  assert (Z.land ar (u16 (Z.lnot (2 ^ n - 1))) = Z.ldiff ar (2 ^ n - 1)) as ->.
  { unfold u16. change 65536 with (2 ^ 16). rewrite <- Z.land_ones by lia.
    apply Z.bits_inj'. intros m Hm. rewrite !Z.land_spec, Z.ldiff_spec, Z.lnot_spec by done.
    destruct (Z.lt_ge_cases m 16).
    - rewrite Z.ones_spec_low by lia. by rewrite andb_true_r.
    - rewrite (testbit_high 16 ar) by (change (2 ^ 16) with 65536; lia). done. }
  replace (2 ^ n - 1) with (Z.ones n) by (rewrite Z.ones_equiv; lia).
  rewrite Z.ldiff_ones_r by lia. rewrite Z.shiftl_mul_pow2, Z.shiftr_div_pow2 by lia.
  pose proof (Z.div_mod ar (2 ^ n) ltac:(lia)). lia.
Qed.

(** A circular step of at most BK words from an address whose index is inside
    the buffer is addition modulo BK on the index; the buffer base is kept. *)
Lemma circ_ref_modular ar step bk :
  0 ≤ ar < 65536 → 0 < bk < 65536 →
  ar mod circ_window bk < bk → - bk ≤ step ≤ bk →
  c54x_circ_ref ar step bk =
    (ar - ar mod circ_window bk) + (ar mod circ_window bk + step) mod bk.
Proof.
  intros Har Hbk Hin Hst. unfold c54x_circ_ref, circ_window in *.
  pose proof (circ_bits_16 bk Hbk) as (Hn & Hw).
  generalize dependent (circ_bits 16 0 bk). intros n Hin Hn Hw.
  rewrite (proj2 (Z.eqb_neq bk 0)) by lia. rewrite Z.shiftl_1_l.
  destruct (circ_mask_split n ar Hn Har) as [-> ->].
  assert (0 < 2 ^ n) as Hp by (apply Z.pow_pos_nonneg; lia).
  pose proof (Z.mod_pos_bound ar (2 ^ n) Hp) as Hm.
  assert (ar - ar mod 2 ^ n + 2 ^ n ≤ 65536) as Htop.
  { pose proof (Z.div_mod ar (2 ^ n) ltac:(lia)).
    assert (65536 = 2 ^ (16 - n) * 2 ^ n) as Ew.
    { rewrite <- Z.pow_add_r by lia. by replace (16 - n + n) with 16 by lia. }
    assert (ar / 2 ^ n < 2 ^ (16 - n)) by (apply Z.div_lt_upper_bound; lia).
    nia. }
  pose proof (Z.mod_le ar (2 ^ n) ltac:(lia) Hp) as Hle.
  set (i := ar mod 2 ^ n) in *.
  assert ((i + step) mod bk = if bk <=? i + step then i + step - bk
            else if i + step <? 0 then i + step + bk else i + step) as ->.
  { case_ifs.
    - symmetry. apply Zmod_unique with 1; lia.
    - symmetry. apply Zmod_unique with (-1); lia.
    - apply Z.mod_small. lia. }
  apply u16_small. case_ifs; lia.
Qed.

(** The index stays inside the buffer and the window does not change. *)
Lemma circ_ref_inside ar step bk :
  0 ≤ ar < 65536 → 0 < bk < 65536 →
  ar mod circ_window bk < bk → - bk ≤ step ≤ bk →
  let r := c54x_circ_ref ar step bk in
  0 ≤ r < 65536 ∧
  r - r mod circ_window bk = ar - ar mod circ_window bk ∧
  r mod circ_window bk = (ar mod circ_window bk + step) mod bk.
Proof.
  intros Har Hbk Hin Hst r.
  assert (r = (ar - ar mod circ_window bk) + (ar mod circ_window bk + step) mod bk) as Er
    by (by apply circ_ref_modular).
  pose proof (circ_bits_16 bk Hbk) as (Hn & Hw). fold (circ_window bk) in Hw.
  assert (0 < circ_window bk) as Hp by lia.
  pose proof (Z.mod_pos_bound (ar mod circ_window bk + step) bk ltac:(lia)) as Hi.
  pose proof (Z.mod_pos_bound ar _ Hp) as Ha.
  assert (r mod circ_window bk = (ar mod circ_window bk + step) mod bk) as Em.
  { rewrite Er. pose proof (Z.div_mod ar (circ_window bk) ltac:(lia)).
    symmetry. apply Zmod_unique with (ar / circ_window bk); lia. }
  split; [|split; [lia|done]].
  subst r. unfold c54x_circ_ref. case_if; apply u16_range.
Qed.

(** ** Reverse-carry addressing *)
Lemma testbit_u16 x i : 0 ≤ i → Z.testbit (u16 x) i = (i <? 16) && Z.testbit x i.
Proof.
  intros Hi. unfold u16. change 65536 with (2 ^ 16). destruct (Z.ltb_spec i 16).
  - by rewrite Z.mod_pow2_bits_low.
  - by rewrite Z.mod_pow2_bits_high.
Qed.

Lemma testbit_bitrev16 v i :
  0 ≤ i < 16 → Z.testbit (c54x_bitrev16 v) i = Z.testbit v (15 - i).
Proof.
  intros Hi. apply (range_split (λ i, Z.testbit (c54x_bitrev16 v) i = Z.testbit v (15 - i)) 16); [exact Hi|].
  forall_cases; unfold c54x_bitrev16;
  repeat (rewrite ?testbit_u16, ?Z.lor_spec, ?Z.shiftr_spec, ?Z.shiftl_spec, ?Z.land_spec by lia;
          cbn -[Z.testbit]);
  cbn; rewrite ?andb_true_r, ?andb_false_r, ?orb_false_r; reflexivity.
Qed.

Lemma bitrev16_range v : 0 ≤ c54x_bitrev16 v < 65536.
Proof. apply u16_range. Qed.

Lemma bitrev16_bits v w :
  0 ≤ w < 65536 → (∀ i, 0 ≤ i < 16 → Z.testbit w i = Z.testbit v (15 - i)) →
  c54x_bitrev16 v = w.
Proof.
  intros Hw H. apply Z.bits_inj'. intros i Hi. destruct (Z.lt_ge_cases i 16).
  - rewrite testbit_bitrev16, H by lia. done.
  - rewrite !(testbit_high 16); [done| |lia| |lia]; [exact Hw|apply bitrev16_range].
Qed.

(** Bit reversal is an involution on 16-bit words. *)
Lemma bitrev16_involutive v : 0 ≤ v < 65536 → c54x_bitrev16 (c54x_bitrev16 v) = v.
Proof.
  intros Hv. apply bitrev16_bits; [done|]. intros i Hi.
  rewrite testbit_bitrev16 by lia. f_equal. lia.
Qed.

(** The reference bit reversal on [k] bits. *)
Fixpoint rev_bits (k : nat) (i : Z) : Z :=
  match k with
  | O => 0
  | S k => (i mod 2) * 2 ^ Z.of_nat k + rev_bits k (i / 2)
  end.

Lemma rev_bits_range k i : 0 ≤ rev_bits k i < 2 ^ Z.of_nat k.
Proof.
  revert i. induction k as [|k IH]; intros i; [cbn; lia|].
  cbn [rev_bits]. specialize (IH (i / 2)). rewrite Nat2Z.inj_succ, Z.pow_succ_r by lia.
  pose proof (Z.mod_pos_bound i 2). nia.
Qed.

Lemma testbit_rev_bits k i j :
  0 ≤ j < Z.of_nat k → Z.testbit (rev_bits k i) j = Z.testbit i (Z.of_nat k - 1 - j).
Proof.
  revert i j. induction k as [|k IH]; intros i j Hj; [lia|]. cbn [rev_bits].
  rewrite Nat2Z.inj_succ in *. pose proof (rev_bits_range k (i / 2)) as Hr.
  rewrite <- (lor_shiftl_add _ _ (Z.of_nat k)), Z.lor_spec, Z.shiftl_spec by lia.
  destruct (Z.eq_dec j (Z.of_nat k)) as [->|Hne].
  - rewrite Z.sub_diag. replace (Z.succ (Z.of_nat k) - 1 - Z.of_nat k) with 0 by lia.
    rewrite (testbit_high (Z.of_nat k) (rev_bits _ _)), orb_false_r by (exact Hr || lia).
    rewrite <- Z.bit0_mod, Z.b2z_bit0. done.
  - rewrite Z.testbit_neg_r, orb_false_l, IH by lia.
    rewrite <- Z.shiftr_div_pow2 with (n := 1), Z.shiftr_spec by lia. f_equal. lia.
Qed.

(** Reversal of a [k]-bit count placed in the top [k] bits of the word. *)
Lemma bitrev16_shifted k i :
  (k ≤ 16)%nat → 0 ≤ i < 2 ^ Z.of_nat k →
  c54x_bitrev16 (i * 2 ^ (16 - Z.of_nat k)) = rev_bits k i.
Proof.
  intros Hk Hi. apply bitrev16_bits.
  { pose proof (rev_bits_range k i). pose proof (Z.pow_le_mono_r 2 (Z.of_nat k) 16). lia. }
  intros j Hj. rewrite Z.mul_pow2_bits by lia.
  destruct (Z.lt_ge_cases j (Z.of_nat k)).
  - rewrite testbit_rev_bits by lia. f_equal. lia.
  - rewrite (testbit_high (Z.of_nat k)) by (apply rev_bits_range || lia).
    rewrite Z.testbit_neg_r; [done|lia].
Qed.

Lemma bitrev16_pow k : (1 ≤ k ≤ 16)%nat →
  c54x_bitrev16 (2 ^ (Z.of_nat k - 1)) = 2 ^ (16 - Z.of_nat k).
Proof.
  intros Hk. apply bitrev16_bits.
  { split; [apply Z.pow_nonneg; lia|]. change 65536 with (2 ^ 16). apply Z.pow_lt_mono_r; lia. }
  intros i Hi. rewrite !Z.pow2_bits_eqb by lia.
  destruct (Z.eqb_spec (16 - Z.of_nat k) i), (Z.eqb_spec (Z.of_nat k - 1) (15 - i)); done || lia.
Qed.

(** A block aligned on [2^k] reverses into the low [16 - k] bits. *)
Lemma bitrev16_aligned k b :
  (k ≤ 16)%nat → b mod 2 ^ Z.of_nat k = 0 → c54x_bitrev16 b < 2 ^ (16 - Z.of_nat k).
Proof.
  intros Hk Hb. apply (Z.bounded_iff_bits_nonneg (16 - Z.of_nat k)); [lia|apply bitrev16_range|].
  intros i Hi. destruct (Z.lt_ge_cases i 16).
  - rewrite testbit_bitrev16 by lia.
    rewrite <- (Z.mod_pow2_bits_low b (Z.of_nat k)) by lia. by rewrite Hb, Z.bits_0.
  - rewrite (testbit_high 16); [done|apply bitrev16_range|lia].
Qed.

(** Reversal of two words with disjoint bits. *)
Lemma bitrev16_add k x y :
  (k ≤ 16)%nat → 0 ≤ x < 2 ^ (16 - Z.of_nat k) → 0 ≤ y < 2 ^ Z.of_nat k →
  c54x_bitrev16 (y * 2 ^ (16 - Z.of_nat k) + x) = c54x_bitrev16 x + rev_bits k y.
Proof.
  intros Hk Hx Hy. rewrite <- lor_shiftl_add by lia.
  assert (c54x_bitrev16 x mod 2 ^ Z.of_nat k = 0) as Hal.
  { apply Z.bits_inj'. intros i Hi. rewrite Z.bits_0. destruct (Z.lt_ge_cases i (Z.of_nat k)).
    - rewrite Z.mod_pow2_bits_low, testbit_bitrev16 by lia. apply (testbit_high (16 - Z.of_nat k)); lia.
    - apply Z.mod_pow2_bits_high. lia. }
  pose proof (rev_bits_range k y) as Hr. pose proof (bitrev16_range x) as Hbx.
  pose proof (Z.div_mod (c54x_bitrev16 x) (2 ^ Z.of_nat k) ltac:(lia)) as Hd.
  rewrite Hal, Z.add_0_r, Z.mul_comm in Hd. set (q := _ / _) in Hd.
  assert (c54x_bitrev16 x + rev_bits k y = Z.lor (c54x_bitrev16 x) (rev_bits k y)) as ->.
  { rewrite Hd, <- Z.shiftl_mul_pow2, lor_shiftl_add, Z.shiftl_mul_pow2 by lia. done. }
  apply bitrev16_bits.
  { change 65536 with (2 ^ 16). apply lor_range; [lia|exact Hbx|].
    pose proof (Z.pow_le_mono_r 2 (Z.of_nat k) 16). lia. }
  intros i Hi. rewrite !Z.lor_spec, testbit_bitrev16, Z.shiftl_mul_pow2 by lia.
  rewrite <- (bitrev16_shifted k y), testbit_bitrev16 by lia. apply orb_comm.
Qed.

(** The pointer sequence of a reverse-carry loop. *)
Definition revcarry_walk (ar ar0 : Z) (n : nat) : Z :=
  Nat.iter n (λ a, c54x_revcarry a ar0 false) ar.

Lemma revcarry_walk_rev ar ar0 n :
  0 ≤ ar < 65536 →
  c54x_bitrev16 (revcarry_walk ar ar0 n) =
    u16 (c54x_bitrev16 ar + Z.of_nat n * c54x_bitrev16 ar0).
Proof.
  intros Har. unfold revcarry_walk. induction n as [|n IH].
  - cbn [Nat.iter]. rewrite Z.mul_0_l, Z.add_0_r. symmetry. apply u16_small, bitrev16_range.
  - rewrite Nat.iter_succ. unfold c54x_revcarry at 1.
    rewrite bitrev16_involutive by apply u16_range. rewrite IH.
    unfold u16. rewrite Zplus_mod_idemp_l. f_equal. lia.
Qed.

Lemma revcarry_walk_range ar ar0 n :
  0 ≤ ar < 65536 → 0 ≤ revcarry_walk ar ar0 n < 65536.
Proof.
  intros. destruct n; [done|]. unfold revcarry_walk. rewrite Nat.iter_succ. apply bitrev16_range.
Qed.

(** Subtraction undoes addition. *)
Lemma revcarry_sub_add ar ar0 :
  0 ≤ ar < 65536 → c54x_revcarry (c54x_revcarry ar ar0 false) ar0 true = ar.
Proof.
  intros Har. unfold c54x_revcarry. rewrite bitrev16_involutive by apply u16_range.
  unfold u16. rewrite Zminus_mod_idemp_l.
  replace (c54x_bitrev16 ar + c54x_bitrev16 ar0 - c54x_bitrev16 ar0) with (c54x_bitrev16 ar) by lia.
  fold (u16 (c54x_bitrev16 ar)). rewrite u16_small by apply bitrev16_range.
  by apply bitrev16_involutive.
Qed.

(** ** Pointer sequences of the DSP loops *)
Definition circ_walk (ar step bk : Z) (n : nat) : Z :=
  Nat.iter n (λ a, c54x_circ_ref a step bk) ar.

(** Circular addressing is a modular counter.  From an address whose index
    lies inside the buffer of BK words, [n] circular steps of [step] words (of
    either sign, at most BK) keep the base of the buffer and move the index by
    [n * step] modulo BK; in particular BK steps come back to the start and
    the pointer never leaves the buffer. *)
Lemma circular_buffer_walk ar step bk n :
  0 ≤ ar < 65536 → 0 < bk < 65536 →
  ar mod circ_window bk < bk → - bk ≤ step ≤ bk →
  let base := ar - ar mod circ_window bk in
  circ_walk ar step bk n = base + (ar mod circ_window bk + Z.of_nat n * step) mod bk ∧
  base ≤ circ_walk ar step bk n < base + bk ∧
  circ_walk ar step bk (Z.to_nat bk) = ar.
Proof.
  intros Har Hbk Hin Hst. pose proof (circ_bits_16 bk Hbk) as (Hn & Hw).
  fold (circ_window bk) in Hw. pose proof (Z.mod_pos_bound ar (circ_window bk) ltac:(lia)) as Hi.
  assert (∀ n, 0 ≤ circ_walk ar step bk n < 65536 ∧
    circ_walk ar step bk n - circ_walk ar step bk n mod circ_window bk = ar - ar mod circ_window bk ∧
    circ_walk ar step bk n mod circ_window bk = (ar mod circ_window bk + Z.of_nat n * step) mod bk) as H.
  { clear n. induction n as [|n (Hr & Hb & Hm)].
    - cbn. rewrite Z.add_0_r, (Z.mod_small (ar mod _)); [done|lia].
    - pose proof (Z.mod_pos_bound (ar mod circ_window bk + Z.of_nat n * step) bk ltac:(lia)).
      unfold circ_walk in *. rewrite Nat.iter_succ.
      generalize dependent (Nat.iter n (λ a, c54x_circ_ref a step bk) ar). intros a Hr Hb Hm.
      destruct (circ_ref_inside a step bk) as (Hr' & Hb' & Hm'); [done|done|lia|done|].
      split; [done|]. split; [lia|]. rewrite Hm', Hm, Zplus_mod_idemp_l. f_equal. lia. }
  assert (∀ n, circ_walk ar step bk n =
    ar - ar mod circ_window bk + (ar mod circ_window bk + Z.of_nat n * step) mod bk) as E.
  { intros m. destruct (H m) as (_ & ? & ?). lia. }
  cbn zeta. split; [apply E|]. split.
  - rewrite E. pose proof (Z.mod_pos_bound (ar mod circ_window bk + Z.of_nat n * step) bk). lia.
  - rewrite E, Z2Nat.id by lia. rewrite Z.mul_comm, Z.mod_add, (Z.mod_small (ar mod _) bk) by lia. lia.
Qed.

(** Reverse-carry addressing enumerates a block in bit-reversed order.  With
    AR0 = N/2 and a block of N = 2^k words aligned on N, the [i]-th
    post-modified [*ARn+0B] access reads offset [rev_bits k i], the mirror
    image of the [k]-bit counter [i]; after N accesses the pointer is back at
    the base. *)
Lemma fft_bit_reversal k base i :
  (1 ≤ k ≤ 16)%nat → 0 ≤ base < 65536 → base mod 2 ^ Z.of_nat k = 0 →
  0 ≤ i < 2 ^ Z.of_nat k →
  revcarry_walk base (2 ^ (Z.of_nat k - 1)) (Z.to_nat i) = base + rev_bits k i ∧
  revcarry_walk base (2 ^ (Z.of_nat k - 1)) (Z.to_nat (2 ^ Z.of_nat k)) = base.
Proof.
  intros Hk Hb Hal Hi. pose proof (bitrev16_aligned k base ltac:(lia) Hal) as Hlow.
  pose proof (bitrev16_range base) as Hrb.
  assert (2 ^ Z.of_nat k * 2 ^ (16 - Z.of_nat k) = 65536) as Hw.
  { rewrite <- Z.pow_add_r by lia. by replace (Z.of_nat k + (16 - Z.of_nat k)) with 16 by lia. }
  split; rewrite <- (bitrev16_involutive (revcarry_walk _ _ _)) by (by apply revcarry_walk_range);
    rewrite revcarry_walk_rev, bitrev16_pow, Z2Nat.id by lia.
  - rewrite u16_small by nia. rewrite Z.add_comm, bitrev16_add by lia.
    by rewrite bitrev16_involutive.
  - rewrite Hw. unfold u16. replace (c54x_bitrev16 base + 65536) with (c54x_bitrev16 base + 1 * 65536) by lia.
    rewrite Z.mod_add, Z.mod_small by lia. by apply bitrev16_involutive.
Qed.

End C54xAddr.
