(* ===== verification/C54xState.v ===== *)
(** * State and memories of the C54x DSP core
    ([hw/arm/calypso/l1-dsp/calypso_c54x.h], [c54x_mem.c])

    The registers and memories of [C54xState] and the two memory spaces: data
    space with its memory-mapped registers (MMR), timer, DMA and serial-port
    windows and the API RAM shared with the ARM; program space with the XPC
    banking and the OVLY alias of data memory.  The environment switches of
    the source have their default values; the pure probes (logging) leave the
    state unchanged and are not modelled.  Two effects cross the boundary of
    the core and are explicit here: the callback towards the ARM side on every
    API RAM store is the log [api_cb], and the power figures which the
    baseband port substitutes for the stores to the [a_pm] cells come from the
    input stream [pm_in].  [firs_pm] is the static coefficient pointer of the
    FIRS instruction. *)
From stdpp Require Import gmap.
From S2P Require Import Prelude C54xAddr.

Module C54xState.
Import C54xAddr.

Definition C54X_PROG_SIZE : Z := 0x40000.
Definition C54X_API_BASE : Z := 0x0800.
Definition C54X_API_SIZE : Z := 0x2000.

Definition MMR_IMR : Z := 0x00.
Definition MMR_IFR : Z := 0x01.
Definition MMR_ST0 : Z := 0x06.
Definition MMR_ST1 : Z := 0x07.
Definition MMR_AL : Z := 0x08.
Definition MMR_AH : Z := 0x09.
Definition MMR_AG : Z := 0x0A.
Definition MMR_BL : Z := 0x0B.
Definition MMR_BH : Z := 0x0C.
Definition MMR_BG : Z := 0x0D.
Definition MMR_T : Z := 0x0E.
Definition MMR_TRN : Z := 0x0F.
Definition MMR_AR0 : Z := 0x10.
Definition MMR_AR7 : Z := 0x17.
Definition MMR_SP : Z := 0x18.
Definition MMR_BK : Z := 0x19.
Definition MMR_BRC : Z := 0x1A.
Definition MMR_RSA : Z := 0x1B.
Definition MMR_REA : Z := 0x1C.
Definition MMR_PMST : Z := 0x1D.
Definition MMR_XPC : Z := 0x1E.

Definition TIM_ADDR : Z := 0x0024.
Definition PRD_ADDR : Z := 0x0025.
Definition TCR_ADDR : Z := 0x0026.
Definition TCR_TDDR_MASK : Z := 0x000F.
Definition TCR_TRB : Z := Z.shiftl 1 5.
Definition TCR_PSC_SHIFT : Z := 6.
Definition TCR_PSC_MASK : Z := Z.shiftl 0xF 6.

Definition ST0_DP_MASK : Z := 0x01FF.
Definition ST0_OVB : Z := Z.shiftl 1 9.
Definition ST0_OVA : Z := Z.shiftl 1 10.
Definition ST0_C : Z := Z.shiftl 1 11.
Definition ST0_TC : Z := Z.shiftl 1 12.
Definition ST0_ARP_SHIFT : Z := 13.
Definition ST0_ARP_MASK : Z := Z.shiftl 7 13.

Definition ST1_ASM_MASK : Z := 0x001F.
Definition ST1_CMPT : Z := Z.shiftl 1 5.
Definition ST1_FRCT : Z := Z.shiftl 1 6.
Definition ST1_C16 : Z := Z.shiftl 1 7.
Definition ST1_SXM : Z := Z.shiftl 1 8.
Definition ST1_OVM : Z := Z.shiftl 1 9.
Definition ST1_INTM : Z := Z.shiftl 1 11.
Definition ST1_CPL : Z := Z.shiftl 1 14.

Definition PMST_OVLY : Z := Z.shiftl 1 5.
Definition PMST_IPTR_SHIFT : Z := 7.

Abbreviation mem := (gmap Z Z).
Definition mget (m : mem) (i : Z) : Z := default 0 (m !! i).

Record C54xState := mkC54x {
  a : Z;
  b : Z;
  ar : list Z;
  t : Z;
  trn : Z;
  sp : Z;
  bk : Z;
  brc : Z;
  rsa : Z;
  rea : Z;
  st0 : Z;
  st1 : Z;
  pmst : Z;
  imr : Z;
  ifr : Z;
  pc : Z;
  xpc : Z;
  timer_psc : Z;
  dma_subaddr : Z;
  dma_subregs : list Z;
  spsa : Z;
  lk_used : bool;
  delay_slots : Z;
  prog : mem;
  data : mem;
  api_ram : option mem;
  api_cb : list (Z * Z);
  idle : bool;
  insn_count : Z;
  pm_in : list Z;
  air_dpm : Z;
  rpt_count : Z;
  rpt_active : bool;
  rpt_fresh : bool;
  par_set : bool;
  rptb_active : bool;
  delayed_pc : Z;
  mvpd_src : Z;
  firs_pm : Z
}.

#[export] Instance c54x_eta : Settable C54xState := λ s,
  mkC54x (a s) (b s) (ar s) (t s) (trn s) (sp s) (bk s) (brc s) (rsa s) (rea s)
         (st0 s) (st1 s) (pmst s) (imr s) (ifr s) (pc s) (xpc s) (timer_psc s)
         (dma_subaddr s) (dma_subregs s) (spsa s) (lk_used s) (delay_slots s)
         (prog s) (data s) (api_ram s) (api_cb s) (idle s) (insn_count s)
         (pm_in s) (air_dpm s) (rpt_count s) (rpt_active s) (rpt_fresh s) (par_set s)
         (rptb_active s) (delayed_pc s) (mvpd_src s) (firs_pm s).

(** Fields of the status registers. *)
Definition arp (s : C54xState) : Z := Z.land (Z.shiftr (st0 s) ST0_ARP_SHIFT) 7.
Definition dp (s : C54xState) : Z := Z.land (st0 s) ST0_DP_MASK.
Definition asm_shift (s : C54xState) : Z :=
  let v := Z.land (st1 s) ST1_ASM_MASK in
  if has v 0x10 then Z.lor v (Z.lnot 0x1F) else v.

(** ** Data space *)
Definition mmr_read (s : C54xState) (addr : Z) : Z :=
  if addr =? MMR_IMR then imr s
  else if addr =? MMR_IFR then ifr s
  else if addr =? MMR_ST0 then st0 s
  else if addr =? MMR_ST1 then st1 s
  else if addr =? MMR_AL then Z.land (a s) 0xFFFF
  else if addr =? MMR_AH then Z.land (Z.shiftr (a s) 16) 0xFFFF
  else if addr =? MMR_AG then Z.land (Z.shiftr (a s) 32) 0xFF
  else if addr =? MMR_BL then Z.land (b s) 0xFFFF
  else if addr =? MMR_BH then Z.land (Z.shiftr (b s) 16) 0xFFFF
  else if addr =? MMR_BG then Z.land (Z.shiftr (b s) 32) 0xFF
  else if addr =? MMR_T then t s
  else if addr =? MMR_TRN then trn s
  else if (MMR_AR0 <=? addr) && (addr <=? MMR_AR7) then rd (ar s) (addr - MMR_AR0)
  else if addr =? MMR_SP then sp s
  else if addr =? MMR_BK then bk s
  else if addr =? MMR_BRC then brc s
  else if addr =? MMR_RSA then rsa s
  else if addr =? MMR_REA then rea s
  else if addr =? MMR_PMST then pmst s
  else if addr =? MMR_XPC then xpc s
  else 0.

Definition in_api (addr : Z) : bool :=
  (C54X_API_BASE <=? addr) && (addr <? C54X_API_BASE + C54X_API_SIZE).

(** The TCR register with the live prescaler in its PSC field. *)
Definition tcr_read (s : C54xState) : Z :=
  Z.lor (clr (mget (data s) TCR_ADDR) TCR_PSC_MASK)
        (Z.shiftl (Z.land (timer_psc s) 0xF) TCR_PSC_SHIFT).

Definition data_read_locked (s : C54xState) (addr : Z) : Z :=
  if addr =? TIM_ADDR then mget (data s) TIM_ADDR
  else if addr =? PRD_ADDR then mget (data s) PRD_ADDR
  else if addr =? TCR_ADDR then tcr_read s
  else if addr <? 0x20 then mmr_read s addr
  else if in_api addr then
    match api_ram s with
    | Some api => mget api (addr - C54X_API_BASE)
    | None => mget (data s) addr
    end
  else mget (data s) addr.

Definition data_read (s : C54xState) (addr : Z) : Z := data_read_locked s addr.

(** The accumulator fields written through their MMR. *)
Definition acc_set_low (v x : Z) : Z := Z.lor (Z.land v (Z.lnot 0xFFFF)) x.
Definition acc_set_high (v x : Z) : Z :=
  Z.lor (Z.land v (Z.lnot (Z.shiftl 0xFFFF 16))) (Z.shiftl x 16).
Definition acc_set_guard (v x : Z) : Z :=
  Z.lor (Z.land v 0xFFFFFFFF) (Z.shiftl (Z.land x 0xFF) 32).

(** Refused IMR stores: the speech codec of the PDROM never writes the IMR. *)
Definition garde_imr (s : C54xState) : bool :=
  (xpc s =? 0) && (0xe000 <=? pc s) && (pc s <=? 0xefff) && (1000000 <? insn_count s).

(** Refused SP stores: the API mailbox, and the register page from the PDROM. *)
Definition garde_sp (s : C54xState) (val : Z) : bool :=
  ((0x0800 <=? val) && (val <? 0x0900)) ||
  ((val <? 0x0060) && (xpc s =? 0) && (0xe000 <=? pc s) && (1000000 <? insn_count s)).

Definition mmr_write (s : C54xState) (addr val : Z) : C54xState :=
  if addr =? MMR_IMR then if garde_imr s then s else s <| imr := val |>
  else if addr =? MMR_IFR then s <| ifr := Z.land (ifr s) (u16 (Z.lnot val)) |>
  else if addr =? MMR_ST0 then s <| st0 := val |>
  else if addr =? MMR_ST1 then s <| st1 := val |>
  else if addr =? MMR_AL then s <| a := acc_set_low (a s) val |>
  else if addr =? MMR_AH then s <| a := acc_set_high (a s) val |>
  else if addr =? MMR_AG then s <| a := acc_set_guard (a s) val |>
  else if addr =? MMR_BL then s <| b := acc_set_low (b s) val |>
  else if addr =? MMR_BH then s <| b := acc_set_high (b s) val |>
  else if addr =? MMR_BG then s <| b := acc_set_guard (b s) val |>
  else if addr =? MMR_T then s <| t := val |>
  else if addr =? MMR_TRN then s <| trn := val |>
  else if (MMR_AR0 <=? addr) && (addr <=? MMR_AR7) then
    s <| ar := wr (ar s) (addr - MMR_AR0) val |>
  else if addr =? MMR_SP then if garde_sp s val then s else s <| sp := val |>
  else if addr =? MMR_BK then s <| bk := val |>
  else if addr =? MMR_BRC then s <| brc := val |>
  else if addr =? MMR_RSA then s <| rsa := val |>
  else if addr =? MMR_REA then s <| rea := val |>
  else if addr =? MMR_PMST then s <| pmst := val |>
  else if addr =? MMR_XPC then s <| xpc := Z.land val 3 |>
  else s.

(** The read-only lookup column of the data ROM. *)
Definition drom_lut (addr : Z) : bool :=
  (0x9000 <=? addr) && (addr <=? 0xDFFF) && (Z.land addr 0x7F =? 0x07).

Definition tcr_write (s : C54xState) (val : Z) : C54xState :=
  let s1 :=
    if has val TCR_TRB then
      s <| data := <[TIM_ADDR := mget (data s) PRD_ADDR]> (data s) |>
        <| timer_psc := Z.land val TCR_TDDR_MASK |>
    else s in
  s1 <| data := <[TCR_ADDR := clr val TCR_TRB]> (data s1) |>.

(** DMSDI/DMSDN: data port of the DMA sub-register bank. *)
Definition dms_write (s : C54xState) (addr val : Z) : C54xState :=
  let sa := dma_subaddr s in
  let s1 := if sa <? 24 then s <| dma_subregs := wr (dma_subregs s) sa val |> else s in
  let s2 := s1 <| data := <[addr := val]> (data s1) |> in
  if addr =? 0x0055 then s2 <| dma_subaddr := u16 (dma_subaddr s2 + 1) |> else s2.

(** A store to the shared API window: the array of the ARM and its notification. *)
Definition api_write (s : C54xState) (addr val : Z) : C54xState :=
  let woff := addr - C54X_API_BASE in
  s <| api_ram := (λ m, <[woff := val]> m) <$> api_ram s |>
    <| api_cb := api_cb s ++ [(woff, val)] |>.

Definition data_write_locked (s : C54xState) (addr val : Z) : C54xState :=
  if drom_lut addr then s
  else if addr =? TCR_ADDR then tcr_write s val
  else if addr =? TIM_ADDR then s <| data := <[TIM_ADDR := val]> (data s) |>
  else if addr =? PRD_ADDR then s <| data := <[PRD_ADDR := val]> (data s) |>
  else if addr <? 0x20 then mmr_write s addr val
  else if addr =? 0x0054 then
    s <| dma_subaddr := val |> <| data := <[0x0054 := val]> (data s) |>
  else if (addr =? 0x0055) || (addr =? 0x0057) then dms_write s addr val
  else if (addr =? 0x0038) || (addr =? 0x0039) then
    (if addr =? 0x0038 then s <| spsa := val |> else s) <| data := <[addr := val]> (data s) |>
  else
    let s1 := if in_api addr then api_write s addr val else s in
    s1 <| data := <[addr := val]> (data s1) |>.

(** The cells whose stored value the radio model replaces. *)
Definition apm_cell (addr : Z) : bool :=
  ((0x0834 <=? addr) && (addr <=? 0x0836)) || ((0x0848 <=? addr) && (addr <=? 0x084A)).

Definition calypso_bsp_air_dpm (s : C54xState) (val : Z) : Z :=
  if (air_dpm s <? 0) || (val =? 0) then val else u16 (air_dpm s).

Definition data_write (s : C54xState) (addr val : Z) : C54xState :=
  let '(s, val) :=
    if apm_cell addr then (s <| pm_in := tail (pm_in s) |>, default 0 (head (pm_in s)))
    else (s, val) in
  let val := if (addr =? 0x0831) || (addr =? 0x0845) then calypso_bsp_air_dpm s val else val in
  data_write_locked s addr val.

(** ** Program space *)
Definition c54x_ovly_bas : Z := 0x0060.

Definition c54x_xpc_haut_banque (x : Z) : bool :=
  (Z.land x 0x7f =? 1) || (Z.land x 0x7f =? 2).

Definition c54x_prog_xlate (s : C54xState) (addr16 : Z) : Z :=
  if (0x8000 <=? addr16) && ((addr16 <? 0xE000) || c54x_xpc_haut_banque (xpc s)) then
    Z.land (Z.lor (Z.shiftl (xpc s) 16) addr16) (C54X_PROG_SIZE - 1)
  else addr16.

Definition in_ovly (s : C54xState) (addr16 : Z) : bool :=
  has (pmst s) PMST_OVLY && (c54x_ovly_bas <=? addr16) && (addr16 <? 0x2800).

Definition prog_fetch (s : C54xState) (pc : Z) : Z :=
  let pc := u16 pc in
  if in_ovly s pc then mget (data s) pc else mget (prog s) (c54x_prog_xlate s pc).

Definition prog_read (s : C54xState) (addr : Z) : Z :=
  let addr16 := Z.land addr 0xFFFF in
  if in_ovly s addr16 then mget (data s) addr16 else mget (prog s) (c54x_prog_xlate s addr16).

Definition prog_write (s : C54xState) (addr val : Z) : C54xState :=
  let addr16 := Z.land addr 0xFFFF in
  if 0xE000 <=? addr16 then s
  else
    let s1 := if in_ovly s addr16 then s <| data := <[addr16 := val]> (data s) |> else s in
    let s2 :=
      if 0x8000 <=? addr16 then
        let ext := Z.land (Z.lor (Z.shiftl (xpc s) 16) addr16) (C54X_PROG_SIZE - 1) in
        s1 <| prog := <[ext := val]> (prog s1) |>
      else s1 in
    s2 <| prog := <[addr16 := val]> (prog s2) |>.

(** ** Reads after writes *)
Lemma mget_insert m i j v : mget (<[i := v]> m) j = if j =? i then v else mget m j.
Proof.
  unfold mget. destruct (Z.eqb_spec j i) as [->|Hne].
  - by rewrite lookup_insert_eq.
  - by rewrite lookup_insert_ne by congruence.
Qed.

(** A word of the data space without hardware side effects: DARAM, ROM shadow,
    API mailbox, the TIM/PRD and DMA/McBSP registers. *)
Definition plain_cell (addr : Z) : bool :=
  (0x20 <=? addr) && (addr <? 65536) && negb (drom_lut addr) && negb (addr =? TCR_ADDR) &&
  negb (apm_cell addr) && negb ((addr =? 0x0831) || (addr =? 0x0845)).

(** The store to a plain cell as a change of the two arrays behind it. *)
Lemma data_write_plain s addr val :
  plain_cell addr = true →
  data (data_write s addr val) = <[addr := val]> (data s) ∧
  api_ram (data_write s addr val) =
    (if in_api addr then (λ m, <[addr - C54X_API_BASE := val]> m) <$> api_ram s else api_ram s) ∧
  timer_psc (data_write s addr val) = timer_psc s ∧
  (∀ m, m < 0x20 → mmr_read (data_write s addr val) m = mmr_read s m).
Proof.
  unfold plain_cell. intros H. bool_prop.
  assert (apm_cell addr = false ∧ drom_lut addr = false) as [Ea El] by done.
  unfold data_write. rewrite Ea, !(proj2 (Z.eqb_neq addr _)) by done. cbn [orb].
  unfold data_write_locked. rewrite El, (proj2 (Z.eqb_neq addr TCR_ADDR)) by done.
  clear El Ea. destruct (Z.ltb_spec addr 0x20) as [?|_]; [lia|].
  repeat match goal with |- context [addr =? ?c] => destruct (Z.eqb_spec addr c) as [->|] end;
    cbn [orb]; try (unfold dms_write; destruct (_ <? 24)); try (split_and!; intros; reflexivity).
  destruct (in_api addr); split_and!; intros; reflexivity.
Qed.

Lemma data_read_split s s' addr' :
  timer_psc s' = timer_psc s → (∀ m, m < 0x20 → mmr_read s' m = mmr_read s m) →
  mget (data s') TCR_ADDR = mget (data s) TCR_ADDR →
  mget (data s') addr' = mget (data s) addr' →
  (in_api addr' = true →
   (λ m, mget m (addr' - C54X_API_BASE)) <$> api_ram s' =
   (λ m, mget m (addr' - C54X_API_BASE)) <$> api_ram s) →
  data_read s' addr' = data_read s addr'.
Proof.
  intros Hp Hm Ht Hd Ha. unfold data_read, data_read_locked, tcr_read.
  destruct (Z.eqb_spec addr' TIM_ADDR) as [->|]; [done|].
  destruct (Z.eqb_spec addr' PRD_ADDR) as [->|]; [done|].
  destruct (Z.eqb_spec addr' TCR_ADDR) as [->|]; [by rewrite Hp, Ht|].
  destruct (Z.ltb_spec addr' 0x20); [by apply Hm|].
  destruct (in_api addr'); [|done]. specialize (Ha eq_refl).
  destruct (api_ram s'), (api_ram s); cbn in Ha; congruence.
Qed.

Lemma data_cell_write s addr val addr' :
  plain_cell addr = true →
  data_read (data_write s addr val) addr' = if addr' =? addr then val else data_read s addr'.
Proof.
  intros Hp. destruct (data_write_plain s addr val Hp) as (Hd & Ha & Ht & Hm).
  assert (Hc := Hp). unfold plain_cell in Hc. bool_prop.
  destruct (Z.eqb_spec addr' addr) as [->|Hne].
  - unfold data_read, data_read_locked. rewrite Hd, Ha.
    rewrite (proj2 (Z.eqb_neq addr TCR_ADDR)), (proj2 (Z.ltb_ge addr 0x20)) by done.
    rewrite !mget_insert, Z.eqb_refl.
    destruct (Z.eqb_spec addr TIM_ADDR) as [->|]; [done|].
    destruct (Z.eqb_spec addr PRD_ADDR) as [->|]; [done|].
    destruct (in_api addr); [|done]. destruct (api_ram s); [|done].
    cbn. by rewrite mget_insert, Z.eqb_refl.
  - apply data_read_split; [done|done| | |].
    + rewrite Hd, mget_insert. by rewrite (proj2 (Z.eqb_neq TCR_ADDR addr)) by congruence.
    + rewrite Hd, mget_insert. by rewrite (proj2 (Z.eqb_neq addr' addr)) by congruence.
    + intros _. rewrite Ha. destruct (in_api addr); [|done]. destruct (api_ram s); [|done].
      cbn. rewrite mget_insert. by rewrite (proj2 (Z.eqb_neq _ (addr - _))) by lia.
Qed.

(** Data memory is memory.  A store to a cell without hardware side effects is
    read back exactly, through whichever array serves the address (DARAM or the
    API RAM shared with the ARM), and changes what no other data address reads:
    not another cell, not a register, not the timer. *)
Theorem data_cell_read_after_write s addr val addr' :
  plain_cell addr = true →
  data_read (data_write s addr val) addr' = if addr' =? addr then val else data_read s addr'.
Proof. apply data_cell_write. Qed.

(** A DSP with empty memories, the stack where the ROM puts it and the API RAM
    mapped. *)
Definition c54x_zero : C54xState :=
  mkC54x 0 0 (replicate 8 0) 0 0 0x5AC8 0 0 0 0 0 0 0 0 0 0 0 0 0 (replicate 24 0) 0
         false 0 ∅ ∅ (Some ∅) [] false 0 [] (-1) 0 false false false false 0 0 0.

Lemma data_cell_read_after_write_witness :
  data_read (data_write c54x_zero 0x08D4 0x0002) 0x08D4 = 0x0002 ∧
  data_read (data_write c54x_zero 0x08D4 0x0002) MMR_SP = 0x5AC8.
Proof.
  split.
  - exact (data_cell_read_after_write c54x_zero 0x08D4 0x0002 0x08D4 eq_refl).
  - exact (data_cell_read_after_write c54x_zero 0x08D4 0x0002 MMR_SP eq_refl).
Defined.

(** ** The accumulators as three registers *)

(** Evaluate the powers of two of the goal before [mlia]. *)
Ltac pow_lia :=
  change (2 ^ 8) with 256; change (2 ^ 16) with 65536;
  change (2 ^ 32) with 4294967296; change (2 ^ 40) with 1099511627776; mlia.

Lemma acc_set_low_spec v x : 0 ≤ x < 2 ^ 16 → acc_set_low v x = v / 2 ^ 16 * 2 ^ 16 + x.
Proof.
  intros Hx. unfold acc_set_low. change 0xFFFF with (Z.ones 16).
  rewrite <- Z.ldiff_land, Z.ldiff_ones_r by lia.
  rewrite lor_shiftl_add, Z.shiftr_div_pow2 by lia. done.
Qed.

Lemma acc_set_high_spec v x : 0 ≤ x < 2 ^ 16 →
  acc_set_high v x = v / 2 ^ 32 * 2 ^ 32 + x * 2 ^ 16 + v mod 2 ^ 16.
Proof.
  intros Hx. unfold acc_set_high.
  assert (Z.land v (Z.lnot (Z.shiftl 0xFFFF 16)) =
          Z.lor (Z.shiftl (Z.shiftr v 32) 32) (Z.land v (Z.ones 16))) as ->.
  { apply Z.bits_inj'. intros n Hn.
    rewrite Z.lor_spec, !Z.land_spec, Z.lnot_spec by done. change 0xFFFF with (Z.ones 16).
    rewrite (Z.shiftl_spec (Z.ones 16)), (Z.shiftl_spec (Z.shiftr _ _)) by done.
    destruct (Z.lt_ge_cases n 16) as [?|?]; [|destruct (Z.lt_ge_cases n 32) as [?|?]].
    - rewrite (Z.testbit_neg_r _ (n - 16)), (Z.testbit_neg_r _ (n - 32)), (Z.ones_spec_low 16 n) by lia. done.
    - rewrite (Z.testbit_neg_r _ (n - 32)), (Z.ones_spec_low 16 (n - 16)), (Z.ones_spec_high 16 n) by lia.
      by rewrite !andb_false_r.
    - rewrite Z.shiftr_spec, (Z.ones_spec_high 16 n), (Z.ones_spec_high 16 (n - 16)) by lia. rewrite andb_true_r, andb_false_r, orb_false_r.
      f_equal. lia. }
  rewrite <- Z.lor_assoc, (Z.lor_comm (Z.land _ _)), Z.land_ones by lia.
  pose proof (Z.mod_pos_bound v (2 ^ 16) ltac:(lia)).
  rewrite (lor_shiftl_add x), lor_shiftl_add, Z.shiftr_div_pow2 by lia. lia.
Qed.

Lemma acc_set_guard_spec v x : 0 ≤ x →
  acc_set_guard v x = x mod 2 ^ 8 * 2 ^ 32 + v mod 2 ^ 32.
Proof.
  intros Hx. unfold acc_set_guard. change 0xFFFFFFFF with (Z.ones 32). change 0xFF with (Z.ones 8).
  pose proof (Z.mod_pos_bound v (2 ^ 32) ltac:(lia)).
  rewrite !Z.land_ones, Z.lor_comm, lor_shiftl_add by lia. done.
Qed.

(** Restoring the three saved fields restores the 40-bit value. *)
Lemma acc_restore v w :
  let al := Z.land v 0xFFFF in
  let ah := Z.land (Z.shiftr v 16) 0xFFFF in
  let ag := Z.land (Z.shiftr v 32) 0xFF in
  acc_set_guard (acc_set_high (acc_set_low w al) ah) ag = v mod 2 ^ 40.
Proof.
  cbn zeta. change 0xFFFF with (Z.ones 16). change 0xFF with (Z.ones 8).
  rewrite !Z.land_ones, !Z.shiftr_div_pow2 by lia.
  pose proof (Z.mod_pos_bound v (2 ^ 16) ltac:(lia)).
  pose proof (Z.mod_pos_bound (v / 2 ^ 16) (2 ^ 16) ltac:(lia)).
  pose proof (Z.mod_pos_bound (v / 2 ^ 32) (2 ^ 8) ltac:(lia)).
  rewrite acc_set_guard_spec, acc_set_high_spec, acc_set_low_spec by lia. pow_lia.
Qed.

(** The bits of a memory-mapped register that are implemented. *)
Definition mmr_bits (m v : Z) : Z :=
  if (m =? MMR_AG) || (m =? MMR_BG) then Z.land v 0xFF
  else if m =? MMR_XPC then Z.land v 3
  else if ((0x02 <=? m) && (m <=? 0x05)) || (m =? 0x1F) then 0
  else v.

Lemma data_write_mmr s m v : 0 ≤ m < 0x20 → data_write s m v = mmr_write s m v.
Proof.
  intros Hm. unfold data_write, data_write_locked, apm_cell, drom_lut, TCR_ADDR, TIM_ADDR, PRD_ADDR.
  rewrite !(proj2 (Z.eqb_neq m _)), !(proj2 (Z.leb_gt _ m)), (proj2 (Z.ltb_lt m 0x20)) by lia. done.
Qed.

Lemma data_read_mmr s m : 0 ≤ m < 0x20 → data_read s m = mmr_read s m.
Proof.
  intros Hm. unfold data_read, data_read_locked, TCR_ADDR, TIM_ADDR, PRD_ADDR.
  rewrite !(proj2 (Z.eqb_neq m _)), (proj2 (Z.ltb_lt m 0x20)) by lia. done.
Qed.

Lemma acc_low_read v x : 0 ≤ x < 65536 → Z.land (acc_set_low v x) 0xFFFF = x.
Proof.
  intros. rewrite acc_set_low_spec by done. change 0xFFFF with (Z.ones 16).
  rewrite Z.land_ones by lia. pow_lia.
Qed.

Lemma acc_high_read v x : 0 ≤ x < 65536 → Z.land (Z.shiftr (acc_set_high v x) 16) 0xFFFF = x.
Proof.
  intros. rewrite acc_set_high_spec by done. change 0xFFFF with (Z.ones 16).
  rewrite Z.land_ones, Z.shiftr_div_pow2 by lia.
  pose proof (Z.mod_pos_bound v (2 ^ 16) ltac:(lia)).
  replace (v / 2 ^ 32 * 2 ^ 32 + x * 2 ^ 16 + v mod 2 ^ 16)
    with ((x + v / 2 ^ 32 * 2 ^ 16) * 2 ^ 16 + v mod 2 ^ 16) by lia.
  rewrite Z.div_add_l, (Z.div_small (v mod _)), Z.add_0_r, Z.mod_add by lia.
  apply Z.mod_small. lia.
Qed.

Lemma acc_guard_read v x :
  0 ≤ x → Z.land (Z.shiftr (acc_set_guard v x) 32) 0xFF = Z.land x 0xFF.
Proof.
  intros. rewrite acc_set_guard_spec by done. change 0xFF with (Z.ones 8).
  rewrite !Z.land_ones, Z.shiftr_div_pow2 by lia. pow_lia.
Qed.

(** Register access through data space.  A store to a memory-mapped register
    reads back as the bits the register implements (eight for AG and BG, two for
    XPC, none for the reserved addresses), for every register but the
    write-one-to-clear IFR, when the two guards on IMR and SP let it through. *)
Theorem mmr_read_after_write s m v :
  0 ≤ m < 0x20 → m ≠ MMR_IFR → 0 ≤ v < 65536 → length (ar s) = 8%nat →
  (m = MMR_IMR → garde_imr s = false) → (m = MMR_SP → garde_sp s v = false) →
  data_read (data_write s m v) m = mmr_bits m v.
Proof.
  intros Hm Hifr Hv Har Gi Gs. rewrite data_write_mmr, data_read_mmr by done.
  assert (∀ k, 0 ≤ k < 8 → rd (wr (ar s) k v) k = v) as Hrw.
  { intros k Hk. apply rd_wr_eq. unfold zlen. lia. }
  revert Hifr Gi Gs. apply (range_split (λ m, m ≠ MMR_IFR → (m = MMR_IMR → garde_imr s = false) →
    (m = MMR_SP → garde_sp s v = false) → mmr_read (mmr_write s m v) m = mmr_bits m v) 32); [exact Hm|].
  forall_cases; intros Hifr Gi Gs;
    lazy -[garde_imr garde_sp acc_set_low acc_set_high acc_set_guard rd wr Z.land Z.shiftr];
    match goal with
    | |- context [garde_imr] => rewrite (Gi eq_refl); reflexivity
    | |- context [garde_sp] => rewrite (Gs eq_refl); reflexivity
    | |- context [acc_set_low] => exact (acc_low_read _ v Hv)
    | |- context [acc_set_high] => exact (acc_high_read _ v Hv)
    | |- context [acc_set_guard] => apply (acc_guard_read _ v); lia
    | |- context [wr] => apply Hrw; lia
    | |- _ => reflexivity || (exfalso; apply Hifr; reflexivity)
    end.
Qed.

Lemma mmr_read_after_write_witness :
  data_read (data_write c54x_zero MMR_AG 0x1FF) MMR_AG = 0xFF ∧
  data_read (data_write c54x_zero MMR_XPC 0x0006) MMR_XPC = 2.
Proof.
  split.
  - refine (mmr_read_after_write c54x_zero MMR_AG 0x1FF _ _ _ eq_refl _ _); easy.
  - refine (mmr_read_after_write c54x_zero MMR_XPC 6 _ _ _ eq_refl _ _); easy.
Defined.

(** A store to IFR acknowledges the interrupts whose bit it writes as one. *)
Lemma ifr_write_one_to_clear s v i :
  0 ≤ i < 16 →
  Z.testbit (ifr (data_write s MMR_IFR v)) i = Z.testbit (ifr s) i && negb (Z.testbit v i).
Proof.
  intros Hi. rewrite data_write_mmr by (unfold MMR_IFR; lia).
  change (ifr (mmr_write s MMR_IFR v)) with (Z.land (ifr s) (u16 (Z.lnot v))).
  rewrite Z.land_spec, testbit_u16, Z.lnot_spec, (proj2 (Z.ltb_lt i 16)) by lia. done.
Qed.

(** ** Program space *)
Lemma land_ffff x : Z.land x 0xFFFF = u16 x.
Proof. change 0xFFFF with (Z.ones 16). apply Z.land_ones. lia. Qed.

(** The fetch of the execution loop and the reads of the table instructions see
    the same program memory. *)
Lemma prog_fetch_read s p : prog_fetch s p = prog_read s p.
Proof. unfold prog_fetch, prog_read. by rewrite land_ffff. Qed.

(** The banked address: XPC selects one of four 64K pages. *)
Lemma prog_ext_addr x p :
  0 ≤ x < 4 → 0 ≤ p < 65536 →
  Z.land (Z.lor (Z.shiftl x 16) p) (C54X_PROG_SIZE - 1) = x * 65536 + p.
Proof.
  intros Hx Hp. rewrite lor_shiftl_add by lia. change (C54X_PROG_SIZE - 1) with (Z.ones 18).
  rewrite Z.land_ones by lia. apply Z.mod_small. lia.
Qed.

(** Program memory.  Below the fixed ROM a program store is read back in the
    same page, through the OVLY alias of data memory when the address lies in
    it; stores into the fixed ROM change nothing. *)
Theorem prog_read_after_write s addr v :
  0 ≤ xpc s < 4 →
  prog_read (prog_write s addr v) addr =
    if 0xE000 <=? u16 addr then prog_read s addr else v.
Proof.
  intros Hx. unfold prog_read, prog_write. rewrite !land_ffff.
  pose proof (u16_range addr) as Hr. generalize dependent (u16 addr). clear addr. intros p Hr.
  destruct (Z.leb_spec 0xE000 p) as [Hrom|Hram]; [done|].
  set (s2 := if 0x8000 <=? p then _ else _).
  assert (xpc s2 = xpc s ∧ pmst s2 = pmst s ∧ (in_ovly s p = true → mget (data s2) p = v)) as (Ex & Ep & Ed).
  { subst s2. destruct (0x8000 <=? p), (in_ovly s p); (split; [done|]); (split; [done|]);
      intros E; try discriminate E; cbn [data update_field]; rewrite mget_insert, Z.eqb_refl; done. }
  assert (in_ovly (s2 <| prog := <[p := v]> (prog s2) |>) p = in_ovly s p) as ->.
  { unfold in_ovly. change (pmst (s2 <| prog := _ |>)) with (pmst s2). by rewrite Ep. }
  destruct (in_ovly s p) eqn:Eo; [exact (Ed eq_refl)|].
  unfold c54x_prog_xlate. change (xpc (s2 <| prog := _ |>)) with (xpc s2). rewrite Ex.
  change (prog (s2 <| prog := <[p := v]> (prog s2) |>)) with (<[p := v]> (prog s2)).
  subst s2. destruct (Z.leb_spec 0x8000 p); cbn [andb].
  - rewrite (proj2 (Z.ltb_lt p 0xE000)) by lia. cbn [orb].
    set (e := Z.land _ _). rewrite mget_insert.
    destruct (Z.eqb_spec e p); [done|]. cbn [prog update_field]. by rewrite mget_insert, Z.eqb_refl.
  - by rewrite mget_insert, Z.eqb_refl.
Qed.

Lemma prog_read_after_write_witness :
  prog_read (prog_write (c54x_zero <| xpc := 2 |>) 0x9000 0xF495) 0x9000 = 0xF495.
Proof.
  exact (prog_read_after_write (c54x_zero <| xpc := 2 |>) 0x9000 0xF495
           ltac:(split; [discriminate|reflexivity])).
Defined.

(** A store through a banked page also lands in page 0: the page-0 word of the
    same address is lost. *)
Theorem prog_write_clobbers_page0 s addr v :
  1 ≤ xpc s < 4 → 0x8000 ≤ addr < 0xE000 →
  prog_read (prog_write s addr v <| xpc := 0 |>) addr = v.
Proof.
  intros Hx Ha. unfold prog_read, prog_write. rewrite !land_ffff, !(u16_small addr) by lia.
  rewrite (proj2 (Z.leb_gt 0xE000 addr)), (proj2 (Z.leb_le 0x8000 addr)) by lia.
  assert (∀ s', in_ovly s' addr = false) as Eo.
  { intros s'. unfold in_ovly. rewrite (proj2 (Z.ltb_ge addr 0x2800)) by lia. apply andb_false_r. }
  rewrite !Eo. unfold c54x_prog_xlate.
  rewrite (proj2 (Z.ltb_lt addr 0xE000)), (proj2 (Z.leb_le 0x8000 addr)) by lia. cbn [andb orb].
  cbn [xpc prog update_field].
  rewrite (prog_ext_addr 0), mget_insert, Z.mul_0_l, Z.add_0_l, Z.eqb_refl by lia. done.
Qed.

(** ** Widths *)
Definition word (x : Z) : Prop := 0 ≤ x < 65536.
Definition acc40 (v : Z) : Prop := - 2 ^ 39 ≤ v < 2 ^ 40.
Definition mem_ok (m : mem) : Prop := map_Forall (λ _ v, word v) m.

(** Every register holds a value of its C type, accumulators a 40-bit value
    (signed or unsigned reading), XPC one of the four pages. *)
Record wf (s : C54xState) : Prop := mkWf {
  wf_a : acc40 (a s);
  wf_b : acc40 (b s);
  wf_ar : Forall word (ar s);
  wf_ar8 : length (ar s) = 8%nat;
  wf_t : word (t s);
  wf_trn : word (trn s);
  wf_sp : word (sp s);
  wf_bk : word (bk s);
  wf_brc : word (brc s);
  wf_rsa : word (rsa s);
  wf_rea : word (rea s);
  wf_st0 : word (st0 s);
  wf_st1 : word (st1 s);
  wf_pmst : word (pmst s);
  wf_imr : word (imr s);
  wf_ifr : word (ifr s);
  wf_pc : 0 ≤ pc s < 2 ^ 32;
  wf_xpc : 0 ≤ xpc s < 4;
  wf_psc : word (timer_psc s);
  wf_dsa : word (dma_subaddr s);
  wf_dsr : Forall word (dma_subregs s);
  wf_spsa : word (spsa s);
  wf_prog : mem_ok (prog s);
  wf_data : mem_ok (data s);
  wf_api : from_option mem_ok True (api_ram s);
  wf_pm : Forall word (pm_in s);
  wf_rpt : word (rpt_count s);
  wf_dpc : word (delayed_pc s);
  wf_mvpd : word (mvpd_src s);
  wf_firs : word (firs_pm s)
}.

Lemma word_u16 x : word (u16 x).
Proof. apply u16_range. Qed.
Lemma word_0 : word 0.
Proof. unfold word; lia. Qed.
Lemma word_land x m : word m → word (Z.land x m).
Proof. unfold word. intros. pose proof (land_range x m). lia. Qed.
Lemma word_land_l x m : word x → word (Z.land x m).
Proof. rewrite Z.land_comm. apply word_land. Qed.
Lemma word_lor x y : word x → word y → word (Z.lor x y).
Proof. unfold word. intros. apply (lor_range 16); [lia|done|done]. Qed.
Lemma word_clr x m : word x → word (clr x m).
Proof. unfold word, clr. intros. apply (ldiff_range 16); [lia|done]. Qed.
Lemma word_mget m i : mem_ok m → word (mget m i).
Proof. intros H. unfold mget. destruct (m !! i) eqn:E; [by apply (H i)|apply word_0]. Qed.
Lemma mem_ok_insert m i v : word v → mem_ok m → mem_ok (<[i := v]> m).
Proof. intros. by apply map_Forall_insert_2. Qed.
Lemma word_rd l i : Forall word l → word (rd l i).
Proof. apply rd_Forall, word_0. Qed.
Lemma acc40_sext v : acc40 (sext40 v).
Proof. pose proof (sext40_range v). unfold acc40. lia. Qed.

Create HintDb c54x.
#[export] Hint Resolve word_u16 word_0 word_land word_land_l word_lor word_clr word_mget
  mem_ok_insert word_rd wr_Forall acc40_sext : c54x.

Lemma acc40_set_low v x : acc40 v → word x → acc40 (acc_set_low v x).
Proof.
  unfold acc40, word. intros. rewrite acc_set_low_spec by done.
  change (2 ^ 39) with 549755813888 in *. change (2 ^ 40) with 1099511627776 in *. pow_lia.
Qed.

Lemma acc40_set_high v x : acc40 v → word x → acc40 (acc_set_high v x).
Proof.
  unfold acc40, word. intros. rewrite acc_set_high_spec by done.
  pose proof (Z.mod_pos_bound v (2 ^ 16) ltac:(lia)).
  pose proof (Z.div_mod v (2 ^ 32) ltac:(lia)). pose proof (Z.mod_pos_bound v (2 ^ 32) ltac:(lia)).
  change (2 ^ 39) with 549755813888 in *. change (2 ^ 40) with 1099511627776 in *.
  change (2 ^ 32) with 4294967296 in *. change (2 ^ 16) with 65536 in *. lia.
Qed.

Lemma acc40_set_guard v x : word x → acc40 (acc_set_guard v x).
Proof.
  unfold acc40, word. intros. rewrite acc_set_guard_spec by lia.
  pose proof (Z.mod_pos_bound v (2 ^ 32) ltac:(lia)). pose proof (Z.mod_pos_bound x (2 ^ 8) ltac:(lia)). lia.
Qed.
#[export] Hint Resolve acc40_set_low acc40_set_high acc40_set_guard : c54x.

(** An assignment of a well-typed value to a field keeps [wf]. *)
Ltac wf_set := intros []; intros; constructor; assumption.

Lemma wf_set_a s v : wf s → acc40 v → wf (s <| a := v |>).
Proof. wf_set. Qed.
Lemma wf_set_b s v : wf s → acc40 v → wf (s <| b := v |>).
Proof. wf_set. Qed.
Lemma wf_set_ar s v : wf s → Forall word v → length v = 8%nat → wf (s <| ar := v |>).
Proof. wf_set. Qed.
Lemma wf_set_t s v : wf s → word v → wf (s <| t := v |>).
Proof. wf_set. Qed.
Lemma wf_set_trn s v : wf s → word v → wf (s <| trn := v |>).
Proof. wf_set. Qed.
Lemma wf_set_sp s v : wf s → word v → wf (s <| sp := v |>).
Proof. wf_set. Qed.
Lemma wf_set_bk s v : wf s → word v → wf (s <| bk := v |>).
Proof. wf_set. Qed.
Lemma wf_set_brc s v : wf s → word v → wf (s <| brc := v |>).
Proof. wf_set. Qed.
Lemma wf_set_rsa s v : wf s → word v → wf (s <| rsa := v |>).
Proof. wf_set. Qed.
Lemma wf_set_rea s v : wf s → word v → wf (s <| rea := v |>).
Proof. wf_set. Qed.
Lemma wf_set_st0 s v : wf s → word v → wf (s <| st0 := v |>).
Proof. wf_set. Qed.
Lemma wf_set_st1 s v : wf s → word v → wf (s <| st1 := v |>).
Proof. wf_set. Qed.
Lemma wf_set_pmst s v : wf s → word v → wf (s <| pmst := v |>).
Proof. wf_set. Qed.
Lemma wf_set_imr s v : wf s → word v → wf (s <| imr := v |>).
Proof. wf_set. Qed.
Lemma wf_set_ifr s v : wf s → word v → wf (s <| ifr := v |>).
Proof. wf_set. Qed.
Lemma wf_set_pc s v : wf s → 0 ≤ v < 2 ^ 32 → wf (s <| pc := v |>).
Proof. wf_set. Qed.
Lemma wf_set_xpc s v : wf s → 0 ≤ v < 4 → wf (s <| xpc := v |>).
Proof. wf_set. Qed.
Lemma wf_set_timer_psc s v : wf s → word v → wf (s <| timer_psc := v |>).
Proof. wf_set. Qed.
Lemma wf_set_dma_subaddr s v : wf s → word v → wf (s <| dma_subaddr := v |>).
Proof. wf_set. Qed.
Lemma wf_set_dma_subregs s v : wf s → Forall word v → wf (s <| dma_subregs := v |>).
Proof. wf_set. Qed.
Lemma wf_set_spsa s v : wf s → word v → wf (s <| spsa := v |>).
Proof. wf_set. Qed.
Lemma wf_set_lk_used s v : wf s → wf (s <| lk_used := v |>).
Proof. wf_set. Qed.
Lemma wf_set_delay_slots s v : wf s → wf (s <| delay_slots := v |>).
Proof. wf_set. Qed.
Lemma wf_set_prog s v : wf s → mem_ok v → wf (s <| prog := v |>).
Proof. wf_set. Qed.
Lemma wf_set_data s v : wf s → mem_ok v → wf (s <| data := v |>).
Proof. wf_set. Qed.
Lemma wf_set_api_ram s v : wf s → from_option mem_ok True v → wf (s <| api_ram := v |>).
Proof. wf_set. Qed.
Lemma wf_set_api_cb s v : wf s → wf (s <| api_cb := v |>).
Proof. wf_set. Qed.
Lemma wf_set_idle s v : wf s → wf (s <| idle := v |>).
Proof. wf_set. Qed.
Lemma wf_set_insn_count s v : wf s → wf (s <| insn_count := v |>).
Proof. wf_set. Qed.
Lemma wf_set_pm_in s v : wf s → Forall word v → wf (s <| pm_in := v |>).
Proof. wf_set. Qed.
Lemma wf_set_air_dpm s v : wf s → wf (s <| air_dpm := v |>).
Proof. wf_set. Qed.
Lemma wf_set_rpt_count s v : wf s → word v → wf (s <| rpt_count := v |>).
Proof. wf_set. Qed.
Lemma wf_set_rpt_active s v : wf s → wf (s <| rpt_active := v |>).
Proof. wf_set. Qed.
Lemma wf_set_rpt_fresh s v : wf s → wf (s <| rpt_fresh := v |>).
Proof. wf_set. Qed.
Lemma wf_set_par_set s v : wf s → wf (s <| par_set := v |>).
Proof. wf_set. Qed.
Lemma wf_set_rptb_active s v : wf s → wf (s <| rptb_active := v |>).
Proof. wf_set. Qed.
Lemma wf_set_delayed_pc s v : wf s → word v → wf (s <| delayed_pc := v |>).
Proof. wf_set. Qed.
Lemma wf_set_mvpd_src s v : wf s → word v → wf (s <| mvpd_src := v |>).
Proof. wf_set. Qed.
Lemma wf_set_firs_pm s v : wf s → word v → wf (s <| firs_pm := v |>).
Proof. wf_set. Qed.

Lemma length_wr_8 l i v : length l = 8%nat → length (wr l i v) = 8%nat.
Proof. by rewrite length_wr. Qed.
Lemma pow32_word v : word v → 0 ≤ v < 2 ^ 32.
Proof. unfold word. lia. Qed.
Lemma xpc_land3 v : 0 ≤ Z.land v 3 < 4.
Proof. pose proof (land_range v 3). lia. Qed.
#[export] Hint Resolve wf_set_a wf_set_b wf_set_ar wf_set_t wf_set_trn wf_set_sp wf_set_bk wf_set_brc wf_set_rsa wf_set_rea wf_set_st0 wf_set_st1 wf_set_pmst wf_set_imr wf_set_ifr wf_set_pc wf_set_xpc wf_set_timer_psc wf_set_dma_subaddr wf_set_dma_subregs wf_set_spsa wf_set_lk_used wf_set_delay_slots wf_set_prog wf_set_data wf_set_api_ram wf_set_api_cb wf_set_idle wf_set_insn_count wf_set_pm_in wf_set_air_dpm wf_set_rpt_count wf_set_rpt_active wf_set_rpt_fresh wf_set_par_set wf_set_rptb_active wf_set_delayed_pc wf_set_mvpd_src wf_set_firs_pm : c54x.
#[export] Hint Resolve length_wr_8 pow32_word xpc_land3 : c54x.
#[export] Hint Resolve wf_a wf_b wf_ar wf_ar8 wf_t wf_trn wf_sp wf_bk wf_brc wf_rsa wf_rea wf_st0 wf_st1
  wf_pmst wf_imr wf_ifr wf_pc wf_xpc wf_psc wf_dsa wf_dsr wf_spsa wf_prog wf_data wf_api wf_pm wf_rpt wf_dpc wf_mvpd wf_firs : c54x.
#[export] Hint Extern 1 (length _ = 8%nat) => apply wf_ar8 : c54x.

Lemma wf_zero : wf c54x_zero.
Proof.
  constructor; unfold acc40, word; cbn; try lia; try apply map_Forall_empty;
    repeat apply Forall_cons_2; try apply Forall_nil_2; lia.
Qed.
#[export] Hint Resolve wf_zero : c54x.

Lemma word_mmr_read s m : wf s → word (mmr_read s m).
Proof.
  intros []. unfold mmr_read.
  repeat (case_if; [solve [auto with c54x|apply word_land; unfold word; lia|unfold word in *; lia]|]).
  apply word_0.
Qed.

Lemma word_tcr_read s : wf s → word (tcr_read s).
Proof.
  intros []. unfold tcr_read. apply word_lor; [auto with c54x|].
  pose proof (land_range (timer_psc s) 0xF ltac:(lia)). unfold word, TCR_PSC_SHIFT.
  rewrite Z.shiftl_mul_pow2 by lia. lia.
Qed.

Lemma word_data_read s addr : wf s → word (data_read s addr).
Proof.
  intros H. pose proof (word_mmr_read s addr H). pose proof (word_tcr_read s H). destruct H.
  unfold data_read, data_read_locked. case_ifs; auto with c54x.
  destruct (api_ram s); auto with c54x.
Qed.

Lemma word_prog_fetch s p : wf s → word (prog_fetch s p).
Proof. intros []. unfold prog_fetch. case_if; auto with c54x. Qed.
#[export] Hint Resolve word_data_read word_prog_fetch : c54x.

Lemma wf_mmr_write s m v : wf s → word v → wf (mmr_write s m v).
Proof.
  intros H Hv. unfold mmr_write.
  repeat (case_if; [solve [repeat case_if; eauto 8 with c54x]|]). exact H.
Qed.

Lemma wf_tcr_write s v : wf s → word v → wf (tcr_write s v).
Proof.
  intros H Hv. unfold tcr_write.
  assert (wf (if has v TCR_TRB then s <| data := <[TIM_ADDR := mget (data s) PRD_ADDR]> (data s) |>
     <| timer_psc := Z.land v TCR_TDDR_MASK |> else s)) by (case_if; eauto 8 with c54x).
  eauto 8 with c54x.
Qed.

Lemma wf_dms_write s addr v : wf s → word v → wf (dms_write s addr v).
Proof.
  intros H Hv. unfold dms_write.
  assert (wf (if dma_subaddr s <? 24 then s <| dma_subregs := wr (dma_subregs s) (dma_subaddr s) v |> else s))
    by (case_if; eauto 8 with c54x).
  case_if; eauto 8 with c54x.
Qed.

Lemma wf_api_write s addr v : wf s → word v → wf (api_write s addr v).
Proof.
  intros H Hv. apply wf_set_api_cb, wf_set_api_ram; [done|].
  pose proof (wf_api _ H). destruct (api_ram s); cbn in *; auto with c54x.
Qed.
#[export] Hint Resolve wf_tcr_write wf_dms_write wf_api_write wf_mmr_write : c54x.

Lemma wf_data_write_locked s addr v : wf s → word v → wf (data_write_locked s addr v).
Proof.
  intros H Hv. unfold data_write_locked. pose proof (wf_api_write s addr v H Hv).
  repeat (case_if; [solve [repeat case_if; eauto 8 with c54x]|]).
  destruct (in_api addr); eauto 8 with c54x.
Qed.

Lemma wf_data_write s addr v : wf s → word v → wf (data_write s addr v).
Proof.
  intros H Hv. pose proof (wf_pm _ H) as Hp. unfold data_write, calypso_bsp_air_dpm.
  assert (Forall word (tail (pm_in s)) ∧ word (default 0 (head (pm_in s)))) as [Ht Hh].
  { destruct Hp; split; [done|apply word_0|done|done]. }
  destruct (apm_cell addr); apply wf_data_write_locked; [auto with c54x| |done|];
    repeat case_if; auto with c54x.
Qed.

Lemma wf_prog_write s addr v : wf s → word v → wf (prog_write s addr v).
Proof.
  intros H Hv. unfold prog_write. set (p := Z.land addr 0xFFFF). case_if; [done|].
  assert (wf (if in_ovly s p then s <| data := <[p := v]> (data s) |> else s)) as H1
    by (case_if; eauto 8 with c54x).
  revert H1. generalize (if in_ovly s p then s <| data := <[p := v]> (data s) |> else s). intros s1 H1.
  case_if; eauto 10 with c54x.
Qed.
#[export] Hint Resolve wf_data_write wf_prog_write : c54x.

End C54xState.
