(* ===== verification/C54xDecode.v ===== *)
(** * Operand decode and conditions of the C54x DSP
    ([hw/arm/calypso/l1-dsp/c54x_decode.c], [c54x_mem.c])

    The address generation of the single ([Smem]), long ([Lmem]), dual
    ([Xmem]) and register ([MMR]) operands with the auxiliary-register
    post-modification each mode makes, and the condition codes of the
    conditional instructions.  An operand decode returns the address and the
    state after the register updates. *)
From S2P Require Import Prelude C54xAddr C54xState.

Module C54xDecode.
Import C54xAddr C54xState.

Definition arx (s : C54xState) (n : Z) : Z := rd (ar s) n.
Definition set_ar (s : C54xState) (n v : Z) : C54xState := s <| ar := wr (ar s) n v |>.

Definition set_arp (s : C54xState) (nar : Z) : C54xState :=
  s <| st0 := Z.lor (clr (st0 s) ST0_ARP_MASK) (Z.shiftl nar ST0_ARP_SHIFT) |>.

Definition resolve_mmr (s : C54xState) (opcode : Z) : Z * C54xState :=
  if negb (has opcode 0x80) then (Z.land opcode 0x7F, s)
  else
    let nar := Z.land opcode 0x07 in
    let mod_ := Z.land (Z.shiftr opcode 3) 0x0F in
    let '(nar, s) :=
      if has (st1 s) ST1_CMPT && (nar =? 0) then (arp s, s)
      else if has (st1 s) ST1_CMPT then (nar, set_arp s nar)
      else (nar, s) in
    let addr := Z.land (arx s nar) 0x7F in
    let d := if mod_ =? 0x1 then -1 else if mod_ =? 0x2 then 1 else 0 in
    (addr, set_ar s nar (u16 (addr + d))).

(** The long-immediate word that follows the instruction. *)
Definition lk_word (s : C54xState) : Z := prog_fetch s (pc s + 1).

(** The post-modification switch of [resolve_smem] ([unit] = 1) and of
    [resolve_lmem] ([unit] = 2): address of the operand and new state. *)
Definition ar_modify (s : C54xState) (unit mod_ n : Z) : Z * C54xState :=
  let addr := arx s n in
  let ar0 := arx s 0 in
  if mod_ =? 0x0 then (addr, s)
  else if mod_ =? 0x1 then (addr, set_ar s n (u16 (addr - unit)))
  else if mod_ =? 0x2 then (addr, set_ar s n (u16 (addr + unit)))
  else if mod_ =? 0x3 then (u16 (addr + unit), set_ar s n (u16 (addr + unit)))
  else if mod_ =? 0x4 then (addr, set_ar s n (c54x_revcarry addr ar0 true))
  else if mod_ =? 0x5 then (addr, set_ar s n (u16 (addr - ar0)))
  else if mod_ =? 0x6 then (addr, set_ar s n (u16 (addr + ar0)))
  else if mod_ =? 0x7 then (addr, set_ar s n (c54x_revcarry addr ar0 false))
  else if mod_ =? 0x8 then (addr, set_ar s n (c54x_circ_ref addr (- unit) (bk s)))
  else if mod_ =? 0x9 then (addr, set_ar s n (c54x_circ_ref addr (- i16 ar0) (bk s)))
  else if mod_ =? 0xA then (addr, set_ar s n (c54x_circ_ref addr unit (bk s)))
  else if mod_ =? 0xB then (addr, set_ar s n (c54x_circ_ref addr (i16 ar0) (bk s)))
  else if mod_ =? 0xC then (u16 (addr + lk_word s), s <| lk_used := true |>)
  else if mod_ =? 0xD then
    let v := u16 (addr + lk_word s) in (v, set_ar s n v <| lk_used := true |>)
  else if mod_ =? 0xE then
    let v := c54x_circ_ref addr (i16 (lk_word s)) (bk s) in (v, set_ar s n v <| lk_used := true |>)
  else (lk_word s, s <| lk_used := true |>).

(** Direct addressing: page DP, or relative to SP in compiler mode. *)
Definition direct_addr (s : C54xState) (opcode : Z) : Z :=
  let offset := Z.land opcode 0x7F in
  if has (st1 s) ST1_CPL then u16 (sp s + offset) else Z.lor (Z.shiftl (dp s) 7) offset.

Definition resolve_smem (s : C54xState) (opcode : Z) : Z * C54xState :=
  if has opcode 0x80 then
    let mod_ := Z.land (Z.shiftr opcode 3) 0x0F in
    let nar := Z.land opcode 0x07 in
    let cmpt_ar0 := has (st1 s) ST1_CMPT && (nar =? 0) in
    let cur_arp := if cmpt_ar0 then arp s else nar in
    let '(addr, s1) := ar_modify s 1 mod_ cur_arp in
    (addr, if has (st1 s1) ST1_CMPT && negb cmpt_ar0 then set_arp s1 nar else s1)
  else (direct_addr s opcode, s).

Definition resolve_lmem (s : C54xState) (opcode : Z) : Z * C54xState :=
  if negb (has opcode 0x80) then (direct_addr s opcode, s)
  else ar_modify s 2 (Z.land (Z.shiftr opcode 3) 0x0F) (Z.land opcode 0x07).

(** Dual operands: AR2..AR5, four modes. *)
Definition c54x_par_postmod (s : C54xState) (n mod_ : Z) : C54xState :=
  if mod_ =? 1 then set_ar s n (u16 (arx s n - 1))
  else if mod_ =? 2 then set_ar s n (u16 (arx s n + 1))
  else if mod_ =? 3 then set_ar s n (c54x_circ_ref (arx s n) (i16 (arx s 0)) (bk s))
  else s.

Definition resolve_xmem (s : C54xState) (op : Z) : Z * C54xState :=
  let xmem := Z.land (Z.shiftr op 4) 0xF in
  let xar := Z.land xmem 0x3 + 2 in
  let xmod := Z.shiftr (Z.land xmem 0xC) 2 in
  let addr := arx s xar in
  (addr,
   if xmod =? 1 then set_ar s xar (u16 (addr - 1))
   else if xmod =? 2 then set_ar s xar (u16 (addr + 1))
   else if xmod =? 3 then set_ar s xar (c54x_circ_ref addr (i16 (arx s 0)) (bk s))
   else s).

(** ** Conditions *)
Definition c54x_cond_true (s : C54xState) (cc : Z) : bool * C54xState :=
  if cc =? 0x00 then (true, s)
  else if has cc 0x40 then
    let acc := if has cc 0x08 then sext40 (b s) else sext40 (a s) in
    let ovbit := if has cc 0x08 then Z.shiftl 1 9 else Z.shiftl 1 8 in
    let ov := has (st0 s) ovbit in
    if Z.land cc 0x70 =? 0x70 then (ov, s <| st0 := clr (st0 s) ovbit |>)
    else if Z.land cc 0x70 =? 0x60 then (negb ov, s <| st0 := clr (st0 s) ovbit |>)
    else
      let c3 := Z.land cc 0x07 in
      (if c3 =? 0x05 then acc =? 0
       else if c3 =? 0x04 then negb (acc =? 0)
       else if c3 =? 0x03 then acc <? 0
       else if c3 =? 0x07 then acc <=? 0
       else if c3 =? 0x06 then 0 <? acc
       else if c3 =? 0x02 then 0 <=? acc
       else true, s)
  else
    let tc := has (st0 s) ST0_TC in
    let c := has (st0 s) ST0_C in
    (implb (Z.land cc 0x30 =? 0x30) tc &&
     implb (Z.land cc 0x30 =? 0x20) (negb tc) &&
     implb (Z.land cc 0x0C =? 0x0C) c &&
     implb (Z.land cc 0x0C =? 0x08) (negb c) &&
     negb (Z.land cc 0x03 =? 0x03), s).

(** The condition field of [XC], which [c54x_exec_one] evaluates itself. *)
Definition xc_cond (s : C54xState) (cc : Z) : bool * C54xState :=
  let c := has (st0 s) ST0_C in
  let tc := has (st0 s) ST0_TC in
  if cc =? 0x00 then (true, s)
  else if cc =? 0x0C then (c, s)
  else if cc =? 0x08 then (negb c, s)
  else if cc =? 0x30 then (tc, s)
  else if cc =? 0x20 then (negb tc, s)
  else if cc =? 0x45 then (sext40 (a s) =? 0, s)
  else if cc =? 0x44 then (negb (sext40 (a s) =? 0), s)
  else if cc =? 0x46 then (0 <? sext40 (a s), s)
  else if cc =? 0x42 then (0 <=? sext40 (a s), s)
  else if cc =? 0x43 then (sext40 (a s) <? 0, s)
  else if cc =? 0x47 then (sext40 (a s) <=? 0, s)
  else if cc =? 0x4D then (sext40 (b s) =? 0, s)
  else if cc =? 0x4C then (negb (sext40 (b s) =? 0), s)
  else if cc =? 0x4E then (0 <? sext40 (b s), s)
  else if cc =? 0x4A then (0 <=? sext40 (b s), s)
  else if cc =? 0x4B then (sext40 (b s) <? 0, s)
  else if cc =? 0x4F then (sext40 (b s) <=? 0, s)
  else if cc =? 0x70 then (has (st0 s) ST0_OVA, s <| st0 := clr (st0 s) ST0_OVA |>)
  else if cc =? 0x60 then (negb (has (st0 s) ST0_OVA), s <| st0 := clr (st0 s) ST0_OVA |>)
  else if cc =? 0x78 then (has (st0 s) ST0_OVB, s <| st0 := clr (st0 s) ST0_OVB |>)
  else if cc =? 0x68 then (negb (has (st0 s) ST0_OVB), s <| st0 := clr (st0 s) ST0_OVB |>)
  else
    let acc := sext40 (if has cc 0x08 then b s else a s) in
    let c3 := Z.land cc 0x07 in
    let r := has cc 0x0C && (if has cc 0x04 then c else negb c) in
    let r := r || has cc 0x30 && (if has cc 0x10 then tc else negb tc) in
    let r :=
      if has cc 0x40 then
        if c3 =? 0x5 then r || (acc =? 0)
        else if c3 =? 0x4 then r || negb (acc =? 0)
        else if c3 =? 0x6 then r || (0 <? acc)
        else if c3 =? 0x2 then r || (0 <=? acc)
        else if c3 =? 0x3 then r || (acc <? 0)
        else if c3 =? 0x7 then r || (acc <=? 0)
        else true
      else r in
    (r || has cc 0x70 && negb (has cc 0x40) &&
       (if has cc 0x08 then has (st0 s) ST0_OVB else has (st0 s) ST0_OVA), s).

(** ** Auxiliary registers *)
Lemma arx_set_ar s n m v :
  length (ar s) = 8%nat → 0 ≤ n < 8 → 0 ≤ m → arx (set_ar s n v) m = if m =? n then v else arx s m.
Proof.
  intros Hl Hn Hm. change (rd (wr (ar s) n v) m = if m =? n then v else rd (ar s) m).
  apply rd_wr; [unfold zlen; lia|done].
Qed.

Lemma wf_put_ar s n v : wf s → word v → wf (set_ar s n v).
Proof. intros H Hv. unfold set_ar. pose proof (wf_ar8 _ H). eauto with c54x. Qed.

Lemma word_arx s n : wf s → word (arx s n).
Proof. intros. apply word_rd. by apply wf_ar. Qed.

Lemma word_circ_ref x st k : word (c54x_circ_ref x st k).
Proof. unfold c54x_circ_ref. case_if; apply word_u16. Qed.

Lemma word_revcarry x y z : word (c54x_revcarry x y z).
Proof. apply bitrev16_range. Qed.

Lemma word_lk s : wf s → word (lk_word s).
Proof. apply word_prog_fetch. Qed.
#[export] Hint Resolve wf_put_ar word_arx word_circ_ref word_revcarry word_lk : c54x.

Lemma wf_set_arp s n : wf s → 0 ≤ n < 8 → wf (set_arp s n).
Proof.
  intros H Hn. unfold set_arp. apply wf_set_st0; [done|]. apply word_lor; [auto with c54x|].
  unfold word, ST0_ARP_SHIFT. rewrite Z.shiftl_mul_pow2 by lia. lia.
Qed.
#[export] Hint Resolve wf_set_arp : c54x.

(** Every mode of the address generator keeps the state well typed and yields
    a 16-bit address. *)
Lemma wf_ar_modify s u m n :
  wf s → word (fst (ar_modify s u m n)) ∧ wf (snd (ar_modify s u m n)).
Proof.
  intros H. unfold ar_modify.
  repeat (case_if; [solve [split; cbn [fst snd]; eauto 8 with c54x]|]).
  split; cbn [fst snd]; eauto 8 with c54x.
Qed.

Lemma nar_range x : 0 ≤ Z.land x 7 < 8.
Proof. pose proof (land_range x 7). lia. Qed.
#[export] Hint Resolve nar_range : c54x.

Lemma word_direct_addr s op : wf s → word (direct_addr s op).
Proof.
  intros H. unfold direct_addr. case_if; [auto with c54x|].
  pose proof (land_range (st0 s) ST0_DP_MASK ltac:(unfold ST0_DP_MASK; lia)).
  pose proof (land_range op 0x7F ltac:(lia)). unfold dp, word, ST0_DP_MASK in *.
  rewrite lor_shiftl_add by lia. lia.
Qed.

Lemma wf_resolve_smem s op :
  wf s → word (fst (resolve_smem s op)) ∧ wf (snd (resolve_smem s op)).
Proof.
  intros H. unfold resolve_smem. destruct (has op 0x80); [|split; [by apply word_direct_addr|done]].
  match goal with |- context [ar_modify s 1 ?m ?n] =>
    pose proof (wf_ar_modify s 1 m n H) as [Ha Hs]; destruct (ar_modify s 1 m n) as [addr s1] end.
  cbn [fst snd] in *. split; [done|].
  case_if; auto with c54x.
Qed.

Lemma wf_resolve_lmem s op :
  wf s → word (fst (resolve_lmem s op)) ∧ wf (snd (resolve_lmem s op)).
Proof.
  intros H. unfold resolve_lmem. destruct (has op 0x80); cbn [negb]; [by apply wf_ar_modify|].
  split; [by apply word_direct_addr|done].
Qed.

Lemma wf_resolve_xmem s op :
  wf s → word (fst (resolve_xmem s op)) ∧ wf (snd (resolve_xmem s op)).
Proof.
  intros H. unfold resolve_xmem. cbn [fst snd]. split; [auto with c54x|].
  repeat case_if; auto with c54x.
Qed.

Lemma wf_par_postmod s n m : wf s → wf (c54x_par_postmod s n m).
Proof.
  intros. unfold c54x_par_postmod. repeat case_if; auto using wf_put_ar, word_circ_ref with c54x.
Qed.
#[export] Hint Resolve wf_par_postmod : c54x.

Lemma wf_resolve_mmr s op :
  wf s → word (fst (resolve_mmr s op)) ∧ wf (snd (resolve_mmr s op)).
Proof.
  intros H. assert (word 0x7F) by (unfold word; lia). unfold resolve_mmr.
  destruct (has op 0x80); cbn [negb]; [|split; cbn [fst snd]; auto with c54x].
  destruct (_ && _); [split; cbn [fst snd]; auto with c54x|].
  destruct (has (st1 s) ST1_CMPT); split; cbn [fst snd]; auto with c54x.
Qed.

(** ** Streams of operands *)

(** The addresses of [n] successive executions of an instruction whose Smem
    field is [op] (the body of an RPT loop). *)
Fixpoint operand_stream (s : C54xState) (op : Z) (n : nat) : list Z :=
  match n with
  | O => []
  | S n => let '(addr, s') := resolve_smem s op in addr :: operand_stream s' op n
  end.

Lemma operand_stream_iter (f : Z → Z) (Inv : C54xState → Prop) op k s n :
  (∀ s, Inv s → length (ar s) = 8%nat ∧ resolve_smem s op = (arx s k, set_ar s k (f (arx s k))) ∧
                Inv (set_ar s k (f (arx s k)))) →
  0 ≤ k < 8 → Inv s →
  operand_stream s op n = map (λ i, Nat.iter i f (arx s k)) (seq 0 n).
Proof.
  intros Hstep Hk. revert s. induction n as [|n IH]; intros s Hs; [done|].
  destruct (Hstep s Hs) as (Hl & E & Hs'). cbn [operand_stream]. rewrite E, (IH _ Hs').
  rewrite arx_set_ar, Z.eqb_refl by lia. cbn [seq map]. f_equal.
  rewrite <- seq_shift, map_map. apply map_ext. intros i. by rewrite Nat.iter_succ_r.
Qed.

(** Decode of an indirect operand in native mode. *)
Lemma resolve_smem_native s m k :
  has (st1 s) ST1_CMPT = false → 0 ≤ m < 16 → 0 ≤ k < 8 →
  resolve_smem s (0x80 + m * 8 + k) = ar_modify s 1 m k.
Proof.
  intros Hc Hm Hk. unfold resolve_smem.
  assert (has (0x80 + m * 8 + k) 0x80 = true ∧ Z.land (Z.shiftr (0x80 + m * 8 + k) 3) 0x0F = m ∧
          Z.land (0x80 + m * 8 + k) 0x07 = k) as (-> & -> & ->).
  { change 0x0F with (Z.ones 4). change 0x07 with (Z.ones 3).
    rewrite !Z.land_ones, Z.shiftr_div_pow2 by lia.
    change 0x80 with (Z.shiftl 1 7) at 2. rewrite has_bit, Z.testbit_eqb by lia.
    rewrite Z.eqb_eq. split_and!; mlia. }
  rewrite Hc. cbn [andb]. destruct (ar_modify s 1 m k) as [addr s1] eqn:E.
  assert (st1 s1 = st1 s) as ->; [|by rewrite Hc].
  change s1 with (snd (addr, s1)). rewrite <- E. clear E. unfold ar_modify. repeat (case_if; [reflexivity|]). done.
Qed.

(** Circular operands.  In native mode, [n] executions of an instruction with
    operand [*ARk+%] access the words of the circular buffer of BK words around
    ARk in order, wrapping at the end of the buffer: access [i] is at index
    [(start + i) mod BK] of the buffer based on the 2^N boundary. *)
Theorem circular_operand_stream s k n :
  wf s → has (st1 s) ST1_CMPT = false → 0 ≤ k < 8 →
  0 < bk s → arx s k mod circ_window (bk s) < bk s →
  let base := arx s k - arx s k mod circ_window (bk s) in
  operand_stream s (0x80 + 0xA * 8 + k) n =
    map (λ i, base + (arx s k mod circ_window (bk s) + Z.of_nat i) mod bk s) (seq 0 n).
Proof.
  intros Hw Hc Hk Hb Hin base.
  rewrite (operand_stream_iter (λ x, c54x_circ_ref x 1 (bk s))
             (λ s', wf s' ∧ has (st1 s') ST1_CMPT = false ∧ bk s' = bk s) _ k); [|clear -Hk|done|done].
  - apply map_ext. intros i. pose proof (word_arx s k Hw) as Hr. pose proof (wf_bk _ Hw) as Hbw.
    unfold word in *. destruct (circular_buffer_walk (arx s k) 1 (bk s) i) as (E & _ & _); try lia.
    unfold circ_walk in E. rewrite E. unfold base. do 2 f_equal. lia.
  - intros s' (Hw' & Hc' & Hb'). split; [by apply wf_ar8|]. split.
    + rewrite resolve_smem_native by lia || done. by rewrite <- Hb'.
    + split; [auto with c54x|done].
Qed.

(** The DMA request queue of the firmware, BK = 14 at 0x4340 (not a multiple
    of 14). *)
Lemma circular_operand_stream_witness :
  let s := set_ar (c54x_zero <| bk := 14 |>) 2 0x434C in
  operand_stream s 0xD2 4 = [0x434C; 0x434D; 0x4340; 0x4341].
Proof.
  refine (circular_operand_stream (set_ar (c54x_zero <| bk := 14 |>) 2 0x434C) 2 4 _ _ _ _ _);
    [|reflexivity|lia|reflexivity|reflexivity].
  assert (∀ x, 0 ≤ x < 65536 → word x) as W by done. repeat apply wf_put_ar; auto using wf_zero, wf_set_bk;
    try apply wf_set_bk; auto using wf_zero; apply W; lia.
Defined.

(** bit-reversed operands.  With AR0 = N/2, [*ARk+0B] accesses a block of
    N = 2^m words aligned on N in bit-reversed order, the order an N-point FFT
    needs: access [i] is at offset [rev_bits m i]. *)
Theorem fft_operand_stream s k m n :
  wf s → has (st1 s) ST1_CMPT = false → 1 ≤ k < 8 → (1 ≤ m ≤ 16)%nat →
  arx s 0 = 2 ^ (Z.of_nat m - 1) → arx s k mod 2 ^ Z.of_nat m = 0 →
  Z.of_nat n ≤ 2 ^ Z.of_nat m →
  operand_stream s (0x80 + 0x7 * 8 + k) n =
    map (λ i, arx s k + rev_bits m (Z.of_nat i)) (seq 0 n).
Proof.
  intros Hw Hc Hk Hm H0 Hal Hn.
  rewrite (operand_stream_iter (λ x, c54x_revcarry x (arx s 0) false)
             (λ s', wf s' ∧ has (st1 s') ST1_CMPT = false ∧ arx s' 0 = arx s 0) _ k); [|clear -Hk|lia|done].
  - rewrite H0. apply map_ext_in. intros i Hi. apply in_seq in Hi.
    pose proof (word_arx s k Hw) as Hr. unfold word in Hr.
    destruct (fft_bit_reversal m (arx s k) (Z.of_nat i)) as [E _]; try lia.
    unfold revcarry_walk in E. by rewrite Nat2Z.id in E.
  - intros s' (Hw' & Hc' & H0'). split; [by apply wf_ar8|]. split.
    + rewrite resolve_smem_native by lia || done. by rewrite <- H0'.
    + split; [auto with c54x|split; [done|]].
      rewrite arx_set_ar by (apply wf_ar8, Hw' || lia). by rewrite (proj2 (Z.eqb_neq 0 k)) by lia.
Qed.

Lemma fft_operand_stream_witness :
  let s := set_ar (set_ar c54x_zero 0 4) 2 0x2C00 in
  operand_stream s 0xBA 8 =
    [0x2C00; 0x2C04; 0x2C02; 0x2C06; 0x2C01; 0x2C05; 0x2C03; 0x2C07].
Proof.
  refine (fft_operand_stream (set_ar (set_ar c54x_zero 0 4) 2 0x2C00) 2 3 8 _ _ _ _ _ _ _);
    [|reflexivity|lia|lia|reflexivity|reflexivity|vm_compute; discriminate].
  assert (∀ x, 0 ≤ x < 65536 → word x) as W by done. repeat apply wf_put_ar; auto using wf_zero, wf_set_bk;
    try apply wf_set_bk; auto using wf_zero; apply W; lia.
Defined.

(** ** Conditions *)

(** The condition codes of the instruction set that test one thing, the
    overflow of accumulator A apart. *)
Definition single_conditions : list Z :=
  [0x00; 0x0C; 0x08; 0x30; 0x20; 0x45; 0x44; 0x46; 0x42; 0x43; 0x47;
   0x4D; 0x4C; 0x4E; 0x4A; 0x4B; 0x4F; 0x78; 0x68].

Definition complementary : list (Z * Z) :=
  [(0x0C, 0x08); (0x30, 0x20); (0x45, 0x44); (0x46, 0x47); (0x42, 0x43);
   (0x4D, 0x4C); (0x4E, 0x4F); (0x4A, 0x4B); (0x70, 0x60); (0x78, 0x68)].

(** The two condition evaluators of the core, the one of [XC] and
    [c54x_cond_true] of the conditional branches and calls, agree on every
    single condition other than AOV/ANOV, status updates included; and of two
    complementary conditions exactly one holds. *)
Theorem conditions_agree s :
  Forall (λ cc, xc_cond s cc = c54x_cond_true s cc) single_conditions ∧
  Forall (λ p, fst (c54x_cond_true s (fst p)) = negb (fst (c54x_cond_true s (snd p)))) complementary.
Proof.
  split; repeat apply Forall_cons_2; try apply Forall_nil_2; unfold xc_cond, c54x_cond_true;
    destruct (has (st0 s) ST0_C), (has (st0 s) ST0_TC);
    first [reflexivity|exact (Z.ltb_antisym _ _)|exact (Z.leb_antisym _ _)|exact (eq_sym (negb_involutive _))].
Qed.

(** The AOV and ANOV conditions of branches and calls do not look at the
    overflow flag of accumulator A (ST0 bit 10): they test bit 8 of ST0, the top
    bit of the data page DP, and clear it, so the test moves the data page to
    the lower half of memory and leaves OVA as it was.  XC, which has its own
    evaluator, tests and clears OVA. *)
Theorem cond_aov_tests_dp s :
  fst (c54x_cond_true s 0x70) = Z.testbit (dp s) 8 ∧
  dp (snd (c54x_cond_true s 0x70)) = dp s mod 256 ∧
  has (st0 (snd (c54x_cond_true s 0x70))) ST0_OVA = has (st0 s) ST0_OVA ∧
  fst (xc_cond s 0x70) = has (st0 s) ST0_OVA ∧
  has (st0 (snd (xc_cond s 0x70))) ST0_OVA = false.
Proof.
  change (fst (c54x_cond_true s 0x70)) with (has (st0 s) (Z.shiftl 1 8)).
  change (st0 (snd (c54x_cond_true s 0x70))) with (clr (st0 s) (Z.shiftl 1 8)).
  change (st0 (snd (xc_cond s 0x70))) with (clr (st0 s) ST0_OVA).
  unfold dp at 2. change (st0 (snd (c54x_cond_true s 0x70))) with (clr (st0 s) (Z.shiftl 1 8)).
  split_and!.
  - rewrite has_bit by lia. unfold dp, ST0_DP_MASK. rewrite Z.land_spec. by rewrite andb_true_r.
  - unfold dp. apply Z.bits_inj'. intros n Hn. change 256 with (2 ^ 8).
    rewrite Z.land_spec, testbit_clrbit by lia. destruct (Z.lt_ge_cases n 8).
    + rewrite Z.mod_pow2_bits_low, Z.land_spec by lia. rewrite (proj2 (Z.eqb_neq n 8)) by lia.
      by rewrite andb_true_r.
    + rewrite Z.mod_pow2_bits_high by lia. destruct (Z.eqb_spec n 8) as [->|]; [by rewrite andb_false_r|].
      change ST0_DP_MASK with (Z.ones 9). rewrite Z.ones_spec_high by lia. apply andb_false_r.
  - apply has_clr_disjoint. reflexivity.
  - reflexivity.
  - apply has_clr_same.
Qed.

(** Combined conditions.  Branches and calls take the conjunction of the
    tests of a combined code, XC the disjunction: [TC, C] (code 0x3C) holds for
    a branch when both flags are set and for XC when one is. *)
Theorem combined_conditions_differ s :
  fst (c54x_cond_true s 0x3C) = has (st0 s) ST0_TC && has (st0 s) ST0_C ∧
  fst (xc_cond s 0x3C) =
    has (st0 s) ST0_TC || has (st0 s) ST0_C || has (st0 s) ST0_OVB.
Proof.
  unfold xc_cond, c54x_cond_true.
  destruct (has (st0 s) ST0_C), (has (st0 s) ST0_TC); cbn; destruct (has (st0 s) ST0_OVB); done.
Qed.

End C54xDecode.
