(* ===== verification/C54xIrq.v ===== *)
(** * Interrupts, calls and returns of the C54x DSP
    ([hw/arm/calypso/l1-dsp/calypso_c54x.c], [c54x_irq.c], [c54x_decode.c],
    [c54x_exec.c])

    The two ways an interrupt is taken (at the call edge by
    [c54x_interrupt_ex], and by the per-instruction check of the pending
    bits), the acknowledgement of IFR bits, and the instructions that push and
    pop return addresses: [CALA]/[BACC], [FCALA]/[FBACC], [RETF], [RETE],
    [FRET]/[FRETE], [IDLE].  The workaround switches (frame level hold, frame
    priority, BRINT0 unmask, two-word RETE) have their default, off. *)
From S2P Require Import Prelude C54xAddr C54xState C54xDecode.

Module C54xIrq.
Import C54xAddr C54xState C54xDecode.

Definition c54x_ifr_clear (s : C54xState) (mask : Z) : C54xState :=
  s <| ifr := Z.land (ifr s) (u16 (Z.lnot mask)) |>.

(** [s->sp--; data_write(s, s->sp, v)]. *)
Definition push (s : C54xState) (v : Z) : C54xState :=
  let s1 := s <| sp := u16 (sp s - 1) |> in
  data_write s1 (sp s1) v.

Definition iptr (s : C54xState) : Z := Z.land (Z.shiftr (pmst s) PMST_IPTR_SHIFT) 0x1FF.

(** The entry sequence shared by the two branches of [c54x_interrupt_ex]. *)
Definition take_vector (s : C54xState) (vec imr_bit ret : Z) : C54xState :=
  let s := c54x_ifr_clear s (u16 (Z.shiftl 1 imr_bit)) in
  let s := push s (u16 ret) in
  let s := push s (xpc s) in
  let s := s <| st1 := Z.lor (st1 s) ST1_INTM |> in
  let s := s <| xpc := 0 |> in
  s <| pc := iptr s * 0x80 + vec * 4 |>.

Definition c54x_interrupt_ex (s : C54xState) (vec imr_bit : Z) : C54xState :=
  if (vec <? 0) || (32 <=? vec) then s
  else if (imr_bit <? 0) || (16 <=? imr_bit) then s
  else
    let s := s <| ifr := Z.lor (ifr s) (Z.shiftl 1 imr_bit) |> in
    let unmasked := has (imr s) (Z.shiftl 1 imr_bit) in
    if idle s then
      let s := s <| idle := false |> in
      if unmasked then take_vector s vec imr_bit (pc s + 1)
      else s <| pc := u32 (pc s + 1) |>
    else if negb (has (st1 s) ST1_INTM) && unmasked && (delay_slots s =? 0) then
      take_vector s vec imr_bit (pc s)
    else s.

(** [__builtin_ctz] of a non-zero 16-bit word. *)
Fixpoint ctz_from (fuel : nat) (i x : Z) : Z :=
  match fuel with
  | O => i
  | S fuel => if Z.testbit x i then i else ctz_from fuel (i + 1) x
  end.
Definition ctz (x : Z) : Z := ctz_from 16 0 x.

(** The per-instruction check.  [en] is the CALYPSO_C54X_IRQ_LEVEL switch and
    [dma_level] the level of the DMA interrupt line. *)
Definition c54x_irq_level_check (en dma_level : bool) (s : C54xState) : bool * C54xState :=
  if negb en then (false, s)
  else
    let s := if dma_level then s <| ifr := Z.lor (ifr s) (Z.shiftl 1 14) |> else s in
    if has (st1 s) ST1_INTM || negb (delay_slots s =? 0) then (false, s)
    else if iptr s =? 0x1FF then (false, s)
    else
      let pend := Z.land (ifr s) (imr s) in
      if pend =? 0 then (false, s)
      else
        let b := ctz pend in
        let vec := b + 16 in
        let s := c54x_ifr_clear s (u16 (Z.shiftl 1 b)) in
        let s := push s (u16 (pc s)) in
        let s := if negb (xpc s =? 0) then push s (xpc s) else s in
        let s := s <| st1 := Z.lor (st1 s) ST1_INTM |> in
        let s := s <| xpc := 0 |> in
        (true, s <| pc := u16 (iptr s * 0x80 + vec * 4) |>).

(** ** Return and call instructions *)

(** [RETE] (0xF4EB): XPC is popped when the word on top of the stack can be a
    page number. *)
Definition exec_rete (s : C54xState) : C54xState :=
  let top := data_read s (sp s) in
  let s :=
    if top <=? 3 then s <| xpc := Z.land top 3 |> <| sp := u16 (sp s + 1) |> else s in
  let ra := data_read s (sp s) in
  let s := s <| sp := u16 (sp s + 1) |> in
  let s := s <| st1 := clr (st1 s) ST1_INTM |> in
  s <| pc := ra |>.

(** [FRET] (0xF4E4) and [FRETE] (0xF4E5). *)
Definition exec_fret (s : C54xState) (enable : bool) : C54xState :=
  let nx := data_read s (sp s) in
  let s := s <| sp := u16 (sp s + 1) |> in
  let ra := data_read s (sp s) in
  let s := s <| sp := u16 (sp s + 1) |> in
  let s := if enable then s <| st1 := clr (st1 s) ST1_INTM |> else s in
  let s := s <| xpc := Z.land nx 3 |> in
  s <| pc := ra |>.

(** [RETF] (0xF49B). *)
Definition exec_retf (s : C54xState) : C54xState :=
  let s := s <| pc := data_read s (sp s) |> in
  let s := s <| sp := Z.land (sp s + 1) 0xFFFF |> in
  s <| st1 := clr (st1 s) ST1_INTM |>.

(** The far-call frame: return PC below, XPC on top. *)
Definition c54x_far_push (s : C54xState) (ret_pc : Z) : C54xState :=
  let s := s <| sp := Z.land (sp s - 1) 0xFFFF |> in
  let s := data_write s (sp s) ret_pc in
  let s := s <| sp := Z.land (sp s - 1) 0xFFFF |> in
  data_write s (sp s) (xpc s).

(** [BACC]/[CALA] (0xF4E2, 0xF5E2, 0xF4E3, 0xF5E3), with the end-of-list guard
    of the task dispatcher at 0xBC36. *)
Definition exec_bacc_cala (s : C54xState) (op : Z) : C54xState :=
  let is_b := has op 0x0100 in
  let is_call := has op 1 in
  let tgt := Z.land (if is_b then b s else a s) 0xFFFF in
  let src_pc := u16 (pc s) in
  if is_call && (src_pc =? 0xbc36) && (tgt <? 0x7000) then s <| pc := mget (prog s) 0xbc33 |>
  else
    let s :=
      if is_call then
        let s := s <| sp := Z.land (sp s - 1) 0xFFFF |> in
        data_write s (sp s) (u16 (src_pc + 1))
      else s in
    s <| pc := tgt |>.

(** [FBACC]/[FCALA] (0xF4E6, 0xF5E6, 0xF4E7, 0xF5E7). *)
Definition exec_fbacc_fcala (s : C54xState) (op : Z) : C54xState :=
  let is_b := has op 0x0100 in
  let is_call := has op 1 in
  let acc := if is_b then b s else a s in
  let tgt := Z.land acc 0xFFFF in
  let new_xpc := Z.land (Z.shiftr acc 16) 0xFF in
  let new_xpc := if 3 <? new_xpc then Z.land new_xpc 3 else new_xpc in
  let s := if is_call then c54x_far_push s (u16 (pc s + 1)) else s in
  let s := s <| xpc := new_xpc |> in
  s <| pc := tgt |>.

(** [IDLE] (0xF4E1 .. 0xF7E1): words consumed and state. *)
Definition exec_idle (s : C54xState) : Z * C54xState :=
  if (0x8000 <=? pc s) && (pc s <? 0x8020) then (1 + Z.b2z (lk_used s), s)
  else (0, s <| idle := true |>).

Definition c54x_wake (s : C54xState) : C54xState := s <| idle := false |>.

Definition C54X_IT_TINT_VEC : Z := 19.
Definition C54X_IT_TINT_BIT : Z := 3.
Definition C54X_IT_RIF_RX_VEC : Z := 16.
Definition C54X_IT_RIF_RX_BIT : Z := 0.
Definition C54X_IT_DMA_VEC : Z := 30.
Definition C54X_IT_DMA_BIT : Z := 14.

Definition c54x_fire_tint (s : C54xState) : C54xState :=
  c54x_interrupt_ex s C54X_IT_TINT_VEC C54X_IT_TINT_BIT.

(** ** Stack discipline *)

(** The registers an interrupt must preserve. *)
Definition context (s : C54xState) :=
  (a s, b s, ar s, t s, trn s, (bk s, brc s, rsa s, rea s), (st0 s, st1 s, pmst s, imr s),
   (sp s, pc s, xpc s)).

(** Registers other than SP, status of the stores aside. *)
Definition regs (s : C54xState) :=
  (a s, b s, ar s, t s, trn s, (bk s, brc s, rsa s, rea s), (st0 s, st1 s, pmst s, imr s),
   (ifr s, pc s, xpc s), (delay_slots s, idle s, prog s)).

Lemma regs_data_write s addr v :
  plain_cell addr = true → regs (data_write s addr v) = regs s ∧ sp (data_write s addr v) = sp s.
Proof.
  unfold plain_cell. intros H. bool_prop.
  assert (apm_cell addr = false ∧ drom_lut addr = false) as [Ea El] by done.
  unfold data_write. rewrite Ea, !(proj2 (Z.eqb_neq addr _)) by done. cbn [orb].
  unfold data_write_locked. rewrite El, (proj2 (Z.eqb_neq addr TCR_ADDR)) by done.
  rewrite (proj2 (Z.ltb_ge addr 0x20)) by done. clear.
  repeat (case_if; [first [by split|unfold dms_write; repeat case_if; by split|repeat case_if; by split]|]).
  destruct (in_api addr); by split.
Qed.

(** Above the register page a data read depends on the memories alone. *)
Definition dmem (s : C54xState) := (data s, api_ram s, timer_psc s).

Lemma data_read_dmem s s' x : 0x20 ≤ x → dmem s' = dmem s → data_read s' x = data_read s x.
Proof.
  intros Hx E. injection E as E1 E2 E3.
  unfold data_read, data_read_locked, tcr_read. rewrite E1, E2, E3, (proj2 (Z.ltb_ge x 0x20)) by lia. done.
Qed.

Lemma plain_cell_range x : plain_cell x = true → 0x20 ≤ x < 65536.
Proof. unfold plain_cell. intros H. bool_prop. lia. Qed.

Lemma push_spec s v :
  plain_cell (u16 (sp s - 1)) = true →
  regs (push s v) = regs s ∧ sp (push s v) = u16 (sp s - 1) ∧
  ∀ x, 0x20 ≤ x → data_read (push s v) x = if x =? u16 (sp s - 1) then v else data_read s x.
Proof.
  intros Hp. unfold push. set (s1 := s <| sp := _ |>).
  destruct (regs_data_write s1 (sp s1) v Hp) as [Er Es]. split; [exact Er|]. split; [exact Es|].
  intros x Hx. rewrite data_cell_write by exact Hp. change (sp s1) with (u16 (sp s - 1)).
  case_if; [done|]. by apply data_read_dmem.
Qed.

(** Two pushed words are popped in reverse order. *)
Lemma push_push_spec s v w :
  plain_cell (u16 (sp s - 1)) = true → plain_cell (u16 (sp s - 2)) = true →
  let s' := push (push s v) w in
  regs s' = regs s ∧ sp s' = u16 (sp s - 2) ∧
  data_read s' (u16 (sp s - 2)) = w ∧ data_read s' (u16 (sp s - 1)) = v ∧
  (∀ x, 0x20 ≤ x → x ≠ u16 (sp s - 1) → x ≠ u16 (sp s - 2) → data_read s' x = data_read s x).
Proof.
  intros H1 H2 s'. destruct (push_spec s v H1) as (Er & Es & Ed).
  assert (u16 (sp (push s v) - 1) = u16 (sp s - 2)) as E2.
  { rewrite Es. unfold u16. mlia. }
  destruct (push_spec (push s v) w) as (Er' & Es' & Ed'); [by rewrite E2|].
  rewrite E2 in Es', Ed'. pose proof (plain_cell_range _ H1). pose proof (plain_cell_range _ H2).
  assert (u16 (sp s - 1) ≠ u16 (sp s - 2)) as Hne by (unfold u16; mlia).
  split; [by rewrite <- Er|]. split; [done|]. split_and!.
  - unfold s'. rewrite Ed', Z.eqb_refl by lia. done.
  - unfold s'. rewrite Ed', Ed, Z.eqb_refl by lia. by rewrite (proj2 (Z.eqb_neq _ _) Hne).
  - intros x Hx Hx1 Hx2. unfold s'. rewrite Ed', Ed by lia.
    by rewrite (proj2 (Z.eqb_neq _ _) Hx1), (proj2 (Z.eqb_neq _ _) Hx2).
Qed.

(** The vector entry saves the return address and the page and masks. *)
Lemma take_vector_spec s vec imr_bit ret :
  plain_cell (u16 (sp s - 1)) = true → plain_cell (u16 (sp s - 2)) = true →
  let s' := take_vector s vec imr_bit ret in
  regs s' = regs (c54x_ifr_clear s (u16 (Z.shiftl 1 imr_bit))
                    <| st1 := Z.lor (st1 s) ST1_INTM |> <| xpc := 0 |>
                    <| pc := iptr s * 0x80 + vec * 4 |>) ∧
  sp s' = u16 (sp s - 2) ∧
  data_read s' (u16 (sp s - 2)) = xpc s ∧ data_read s' (u16 (sp s - 1)) = u16 ret ∧
  (∀ x, 0x20 ≤ x → x ≠ u16 (sp s - 1) → x ≠ u16 (sp s - 2) → data_read s' x = data_read s x).
Proof.
  intros H1 H2. unfold take_vector. set (s1 := c54x_ifr_clear s _).
  destruct (push_spec s1 (u16 ret) H1) as (Er1 & _ & _).
  assert (xpc (push s1 (u16 ret)) = xpc s) as -> by (injection Er1; intros; done).
  destruct (push_push_spec s1 (u16 ret) (xpc s) H1 H2) as (Er & Es & Ew & Ev & Ed).
  pose proof (plain_cell_range _ H1). pose proof (plain_cell_range _ H2).
  generalize dependent (push (push s1 (u16 ret)) (xpc s)). intros s2 Er Es Ew Ev Ed.
  assert (∀ x, 0x20 ≤ x → data_read (s2 <| st1 := Z.lor (st1 s2) ST1_INTM |> <| xpc := 0 |>
    <| pc := iptr (s2 <| st1 := Z.lor (st1 s2) ST1_INTM |> <| xpc := 0 |>) * 0x80 + vec * 4 |>) x = data_read s2 x) as Hd.
  { intros x Hx. by apply data_read_dmem. }
  change (sp s1) with (sp s) in *. cbn zeta. rewrite !Hd by lia. split; [|split_and!; try done].
  - unfold regs in Er |- *. cbn [update_field a b ar t trn bk brc rsa rea st0 st1 pmst imr ifr pc xpc delay_slots idle prog].
    injection Er as -> -> -> -> -> -> -> -> -> -> E1 E2 -> -> _ _ -> -> ->. unfold iptr.
    cbn [update_field pmst]. rewrite E1, E2. done.
  - intros x Hx Hx1 Hx2. rewrite Hd by lia. rewrite Ed by done. by apply data_read_dmem.
Qed.

Lemma clr_lor_same x m : clr (Z.lor x m) m = clr x m.
Proof.
  apply Z.bits_inj'. intros n _. unfold clr. rewrite !Z.ldiff_spec, Z.lor_spec.
  destruct (Z.testbit x n), (Z.testbit m n); done.
Qed.

Lemma clr_not_has x m : Z.land x m = 0 → clr x m = x.
Proof.
  intros E. apply Z.bits_inj'. intros n _. unfold clr. rewrite Z.ldiff_spec.
  apply (f_equal (λ z, Z.testbit z n)) in E. rewrite Z.land_spec, Z.bits_0 in E.
  destruct (Z.testbit x n), (Z.testbit m n); done.
Qed.

Lemma has_false x m : has x m = false ↔ Z.land x m = 0.
Proof. unfold has. rewrite negb_false_iff. apply Z.eqb_eq. Qed.

(** RETE after a two-word entry frame. *)
Lemma exec_rete_pop2 s ret page :
  word (sp s) → 0 ≤ page < 4 → plain_cell (u16 (sp s + 1)) = true →
  data_read s (sp s) = page → data_read s (u16 (sp s + 1)) = ret →
  exec_rete s = s <| xpc := page |> <| sp := u16 (sp s + 2) |>
                  <| st1 := clr (st1 s) ST1_INTM |> <| pc := ret |>.
Proof.
  intros Hw Hp Hc Et Er. unfold exec_rete. rewrite Et, (proj2 (Z.leb_le page 3)) by lia.
  change 3 with (Z.ones 2). rewrite Z.land_ones, Z.mod_small by lia.
  pose proof (plain_cell_range _ Hc).
  cbn [sp update_field]. rewrite (data_read_dmem s) by (lia || done). rewrite Er.
  assert (u16 (u16 (sp s + 1) + 1) = u16 (sp s + 2)) as -> by (unfold u16; mlia). done.
Qed.

(** A raised interrupt is served at once when its mask bit is set and the
    DSP sleeps in [IDLE], or runs with interrupts enabled outside the slots of a
    delayed branch; a DSP that sleeps resumes after its [IDLE]. *)
Definition served (s : C54xState) (imr_bit : Z) : bool :=
  has (imr s) (Z.shiftl 1 imr_bit) && (idle s || (negb (has (st1 s) ST1_INTM) && (delay_slots s =? 0))).
Definition resume_pc (s : C54xState) : Z := u16 (pc s + (if idle s then 1 else 0)).

Lemma set_idle_same s : idle s = false → s <| idle := false |> = s.
Proof. destruct s. cbn. by intros ->. Qed.

Lemma interrupt_served s vec imr_bit :
  0 ≤ vec < 32 → 0 ≤ imr_bit < 16 → served s imr_bit = true →
  ∃ ret, u16 ret = resume_pc s ∧
    c54x_interrupt_ex s vec imr_bit =
      take_vector (s <| ifr := Z.lor (ifr s) (Z.shiftl 1 imr_bit) |> <| idle := false |>) vec imr_bit ret.
Proof.
  intros Hvec Hbit Hs. unfold served in Hs. apply andb_true_iff in Hs as [Hm Hs]. unfold c54x_interrupt_ex, resume_pc.
  rewrite (proj2 (Z.ltb_ge vec 0)), (proj2 (Z.leb_gt 32 vec)), (proj2 (Z.ltb_ge imr_bit 0)), (proj2 (Z.leb_gt 16 imr_bit)) by lia.
  cbn [orb idle imr st1 delay_slots update_field]. rewrite Hm. destruct (idle s) eqn:Hi; [by eexists|].
  cbn [orb] in Hs. rewrite andb_true_r. rewrite Hs. exists (pc s). split; [by rewrite Z.add_0_r|].
  by rewrite (set_idle_same (s <| ifr := _ |>)).
Qed.

Lemma interrupt_unserved s vec imr_bit :
  0 ≤ vec < 32 → 0 ≤ imr_bit < 16 → served s imr_bit = false →
  c54x_interrupt_ex s vec imr_bit =
    let s' := s <| ifr := Z.lor (ifr s) (Z.shiftl 1 imr_bit) |> in
    if idle s then s' <| idle := false |> <| pc := u32 (pc s + 1) |> else s'.
Proof.
  intros Hvec Hbit Hs. unfold served in Hs. unfold c54x_interrupt_ex.
  rewrite (proj2 (Z.ltb_ge vec 0)), (proj2 (Z.leb_gt 32 vec)), (proj2 (Z.ltb_ge imr_bit 0)), (proj2 (Z.leb_gt 16 imr_bit)) by lia.
  cbn [orb idle imr st1 delay_slots update_field]. destruct (has (imr s) _), (idle s); try done.
  - cbn [andb orb] in Hs. by rewrite andb_true_r, Hs.
  - by rewrite andb_false_r.
Qed.

(** C19: interrupt entry and return, on every branch of a raised interrupt, with
    the two words below the stack pointer in plain memory.  One that can be served ([served]: unmasked, and the DSP sleeps in IDLE or
    runs with interrupts enabled outside a delayed branch) is taken at once: the
    resume address and XPC go to the stack and execution continues at the vector
    with interrupts masked and the pending bit clear.  A RETE with the stack
    level of the entry then restores XPC, SP and every other register, resumes
    the interrupted program (after the IDLE if it slept there) with interrupts
    enabled, whatever the mask was before, and leaves memory as it was but for
    the two stack words below SP.  An interrupt that cannot be served stays
    pending; if the DSP slept it only wakes after its IDLE. *)
Theorem interrupt_return_roundtrip s vec imr_bit :
  wf s → 0 ≤ vec < 32 → 0 ≤ imr_bit < 16 →
  plain_cell (u16 (sp s - 1)) = true → plain_cell (u16 (sp s - 2)) = true →
  let s1 := c54x_interrupt_ex s vec imr_bit in
  if served s imr_bit then
    pc s1 = iptr s * 0x80 + vec * 4 ∧ idle s1 = false ∧ has (st1 s1) ST1_INTM = true ∧
    Z.testbit (ifr s1) imr_bit = false ∧
    context (exec_rete s1) = context (s <| pc := resume_pc s |> <| st1 := clr (st1 s) ST1_INTM |>) ∧
    (∀ x, 0x20 ≤ x → x ≠ u16 (sp s - 1) → x ≠ u16 (sp s - 2) →
          data_read (exec_rete s1) x = data_read s x)
  else
    s1 = (let s' := s <| ifr := Z.lor (ifr s) (Z.shiftl 1 imr_bit) |> in
          if idle s then s' <| idle := false |> <| pc := u32 (pc s + 1) |> else s').
Proof.
  intros Hw Hvec Hbit H1 H2 s1. destruct (served s imr_bit) eqn:Hs; [|by apply interrupt_unserved].
  destruct (interrupt_served s vec imr_bit Hvec Hbit Hs) as (ret & Hret & E1). fold s1 in E1.
  set (s0 := s <| ifr := _ |> <| idle := false |>) in E1.
  destruct (take_vector_spec s0 vec imr_bit ret H1 H2) as (Er & Es & Ex & Ep & Ed).
  rewrite <- E1 in *. change (sp s0) with (sp s) in *. change (xpc s0) with (xpc s) in *.
  pose proof (wf_sp _ Hw) as Hsp. pose proof (wf_xpc _ Hw) as Hx. rewrite Hret in Ep. unfold word in Hsp.
  assert (u16 (u16 (sp s - 2) + 1) = u16 (sp s - 1)) as Eu1 by (unfold u16; mlia).
  assert (u16 (u16 (sp s - 2) + 2) = sp s) as Eu2 by (unfold u16; mlia).
  rewrite (exec_rete_pop2 s1 (resume_pc s) (xpc s));
    [|rewrite Es; apply word_u16|done|by rewrite Es, Eu1|by rewrite Es|by rewrite Es, Eu1].
  rewrite Es, Eu2. clearbody s1. unfold regs in Er.
  injection Er as Ea Eb Ear Et Etrn Ebk Ebrc Ersa Erea Est0 Est1 Epm Eim Eif Epc Exp _ Eid _.
  rewrite Epc, Est1, Eif, Eid. split; [done|]. split; [done|]. split; [|split; [|split]].
  - change (has (Z.lor (st1 s) ST1_INTM) ST1_INTM = true). by rewrite has_lor, orb_comm.
  - cbn [ifr update_field]. unfold c54x_ifr_clear. rewrite Z.land_spec, testbit_u16, Z.lnot_spec by lia.
    rewrite testbit_u16, Z.shiftl_1_l, Z.pow2_bits_true, (proj2 (Z.ltb_lt imr_bit 16)) by lia.
    apply andb_false_r.
  - unfold context. cbn [update_field a b ar t trn bk brc rsa rea st0 st1 pmst imr sp pc xpc].
    rewrite Ea, Eb, Ear, Et, Etrn, Ebk, Ebrc, Ersa, Erea, Est0, Epm, Eim.
    change (st1 s0) with (st1 s). by rewrite clr_lor_same.
  - intros x Hx0 Hx1 Hx2. transitivity (data_read s1 x); [by apply data_read_dmem|].
    rewrite Ed by done. by apply data_read_dmem.
Qed.

(** The DSP of the ROM sleeping with interrupts masked. *)
Lemma interrupt_return_roundtrip_witness :
  let s := c54x_zero <| pc := 0x8123 |> <| imr := 0x52ED |> <| pmst := 0x00A8 |> <| st1 := ST1_INTM |> <| idle := true |> in
  pc (c54x_interrupt_ex s 28 12) = 0x00F0 ∧
  context (exec_rete (c54x_interrupt_ex s 28 12)) = context (s <| pc := 0x8124 |> <| st1 := 0 |>).
Proof.
  set (s := c54x_zero <| pc := 0x8123 |> <| imr := 0x52ED |> <| pmst := 0x00A8 |> <| st1 := ST1_INTM |> <| idle := true |>).
  assert (wf s) as Hw.
  { apply wf_set_idle, wf_set_st1; [apply wf_set_pmst; [apply wf_set_imr; [apply wf_set_pc; [apply wf_zero|lia]|]|]|];
      split; (discriminate || reflexivity). }
  destruct (interrupt_return_roundtrip s 28 12 Hw) as (Ep & _ & _ & _ & Ec & _); [lia|lia|reflexivity|reflexivity|].
  split; [exact Ep|exact Ec].
Defined.

(** ** The per-instruction check *)
Lemma ctz_from_spec fuel i x :
  (∃ j, i ≤ j < i + Z.of_nat fuel ∧ Z.testbit x j = true) →
  i ≤ ctz_from fuel i x < i + Z.of_nat fuel ∧
  Z.testbit x (ctz_from fuel i x) = true ∧
  ∀ j, i ≤ j < ctz_from fuel i x → Z.testbit x j = false.
Proof.
  revert i. induction fuel as [|fuel IH]; intros i (j & Hj & Bj); [lia|]. cbn [ctz_from].
  destruct (Z.testbit x i) eqn:Bi; [split; [lia|]; split; [done|intros; lia]|].
  destruct (IH (i + 1)) as (Hr & Bt & Hlow).
  { exists j. split; [|done]. destruct (Z.eq_dec j i) as [->|]; [congruence|lia]. }
  split; [lia|]. split; [done|]. intros l Hl. destruct (Z.eq_dec l i) as [->|]; [done|]. apply Hlow. lia.
Qed.

Lemma nonzero_word_bit x : word x → x ≠ 0 → ∃ j, 0 ≤ j < 16 ∧ Z.testbit x j = true.
Proof.
  intros Hw Hx. exists (Z.log2 x). unfold word in Hw. split.
  - split; [apply Z.log2_nonneg|]. apply Z.log2_lt_pow2; lia.
  - apply Z.bit_log2. lia.
Qed.

Lemma ctz_spec x : word x → x ≠ 0 →
  0 ≤ ctz x < 16 ∧ Z.testbit x (ctz x) = true ∧ ∀ j, 0 ≤ j < ctz x → Z.testbit x j = false.
Proof. intros Hw Hx. apply (ctz_from_spec 16 0). by apply nonzero_word_bit. Qed.

(** The state in which the check takes an interrupt. *)
Definition irq_ready (s : C54xState) : bool :=
  negb (has (st1 s) ST1_INTM) && (delay_slots s =? 0) && negb (iptr s =? 0x1FF).

(** RETE after a one-word entry frame whose return address is no page number. *)
Lemma exec_rete_pop1 s ret :
  data_read s (sp s) = ret → 3 < ret →
  exec_rete s = s <| sp := u16 (sp s + 1) |> <| st1 := clr (st1 s) ST1_INTM |> <| pc := ret |>.
Proof.
  intros Et Hr. unfold exec_rete. rewrite Et, (proj2 (Z.leb_gt ret 3)), Et by lia. done.
Qed.

(** What the per-instruction check pushes: PC, and XPC when it is not zero. *)
Definition level_frame (s : C54xState) : C54xState :=
  let s := push s (u16 (pc s)) in
  if negb (xpc s =? 0) then push s (xpc s) else s.

Lemma level_frame_spec s :
  wf s → plain_cell (u16 (sp s - 1)) = true → plain_cell (u16 (sp s - 2)) = true →
  regs (level_frame s) = regs s ∧
  sp (level_frame s) = (if xpc s =? 0 then u16 (sp s - 1) else u16 (sp s - 2)) ∧
  (pc s < 65536 → xpc s ≠ 0 ∨ 3 < pc s → ∀ s', regs s' = regs (level_frame s <| st1 := Z.lor (st1 s) ST1_INTM |>
      <| xpc := xpc s' |> <| pc := pc s' |>) → sp s' = sp (level_frame s) → dmem s' = dmem (level_frame s) →
    exec_rete s' = s' <| xpc := if xpc s =? 0 then xpc s' else xpc s |> <| sp := sp s |>
                      <| st1 := clr (st1 s) ST1_INTM |> <| pc := pc s |>).
Proof.
  intros Hw H1 H2. unfold level_frame. pose proof (wf_sp _ Hw) as Hsp. pose proof (wf_xpc _ Hw) as Hx.
  pose proof (wf_pc _ Hw) as Hpc. unfold word in Hsp.
  destruct (push_spec s (u16 (pc s)) H1) as (Er1 & Es1 & Ed1).
  assert (xpc (push s (u16 (pc s))) = xpc s) as -> by (injection Er1; intros; done).
  pose proof (plain_cell_range _ H1). pose proof (plain_cell_range _ H2).
  destruct (Z.eqb_spec (xpc s) 0) as [E0|E0]; cbn [negb].
  - split; [done|]. split; [done|]. intros Hp [?|Hlow]; [done|]. intros s' Er' Es' Em'.
    assert (st1 s' = Z.lor (st1 s) ST1_INTM) as Est by (injection Er'; intros; done).
    assert (data_read s' (sp s') = pc s) as Et.
    { rewrite Es', Es1, (data_read_dmem (push s (u16 (pc s)))), Ed1, Z.eqb_refl by (lia || done).
      apply u16_small. lia. }
    rewrite (exec_rete_pop1 s' (pc s) Et Hlow), Es', Es1, Est, clr_lor_same.
    assert (u16 (u16 (sp s - 1) + 1) = sp s) as -> by (unfold u16; mlia).
    destruct s'; reflexivity.
  - destruct (push_push_spec s (u16 (pc s)) (xpc s) H1 H2) as (Er & Es & Ew & Ev & _).
    split; [done|]. split; [done|]. intros Hp _ s' Er' Es' Em'.
    assert (st1 s' = Z.lor (st1 s) ST1_INTM) as Est by (injection Er'; intros; done).
    assert (u16 (u16 (sp s - 2) + 1) = u16 (sp s - 1)) as Eu1 by (unfold u16; mlia).
    assert (u16 (u16 (sp s - 2) + 2) = sp s) as Eu2 by (unfold u16; mlia).
    rewrite (exec_rete_pop2 s' (pc s) (xpc s)); [by rewrite Es', Es, Eu2, Est, clr_lor_same|..].
    + rewrite Es', Es. apply word_u16.
    + done.
    + by rewrite Es', Es, Eu1.
    + rewrite Es', Es, (data_read_dmem (push (push s (u16 (pc s))) (xpc s))) by (lia || done). done.
    + rewrite Es', Es, Eu1, (data_read_dmem (push (push s (u16 (pc s))) (xpc s))) by (lia || done).
      rewrite Ev. apply u16_small. lia.
Qed.

Lemma iptr_range s : 0 ≤ iptr s ≤ 0x1FF.
Proof. apply land_range. lia. Qed.

(** The taken branch of the check, on a state whose DMA bit is already merged. *)
Lemma level_take_spec s k :
  wf s → pc s < 65536 → has (st1 s) ST1_INTM = false → 0 ≤ k < 16 →
  plain_cell (u16 (sp s - 1)) = true → plain_cell (u16 (sp s - 2)) = true →
  let s1 := level_frame (c54x_ifr_clear s (u16 (Z.shiftl 1 k))) in
  let s2 := s1 <| st1 := Z.lor (st1 s1) ST1_INTM |> <| xpc := 0 |> in
  let s' := s2 <| pc := u16 (iptr s2 * 0x80 + (k + 16) * 4) |> in
  pc s' = iptr s * 0x80 + (k + 16) * 4 ∧ has (st1 s') ST1_INTM = true ∧
  (∀ j, 0 ≤ j < 16 → Z.testbit (ifr s') j = Z.testbit (ifr s) j && negb (j =? k)) ∧
  (xpc s ≠ 0 ∨ 3 < pc s → context (exec_rete s') = context s).
Proof.
  intros Hw Hpc Hi Hb H1 H2. set (s0 := c54x_ifr_clear s _).
  assert (wf s0) as Hw0. { unfold s0, c54x_ifr_clear. pose proof (wf_ifr _ Hw). eauto 8 with c54x. }
  destruct (level_frame_spec s0 Hw0 H1 H2) as (Er1 & Es & Hret).
  revert Er1 Es Hret. generalize (level_frame s0). intros s1' Er1 Es Hret s1 s2 s'. subst s1. rename s1' into s1. unfold regs in Er1.
  injection Er1 as Ea Eb Ear Et Etrn Ebk Ebrc Ersa Erea Est0 Est1 Epm Eim Eif Epc Exp Edl Eid Epr.
  assert (iptr s2 = iptr s) as Eip by (unfold iptr; change (pmst s2) with (pmst s1); by rewrite Epm).
  pose proof (iptr_range s). subst s'. rewrite Eip.
  split; [|split; [|split]].
  - change (u16 (iptr s * 128 + (k + 16) * 4) = iptr s * 128 + (k + 16) * 4). apply u16_small. lia.
  - change (has (Z.lor (st1 s1) ST1_INTM) ST1_INTM = true). by rewrite has_lor, orb_comm.
  - intros j Hj. change (ifr (s2 <| pc := _ |>)) with (ifr s1). rewrite Eif.
    change (ifr s0) with (Z.land (ifr s) (u16 (Z.lnot (u16 (Z.shiftl 1 k))))).
    rewrite Z.land_spec, testbit_u16, Z.lnot_spec, testbit_u16, Z.shiftl_1_l, Z.pow2_bits_eqb by lia.
    rewrite (proj2 (Z.ltb_lt j 16)), Z.eqb_sym by lia. done.
  - intros Hlow. change (xpc s) with (xpc s0) in Hlow. change (pc s) with (pc s0) in Hlow.
    rewrite (Hret Hpc Hlow (s2 <| pc := u16 (iptr s * 128 + (k + 16) * 4) |>)).
    + unfold context.
      cbn [update_field a b ar t trn bk brc rsa rea st0 st1 pmst imr sp pc xpc s2].
      rewrite Ea, Eb, Ear, Et, Etrn, Ebk, Ebrc, Ersa, Erea, Est0, Epm, Eim.
      apply has_false in Hi. change (st1 s0) with (st1 s). rewrite clr_not_has by done.
      change (xpc s0) with (xpc s). destruct (Z.eqb_spec (xpc s) 0) as [->|]; done.
    + unfold regs. cbn [update_field a b ar t trn bk brc rsa rea st0 st1 pmst imr ifr pc xpc delay_slots idle prog s2].
      rewrite Est1. done.
    + done.
    + done.
Qed.

Lemma level_check_spec (dma : bool) s :
  wf s → pc s < 65536 → irq_ready s = true →
  plain_cell (u16 (sp s - 1)) = true → plain_cell (u16 (sp s - 2)) = true →
  let s0 := if dma then s <| ifr := Z.lor (ifr s) (Z.shiftl 1 14) |> else s in
  let pend := Z.land (ifr s0) (imr s) in
  match c54x_irq_level_check true dma s with
  | (false, s') => pend = 0 ∧ s' = s0
  | (true, s') => ∃ b,
      0 ≤ b < 16 ∧ Z.testbit pend b = true ∧ (∀ j, 0 ≤ j < b → Z.testbit pend j = false) ∧
      pc s' = iptr s * 0x80 + (b + 16) * 4 ∧ has (st1 s') ST1_INTM = true ∧
      (∀ j, 0 ≤ j < 16 → Z.testbit (ifr s') j = Z.testbit (ifr s0) j && negb (j =? b)) ∧
      (xpc s ≠ 0 ∨ 3 < pc s → context (exec_rete s') = context s)
  end.
Proof.
  intros Hw Hpc Hr H1 H2 s0 pend. unfold irq_ready in Hr. bool_prop.
  assert (wf s0) as Hw0.
  { unfold s0. destruct dma; [|done]. apply wf_set_ifr; [done|]. apply word_lor; [by apply wf_ifr|].
    split; [discriminate|reflexivity]. }
  unfold c54x_irq_level_check. cbn [negb]. fold s0.
  assert (st1 s0 = st1 s ∧ delay_slots s0 = delay_slots s ∧ imr s0 = imr s ∧ iptr s0 = iptr s ∧
          pc s0 = pc s ∧ sp s0 = sp s ∧ xpc s0 = xpc s ∧ context s0 = context s)
    as (E1 & E2 & E3 & E4 & E5 & E6 & E7 & E8) by (unfold s0; destruct dma; done).
  rewrite E1, E2, E3, E4. fold pend.
  assert (has (st1 s) ST1_INTM = false) as Ei by done.
  rewrite Ei, (proj2 (Z.eqb_eq (delay_slots s) 0)) by done. cbn [orb negb].
  rewrite (proj2 (Z.eqb_neq (iptr s) 0x1FF)) by done.
  destruct (Z.eqb_spec pend 0) as [Ez|Enz]; [done|].
  assert (word pend) as Hwp by (apply word_land_l, wf_ifr, Hw0).
  destruct (ctz_spec pend Hwp Enz) as (Hb & Bt & Hl).
  exists (ctz pend). rewrite <- E4, <- E7, <- E5, <- E8.
  destruct (level_take_spec s0 (ctz pend)) as (P1 & P2 & P3 & P4);
    [done|by rewrite E5|by rewrite E1|done|by rewrite E6|by rewrite E6|].
  split; [done|]. split; [done|]. split; [done|]. unfold level_frame in P1, P2, P3, P4.
  split; [exact P1|]. split; [exact P2|]. split; [exact P3|exact P4].
Qed.

(** the per-instruction check serves the highest-priority interrupt and loses
    none.  When interrupts can be taken (INTM clear, no delay slot pending,
    vector table relocated) the check either finds no unmasked pending bit and
    changes nothing, or enters the vector of the lowest pending unmasked bit:
    that IFR bit alone is acknowledged, all others stay pending, and RETE
    restores the context of the interrupted program, provided the return
    address cannot be mistaken for a page number. *)
Theorem irq_level_check_serves_lowest (dma : bool) s :
  wf s → pc s < 65536 → irq_ready s = true →
  plain_cell (u16 (sp s - 1)) = true → plain_cell (u16 (sp s - 2)) = true →
  let s0 := if dma then s <| ifr := Z.lor (ifr s) (Z.shiftl 1 14) |> else s in
  let pend := Z.land (ifr s0) (imr s) in
  match c54x_irq_level_check true dma s with
  | (false, s') => pend = 0 ∧ s' = s0
  | (true, s') => ∃ b,
      0 ≤ b < 16 ∧ Z.testbit pend b = true ∧ (∀ j, 0 ≤ j < b → Z.testbit pend j = false) ∧
      pc s' = iptr s * 0x80 + (b + 16) * 4 ∧ has (st1 s') ST1_INTM = true ∧
      (∀ j, 0 ≤ j < 16 → Z.testbit (ifr s') j = Z.testbit (ifr s0) j && negb (j =? b)) ∧
      (xpc s ≠ 0 ∨ 3 < pc s → context (exec_rete s') = context s)
  end.
Proof. apply level_check_spec. Qed.

(** BRINT (bit 5) and the TPU frame interrupt (bit 12) pending together: bit 5
    is served and bit 12 stays pending. *)
Lemma irq_level_check_serves_lowest_witness :
  let s := c54x_zero <| pc := 0x8123 |> <| imr := 0x52ED |> <| pmst := 0x00A8 |> <| ifr := 0x1020 |> in
  ∃ s', c54x_irq_level_check true false s = (true, s') ∧ pc s' = 0x00D4 ∧ Z.testbit (ifr s') 12 = true.
Proof.
  set (s := c54x_zero <| pc := 0x8123 |> <| imr := 0x52ED |> <| pmst := 0x00A8 |> <| ifr := 0x1020 |>).
  assert (wf s) as Hw.
  { apply wf_set_ifr; [apply wf_set_pmst; [apply wf_set_imr; [apply wf_set_pc; [apply wf_zero|lia]|]|]|];
      unfold word; lia. }
  pose proof (irq_level_check_serves_lowest false s Hw eq_refl eq_refl eq_refl eq_refl) as H.
  destruct (c54x_irq_level_check true false s) as [[] s'] eqn:E.
  - destruct H as (k & Hk & Bk & _ & Ep & _ & Hi & _). exists s'. split; [done|].
    assert (s' = snd (c54x_irq_level_check true false s)) as -> by (by rewrite E).
    split; vm_compute; reflexivity.
  - destruct H as [H _]. discriminate H.
Defined.

(** A raised interrupt that cannot be taken stays pending, and nothing else
    changes. *)
Lemma interrupt_ex_latches s vec imr_bit :
  0 ≤ vec < 32 → 0 ≤ imr_bit < 16 → idle s = false →
  has (st1 s) ST1_INTM = true ∨ delay_slots s ≠ 0 ∨ has (imr s) (Z.shiftl 1 imr_bit) = false →
  c54x_interrupt_ex s vec imr_bit = s <| ifr := Z.lor (ifr s) (Z.shiftl 1 imr_bit) |>.
Proof.
  intros Hv Hb Hi Hc. unfold c54x_interrupt_ex.
  rewrite (proj2 (Z.ltb_ge vec 0)), (proj2 (Z.leb_gt 32 vec)), (proj2 (Z.ltb_ge imr_bit 0)),
    (proj2 (Z.leb_gt 16 imr_bit)) by lia. cbn [orb].
  change (idle (s <| ifr := _ |>)) with (idle s). change (st1 (s <| ifr := _ |>)) with (st1 s).
  change (imr (s <| ifr := _ |>)) with (imr s). change (delay_slots (s <| ifr := _ |>)) with (delay_slots s).
  rewrite Hi. destruct Hc as [-> | [?| ->]]; [done| |by rewrite andb_false_r].
  rewrite (proj2 (Z.eqb_neq (delay_slots s) 0)) by done. by rewrite andb_false_r.
Qed.

(** An interrupt raised while interrupts are masked is served when they open.
    The raise leaves a pending bit and no other trace; as soon as the firmware
    clears INTM (with the vector table relocated and no delay slot pending), the
    next per-instruction check enters its vector, unless an interrupt of higher
    priority is pending, in which case that one is entered. *)
Theorem masked_interrupt_served_later s k :
  wf s → pc s < 65536 → 0 ≤ k < 16 → idle s = false → has (st1 s) ST1_INTM = true →
  delay_slots s = 0 → iptr s ≠ 0x1FF → Z.testbit (imr s) k = true →
  plain_cell (u16 (sp s - 1)) = true → plain_cell (u16 (sp s - 2)) = true →
  let s1 := c54x_interrupt_ex s (k + 16) k in
  let s2 := s1 <| st1 := clr (st1 s1) ST1_INTM |> in
  pc s1 = pc s ∧ data s1 = data s ∧
  ∃ j s3, c54x_irq_level_check true false s2 = (true, s3) ∧ 0 ≤ j ≤ k ∧
    pc s3 = iptr s * 0x80 + (j + 16) * 4 ∧
    (j = k ∨ Z.testbit (ifr s) j = true ∧ Z.testbit (imr s) j = true ∧ Z.testbit (ifr s3) k = true).
Proof.
  intros Hw Hpc Hk Hid Hi Hd Hp Hm H1 H2.
  rewrite (interrupt_ex_latches s (k + 16) k) by (lia || done || auto).
  set (s1 := s <| ifr := _ |>). intros s1' s2. split; [done|]. split; [done|].
  assert (has (st1 s2) ST1_INTM = false) as Hi2 by apply has_clr_same.
  assert (wf s2) as Hw2.
  { assert (word (Z.shiftl 1 k)).
    { unfold word. rewrite Z.shiftl_1_l. split; [apply Z.pow_nonneg; lia|].
      change 65536 with (2 ^ 16). apply Z.pow_lt_mono_r; lia. }
    pose proof (wf_ifr _ Hw). pose proof (wf_st1 _ Hw).
    apply wf_set_st1; [apply wf_set_ifr; [done|by apply word_lor]|by apply word_clr]. }
  assert (irq_ready s2 = true) as Hr.
  { unfold irq_ready. rewrite Hi2. change (delay_slots s2) with (delay_slots s). change (iptr s2) with (iptr s).
    rewrite Hd, (proj2 (Z.eqb_neq _ _) Hp). done. }
  pose proof (level_check_spec false s2 Hw2 Hpc Hr H1 H2) as H.
  assert (Z.testbit (Z.land (ifr s2) (imr s2)) k = true) as Bk.
  { rewrite Z.land_spec. change (imr s2) with (imr s). rewrite Hm.
    change (ifr s2) with (Z.lor (ifr s) (Z.shiftl 1 k)). rewrite testbit_setbit, Z.eqb_refl by lia.
    by rewrite orb_true_r. }
  destruct (c54x_irq_level_check true false s2) as [[] s3].
  - destruct H as (j & Hj & Bj & Hl & Ep & _ & Hf & _). exists j, s3. split; [done|].
    assert (j ≤ k). { destruct (Z.lt_ge_cases k j) as [Hlt|]; [|done]. rewrite Hl in Bk by lia. done. }
    split; [lia|]. split; [exact Ep|]. destruct (Z.eq_dec j k) as [->|Hne]; [by left|right].
    rewrite Z.land_spec in Bj, Bk. apply andb_true_iff in Bj as [Bj1 Bj2]. apply andb_true_iff in Bk as [Bk1 _].
    change (ifr s2) with (Z.lor (ifr s) (Z.shiftl 1 k)) in Bj1.
    rewrite testbit_setbit, (proj2 (Z.eqb_neq j k)), orb_false_r in Bj1 by lia.
    split; [done|]. split; [done|]. rewrite Hf, Bk1, (proj2 (Z.eqb_neq k j)) by lia. done.
  - destruct H as [H _]. change (Z.land (ifr s2) (imr s2) = 0) in H. rewrite H, Z.bits_0 in Bk. done.
Qed.

Lemma masked_interrupt_served_later_witness :
  let s := c54x_zero <| pc := 0x8123 |> <| imr := 0x52ED |> <| pmst := 0x00A8 |> <| st1 := 0x2900 |> in
  ∃ j s3, c54x_irq_level_check true false
            (c54x_interrupt_ex s 28 12 <| st1 := clr (st1 (c54x_interrupt_ex s 28 12)) ST1_INTM |>) = (true, s3) ∧
          0 ≤ j ≤ 12.
Proof.
  set (s := c54x_zero <| pc := 0x8123 |> <| imr := 0x52ED |> <| pmst := 0x00A8 |> <| st1 := 0x2900 |>).
  assert (wf s) as Hw.
  { apply wf_set_st1; [apply wf_set_pmst; [apply wf_set_imr; [apply wf_set_pc; [apply wf_zero|lia]|]|]|];
      unfold word; lia. }
  assert (iptr s ≠ 0x1FF) as Hp by discriminate.
  destruct (masked_interrupt_served_later s 12 Hw eq_refl ltac:(lia) eq_refl eq_refl eq_refl Hp eq_refl eq_refl eq_refl)
    as (_ & _ & j & s3 & E & Hj & _).
  exists j, s3. split; [exact E|exact Hj].
Defined.

(** The two interrupt entries build different frames.  From page 0, the edge
    entry pushes PC and XPC (two words), the per-instruction check PC alone (one
    word): the same interrupt leaves the stack one word apart depending on which
    of them took it. *)
Theorem entry_frames_differ s vec k :
  wf s → pc s < 65536 → 0 ≤ vec < 32 → 0 ≤ k < 16 → xpc s = 0 →
  idle s = false → irq_ready s = true → Z.testbit (imr s) k = true →
  plain_cell (u16 (sp s - 1)) = true → plain_cell (u16 (sp s - 2)) = true →
  sp (c54x_interrupt_ex s vec k) = u16 (sp s - 2) ∧
  sp (snd (c54x_irq_level_check true false (s <| ifr := Z.shiftl 1 k |>))) = u16 (sp s - 1).
Proof.
  intros Hw Hpc Hv Hk Hx Hid Hr Hm H1 H2. assert (Hr' := Hr). unfold irq_ready in Hr'. bool_prop.
  assert (has (st1 s) ST1_INTM = false) as Ei by done.
  assert (has (imr s) (Z.shiftl 1 k) = true) as Him by (rewrite has_bit by lia; done).
  split.
  - unfold c54x_interrupt_ex.
    rewrite (proj2 (Z.ltb_ge vec 0)), (proj2 (Z.leb_gt 32 vec)), (proj2 (Z.ltb_ge k 0)),
      (proj2 (Z.leb_gt 16 k)) by lia. cbn [orb]. set (s0 := s <| ifr := _ |>).
    change (idle s0) with (idle s). change (st1 s0) with (st1 s). change (imr s0) with (imr s).
    change (delay_slots s0) with (delay_slots s). rewrite Hid, Ei, Him, (proj2 (Z.eqb_eq (delay_slots s) 0)) by done.
    apply (take_vector_spec s0 vec k (pc s) H1 H2).
  - set (s0 := s <| ifr := Z.shiftl 1 k |>).
    assert (Z.land (ifr s0) (imr s0) ≠ 0) as Hp.
    { intros E. apply (f_equal (λ z, Z.testbit z k)) in E. rewrite Z.land_spec, Z.bits_0 in E.
      change (imr s0) with (imr s) in E. change (ifr s0) with (Z.shiftl 1 k) in E.
      rewrite Hm, Z.shiftl_1_l, Z.pow2_bits_true in E by lia. done. }
    unfold c54x_irq_level_check. cbn [negb].
    change (st1 s0) with (st1 s). change (delay_slots s0) with (delay_slots s). change (iptr s0) with (iptr s).
    rewrite Ei, (proj2 (Z.eqb_eq (delay_slots s) 0)), (proj2 (Z.eqb_neq (iptr s) 0x1FF)),
      (proj2 (Z.eqb_neq _ _) Hp) by done. cbn [orb negb snd].
    set (s2 := c54x_ifr_clear s0 _). destruct (push_spec s2 (u16 (pc s2)) H1) as (Er & Es & _).
    assert (xpc (push s2 (u16 (pc s2))) = 0) as -> by (rewrite <- Hx; injection Er; intros; done).
    exact Es.
Qed.

Lemma entry_frames_differ_witness :
  let s := c54x_zero <| pc := 0x8123 |> <| imr := 0x52ED |> <| pmst := 0x00A8 |> in
  sp (c54x_interrupt_ex s 30 14) = 0x5AC6 ∧
  sp (snd (c54x_irq_level_check true false (s <| ifr := Z.shiftl 1 14 |>))) = 0x5AC7.
Proof.
  set (s := c54x_zero <| pc := 0x8123 |> <| imr := 0x52ED |> <| pmst := 0x00A8 |>).
  assert (wf s) as Hw.
  { apply wf_set_pmst; [apply wf_set_imr; [apply wf_set_pc; [apply wf_zero|lia]|]|]; unfold word; lia. }
  exact (entry_frames_differ s 30 14 Hw eq_refl ltac:(lia) ltac:(lia) eq_refl eq_refl eq_refl eq_refl eq_refl eq_refl).
Defined.

(** ** Far calls *)
Lemma far_push_is_push s v : c54x_far_push s v = push (push s v) (xpc (push s v)).
Proof.
  unfold c54x_far_push, push. by rewrite !land_ffff.
Qed.

(** A far call returns to the instruction after it.  FCALA enters the page and
    address held in the accumulator and FRET, with the stack level of the entry,
    restores the page, the stack and every register, with PC after the call. *)
Theorem far_call_return_roundtrip s op :
  wf s → pc s + 1 < 65536 → (op = 0xF4E7 ∨ op = 0xF5E7) →
  plain_cell (u16 (sp s - 1)) = true → plain_cell (u16 (sp s - 2)) = true →
  let acc := if op =? 0xF5E7 then b s else a s in
  let s1 := exec_fbacc_fcala s op in
  pc s1 = acc mod 2 ^ 16 ∧ xpc s1 = (acc / 2 ^ 16) mod 4 ∧
  context (exec_fret s1 false) = context (s <| pc := pc s + 1 |>).
Proof.
  intros Hw Hpc Hop H1 H2 acc s1. pose proof (wf_sp _ Hw) as Hsp. pose proof (wf_xpc _ Hw) as Hx.
  pose proof (wf_pc _ Hw) as Hp. unfold word in Hsp.
  assert (has op 0x0100 = (op =? 0xF5E7) ∧ has op 1 = true) as [Eb Ec] by (destruct Hop as [-> | ->]; done).
  destruct (push_spec s (pc s + 1) H1) as (Er1 & _ & _).
  assert (xpc (push s (pc s + 1)) = xpc s) as Ex1 by (injection Er1; intros; done).
  assert (s1 = push (push s (pc s + 1)) (xpc s) <| xpc := (acc / 2 ^ 16) mod 4 |> <| pc := acc mod 2 ^ 16 |>) as E1.
  { unfold s1, exec_fbacc_fcala. rewrite Eb, Ec. fold acc.
    rewrite far_push_is_push, (u16_small (pc s + 1)), Ex1 by lia.
    change 0xFFFF with (Z.ones 16). change 0xFF with (Z.ones 8). change (Z.land ?x 3) with (Z.land x (Z.ones 2)).
    rewrite !Z.land_ones, Z.shiftr_div_pow2 by lia. set (h := acc / 2 ^ 16).
    assert ((if 3 <? h mod 2 ^ 8 then (h mod 2 ^ 8) mod 2 ^ 2 else h mod 2 ^ 8) = h mod 4) as ->; [|done].
    change (2 ^ 8) with 256. change (2 ^ 2) with 4. case_ifs; mlia. }
  rewrite E1. clear E1 s1.
  destruct (push_push_spec s (pc s + 1) (xpc s) H1 H2) as (Er & Es & Ew & Ev & _).
  pose proof (plain_cell_range _ H1). pose proof (plain_cell_range _ H2).
  generalize dependent (push (push s (pc s + 1)) (xpc s)). intros s2 Er Es Ew Ev.
  split; [done|]. split; [done|].
  assert (u16 (u16 (sp s - 2) + 1) = u16 (sp s - 1)) as Eu1 by (unfold u16; mlia).
  assert (u16 (u16 (sp s - 1) + 1) = sp s) as Eu2 by (unfold u16; mlia).
  unfold exec_fret. cbn [sp update_field]. rewrite Es, Eu1.
  rewrite (data_read_dmem s2 _ (u16 (sp s - 2))), (data_read_dmem s2 _ (u16 (sp s - 1))) by (lia || done).
  rewrite Ew, Ev, Eu2.
  change 3 with (Z.ones 2). rewrite Z.land_ones, Z.mod_small by lia.
  unfold context, regs in *. injection Er as Ea Eb' Ear Et Etrn Ebk Ebrc Ersa Erea Est0 Est1 Epm Eim _ _ _ _ _ _.
  cbn [update_field a b ar t trn bk brc rsa rea st0 st1 pmst imr sp pc xpc].
  rewrite Ea, Eb', Ear, Et, Etrn, Ebk, Ebrc, Ersa, Erea, Est0, Est1, Epm, Eim. done.
Qed.

Lemma far_call_return_roundtrip_witness :
  let s := c54x_zero <| pc := 0x8123 |> <| xpc := 1 |> <| a := 0x29500 |> in
  xpc (exec_fbacc_fcala s 0xF4E7) = 2 ∧
  context (exec_fret (exec_fbacc_fcala s 0xF4E7) false) = context (s <| pc := 0x8124 |>).
Proof.
  set (s := c54x_zero <| pc := 0x8123 |> <| xpc := 1 |> <| a := 0x29500 |>).
  assert (wf s) as Hw.
  { apply wf_set_a; [apply wf_set_xpc; [apply wf_set_pc; [apply wf_zero|lia]|lia]|unfold acc40; lia]. }
  destruct (far_call_return_roundtrip s 0xF4E7 Hw) as (_ & Ex & Ec);
    [reflexivity|left; reflexivity|reflexivity|reflexivity|].
  split; [exact Ex|exact Ec].
Defined.

(** ** Typing: the interrupt and call operations keep the state well formed *)
Lemma wf_ifr_clear s m : wf s → wf (c54x_ifr_clear s m).
Proof. unfold c54x_ifr_clear. eauto with c54x. Qed.

Lemma wf_push s v : wf s → word v → wf (push s v).
Proof. unfold push. eauto using wf_data_write with c54x. Qed.

Lemma vector_range s k : 0 ≤ k < 32 → 0 ≤ iptr s * 0x80 + k * 4 < 2 ^ 32.
Proof. intros. unfold iptr. pose proof (land_range (Z.shiftr (pmst s) PMST_IPTR_SHIFT) 0x1FF). lia. Qed.

Lemma word_xpc s : wf s → word (xpc s).
Proof. intros H. pose proof (wf_xpc _ H). unfold word. lia. Qed.
Lemma word_st1_or s : wf s → word (Z.lor (st1 s) ST1_INTM).
Proof. intros. apply word_lor; [eauto with c54x|]. split; [discriminate|reflexivity]. Qed.
Lemma xpc_0 : 0 ≤ 0 < 4.
Proof. lia. Qed.
#[export] Hint Resolve wf_ifr_clear wf_push vector_range word_xpc word_st1_or xpc_0 : c54x.

Lemma wf_take_vector s vec bit ret : wf s → 0 ≤ vec < 32 → wf (take_vector s vec bit ret).
Proof.
  intros Hs Hv. unfold take_vector. cbv zeta.
  assert (H2 : wf (push (c54x_ifr_clear s (u16 (Z.shiftl 1 bit))) (u16 ret))) by eauto with c54x.
  revert H2. generalize (push (c54x_ifr_clear s (u16 (Z.shiftl 1 bit))) (u16 ret)). intros s2 H2.
  assert (H3 : wf (push s2 (xpc s2))) by eauto with c54x.
  revert H3. generalize (push s2 (xpc s2)). intros s3 H3.
  apply wf_set_pc; [auto with c54x|by apply vector_range].
Qed.

Lemma wf_interrupt_ex s vec bit : wf s → wf (c54x_interrupt_ex s vec bit).
Proof.
  intros Hs. unfold c54x_interrupt_ex. cbv zeta.
  destruct ((vec <? 0) || (32 <=? vec)) eqn:Ev; [done|].
  destruct ((bit <? 0) || (16 <=? bit)) eqn:Eb; [done|].
  assert (0 ≤ vec < 32) by lia.
  assert (H1 : wf (s <| ifr := Z.lor (ifr s) (Z.shiftl 1 bit) |>)).
  { apply wf_set_ifr; [done|]. apply word_lor; [eauto with c54x|].
    rewrite Z.shiftl_mul_pow2, Z.mul_1_l by lia. unfold word.
    pose proof (Z.pow_le_mono_r 2 bit 15 ltac:(lia) ltac:(lia)).
    pose proof (Z.pow_pos_nonneg 2 bit ltac:(lia) ltac:(lia)). lia. }
  revert H1. generalize (s <| ifr := Z.lor (ifr s) (Z.shiftl 1 bit) |>). intros s1 H1.
  repeat case_match; eauto using wf_take_vector with c54x.
  apply wf_set_pc; [eauto with c54x|]. unfold u32. apply Z.mod_pos_bound. lia.
Qed.

Lemma ctz_from_range n i x : 0 ≤ i → i ≤ ctz_from n i x ≤ i + Z.of_nat n.
Proof.
  revert i. induction n as [|n IH]; intros i Hi; cbn [ctz_from]; [lia|].
  destruct (Z.testbit x i); [lia|]. pose proof (IH (i + 1)). lia.
Qed.

Lemma wf_irq_level_check en lvl s : wf s → wf (snd (c54x_irq_level_check en lvl s)).
Proof.
  intros Hs. unfold c54x_irq_level_check. cbv zeta. destruct en; cbn [negb]; [|done].
  set (s1 := if lvl then _ else _).
  assert (H1 : wf s1).
  { subst s1. destruct lvl; [|done]. apply wf_set_ifr; [done|]. apply word_lor; [eauto with c54x|].
    split; [discriminate|reflexivity]. }
  clearbody s1. destruct (_ || _); [done|]. destruct (iptr s1 =? 511); [done|].
  destruct (Z.land (ifr s1) (imr s1) =? 0); [done|]. cbn [snd].
  set (s2 := push (c54x_ifr_clear s1 _) _).
  assert (H2 : wf s2) by (subst s2; eauto with c54x). clearbody s2.
  set (s3 := if negb (xpc s2 =? 0) then _ else _).
  assert (H3 : wf s3) by (subst s3; case_match; eauto with c54x). clearbody s3.
  apply wf_set_pc; [auto with c54x|]. apply pow32_word, word_u16.
Qed.

Lemma wf_rete s : wf s → wf (exec_rete s).
Proof.
  intros Hs. unfold exec_rete. cbv zeta. set (s1 := if _ <=? 3 then _ else _).
  assert (H1 : wf s1) by (subst s1; case_match; eauto with c54x). clearbody s1.
  apply wf_set_pc; [|apply pow32_word, word_data_read, H1].
  apply wf_set_st1; [|apply word_clr]; eauto with c54x.
Qed.

Lemma wf_fret s e : wf s → wf (exec_fret s e).
Proof.
  intros Hs. unfold exec_fret. cbv zeta.
  assert (H1 : wf (s <| sp := u16 (sp s + 1) |>)) by eauto with c54x.
  revert H1. generalize (s <| sp := u16 (sp s + 1) |>). intros s1 H1.
  apply wf_set_pc; [|eauto using word_data_read with c54x].
  apply wf_set_xpc; [|apply xpc_land3]. destruct e; eauto 8 with c54x.
Qed.

Lemma wf_retf s : wf s → wf (exec_retf s).
Proof.
  intros. unfold exec_retf. cbv zeta.
  assert (H1 : wf (s <| pc := data_read s (sp s) |>)) by (apply wf_set_pc; eauto using word_data_read with c54x).
  revert H1. generalize (s <| pc := data_read s (sp s) |>). intros s1 H1.
  assert (word (Z.land (sp s1 + 1) 0xFFFF)) by (apply word_land; unfold word; lia).
  apply wf_set_st1; [|apply word_clr]; eauto with c54x.
Qed.

Lemma word_ffff : word 0xFFFF.
Proof. unfold word. lia. Qed.
#[export] Hint Resolve word_ffff : c54x.

Lemma wf_far_push s v : wf s → word v → wf (c54x_far_push s v).
Proof.
  intros. unfold c54x_far_push. cbv zeta.
  assert (H1 : wf (s <| sp := Z.land (sp s - 1) 0xFFFF |>)) by eauto with c54x.
  revert H1. generalize (s <| sp := Z.land (sp s - 1) 0xFFFF |>). intros s1 H1.
  assert (H2 : wf (data_write s1 (sp s1) v)) by (by apply wf_data_write).
  revert H2. generalize (data_write s1 (sp s1) v). intros s2 H2.
  apply wf_data_write; [eauto with c54x|]. exact (word_xpc s2 H2).
Qed.

Lemma wf_bacc_cala s op : wf s → wf (exec_bacc_cala s op).
Proof.
  intros. unfold exec_bacc_cala. cbv zeta. case_match; [eauto with c54x|].
  apply wf_set_pc; [|eauto with c54x]. destruct (has op 1); [|done].
  apply wf_data_write; eauto with c54x.
Qed.

Lemma wf_fbacc_fcala s op : wf s → wf (exec_fbacc_fcala s op).
Proof.
  intros. unfold exec_fbacc_fcala. cbv zeta. apply wf_set_pc; [|eauto with c54x]. apply wf_set_xpc.
  - destruct (has op 1); [|done]. apply wf_far_push; eauto with c54x.
  - case_match; [apply xpc_land3|].
    pose proof (land_range (Z.shiftr (if has op 256 then b s else a s) 16) 255). lia.
Qed.

Lemma wf_idle s : wf s → wf (snd (exec_idle s)).
Proof. intros. unfold exec_idle. case_match; cbn [snd]; eauto with c54x. Qed.
#[export] Hint Resolve wf_rete wf_fret wf_retf wf_bacc_cala wf_fbacc_fcala wf_idle : c54x.

End C54xIrq.
