(* ===== verification/C54xAlu.v ===== *)
(** * Accumulators and arithmetic of the C54x DSP
    ([hw/arm/calypso/l1-dsp/c54x_exec.c])

    What the instruction executors share: accumulator and flag access, operand
    fetch, the carry of the 40-bit adder, the shifts, the exponent, and the
    multiply-accumulate family [c54x_mac_bit_family]; then the typing of each,
    with [ok] for the result of an executor.  An executor returns the words
    consumed and the new state, [None] for an opcode it does not decode.  The
    compatibility switches have their defaults, so MAC has its legacy decoding;
    [int32_t] products wrap, as the build asks for with -fwrapv. *)
From S2P Require Import Prelude C54xAddr C54xState C54xDecode C54xIrq.

Module C54xAlu.
Import C54xAddr C54xState C54xDecode C54xIrq.

Definition get_acc (s : C54xState) (sel : bool) : Z := if sel then b s else a s.
Definition set_acc (s : C54xState) (sel : bool) (v : Z) : C54xState :=
  if sel then s <| b := v |> else s <| a := v |>.

Definition set_flag (s : C54xState) (m : Z) (on : bool) : C54xState :=
  s <| st0 := if on then Z.lor (st0 s) m else clr (st0 s) m |>.

(** Bit 9 is the source and bit 8 the destination accumulator. *)
Definition f4_src (op : Z) : bool := Z.testbit op 9.
Definition f4_dst (op : Z) : bool := Z.testbit op 8.

(** [(int32_t)x] of a product. *)
Definition frct (s : C54xState) (p : Z) : Z := if has (st1 s) ST1_FRCT then Z.shiftl p 1 else p.

(** [(int16_t)((s->a >> 16) & 0xFFFF)]. *)
Definition a_high (s : C54xState) : Z := i16 (Z.land (Z.shiftr (a s) 16) 0xFFFF).

(** Words consumed by a one-word instruction with its optional long immediate. *)
Definition consumed (s : C54xState) : Z := 1 + Z.b2z (lk_used s).

Definition retire (s : C54xState) : option (Z * C54xState) := Some (consumed s, s).

(** Operand fetch of the single-operand instructions: the value and the state
    after the address generation. *)
Definition smem_operand (s : C54xState) (op : Z) : Z * Z * C54xState :=
  let '(addr, s) := resolve_smem s op in (addr, data_read s addr, s).

(** ** Multiply, accumulate and load (0x20-0x37, 0x4C) *)
Definition c54x_mac_bit_family (s : C54xState) (op : Z) : option (Z * C54xState) :=
  if Z.land op 0xFC00 =? 0x2800 then
    let mac_sub := Z.testbit op 9 in
    let '(_, m, s) := smem_operand s op in
    let mac_prod := i32 (frct s (i16 (t s) * i16 m)) in
    let mac_dst := Z.testbit op 8 in
    let term := if mac_sub then - mac_prod else mac_prod in
    retire (set_acc s mac_dst (sext40 (Z.land (get_acc s mac_dst + term) 0xFFFFFFFFFF)))
  else if (Z.land op 0xFE00 =? 0x2A00) || (Z.land op 0xFE00 =? 0x2E00) then
    let macr_sub := Z.land op 0xFE00 =? 0x2E00 in
    let '(_, m, s) := smem_operand s op in
    let p := frct s (i16 (t s) * i16 m) in
    let p := i32 (Z.land (p + 0x8000) (Z.lnot 0xFFFF)) in
    let dst := Z.testbit op 8 in
    retire (set_acc s dst (sext40 (Z.land (get_acc s dst + (if macr_sub then - p else p)) 0xFFFFFFFFFF)))
  else if Z.land op 0xFF00 =? 0x3500 then
    let '(_, m, s) := smem_operand s op in
    let p := i32 (frct s (a_high s * i16 m)) in
    retire (s <| b := sext40 (Z.land (b s + p) 0xFFFFFFFFFF) |> <| t := m |>)
  else if Z.land op 0xFF00 =? 0x3300 then
    let '(_, m, s) := smem_operand s op in
    let p := i32 (frct s (a_high s * i16 m)) in
    retire (s <| b := sext40 (Z.land (b s - p) 0xFFFFFFFFFF) |> <| t := m |>)
  else if Z.land op 0xFF00 =? 0x3700 then
    let '(_, m, s) := smem_operand s op in
    let p := i32 (frct s (a_high s * i16 m)) in
    let p := i32 (Z.land (i32 (p + 0x8000)) (Z.lnot 0xFFFF)) in
    retire (s <| b := sext40 (Z.land (b s + p) 0xFFFFFFFFFF) |> <| t := m |>)
  else if Z.land op 0xFF00 =? 0x3100 then
    let '(_, m, s) := smem_operand s op in
    let p := i32 (frct s (a_high s * i16 m)) in
    retire (s <| b := sext40 p |> <| t := m |>)
  else if Z.land op 0xFE00 =? 0x2000 then
    let '(_, m, s) := smem_operand s op in
    let p := frct s (i16 (t s) * i16 m) in
    retire (set_acc s (Z.testbit op 8) (sext40 p))
  else if Z.land op 0xFF00 =? 0x4C00 then
    let '(addr, m, s) := smem_operand s op in
    let s := s <| t := m |> in
    retire (data_write s (u16 (addr + 1)) m)
  else if Z.land op 0xFF00 =? 0x3000 then
    let '(_, m, s) := smem_operand s op in
    retire (s <| t := m |>)
  else if Z.land op 0xFF00 =? 0x3200 then
    let '(_, m, s) := smem_operand s op in
    retire (s <| st1 := Z.lor (clr (st1 s) ST1_ASM_MASK) (Z.land m ST1_ASM_MASK) |>)
  else None.

(** ** Carry, shifts, rotations *)
Definition c54x_carry_add40 (s : C54xState) (x y : Z) : C54xState :=
  let ua := Z.land x 0xFFFFFFFFFF in
  let ub := Z.land y 0xFFFFFFFFFF in
  set_flag s ST0_C (Z.land (Z.shiftr (ua + ub) 40) 1 =? 1).

Definition c54x_carry_sub40 (s : C54xState) (x y : Z) : C54xState :=
  let ua := Z.land x 0xFFFFFFFFFF in
  let ub := Z.land y 0xFFFFFFFFFF in
  set_flag s ST0_C (ub <=? ua).

(** The five-bit signed shift count of an opcode. *)
Definition shift5 (op : Z) : Z :=
  let shift := Z.land op 0x1F in if 15 <? shift then shift - 32 else shift.

(** [if (n >= 0) v <<= n; else v >>= -n;] *)
Definition shift_by (v n : Z) : Z := if 0 <=? n then Z.shiftl v n else Z.shiftr v (- n).

Definition c54x_sfta_exec (s : C54xState) (op : Z) : C54xState :=
  let shift := shift5 op in
  let sv := sext40 (get_acc s (f4_src op)) in
  let cbit :=
    if shift <? 0 then Z.testbit sv (- shift - 1)
    else if 0 <? shift then Z.testbit sv (40 - shift)
    else has (st0 s) ST0_C in
  let s := set_flag s ST0_C cbit in
  let r :=
    if 0 <=? shift then Z.shiftl sv shift
    else if negb (has (st1 s) ST1_SXM) then Z.shiftr (Z.land sv 0xFFFFFFFFFF) (- shift)
    else Z.shiftr sv (- shift) in
  set_acc s (f4_dst op) (sext40 r).

Definition c54x_sftl_exec (s : C54xState) (op : Z) : C54xState :=
  let shift := shift5 op in
  let v := Z.land (get_acc s (f4_src op)) 0xFFFFFFFF in
  let '(c, r) :=
    if shift <? 0 then (Z.testbit v (- shift - 1), Z.shiftr v (- shift))
    else if shift =? 0 then (false, v)
    else (Z.testbit v (32 - shift), u32 (Z.shiftl v shift)) in
  let s := set_flag s ST0_C c in
  set_acc s (f4_dst op) r.

Definition c54x_logic_shifted (acc shift : Z) : Z :=
  let v := Z.land acc 0xFFFFFFFFFF in
  if 0 <=? shift then if 40 <=? shift then 0 else Z.land (Z.shiftl v shift) 0xFFFFFFFFFF
  else if 40 <=? - shift then 0 else Z.shiftr v (- shift).

(** A 16-bit operand extended as SXM says. *)
Definition sxm_ext (s : C54xState) (w : Z) : Z := if has (st1 s) ST1_SXM then i16 w else w.

Definition c54x_smem16_shifted (s : C54xState) (w : Z) : Z :=
  Z.shiftl (if has (st1 s) ST1_SXM then i16 w else w) 16.

Definition c54x_neg_abs_ovf (s : C54xState) (dst : bool) (r : Z) : C54xState :=
  let s := set_acc s dst (sext40 r) in
  if has (st1 s) ST1_C16 then s
  else if (0x7FFFFFFF <? r) || (r <? -0x80000000) then
    let s := s <| st0 := Z.lor (st0 s) (if dst then ST0_OVB else ST0_OVA) |> in
    if has (st1 s) ST1_OVM then set_acc s dst (if r <? 0 then -0x80000000 else 0x7FFFFFFF) else s
  else s.

(** [for (i = 38; i >= 0; i--) { if (uv & (1ULL << i)) break; exp++; }] *)
Fixpoint exp_loop (n : nat) (uv : Z) : Z :=
  match n with
  | O => 0
  | S i => if Z.testbit uv (Z.of_nat i) then 0 else 1 + exp_loop i uv
  end.

Definition exp_of (val : Z) : Z :=
  if val =? 0 then 0
  else if val =? -1 then 31
  else
    let uv := Z.land (if val <? 0 then Z.lnot val else val) 0xFFFFFFFFFF in
    exp_loop 39 uv - 8.

(** The six-bit signed shift count NORM takes from T. *)
Definition norm_shift (tr : Z) : Z :=
  let x := Z.land tr 0x3F in if has x 0x20 then x - 64 else x.

Definition norm_tc (s : C54xState) (bit39 bit38 : bool) : C54xState :=
  set_flag s ST0_TC (negb (Bool.eqb bit39 bit38)).

(** ** Typing *)
Definition ok (r : option (Z * C54xState)) : Prop :=
  match r with Some (_, s) => wf s | None => True end.

Lemma ok_retire s : wf s → ok (retire s).
Proof. done. Qed.

Lemma acc40_word v : word v → acc40 v.
Proof. unfold word, acc40. lia. Qed.
Lemma acc40_u32 v : 0 ≤ v < 2 ^ 32 → acc40 v.
Proof. unfold acc40. lia. Qed.
Lemma acc40_min : acc40 (-0x80000000).
Proof. unfold acc40. lia. Qed.
Lemma acc40_max : acc40 0x7FFFFFFF.
Proof. unfold acc40. lia. Qed.
Lemma acc40_get s sel : wf s → acc40 (get_acc s sel).
Proof. intros. unfold get_acc. destruct sel; eauto with c54x. Qed.
Lemma wf_set_acc s sel v : wf s → acc40 v → wf (set_acc s sel v).
Proof. intros. unfold set_acc. destruct sel; eauto with c54x. Qed.
Lemma wf_set_flag s m on : wf s → word m → wf (set_flag s m on).
Proof. intros. unfold set_flag. apply wf_set_st0; [done|]. destruct on; eauto with c54x. Qed.

Lemma word_ST0_C : word ST0_C. Proof. split; [discriminate|reflexivity]. Qed.
Lemma word_ST0_TC : word ST0_TC. Proof. split; [discriminate|reflexivity]. Qed.
Lemma word_ST0_OVA : word ST0_OVA. Proof. split; [discriminate|reflexivity]. Qed.
Lemma word_ST0_OVB : word ST0_OVB. Proof. split; [discriminate|reflexivity]. Qed.
Lemma word_DP_MASK : word ST0_DP_MASK. Proof. split; [discriminate|reflexivity]. Qed.
Lemma word_ASM_MASK : word ST1_ASM_MASK. Proof. split; [discriminate|reflexivity]. Qed.
Lemma word_1ff : word 0x1FF. Proof. split; [discriminate|reflexivity]. Qed.
Lemma word_ff : word 0xFF. Proof. split; [discriminate|reflexivity]. Qed.
Lemma word_and_ffff x : word (Z.land x 0xFFFF).
Proof. rewrite land_ffff. apply word_u16. Qed.
Lemma pc_u32 x : 0 ≤ u32 x < 2 ^ 32.
Proof. unfold u32. apply Z.mod_pos_bound. lia. Qed.
#[export] Hint Resolve ok_retire acc40_word acc40_min acc40_max acc40_get wf_set_acc wf_set_flag
  word_ST0_C word_ST0_TC word_ST0_OVA word_ST0_OVB word_DP_MASK word_ASM_MASK word_1ff word_ff
  pc_u32 word_and_ffff word_data_read wf_data_write : c54x.

Lemma wf_carry_add s x y : wf s → wf (c54x_carry_add40 s x y).
Proof. unfold c54x_carry_add40. eauto with c54x. Qed.
Lemma wf_carry_sub s x y : wf s → wf (c54x_carry_sub40 s x y).
Proof. unfold c54x_carry_sub40. eauto with c54x. Qed.
#[export] Hint Resolve wf_carry_add wf_carry_sub : c54x.

(** The operand fetches deliver words and a well-formed state. *)
Lemma wf_smem_operand s op :
  wf s → ∃ ad v s', smem_operand s op = (ad, v, s') ∧ word ad ∧ word v ∧ wf s'.
Proof.
  intros H. unfold smem_operand. pose proof (wf_resolve_smem s op H) as [Ha Hs].
  destruct (resolve_smem s op) as [ad s']. eauto 8 with c54x.
Qed.

Ltac ok_if := match goal with |- ok (if ?c then _ else _) => destruct c end.

Ltac smem_case :=
  match goal with
  | H : wf ?s |- context [smem_operand ?s ?op] =>
      let Ha := fresh in let Hv := fresh in let Hs := fresh in
      destruct (wf_smem_operand s op H) as (?ad & ?v & ?s' & -> & Ha & Hv & Hs)
  end.

Lemma ok_mac_bit_family s op : wf s → ok (c54x_mac_bit_family s op).
Proof.
  intros H. unfold c54x_mac_bit_family. smem_case. cbv zeta.
  repeat (case_match; [eauto 7 with c54x|]). done.
Qed.

Lemma wf_neg_abs_ovf s dst r : wf s → wf (c54x_neg_abs_ovf s dst r).
Proof.
  intros H0. unfold c54x_neg_abs_ovf. cbv zeta.
  assert (H1 : wf (set_acc s dst (sext40 r))) by eauto with c54x.
  revert H1. generalize (set_acc s dst (sext40 r)). intros s1 H1.
  case_match; [done|]. case_match; [|done].
  assert (Hov : wf (s1 <| st0 := Z.lor (st0 s1) (if dst then ST0_OVB else ST0_OVA) |>))
    by (destruct dst; eauto with c54x).
  destruct (has _ ST1_OVM); [|done]. apply wf_set_acc; [done|].
  destruct (r <? 0); [apply acc40_min|apply acc40_max].
Qed.

Lemma wf_sfta s op : wf s → wf (c54x_sfta_exec s op).
Proof. intros. unfold c54x_sfta_exec. cbv zeta. eauto with c54x. Qed.
#[export] Hint Resolve wf_neg_abs_ovf wf_sfta : c54x.

(** A 32-bit value with one bit shifted in is still a 32-bit value. *)
Lemma acc40_rol v c : acc40 (Z.lor (u32 v) (Z.b2z c)).
Proof.
  apply acc40_u32, (lor_range 32); [lia|apply pc_u32|]. destruct c; cbn; lia.
Qed.
Lemma acc40_ror v c : acc40 (Z.lor (Z.shiftr (Z.land v 0xFFFFFFFF) 1) (Z.shiftl (Z.b2z c) 31)).
Proof.
  pose proof (land_range v 0xFFFFFFFF).
  apply acc40_u32, (lor_range 32); [lia| |destruct c; split; (discriminate || reflexivity)].
  rewrite Z.shiftr_div_pow2 by lia. change (2 ^ 1) with 2. change (2 ^ 32) with 4294967296. mlia.
Qed.
#[export] Hint Resolve acc40_rol acc40_ror wf_set_arp : c54x.

End C54xAlu.
