(* ===== verification/C54xFlow.v ===== *)
(** * Control flow and immediates of the C54x DSP
    ([hw/arm/calypso/l1-dsp/c54x_exec.c], the 0xF group after the accumulator
    family)

    The long-immediate arithmetic, the logic and shift instructions between
    accumulators, branches, calls and returns with their delayed forms, the
    repeats, status bits, INTR and RESET; the typing of each.  The code decodes
    the same instruction in up to three places, selected by the source and
    destination bits of the opcode; each copy is a definition where they differ.
    Tests that an earlier test makes unreachable are left out.  BC and BCD on TC
    (0xF82x, 0xF83x, 0xFA2x, 0xFA3x) depend on which instruction ran before: [None]
    here, they are in [DspPorts] with the record the loop keeps. *)
From S2P Require Import Prelude C54xAddr C54xState C54xDecode C54xIrq C54xAlu.

Module C54xFlow.
Import C54xAddr C54xState C54xDecode C54xIrq C54xAlu.

Definition ST1_XF : Z := Z.shiftl 1 13.
Definition ST1_BRAF : Z := Z.shiftl 1 15.

(** The result of a two-word instruction that does not branch. *)
Definition retire2 (s : C54xState) : option (Z * C54xState) := Some (2 + Z.b2z (lk_used s), s).

(** The second word, past a long-immediate operand address if there is one. *)
Definition lk_operand (s : C54xState) : Z := prog_fetch s (pc s + 1 + Z.b2z (lk_used s)).

(** [ra = data_read(s, s->sp); s->sp++] *)
Definition pop (s : C54xState) : Z * C54xState :=
  (data_read s (sp s), s <| sp := u16 (sp s + 1) |>).

(** [s->delayed_pc = target; s->delay_slots = 2] *)
Definition arm_delay (s : C54xState) (target : Z) : C54xState :=
  s <| delayed_pc := target |> <| delay_slots := 2 |>.

(** ** Immediate arithmetic and logic between accumulators *)

(** ADD, SUB, LD, AND, OR, XOR #lk,SHFT,src,dst; the same in 0xF0/0xF1, 0xF2, 0xF3. *)
Definition alu_lk (s : C54xState) (op : Z) : option (Z * C54xState) :=
  let lk := lk_operand s in
  let subop := Z.land (Z.shiftr op 4) 0xF in
  let src := get_acc s (f4_src op) in
  let v := Z.shiftl (if subop <=? 2 then i16 lk else lk) (Z.land op 0xF) in
  let '(s, r) :=
    if subop =? 0 then (c54x_carry_add40 s src v, src + v)
    else if subop =? 1 then (c54x_carry_sub40 s src v, src - v)
    else if subop =? 2 then (s, v)
    else if subop =? 3 then (s, Z.land src v)
    else if subop =? 4 then (s, Z.lor src v)
    else (s, Z.lxor src v) in
  retire2 (set_acc s (f4_dst op) (sext40 r)).

(** The #lk,16 forms of 0xF0 and 0xF1: the logic results are stored as they are. *)
Definition alu_lk16_f01 (s : C54xState) (op : Z) : option (Z * C54xState) :=
  let lk := prog_fetch s (pc s + 1) in
  let sub6 := Z.land op 0xF in
  let src := get_acc s (f4_src op) in
  let dst := f4_dst op in
  let v := Z.shiftl (i16 lk) 16 in
  let u := Z.shiftl lk 16 in
  let p := frct s (i16 (t s) * i16 lk) in
  retire2
    (if sub6 =? 0 then set_acc (c54x_carry_add40 s src v) dst (sext40 (src + v))
     else if sub6 =? 1 then set_acc (c54x_carry_sub40 s src v) dst (sext40 (src - v))
     else if sub6 =? 2 then set_acc s dst (sext40 v)
     else if sub6 =? 3 then set_acc s dst (Z.land src u)
     else if sub6 =? 4 then set_acc s dst (Z.lor src u)
     else if sub6 =? 5 then set_acc s dst (Z.lxor src u)
     else if sub6 =? 6 then set_acc s dst (sext40 p)
     else if sub6 =? 7 then set_acc s dst (sext40 (src + p))
     else s).

(** The #lk,16 forms of 0xF2 and 0xF3, sub-opcode 0 to 5 or 7. *)
Definition alu_lk16_f23 (s : C54xState) (op : Z) : option (Z * C54xState) :=
  let lk := lk_operand s in
  let sub := Z.land op 0x7 in
  let src := get_acc s (f4_src op) in
  let v := Z.shiftl (i16 lk) 16 in
  let u := Z.shiftl lk 16 in
  let '(s, r) :=
    if sub =? 0 then (c54x_carry_add40 s src v, src + v)
    else if sub =? 1 then (c54x_carry_sub40 s src v, src - v)
    else if sub =? 2 then (s, v)
    else if sub =? 3 then (s, Z.land src u)
    else if sub =? 4 then (s, Z.lor src u)
    else if sub =? 5 then (s, Z.lxor src u)
    else (s, src + frct s (i16 (t s) * i16 lk)) in
  retire2 (set_acc s (f4_dst op) (sext40 r)).

Definition c54x_logic_result (r : Z) : Z := r.

(** AND, OR, XOR, SFTL src,SHIFT,dst in 0xF0 and 0xF1. *)
Definition logic_f01 (s : C54xState) (op : Z) : C54xState :=
  let dst := f4_dst op in
  let shifted := c54x_logic_shifted (get_acc s (f4_src op)) (shift5 op) in
  let first := get_acc s dst in
  let aop := Z.land (Z.shiftr op 5) 0x7 in
  if aop =? 4 then set_acc s dst (c54x_logic_result (Z.land (sext40 first) (sext40 shifted)))
  else if aop =? 5 then set_acc s dst (c54x_logic_result (Z.lor (sext40 first) (sext40 shifted)))
  else if aop =? 6 then set_acc s dst (c54x_logic_result (Z.lxor (sext40 first) (sext40 shifted)))
  else if aop =? 7 then c54x_sftl_exec s op
  else s.

(** The same in 0xF2 and 0xF3. *)
Definition logic_f23 (s : C54xState) (op : Z) : C54xState :=
  let dst := f4_dst op in
  let sh := c54x_logic_shifted (get_acc s (f4_src op)) (shift5 op) in
  let dst_in := get_acc s dst in
  let sub := Z.land (Z.shiftr op 5) 0x7 in
  if sub =? 4 then set_acc s dst (sext40 (c54x_logic_result (Z.land dst_in sh)))
  else if sub =? 5 then set_acc s dst (sext40 (c54x_logic_result (Z.lor dst_in sh)))
  else if sub =? 6 then set_acc s dst (sext40 (c54x_logic_result (Z.lxor dst_in sh)))
  else c54x_sftl_exec s op.

(** ** Branches, calls, repeats *)

(** [s->rpt_count = n; s->rpt_active = true; s->rpt_fresh = true; s->pc += words] *)
Definition start_rpt (s : C54xState) (n words : Z) : C54xState :=
  s <| rpt_count := n |> <| rpt_active := true |> <| rpt_fresh := true |> <| pc := u32 (pc s + words) |>.

Definition start_rptb (s : C54xState) (rea' rsa' : Z) : C54xState :=
  s <| rea := rea' |> <| rsa := rsa' |> <| rptb_active := true |> <| st1 := Z.lor (st1 s) ST1_BRAF |>.

Definition exec_f01 (s : C54xState) (op : Z) : option (Z * C54xState) :=
  let op2 := prog_fetch s (pc s + 1) in
  let alu_op := Z.land (Z.shiftr op 4) 0xF in
  if alu_op <=? 5 then alu_lk s op
  else if op =? 0xF073 then Some (0, s <| pc := op2 |>)
  else if op =? 0xF074 then Some (0, push s (u16 (pc s + 2)) <| pc := op2 |>)
  else if op =? 0xF072 then retire2 (start_rptb s op2 (u16 (pc s + 2)))
  else if op =? 0xF070 then Some (0, start_rpt s op2 2)
  else if Z.land op 0xFEFF =? 0xF071 then Some (0, start_rpt (set_acc s (f4_dst op) 0) op2 2)
  else if Z.land op 0xFFF0 =? 0xF070 then retire s
  else if alu_op =? 6 then alu_lk16_f01 s op
  else if 8 <=? alu_op then retire (logic_f01 s op)
  else retire s.

Definition exec_f2 (s : C54xState) (op : Z) : option (Z * C54xState) :=
  let op2 := prog_fetch s (pc s + 1) in
  if op =? 0xF272 then retire2 (start_rptb s op2 (u16 (pc s + 4)))
  else if op =? 0xF274 then retire2 (arm_delay (push s (u16 (pc s + 4))) op2)
  else if op =? 0xF273 then retire2 (arm_delay s op2)
  else
    let m := Z.land op 0xFCFF in
    if (m =? 0xF060) || (m =? 0xF061) || (m =? 0xF062) || (m =? 0xF063) || (m =? 0xF064) || (m =? 0xF065) ||
       (m =? 0xF067) then alu_lk16_f23 s op
    else if Z.land (Z.shiftr op 4) 0xF <=? 5 then alu_lk s op
    else if Z.testbit op 7 then retire (logic_f23 s op)
    else retire s.

Definition exec_f3 (s : C54xState) (op : Z) : option (Z * C54xState) :=
  let m := Z.land op 0xFCFF in
  if (m =? 0xF060) || (m =? 0xF061) || (m =? 0xF063) || (m =? 0xF064) || (m =? 0xF065) || (m =? 0xF067)
  then alu_lk16_f23 s op
  else if Z.land (Z.shiftr op 4) 0xF <=? 5 then alu_lk s op
  else if Z.testbit op 7 then retire (logic_f23 s op)
  else retire s.

(** [(acc & 0x8000000000LL) ? (acc | ~0xFFFFFFFFFFLL) : acc] *)
Definition bc_acc (v : Z) : Z := if has v 0x8000000000 then Z.lor v (Z.lnot 0xFFFFFFFFFF) else v.

(** The accumulator conditions of BC (0xF84x, 0xF85x). *)
Definition bc_cond (s : C54xState) (cc : Z) : bool :=
  let accs := bc_acc (if has cc 0x08 then b s else a s) in
  let c3 := Z.land cc 0x07 in
  if c3 =? 2 then 0 <=? accs
  else if c3 =? 3 then accs <? 0
  else if c3 =? 4 then negb (accs =? 0)
  else if c3 =? 5 then accs =? 0
  else if c3 =? 6 then 0 <? accs
  else if c3 =? 7 then accs <=? 0
  else false.

Definition exec_f8 (s : C54xState) (op : Z) : option (Z * C54xState) :=
  let op2 := prog_fetch s (pc s + 1) in
  let sub := Z.land (Z.shiftr op 4) 0xF in
  if (sub =? 2) || (sub =? 3) then None
  else if Z.land op 0xFF80 =? 0xF880 then Some (0, s <| xpc := Z.land (Z.land op 0x7F) 3 |> <| pc := op2 |>)
  else if (sub =? 6) || (sub =? 7) then (* BANZ *ARn *)
    let n := Z.land op 7 in
    if negb (arx s n =? 0) then Some (0, set_ar s n (u16 (arx s n - 1)) <| pc := op2 |>) else Some (2, s)
  else if (sub =? 4) || (sub =? 5) then
    if bc_cond s (Z.land op 0xFF) then Some (0, s <| pc := op2 |>) else retire2 s
  else (* BANZ Smem *)
    let old_ar := arx s (Z.land op 7) in
    let '(_, s) := resolve_smem s op in
    let op2 := prog_fetch s (pc s + 1) in
    if negb (old_ar =? 0) then Some (0, s <| pc := op2 |>) else retire2 s.

(** BACCD and CALAD: a delayed branch or call to the low word of [acc]. *)
Definition exec_baccd_calad (s : C54xState) (acc : Z) (is_call : bool) : C54xState :=
  let tgt := Z.land acc 0xFFFF in
  arm_delay (if is_call then push s (u16 (pc s + 3)) else s) tgt.

(** FBACCD and FCALAD: the same across program pages. *)
Definition exec_fbaccd_fcalad (s : C54xState) (acc : Z) (is_call : bool) : C54xState :=
  let tgt := Z.land acc 0xFFFF in
  let new_xpc := Z.land (Z.shiftr acc 16) 0xFF in
  let new_xpc := if 3 <? new_xpc then Z.land new_xpc 3 else new_xpc in
  let s := if is_call then c54x_far_push s (u16 (pc s + 3)) else s in
  arm_delay (s <| xpc := new_xpc |>) tgt.

(** RETED and RETFD. *)
Definition exec_reted (s : C54xState) : C54xState :=
  let '(ra, s) := pop s in
  arm_delay (s <| st1 := clr (st1 s) ST1_INTM |>) ra.

(** FRETD and FRETED. *)
Definition exec_fretd (s : C54xState) (enable : bool) : C54xState :=
  let '(x, s) := pop s in
  let s := s <| xpc := if 3 <? x then Z.land x 3 else x |> in
  let '(ra, s) := pop s in
  let s := if enable then s <| st1 := clr (st1 s) ST1_INTM |> else s in
  arm_delay s ra.

(** MVDD Xmem,Ymem: the AR updates follow the store, which may itself write an AR. *)
Definition exec_mvdd (s : C54xState) (op : Z) : C54xState :=
  let xar := Z.land (Z.shiftr op 4) 0x07 in
  let yar := Z.land op 0x07 in
  let val := data_read s (arx s xar) in
  let s := data_write s (arx s yar) val in
  let s := set_ar s xar (u16 (if Z.testbit op 7 then arx s xar - 1 else arx s xar + 1)) in
  set_ar s yar (u16 (if Z.testbit op 3 then arx s yar - 1 else arx s yar + 1)).

Definition exec_f6 (s : C54xState) (op : Z) : option (Z * C54xState) :=
  let sub := Z.land (Z.shiftr op 4) 0xF in
  if (sub =? 0x2) || (sub =? 0x6) then
    retire (if has op 1 then s <| b := a s |> else s <| a := b s |>)
  else if sub =? 0xB then retire (s <| st1 := clr (st1 s) (Z.shiftl 1 (Z.land op 0x0F)) |>)
  else if (op =? 0xF6EB) || (op =? 0xF69B) then retire (exec_reted s)
  else if (op =? 0xF6E2) || (op =? 0xF6E3) then retire (exec_baccd_calad s (a s) (op =? 0xF6E3))
  else if (op =? 0xF6E4) || (op =? 0xF6E5) then retire (exec_fretd s (op =? 0xF6E5))
  else if (op =? 0xF6E6) || (op =? 0xF6E7) then retire (exec_fbaccd_fcalad s (a s) (op =? 0xF6E7))
  else if 0x8 <=? sub then retire (exec_mvdd s op)
  else retire s.

Definition exec_f5 (s : C54xState) (op : Z) : option (Z * C54xState) :=
  if Z.land op 0xFFF0 =? 0xF5B0 then
    retire (s <| st0 := Z.lor (st0 s) (Z.shiftl 1 (Z.land op 0x0F)) |>)
  else Some (0, start_rpt s (Z.land op 0xFF) 1).

(** INTR K (0xF7C0-0xF7DF). *)
Definition exec_intr (s : C54xState) (op : Z) : C54xState :=
  let kv := Z.land op 0x1F in
  let ip := iptr s in
  let s := push s (u16 (pc s + 1)) in
  let s := s <| st1 := Z.lor (st1 s) ST1_INTM |> in
  let s := if 16 <=? kv then s <| ifr := Z.land (ifr s) (u16 (Z.lnot (Z.shiftl 1 (kv - 16)))) |> else s in
  s <| pc := u16 (ip * 0x80 + kv * 4) |>.

(** RESET (0xF7E0). *)
Definition exec_reset (s : C54xState) : C54xState :=
  let s := s <| st0 := Z.lor ST0_C ST0_TC |> <| st1 := Z.lor (Z.lor ST1_INTM ST1_SXM) ST1_XF |> in
  let s := s <| ifr := 0 |> <| rpt_active := false |> <| delay_slots := 0 |> in
  s <| pc := u16 (iptr s * 0x80) |>.

(** The 8-bit loads of 0xF70x-0xF7Ax. *)
Definition exec_f7_ld (s : C54xState) (sub k : Z) : C54xState :=
  if sub =? 0x0 then s <| st1 := Z.lor (clr (st1 s) ST1_ASM_MASK) (Z.land k ST1_ASM_MASK) |>
  else if sub <=? 0x7 then set_ar s (sub - 1) k
  else if sub =? 0x8 then
    s <| t := if has (st1 s) ST1_SXM && has k 0x80 then k + 0xFF00 else k |>
  else if sub =? 0x9 then s <| st0 := Z.lor (clr (st0 s) ST0_DP_MASK) (Z.land k ST0_DP_MASK) |>
  else set_arp s (Z.land k 7).

Definition exec_f7 (s : C54xState) (op : Z) : option (Z * C54xState) :=
  let sub := Z.land (Z.shiftr op 4) 0xF in
  if Z.land op 0xFFF0 =? 0xF7B0 then
    retire (s <| st1 := Z.lor (st1 s) (Z.shiftl 1 (Z.land op 0x0F)) |>)
  else if (op =? 0xF7E2) || (op =? 0xF7E3) then retire (exec_baccd_calad s (b s) (op =? 0xF7E3))
  else if (op =? 0xF7E6) || (op =? 0xF7E7) then retire (exec_fbaccd_fcalad s (b s) (op =? 0xF7E7))
  else if Z.land op 0xFFE0 =? 0xF7C0 then Some (0, exec_intr s op)
  else if op =? 0xF7E0 then Some (0, exec_reset s)
  else if (sub =? 0xE) || (sub =? 0xF) then retire s
  else retire (exec_f7_ld s sub (Z.land op 0xFF)).

(** FCALL and CC. *)
Definition exec_f9 (s : C54xState) (op : Z) : option (Z * C54xState) :=
  let op2 := prog_fetch s (pc s + 1) in
  if has op 0x80 then
    let s := c54x_far_push s (u16 (pc s + 2)) in
    Some (0, s <| xpc := Z.land (Z.land op 0x7F) 3 |> <| pc := op2 |>)
  else
    let '(take, s) := c54x_cond_true s (Z.land op 0x7F) in
    if take then Some (0, push s (u16 (pc s + 2)) <| pc := op2 |>) else retire2 s.

(** FBD and BCD; every condition but those on an accumulator or TC branches,
    at once and without delay slots. *)
Definition exec_fa (s : C54xState) (op : Z) : option (Z * C54xState) :=
  let op2 := prog_fetch s (pc s + 1) in
  let fa_sub := Z.land (Z.shiftr op 4) 0xF in
  let cc := Z.land op 0x7F in
  if has op 0x80 then retire2 (arm_delay (s <| xpc := Z.land cc 3 |>) op2)
  else if (fa_sub =? 0x2) || (fa_sub =? 0x3) then None
  else if has cc 0x40 then
    let '(take, s) := c54x_cond_true s cc in
    retire2 (if take then arm_delay s op2 else s)
  else Some (0, s <| pc := op2 |>).

(** FCALLD and CCD. *)
Definition exec_fb (s : C54xState) (op : Z) : option (Z * C54xState) :=
  let op2 := prog_fetch s (pc s + 1) in
  if has op 0x80 then
    let s := c54x_far_push s (u16 (pc s + 4)) in
    retire2 (arm_delay (s <| xpc := Z.land (Z.land op 0x7F) 3 |>) op2)
  else
    let '(take, s) := c54x_cond_true s (Z.land op 0x7F) in
    retire2 (if take then arm_delay (push s (u16 (pc s + 4))) op2 else s).

(** The condition of RC and RCD: a copy of [c54x_cond_true] that does not
    clear the overflow bits and lets the first group 2 condition decide. *)
Definition rc_cond (s : C54xState) (cc : Z) : bool :=
  if cc =? 0x00 then true
  else if has cc 0x40 then
    let acc := if has cc 0x08 then sext40 (b s) else sext40 (a s) in
    let test := Z.land cc 0x07 in
    let ov := if has cc 0x08 then has (st0 s) (Z.shiftl 1 9) else has (st0 s) (Z.shiftl 1 8) in
    if Z.land cc 0x70 =? 0x70 then ov
    else if Z.land cc 0x70 =? 0x60 then negb ov
    else if test =? 0x05 then acc =? 0
    else if test =? 0x04 then negb (acc =? 0)
    else if test =? 0x03 then acc <? 0
    else if test =? 0x07 then acc <=? 0
    else if test =? 0x06 then 0 <? acc
    else if test =? 0x02 then 0 <=? acc
    else true
  else if Z.land cc 0x30 =? 0x30 then has (st0 s) ST0_TC
  else if Z.land cc 0x30 =? 0x20 then negb (has (st0 s) ST0_TC)
  else if Z.land cc 0x0C =? 0x0C then has (st0 s) ST0_C
  else if Z.land cc 0x0C =? 0x08 then negb (has (st0 s) ST0_C)
  else true.

(** RC and RET. *)
Definition exec_rc (s : C54xState) (op : Z) : option (Z * C54xState) :=
  if rc_cond s (Z.land op 0xFF) then let '(ra, s) := pop s in Some (0, s <| pc := ra |>) else retire s.

(** RCD and RETD. *)
Definition exec_rcd (s : C54xState) (op : Z) : option (Z * C54xState) :=
  if rc_cond s (Z.land op 0xFF) then let '(ra, s) := pop s in retire (arm_delay s ra) else retire s.

(** What is left of the 0xF group after the accumulator family and TRAP. *)
Definition exec_flow (s : C54xState) (op : Z) : option (Z * C54xState) :=
  let hi8 := Z.land (Z.shiftr op 8) 0xFF in
  if hi8 =? 0xF4 then
    retire (if Z.land op 0xFFF0 =? 0xF4B0 then s <| st0 := clr (st0 s) (Z.shiftl 1 (Z.land op 0x0F)) |> else s)
  else if (hi8 =? 0xF0) || (hi8 =? 0xF1) then exec_f01 s op
  else if hi8 =? 0xF2 then exec_f2 s op
  else if hi8 =? 0xF8 then exec_f8 s op
  else if hi8 =? 0xF3 then exec_f3 s op
  else if hi8 =? 0xF6 then exec_f6 s op
  else if hi8 =? 0xF5 then exec_f5 s op
  else if hi8 =? 0xF7 then exec_f7 s op
  else if hi8 =? 0xF9 then exec_f9 s op
  else if hi8 =? 0xFA then exec_fa s op
  else if hi8 =? 0xFB then exec_fb s op
  else if hi8 =? 0xFC then exec_rc s op
  else if hi8 =? 0xFE then exec_rcd s op
  else retire s.

(** ** Typing *)

(** A signed 40-bit value is one whose bits from 39 on are all equal, which
    the logic operations preserve. *)
Lemma signed40_shiftr v : -2 ^ 39 ≤ v < 2 ^ 39 ↔ Z.shiftr v 39 = 0 ∨ Z.shiftr v 39 = -1.
Proof. rewrite Z.shiftr_div_pow2 by lia. change (2 ^ 39) with 549755813888. split; intros; mlia. Qed.

Lemma signed40_acc40 v : -2 ^ 39 ≤ v < 2 ^ 39 → acc40 v.
Proof. unfold acc40. lia. Qed.

Lemma acc40_logic x y :
  -2 ^ 39 ≤ x < 2 ^ 39 → -2 ^ 39 ≤ y < 2 ^ 39 →
  acc40 (Z.land x y) ∧ acc40 (Z.lor x y) ∧ acc40 (Z.lxor x y).
Proof.
  intros Hx%signed40_shiftr Hy%signed40_shiftr.
  split_and!; apply signed40_acc40, signed40_shiftr;
    rewrite ?Z.shiftr_land, ?Z.shiftr_lor, ?Z.shiftr_lxor;
    destruct Hx as [-> | ->], Hy as [-> | ->]; auto.
Qed.

(** An accumulator combined with a 16-bit immediate in its high word. *)
Lemma acc40_logic_lk v x :
  acc40 v → word x →
  acc40 (Z.land v (Z.shiftl x 16)) ∧ acc40 (Z.lor v (Z.shiftl x 16)) ∧ acc40 (Z.lxor v (Z.shiftl x 16)).
Proof.
  intros Hv Hx.
  assert (Hu : 0 ≤ Z.shiftl x 16 < 2 ^ 32)
    by (rewrite Z.shiftl_mul_pow2 by lia; unfold word in Hx; lia).
  destruct (Z.ltb_spec v (2 ^ 39)) as [Hs|Hs].
  - unfold acc40 in Hv. apply acc40_logic; lia.
  - unfold acc40 in *. pose proof (land_range v (Z.shiftl x 16)) as Hl.
    pose proof (lor_range 40 v (Z.shiftl x 16)) as Ho.
    pose proof (lxor_range 40 v (Z.shiftl x 16)) as Hxr.
    lia.
Qed.

Lemma acc40_signed v : acc40 (sext40 v).
Proof. apply signed40_acc40, sext40_range. Qed.

Lemma ok_retire2 s : wf s → ok (retire2 s).
Proof. done. Qed.
Lemma wf_arm_delay s v : wf s → word v → wf (arm_delay s v).
Proof. intros. unfold arm_delay. eauto with c54x. Qed.
Lemma wf_pop s : wf s → word (fst (pop s)) ∧ wf (snd (pop s)).
Proof. intros. cbn [pop fst snd]. eauto with c54x. Qed.
Lemma wf_start_rpt s n k : wf s → word n → wf (start_rpt s n k).
Proof. intros. unfold start_rpt. eauto 8 with c54x. Qed.
Lemma wf_start_rptb s e r : wf s → word e → word r → wf (start_rptb s e r).
Proof.
  intros. unfold start_rptb. apply wf_set_st1; [eauto 6 with c54x|].
  apply word_lor; [eauto with c54x|]. split; [discriminate|reflexivity].
Qed.
Lemma word_lk_operand s : wf s → word (lk_operand s).
Proof. unfold lk_operand. eauto with c54x. Qed.
Lemma word_bit op : word (Z.shiftl 1 (Z.land op 0x0F)).
Proof.
  pose proof (land_range op 15) as H. rewrite Z.shiftl_1_l. unfold word.
  pose proof (Z.pow_pos_nonneg 2 (Z.land op 15)). pose proof (Z.pow_le_mono_r 2 (Z.land op 15) 15).
  change (2 ^ 15) with 32768 in *. lia.
Qed.
Lemma wf_cond_true s cc : wf s → wf (snd (c54x_cond_true s cc)).
Proof. intros. unfold c54x_cond_true. cbv zeta. repeat case_match; cbn [snd]; eauto with c54x. Qed.
Lemma xpc_page x : word x → 0 ≤ (if 3 <? x then Z.land x 3 else x) < 4.
Proof. unfold word. intros. destruct (Z.ltb_spec 3 x); [apply xpc_land3|lia]. Qed.
Lemma acc40_zero : acc40 0. Proof. unfold acc40. lia. Qed.
#[export] Hint Resolve acc40_signed ok_retire2 wf_arm_delay wf_start_rpt wf_start_rptb word_lk_operand
  word_bit acc40_zero xpc_page wf_far_push : c54x.

Lemma ok_alu_lk s op : wf s → ok (alu_lk s op).
Proof. intros. unfold alu_lk. cbv zeta. repeat case_if; eauto with c54x. Qed.

Lemma ok_alu_lk16_f23 s op : wf s → ok (alu_lk16_f23 s op).
Proof. intros. unfold alu_lk16_f23. cbv zeta. repeat case_if; eauto with c54x. Qed.

Lemma ok_alu_lk16_f01 s op : wf s → ok (alu_lk16_f01 s op).
Proof.
  intros H. unfold alu_lk16_f01. cbv zeta. apply ok_retire2.
  destruct (acc40_logic_lk (get_acc s (f4_src op)) (prog_fetch s (pc s + 1))) as (? & ? & ?); [eauto with c54x..|].
  repeat (case_if; [eauto with c54x|]). done.
Qed.

Lemma wf_sftl s op : wf s → wf (c54x_sftl_exec s op).
Proof.
  intros H. unfold c54x_sftl_exec. cbv zeta.
  pose proof (land_range (get_acc s (f4_src op)) 0xFFFFFFFF) as Hv.
  case_if; [|case_if]; (apply wf_set_acc; [eauto with c54x|]); apply acc40_u32; [|lia|apply pc_u32].
  rewrite Z.shiftr_div_pow2 by lia. split; [apply Z.div_pos; lia|].
  apply Z.div_lt_upper_bound; [lia|]. pose proof (Z.pow_pos_nonneg 2 (- shift5 op)). nia.
Qed.

Lemma wf_logic_f01 s op : wf s → wf (logic_f01 s op).
Proof.
  intros H. unfold logic_f01, c54x_logic_result. cbv zeta.
  match goal with |- context [Z.land (sext40 ?x) (sext40 ?y)] =>
    destruct (acc40_logic (sext40 x) (sext40 y) (sext40_range x) (sext40_range y)) as (? & ? & ?) end.
  repeat case_if; eauto using wf_sftl with c54x.
Qed.

Lemma wf_logic_f23 s op : wf s → wf (logic_f23 s op).
Proof. intros H. unfold logic_f23. cbv zeta. repeat case_if; eauto using wf_sftl with c54x. Qed.
#[export] Hint Resolve ok_alu_lk ok_alu_lk16_f23 ok_alu_lk16_f01 wf_sftl wf_logic_f01 wf_logic_f23 : c54x.

Ltac ok_cases := repeat (ok_if; [cbn [ok]; eauto 7 with c54x|]).

Lemma ok_f01 s op : wf s → ok (exec_f01 s op).
Proof.
  intros H. unfold exec_f01. cbv zeta. ok_cases. eauto with c54x.
Qed.
Lemma ok_f2 s op : wf s → ok (exec_f2 s op).
Proof. intros H. unfold exec_f2. cbv zeta. ok_cases. eauto with c54x. Qed.
Lemma ok_f3 s op : wf s → ok (exec_f3 s op).
Proof. intros H. unfold exec_f3. cbv zeta. ok_cases. eauto with c54x. Qed.

Lemma ok_f8 s op : wf s → ok (exec_f8 s op).
Proof.
  intros H. unfold exec_f8. cbv zeta. pose proof (wf_resolve_smem s op H) as [_ Hs].
  destruct (resolve_smem s op) as [ad s1]. cbn [snd] in Hs.
  repeat case_if; cbn [ok]; eauto 6 with c54x.
Qed.

Lemma wf_baccd_calad s acc c : wf s → wf (exec_baccd_calad s acc c).
Proof. intros. unfold exec_baccd_calad. cbv zeta. destruct c; eauto with c54x. Qed.
Lemma wf_fbaccd_fcalad s acc c : wf s → wf (exec_fbaccd_fcalad s acc c).
Proof.
  intros H. unfold exec_fbaccd_fcalad. cbv zeta.
  apply wf_arm_delay; [apply wf_set_xpc; [destruct c|apply xpc_page]|]; eauto with c54x.
Qed.
Lemma wf_clear_intm s : wf s → wf (s <| st1 := clr (st1 s) ST1_INTM |>).
Proof. eauto with c54x. Qed.
Lemma wf_reted s : wf s → wf (exec_reted s).
Proof.
  intros H. unfold exec_reted. destruct (wf_pop s H) as [Hra Hs]. destruct (pop s) as [ra s1].
  apply wf_arm_delay; [by apply wf_clear_intm|done].
Qed.
Lemma wf_fretd s e : wf s → wf (exec_fretd s e).
Proof.
  intros H. unfold exec_fretd. destruct (wf_pop s H) as [Hx Hs]. destruct (pop s) as [x s1].
  cbn [fst snd] in *. assert (H2 := wf_set_xpc s1 _ Hs (xpc_page x Hx)). revert H2.
  generalize (s1 <| xpc := if 3 <? x then Z.land x 3 else x |>). intros s2 H2.
  destruct (wf_pop s2 H2) as [Hra Hs3]. destruct (pop s2) as [ra s3]. cbn [fst snd] in *.
  apply wf_arm_delay; [destruct e; [by apply wf_clear_intm|done]|done].
Qed.
Lemma wf_mvdd s op : wf s → wf (exec_mvdd s op).
Proof. intros. unfold exec_mvdd. cbv zeta. eauto 8 with c54x. Qed.
#[export] Hint Resolve wf_baccd_calad wf_fbaccd_fcalad wf_reted wf_fretd wf_mvdd : c54x.

Lemma ok_f6 s op : wf s → ok (exec_f6 s op).
Proof.
  intros H. unfold exec_f6. cbv zeta. ok_if; [apply ok_retire; case_if; eauto with c54x|].
  ok_cases. done.
Qed.
Lemma ok_f5 s op : wf s → ok (exec_f5 s op).
Proof. intros H. unfold exec_f5. ok_cases. cbn [ok]. eauto with c54x. Qed.

Lemma wf_intr s op : wf s → wf (exec_intr s op).
Proof. intros. unfold exec_intr. cbv zeta. case_if; eauto 8 with c54x. Qed.
Lemma wf_reset s : wf s → wf (exec_reset s).
Proof.
  intros. unfold exec_reset. cbv zeta. apply wf_set_pc; [|eauto with c54x].
  apply wf_set_delay_slots, wf_set_rpt_active, wf_set_ifr; [|eauto with c54x].
  apply wf_set_st1; [apply wf_set_st0; [done|]|]; split; (discriminate || reflexivity).
Qed.
Lemma wf_f7_ld s sub k : wf s → 0 ≤ k < 256 → wf (exec_f7_ld s sub k).
Proof.
  intros H Hk. assert (word k) by (unfold word; lia). unfold exec_f7_ld.
  assert (word (k + 0xFF00)) by (unfold word; lia).
  assert (0 ≤ Z.land k 7 < 8) by (pose proof (land_range k 7); lia).
  repeat case_if; eauto 6 with c54x.
Qed.
Lemma ok_f7 s op : wf s → ok (exec_f7 s op).
Proof.
  intros H. unfold exec_f7. cbv zeta. pose proof (land_range op 255).
  pose proof (wf_intr s op H). pose proof (wf_reset s H). ok_cases.
  apply ok_retire, wf_f7_ld; [done|lia].
Qed.

Lemma ok_f9 s op : wf s → ok (exec_f9 s op).
Proof.
  intros H. unfold exec_f9. cbv zeta. pose proof (wf_cond_true s (Z.land op 0x7F) H) as Hc.
  destruct (c54x_cond_true s _) as [tk s1]. cbn [snd] in Hc. repeat case_if; cbn [ok]; eauto 7 with c54x.
Qed.
Lemma ok_fa s op : wf s → ok (exec_fa s op).
Proof.
  intros H. unfold exec_fa. cbv zeta. pose proof (wf_cond_true s (Z.land op 0x7F) H) as Hc.
  destruct (c54x_cond_true s _) as [tk s1]. cbn [snd] in Hc. ok_if; [eauto with c54x|]. ok_if; [done|].
  ok_if; [apply ok_retire2; case_if|cbn [ok]]; eauto with c54x.
Qed.
Lemma ok_fb s op : wf s → ok (exec_fb s op).
Proof.
  intros H. unfold exec_fb. cbv zeta. pose proof (wf_cond_true s (Z.land op 0x7F) H) as Hc.
  destruct (c54x_cond_true s _) as [tk s1]. cbn [snd] in Hc.
  ok_if; apply ok_retire2; [|case_if]; eauto 6 with c54x.
Qed.
Lemma ok_rc s op : wf s → ok (exec_rc s op).
Proof.
  intros H. unfold exec_rc. ok_if; [|done]. destruct (wf_pop s H) as [Hra Hs]. destruct (pop s) as [ra s1].
  cbn [ok retire fst snd] in *. eauto with c54x.
Qed.
Lemma ok_rcd s op : wf s → ok (exec_rcd s op).
Proof.
  intros H. unfold exec_rcd. ok_if; [|done]. destruct (wf_pop s H) as [Hra Hs]. destruct (pop s) as [ra s1].
  cbn [ok retire fst snd] in *. eauto with c54x.
Qed.

Lemma ok_flow s op : wf s → ok (exec_flow s op).
Proof.
  intros H. unfold exec_flow. cbv zeta. ok_if; [apply ok_retire; case_if; eauto with c54x|].
  repeat (ok_if; [auto using ok_f01, ok_f2, ok_f3, ok_f8, ok_f6, ok_f5, ok_f7, ok_f9, ok_fa, ok_fb, ok_rc, ok_rcd|]).
  done.
Qed.

(** ** Where the returns differ from their counterparts *)

(** RC and RCD on the overflow of A test the top bit of the data page pointer. *)
Theorem rc_aov_tests_dp s : rc_cond s 0x70 = Z.testbit (dp s) 8.
Proof.
  change (rc_cond s 0x70) with (has (st0 s) (Z.shiftl 1 8)). unfold dp.
  rewrite Z.land_spec. change (Z.testbit ST0_DP_MASK 8) with true. rewrite andb_true_r. by apply has_bit.
Qed.

(** RETED pops one word of the two an interrupt entry pushes: it goes to the
    address the saved page number makes, where RETE goes back to the program. *)
Theorem reted_misses_frame s vec imr_bit :
  wf s → plain_cell (u16 (sp s - 1)) = true → plain_cell (u16 (sp s - 2)) = true →
  let s1 := take_vector s vec imr_bit (pc s) in
  delayed_pc (exec_reted s1) = xpc s ∧ sp (exec_reted s1) = u16 (sp s - 1) ∧
  pc (exec_rete s1) = u16 (pc s).
Proof.
  intros Hw H1 H2 s1. destruct (take_vector_spec s vec imr_bit (pc s) H1 H2) as (_ & Es & Ex & Ep & _).
  fold s1 in Es, Ex, Ep. pose proof (wf_xpc _ Hw). clearbody s1.
  assert (u16 (u16 (sp s - 2) + 1) = u16 (sp s - 1)) as Eu by (unfold u16; mlia).
  unfold exec_reted, pop, arm_delay. cbn [delayed_pc sp update_field]. rewrite Es, Eu. split; [done|]. split; [done|].
  rewrite (exec_rete_pop2 s1 (u16 (pc s)) (xpc s)); rewrite ?Es, ?Eu; auto using word_u16.
Qed.

End C54xFlow.
