(* ===== verification/C54xPar.v ===== *)
(** * Dual-operand and parallel instructions of the C54x DSP
    ([hw/arm/calypso/l1-dsp/c54x_exec.c])

    The opcode groups 0xA to 0xE whole: the dual-operand multiply family, the
    parallel LD||MAC and ST||op instructions, FIRS, ABDST and LMS, the register
    moves and the repeat, frame and status instructions of the 0xE group.  The
    two memory operands Xmem and Ymem go through AR2..AR5 with a two-bit
    modification each.  The compatibility switches have their defaults; in
    particular the rounding forms have their legacy decoding
    ([c54x_mac_ancien], the product is rounded before it is added).

    Every opcode of the five groups is taken by a branch translated here: the
    tests of the source behind them (AND, MACP, MACD, CMPS and the immediate
    additions of the 0xA group, the accumulator operations, shifts and RPTB of
    the 0xE group) ask for opcodes an earlier test has taken. *)
From S2P Require Import Prelude C54xAddr C54xState C54xDecode C54xIrq C54xAlu C54xFlow.

Module C54xPar.
Import C54xAddr C54xState C54xDecode C54xIrq C54xAlu C54xFlow.

(** ** Operands *)

(** [Xmod[7:6] Xar[5:4] Ymod[3:2] Yar[1:0]], AR = field + 2. *)
Definition xmod (op : Z) : Z := Z.land (Z.shiftr op 6) 3.
Definition xar (op : Z) : Z := Z.land (Z.shiftr op 4) 3 + 2.
Definition ymod (op : Z) : Z := Z.land (Z.shiftr op 2) 3.
Definition yar (op : Z) : Z := Z.land op 3 + 2.

(** Both post-modifications, Xmem first. *)
Definition par_postmods (s : C54xState) (op : Z) : C54xState :=
  c54x_par_postmod (c54x_par_postmod s (xar op) (xmod op)) (yar op) (ymod op).

(** [rnd()]: add one half, clear the low word. *)
Definition rnd (p : Z) : Z := Z.land (p + 0x8000) (Z.lnot 0xFFFF).

(** [Ymem = (src << ASM) >> 16] of the parallel stores. *)
Definition st_asm (s : C54xState) (sel : bool) : Z :=
  Z.land (Z.shiftr (shift_by (get_acc s sel) (asm_shift s)) 16) 0xFFFF.

(** ** The 0xA and 0xB groups *)

(** MPY, MACSU, MAC and MACR Xmem,Ymem: the product of the two memory operands;
    T takes Xmem. *)
Definition exec_dual_mac (s : C54xState) (op : Z) : C54xState :=
  let hi8 := Z.land (Z.shiftr op 8) 0xFF in
  let xval := data_read s (arx s (xar op)) in
  let yval := data_read s (arx s (yar op)) in
  let s := par_postmods s op in
  let is_mpy := (hi8 =? 0xA4) || (hi8 =? 0xA5) in
  let is_macsu := (hi8 =? 0xA6) || (hi8 =? 0xA7) in
  let is_macr := (0xB4 <=? hi8) && (hi8 <=? 0xB7) in
  let p := frct s (if is_macsu then xval * i16 yval else i16 xval * i16 yval) in
  let p := if is_macr then rnd p else p in
  let dstb := Z.testbit op 8 in
  let srcb := if is_mpy || is_macsu then dstb else Z.testbit op 9 in
  let res := if is_mpy then p else get_acc s srcb + p in
  let res := if is_macr then Z.land res (Z.lnot 0xFFFF) else res in
  set_acc s dstb (sext40 res) <| t := xval |>.

(** MAS (0xB8, 0xB9, 0xBB) and MASR (0xBC-0xBF) Xmem,Ymem,src,dst. *)
Definition exec_dual_mas (s : C54xState) (op : Z) (round : bool) : C54xState :=
  let xval := data_read s (arx s (xar op)) in
  let yval := data_read s (arx s (yar op)) in
  let s := par_postmods s op in
  let pr := frct s (i16 xval * i16 yval) in
  let pr := if round then rnd pr else pr in
  set_acc s (Z.testbit op 8) (sext40 (get_acc s (Z.testbit op 9) - pr)) <| t := xval |>.

(** LDMM MMR,dst. *)
Definition exec_ldmm (s : C54xState) (op : Z) : C54xState :=
  set_acc s (Z.testbit op 4) (sext40 (i16 (data_read s (Z.land op 0x7F)))).

(** LD Xmem,dst || MAC[R]/MAS[R] Ymem: the product goes to the other
    accumulator, T is unchanged. *)
Definition exec_ld_mac (s : C54xState) (op : Z) : C54xState :=
  let xv := data_read s (arx s (xar op)) in
  let yv := data_read s (arx s (yar op)) in
  let dst := Z.testbit op 8 in
  let p := frct s (i16 (t s) * i16 yv) in
  let p := if Z.testbit op 9 then rnd p else p in
  let acc := get_acc s (negb dst) in
  let s := set_acc s (negb dst) (sext40 (if Z.testbit op 10 then acc - p else acc + p)) in
  let s := set_acc s dst (sext40 (Z.shiftl (i16 xv) 16)) in
  par_postmods s op.

(** ADD Xmem,Ymem,dst. *)
Definition exec_add_xy (s : C54xState) (op : Z) : C54xState :=
  let xv := i16 (data_read s (arx s (xar op))) in
  let yv := i16 (data_read s (arx s (yar op))) in
  par_postmods (set_acc s (Z.testbit op 8) (sext40 (Z.shiftl (xv + yv) 16))) op.

Definition exec_group_ab (s : C54xState) (op : Z) : C54xState :=
  let hi8 := Z.land (Z.shiftr op 8) 0xFF in
  if (0xA4 <=? hi8) && (hi8 <=? 0xA7) || (0xB0 <=? hi8) && (hi8 <=? 0xB7) then exec_dual_mac s op
  else if (0xBC <=? hi8) && (hi8 <=? 0xBF) then exec_dual_mas s op true
  else if (hi8 =? 0xB8) || (hi8 =? 0xB9) || (hi8 =? 0xBB) then exec_dual_mas s op false
  else if hi8 =? 0xBA then exec_ldmm s op
  else if Z.land op 0xF800 =? 0xA800 then exec_ld_mac s op
  else if Z.land op 0xFE00 =? 0xA000 then exec_add_xy s op
  else s.

(** ** The 0xC and 0xD groups: ST src,Ymem || op Xmem,dst *)
Definition exec_group_cd (s : C54xState) (op : Z) : C54xState :=
  let d_acc := Z.testbit op 8 in
  let yaddr := arx s (yar op) in
  let xval := data_read s (arx s (xar op)) in
  let xs := i16 xval in
  let s := data_write s yaddr (st_asm s (Z.testbit op 9)) in
  let sub := Z.land (Z.shiftr op 10) 7 in
  let other := get_acc s (negb d_acc) in
  let prod := frct s (i16 (t s) * xs) in
  let r :=
    if sub =? 0 then other + Z.shiftl xs 16                       (* || ADD *)
    else if sub =? 1 then Z.shiftl xs 16 - other                  (* || SUB *)
    else if sub =? 2 then Z.shiftl xs 16                          (* || LD *)
    else if sub =? 3 then prod                                    (* || MPY *)
    else
      let prod := if Z.testbit op 10 then rnd prod else prod in   (* || MAC[R], MAS[R] *)
      if Z.testbit op 11 then get_acc s d_acc - prod else get_acc s d_acc + prod in
  par_postmods (set_acc s d_acc (sext40 r)) op.

(** ** The 0xE group *)

(** FIRS Xmem,Ymem,pmad (two words): B += AH * Pmem, A = (Xmem + Ymem) << 16;
    under RPT the coefficient pointer moves on. *)
Definition exec_firs (s : C54xState) (op : Z) : C54xState :=
  let pmad0 := prog_fetch s (pc s + 1) in
  let s := if negb (rpt_active s) || rpt_fresh s then s <| firs_pm := pmad0 |> <| rpt_fresh := false |>
           else s <| firs_pm := u16 (firs_pm s + 1) |> in
  let xv := data_read s (arx s (xar op)) in
  let yv := data_read s (arx s (yar op)) in
  let coef := i16 (prog_fetch s (firs_pm s)) in
  let prod := frct s (a_high s * coef) in
  let s := s <| b := sext40 (b s + prod) |> in
  let s := s <| a := sext40 (Z.shiftl (i16 xv + i16 yv) 16) |> in
  par_postmods s op.

(** ABDST Xmem,Ymem: B += |A(32-16)|, A = (Xmem - Ymem) << 16. *)
Definition exec_abdst (s : C54xState) (op : Z) : C54xState :=
  let xv := data_read s (arx s (xar op)) in
  let yv := data_read s (arx s (yar op)) in
  let ah := Z.land (Z.shiftr (a s) 16) 0x1FFFF in
  let ah := if has ah 0x10000 then ah - 0x20000 else ah in
  let s := s <| b := sext40 (b s + (if ah <? 0 then - ah else ah)) |> in
  let x40 := Z.shiftl (sxm_ext s xv) 16 in
  let y40 := Z.shiftl (sxm_ext s yv) 16 in
  let s := c54x_carry_sub40 s x40 y40 in
  par_postmods (s <| a := sext40 (x40 - y40) |>) op.

(** Overflow flag and saturation of one result of LMS. *)
Definition lms_ovf (s : C54xState) (r flag : Z) : Z * C54xState :=
  if r =? sat32 r then (r, s)
  else (if has (st1 s) ST1_OVM then sat32 r else r, s <| st0 := Z.lor (st0 s) flag |>).

(** LMS Xmem,Ymem: A += (Xmem << 16) + 2^15, B += Xmem * Ymem. *)
Definition exec_lms (s : C54xState) (op : Z) : C54xState :=
  let xv := data_read s (arx s (xar op)) in
  let yv := data_read s (arx s (yar op)) in
  let ra := sext40 (a s + Z.shiftl (sxm_ext s xv) 16 + 0x8000) in
  let rb := sext40 (b s + frct s (i16 xv * i16 yv)) in
  let '(ra, s) := lms_ovf s ra ST0_OVA in
  let '(rb, s) := lms_ovf s rb ST0_OVB in
  par_postmods (s <| a := ra |> <| b := rb |>) op.

(** The modification of MVDD starts from the address read before the store. *)
Definition mvdd_mod (s : C54xState) (n m addr : Z) : C54xState :=
  if m =? 1 then set_ar s n (u16 (addr - 1))
  else if m =? 2 then set_ar s n (u16 (addr + 1))
  else if m =? 3 then set_ar s n (c54x_circ_ref addr (i16 (arx s 0)) (bk s))
  else s.

(** MVDD Xmem,Ymem. *)
Definition exec_mvdd_xy (s : C54xState) (op : Z) : C54xState :=
  let xa := arx s (xar op) in
  let ya := arx s (yar op) in
  let s := data_write s ya (data_read s xa) in
  mvdd_mod (mvdd_mod s (xar op) (xmod op) xa) (yar op) (ymod op) ya.

(** ST src,Ymem || LD Xmem,T. *)
Definition exec_st_ldt (s : C54xState) (op : Z) : C54xState :=
  let yaddr := arx s (yar op) in
  let xval := data_read s (arx s (xar op)) in
  let s := data_write s yaddr (st_asm s (Z.testbit op 9)) in
  par_postmods (s <| t := xval |>) op.

(** MVMM mmrx,mmry: AR0-AR7, SP, and the registers above through data space. *)
Definition exec_mvmm (s : C54xState) (op : Z) : C54xState :=
  let src := Z.land (Z.shiftr op 4) 0xF in
  let dst := Z.land op 0xF in
  let val := if src <=? 7 then arx s src else if src =? 8 then sp s else data_read s (src + 0x10) in
  if dst <=? 7 then set_ar s dst val
  else if dst =? 8 then s <| sp := val |>
  else data_write s (dst + 0x10) val.

(** The condition of the 0xED branch. *)
Definition ed_cond (s : C54xState) (cond : Z) : bool :=
  if cond =? 0x00 then true
  else if cond =? 0x08 then b s <? 0
  else if cond =? 0x02 then negb (a s =? 0)
  else if cond =? 0x0A then negb (b s =? 0)
  else if cond =? 0x03 then a s =? 0
  else if cond =? 0x0B then b s =? 0
  else if cond =? 0x04 then 0 <? a s
  else if cond =? 0x0C then 0 <? b s
  else if cond =? 0x40 then has (st0 s) ST0_TC
  else if cond =? 0x41 then negb (has (st0 s) ST0_TC)
  else true.

(** The signed byte of FRAME. *)
Definition i8 (x : Z) : Z := (x + 128) mod 256 - 128.

Definition exec_group_e (s : C54xState) (op : Z) : Z * C54xState :=
  let hi8 := Z.land (Z.shiftr op 8) 0xFF in
  let op2 := prog_fetch s (pc s + 1) in
  let one := λ s, (consumed s, s) in
  let two := λ s, (2 + Z.b2z (lk_used s), s) in
  if Z.land op 0xFC00 =? 0xE000 then
    if hi8 =? 0xE0 then two (exec_firs s op)
    else if hi8 =? 0xE3 then one (exec_abdst s op)
    else if hi8 =? 0xE1 then one (exec_lms s op)
    else one s
  else if Z.land op 0xFE00 =? 0xEA00 then (* LD #k9,DP *)
    one (s <| st0 := Z.lor (clr (st0 s) ST0_DP_MASK) (Z.land op 0x01FF) |>)
  else if hi8 =? 0xEC then (* RPT #k8u *)
    (0, start_rpt s (Z.land op 0xFF) 1)
  else if hi8 =? 0xE5 then one (exec_mvdd_xy s op)
  else if Z.land op 0xFD00 =? 0xE400 then one (exec_st_ldt s op)
  else if hi8 =? 0xE7 then one (exec_mvmm s op)
  else if (hi8 =? 0xE8) || (hi8 =? 0xE9) then (* LD #k8u,dst *)
    one (set_acc s (Z.testbit op 8) (sext40 (Z.land op 0xFF)))
  else if hi8 =? 0xEF then (* RPTZ dst,#lk *)
    (0, start_rpt (set_acc s (Z.testbit op 0) 0) op2 2)
  else if hi8 =? 0xEE then (* FRAME #k8 *)
    one (s <| sp := u16 (sp s + i8 (Z.land op 0xFF)) |>)
  else if Z.land op 0xFFE0 =? 0xED00 then (* LD #k5,ASM *)
    one (s <| st1 := Z.lor (clr (st1 s) ST1_ASM_MASK) (Z.land op 0x1F) |>)
  else if hi8 =? 0xED then (* branch on condition, not delayed *)
    if ed_cond s (Z.land op 0xFF) then (0, s <| pc := op2 |>) else two s
  else one s.

(** ** Typing *)
Lemma wf_par_postmods s op : wf s → wf (par_postmods s op).
Proof. unfold par_postmods. eauto with c54x. Qed.
Lemma word_st_asm s sel : word (st_asm s sel).
Proof. apply word_and_ffff. Qed.
Lemma acc40_0 : acc40 0.
Proof. unfold acc40. lia. Qed.
#[export] Hint Resolve wf_par_postmods word_st_asm acc40_0 wf_start_rpt : c54x.

Lemma wf_group_ab s op : wf s → wf (exec_group_ab s op).
Proof.
  intros H. unfold exec_group_ab, exec_dual_mac, exec_dual_mas, exec_ldmm, exec_ld_mac, exec_add_xy.
  cbv zeta. repeat (case_match; [eauto 7 with c54x; fail|]). done.
Qed.

Lemma wf_group_cd s op : wf s → wf (exec_group_cd s op).
Proof. intros H. unfold exec_group_cd. cbv zeta. eauto 7 with c54x. Qed.

Lemma acc40_sat32 r : acc40 r → acc40 (sat32 r).
Proof. intros _. pose proof (sat32_range r). unfold acc40. lia. Qed.

Lemma wf_lms_ovf s r flag :
  wf s → acc40 r → word flag → acc40 (fst (lms_ovf s r flag)) ∧ wf (snd (lms_ovf s r flag)).
Proof.
  intros. unfold lms_ovf. case_if; [done|]. cbn [fst snd].
  split; [case_if; auto using acc40_sat32|eauto with c54x].
Qed.

Lemma wf_lms s op : wf s → wf (exec_lms s op).
Proof.
  intros H. unfold exec_lms. cbv zeta.
  match goal with |- context [lms_ovf s ?r ?f] =>
    destruct (wf_lms_ovf s r f) as [Ha H1]; [done|apply acc40_sext|apply word_ST0_OVA|];
    destruct (lms_ovf s r f) as [ra s1] end. cbn [fst snd] in *.
  match goal with |- context [lms_ovf s1 ?r ?f] =>
    destruct (wf_lms_ovf s1 r f) as [Hb H2]; [done|apply acc40_sext|apply word_ST0_OVB|];
    destruct (lms_ovf s1 r f) as [rb s2] end. cbn [fst snd] in *.
  eauto with c54x.
Qed.

Lemma wf_firs s op : wf s → wf (exec_firs s op).
Proof. intros H. unfold exec_firs. cbv zeta. case_match; eauto 9 with c54x. Qed.

Lemma wf_mvdd_mod s n m ad : wf s → wf (mvdd_mod s n m ad).
Proof. intros. unfold mvdd_mod. repeat case_if; auto using wf_put_ar, word_circ_ref with c54x. Qed.

Lemma wf_mvmm s op : wf s → wf (exec_mvmm s op).
Proof.
  intros H. unfold exec_mvmm. cbv zeta.
  match goal with |- context [set_ar s _ ?v] =>
    assert (Hv : word v) by (repeat case_if; eauto with c54x); revert Hv; generalize v; intros w Hw end.
  repeat case_if; eauto with c54x.
Qed.
#[export] Hint Resolve wf_lms wf_firs wf_mvdd_mod wf_mvmm : c54x.

Lemma wf_group_e s op : wf s → wf (snd (exec_group_e s op)).
Proof.
  intros H. unfold exec_group_e, exec_abdst, exec_mvdd_xy, exec_st_ldt. cbv zeta.
  assert (word 0x1F) by (unfold word; lia).
  repeat match goal with |- wf (snd (if ?c then _ else _)) => destruct c end;
    cbn [snd]; eauto 8 with c54x.
Qed.

End C54xPar.
