(* ===== verification/C54xMove.v ===== *)
(** * Memory moves and stores of the C54x DSP
    ([hw/arm/calypso/l1-dsp/c54x_exec.c])

    The opcode groups 0x6 to 0x9: the moves between data, program and register
    space with their repeat pointers, multiply-accumulate with program memory,
    compares, read-modify-write with a long immediate, BANZ, the extended
    shifts of 0x6F, the accumulator stores, the stack pops, the conditional
    stores and CMPS.  The compatibility switches have their defaults.

    [exec_group_67] is [None] for PORTR and PORTW (0x74, 0x75) alone, whose
    effect is the device behind the port ([DspPorts]).  As in [C54xPar] every
    other opcode is taken by a branch translated here: the remaining tests of
    the source (the generic LD, STL and STH, the moves at 0x91, 0x94-0x96,
    0x98-0x9B, 0x85, 0x8D and 0x9F) ask for opcodes an earlier test, or the
    families ahead of the switch, have taken. *)
From S2P Require Import Prelude C54xAddr C54xState C54xDecode C54xIrq C54xAlu C54xFlow.

Module C54xMove.
Import C54xAddr C54xState C54xDecode C54xIrq C54xAlu C54xFlow.

(** ** The 0x6 and 0x7 groups *)

(** The repeat pointer: the base on the first execution, [mvpd_src] after. *)
Definition rpt_pointer (s : C54xState) (base : Z) : Z * C54xState :=
  if negb (rpt_active s) || rpt_fresh s then (base, s <| rpt_fresh := false |>) else (mvpd_src s, s).

(** READA Smem. *)
Definition exec_reada (s : C54xState) (op : Z) : C54xState :=
  let '(ad, s) := resolve_smem s op in
  let '(psrc, s) := rpt_pointer s (Z.land (a s) 0xFFFF) in
  data_write s ad (prog_read s psrc) <| mvpd_src := u16 (psrc + 1) |>.

(** WRITA Smem. *)
Definition exec_writa (s : C54xState) (op : Z) : C54xState :=
  let '(ad, s) := resolve_smem s op in
  let pdst := if rpt_active s then mvpd_src s else Z.land (a s) 0xFFFF in
  prog_write s pdst (data_read s ad) <| mvpd_src := u16 (pdst + 1) |>.

(** The two addresses of MVKD and MVDK: [dmad] and the Smem operand, with the
    long-immediate modes decoded by the instruction itself. *)
Definition mvk_operands (s : C54xState) (op : Z) : Z * Z * C54xState :=
  let mode := if has op 0x80 then Z.land (Z.shiftr op 3) 0x0F else -1 in
  let s := s <| lk_used := false |> in
  let dmad := prog_fetch s (if 0xC <=? mode then pc s + 2 else pc s + 1) in
  let '(smem_addr, s) :=
    if 0xC <=? mode then
      let lk := prog_fetch s (pc s + 1) in
      let nar := Z.land op 0x07 in
      let '(ad, s) :=
        if mode =? 0xC then (u16 (arx s nar + lk), s)
        else if (mode =? 0xD) || (mode =? 0xE) then
          let v := u16 (arx s nar + lk) in (v, set_ar s nar v)
        else (lk, s) in
      (ad, set_arp s nar <| lk_used := true |>)
    else resolve_smem s op in
  if rpt_active s then
    let '(dmad, s) := if rpt_fresh s then (dmad, s <| rpt_fresh := false |>) else (mvpd_src s, s) in
    (dmad, smem_addr, s <| mvpd_src := u16 (dmad + 1) |>)
  else (dmad, smem_addr, s).

(** MVPD pmad,Smem (0x7C) and MVDP Smem,pmad (0x7D). *)
Definition exec_mvpd_mvdp (s : C54xState) (op : Z) : C54xState :=
  let '(ad, s) := resolve_smem s op in
  let pmad := lk_operand s in
  let '(padr, s) := rpt_pointer s pmad in
  let s := if Z.testbit op 8 then prog_write s padr (data_read s ad)
           else data_write s ad (prog_read s padr) in
  s <| mvpd_src := u16 (padr + 1) |>.

(** MACP Smem,pmad,src (0x78, 0x79) and MACD (0x7A, 0x7B). *)
Definition exec_macp_macd (s : C54xState) (op : Z) : C54xState :=
  let '(ad, s) := resolve_smem s op in
  let pmad := lk_operand s in
  let '(psrc, s) := rpt_pointer s pmad in
  let sval := data_read s ad in
  let prod := frct s (i16 sval * i16 (prog_fetch s psrc)) in
  let src := Z.testbit op 8 in
  let s := set_acc s src (sext40 (get_acc s src + prod)) <| t := sval |> in
  let s := if Z.testbit op 9 then data_write s (u16 (ad + 1)) sval else s in
  s <| mvpd_src := u16 (psrc + 1) |>.

(** MPY Smem,#lk,dst (0x62, 0x63) and MAC Smem,#lk,src,dst (0x64-0x67). *)
Definition exec_mpy_mac_lk (s : C54xState) (op : Z) : C54xState :=
  let '(_, sval, s) := smem_operand s op in
  let lk := lk_operand s in
  let prod := frct s (i16 sval * i16 lk) in
  let dst := Z.testbit op 8 in
  let s := if Z.land op 0xFE00 =? 0x6200 then set_acc s dst (sext40 prod)
           else set_acc s dst (sext40 (get_acc s (Z.testbit op 9) + prod)) in
  s <| t := sval |>.

(** The sum ADDM stores; with OVM set it saturates. *)
Definition addm_result (s : C54xState) (v lk : Z) : Z :=
  let r := sxm_ext s v + sxm_ext s lk in
  if has (st1 s) ST1_OVM && (0x7FFF <? r) then 0x7FFF
  else if has (st1 s) ST1_OVM && (r <? -0x8000) then 0x8000
  else u16 (i16 v + i16 lk).

Definition c54x_banz_value (op pre ea : Z) : Z :=
  if has op 0x80 && (0xC <=? Z.land (Z.shiftr op 3) 0x0F) then ea else pre.

(** BANZ pmad,Sind (0x6C) and BANZD (0x6E). *)
Definition exec_banz (s : C54xState) (op : Z) (delayed : bool) : option (Z * C54xState) :=
  let pre := arx s (Z.land op 0x07) in
  let '(ea, s) := resolve_smem s op in
  let pmad := lk_operand s in
  let pre := c54x_banz_value op pre ea in
  if pre =? 0 then retire2 s
  else if delayed then retire2 (arm_delay s pmad)
  else Some (0, s <| pc := pmad |>).

(** ADD, SUB, LD, STH and STL Smem,SHIFT of 0x6F, chosen by the second word. *)
Definition exec_6f (s : C54xState) (op : Z) : C54xState :=
  let '(ad, s) := resolve_smem s op in
  let op2 := lk_operand s in
  let sub := Z.land (Z.shiftr op2 5) 7 in
  let shift := shift5 op2 in
  let dst := Z.testbit op2 8 in
  let v := shift_by (sxm_ext s (data_read s ad)) shift in
  if sub =? 0 then set_acc s dst (sext40 (get_acc s (Z.testbit op2 9) + v))
  else if sub =? 1 then set_acc s dst (sext40 (get_acc s (Z.testbit op2 9) - v))
  else if sub =? 2 then set_acc s dst (sext40 v)
  else if sub =? 3 then
    let high := i16 (Z.land (Z.shiftr (get_acc s dst) 16) 0xFFFF) in
    data_write s ad (Z.land (shift_by high shift) 0xFFFF)
  else if sub =? 4 then data_write s ad (Z.land (shift_by (get_acc s dst) shift) 0xFFFF)
  else s.

Definition exec_group_67 (s : C54xState) (op : Z) : option (Z * C54xState) :=
  let hi8 := Z.land (Z.shiftr op 8) 0xFF in
  if hi8 =? 0x7E then retire (exec_reada s op)
  else if hi8 =? 0x7F then retire (exec_writa s op)
  else if hi8 =? 0x6D then retire (snd (resolve_smem s op)) (* MAR *)
  else if hi8 =? 0x76 then (* ST #lk,Smem *)
    let '(ad, s) := resolve_smem s op in retire2 (data_write s ad (lk_operand s))
  else if hi8 =? 0x77 then (* STM #lk,MMR *)
    let '(mmr, s) := resolve_mmr s op in retire2 (data_write s mmr (prog_fetch s (pc s + 1)))
  else if (hi8 =? 0x75) || (hi8 =? 0x74) then None
  else if hi8 =? 0x73 then (* MVMD MMR,dmad *)
    let dmad := prog_fetch s (pc s + 1) in retire2 (data_write s dmad (data_read s (Z.land op 0x7F)))
  else if hi8 =? 0x70 then (* MVKD dmad,Smem *)
    let '(dmad, smem_addr, s) := mvk_operands s op in retire2 (data_write s smem_addr (data_read s dmad))
  else if hi8 =? 0x71 then (* MVDK Smem,dmad *)
    let '(dmad, smem_addr, s) := mvk_operands s op in retire2 (data_write s dmad (data_read s smem_addr))
  else if hi8 =? 0x72 then (* MVDM dmad,MMR *)
    let dmad := prog_fetch s (pc s + 1) in Some (2, data_write s (Z.land op 0xFF) (data_read s dmad))
  else if Z.land op 0xFE00 =? 0x7C00 then retire2 (exec_mvpd_mvdp s op)
  else if Z.land op 0xFC00 =? 0x7800 then retire2 (exec_macp_macd s op)
  else if hi8 =? 0x60 then (* CMPM Smem,#lk *)
    let '(_, v, s) := smem_operand s op in retire2 (set_flag s ST0_TC (v =? lk_operand s))
  else if hi8 =? 0x61 then (* BITF Smem,#lk *)
    let '(_, v, s) := smem_operand s op in retire2 (set_flag s ST0_TC (has v (lk_operand s)))
  else if (Z.land op 0xF800 =? 0x6000) && negb (Z.land op 0x0600 =? 0) then retire2 (exec_mpy_mac_lk s op)
  else if hi8 =? 0x68 then (* ANDM *)
    let '(ad, v, s) := smem_operand s op in retire2 (data_write s ad (Z.land v (lk_operand s)))
  else if hi8 =? 0x69 then (* ORM *)
    let '(ad, v, s) := smem_operand s op in retire2 (data_write s ad (Z.lor v (lk_operand s)))
  else if hi8 =? 0x6A then (* XORM *)
    let '(ad, v, s) := smem_operand s op in retire2 (data_write s ad (Z.lxor v (lk_operand s)))
  else if hi8 =? 0x6B then (* ADDM *)
    let '(ad, v, s) := smem_operand s op in retire2 (data_write s ad (addm_result s v (lk_operand s)))
  else if hi8 =? 0x6C then exec_banz s op false
  else if hi8 =? 0x6E then exec_banz s op true
  else if hi8 =? 0x6F then retire2 (exec_6f s op)
  else retire s.

(** ** The 0x8 and 0x9 groups *)

(** The condition of STRCD, SRCCD and SACCD. *)
Definition xccd_cond (s : C54xState) (cond : Z) : bool :=
  let ca := sext40 (get_acc s (has cond 8)) in
  let c := Z.land cond 7 in
  if c =? 5 then ca =? 0
  else if c =? 4 then negb (ca =? 0)
  else if c =? 6 then 0 <? ca
  else if c =? 2 then 0 <=? ca
  else if c =? 3 then ca <? 0
  else if c =? 7 then ca <=? 0
  else false.

(** STRCD (0x9C), SRCCD (0x9D) and SACCD (0x9E, 0x9F) Xmem,cond: without the
    condition the cell is written with what it holds. *)
Definition exec_xccd (s : C54xState) (op : Z) : C54xState :=
  let hi8 := Z.land (Z.shiftr op 8) 0xFF in
  let '(xaddr, s) := resolve_xmem s op in
  let val :=
    if negb (xccd_cond s (Z.land op 0x0F)) then data_read s xaddr
    else if hi8 =? 0x9C then t s
    else if hi8 =? 0x9D then brc s
    else Z.land (Z.shiftr (shift_by (get_acc s (Z.testbit op 8)) (asm_shift s)) 16) 0xFFFF in
  data_write s xaddr val.

(** CMPS src,Smem: the larger half of the accumulator, the choice in TRN and TC. *)
Definition exec_cmps (s : C54xState) (op : Z) : C54xState :=
  let '(ad, s) := resolve_smem s op in
  let acc := get_acc s (Z.testbit op 8) in
  let hi := i16 (Z.land (Z.shiftr acc 16) 0xFFFF) in
  let lo := i16 (Z.land acc 0xFFFF) in
  let s := s <| trn := u16 (Z.shiftl (trn s) 1) |> in
  if lo <? hi then
    let s := data_write s ad (u16 hi) in
    set_flag (s <| trn := clr (trn s) 1 |>) ST0_TC false
  else
    let s := data_write s ad (u16 lo) in
    set_flag (s <| trn := Z.lor (trn s) 1 |>) ST0_TC true.

(** A store of an accumulator half, with or without the ASM shift. *)
Definition st_acc (s : C54xState) (op : Z) (sel high shifted : bool) : option (Z * C54xState) :=
  let '(ad, s) := resolve_smem s op in
  let v := get_acc s sel in
  let v := if shifted then shift_by v (asm_shift s) else v in
  retire (data_write s ad (Z.land (if high then Z.shiftr v 16 else v) 0xFFFF)).

Definition exec_group_89 (s : C54xState) (op : Z) : option (Z * C54xState) :=
  let hi8 := Z.land (Z.shiftr op 8) 0xFF in
  if Z.land op 0xFC00 =? 0x9000 then (* ADD and SUB Xmem,SHFT,src *)
    let '(xa, s) := resolve_xmem s op in
    let v := Z.shiftl (sxm_ext s (data_read s xa)) (Z.land op 0xF) in
    let src := Z.testbit op 8 in
    let acc := get_acc s src in
    if Z.testbit op 9 then retire (set_acc (c54x_carry_sub40 s acc v) src (sext40 (acc - v)))
    else retire (set_acc (c54x_carry_add40 s acc v) src (sext40 (acc + v)))
  else if Z.land op 0xFC00 =? 0x9C00 then retire (exec_xccd s op)
  else if hi8 =? 0x8A then (* POPM MMR *)
    let '(val, s) := pop s in retire (data_write s (Z.land op 0x7F) val)
  else if (hi8 =? 0x88) || (hi8 =? 0x89) then (* STLM src,MMR *)
    let '(mmr, s) := resolve_mmr s op in
    retire (data_write s mmr (Z.land (get_acc s (Z.testbit op 8)) 0xFFFF))
  else if hi8 =? 0x8B then (* POPD Smem *)
    let '(ad, s) := resolve_smem s op in
    let '(val, s) := pop s in retire (data_write s ad val)
  else if hi8 =? 0x80 then st_acc s op false false false
  else if hi8 =? 0x8C then (* ST T,Smem *)
    let '(ad, s) := resolve_smem s op in retire (data_write s ad (t s))
  else if (hi8 =? 0x8E) || (hi8 =? 0x8F) then retire (exec_cmps s op)
  else if (hi8 =? 0x86) || (hi8 =? 0x87) then st_acc s op (Z.testbit op 8) true true
  else if hi8 =? 0x81 then st_acc s op true false false
  else if hi8 =? 0x82 then st_acc s op false true false
  else if hi8 =? 0x83 then st_acc s op true true false
  else if hi8 =? 0x84 then st_acc s op false false true
  else if hi8 =? 0x97 then (* ST #lk,Smem *)
    let '(ad, s) := resolve_smem s op in retire2 (data_write s ad (prog_fetch s (pc s + 1)))
  else retire s.

(** ** Typing *)
Lemma wf_rpt_pointer s base :
  wf s → word base → word (fst (rpt_pointer s base)) ∧ wf (snd (rpt_pointer s base)).
Proof. intros. unfold rpt_pointer. case_if; cbn [fst snd]; eauto with c54x. Qed.

Lemma word_prog_read s p : wf s → word (prog_read s p).
Proof. rewrite <- prog_fetch_read. eauto with c54x. Qed.

#[export] Hint Resolve word_prog_read : c54x.

Ltac resolve_case :=
  match goal with
  | H : wf ?s |- context [resolve_smem ?s ?op] =>
      let Ha := fresh in let Hs := fresh in
      destruct (wf_resolve_smem s op H) as [Ha Hs]; destruct (resolve_smem s op) as [?ad ?s'];
      cbn [fst snd] in Ha, Hs
  | H : wf ?s |- context [resolve_mmr ?s ?op] =>
      let Ha := fresh in let Hs := fresh in
      destruct (wf_resolve_mmr s op H) as [Ha Hs]; destruct (resolve_mmr s op) as [?ad ?s'];
      cbn [fst snd] in Ha, Hs
  | H : wf ?s |- context [resolve_xmem ?s ?op] =>
      let Ha := fresh in let Hs := fresh in
      destruct (wf_resolve_xmem s op H) as [Ha Hs]; destruct (resolve_xmem s op) as [?ad ?s'];
      cbn [fst snd] in Ha, Hs
  | H : wf ?s |- context [rpt_pointer ?s ?p] =>
      let Ha := fresh in let Hs := fresh in
      destruct (wf_rpt_pointer s p H) as [Ha Hs]; [eauto using word_lk_operand with c54x|];
      destruct (rpt_pointer s p) as [?ad ?s']; cbn [fst snd] in Ha, Hs
  end.

Lemma wf_reada s op : wf s → wf (exec_reada s op).
Proof. intros H. unfold exec_reada. do 2 resolve_case. eauto with c54x. Qed.

Lemma wf_writa s op : wf s → wf (exec_writa s op).
Proof. intros H. unfold exec_writa. resolve_case. cbv zeta. eauto with c54x. Qed.

Lemma wf_mvpd_mvdp s op : wf s → wf (exec_mvpd_mvdp s op).
Proof. intros H. unfold exec_mvpd_mvdp. resolve_case. cbv zeta. resolve_case. case_match; eauto with c54x. Qed.

Lemma wf_macp_macd s op : wf s → wf (exec_macp_macd s op).
Proof. intros H. unfold exec_macp_macd. resolve_case. cbv zeta. resolve_case. case_match; eauto 7 with c54x. Qed.

Lemma wf_mpy_mac_lk s op : wf s → wf (exec_mpy_mac_lk s op).
Proof. intros H. unfold exec_mpy_mac_lk. smem_case. cbv zeta. case_match; eauto 7 with c54x. Qed.

Lemma wf_6f s op : wf s → wf (exec_6f s op).
Proof. intros H. unfold exec_6f. resolve_case. cbv zeta. repeat case_match; eauto with c54x. Qed.

Lemma wf_mvk_operands s op :
  wf s → ∃ dmad ad s', mvk_operands s op = (dmad, ad, s') ∧ word dmad ∧ word ad ∧ wf s'.
Proof.
  intros H. unfold mvk_operands. cbv zeta.
  assert (H1 : wf (s <| lk_used := false |>)) by eauto with c54x.
  revert H1. generalize (s <| lk_used := false |>). clear s H. intros s H.
  set (mode := if has op 128 then _ else _). clearbody mode.
  match goal with |- context [let '(_, _) := ?p in _] =>
    assert (Hp : word (fst p) ∧ wf (snd p)); [|destruct p as [ad s1]; cbn [fst snd] in Hp; destruct Hp as [Ha H1]] end.
  { case_match; [|by apply wf_resolve_smem]. pose proof (nar_range op).
    repeat case_match; simplify_eq; cbn [fst snd]; eauto 7 with c54x. }
  assert (Hd : word (prog_fetch s (if 12 <=? mode then pc s + 2 else pc s + 1))) by eauto with c54x.
  repeat case_match; simplify_eq; eauto 12 with c54x.
Qed.

Lemma word_addm s v lk : word (addm_result s v lk).
Proof. unfold addm_result. cbv zeta. unfold word. repeat case_match; try lia. apply u16_range. Qed.

Lemma word_lxor x y : word x → word y → word (Z.lxor x y).
Proof. unfold word. intros. apply (lxor_range 16); [lia|done|done]. Qed.

Lemma ok_banz s op d : wf s → ok (exec_banz s op d).
Proof.
  intros H. unfold exec_banz. resolve_case. cbv zeta. pose proof (word_lk_operand s').
  repeat ok_if; cbn [ok retire2]; auto using wf_arm_delay with c54x.
Qed.
#[export] Hint Resolve wf_reada wf_writa wf_mvpd_mvdp wf_macp_macd wf_mpy_mac_lk wf_6f word_addm
  word_lxor word_lk_operand : c54x.

Lemma ok_group_67 s op : wf s → ok (exec_group_67 s op).
Proof.
  intros H. unfold exec_group_67. cbv zeta.
  destruct (wf_mvk_operands s op H) as (dm & ma & s2 & -> & Hd & Hm & H2).
  smem_case. do 2 resolve_case.
  repeat (ok_if; [first [done|by apply ok_banz|unfold retire, retire2; cbn [ok snd]; eauto 7 with c54x]|]).
  by apply ok_retire.
Qed.

Lemma wf_xccd s op : wf s → wf (exec_xccd s op).
Proof.
  intros H. unfold exec_xccd. resolve_case. cbv zeta. apply wf_data_write; [done|].
  repeat case_match; eauto with c54x.
Qed.

Lemma wf_cmps s op : wf s → wf (exec_cmps s op).
Proof.
  intros H. unfold exec_cmps. resolve_case. cbv zeta. assert (word 1) by (unfold word; lia).
  case_match; eauto 9 with c54x.
Qed.

Lemma ok_st_acc s op sel hi sh : wf s → ok (st_acc s op sel hi sh).
Proof. intros H. unfold st_acc. resolve_case. cbv zeta. eauto with c54x. Qed.
#[export] Hint Resolve wf_xccd wf_cmps : c54x.

Lemma ok_group_89 s op : wf s → ok (exec_group_89 s op).
Proof.
  intros H. unfold exec_group_89, pop. cbv zeta. do 3 resolve_case.
  ok_if; [ok_if; eauto with c54x|].
  repeat (ok_if; [first [by apply ok_st_acc|unfold retire, retire2; cbn [ok]; eauto 7 with c54x]|]).
  by apply ok_retire.
Qed.

End C54xMove.
