(* ===== verification/C54xExec.v ===== *)
(** * Instruction families of the C54x DSP
    ([hw/arm/calypso/l1-dsp/c54x_exec.c])

    The families decoded ahead of the opcode switch, the opcode groups 0x0 to
    0x5 (add, load, logic, multiply-accumulate, stack and dual long-word
    instructions), the 0xF group (the accumulator family 0xF4xx-0xF7xx, XC and
    TRAP here, the rest in [C54xFlow]) and the switch over all groups, with
    those of [C54xMove] (0x6 to 0x9) and [C54xPar] (0xA to 0xE).
    Each executor returns the words consumed and the new state, [None] for an
    opcode it does not decode, in the order of the tests of the source.  The
    compatibility switches have their defaults, so MAC has its legacy decoding;
    [int32_t] products wrap, as the build asks for with -fwrapv. *)
From S2P Require Import Prelude C54xAddr C54xState C54xDecode C54xIrq C54xAlu C54xFlow C54xPar C54xMove.

Module C54xExec.
Import C54xAddr C54xState C54xDecode C54xIrq C54xAlu C54xFlow C54xPar C54xMove.

(** ** The accumulator family 0xF4xx-0xF7xx *)
Definition exec_f4_acc (s : C54xState) (op : Z) : option (Z * C54xState) :=
  let src := f4_src op in
  let dst := f4_dst op in
  if Z.land op 0xFEFF =? 0xF483 then (* SAT src *)
    let val := sext40 (get_acc s dst) in
    let ovbit := if dst then ST0_OVB else ST0_OVA in
    retire (if 0x7FFFFFFF <? val then set_flag (set_acc s dst (sext40 0x7FFFFFFF)) ovbit true
            else if val <? -0x80000000 then set_flag (set_acc s dst (sext40 (-0x80000000))) ovbit true
            else set_flag s ovbit false)
  else if Z.land op 0xFCFF =? 0xF484 then (* NEG *)
    retire (c54x_neg_abs_ovf s dst (- sext40 (get_acc s src)))
  else if Z.land op 0xFCFF =? 0xF485 then (* ABS *)
    let val := sext40 (get_acc s src) in
    retire (c54x_neg_abs_ovf s dst (if val <? 0 then - val else val))
  else if Z.land op 0xFEFF =? 0xF48C then (* MPYA dst *)
    retire (set_acc s dst (sext40 (frct s (i16 (t s) * a_high s))))
  else if Z.land op 0xFEFF =? 0xF48D then (* SQUR A,dst *)
    retire (set_acc s dst (sext40 (frct s (a_high s * a_high s))))
  else if Z.land op 0xFEFF =? 0xF48E then (* EXP src *)
    retire (s <| t := u16 (exp_of (sext40 (get_acc s dst))) |>)
  else if Z.land op 0xFEFF =? 0xF486 then (* MAX dst *)
    let sa := sext40 (a s) in let sb := sext40 (b s) in
    let a_is_max := sb <? sa in
    retire (set_flag (set_acc s dst (sext40 (if a_is_max then sa else sb))) ST0_C (negb a_is_max))
  else if Z.land op 0xFEFF =? 0xF487 then (* MIN dst *)
    let sa := sext40 (a s) in let sb := sext40 (b s) in
    let a_is_min := sa <? sb in
    retire (set_flag (set_acc s dst (sext40 (if a_is_min then sa else sb))) ST0_C (negb a_is_min))
  else if Z.land op 0xFEFF =? 0xF492 then (* ROLTC src *)
    let v := Z.land (get_acc s dst) 0xFFFFFFFF in
    let old_tc := has (st0 s) ST0_TC in
    let s := set_acc s dst (Z.lor (u32 (Z.shiftl v 1)) (Z.b2z old_tc)) in
    retire (set_flag s ST0_C (Z.testbit v 31))
  else if Z.land op 0xFEFF =? 0xF49E then (* SUBC src *)
    let val := sext40 (get_acc s dst) in
    retire (set_acc s dst (if 0 <=? val then sext40 (Z.shiftl val 1 + 1) else sext40 (Z.shiftl val 1)))
  else if Z.land op 0xFCFF =? 0xF48F then (* NORM src,dst *)
    let val := sext40 (get_acc s src) in
    let s' := set_acc s dst (sext40 (shift_by val (norm_shift (t s)))) in
    retire (norm_tc s' (Z.testbit val 39) (Z.testbit val 38))
  else if Z.land op 0xFEFF =? 0xF490 then (* ROR src *)
    let v := Z.land (get_acc s dst) 0xFFFFFFFF in
    let c := has (st0 s) ST0_C in
    let s := set_acc s dst (Z.lor (Z.shiftr v 1) (Z.shiftl (Z.b2z c) 31)) in
    retire (set_flag s ST0_C (Z.testbit v 0))
  else if Z.land op 0xFEFF =? 0xF491 then (* ROL src *)
    let v := Z.land (get_acc s dst) 0xFFFFFFFF in
    let c := has (st0 s) ST0_C in
    let s := set_acc s dst (Z.lor (u32 (Z.shiftl v 1)) (Z.b2z c)) in
    retire (set_flag s ST0_C (Z.testbit v 31))
  else if Z.land op 0xFCFC =? 0xF488 then (* MACA/MACAR/MASA/MASAR T,src,dst *)
    let prod := frct s (i16 (t s) * a_high s) in
    let base := sext40 (get_acc s src) in
    let r := if has op 2 then base - prod else base + prod in
    let r := if has op 1 then Z.land (r + 0x8000) (Z.lnot 0xFFFF) else r in
    retire (set_acc s dst (sext40 r))
  else if Z.land op 0xFCFF =? 0xF493 then (* CMPL *)
    retire (set_acc s dst (sext40 (Z.land (Z.lnot (get_acc s src)) 0xFFFFFFFFFF)))
  else if Z.land op 0xFCFF =? 0xF49F then (* RND *)
    retire (set_acc s dst (sext40 (get_acc s src + 0x8000)))
  else if Z.land op 0xFCFF =? 0xF480 then (* ADD src,ASM,dst *)
    let sv := sext40 (shift_by (sext40 (get_acc s src)) (asm_shift s)) in
    retire (set_acc s dst (sext40 (get_acc s dst + sv)))
  else if Z.land op 0xFCFF =? 0xF481 then (* SUB src,ASM,dst *)
    let sv := sext40 (shift_by (sext40 (get_acc s src)) (asm_shift s)) in
    retire (set_acc s dst (sext40 (get_acc s dst - sv)))
  else if Z.land op 0xFCFF =? 0xF482 then (* LD src,ASM,dst *)
    retire (set_acc s dst (sext40 (shift_by (sext40 (get_acc s src)) (asm_shift s))))
  else if Z.land op 0xFCF8 =? 0xF4A8 then (* CMPR CC,ARx *)
    let cc := Z.land (Z.shiftr op 8) 3 in
    let x := arx s (Z.land op 7) in
    let r := arx s 0 in
    retire (set_flag s ST0_TC (if cc =? 0 then x =? r else if cc =? 1 then x <? r
                               else if cc =? 2 then r <? x else negb (x =? r)))
  else if Z.land op 0xFCE0 =? 0xF400 then (* ADD src,SHIFT,dst *)
    let sv := shift_by (sext40 (get_acc s src)) (shift5 op) in
    let dv := sext40 (get_acc s dst) in
    retire (set_acc (c54x_carry_add40 s dv sv) dst (sext40 (dv + sv)))
  else if Z.land op 0xFCE0 =? 0xF420 then (* SUB src,SHIFT,dst *)
    let sv := shift_by (sext40 (get_acc s src)) (shift5 op) in
    let dv := sext40 (get_acc s dst) in
    retire (set_acc (c54x_carry_sub40 s dv sv) dst (sext40 (dv - sv)))
  else if Z.land op 0xFCE0 =? 0xF440 then (* LD src,SHIFT,dst *)
    retire (set_acc s dst (sext40 (shift_by (sext40 (get_acc s src)) (shift5 op))))
  else if Z.land op 0xFCE0 =? 0xF460 then (* SFTA *)
    retire (c54x_sfta_exec s op)
  else if Z.land op 0xFFF8 =? 0xF4A0 then (* LD #k3,ARP *)
    retire (set_arp s (Z.land op 7))
  else if Z.land op 0xFEFF =? 0xF494 then (* SFTC src *)
    let val := sext40 (get_acc s dst) in
    retire (if negb (val =? 0) && Bool.eqb (Z.testbit val 31) (Z.testbit val 30)
            then set_acc s dst (sext40 (Z.shiftl val 1)) else s)
  else None.

(** [TRAP K] (0xF4C0-0xF4DF). *)
Definition exec_trap (s : C54xState) (op : Z) : C54xState :=
  let k := Z.land op 0x1F in
  let s := push s (u16 (pc s + 1)) in
  s <| pc := iptr s * 0x80 + k * 4 |>.

(** The 0xF group; [exec_flow] is the part after TRAP. *)
Definition exec_group_f (s : C54xState) (op : Z) : option (Z * C54xState) :=
  let hi8 := Z.land (Z.shiftr op 8) 0xFF in
  if op =? 0xF495 then retire s
  else if (hi8 =? 0xFD) || (hi8 =? 0xFF) then
    let n_insns := if hi8 =? 0xFF then 2 else 1 in
    let '(cond, s) := xc_cond s (Z.land op 0xFF) in
    if cond then retire s else Some (1 + n_insns, s)
  else if (op =? 0xF4E2) || (op =? 0xF5E2) || (op =? 0xF4E3) || (op =? 0xF5E3) then
    Some (0, exec_bacc_cala s op)
  else if (op =? 0xF4E6) || (op =? 0xF4E7) || (op =? 0xF5E6) || (op =? 0xF5E7) then
    Some (0, exec_fbacc_fcala s op)
  else if op =? 0xF49B then Some (0, exec_retf s)
  else if (0xF4E0 <=? op) && (op <=? 0xF4FF) && negb (op =? 0xF4E1) && negb (op =? 0xF4E4) &&
          negb (op =? 0xF4E5) && negb (op =? 0xF4EB) then retire s
  else if op =? 0xF4EB then Some (0, exec_rete s)
  else if (op =? 0xF4E4) || (op =? 0xF4E5) then Some (0, exec_fret s (op =? 0xF4E5))
  else if Z.land op 0xFCFF =? 0xF4E1 then Some (exec_idle s)
  else match exec_f4_acc s op with
  | Some r => Some r
  | None => if Z.land op 0xFFE0 =? 0xF4C0 then Some (0, exec_trap s op) else exec_flow s op
  end.

(** ** Families decoded ahead of the opcode switch *)

Definition exec_head (s : C54xState) (op : Z) : option (Z * C54xState) :=
  if Z.land op 0xFE00 =? 0x9400 then (* LD Xmem,SHFT,dst *)
    let '(ad, s) := resolve_xmem s op in
    let x := Z.shiftl (sxm_ext s (data_read s ad)) (Z.land op 0xF) in
    Some (1, set_acc s (Z.testbit op 8) (sext40 x))
  else if Z.land op 0xFF00 =? 0x9600 then (* BIT Xmem,BITC *)
    let '(ad, s) := resolve_xmem s op in
    Some (1, set_flag s ST0_TC (Z.testbit (data_read s ad) (15 - Z.land op 0xF)))
  else if Z.land op 0xFE00 =? 0xA200 then (* SUB Xmem,Ymem,dst *)
    let '(xa, s) := resolve_xmem s op in
    let ym := Z.land op 0xF in
    let yar := Z.land ym 3 + 2 in
    let ymod := Z.shiftr (Z.land ym 0xC) 2 in
    let ya := arx s yar in
    let s := c54x_par_postmod s yar ymod in
    let r := Z.shiftl (i16 (data_read s xa) - i16 (data_read s ya)) 16 in
    Some (1, set_acc s (Z.testbit op 8) (sext40 r))
  else if Z.land op 0xFE00 =? 0x4800 then (* LDM MMR,dst *)
    let '(mmr, s) := resolve_mmr s op in
    retire (set_acc s (Z.testbit op 8) (data_read s mmr))
  else if Z.land op 0xFE00 =? 0x4E00 then (* DST src,Lmem *)
    let v := get_acc s (Z.testbit op 8) in
    let '(ad, s) := resolve_lmem s op in
    let s := data_write s ad (Z.land (Z.shiftr v 16) 0xFFFF) in
    retire (data_write s (u16 (Z.lxor ad 1)) (Z.land v 0xFFFF))
  else if (Z.land op 0xFE00 =? 0x9800) || (Z.land op 0xFE00 =? 0x9A00) then (* STL/STH src,SHFT,Xmem *)
    let '(ad, s) := resolve_xmem s op in
    let v := Z.shiftl (get_acc s (Z.testbit op 8)) (Z.land op 0xF) in
    let w := if Z.land op 0xFE00 =? 0x9A00 then Z.land (Z.shiftr v 16) 0xFFFF else Z.land v 0xFFFF in
    Some (1, data_write s ad w)
  else if Z.land op 0xFC00 =? 0x4000 then (* SUB Smem,16,src,dst *)
    let '(_, v, s) := smem_operand s op in
    retire (set_acc s (Z.testbit op 8)
              (sext40 (get_acc s (Z.testbit op 9) - c54x_smem16_shifted s v)))
  else if Z.land op 0xFF00 =? 0x8500 then (* STL B,ASM,Smem *)
    let '(ad, s) := resolve_smem s op in
    retire (data_write s ad (Z.land (shift_by (b s) (asm_shift s)) 0xFFFF))
  else if Z.land op 0xFF00 =? 0x8D00 then (* ST TRN,Smem *)
    let '(ad, s) := resolve_smem s op in
    retire (data_write s ad (trn s))
  else None.

(** ** The opcode groups 0x0 to 0x5 *)
Definition exec_group_0 (s : C54xState) (op : Z) : C54xState :=
  let '(_, val, s) := smem_operand s op in
  let dst := Z.testbit op 8 in
  let sub := Z.land (Z.shiftr op 9) 7 in
  let is_sub := has sub 4 in
  let with_carry := (sub =? 3) || (sub =? 7) in
  let v := if (sub =? 1) || (sub =? 5) then val else sxm_ext s val in
  let v := if (sub =? 2) || (sub =? 6) then shift_by v (norm_shift (t s)) else v in
  let c := if with_carry then Z.b2z (has (st0 s) ST0_C) else 0 in
  let c := if is_sub && with_carry then 1 - c else c in
  let acc0 := get_acc s dst in
  if is_sub then set_acc (c54x_carry_sub40 s acc0 (v + c)) dst (sext40 (acc0 - v - c))
  else set_acc (c54x_carry_add40 s acc0 (v + c)) dst (sext40 (acc0 + v + c)).

Definition exec_group_1 (s : C54xState) (op : Z) : C54xState :=
  let '(_, val, s) := smem_operand s op in
  let dst := Z.testbit op 8 in
  let sub := Z.land (Z.shiftr op 9) 7 in
  let cur := Z.land (get_acc s dst) 0xFFFFFFFFFF in
  if sub =? 1 then set_acc s dst (sext40 val)                                        (* LDU *)
  else if sub =? 2 then set_acc s dst (sext40 (shift_by (sxm_ext s val) (norm_shift (t s)))) (* LD,TS *)
  else if sub =? 3 then set_acc s dst (sext40 (Z.shiftl (sxm_ext s val) 16 + 0x8000))  (* LDR *)
  else if sub =? 4 then set_acc s dst (sext40 (Z.land cur val))
  else if sub =? 5 then set_acc s dst (sext40 (Z.lor cur val))
  else if sub =? 6 then set_acc s dst (sext40 (Z.lxor cur val))
  else if sub =? 7 then                                                              (* SUBC *)
    let src := sext40 (get_acc s dst) in
    let d := src - Z.shiftl val 15 in
    let r := if 0 <=? d then Z.shiftl d 1 + 1 else Z.shiftl src 1 in
    set_acc (set_flag s ST0_C (0 <=? d)) dst (sext40 r)
  else set_acc s dst (sext40 (sxm_ext s val)).                                       (* LD *)

(** The switch of the 0x2 group behind [c54x_mac_bit_family]. *)
Definition exec_group_2 (s : C54xState) (op : Z) : option (Z * C54xState) :=
  match c54x_mac_bit_family s op with
  | Some r => Some r
  | None =>
    let sub := Z.land (Z.shiftr op 8) 0xF in
    let '(_, val, s) := smem_operand s op in
    let dst := Z.testbit sub 0 in
    let product := frct s (i16 (t s) * i16 val) in
    if (sub =? 0) || (sub =? 1) then retire (set_acc s dst (sext40 product))
    else if (sub =? 2) || (sub =? 3) then
      retire (set_acc s dst (sext40 (Z.land (product + 0x8000) (Z.lnot 0xFFFF))))
    else if (sub =? 4) || (sub =? 5) then retire (set_acc s dst (sext40 (frct s (t s * val))))
    else if (sub =? 6) || (sub =? 7) then
      retire (set_acc (s <| t := val |>) dst (sext40 (frct s (i16 val * i16 val))))
    else if (sub =? 8) || (sub =? 9) then
      retire (set_acc (set_acc s (negb dst) (a s + b s)) dst (sext40 product))
    else if (sub =? 10) || (sub =? 11) then
      retire (set_acc (set_acc s (negb dst) (sext40 (a s + b s))) dst (sext40 product) <| t := val |>)
    else retire (set_acc s dst (sext40 (get_acc s dst - product)))
  end.

Definition exec_group_3 (s : C54xState) (op : Z) : option (Z * C54xState) :=
  match c54x_mac_bit_family s op with
  | Some r => Some r
  | None =>
    let '(_, val, s) := smem_operand s op in
    let dst := Z.testbit op 8 in
    let sq := frct s (i16 val * i16 val) in
    if Z.land op 0xFC00 =? 0x3C00 then (* ADD Smem,16,src,dst *)
      retire (set_acc s dst (sext40 (get_acc s (Z.testbit op 9) + c54x_smem16_shifted s val)))
    else if Z.land op 0xFF00 =? 0x3400 then (* BITT *)
      retire (set_flag s ST0_TC (Z.testbit val (15 - Z.land (t s) 0xF)))
    else if Z.land op 0xFE00 =? 0x3800 then (* SQURA *)
      retire (set_acc s dst (sext40 (get_acc s dst + sq)) <| t := val |>)
    else if Z.land op 0xFE00 =? 0x3A00 then (* SQURS *)
      retire (set_acc s dst (sext40 (get_acc s dst - sq)) <| t := val |>)
    else if Z.land op 0xFF00 =? 0x3600 then (* POLY *)
      let ahi := Z.land (Z.shiftr (sext40 (a s)) 16) 0x1FFFF in
      let ahi := if has ahi 0x10000 then ahi - 0x20000 else ahi in
      let prod := frct s (ahi * i16 (t s)) in
      let s1 := s <| a := sext40 (Z.land (prod + b s + 0x8000) (Z.lnot 0xFFFF)) |> in
      retire (s1 <| b := sext40 (c54x_smem16_shifted s1 val) |>)
    else retire (set_acc s dst (sext40 (get_acc s dst + frct s (i16 (t s) * i16 val))))
  end.

Definition exec_group_4 (s : C54xState) (op : Z) : Z * C54xState :=
  let op8 := Z.land (Z.shiftr op 8) 0xFF in
  let dst_b := Z.testbit op 8 in
  let done := λ s, (consumed s, s) in
  if op8 <=? 0x43 then
    let '(_, v, s) := smem_operand s op in
    done (set_acc s dst_b (sext40 (get_acc s (Z.testbit op 9) - c54x_smem16_shifted s v)))
  else if (op8 =? 0x44) || (op8 =? 0x45) then
    let '(_, v, s) := smem_operand s op in
    done (set_acc s dst_b (sext40 (c54x_smem16_shifted s v)))
  else if op8 =? 0x46 then (* LD Smem,DP *)
    let '(_, v, s) := smem_operand s op in
    done (s <| st0 := Z.lor (clr (st0 s) ST0_DP_MASK) (Z.land v ST0_DP_MASK) |>)
  else if op8 =? 0x47 then (* RPT Smem *)
    let '(_, v, s) := smem_operand s op in
    let s := s <| rpt_count := v |> <| rpt_active := true |> <| rpt_fresh := true |> in
    (0, s <| pc := u32 (pc s + consumed s) |>)
  else if (op8 =? 0x48) || (op8 =? 0x49) then
    done (set_acc s dst_b (data_read s (Z.land op 0x7F)))
  else if op8 =? 0x4A then (* PSHM *)
    done (push s (data_read s (Z.land op 0x7F)))
  else if op8 =? 0x4B then (* PSHD *)
    let '(_, v, s) := smem_operand s op in done (push s v)
  else if op8 =? 0x4C then (* LTD *)
    let '(ad, v, s) := smem_operand s op in
    done (data_write (s <| t := v |>) (Z.land (ad + 1) 0xFFFF) v)
  else if op8 =? 0x4D then (* DELAY *)
    let '(ad, v, s) := smem_operand s op in
    done (data_write s (Z.land (ad + 1) 0xFFFF) v)
  else
    let '(ad, s) := resolve_smem s op in
    let ad := Z.land ad 0xFFFE in
    let v := get_acc s dst_b in
    let s := data_write s ad (Z.land (Z.shiftr v 16) 0xFFFF) in
    done (data_write s (Z.land (ad + 1) 0xFFFF) (Z.land v 0xFFFF)).

(** The halves of the dual 16-bit mode: [((int64_t)hi << 16) | ((uint32_t)lo & 0xFFFF)]. *)
Definition dual16 (hi lo : Z) : Z := Z.lor (Z.shiftl hi 16) (Z.land lo 0xFFFF).

Definition dl_c16_add (s : C54xState) (x y : Z) : C54xState :=
  set_flag s ST0_C (Z.land (Z.shiftr (u16 x + u16 y) 16) 1 =? 1).
Definition dl_c16_sub (s : C54xState) (x y : Z) : C54xState :=
  set_flag s ST0_C (u16 y <=? u16 x).

(** The dual long-word family, which is the whole of the 0x5 group. *)
Definition exec_group_5 (s : C54xState) (op : Z) : C54xState :=
  let dl_hi := Z.land (Z.shiftr op 8) 0xFF in
  let '(laddr, s) := resolve_lmem s op in
  let lhi := data_read s laddr in
  let llo := data_read s (u16 (Z.lxor laddr 1)) in
  let c16 := has (st1 s) ST1_C16 in
  let ext32 := λ w, if has (st1 s) ST1_SXM then i32 w else w in
  let lmem40 := ext32 (Z.lor (Z.shiftl lhi 16) llo) in
  let dst := Z.testbit op 8 in
  let acc := get_acc s dst in
  let hi16 := λ v, i16 (Z.land (Z.shiftr v 16) 0xFFFF) in
  let lo16 := λ v, i16 (Z.land v 0xFFFF) in
  if dl_hi <=? 0x53 then (* DADD *)
    let src := get_acc s (Z.testbit op 9) in
    if c16 then set_acc (dl_c16_add s (Z.shiftr src 16) lhi) dst
                  (sext40 (dual16 (hi16 src + i16 lhi) (lo16 src + i16 llo)))
    else set_acc (c54x_carry_add40 s src lmem40) dst (sext40 (src + lmem40))
  else if dl_hi <=? 0x55 then (* DSUB *)
    if c16 then set_acc (dl_c16_sub s (Z.shiftr acc 16) lhi) dst
                  (sext40 (dual16 (hi16 acc - i16 lhi) (lo16 acc - i16 llo)))
    else set_acc (c54x_carry_sub40 s acc lmem40) dst (sext40 (acc - lmem40))
  else if dl_hi <=? 0x57 then (* DLD *)
    set_acc s dst (sext40 (if c16 then Z.lor (Z.shiftl (i16 lhi) 16) llo else lmem40))
  else if dl_hi <=? 0x59 then (* DRSUB *)
    if c16 then set_acc (dl_c16_sub s lhi (Z.shiftr acc 16)) dst
                  (sext40 (dual16 (i16 lhi - hi16 acc) (i16 llo - lo16 acc)))
    else set_acc (c54x_carry_sub40 s lmem40 acc) dst (sext40 (lmem40 - acc))
  else (* DADST, DSUBT, DSADT *)
    let t16 := i16 (t s) in
    if c16 then
      let sgn_hi := if dl_hi <=? 0x5B then 1 else -1 in
      let sgn_lo := if dl_hi <=? 0x5D then -1 else 1 in
      let r := dual16 (i16 lhi + sgn_hi * t16) (i16 llo + sgn_lo * t16) in
      set_acc (if 0 <? sgn_hi then dl_c16_add s lhi t16 else dl_c16_sub s lhi t16) dst (sext40 r)
    else
      let tt40 := ext32 (Z.lor (Z.shiftl (u16 t16) 16) (u16 t16)) in
      if dl_hi <=? 0x5B then set_acc (c54x_carry_add40 s lmem40 tt40) dst (sext40 (lmem40 + tt40))
      else set_acc (c54x_carry_sub40 s lmem40 tt40) dst (sext40 (lmem40 - tt40)).

(** The decoder: families ahead of the switch, then the switch on [op >> 12];
    [None] for PORTR, PORTW and the branches on TC alone ([DspPorts]). *)
Definition exec_op (s : C54xState) (op : Z) : option (Z * C54xState) :=
  match exec_head s op with
  | Some r => Some r
  | None =>
    let hi4 := Z.land (Z.shiftr op 12) 0xF in
    if hi4 =? 0xF then exec_group_f s op
    else if hi4 =? 0xE then Some (exec_group_e s op)
    else if (hi4 =? 0x6) || (hi4 =? 0x7) then exec_group_67 s op
    else if hi4 =? 0x0 then retire (exec_group_0 s op)
    else if hi4 =? 0x1 then retire (exec_group_1 s op)
    else if hi4 =? 0x2 then exec_group_2 s op
    else if hi4 =? 0x3 then exec_group_3 s op
    else if hi4 =? 0x4 then Some (exec_group_4 s op)
    else if hi4 =? 0x5 then retire (exec_group_5 s op)
    else if (hi4 =? 0x8) || (hi4 =? 0x9) then exec_group_89 s op
    else if (hi4 =? 0xA) || (hi4 =? 0xB) then retire (exec_group_ab s op)
    else retire (exec_group_cd s op)
  end.

Definition c54x_exec_one (en dma_level : bool) (s : C54xState) : option (Z * C54xState) :=
  let '(taken, s) := c54x_irq_level_check en dma_level s in
  if taken then Some (1, s)
  else exec_op (s <| lk_used := false |>) (prog_fetch s (pc s)).

(** ** Typing *)
Lemma wf_c16_add s x y : wf s → wf (dl_c16_add s x y).
Proof. unfold dl_c16_add. eauto with c54x. Qed.
Lemma wf_c16_sub s x y : wf s → wf (dl_c16_sub s x y).
Proof. unfold dl_c16_sub. eauto with c54x. Qed.
#[export] Hint Resolve wf_c16_add wf_c16_sub : c54x.

Lemma ok_f4_acc s op : wf s → ok (exec_f4_acc s op).
Proof.
  intros H. unfold exec_f4_acc, norm_tc. cbv zeta.
  assert (Hov : ∀ d : bool, word (if d then ST0_OVB else ST0_OVA)) by (intros []; eauto with c54x).
  assert (0 ≤ Z.land op 7 < 8) by (pose proof (land_range op 7); lia).
  repeat (ok_if; [apply ok_retire; repeat (case_match; try done); eauto 7 with c54x|]). done.
Qed.

Lemma ok_group_f s op : wf s → ok (exec_group_f s op).
Proof.
  intros H. unfold exec_group_f. cbv zeta.
  assert (Hxc : wf (snd (xc_cond s (Z.land op 0xFF)))).
  { unfold xc_cond. cbv zeta. repeat (case_match; [cbn [snd]; eauto with c54x|]). done. }
  ok_if; [done|]. ok_if.
  { destruct (xc_cond s (Z.land op 255)) as [cnd s1]. cbn [snd] in Hxc. by destruct cnd. }
  do 6 (ok_if; [cbn [ok]; eauto with c54x|]).
  ok_if. { pose proof (wf_idle s H). by destruct (exec_idle s). }
  pose proof (ok_f4_acc s op H) as Hf. destruct (exec_f4_acc s op); [done|].
  ok_if; [|by apply ok_flow]. cbn [ok]. unfold exec_trap. cbv zeta.
  apply wf_set_pc; [eauto with c54x|]. apply vector_range. pose proof (land_range op 31). lia.
Qed.

Lemma ok_head s op : wf s → ok (exec_head s op).
Proof.
  intros H. unfold exec_head. cbv zeta.
  pose proof (wf_resolve_xmem s op H) as [Hxa Hxs]. pose proof (wf_resolve_lmem s op H) as [Hla Hls].
  pose proof (wf_resolve_smem s op H) as [Hsa Hss]. pose proof (wf_resolve_mmr s op H) as [Hma Hms].
  smem_case.
  destruct (resolve_xmem s op), (resolve_lmem s op), (resolve_smem s op), (resolve_mmr s op). cbn [fst snd] in *.
  repeat (ok_if; [unfold retire; cbn [ok]; repeat case_match; eauto 7 with c54x|]). done.
Qed.

(** The unextended sums of the 0x2 switch (sub-opcodes 8 and 9) are decoded by
    [c54x_mac_bit_family] first. *)
Lemma group_2_mac op sub :
  Z.land (Z.shiftr op 12) 0xF = 2 → Z.land (Z.shiftr op 8) 0xF = sub → sub = 8 ∨ sub = 9 →
  Z.land op 0xFC00 = 0x2800.
Proof.
  intros H4 H8 Hs.
  assert (E : Z.land op 0xFC00 = Z.shiftl (Z.land (Z.shiftr op 10) 0x3F) 10).
  { rewrite Z.shiftl_land, <- Z.ldiff_ones_r by lia. change (Z.shiftl 0x3F 10) with 0xFC00.
    rewrite Z.ldiff_land, <- Z.land_assoc. f_equal. }
  rewrite E. change 0x3F with (Z.ones 6). change 0xF with (Z.ones 4) in *.
  rewrite Z.land_ones, Z.shiftr_div_pow2 in * by lia. rewrite Z.shiftl_mul_pow2 by lia.
  change (2 ^ 12) with 4096 in *. change (2 ^ 4) with 16 in *. change (2 ^ 8) with 256 in *.
  change (2 ^ 10) with 1024. change (2 ^ 6) with 64. mlia.
Qed.

Lemma ok_group_2 s op : wf s → Z.land (Z.shiftr op 12) 0xF = 2 → ok (exec_group_2 s op).
Proof.
  intros H H2. unfold exec_group_2. pose proof (ok_mac_bit_family s op H) as Hm.
  destruct (c54x_mac_bit_family s op) as [[n s']|] eqn:Em; [done|]. smem_case. cbv zeta.
  do 4 (ok_if; [eauto 7 with c54x|]).
  destruct ((Z.land (Z.shiftr op 8) 15 =? 8) || (Z.land (Z.shiftr op 8) 15 =? 9)) eqn:E8.
  { exfalso. assert (E : Z.land op 0xFC00 = 0x2800) by (apply (group_2_mac op _ H2 eq_refl); lia).
    unfold c54x_mac_bit_family in Em. rewrite E in Em. cbn in Em.
    by destruct (smem_operand s op) as [[? ?] ?]. }
  ok_if; eauto 8 with c54x.
Qed.

Lemma ok_group_3 s op : wf s → ok (exec_group_3 s op).
Proof.
  intros H. unfold exec_group_3. pose proof (ok_mac_bit_family s op H) as Hm.
  destruct (c54x_mac_bit_family s op) as [[n s']|]; [done|]. smem_case. cbv zeta.
  repeat (ok_if; [eauto 8 with c54x|]). eauto with c54x.
Qed.

Lemma wf_group_0 s op : wf s → wf (exec_group_0 s op).
Proof. intros H. unfold exec_group_0. smem_case. cbv zeta. case_match; eauto with c54x. Qed.

Lemma wf_group_1 s op : wf s → wf (exec_group_1 s op).
Proof.
  intros H. unfold exec_group_1. smem_case. cbv zeta.
  repeat match goal with |- wf (if ?c then _ else _) => destruct c end; eauto with c54x.
Qed.

Lemma wf_group_4 s op : wf s → wf (snd (exec_group_4 s op)).
Proof.
  intros H. unfold exec_group_4. pose proof (wf_resolve_smem s op H) as [Hsa Hss].
  smem_case. destruct (resolve_smem s op). cbv zeta. cbn [fst snd] in *.
  repeat (match goal with |- wf (snd (if ?c then _ else _)) => destruct c end;
          [cbn [snd]; eauto 8 with c54x|]). cbn [snd]. eauto 7 with c54x.
Qed.

Lemma wf_group_5 s op : wf s → wf (exec_group_5 s op).
Proof.
  intros H. unfold exec_group_5. pose proof (wf_resolve_lmem s op H) as [Hla Hls].
  destruct (resolve_lmem s op) as [la s1]. cbn [fst snd] in *. cbv zeta.
  repeat match goal with |- wf (if ?c then _ else _) => destruct c end; try (eauto with c54x; fail).
  all: apply wf_set_acc; [case_match; eauto with c54x|eauto with c54x].
Qed.

Lemma ok_exec_op s op : wf s → ok (exec_op s op).
Proof.
  intros H. unfold exec_op. pose proof (ok_head s op H) as Hh. destruct (exec_head s op); [done|]. cbv zeta.
  ok_if; [by apply ok_group_f|].
  ok_if. { pose proof (wf_group_e s op H). by destruct (exec_group_e s op). }
  ok_if; [by apply ok_group_67|].
  ok_if; [by apply ok_retire, wf_group_0|]. ok_if; [by apply ok_retire, wf_group_1|].
  destruct (Z.eqb_spec (Z.land (Z.shiftr op 12) 15) 2); [by apply ok_group_2|].
  ok_if; [by apply ok_group_3|]. ok_if.
  { pose proof (wf_group_4 s op H). by destruct (exec_group_4 s op). }
  ok_if; [by apply ok_retire, wf_group_5|]. ok_if; [by apply ok_group_89|].
  ok_if; apply ok_retire; [by apply wf_group_ab|by apply wf_group_cd].
Qed.

(** Every instruction but the port ones, fetched from any address of a
    well-formed state with the interrupt check before it, leaves a well-formed
    state: registers and memory cells stay words, the accumulators 40-bit
    values, the program page below four. *)
Lemma exec_one_well_formed en lvl s n s' :
  wf s → c54x_exec_one en lvl s = Some (n, s') → wf s'.
Proof.
  intros H E. unfold c54x_exec_one in E. pose proof (wf_irq_level_check en lvl s H) as Hl.
  destruct (c54x_irq_level_check en lvl s) as [tk s1]. cbn [snd] in Hl.
  destruct tk; [by simplify_eq|].
  assert (Hok : ok (exec_op (s1 <| lk_used := false |>) (prog_fetch s1 (pc s1))))
    by (apply ok_exec_op; eauto with c54x).
  by rewrite E in Hok.
Qed.

(** ** Every opcode decodes *)
Definition port_insn (op : Z) : Prop := 0x74 ≤ Z.land (Z.shiftr op 8) 0xFF ≤ 0x75.
Definition tc_branch (op : Z) : Prop :=
  (Z.land (Z.shiftr op 8) 0xFF = 0xF8 ∨ Z.land (Z.shiftr op 8) 0xFF = 0xFA ∧ has op 0x80 = false) ∧
  2 ≤ Z.land (Z.shiftr op 4) 0xF ≤ 3.

Ltac decoded := repeat (case_match; try (eexists; reflexivity)); try (eexists; reflexivity).

Lemma flow_decodes s op : is_Some (exec_flow s op) ∨ tc_branch op.
Proof.
  unfold exec_flow, tc_branch, exec_f01, exec_f2, exec_f3, exec_f5, exec_f6, exec_f7, exec_f8, exec_f9, exec_fa, exec_fb,
    exec_rc, exec_rcd, alu_lk, alu_lk16_f01, alu_lk16_f23, retire, retire2. cbv zeta.
  repeat (case_match; try (left; eexists; reflexivity)); right; bool_prop; lia || (split; [right; split; [lia|done]|lia]).
Qed.

Lemma group_f_decodes s op : is_Some (exec_group_f s op) ∨ tc_branch op.
Proof.
  unfold exec_group_f. cbv zeta. pose proof (flow_decodes s op).
  destruct (exec_f4_acc s op); unfold retire; repeat (case_match; try (left; eexists; reflexivity)); done.
Qed.
Lemma group_2_decodes s op : is_Some (exec_group_2 s op).
Proof. unfold exec_group_2, retire. destruct (c54x_mac_bit_family s op); [by eexists|]. cbv zeta. decoded. Qed.
Lemma group_3_decodes s op : is_Some (exec_group_3 s op).
Proof. unfold exec_group_3, retire. destruct (c54x_mac_bit_family s op); [by eexists|]. cbv zeta. decoded. Qed.
Lemma group_89_decodes s op : is_Some (exec_group_89 s op).
Proof. unfold exec_group_89, st_acc, pop, retire, retire2. cbv zeta. decoded. Qed.

Lemma group_67_decodes s op : is_Some (exec_group_67 s op) ∨ port_insn op.
Proof.
  unfold exec_group_67, exec_banz, port_insn, retire, retire2. cbv zeta.
  repeat (case_match; try (left; eexists; reflexivity)); right; bool_prop; lia.
Qed.

(** The decoder leaves out the port instructions and the branches on TC, and
    nothing else. *)
Lemma exec_op_none s op : exec_op s op = None → port_insn op ∨ tc_branch op.
Proof.
  unfold exec_op. destruct (exec_head s op); [done|]. cbv zeta. unfold retire.
  destruct (group_f_decodes s op) as [[? ->]|]; [|by right]. destruct (group_67_decodes s op) as [[? ->]|]; [|by left].
  pose proof (group_2_decodes s op) as [? ->]. pose proof (group_3_decodes s op) as [? ->].
  pose proof (group_89_decodes s op) as [? ->]. by repeat case_match.
Qed.

End C54xExec.
