(* ===== verification/C54xArith.v ===== *)
(** * Arithmetic of the C54x accumulator
    ([hw/arm/calypso/l1-dsp/c54x_exec.c])

    What the instructions of [C54xExec] compute, against reference arithmetic
    on [Z]: iterated SUBC is division, EXP followed by NORM normalises, ROL and
    ROR are inverse rotations of 33 bits, additions carry out of bit 39, MAC
    accumulates a product modulo 2^40 except for the one product the legacy
    32-bit arithmetic cannot hold. *)
From stdpp Require Import gmap.
From S2P Require Import Prelude C54xAddr C54xState C54xDecode C54xIrq C54xAlu C54xExec.

Module C54xArith.
Import C54xAddr C54xState C54xDecode C54xIrq C54xAlu C54xExec.

(** ** Division *)

(** One SUBC on the accumulator, with divisor [d]. *)
Definition subc_acc (d acc : Z) : Z :=
  if 0 <=? acc - Z.shiftl d 15 then Z.shiftl (acc - Z.shiftl d 15) 1 + 1 else Z.shiftl acc 1.

(** After [k] steps the accumulator holds the [k]-bit partial quotient [q]
    below the partial remainder. *)
Definition subc_inv (n d : Z) (k : nat) (acc : Z) : Prop :=
  ∃ q, 0 ≤ q < 2 ^ Z.of_nat k ∧
       0 ≤ n - q * d * 2 ^ (16 - Z.of_nat k) < d * 2 ^ (16 - Z.of_nat k) ∧
       acc = 2 ^ Z.of_nat k * (n - q * d * 2 ^ (16 - Z.of_nat k)) + q.

Lemma subc_inv_step n d k acc :
  0 < d → (k < 16)%nat → subc_inv n d k acc → subc_inv n d (S k) (subc_acc d acc).
Proof.
  intros Hd Hk (q & Hq & Hr & ->).
  set (P := 2 ^ Z.of_nat k) in *. set (Q := 2 ^ (16 - Z.of_nat (S k))).
  assert (HP : 0 < P) by (apply Z.pow_pos_nonneg; lia).
  assert (HQ : 0 < Q) by (apply Z.pow_pos_nonneg; lia).
  assert (E2 : 2 ^ (16 - Z.of_nat k) = 2 * Q).
  { unfold Q. rewrite <- Z.pow_succ_r by lia. f_equal. lia. }
  assert (EPQ : P * Q = 2 ^ 15).
  { unfold P, Q. rewrite <- Z.pow_add_r by lia. f_equal. lia. }
  rewrite E2 in *. unfold subc_inv, subc_acc. fold Q.
  replace (2 ^ Z.of_nat (S k)) with (2 * P)
    by (unfold P; rewrite <- Z.pow_succ_r by lia; f_equal; lia).
  rewrite !Z.shiftl_mul_pow2 by lia. rewrite <- EPQ. change (2 ^ 1) with 2.
  set (r := n - q * d * (2 * Q)) in *.
  destruct (Z.leb_spec 0 (P * r + q - d * (P * Q))) as [Hge|Hlt].
  - exists (2 * q + 1). assert (d * Q ≤ r) by nia.
    replace (n - (2 * q + 1) * d * Q) with (r - d * Q) by (unfold r; ring).
    split; [lia|]. split; [nia|]. ring.
  - exists (2 * q). assert (r < d * Q) by nia.
    replace (n - 2 * q * d * Q) with r by (unfold r; ring).
    split; [lia|]. split; [nia|]. ring.
Qed.

Lemma subc_inv_iter n d k :
  0 < d → 0 ≤ n < d * 2 ^ 16 → (k ≤ 16)%nat → subc_inv n d k (Nat.iter k (subc_acc d) n).
Proof.
  intros Hd Hn. induction k as [|k IH]; intros Hk.
  - exists 0. change (2 ^ Z.of_nat 0) with 1. change (2 ^ (16 - Z.of_nat 0)) with (2 ^ 16).
    change (Nat.iter 0 (subc_acc d) n) with n. change (2 ^ 16) with 65536 in *. lia.
  - rewrite Nat.iter_succ. apply subc_inv_step; [done|lia|]. apply IH. lia.
Qed.

Lemma subc_inv_bound n d k acc :
  0 < d → (k ≤ 16)%nat → subc_inv n d k acc → 0 ≤ acc < d * 65536.
Proof.
  intros Hd Hk (q & Hq & Hr & ->).
  assert (EPQ : 2 ^ Z.of_nat k * 2 ^ (16 - Z.of_nat k) = 65536).
  { rewrite <- Z.pow_add_r by lia. replace (Z.of_nat k + (16 - Z.of_nat k)) with 16 by lia. done. }
  assert (0 < 2 ^ Z.of_nat k) by (apply Z.pow_pos_nonneg; lia).
  set (P := 2 ^ Z.of_nat k) in *. set (Q := 2 ^ (16 - Z.of_nat k)) in *.
  set (r := n - q * d * Q) in *. rewrite <- EPQ. nia.
Qed.

(** Sixteen steps leave the quotient in the low half, the remainder above. *)
Lemma subc_iter_16 n d :
  0 < d → 0 ≤ n < d * 2 ^ 16 →
  Nat.iter 16 (subc_acc d) n = (n mod d) * 2 ^ 16 + n / d.
Proof.
  intros Hd Hn. destruct (subc_inv_iter n d 16 Hd Hn) as (q & Hq & Hr & ->); [lia|].
  change (Z.of_nat 16) with 16 in *. rewrite Z.sub_diag, Z.pow_0_r, !Z.mul_1_r in *.
  assert (Eq : n / d = q) by (symmetry; apply (Z.div_unique n d q (n - q * d)); lia).
  assert (Em : n mod d = n - q * d) by (rewrite Z.mod_eq, Eq by lia; ring).
  rewrite Eq, Em. ring.
Qed.

(** ** Exponent and normalisation *)
Lemma exp_loop_log2 n uv :
  0 < uv < 2 ^ Z.of_nat n → exp_loop n uv = Z.of_nat n - 1 - Z.log2 uv.
Proof.
  induction n as [|n IH]; intros H; [cbn in H; lia|]. cbn [exp_loop].
  replace (2 ^ Z.of_nat (S n)) with (2 * 2 ^ Z.of_nat n) in H
    by (rewrite <- Z.pow_succ_r by lia; f_equal; lia).
  destruct (Z.lt_ge_cases uv (2 ^ Z.of_nat n)) as [Hlt|Hge].
  - assert (Z.log2 uv < Z.of_nat n) by (apply Z.log2_lt_pow2; lia).
    rewrite (Z.bits_above_log2 uv (Z.of_nat n)) by lia. rewrite IH by lia. lia.
  - assert (E : Z.log2 uv = Z.of_nat n).
    { apply Z.log2_unique; [lia|]. rewrite Z.pow_succ_r by lia. lia. }
    rewrite <- E, Z.bit_log2 by lia. lia.
Qed.

(** The magnitude whose leading bit EXP looks for. *)
Definition exp_mag (v : Z) : Z := if v <? 0 then Z.lnot v else v.

Lemma exp_of_log2 v :
  - 2 ^ 39 ≤ v < 2 ^ 39 → v ≠ 0 → v ≠ -1 → exp_of v = 30 - Z.log2 (exp_mag v).
Proof.
  intros H H0 H1. unfold exp_of. rewrite (proj2 (Z.eqb_neq v 0)), (proj2 (Z.eqb_neq v (-1))) by done.
  fold (exp_mag v). cbv zeta.
  assert (Hm : 0 < exp_mag v < 2 ^ 39).
  { unfold exp_mag. destruct (Z.ltb_spec v 0); [rewrite Z.lnot_eq_pred_opp|]; lia. }
  change 0xFFFFFFFFFF with (Z.ones 40). rewrite Z.land_ones, Z.mod_small by lia.
  rewrite exp_loop_log2 by (change (Z.of_nat 39) with 39; lia). change (Z.of_nat 39) with 39. lia.
Qed.

(** Bits 31 and 30 differ and the guard bits are a sign extension. *)
Definition normalised (r : Z) : Prop := 2 ^ 30 ≤ r < 2 ^ 31 ∨ - 2 ^ 31 ≤ r < - 2 ^ 30.

Lemma shift_normalises v L :
  0 ≤ L ≤ 38 → 2 ^ L ≤ exp_mag v < 2 ^ (L + 1) → normalised (shift_by v (30 - L)).
Proof.
  intros HL Hm. unfold shift_by, normalised.
  assert (Hv : 2 ^ L ≤ v < 2 ^ (L + 1) ∨ - 2 ^ (L + 1) ≤ v < - 2 ^ L).
  { unfold exp_mag in Hm. destruct (Z.ltb_spec v 0); [rewrite Z.lnot_eq_pred_opp in Hm|]; lia. }
  destruct (Z.leb_spec 0 (30 - L)) as [Hs|Hs].
  - rewrite Z.shiftl_mul_pow2 by lia.
    assert (E : 2 ^ L * 2 ^ (30 - L) = 2 ^ 30) by (rewrite <- Z.pow_add_r by lia; f_equal; lia).
    assert (E' : 2 ^ (L + 1) * 2 ^ (30 - L) = 2 ^ 31) by (rewrite <- Z.pow_add_r by lia; f_equal; lia).
    pose proof (Z.pow_pos_nonneg 2 (30 - L) ltac:(lia) ltac:(lia)). rewrite <- E, <- E'. nia.
  - replace (- (30 - L)) with (L - 30) by lia. rewrite Z.shiftr_div_pow2 by lia.
    assert (E : 2 ^ L = 2 ^ (L - 30) * 2 ^ 30) by (rewrite <- Z.pow_add_r by lia; f_equal; lia).
    assert (E' : 2 ^ (L + 1) = 2 ^ (L - 30) * 2 ^ 31) by (rewrite <- Z.pow_add_r by lia; f_equal; lia).
    pose proof (Z.pow_pos_nonneg 2 (L - 30) ltac:(lia) ltac:(lia)) as Hp. rewrite E, E' in Hv.
    destruct Hv as [[Hl Hu]|[Hl Hu]]; [left|right]; split.
    + apply Z.div_le_lower_bound; lia.
    + apply Z.div_lt_upper_bound; lia.
    + apply Z.div_le_lower_bound; lia.
    + apply Z.div_lt_upper_bound; lia.
Qed.

Lemma norm_shift_exp e : -32 ≤ e < 32 → norm_shift (u16 e) = e.
Proof.
  intros H. apply Z.eqb_eq. replace e with ((e + 32) - 32) by lia.
  apply (range_check (λ k, norm_shift (u16 (k - 32)) =? k - 32) 64); [lia|by vm_compute].
Qed.

Lemma exp_of_range v : - 2 ^ 39 ≤ v < 2 ^ 39 → -8 ≤ exp_of v < 32.
Proof.
  intros H. destruct (Z.eq_dec v 0) as [->|]; [done|]. destruct (Z.eq_dec v (-1)) as [->|]; [done|].
  rewrite exp_of_log2 by done. pose proof (Z.log2_nonneg (exp_mag v)).
  assert (Z.log2 (exp_mag v) < 39); [|lia]. apply Z.log2_lt_pow2;
    unfold exp_mag; destruct (Z.ltb_spec v 0); try rewrite Z.lnot_eq_pred_opp; lia.
Qed.

Lemma exp_normalises v :
  - 2 ^ 39 ≤ v < 2 ^ 39 → v ≠ 0 → normalised (shift_by v (exp_of v)).
Proof.
  intros H H0. destruct (Z.eq_dec v (-1)) as [->|H1]; [right; split; [discriminate|reflexivity]|].
  rewrite exp_of_log2 by done. pose proof (exp_of_range v H) as He. rewrite exp_of_log2 in He by done.
  assert (0 < exp_mag v) by (unfold exp_mag; destruct (Z.ltb_spec v 0); try rewrite Z.lnot_eq_pred_opp; lia).
  apply shift_normalises; [split; [apply Z.log2_nonneg|lia]|]. by apply Z.log2_spec.
Qed.

(** ** Accessors *)
Lemma get_set_acc s d v : get_acc (set_acc s d v) d = v.
Proof. by destruct d. Qed.
Lemma get_set_acc_other s d v : get_acc (set_acc s d v) (negb d) = get_acc s (negb d).
Proof. by destruct d. Qed.
Lemma get_set_flag s m on d : get_acc (set_flag s m on) d = get_acc s d.
Proof. by destruct d. Qed.
Lemma st0_set_acc s d v : st0 (set_acc s d v) = st0 s.
Proof. by destruct d. Qed.
Lemma st1_set_acc s d v : st1 (set_acc s d v) = st1 s.
Proof. by destruct d. Qed.
Lemma t_set_acc s d v : t (set_acc s d v) = t s.
Proof. by destruct d. Qed.
Lemma has_set_flag s m on : m ≠ 0 → has (st0 (set_flag s m on)) m = on.
Proof.
  intros Hm. unfold set_flag. cbn [st0 update_field]. destruct on; [|apply has_clr_same].
  rewrite has_lor. replace (has m m) with true; [apply orb_true_r|].
  symmetry. unfold has. rewrite Z.land_diag. by apply negb_true_iff, Z.eqb_neq.
Qed.

(** Opcodes of the accumulator family, with their register fields. *)
Definition op_src (base : Z) (sel : bool) : Z := base + 256 * Z.b2z sel.
Definition op_src_dst (base : Z) (src dst : bool) : Z := base + 512 * Z.b2z src + 256 * Z.b2z dst.

(** EXP followed by NORM brings any non-zero accumulator to full scale:
    the result is the accumulator shifted by the exponent EXP left in T, its
    bits 31 and 30 differ and its guard bits are a sign extension. *)
Theorem exp_norm_normalises s (src dst : bool) :
  sext40 (get_acc s src) ≠ 0 →
  ∃ s1 s2, exec_f4_acc s (op_src 0xF48E src) = Some (consumed s, s1) ∧
    exec_f4_acc s1 (op_src_dst 0xF48F src dst) = Some (consumed s, s2) ∧
    i16 (t s2) = exp_of (sext40 (get_acc s src)) ∧
    get_acc s2 dst = shift_by (sext40 (get_acc s src)) (exp_of (sext40 (get_acc s src))) ∧
    normalised (get_acc s2 dst).
Proof.
  intros H0. pose proof (sext40_range (get_acc s src)) as Hr.
  set (v := sext40 (get_acc s src)) in *.
  pose proof (exp_normalises v Hr H0) as Hn. pose proof (exp_of_range v Hr) as He.
  set (s1 := s <| t := u16 (exp_of v) |>).
  set (s2 := norm_tc (set_acc s1 dst (sext40 (shift_by v (norm_shift (t s1)))))
               (Z.testbit v 39) (Z.testbit v 38)).
  exists s1, s2. split; [by destruct src|]. split; [by destruct src, dst|].
  assert (Eg : get_acc s2 dst = shift_by v (exp_of v)).
  { unfold s2, norm_tc. rewrite get_set_flag, get_set_acc. change (t s1) with (u16 (exp_of v)).
    rewrite norm_shift_exp by lia. apply sext40_small. unfold normalised in Hn. lia. }
  split; [|by rewrite Eg].
  replace (t s2) with (u16 (exp_of v)) by (by destruct dst). unfold i16, u16. mlia.
Qed.

Lemma exp_norm_normalises_witness :
  ∃ s1 s2, exec_f4_acc (c54x_zero <| a := -0x1234 |>) 0xF48E = Some (1, s1) ∧
    exec_f4_acc s1 0xF58F = Some (1, s2) ∧ b s2 = -0x48D00000 ∧ normalised (b s2).
Proof.
  destruct (exp_norm_normalises (c54x_zero <| a := -0x1234 |>) false true) as (s1 & s2 & E1 & E2 & _ & Eb & Hn);
    [vm_compute; discriminate|].
  exists s1, s2. split; [exact E1|]. split; [exact E2|]. split; [|exact Hn].
  etransitivity; [exact Eb|vm_compute; reflexivity].
Defined.

(** ** Rotations *)
Lemma rol_ror_value v c :
  0 ≤ v < 2 ^ 32 →
  let w := Z.lor (u32 (Z.shiftl v 1)) (Z.b2z c) in
  0 ≤ w < 2 ^ 32 ∧ Z.testbit w 0 = c ∧
  Z.lor (Z.shiftr w 1) (Z.shiftl (Z.b2z (Z.testbit v 31)) 31) = v.
Proof.
  intros Hv. change (2 ^ 32) with 4294967296 in *. set (l := v mod 2147483648).
  assert (Eu : u32 (Z.shiftl v 1) = Z.shiftl l 1).
  { rewrite !Z.shiftl_mul_pow2 by lia. unfold u32, l. change (2 ^ 1) with 2. mlia. }
  assert (Hl : 0 ≤ l < 2147483648) by (apply Z.mod_pos_bound; lia).
  rewrite Eu, lor_shiftl_add by (destruct c; cbn; lia). change (2 ^ 1) with 2. cbv zeta.
  assert (Et : Z.b2z (Z.testbit v 31) = v / 2147483648).
  { rewrite Z.testbit_spec' by lia. change (2 ^ 31) with 2147483648. mlia. }
  split; [destruct c; cbn; lia|]. split.
  - rewrite Z.bit0_odd, Z.odd_add, Z.odd_mul. destruct c; cbn; by rewrite andb_false_r.
  - rewrite Z.lor_comm, Et. replace (Z.shiftr (l * 2 + Z.b2z c) 1) with l
      by (rewrite Z.shiftr_div_pow2 by lia; change (2 ^ 1) with 2; destruct c; cbn; mlia).
    rewrite lor_shiftl_add by (change (2 ^ 31) with 2147483648; lia).
    change (2 ^ 31) with 2147483648. unfold l. mlia.
Qed.

(** ROR undoes ROL: the two rotations through the carry restore bits 31-0
    of the accumulator and the carry itself, and clear the guard bits. *)
Theorem ror_undoes_rol s (sel : bool) :
  ∃ s1 s2, exec_f4_acc s (op_src 0xF491 sel) = Some (consumed s, s1) ∧
    exec_f4_acc s1 (op_src 0xF490 sel) = Some (consumed s, s2) ∧
    get_acc s2 sel = get_acc s sel mod 2 ^ 32 ∧
    has (st0 s2) ST0_C = has (st0 s) ST0_C ∧
    get_acc s2 (negb sel) = get_acc s (negb sel).
Proof.
  set (v := Z.land (get_acc s sel) 0xFFFFFFFF). set (c := has (st0 s) ST0_C).
  set (w := Z.lor (u32 (Z.shiftl v 1)) (Z.b2z c)).
  set (s1 := set_flag (set_acc s sel w) ST0_C (Z.testbit v 31)).
  set (w' := Z.land (get_acc s1 sel) 0xFFFFFFFF).
  set (s2 := set_flag (set_acc s1 sel (Z.lor (Z.shiftr w' 1) (Z.shiftl (Z.b2z (has (st0 s1) ST0_C)) 31)))
               ST0_C (Z.testbit w' 0)).
  exists s1, s2. split; [by destruct sel|]. split; [by destruct sel|].
  assert (Ev : v = get_acc s sel mod 2 ^ 32).
  { unfold v. change 0xFFFFFFFF with (Z.ones 32). by rewrite Z.land_ones by lia. }
  assert (Hv : 0 ≤ v < 2 ^ 32) by (rewrite Ev; apply Z.mod_pos_bound; lia).
  destruct (rol_ror_value v c Hv) as (Hw & Hb & Hr). fold w in Hw, Hb, Hr.
  assert (Ew : w' = w).
  { unfold w', s1. rewrite get_set_flag, get_set_acc. change 0xFFFFFFFF with (Z.ones 32).
    rewrite Z.land_ones by lia. by apply Z.mod_small. }
  assert (Ec : has (st0 s1) ST0_C = Z.testbit v 31) by (apply has_set_flag; discriminate).
  unfold s2. rewrite Ec, Ew, has_set_flag, !get_set_flag, get_set_acc, get_set_acc_other by discriminate.
  split; [by rewrite Hr|]. split; [done|]. unfold s1. by rewrite get_set_flag, get_set_acc_other.
Qed.

(** ** Carry of the 40-bit adder *)
Definition carry (s : C54xState) : Z := Z.b2z (has (st0 s) ST0_C).

Lemma carry_add_spec s x y :
  carry (c54x_carry_add40 s x y) * 2 ^ 40 + (x + y) mod 2 ^ 40 = x mod 2 ^ 40 + y mod 2 ^ 40.
Proof.
  unfold carry, c54x_carry_add40. rewrite has_set_flag by discriminate. cbv zeta.
  change 0xFFFFFFFFFF with (Z.ones 40). rewrite !Z.land_ones by lia.
  change 1 with (Z.ones 1) at 1. rewrite Z.land_ones, Z.shiftr_div_pow2 by lia.
  change (2 ^ 40) with 1099511627776. change (2 ^ 1) with 2.
  destruct (Z.eqb_spec ((x mod 1099511627776 + y mod 1099511627776) / 1099511627776 mod 2) 1); cbn [Z.b2z]; mlia.
Qed.

Lemma carry_sub_spec s x y :
  (x - y) mod 2 ^ 40 = x mod 2 ^ 40 - y mod 2 ^ 40 + (1 - carry (c54x_carry_sub40 s x y)) * 2 ^ 40.
Proof.
  unfold carry, c54x_carry_sub40. rewrite has_set_flag by discriminate. cbv zeta.
  change 0xFFFFFFFFFF with (Z.ones 40). rewrite !Z.land_ones by lia.
  change (2 ^ 40) with 1099511627776.
  destruct (Z.leb_spec (y mod 1099511627776) (x mod 1099511627776)); cbn [Z.b2z]; mlia.
Qed.

(** ** Multiply and accumulate *)
Lemma i16_product_range x y : -2 ^ 30 < i16 x * i16 y ≤ 2 ^ 30.
Proof. pose proof (i16_range x). pose proof (i16_range y). change (2 ^ 30) with 1073741824. nia. Qed.

(** The only 16x16 product that overflows 32 bits once doubled. *)
Definition frct_overflow (s : C54xState) (m : Z) : bool :=
  has (st1 s) ST1_FRCT && (i16 (t s) * i16 m =? 2 ^ 30).

Lemma i32_frct s m :
  i32 (frct s (i16 (t s) * i16 m)) =
  if frct_overflow s m then - 2 ^ 31 else frct s (i16 (t s) * i16 m).
Proof.
  pose proof (i16_product_range (t s) m) as Hp. unfold frct, frct_overflow.
  generalize dependent (i16 (t s) * i16 m). intros p Hp. change (2 ^ 30) with 1073741824 in *.
  destruct (has (st1 s) ST1_FRCT); cbn [andb].
  - rewrite Z.shiftl_mul_pow2 by lia. change (2 ^ 1) with 2. change (2 ^ 31) with 2147483648.
    destruct (Z.eqb_spec p 1073741824); unfold i32; mlia.
  - unfold i32. mlia.
Qed.

Lemma frct_overflow_iff s m :
  wf s → word m → frct_overflow s m = true ↔
  has (st1 s) ST1_FRCT = true ∧ t s = 0x8000 ∧ m = 0x8000.
Proof.
  intros Hw Hm. pose proof (wf_t _ Hw) as Ht. unfold word in *. unfold frct_overflow.
  rewrite andb_true_iff, Z.eqb_eq. change (2 ^ 30) with 1073741824.
  pose proof (i16_range (t s)) as R1. pose proof (i16_range m) as R2.
  split; intros [H1 H2]; split; [done| |done|].
  - assert (i16 (t s) = -32768 ∧ i16 m = -32768) as [E1 E2] by nia. unfold i16 in *. mlia.
  - destruct H2 as [-> ->]. reflexivity.
Qed.

Lemma mac_family_spec s op ad m s0 :
  Z.land op 0xFC00 = 0x2800 → smem_operand s op = (ad, m, s0) →
  c54x_mac_bit_family s op = retire (set_acc s0 (Z.testbit op 8)
    (sext40 (get_acc s0 (Z.testbit op 8) +
       (if Z.testbit op 9 then -1 else 1) *
       (if frct_overflow s0 m then - 2 ^ 31 else frct s0 (i16 (t s0) * i16 m))))).
Proof.
  intros E Es. unfold c54x_mac_bit_family. rewrite E, Es. cbn [Z.eqb Pos.eqb]. cbv zeta.
  rewrite i32_frct. do 2 f_equal. apply sext40_eqm.
  change 0xFFFFFFFFFF with (Z.ones 40). rewrite Z.land_ones, Zmod_mod by lia.
  f_equal. destruct (Z.testbit op 9); ring.
Qed.

(** MAC Smem,src adds the product of T and the operand, doubled under FRCT,
    to the accumulator modulo 2^40, except when FRCT is set and both factors
    are 0x8000: the 32-bit product wraps, and 2^31 is subtracted where the exact
    product is +2^31. *)
Theorem mac_accumulates s op ad m s0 :
  wf s → Z.land op 0xFE00 = 0x2800 → smem_operand s op = (ad, m, s0) →
  ∃ s', exec_group_2 s op = Some (consumed s0, s') ∧
    get_acc s' (Z.testbit op 8) = sext40 (get_acc s0 (Z.testbit op 8) +
      (if has (st1 s0) ST1_FRCT && (t s0 =? 0x8000) && (m =? 0x8000) then - 2 ^ 31
       else frct s0 (i16 (t s0) * i16 m))) ∧
    get_acc s' (negb (Z.testbit op 8)) = get_acc s0 (negb (Z.testbit op 8)) ∧ t s' = t s0.
Proof.
  intros Hw E Es.
  destruct (wf_smem_operand s op Hw) as (? & ? & ? & E' & _ & Hm & Hs0). rewrite Es in E'. simplify_eq.
  assert (E9 : Z.testbit op 9 = false).
  { assert (Z.testbit (Z.land op 0xFE00) 9 = Z.testbit 0x2800 9) as Eb by (by rewrite E).
    rewrite Z.land_spec in Eb. cbn in Eb. by rewrite andb_true_r in Eb. }
  assert (EC : Z.land op 0xFC00 = 0x2800).
  { change 0xFC00 with (Z.land 0xFE00 0xFC00). by rewrite Z.land_assoc, E. }
  eexists. unfold exec_group_2. rewrite (mac_family_spec _ _ _ _ _ EC Es), E9. split.
  { unfold retire, consumed. do 2 f_equal. by destruct (Z.testbit op 8). }
  rewrite get_set_acc, get_set_acc_other, t_set_acc, Z.mul_1_l. split; [|done]. do 2 f_equal.
  pose proof (frct_overflow_iff _ _ Hs0 Hm) as Hiff.
  destruct (frct_overflow _ _), (_ && _ && _) eqn:Eb; try done; exfalso.
  - destruct Hiff as [Hiff _]. destruct (Hiff eq_refl) as (H1 & H2 & H3). rewrite H1, H2, H3 in Eb. done.
  - apply andb_true_iff in Eb as [Eb ?]. apply andb_true_iff in Eb as [? ?].
    destruct Hiff as [_ Hiff]. discriminate Hiff. split; [done|]. lia.
Qed.

Lemma mac_accumulates_witness :
  let s := c54x_zero <| t := 0x8000 |> <| st1 := ST1_FRCT |> <| data := <[ 0x60 := 0x8000 ]> ∅ |> in
  ∃ s', exec_group_2 s 0x2860 = Some (1, s') ∧ a s' = -2147483648 ∧
        frct s (i16 (t s) * i16 0x8000) = 2147483648.
Proof.
  set (s := c54x_zero <| t := 0x8000 |> <| st1 := ST1_FRCT |> <| data := <[ 0x60 := 0x8000 ]> ∅ |>).
  destruct (mac_accumulates s 0x2860 0x60 0x8000 s) as (s' & E & Ea & _).
  - apply wf_set_data.
    + apply wf_set_st1; [apply wf_set_t; [apply wf_zero|unfold word; lia]|split; [discriminate|reflexivity]].
    + apply mem_ok_insert; [unfold word; lia|apply map_Forall_empty].
  - reflexivity.
  - vm_compute. reflexivity.
  - exists s'. split; [exact E|]. split; [|vm_compute; reflexivity].
    etransitivity; [exact Ea|vm_compute; reflexivity].
Defined.

(** MACR (0x2A) is decoded by the MAC test with bit 9 read as "subtract": it
    subtracts the product and does not round. *)
Theorem macr_runs_as_mas s op ad m s0 :
  Z.land op 0xFE00 = 0x2A00 → smem_operand s op = (ad, m, s0) → frct_overflow s0 m = false →
  exec_group_2 s op = retire (set_acc s0 (Z.testbit op 8)
    (sext40 (get_acc s0 (Z.testbit op 8) - frct s0 (i16 (t s0) * i16 m)))).
Proof.
  intros E Es Ho.
  assert (E9 : Z.testbit op 9 = true).
  { assert (Z.testbit (Z.land op 0xFE00) 9 = Z.testbit 0x2A00 9) as Eb by (by rewrite E).
    rewrite Z.land_spec in Eb. cbn in Eb. by rewrite andb_true_r in Eb. }
  assert (EC : Z.land op 0xFC00 = 0x2800).
  { change 0xFC00 with (Z.land 0xFE00 0xFC00). by rewrite Z.land_assoc, E. }
  unfold exec_group_2. rewrite (mac_family_spec _ _ _ _ _ EC Es), E9, Ho.
  reflexivity.
Qed.

End C54xArith.
