(* ===== verification/C54xRun.v ===== *)
(** * The instruction loop of the C54x DSP
    ([hw/arm/calypso/l1-dsp/calypso_c54x.c], [c54x_run])

    One iteration of the loop around [C54xExec.c54x_exec_one]: the idle
    fast-forward, the replay of pending interrupts, the seed of the interrupt
    mask image, the overflow pass, the single repeat, the program counter, the
    on-chip timer, the delay slots and the block repeat.  The probes are not
    modelled and the workaround switches have their defaults; the yield that
    ends a slice early and the count of cycles are left out, since they do not
    change the state of the core. *)
From stdpp Require Import gmap.
From S2P Require Import Prelude C54xAddr C54xState C54xDecode C54xIrq C54xAlu C54xFlow C54xExec C54xArith.

Module C54xRun.
Import C54xAddr C54xState C54xDecode C54xIrq C54xAlu C54xFlow C54xExec C54xArith.

Definition TCR_TSS : Z := Z.shiftl 1 4.

(** The dispatcher loops skipped while no task is posted. *)
Definition task_slots : list Z := [0x0800; 0x0802; 0x0804; 0x0807; 0x0814; 0x0816; 0x0818; 0x081B].

Definition dsp_idle_fast_forward (s : C54xState) : bool :=
  let in_range := (0xe9ac <=? pc s) && (pc s <=? 0xe9b7) || (0xcc62 <=? pc s) && (pc s <=? 0xcc6f) in
  in_range && forallb (λ i, mget (data s) i =? 0) task_slots &&
  negb (negb (has (st1 s) ST1_INTM) && negb (Z.land (ifr s) (imr s) =? 0)).

(** Replay of an interrupt that arrived while INTM was set. *)
Definition replay_pending (s : C54xState) : C54xState :=
  if has (st1 s) ST1_INTM then s
  else
    let pending := Z.land (ifr s) (imr s) in
    if pending =? 0 then s
    else let imr_bit := ctz pending in take_vector s (imr_bit + 16) imr_bit (pc s).

(** Seed of the mask image at 0xA4E4. *)
Definition init_435b (s : C54xState) : C54xState :=
  if (u16 (pc s) =? 0xa4e4) && (mget (data s) 0x435b =? 0)
  then s <| data := <[0x435b := 0x52ed]> (data s) |> else s.

(** Overflow flag and saturation of one accumulator the instruction changed. *)
Definition ovm_acc (sel : bool) (before : Z) (s : C54xState) : C54xState :=
  if get_acc s sel =? before then s
  else
    let v := sext40 (get_acc s sel) in
    if (0x7FFFFFFF <? v) || (v <? -0x80000000) then
      let s := s <| st0 := Z.lor (st0 s) (if sel then ST0_OVB else ST0_OVA) |> in
      if has (st1 s) ST1_OVM then set_acc s sel (if v <? 0 then -0x80000000 else 0x7FFFFFFF) else s
    else s.

Definition ovm_pass (a0 b0 : Z) (s : C54xState) : C54xState :=
  if has (st1 s) ST1_C16 then s else ovm_acc true b0 (ovm_acc false a0 s).

Definition advance_pc (consumed : Z) (s : C54xState) : C54xState :=
  let p := if 0 <? consumed then u32 (pc s + consumed) else pc s in
  s <| pc := Z.land p 0xFFFF |>.

Definition timer_tick (s : C54xState) : C54xState :=
  if has (mget (data s) TCR_ADDR) TCR_TSS then s
  else if timer_psc s =? 0 then
    let s := s <| timer_psc := Z.land (mget (data s) TCR_ADDR) TCR_TDDR_MASK |> in
    if mget (data s) TIM_ADDR =? 0 then
      c54x_fire_tint (s <| data := <[TIM_ADDR := mget (data s) PRD_ADDR]> (data s) |>)
    else s <| data := <[TIM_ADDR := u16 (mget (data s) TIM_ADDR - 1)]> (data s) |>
  else s <| timer_psc := u16 (timer_psc s - 1) |>.

Definition delay_settle (ds_before consumed : Z) (s : C54xState) : C54xState :=
  if (0 <? delay_slots s) && negb (ds_before =? 0) then
    let wexec := if 0 <? consumed then consumed else 1 in
    let ds := if wexec <? delay_slots s then delay_slots s - wexec else 0 in
    let s := s <| delay_slots := ds |> in
    if ds =? 0 then s <| pc := delayed_pc s |> else s
  else s.

(** End of the body of a block repeat. *)
Definition rptb_check (exec_pc consumed pc_sequentiel : Z) (s : C54xState) : C54xState :=
  let rptb_fin := (0 <? consumed) && (u16 (pc s) =? pc_sequentiel) &&
                  (exec_pc <=? rea s) && (rea s <? u16 (pc s)) in
  if rptb_active s && negb (rpt_active s) && rptb_fin then
    if 0 <? brc s then s <| brc := u16 (brc s - 1) |> <| pc := rsa s |>
    else s <| rptb_active := false |> <| st1 := clr (st1 s) ST1_BRAF |>
  else s.

(** From the advance of the program counter to the end of the iteration. *)
Definition finish (exec_pc ds_before consumed : Z) (s : C54xState) : C54xState :=
  let s := timer_tick (advance_pc consumed s) in
  let pc_sequentiel := u16 (pc s) in
  let s := delay_settle ds_before consumed s in
  let s := rptb_check exec_pc consumed pc_sequentiel s in
  s <| insn_count := u32 (insn_count s + 1) |>.

(** What follows the instruction: saturation, the repeat of a single
    instruction, the advance; [s0] is the state it started from. *)
Definition settle (s0 : C54xState) (consumed : Z) (s : C54xState) : C54xState :=
  let s := ovm_pass (a s0) (b s0) s in
  if rpt_active s && negb (idle s) then
    if negb (rpt_active s0) then s
    else if 0 <? rpt_count s then s <| rpt_count := rpt_count s - 1 |>
    else finish (u16 (pc s0)) (delay_slots s0) consumed (s <| rpt_active := false |> <| par_set := false |>)
  else finish (u16 (pc s0)) (delay_slots s0) consumed s.

(** One iteration; [None] for the instructions [DspPorts] adds. *)
Definition run_step (en dma_level : bool) (s : C54xState) : option C54xState :=
  if dsp_idle_fast_forward s then Some (s <| insn_count := u32 (insn_count s + 8) |>)
  else
    let s := init_435b (replay_pending s) in
    match c54x_exec_one en dma_level s with
    | None => None
    | Some (consumed, s') => Some (settle s consumed s')
    end.

(** [n] iterations at most; the loop ends when the core goes idle. *)
Fixpoint run_steps (en dma_level : bool) (n : nat) (s : C54xState) : option C54xState :=
  match n with
  | O => Some s
  | S n => if idle s then Some s else
           match run_step en dma_level s with
           | Some s' => run_steps en dma_level n s'
           | None => None
           end
  end.

(** ** Typing of the loop *)
Lemma ctz_range x : 0 < x < 65536 → 0 ≤ ctz x < 16.
Proof. intros Hx. apply ctz_spec; [unfold word|]; lia. Qed.

Lemma wf_replay s : wf s → wf (replay_pending s).
Proof.
  intros H. unfold replay_pending. case_match; [done|]. cbv zeta.
  destruct (Z.eqb_spec (Z.land (ifr s) (imr s)) 0); [done|].
  assert (word (Z.land (ifr s) (imr s))) as Hp by eauto with c54x. unfold word in Hp.
  pose proof (ctz_range (Z.land (ifr s) (imr s))). apply wf_take_vector; [done|lia].
Qed.

Lemma wf_init_435b s : wf s → wf (init_435b s).
Proof.
  intros. unfold init_435b. case_match; [|done]. apply wf_set_data; [done|].
  apply mem_ok_insert; [unfold word; lia|eauto with c54x].
Qed.

Lemma wf_ovm_acc sel v0 s : wf s → wf (ovm_acc sel v0 s).
Proof.
  intros. unfold ovm_acc. destruct (get_acc s sel =? v0); [done|]. cbv zeta. destruct (_ || _); [|done].
  assert (Hov : wf (s <| st0 := Z.lor (st0 s) (if sel then ST0_OVB else ST0_OVA) |>))
    by (destruct sel; eauto with c54x).
  destruct (has _ ST1_OVM); [|done]. apply wf_set_acc; [done|].
  destruct (_ <? 0); [apply acc40_min|apply acc40_max].
Qed.

Lemma wf_ovm_pass a0 b0 s : wf s → wf (ovm_pass a0 b0 s).
Proof. intros. unfold ovm_pass. case_match; auto using wf_ovm_acc. Qed.

Lemma wf_timer_tick s : wf s → wf (timer_tick s).
Proof.
  intros H. unfold timer_tick. case_match; [done|]. case_match; [|eauto with c54x]. cbv zeta.
  assert (Ht : wf (s <| timer_psc := Z.land (mget (data s) TCR_ADDR) TCR_TDDR_MASK |>)).
  { apply wf_set_timer_psc; [done|]. apply word_land. unfold word, TCR_TDDR_MASK. lia. }
  revert Ht. generalize (s <| timer_psc := Z.land (mget (data s) TCR_ADDR) TCR_TDDR_MASK |>). intros s1 Ht.
  case_match; [apply wf_interrupt_ex|]; eauto 6 with c54x.
Qed.

Lemma wf_finish p d c s : wf s → wf (finish p d c s).
Proof.
  intros H. unfold finish. cbv zeta.
  assert (H1 : wf (timer_tick (advance_pc c s))).
  { apply wf_timer_tick. unfold advance_pc. apply wf_set_pc; [done|]. apply pow32_word, word_land, word_ffff. }
  revert H1. generalize (timer_tick (advance_pc c s)). intros s1 H1.
  assert (H2 : wf (delay_settle d c s1)).
  { unfold delay_settle. destruct (_ && _); [|done]. cbv zeta.
    destruct (_ =? 0); [apply wf_set_pc|]; eauto with c54x. }
  revert H2. generalize (delay_settle d c s1). intros s2 H2. apply wf_set_insn_count.
  unfold rptb_check. cbv zeta. destruct (_ && _); [|done].
  destruct (0 <? brc s2); [apply wf_set_pc|apply wf_set_st1]; eauto 6 with c54x.
Qed.

Lemma wf_settle s0 c s : wf s → wf (settle s0 c s).
Proof.
  intros H. unfold settle. cbv zeta. pose proof (wf_ovm_pass (a s0) (b s0) s H) as H3.
  revert H3. generalize (ovm_pass (a s0) (b s0) s). intros s3 H3.
  destruct (rpt_active s3 && negb (idle s3)); [|by apply wf_finish].
  destruct (negb (rpt_active s0)); [done|].
  destruct (Z.ltb_spec 0 (rpt_count s3)).
  - apply wf_set_rpt_count; [done|]. pose proof (wf_rpt _ H3) as Hw. unfold word in *. lia.
  - apply wf_finish. auto with c54x.
Qed.

Lemma wf_run_step en lvl s s' : wf s → run_step en lvl s = Some s' → wf s'.
Proof.
  intros H E. unfold run_step in E. destruct (dsp_idle_fast_forward s); [simplify_eq; eauto with c54x|].
  cbv zeta in E. assert (H1 : wf (init_435b (replay_pending s))) by auto using wf_init_435b, wf_replay.
  destruct (c54x_exec_one en lvl _) as [[c s2]|] eqn:Ex; [|done]. simplify_eq.
  eauto using wf_settle, exec_one_well_formed.
Qed.

Lemma run_steps_wf en lvl n s s' : wf s → run_steps en lvl n s = Some s' → wf s'.
Proof.
  revert s. induction n as [|n IH]; intros s H E; cbn [run_steps] in E; [by simplify_eq|].
  destruct (idle s); [by simplify_eq|].
  destruct (run_step en lvl s) as [s1|] eqn:E1; [|done]. eauto using wf_run_step.
Qed.

(** However many iterations the loop runs, over any program of the modelled
    instructions, with interrupts, repeats, timer and saturation on the way, a
    well-formed state stays well formed: every register and memory cell is a
    16-bit word, the accumulators are 40-bit values, the page is below four. *)
Theorem run_well_formed en lvl n s s' :
  wf s → run_steps en lvl n s = Some s' → wf s'.
Proof. apply run_steps_wf. Qed.

(** RPT #1, EXP, NORM: four iterations of a small program. *)
Lemma run_well_formed_witness :
  let s := c54x_zero <| a := -5 |> <| pc := 0x100 |> <| data := {[ TCR_ADDR := 0x10 ]} |>
             <| prog := <[0x100 := 0xEC01]> (<[0x101 := 0xF48E]> (<[0x102 := 0xF48F]> ∅)) |> in
  match run_steps true false 4 s with
  | Some s' => wf s' ∧ pc s' = 0x103 ∧ a s' = -0x50000000
  | None => False
  end.
Proof.
  intros s.
  assert (Hw : wf s).
  { apply wf_set_prog; [apply wf_set_data; [apply wf_set_pc; [apply wf_set_a; [apply wf_zero|]|]|]|].
    - unfold acc40; lia.
    - lia.
    - apply mem_ok_insert; [unfold word; lia|apply map_Forall_empty].
    - repeat (apply mem_ok_insert; [unfold word; lia|]). apply map_Forall_empty. }
  destruct (run_steps true false 4 s) as [s'|] eqn:E; [|vm_compute in E; discriminate].
  split; [exact (run_well_formed true false 4 s s' Hw E)|]. clear Hw.
  assert (Ev : (λ s, (pc s, a s)) <$> run_steps true false 4 s = Some (0x103, -0x50000000))
    by (vm_compute; reflexivity).
  rewrite E in Ev. cbn in Ev. injection Ev as -> ->. split; reflexivity.
Defined.

(** ** The on-chip timer *)

(** Ticks the running timer still absorbs before it underflows. *)
Definition ticks_left (s : C54xState) : Z :=
  timer_psc s + mget (data s) TIM_ADDR * (Z.land (mget (data s) TCR_ADDR) TCR_TDDR_MASK + 1).

Definition set_timer (s : C54xState) (psc tim : Z) : C54xState :=
  s <| timer_psc := psc |> <| data := <[TIM_ADDR := tim]> (data s) |>.

Lemma mget_set_tim s p v i : i ≠ TIM_ADDR → mget (data (set_timer s p v)) i = mget (data s) i.
Proof. intros. unfold set_timer, mget. cbn [data update_field]. by rewrite lookup_insert_ne. Qed.
Lemma mget_set_tim_same s p v : mget (data (set_timer s p v)) TIM_ADDR = v.
Proof. unfold set_timer, mget. cbn [data update_field]. by rewrite lookup_insert. Qed.

Lemma set_timer_twice s p v p' v' : set_timer (set_timer s p v) p' v' = set_timer s p' v'.
Proof. unfold set_timer. cbn. by rewrite insert_insert. Qed.

(** One tick away from underflow takes one from [ticks_left]. *)
Lemma timer_tick_step s psc tim :
  wf s → has (mget (data s) TCR_ADDR) TCR_TSS = false → word psc → word tim → 0 < psc + tim →
  ∃ psc' tim', word psc' ∧ word tim' ∧ timer_tick (set_timer s psc tim) = set_timer s psc' tim' ∧
    ticks_left (set_timer s psc' tim') = ticks_left (set_timer s psc tim) - 1.
Proof.
  intros Hw Hrun Hp Ht Hpos. unfold word in Hp, Ht. unfold timer_tick, ticks_left.
  rewrite !mget_set_tim_same, !(mget_set_tim s) by discriminate. rewrite Hrun.
  change (timer_psc (set_timer s psc tim)) with psc.
  set (tddr := Z.land (mget (data s) TCR_ADDR) TCR_TDDR_MASK).
  assert (Hd : 0 ≤ tddr ≤ 15) by (pose proof (land_range (mget (data s) TCR_ADDR) TCR_TDDR_MASK); unfold TCR_TDDR_MASK in *; lia).
  destruct (Z.eqb_spec psc 0) as [->|Hne].
  - exists tddr, (tim - 1). split; [unfold word; lia|]. split; [unfold word; lia|].
    change (mget (data (set_timer s 0 tim <| timer_psc := tddr |>)) TIM_ADDR)
      with (mget (data (set_timer s 0 tim)) TIM_ADDR).
    rewrite mget_set_tim_same, (proj2 (Z.eqb_neq tim 0)), u16_small by lia. split.
    + unfold set_timer. cbn. by rewrite insert_insert.
    + rewrite !mget_set_tim_same, !(mget_set_tim s) by discriminate.
      change (timer_psc (set_timer s tddr (tim - 1))) with tddr. fold tddr. ring.
  - exists (psc - 1), tim. split; [unfold word; lia|]. split; [unfold word; lia|].
    rewrite u16_small by lia. split; [done|].
    rewrite !mget_set_tim_same, !(mget_set_tim s) by discriminate.
    change (timer_psc (set_timer s (psc - 1) tim)) with (psc - 1). fold tddr. ring.
Qed.

Lemma timer_counts_down s n psc tim :
  wf s → has (mget (data s) TCR_ADDR) TCR_TSS = false → word psc → word tim →
  ticks_left (set_timer s psc tim) = Z.of_nat n →
  Nat.iter n timer_tick (set_timer s psc tim) = set_timer s 0 0.
Proof.
  intros Hw Hrun. revert psc tim.
  assert (Hd : 0 ≤ Z.land (mget (data s) TCR_ADDR) TCR_TDDR_MASK)
    by (pose proof (land_range (mget (data s) TCR_ADDR) TCR_TDDR_MASK); unfold TCR_TDDR_MASK in *; lia).
  induction n as [|n IH]; intros psc tim Hp Ht Hl.
  - unfold word, ticks_left in *. rewrite mget_set_tim_same, mget_set_tim in Hl by discriminate.
    change (timer_psc (set_timer s psc tim)) with psc in Hl.
    assert (psc = 0 ∧ tim = 0) as [-> ->] by nia. done.
  - destruct (timer_tick_step s psc tim Hw Hrun Hp Ht) as (p' & t' & Hp' & Ht' & Es & El).
    { unfold word, ticks_left in *. rewrite mget_set_tim_same, mget_set_tim in Hl by discriminate.
      change (timer_psc (set_timer s psc tim)) with psc in Hl.
      destruct (Z.eq_dec tim 0) as [->|]; lia. }
    rewrite Nat.iter_succ_r, Es. apply IH; [done|done|]. lia.
Qed.

(** With TSS clear the on-chip timer interrupts with period
    (PRD+1)*(TDDR+1): from a reload it absorbs that many ticks less one without
    touching anything but its counters, and the next tick reloads them and
    raises TINT. *)
Theorem timer_period s :
  wf s → has (mget (data s) TCR_ADDR) TCR_TSS = false →
  let tddr := Z.land (mget (data s) TCR_ADDR) TCR_TDDR_MASK in
  let prd := mget (data s) PRD_ADDR in
  let s0 := set_timer s tddr prd in
  let n := Z.to_nat ((prd + 1) * (tddr + 1) - 1) in
  Nat.iter n timer_tick s0 = set_timer s 0 0 ∧
  Nat.iter (S n) timer_tick s0 = c54x_fire_tint s0.
Proof.
  intros Hw Hrun tddr prd s0 n.
  assert (Hd : 0 ≤ tddr ≤ 15) by (pose proof (land_range (mget (data s) TCR_ADDR) TCR_TDDR_MASK); unfold tddr, TCR_TDDR_MASK in *; lia).
  assert (Hp : word prd) by (apply word_mget; eauto with c54x). pose proof Hp as Hp'. unfold word in Hp'.
  assert (En : Nat.iter n timer_tick s0 = set_timer s 0 0).
  { apply timer_counts_down; [done|done|unfold word; lia|done|].
    unfold ticks_left. rewrite mget_set_tim_same, mget_set_tim by discriminate. fold tddr.
    change (timer_psc (set_timer s tddr prd)) with tddr. unfold n. rewrite Z2Nat.id by nia. ring. }
  split; [done|]. rewrite Nat.iter_succ, En. unfold timer_tick.
  rewrite (mget_set_tim s) by discriminate. rewrite Hrun. change (timer_psc (set_timer s 0 0)) with 0. cbn [Z.eqb].
  fold tddr. change (data (set_timer s 0 0 <| timer_psc := tddr |>)) with (data (set_timer s 0 0)).
  rewrite mget_set_tim_same, (mget_set_tim s) by discriminate. cbn [Z.eqb]. fold prd. f_equal.
  unfold s0, set_timer. cbn. by rewrite insert_insert.
Qed.

Lemma timer_period_witness :
  let s := c54x_zero <| data := <[TCR_ADDR := 1]> (<[PRD_ADDR := 2]> ∅) |> in
  Nat.iter 5 timer_tick (set_timer s 1 2) = set_timer s 0 0 ∧
  ifr (Nat.iter 6 timer_tick (set_timer s 1 2)) = 8.
Proof.
  intros s.
  assert (Hw : wf s).
  { apply wf_set_data; [apply wf_zero|]. repeat (apply mem_ok_insert; [unfold word; lia|]).
    apply map_Forall_empty. }
  destruct (timer_period s Hw eq_refl) as [E1 E2]. split; [exact E1|].
  etransitivity; [exact (f_equal ifr E2)|vm_compute; reflexivity].
Defined.

(** ** Interrupts and the sequencer *)

(** The sequencer registers, which no store reaches. *)
Definition seqr (s : C54xState) :=
  (rpt_count s, rpt_active s, rptb_active s, delayed_pc s, delay_slots s, idle s, brc s, rsa s, rea s, lk_used s).

Lemma seqr_data_write s addr v : plain_cell addr = true → seqr (data_write s addr v) = seqr s.
Proof.
  unfold plain_cell. intros H. bool_prop.
  assert (apm_cell addr = false ∧ drom_lut addr = false) as [Ea El] by done.
  unfold data_write. rewrite Ea, !(proj2 (Z.eqb_neq addr _)) by done. cbn [orb].
  unfold data_write_locked. rewrite El, (proj2 (Z.eqb_neq addr TCR_ADDR)) by done.
  rewrite (proj2 (Z.ltb_ge addr 0x20)) by done. clear.
  repeat (case_if; [first [done|unfold dms_write; repeat case_if; done|repeat case_if; done]|]).
  by destruct (in_api addr).
Qed.

Lemma seqr_push s v : plain_cell (u16 (sp s - 1)) = true → seqr (push s v) = seqr s.
Proof. intros. unfold push. cbv zeta. by rewrite seqr_data_write. Qed.

Lemma seqr_take_vector s vec k ret :
  plain_cell (u16 (sp s - 1)) = true → plain_cell (u16 (sp s - 2)) = true →
  seqr (take_vector s vec k ret) = seqr s.
Proof.
  intros H1 H2. unfold take_vector. cbv zeta. set (s1 := c54x_ifr_clear s _).
  destruct (push_spec s1 (u16 ret) H1) as (_ & Es & _).
  change (seqr (push (push s1 (u16 ret)) (xpc (push s1 (u16 ret)))) = seqr s).
  rewrite seqr_push; [by rewrite seqr_push|]. rewrite Es.
  replace (u16 (u16 (sp s1 - 1) - 1)) with (u16 (sp s - 2)); [done|].
  change (sp s1) with (sp s). unfold u16. mlia.
Qed.

Lemma ovm_acc_small sel v0 s :
  -0x80000000 ≤ sext40 (get_acc s sel) ≤ 0x7FFFFFFF → ovm_acc sel v0 s = s.
Proof.
  intros H. unfold ovm_acc. cbv zeta. destruct (_ =? v0); [done|].
  rewrite (proj2 (Z.ltb_ge 0x7FFFFFFF _)), (proj2 (Z.ltb_ge _ (-0x80000000))) by lia. done.
Qed.

Lemma ovm_acc_same sel v0 s : get_acc s sel = v0 → ovm_acc sel v0 s = s.
Proof. intros <-. unfold ovm_acc. by rewrite Z.eqb_refl. Qed.

Lemma ovm_pass_same a0 b0 s : a s = a0 → b s = b0 → ovm_pass a0 b0 s = s.
Proof.
  intros Ha Hb. unfold ovm_pass. rewrite (ovm_acc_same false), (ovm_acc_same true) by done. by destruct (has _ _).
Qed.

(** An interrupt replayed inside a single repeat: the repeat is neither waited
    for nor saved, and its next repetition is the first instruction of the
    interrupt vector. *)
Theorem interrupt_inside_repeat lvl s :
  wf s → dsp_idle_fast_forward s = false → has (st1 s) ST1_INTM = false →
  Z.land (ifr s) (imr s) ≠ 0 → rpt_active s = true → 0 < rpt_count s → idle s = false →
  plain_cell (u16 (sp s - 1)) = true → plain_cell (u16 (sp s - 2)) = true →
  let vec := iptr s * 0x80 + (ctz (Z.land (ifr s) (imr s)) + 16) * 4 in
  vec ≠ 0xa4e4 → prog_fetch (replay_pending s) vec = 0xF495 →
  ∃ s', run_step false lvl s = Some s' ∧ pc s' = vec ∧ rpt_active s' = true ∧
    rpt_count s' = rpt_count s - 1 ∧ data_read s' (u16 (sp s - 1)) = u16 (pc s).
Proof.
  intros Hw Hff Hi Hp Hra Hrc Hid H1 H2 vec Hvec Hf. unfold run_step. rewrite Hff. cbv zeta.
  assert (Er : replay_pending s = take_vector s (ctz (Z.land (ifr s) (imr s)) + 16)
                                  (ctz (Z.land (ifr s) (imr s))) (pc s)).
  { unfold replay_pending. by rewrite Hi, (proj2 (Z.eqb_neq _ _) Hp). }
  destruct (take_vector_spec s (ctz (Z.land (ifr s) (imr s)) + 16) (ctz (Z.land (ifr s) (imr s))) (pc s) H1 H2)
    as (Ereg & _ & _ & Eret & _).
  pose proof (seqr_take_vector s (ctz (Z.land (ifr s) (imr s)) + 16) (ctz (Z.land (ifr s) (imr s))) (pc s) H1 H2) as Eseq.
  rewrite <- Er in Ereg, Eret, Eseq. revert Ereg Eret Eseq Hf. generalize (replay_pending s).
  intros s1 Ereg Eret Eseq Hf.
  assert (Epc : pc s1 = vec) by (injection Ereg; intros; done).
  assert (Ein : init_435b s1 = s1).
  { unfold init_435b. rewrite Epc, (proj2 (Z.eqb_neq (u16 vec) 0xa4e4)); [done|].
    rewrite u16_small; [done|]. unfold vec. pose proof (iptr_range s).
    pose proof (ctz_range (Z.land (ifr s) (imr s))) as Hc.
    assert (word (Z.land (ifr s) (imr s))) as Hwd by eauto with c54x. unfold word in Hwd. lia. }
  rewrite Ein. unfold c54x_exec_one. cbn [c54x_irq_level_check negb].
  rewrite Epc, Hf. change (exec_op (s1 <| lk_used := false |>) 0xF495) with (Some (1, s1 <| lk_used := false |>)).
  cbv beta iota. unfold settle. rewrite ovm_pass_same by done. cbv zeta.
  injection Eseq as E1 E2 _ _ _ E6 _ _ _ _.
  change (rpt_active (s1 <| lk_used := false |>)) with (rpt_active s1).
  change (idle (s1 <| lk_used := false |>)) with (idle s1).
  change (rpt_count (s1 <| lk_used := false |>)) with (rpt_count s1).
  rewrite E2, E6, Hra, Hid, E1, (proj2 (Z.ltb_lt 0 (rpt_count s))) by done. cbn [andb negb].
  eexists. split; [reflexivity|]. split; [exact Epc|]. split; [exact (eq_trans E2 Hra)|]. split; [done|].
  pose proof (plain_cell_range _ H1). rewrite <- Eret. apply data_read_dmem; [lia|done].
Qed.

Lemma mget_plain_write s addr v : plain_cell addr = true →
  mget (data (data_write s addr v)) TCR_ADDR = mget (data s) TCR_ADDR.
Proof.
  intros H. destruct (data_write_plain s addr v H) as (-> & _). unfold mget.
  rewrite lookup_insert_ne; [done|]. intros ->. done.
Qed.

Lemma level_frame_seq s :
  wf s → plain_cell (u16 (sp s - 1)) = true → plain_cell (u16 (sp s - 2)) = true →
  seqr (level_frame s) = seqr s ∧
  mget (data (level_frame s)) TCR_ADDR = mget (data s) TCR_ADDR.
Proof.
  intros Hw H1 H2. unfold level_frame. cbv zeta. destruct (push_spec s (u16 (pc s)) H1) as (_ & Es & _).
  assert (E2 : u16 (sp (push s (u16 (pc s))) - 1) = u16 (sp s - 2)) by (rewrite Es; unfold u16; mlia).
  assert (Et : mget (data (push s (u16 (pc s)))) TCR_ADDR = mget (data s) TCR_ADDR)
    by (unfold push; cbv zeta; by rewrite mget_plain_write).
  destruct (negb _); [|by rewrite seqr_push].
  rewrite seqr_push by (by rewrite E2). split; [by rewrite seqr_push|].
  unfold push at 1. cbv zeta. rewrite mget_plain_write; [exact Et|]. exact (eq_trans (f_equal plain_cell E2) H2).
Qed.

Lemma level_check_taken dma s s1 :
  wf s → plain_cell (u16 (sp s - 1)) = true → plain_cell (u16 (sp s - 2)) = true →
  c54x_irq_level_check true dma s = (true, s1) →
  seqr s1 = seqr s ∧ mget (data s1) TCR_ADDR = mget (data s) TCR_ADDR ∧ a s1 = a s ∧ b s1 = b s.
Proof.
  intros Hw H1 H2 E. unfold c54x_irq_level_check in E. cbn [negb] in E. cbv zeta in E.
  set (s0 := if dma then _ else s) in E.
  assert (Hs0 : wf s0 ∧ sp s0 = sp s ∧ seqr s0 = seqr s ∧ data s0 = data s ∧ a s0 = a s ∧ b s0 = b s).
  { unfold s0. destruct dma; [|done]. split; [|done]. apply wf_set_ifr; [done|].
    apply word_lor; [by apply wf_ifr|split; [discriminate|reflexivity]]. }
  clearbody s0. destruct Hs0 as (Hw0 & Esp & <- & <- & <- & <-). rewrite <- Esp in H1, H2.
  destruct (_ || _); [done|]. destruct (_ =? 511); [done|]. destruct (_ =? 0); [done|].
  set (s2 := c54x_ifr_clear s0 _) in E. assert (Hw2 : wf s2) by (unfold s2; eauto with c54x).
  destruct (level_frame_seq s2 Hw2 H1 H2) as [Eseq Et].
  destruct (level_frame_spec s2 Hw2 H1 H2) as (Er & _).
  injection E as <-. split; [exact Eseq|]. split; [exact Et|].
  unfold regs in Er. injection Er as Ea Eb _ _ _ _ _ _ _ _ _ _ _ _ _ _ _ _ _. done.
Qed.

(** The DMA interrupt taken by the check inside [c54x_exec_one] leaves the
    program counter one word past the vector: the check reports one word
    consumed, and the loop advances by it. *)
Theorem level_vector_skips_first_word s :
  wf s → pc s < 65536 → dsp_idle_fast_forward s = false → u16 (pc s) ≠ 0xa4e4 → irq_ready s = true →
  plain_cell (u16 (sp s - 1)) = true → plain_cell (u16 (sp s - 2)) = true →
  Z.land (ifr s) (imr s) = 0 → Z.testbit (imr s) 14 = true →
  rpt_active s = false → rptb_active s = false → delay_slots s = 0 →
  has (mget (data s) TCR_ADDR) TCR_TSS = true →
  ∃ s', run_step true true s = Some s' ∧ pc s' = iptr s * 0x80 + (14 + 16) * 4 + 1.
Proof.
  intros Hw Hpc Hff Hne Hr H1 H2 Hp H14 Hra Hrb Hds Htss. unfold run_step. rewrite Hff. cbv zeta.
  assert (Er : replay_pending s = s).
  { unfold replay_pending. cbv zeta. rewrite Hp. destruct (has (st1 s) ST1_INTM); reflexivity. }
  assert (Ein : init_435b s = s) by (unfold init_435b; by rewrite (proj2 (Z.eqb_neq _ _) Hne)).
  rewrite Er, Ein. unfold c54x_exec_one.
  pose proof (level_check_spec true s Hw Hpc Hr H1 H2) as Hspec. cbv beta iota zeta in Hspec.
  change (ifr (s <| ifr := Z.lor (ifr s) (Z.shiftl 1 14) |>)) with (Z.lor (ifr s) (Z.shiftl 1 14)) in Hspec.
  assert (Ep : Z.land (Z.lor (ifr s) (Z.shiftl 1 14)) (imr s) = 2 ^ 14).
  { rewrite Z.land_lor_distr_l, Hp, Z.lor_0_l, Z.shiftl_1_l. apply Z.bits_inj'. intros j Hj.
    rewrite Z.land_spec, Z.pow2_bits_eqb by lia. destruct (Z.eqb_spec 14 j) as [<-|]; [by rewrite H14|done]. }
  rewrite Ep in Hspec. destruct (c54x_irq_level_check true true s) as [tk s1] eqn:El.
  destruct tk; [|destruct Hspec; discriminate].
  destruct Hspec as (k & Hk & Hbit & _ & Hpc1 & _).
  assert (k = 14) as ->.
  { rewrite Z.pow2_bits_eqb in Hbit by lia. apply Z.eqb_eq in Hbit. done. }
  destruct (level_check_taken true s s1 Hw H1 H2 El) as (Eseq & Et & Ea & Eb).
  unfold settle. rewrite ovm_pass_same by done. cbv zeta. injection Eseq as _ E2 E3 _ E5 _ _ _ _.
  rewrite E2, Hra. cbn [andb]. eexists. split; [reflexivity|].
  pose proof (iptr_range s). unfold finish, advance_pc. cbn [Z.ltb Z.compare Pos.compare].
  assert (Epc : Z.land (u32 (pc s1 + 1)) 0xFFFF = iptr s * 128 + (14 + 16) * 4 + 1).
  { rewrite Hpc1. change 0xFFFF with (Z.ones 16). rewrite Z.land_ones by lia.
    unfold u32. change (2 ^ 16) with 65536. mlia. }
  rewrite Epc. set (s2 := s1 <| pc := _ |>).
  assert (Ett : timer_tick s2 = s2).
  { unfold timer_tick. change (data s2) with (data s1). by rewrite Et, Htss. }
  rewrite Ett. unfold delay_settle. change (delay_slots s2) with (delay_slots s1). rewrite E5, Hds. cbn [Z.ltb Z.compare andb].
  unfold rptb_check. change (rptb_active s2) with (rptb_active s1). by rewrite E3, Hrb.
Qed.

Lemma level_vector_skips_first_word_witness :
  let s := c54x_zero <| pc := 0x8123 |> <| imr := 0x4000 |> <| pmst := 0x00A8 |>
             <| data := <[TCR_ADDR := 0x10]> ∅ |> in
  ∃ s', run_step true true s = Some s' ∧ pc s' = 0xF9.
Proof.
  intros s. apply (level_vector_skips_first_word s); try reflexivity; [|discriminate].
  apply wf_set_data; [|apply mem_ok_insert; [unfold word; lia|apply map_Forall_empty]].
  apply wf_set_pmst; [apply wf_set_imr; [apply wf_set_pc; [apply wf_zero|lia]|]|]; unfold word; lia.
Defined.

Lemma interrupt_inside_repeat_witness :
  let s := c54x_zero <| pc := 0x8123 |> <| imr := 0x0008 |> <| ifr := 0x0008 |> <| pmst := 0x0080 |>
             <| rpt_active := true |> <| rpt_count := 15 |> <| prog := <[0xCC := 0xF495]> ∅ |> in
  ∃ s', run_step false false s = Some s' ∧ pc s' = 0xCC ∧ rpt_active s' = true ∧ rpt_count s' = 14 ∧
        data_read s' 0x5AC7 = 0x8123.
Proof.
  intros s. apply (interrupt_inside_repeat false s); try reflexivity; try discriminate.
  apply wf_set_prog; [|apply mem_ok_insert; [unfold word; lia|apply map_Forall_empty]].
  apply wf_set_rpt_count; [|unfold word; lia]. apply wf_set_rpt_active.
  apply wf_set_pmst; [apply wf_set_ifr; [apply wf_set_imr; [apply wf_set_pc; [apply wf_zero|lia]|]|]|];
    unfold word; lia.
Defined.

(** ** Division by RPT SUBC *)

(** The loop state of [RPT #15; SUBC @off,A] at [p]: accumulator, status and
    repeat count vary, everything else is [s]. *)
Definition div_state (s : C54xState) (p acc st cnt : Z) : C54xState :=
  s <| a := acc |> <| st0 := st |> <| pc := p + 1 |> <| lk_used := false |>
    <| rpt_count := cnt |> <| rpt_active := true |> <| rpt_fresh := true |>.

(** What the division needs of the program and of the machine around it. *)
Record div_setup (s : C54xState) (p off d : Z) : Prop := mkDiv {
  div_wf : wf s;
  div_p : 0 ≤ p < 0xa000;
  div_off : 0 ≤ off < 0x80;
  div_d : 0 < d ≤ 0x8000;
  div_rpt : prog_fetch s p = 0xEC0F;
  div_subc : prog_fetch s (p + 1) = 0x1E00 + off;
  div_cpl : has (st1 s) ST1_CPL = false;
  div_intm : has (st1 s) ST1_INTM = true;
  div_idle : idle s = false;
  div_delay : delay_slots s = 0;
  div_rptb : rptb_active s = false;
  div_tss : has (mget (data s) TCR_ADDR) TCR_TSS = true;
  div_cell : 0x20 ≤ Z.lor (Z.shiftl (dp s) 7) off;
  div_val : data_read s (Z.lor (Z.shiftl (dp s) 7) off) = d
}.

Lemma prog_fetch_frame s s' p :
  xpc s' = xpc s → pmst s' = pmst s → prog s' = prog s → data s' = data s → api_ram s' = api_ram s →
  prog_fetch s' p = prog_fetch s p.
Proof.
  intros E1 E2 E3 E4 E5. unfold prog_fetch, in_ovly, c54x_prog_xlate, c54x_xpc_haut_banque, c54x_ovly_bas.
  by rewrite ?E1, ?E2, ?E3, ?E4, ?E5.
Qed.

Lemma no_fast_forward s : 0 ≤ pc s < 0xcc62 → dsp_idle_fast_forward s = false.
Proof.
  intros H. unfold dsp_idle_fast_forward. rewrite (proj2 (Z.leb_gt 0xe9ac (pc s))), (proj2 (Z.leb_gt 0xcc62 (pc s))) by lia.
  done.
Qed.

(** With INTM set and outside the patched addresses an iteration is the
    instruction and what follows it. *)
Lemma run_step_plain lvl s :
  0 ≤ pc s < 0xa4e4 → has (st1 s) ST1_INTM = true →
  run_step false lvl s =
  match exec_op (s <| lk_used := false |>) (prog_fetch s (pc s)) with
  | None => None
  | Some (c, s') =>
    let s'' := ovm_pass (a s) (b s) s' in
    if rpt_active s'' && negb (idle s'') then
      if negb (rpt_active s) then Some s''
      else if 0 <? rpt_count s'' then Some (s'' <| rpt_count := rpt_count s'' - 1 |>)
      else Some (finish (pc s) (delay_slots s) c (s'' <| rpt_active := false |> <| par_set := false |>))
    else Some (finish (pc s) (delay_slots s) c s'')
  end.
Proof.
  intros Hp Hi. unfold run_step. rewrite no_fast_forward by lia. cbv zeta.
  assert (Er : replay_pending s = s) by (unfold replay_pending; by rewrite Hi).
  assert (Ein : init_435b s = s).
  { unfold init_435b. rewrite u16_small, (proj2 (Z.eqb_neq (pc s) 0xa4e4)) by lia. done. }
  rewrite Er, Ein. unfold c54x_exec_one. cbn [c54x_irq_level_check negb].
  destruct (exec_op _ _) as [[c s']|]; [|done]. unfold settle. rewrite (u16_small (pc s)) by lia.
  cbv zeta. by repeat case_match.
Qed.

Lemma subc_decode off s :
  0 ≤ off < 0x80 → exec_op s (0x1E00 + off) = retire (exec_group_1 s (0x1E00 + off)).
Proof.
  intros H. revert s. apply (range_split (λ k, ∀ s, exec_op s (0x1E00 + k) = retire (exec_group_1 s (0x1E00 + k))) 128);
    [lia|]. forall_cases; reflexivity.
Qed.

Lemma subc_fields off :
  0 ≤ off < 0x80 →
  has (0x1E00 + off) 0x80 = false ∧ Z.land (0x1E00 + off) 0x7F = off ∧
  Z.testbit (0x1E00 + off) 8 = false ∧ Z.land (Z.shiftr (0x1E00 + off) 9) 7 = 7.
Proof.
  intros H. apply (range_split (λ k, has (0x1E00 + k) 0x80 = false ∧ Z.land (0x1E00 + k) 0x7F = k ∧
    Z.testbit (0x1E00 + k) 8 = false ∧ Z.land (Z.shiftr (0x1E00 + k) 9) 7 = 7) 128); [lia|].
  forall_cases; split_and!; reflexivity.
Qed.

(** One SUBC of the loop. *)
Lemma exec_subc s off d :
  0 ≤ off < 0x80 → has (st1 s) ST1_CPL = false →
  data_read s (Z.lor (Z.shiftl (dp s) 7) off) = d → 0 < d ≤ 0x8000 → 0 ≤ a s < d * 65536 →
  exec_op s (0x1E00 + off) =
  Some (consumed s, s <| st0 := if 0 <=? a s - Z.shiftl d 15 then Z.lor (st0 s) ST0_C else clr (st0 s) ST0_C |>
                      <| a := sext40 (subc_acc d (a s)) |>).
Proof.
  intros Ho Hc Hd Hdr Ha. rewrite subc_decode by done. destruct (subc_fields off Ho) as (E1 & E2 & E3 & E4).
  unfold exec_group_1, smem_operand, resolve_smem. rewrite E1. unfold direct_addr. rewrite Hc, E2, Hd, E3, E4.
  cbv zeta. cbn [Z.eqb Pos.eqb get_acc set_acc]. rewrite (sext40_small (a s)) by (change (2 ^ 39) with 549755813888; lia).
  unfold retire, subc_acc. do 2 f_equal.
Qed.

Lemma dp_set_C st (c : bool) :
  Z.land (if c then Z.lor st ST0_C else clr st ST0_C) ST0_DP_MASK = Z.land st ST0_DP_MASK.
Proof.
  apply Z.bits_inj'. intros j Hj. rewrite !Z.land_spec. destruct (Z.testbit ST0_DP_MASK j) eqn:Em; [|by rewrite !andb_false_r].
  assert (Z.testbit ST0_C j = false) as Ec.
  { unfold ST0_C. rewrite Z.shiftl_1_l, Z.pow2_bits_eqb by lia. apply Z.eqb_neq. intros <-. done. }
  destruct c; unfold clr; rewrite ?Z.lor_spec, ?Z.ldiff_spec, Ec; by rewrite ?orb_false_r, ?andb_true_r.
Qed.

(** The instruction at [p + 1] from a loop state. *)
Lemma div_exec lvl s p off d acc st cnt :
  div_setup s p off d → Z.land st ST0_DP_MASK = dp s → 0 ≤ acc < d * 65536 → 0 ≤ subc_acc d acc < d * 65536 →
  ∃ st', Z.land st' ST0_DP_MASK = dp s ∧
  run_step false lvl (div_state s p acc st cnt) =
  let s' := div_state s p (subc_acc d acc) st' cnt in
  Some (if 0 <? cnt then s' <| rpt_count := cnt - 1 |>
        else finish (p + 1) (delay_slots s) 1 (s' <| rpt_active := false |> <| par_set := false |>)).
Proof.
  intros [] Hst Ha Hr. set (S := div_state s p acc st cnt).
  set (S1 := S <| lk_used := false |>).
  assert (HS : data_read S1 (Z.lor (Z.shiftl (dp S1) 7) off) = d).
  { assert (dp S1 = dp s) as -> by exact Hst. by rewrite (data_read_dmem s S1 _ div_cell0 eq_refl). }
  exists (if 0 <=? acc - Z.shiftl d 15 then Z.lor st ST0_C else clr st ST0_C). split; [by rewrite dp_set_C|].
  rewrite run_step_plain by (change (pc S) with (p + 1); (lia || done)).
  rewrite (prog_fetch_frame s S) by reflexivity. change (pc S) with (p + 1). rewrite div_subc0.
  fold S1. rewrite (exec_subc S1 off d div_off0 div_cpl0 HS div_d0 Ha). cbv zeta.
  change (a S1) with acc. change (st0 S1) with st. change (a S) with acc. change (b S) with (b s).
  assert (Es : sext40 (subc_acc d acc) = subc_acc d acc) by (apply sext40_small; change (2 ^ 39) with 549755813888; lia).
  rewrite Es. set (S2 := S1 <| st0 := _ |> <| a := _ |>).
  assert (Eo : ovm_pass acc (b s) S2 = S2).
  { unfold ovm_pass. destruct (has (st1 S2) ST1_C16); [done|].
    rewrite (ovm_acc_small false) by (change (get_acc S2 false) with (subc_acc d acc); rewrite Es; lia).
    by apply ovm_acc_same. }
  rewrite Eo. change (rpt_active S2) with true. change (idle S2) with (idle s). rewrite div_idle0. cbn [andb negb].
  change (rpt_active S) with true. change (rpt_count S2) with cnt. cbn [negb].
  change (delay_slots S) with (delay_slots s).
  by destruct (0 <? cnt).
Qed.

Lemma div_state_count s p acc st c c' :
  div_state s p acc st c <| rpt_count := c' |> = div_state s p acc st c'.
Proof. reflexivity. Qed.
Lemma div_state_idle s p acc st c : idle (div_state s p acc st c) = idle s.
Proof. reflexivity. Qed.

Lemma run_steps_S en lvl n s :
  run_steps en lvl (S n) s =
  if idle s then Some s else
  match run_step en lvl s with Some s' => run_steps en lvl n s' | None => None end.
Proof. reflexivity. Qed.

Lemma run_steps_S_r en lvl n s :
  run_steps en lvl (S n) s =
  match run_steps en lvl n s with
  | Some s' => if idle s' then Some s' else run_step en lvl s'
  | None => None
  end.
Proof.
  revert s. induction n as [|n IH]; intros s.
  - cbn [run_steps]. destruct (idle s); [done|]. by destruct (run_step en lvl s).
  - change (run_steps en lvl (S (S n)) s) with
      (if idle s then Some s else match run_step en lvl s with Some s' => run_steps en lvl (S n) s' | None => None end).
    cbn [run_steps]. destruct (idle s) eqn:Ei; [by rewrite Ei|]. destruct (run_step en lvl s) as [s1|]; [|done].
    rewrite <- IH. done.
Qed.

(** [k] SUBC of the loop, with the count still positive before each. *)
Lemma div_iterate lvl s p off d n k st :
  div_setup s p off d → 0 ≤ n < d * 2 ^ 16 → (k ≤ 15)%nat → Z.land st ST0_DP_MASK = dp s →
  ∃ st', Z.land st' ST0_DP_MASK = dp s ∧
    run_steps false lvl k (div_state s p n st 15) =
    Some (div_state s p (Nat.iter k (subc_acc d) n) st' (15 - Z.of_nat k)).
Proof.
  intros Hs Hn Hk Hst. pose proof (div_d _ _ _ _ Hs) as Hd.
  induction k as [|k IH]; [exists st; split; [exact Hst|reflexivity]|].
  destruct IH as (st1 & Hst1 & E1); [lia|].
  pose proof (subc_inv_iter n d k ltac:(lia) Hn ltac:(lia)) as I1.
  pose proof (subc_inv_iter n d (S k) ltac:(lia) Hn ltac:(lia)) as I2.
  destruct (div_exec lvl s p off d (Nat.iter k (subc_acc d) n) st1 (15 - Z.of_nat k)) as (st2 & Hst2 & E2);
    [done|done|by apply (subc_inv_bound n d k); [lia|lia|]|
     rewrite <- Nat.iter_succ; by apply (subc_inv_bound n d (S k)); [lia|lia|]|].
  exists st2. split; [exact Hst2|]. rewrite run_steps_S_r, E1, div_state_idle, (div_idle _ _ _ _ Hs), E2.
  cbv zeta. rewrite (proj2 (Z.ltb_lt 0 (15 - Z.of_nat k))) by lia. rewrite div_state_count.
  replace (15 - Z.of_nat (S k)) with (15 - Z.of_nat k - 1) by lia.
  rewrite Nat.iter_succ. reflexivity.
Qed.

Lemma exec_rpt_15 s :
  exec_op s 0xEC0F =
  Some (0, s <| rpt_count := 15 |> <| rpt_active := true |> <| rpt_fresh := true |> <| pc := u32 (pc s + 1) |>).
Proof. reflexivity. Qed.

Lemma div_start lvl s p off d :
  div_setup s p off d → pc s = p → rpt_active s = false →
  run_step false lvl s = Some (div_state s p (a s) (st0 s) 15).
Proof.
  intros [] Hpc Hra. subst p. rewrite run_step_plain by (lia || done). rewrite div_rpt0, exec_rpt_15.
  cbv beta iota zeta. rewrite ovm_pass_same by done. rewrite Hra.
  change (pc (s <| lk_used := false |>)) with (pc s).
  assert (Eu : u32 (pc s + 1) = pc s + 1) by (unfold u32; apply Z.mod_small; lia). rewrite Eu.
  cbn [rpt_active idle update_field]. rewrite div_idle0. cbn [andb negb].
  reflexivity.
Qed.

(** The last repetition leaves the loop for the instruction after it. *)
Lemma div_finish s p off d acc st :
  div_setup s p off d →
  finish (p + 1) (delay_slots s) 1 (div_state s p acc st 0 <| rpt_active := false |> <| par_set := false |>) =
  div_state s p acc st 0 <| rpt_active := false |> <| par_set := false |> <| pc := p + 2 |>
    <| insn_count := u32 (insn_count s + 1) |>.
Proof.
  intros []. set (S := div_state s p acc st 0 <| rpt_active := false |> <| par_set := false |>).
  assert (Ea : advance_pc 1 S = S <| pc := p + 2 |>).
  { unfold advance_pc. change (pc S) with (p + 1). cbn [Z.ltb Z.compare].
    replace (Z.land (u32 (p + 1 + 1)) 0xFFFF) with (p + 2); [done|].
    change 0xFFFF with (Z.ones 16). rewrite Z.land_ones by lia. unfold u32. change (2 ^ 16) with 65536. mlia. }
  unfold finish. rewrite Ea.
  assert (Et : timer_tick (S <| pc := p + 2 |>) = S <| pc := p + 2 |>).
  { unfold timer_tick. change (data (S <| pc := p + 2 |>)) with (data s). by rewrite div_tss0. }
  rewrite Et. unfold delay_settle. change (delay_slots (S <| pc := p + 2 |>)) with (delay_slots s).
  rewrite div_delay0. cbn [Z.ltb Z.compare andb].
  unfold rptb_check. change (rptb_active (S <| pc := p + 2 |>)) with (rptb_active s).
  rewrite div_rptb0. cbn [andb]. reflexivity.
Qed.

(** C6: [RPT #15; SUBC @off,A] divides.  Run by the fetch-execute loop from any
    well-formed state with interrupts masked, the two instructions take
    seventeen iterations, leave the quotient of A by the divisor in the low
    half of A and the remainder above it, and go on at the next instruction. *)
Theorem rpt_subc_divides lvl s p off d :
  div_setup s p off d → pc s = p → rpt_active s = false → 0 ≤ a s < d * 2 ^ 16 →
  ∃ s', run_steps false lvl 17 s = Some s' ∧
    a s' = (a s mod d) * 2 ^ 16 + a s / d ∧ pc s' = p + 2 ∧ rpt_active s' = false ∧ b s' = b s ∧ wf s'.
Proof.
  intros Hs Hpc Hra Hn. pose proof Hs as []. set (n := a s) in *.
  pose proof (div_start lvl s p off d Hs Hpc Hra) as E0. fold n in E0.
  destruct (div_iterate lvl s p off d n 15 (st0 s) Hs Hn ltac:(lia) eq_refl) as (st1 & Hst1 & E1).
  change (15 - Z.of_nat 15) with 0 in E1.
  pose proof (subc_inv_iter n d 15 ltac:(lia) Hn ltac:(lia)) as I1.
  pose proof (subc_inv_iter n d 16 ltac:(lia) Hn ltac:(lia)) as I2.
  destruct (div_exec lvl s p off d (Nat.iter 15 (subc_acc d) n) st1 0 Hs Hst1) as (st2 & _ & E2);
    [by apply (subc_inv_bound n d 15); [lia|lia|]|
     rewrite <- Nat.iter_succ; by apply (subc_inv_bound n d 16); [lia|lia|]|].
  rewrite <- Nat.iter_succ in E2. cbv zeta in E2. cbn [Z.ltb Z.compare] in E2.
  assert (E15 : run_steps false lvl 16 s = Some (div_state s p (Nat.iter 15 (subc_acc d) n) st1 0)).
  { rewrite (run_steps_S false lvl 15 s), div_idle0, E0. exact E1. }
  assert (E17 := run_steps_S_r false lvl 16 s). rewrite E15, div_state_idle, div_idle0, E2 in E17.
  rewrite (div_finish s p off d _ st2 Hs) in E17. eexists. split; [exact E17|].
  split; [exact (subc_iter_16 n d ltac:(lia) Hn)|]. split; [reflexivity|]. split; [reflexivity|]. split; [reflexivity|].
  exact (run_steps_wf _ _ _ _ _ div_wf0 E17).
Qed.

(** 1000 = 142 * 7 + 6. *)
Lemma rpt_subc_divides_witness :
  let s := c54x_zero <| a := 1000 |> <| pc := 0x100 |> <| st1 := ST1_INTM |>
             <| data := <[0x60 := 7]> (<[TCR_ADDR := 0x10]> ∅) |>
             <| prog := <[0x100 := 0xEC0F]> (<[0x101 := 0x1E60]> ∅) |> in
  ∃ s', run_steps false false 17 s = Some s' ∧ a s' = 6 * 65536 + 142 ∧ pc s' = 0x102.
Proof.
  intros s.
  assert (Hw : wf s).
  { apply wf_set_prog; [apply wf_set_data; [apply wf_set_st1; [apply wf_set_pc; [apply wf_set_a; [apply wf_zero|]|]|]|]|].
    - unfold acc40; lia.
    - lia.
    - split; [discriminate|reflexivity].
    - repeat (apply mem_ok_insert; [unfold word; lia|]). apply map_Forall_empty.
    - repeat (apply mem_ok_insert; [unfold word; lia|]). apply map_Forall_empty. }
  destruct (rpt_subc_divides false s 0x100 0x60 7) as (s' & E & Ea & Ep & _).
  - constructor; try exact Hw; try lia; vm_compute; try reflexivity. discriminate.
  - reflexivity.
  - reflexivity.
  - change (0 ≤ 1000 < 7 * 65536). lia.
  - exists s'. split; [exact E|]. split; [exact Ea|exact Ep].
Defined.

End C54xRun.
