(* ===== verification/C54xSeq.v ===== *)
(** * Delayed calls and returns of the C54x DSP
    ([hw/arm/calypso/l1-dsp/calypso_c54x.c], [c54x_exec.c])

    What the delayed transfers of [C54xFlow] do when the loop of [C54xRun] runs
    them: the return address of each call instruction, the delay slots, and a
    delayed call to a subroutine that ends in a delayed return. *)
From stdpp Require Import gmap.
From S2P Require Import Prelude C54xAddr C54xState C54xDecode C54xIrq C54xAlu C54xFlow C54xExec C54xArith C54xRun.

Module C54xSeq.
Import C54xAddr C54xState C54xDecode C54xIrq C54xAlu C54xFlow C54xExec C54xArith C54xRun.

(** ** Calls and returns *)

(** RET takes the return address a subroutine finds on its stack. *)
Lemma exec_ret s : exec_op s 0xFC00 = Some (0, s <| sp := u16 (sp s + 1) |> <| pc := data_read s (sp s) |>).
Proof. reflexivity. Qed.

(** RETD does the same two words later. *)
Lemma exec_retd s :
  exec_op s 0xFE00 = Some (consumed s, arm_delay (s <| sp := u16 (sp s + 1) |>) (data_read s (sp s))).
Proof. reflexivity. Qed.

Lemma exec_calld s :
  exec_op s 0xF274 =
  retire2 (arm_delay (push s (u16 (pc s + 4))) (prog_fetch s (pc s + 1))).
Proof. reflexivity. Qed.

(** The near calls, each with the distance from it to the instruction it
    returns to: CALL, CALLD, CALAD A, CALAD B. *)
Definition near_calls : list (Z * Z) := [(0xF074, 2); (0xF274, 4); (0xF6E3, 3); (0xF7E3, 3)].

(** A near call leaves its return address on the stack and nothing else of the
    registers changed but the program counter; whatever the subroutine does, if
    it comes to its RET with the stack pointer and the return slot of the entry,
    the program goes on at the instruction after the call and its delay slots,
    with the stack level of the caller. *)
Theorem near_call_returns s op k n s1 s' :
  wf s → plain_cell (u16 (sp s - 1)) = true → (op, k) ∈ near_calls →
  exec_op s op = Some (n, s1) →
  sp s' = sp s1 → data_read s' (sp s1) = data_read s1 (sp s1) →
  sp s1 = u16 (sp s - 1) ∧
  (∀ x, 0x20 ≤ x → x ≠ sp s1 → data_read s1 x = data_read s x) ∧
  ∃ s2, exec_op s' 0xFC00 = Some (0, s2) ∧ pc s2 = u16 (pc s + k) ∧ sp s2 = sp s.
Proof.
  intros Hw Hc Hin E Es Ed. destruct (push_spec s (u16 (pc s + k)) Hc) as (_ & Ep & Er).
  pose proof (plain_cell_range _ Hc).
  assert (E1 : sp s1 = sp (push s (u16 (pc s + k))) ∧ dmem s1 = dmem (push s (u16 (pc s + k)))).
  { unfold near_calls in Hin. rewrite !elem_of_cons, elem_of_nil in Hin.
    destruct Hin as [[= -> ->]|[[= -> ->]|[[= -> ->]|[[= -> ->]|[]]]]]; injection E as _ <-; done. }
  destruct E1 as [E1 E2].
  assert (Hr : ∀ x, 0x20 ≤ x → data_read s1 x = if x =? u16 (sp s - 1) then u16 (pc s + k) else data_read s x).
  { intros x Hx. rewrite <- Er by done. by apply data_read_dmem. }
  rewrite E1, Ep in *. split; [done|]. split.
  - intros x Hx Hne. by rewrite Hr, (proj2 (Z.eqb_neq _ _) Hne).
  - eexists. split; [apply exec_ret|]. cbn [pc sp update_field]. rewrite Es, Ed, Hr, Z.eqb_refl by lia.
    split; [done|]. pose proof (wf_sp _ Hw) as Hs. unfold word in Hs. unfold u16. mlia.
Qed.

(** ** Delay slots *)

(** What the accumulator instructions work on, and what they leave alone. *)
Definition accs (s : C54xState) := (a s, b s, t s, st0 s).
Definition put_accs (s : C54xState) (x : Z * Z * Z * Z) : C54xState :=
  let '(va, vb, vt, vst) := x in s <| a := va |> <| b := vb |> <| t := vt |> <| st0 := vst |>.
Definition frame (s : C54xState) :=
  ((ar s, trn s, sp s, bk s), (brc s, rsa s, rea s), (st1 s, pmst s, imr s, ifr s),
   (xpc s, prog s, data s, api_ram s, timer_psc s), (idle s, rpt_active s, rptb_active s)).
Definition ctrl (s : C54xState) := (pc s, delay_slots s, delayed_pc s, lk_used s).

(** A one-word instruction that works on the accumulators: [g] is its effect,
    given ST1. *)
Definition slot_insn (op : Z) (g : Z → Z * Z * Z * Z → Z * Z * Z * Z) : Prop :=
  ∀ s, ∃ s', exec_op s op = Some (consumed s, s') ∧
    frame s' = frame s ∧ ctrl s' = ctrl s ∧ accs s' = g (st1 s) (accs s).

(** Its effect with the overflow pass that follows every instruction. *)
Definition slot (g : Z → Z * Z * Z * Z → Z * Z * Z * Z) (s : C54xState) : C54xState :=
  ovm_pass (a s) (b s) (put_accs s (g (st1 s) (accs s))).

(** The core runs undisturbed: interrupts masked, no repeat, timer stopped. *)
Record quiet (s : C54xState) : Prop := mkQuiet {
  q_intm : has (st1 s) ST1_INTM = true;
  q_idle : idle s = false;
  q_rpt : rpt_active s = false;
  q_rptb : rptb_active s = false;
  q_tss : has (mget (data s) TCR_ADDR) TCR_TSS = true
}.

Lemma quiet_same s s' :
  st1 s' = st1 s → idle s' = idle s → rpt_active s' = rpt_active s → rptb_active s' = rptb_active s →
  mget (data s') TCR_ADDR = mget (data s) TCR_ADDR → quiet s → quiet s'.
Proof. intros ????? []. split; congruence. Qed.
Lemma quiet_frame s s' : frame s' = frame s → quiet s → quiet s'.
Proof. intros [=]. apply quiet_same; congruence. Qed.

(** Outside the overlay the program does not depend on data memory. *)
Lemma fetch_rom s s' x :
  has (pmst s) PMST_OVLY = false → pmst s' = pmst s → xpc s' = xpc s → prog s' = prog s →
  prog_fetch s' x = prog_fetch s x.
Proof.
  intros Ho E1 E2 E3. unfold prog_fetch, in_ovly, c54x_prog_xlate. by rewrite E1, E2, E3, Ho.
Qed.

Lemma fetch_frame s s' x : frame s' = frame s → prog_fetch s' x = prog_fetch s x.
Proof. intros [=]. by apply prog_fetch_frame. Qed.

Lemma ovm_acc_frame sel v s :
  frame (ovm_acc sel v s) = frame s ∧ ctrl (ovm_acc sel v s) = ctrl s.
Proof. unfold ovm_acc, set_acc. cbv zeta. repeat case_if; done. Qed.

Lemma ovm_pass_frame a0 b0 s :
  frame (ovm_pass a0 b0 s) = frame s ∧ ctrl (ovm_pass a0 b0 s) = ctrl s.
Proof.
  unfold ovm_pass. case_if; [done|].
  destruct (ovm_acc_frame true b0 (ovm_acc false a0 s)) as [-> ->]. apply ovm_acc_frame.
Qed.

(** The overflow pass depends on the accumulators and ST1 alone. *)
Lemma ovm_acc_accs sel v s s' :
  accs s' = accs s → st1 s' = st1 s → accs (ovm_acc sel v s') = accs (ovm_acc sel v s).
Proof.
  intros [= Ea Eb Et E0] E1. unfold ovm_acc, accs, get_acc, set_acc. cbv zeta.
  cbn [st1 update_field]. rewrite E1.
  destruct sel; rewrite ?Ea, ?Eb; repeat case_if; cbn [a b t st0 update_field]; congruence.
Qed.

Lemma ovm_pass_accs a0 b0 s s' :
  accs s' = accs s → st1 s' = st1 s → accs (ovm_pass a0 b0 s') = accs (ovm_pass a0 b0 s).
Proof.
  intros Ea E1. unfold ovm_pass. rewrite E1. case_if; [done|].
  destruct (ovm_acc_frame false a0 s) as [F _], (ovm_acc_frame false a0 s') as [F' _].
  injection F as ?. injection F' as ?. apply ovm_acc_accs; [by apply ovm_acc_accs|congruence].
Qed.

Lemma slot_accs g s s' : accs s' = accs s → st1 s' = st1 s → accs (slot g s') = accs (slot g s).
Proof.
  intros Ea E1. unfold slot. rewrite E1, Ea. pose proof Ea as [= -> -> _ _].
  apply ovm_pass_accs; [|by destruct (g _ _) as [[[??]?]?]].
  by destruct (g (st1 s) (accs s)) as [[[??]?]?].
Qed.
Lemma slot_st1 g s : st1 (slot g s) = st1 s.
Proof.
  unfold slot. destruct (ovm_pass_frame (a s) (b s) (put_accs s (g (st1 s) (accs s)))) as [F _].
  injection F as ?. destruct (g (st1 s) (accs s)) as [[[??]?]?]. done.
Qed.

(** The end of an iteration of an undisturbed core: the program counter and
    the delay slots. *)
Lemma finish_quiet p ds c s :
  quiet s → 0 < c → 0 ≤ pc s → pc s + c < 65536 →
  let s2 := delay_settle ds c (s <| pc := pc s + c |>) in
  finish p ds c s = s2 <| insn_count := u32 (insn_count s2 + 1) |>.
Proof.
  intros [] Hc H0 H1 s2. unfold finish.
  assert (Ea : advance_pc c s = s <| pc := pc s + c |>).
  { unfold advance_pc. rewrite (proj2 (Z.ltb_lt 0 c)) by lia.
    replace (Z.land (u32 (pc s + c)) 0xFFFF) with (pc s + c); [done|].
    rewrite land_ffff. unfold u16, u32. mlia. }
  assert (Et : timer_tick (s <| pc := pc s + c |>) = s <| pc := pc s + c |>).
  { unfold timer_tick. change (data (s <| pc := pc s + c |>)) with (data s). by rewrite q_tss0. }
  rewrite Ea, Et. fold s2.
  assert (Eb : rptb_active s2 = false) by (unfold s2, delay_settle; cbv zeta; repeat case_if; done).
  unfold rptb_check. by rewrite Eb.
Qed.

(** One iteration of an undisturbed core on an instruction that neither
    repeats nor stops it. *)
Lemma run_step_quiet lvl s c s1 :
  0 ≤ pc s < 0xa4e4 → has (st1 s) ST1_INTM = true →
  exec_op (s <| lk_used := false |>) (prog_fetch s (pc s)) = Some (c, s1) → quiet s1 →
  run_step false lvl s = Some (finish (pc s) (delay_slots s) c (ovm_pass (a s) (b s) s1)).
Proof.
  intros Hp Hi E Hq. rewrite run_step_plain, E by done. cbv zeta.
  destruct (ovm_pass_frame (a s) (b s) s1) as [F _].
  by rewrite (q_rpt _ (quiet_frame _ _ F Hq)).
Qed.

(** An instruction in a delay slot: it runs, and the last of the two slots
    makes the transfer. *)
Lemma slot_run lvl s g op :
  quiet s → 0 ≤ pc s < 0xa4e4 → prog_fetch s (pc s) = op → slot_insn op g →
  delay_slots s = 1 ∨ delay_slots s = 2 →
  ∃ s', run_step false lvl s = Some s' ∧ frame s' = frame s ∧ accs s' = accs (slot g s) ∧
    delayed_pc s' = delayed_pc s ∧ delay_slots s' = delay_slots s - 1 ∧
    pc s' = if delay_slots s =? 1 then delayed_pc s else pc s + 1.
Proof.
  intros Hq Hp Hf Hg Hd. set (s0 := s <| lk_used := false |>).
  destruct (Hg s0) as (s1 & E & F & C & A). rewrite <- Hf in E.
  change (consumed s0) with 1 in E. change (frame s0) with (frame s) in F.
  change (st1 s0) with (st1 s) in A. change (accs s0) with (accs s) in A.
  assert (Q1 := quiet_frame _ _ F Hq).
  rewrite (run_step_quiet lvl s 1 s1 Hp (q_intm _ Hq) E Q1).
  destruct (ovm_pass_frame (a s) (b s) s1) as [F2 C2].
  assert (A2 : accs (ovm_pass (a s) (b s) s1) = accs (slot g s)).
  { injection F as ?. apply ovm_pass_accs;
      [rewrite A; by destruct (g _ _) as [[[??]?]?]|destruct (g _ _) as [[[??]?]?]; done]. }
  revert F2 C2 A2. generalize (ovm_pass (a s) (b s) s1). intros s2 F2 C2 A2.
  rewrite C in C2. injection C2 as Epc Eds Edp _. change (pc s0) with (pc s) in Epc.
  change (delay_slots s0) with (delay_slots s) in Eds. change (delayed_pc s0) with (delayed_pc s) in Edp.
  rewrite finish_quiet by (by eapply quiet_frame || lia).
  eexists. split; [reflexivity|]. unfold delay_settle. cbn [delay_slots pc delayed_pc update_field].
  rewrite Eds, Edp, Epc. rewrite F in F2.
  destruct Hd as [-> | ->]; cbn; split_and!; done.
Qed.

(** Both slots. *)
Lemma slots_run lvl s g1 g2 op1 op2 :
  quiet s → 0 ≤ pc s < 0xa4e3 → delay_slots s = 2 → idle s = false →
  prog_fetch s (pc s) = op1 → prog_fetch s (pc s + 1) = op2 → slot_insn op1 g1 → slot_insn op2 g2 →
  ∃ s', run_steps false lvl 2 s = Some s' ∧ frame s' = frame s ∧ accs s' = accs (slot g2 (slot g1 s)) ∧
    delay_slots s' = 0 ∧ pc s' = delayed_pc s.
Proof.
  intros Hq Hp Hd Hi Hf1 Hf2 H1 H2.
  destruct (slot_run lvl s g1 op1) as (s1 & E1 & F1 & A1 & D1 & S1 & P1); [done|lia|done|done|by right|].
  rewrite Hd in S1, P1. cbn in S1, P1.
  destruct (slot_run lvl s1 g2 op2) as (s2 & E2 & F2 & A2 & D2 & S2 & P2);
    [by eapply quiet_frame|lia|by rewrite (fetch_frame s s1), P1|done|by left|].
  rewrite S1 in S2, P2. cbn in S2, P2.
  exists s2. cbn [run_steps]. rewrite Hi, E1, (q_idle s1), E2 by (by eapply quiet_frame).
  split; [done|]. split; [congruence|]. split_and!; [|done|by rewrite P2].
  rewrite A2. apply slot_accs; [done|]. rewrite slot_st1. by injection F1.
Qed.

(** ** A delayed call and its delayed return *)

(** What the two transfers leave alone besides the accumulators. *)
Definition rom (s : C54xState) := (st1 s, pmst s, xpc s, prog s).

Lemma rom_frame s s' : frame s' = frame s → rom s' = rom s ∧ sp s' = sp s ∧ dmem s' = dmem s.
Proof. intros [=]. unfold rom, dmem. split_and!; congruence. Qed.

Lemma rom_fetch s s' x : has (pmst s) PMST_OVLY = false → rom s' = rom s → prog_fetch s' x = prog_fetch s x.
Proof. intros Ho [=]. by apply fetch_rom. Qed.

Lemma calld_step lvl s :
  quiet s → 0 ≤ pc s < 0xa4e4 → delay_slots s = 0 → plain_cell (u16 (sp s - 1)) = true →
  prog_fetch s (pc s) = 0xF274 →
  ∃ s1, run_step false lvl s = Some s1 ∧ quiet s1 ∧ rom s1 = rom s ∧ accs s1 = accs s ∧
    pc s1 = pc s + 2 ∧ delay_slots s1 = 2 ∧ delayed_pc s1 = prog_fetch s (pc s + 1) ∧
    sp s1 = u16 (sp s - 1) ∧
    ∀ x, 0x20 ≤ x → data_read s1 x = if x =? u16 (sp s - 1) then u16 (pc s + 4) else data_read s x.
Proof.
  intros Hq Hp Hd Hc Hf. set (s0 := s <| lk_used := false |>).
  set (sp1 := push s0 (u16 (pc s + 4))). set (s1 := arm_delay sp1 (prog_fetch s (pc s + 1))).
  destruct (push_spec s0 (u16 (pc s + 4)) Hc) as (Er & Es & Ed). pose proof (seqr_push s0 (u16 (pc s + 4)) Hc) as Eq.
  pose proof (mget_plain_write (s0 <| sp := u16 (sp s0 - 1) |>) (u16 (sp s - 1)) (u16 (pc s + 4)) Hc) as Et.
  change (data_write _ _ _) with sp1 in Et. fold sp1 in Er, Es, Ed, Eq.
  assert (E : exec_op s0 (prog_fetch s (pc s)) = Some (2, s1)).
  { rewrite Hf, exec_calld. unfold retire2.
    assert (Elk : lk_used sp1 = false) by (by injection Eq as _ _ _ _ _ _ _ _ _ ?).
    change (Some (2 + Z.b2z (lk_used sp1), s1) = Some (2, s1)). by rewrite Elk. }
  unfold s1 in *. clearbody sp1. clear s1. set (s1 := arm_delay sp1 _) in *. unfold regs in Er. injection Er as Ea Eb _ Ett _ _ _ _ _ Est0 Est1 Epm _ _ Epc Exp _ Eid Epr.
  injection Eq as _ Era Erb _ _ _ _ _ _ _.
  assert (Q1 : quiet s1) by (by apply (quiet_same s)).
  rewrite (run_step_quiet lvl s 2 s1 Hp (q_intm _ Hq) E Q1), ovm_pass_same by done.
  change (pc s0) with (pc s) in Epc.
  rewrite finish_quiet by (done || (change (pc s1) with (pc sp1); lia)).
  unfold delay_settle. rewrite Hd. cbn [Z.eqb negb]. rewrite andb_false_r.
  eexists. split; [reflexivity|]. split; [by destruct Q1; split|].
  unfold rom, accs. cbn. rewrite Epc, Est1, Epm, Exp, Epr, Ea, Eb, Ett, Est0, Es. split_and!; done.
Qed.

Lemma retd_step lvl s :
  quiet s → 0 ≤ pc s < 0xa4e4 → delay_slots s = 0 → prog_fetch s (pc s) = 0xFE00 → 0x20 ≤ sp s →
  ∃ s1, run_step false lvl s = Some s1 ∧ quiet s1 ∧ rom s1 = rom s ∧ accs s1 = accs s ∧ dmem s1 = dmem s ∧
    pc s1 = pc s + 1 ∧ delay_slots s1 = 2 ∧ delayed_pc s1 = data_read s (sp s) ∧ sp s1 = u16 (sp s + 1).
Proof.
  intros Hq Hp Hd Hf Hs. set (s0 := s <| lk_used := false |>).
  set (s1 := arm_delay (s0 <| sp := u16 (sp s + 1) |>) (data_read s0 (sp s))).
  assert (Q1 : quiet s1) by (by apply (quiet_same s)).
  assert (E : exec_op s0 (prog_fetch s (pc s)) = Some (1, s1)) by (by rewrite Hf, exec_retd).
  rewrite (run_step_quiet lvl s 1 s1 Hp (q_intm _ Hq) E Q1), ovm_pass_same by done.
  rewrite finish_quiet by (done || (change (pc s1) with (pc s); lia)).
  unfold delay_settle. rewrite Hd. cbn [Z.eqb negb]. rewrite andb_false_r.
  eexists. split; [reflexivity|]. split; [by destruct Q1; split|].
  split_and!; done.
Qed.

Lemma run_steps_app en lvl n m s s1 :
  run_steps en lvl n s = Some s1 → idle s1 = false → run_steps en lvl (n + m) s = run_steps en lvl m s1.
Proof.
  revert s. induction n as [|n IH]; intros s E Hi; [by injection E as ->|].
  cbn [Nat.add run_steps] in *. destruct (idle s) eqn:Es; [injection E as ->; congruence|].
  destruct (run_step en lvl s); [by apply IH|done].
Qed.
Lemma run_steps_1 en lvl s s1 : idle s = false → run_step en lvl s = Some s1 → run_steps en lvl 1 s = Some s1.
Proof. intros Hi E. cbn [run_steps]. by rewrite Hi, E. Qed.

(** A delayed call and its delayed return, as the loop runs them.  From
    CALLD at [p] into a subroutine that is a RETD with its slots, both in ROM, the two
    instructions after CALLD and the two after RETD run, each once and in
    program order, in six iterations; the program then goes on at [p + 4] with
    the stack pointer of the caller, no delay pending, and data memory as it
    was but for the return slot. *)
Theorem delayed_call_returns lvl s p sub i1 i2 j1 j2 g1 g2 h1 h2 :
  wf s → quiet s → has (pmst s) PMST_OVLY = false → delay_slots s = 0 → pc s = p → 0 ≤ p < 0xa4e0 → 0 ≤ sub < 0xa4e0 →
  plain_cell (u16 (sp s - 1)) = true →
  prog_fetch s p = 0xF274 → prog_fetch s (p + 1) = sub → prog_fetch s (p + 2) = i1 → prog_fetch s (p + 3) = i2 →
  prog_fetch s sub = 0xFE00 → prog_fetch s (sub + 1) = j1 → prog_fetch s (sub + 2) = j2 →
  slot_insn i1 g1 → slot_insn i2 g2 → slot_insn j1 h1 → slot_insn j2 h2 →
  ∃ s', run_steps false lvl 6 s = Some s' ∧ pc s' = p + 4 ∧ sp s' = sp s ∧ delay_slots s' = 0 ∧
    accs s' = accs (slot h2 (slot h1 (slot g2 (slot g1 s)))) ∧
    ∀ x, 0x20 ≤ x → x ≠ u16 (sp s - 1) → data_read s' x = data_read s x.
Proof.
  intros Hw Hq Ho Hd <- Hp Hsub Hc F0 F1 F2 F3 G0 G1 G2 I1 I2 J1 J2. pose proof (plain_cell_range _ Hc) as Hr.
  destruct (calld_step lvl s Hq ltac:(lia) Hd Hc F0) as (s1 & E1 & Q1 & R1 & A1 & P1 & D1 & T1 & S1 & M1).
  destruct (slots_run lvl s1 g1 g2 i1 i2) as (s2 & E2 & Fr2 & A2 & D2 & P2);
    [done|lia|done|by apply q_idle|by rewrite (rom_fetch s), P1|
     rewrite (rom_fetch s), P1 by done; by replace (pc s + 2 + 1) with (pc s + 3) by lia|done|done|].
  destruct (rom_frame s1 s2 Fr2) as (R2 & S2 & M2). rewrite T1, F1 in P2. rewrite R1 in R2. rewrite S1 in S2.
  destruct (retd_step lvl s2) as (s3 & E3 & Q3 & R3 & A3 & M3 & P3 & D3 & T3 & S3);
    [by eapply quiet_frame|lia|done|by rewrite (rom_fetch s), P2|lia|].
  rewrite R2 in R3. rewrite P2 in P3.
  destruct (slots_run lvl s3 h1 h2 j1 j2) as (s4 & E4 & Fr4 & A4 & D4 & P4);
    [done|lia|done|by apply q_idle|by rewrite (rom_fetch s), P3|
     rewrite (rom_fetch s), P3 by done; by replace (sub + 1 + 1) with (sub + 2) by lia|done|done|].
  destruct (rom_frame s3 s4 Fr4) as (R4 & S4 & M4).
  exists s4. split.
  { pose proof (q_idle _ (quiet_frame _ _ Fr2 Q1)) as Hi2.
    change 6%nat with (1 + (2 + (1 + 2)))%nat.
    rewrite (run_steps_app false lvl 1 _ s s1 (run_steps_1 _ _ _ _ (q_idle _ Hq) E1) (q_idle _ Q1)).
    rewrite (run_steps_app false lvl 2 _ s1 s2 E2 Hi2).
    by rewrite (run_steps_app false lvl 1 _ s2 s3 (run_steps_1 _ _ _ _ Hi2 E3) (q_idle _ Q3)). }
  pose proof (wf_sp _ Hw) as Hs. unfold word in Hs.
  split_and!; [| |done| |].
  - rewrite P4, T3, S2, (data_read_dmem s1), M1, Z.eqb_refl by (lia || done). apply u16_small. lia.
  - rewrite S4, S3, S2. unfold u16. mlia.
  - rewrite A4. injection R3 as ?. injection R1 as ?.
    assert (Est : accs s3 = accs (slot g2 (slot g1 s))).
    { rewrite A3, A2. apply slot_accs; [by apply slot_accs|by rewrite !slot_st1]. }
    apply slot_accs; [apply slot_accs; [done|by rewrite !slot_st1]|by rewrite !slot_st1].
  - intros x Hx Hne. rewrite (data_read_dmem s3), (data_read_dmem s2), (data_read_dmem s1), M1 by done.
    by rewrite (proj2 (Z.eqb_neq _ _) Hne).
Qed.

(** Accumulator instructions that can stand in a slot: RND A, LD A,0,B, CMPL A
    and NOP. *)
Definition rnd_a (_ : Z) (x : Z * Z * Z * Z) := let '(va, vb, vt, vst) := x in (sext40 (va + 0x8000), vb, vt, vst).
Definition ld_a_b (_ : Z) (x : Z * Z * Z * Z) :=
  let '(va, vb, vt, vst) := x in (va, sext40 (shift_by (sext40 va) 0), vt, vst).
Definition cmpl_a (_ : Z) (x : Z * Z * Z * Z) :=
  let '(va, vb, vt, vst) := x in (sext40 (Z.land (Z.lnot va) 0xFFFFFFFFFF), vb, vt, vst).

Lemma slot_rnd_a : slot_insn 0xF49F rnd_a.
Proof. intros s. eexists. split; [reflexivity|]. done. Qed.
Lemma slot_ld_a_b : slot_insn 0xF540 ld_a_b.
Proof. intros s. eexists. split; [reflexivity|]. done. Qed.
Lemma slot_cmpl_a : slot_insn 0xF493 cmpl_a.
Proof. intros s. eexists. split; [reflexivity|]. done. Qed.
Lemma slot_nop : slot_insn 0xF495 (λ _ x, x).
Proof. intros s. eexists. split; [reflexivity|]. done. Qed.

Lemma delayed_call_returns_witness :
  let s := c54x_zero <| pc := 0x100 |> <| st1 := ST1_INTM |> <| pmst := 0 |> <| sp := 0x1000 |>
             <| data := {[ TCR_ADDR := 0x10 ]} |>
             <| prog := <[0x100 := 0xF274]> (<[0x101 := 0x200]> (<[0x102 := 0xF49F]> (<[0x103 := 0xF540]>
                       (<[0x200 := 0xFE00]> (<[0x201 := 0xF493]> (<[0x202 := 0xF495]> ∅)))))) |> in
  ∃ s', run_steps false false 6 s = Some s' ∧ pc s' = 0x104 ∧ sp s' = 0x1000 ∧
        accs s' = (-0x8001, 0x8000, 0, st0 s).
Proof.
  intros s.
  assert (Hw : wf s).
  { apply wf_set_prog; [apply wf_set_data; [apply wf_set_sp; [apply wf_set_pmst; [apply wf_set_st1;
      [apply wf_set_pc; [apply wf_zero|lia]|]|]|]|]|];
      first [split; (discriminate || reflexivity)|repeat (apply mem_ok_insert; [unfold word; lia|]); apply map_Forall_empty]. }
  destruct (delayed_call_returns false s 0x100 0x200 0xF49F 0xF540 0xF493 0xF495 rnd_a ld_a_b cmpl_a (λ _ x, x) Hw)
    as (s' & E & P & S & _ & A & _);
    [split; reflexivity|reflexivity|reflexivity|reflexivity|lia|lia|reflexivity|reflexivity|reflexivity|reflexivity|reflexivity
    |reflexivity|reflexivity|reflexivity|exact slot_rnd_a|exact slot_ld_a_b|exact slot_cmpl_a|exact slot_nop|].
  exists s'. split; [exact E|]. split; [exact P|]. split; [exact S|]. etransitivity; [exact A|vm_compute; reflexivity].
Defined.

End C54xSeq.
