(* ===== verification/Rif.v ===== *)
(** * The radio interface receiver
    ([hw/arm/calypso/l1-dsp/calypso_rif.c])

    The receiver the DSP reads through its XIO space: a four-word FIFO fed from
    a staging buffer that holds the bursts handed over by the radio.  The two
    arrays with their fill counts are lists; [stage_pos] words of the staging
    buffer have already gone to the FIFO.  What the receiver promises is a
    queue, [rif_queue]: the FIFO followed by the rest of the staging buffer.
    The switches have their defaults (no replacement, no back-pressure, RRDY
    reported); the counters behind the log lines are left out. *)
From S2P Require Import Prelude.

Module Rif.

Definition SPCR_DLB : Z := Z.shiftl 1 0.
Definition SPCR_RRST : Z := Z.shiftl 1 1.
Definition SPCR_RRDY : Z := Z.shiftl 1 2.
Definition SPCR_RSRFULL : Z := Z.shiftl 1 3.
Definition SPCR_ALMOST_FULL : Z := Z.shiftl 1 4.
Definition SPCR_FIFO_EMPTY : Z := Z.shiftl 1 5.
Definition SPCR_FIFO_FULL : Z := Z.shiftl 1 6.
Definition SPCR_THRESHOLD_SH : Z := 7.
Definition SPCR_THRESHOLD_M : Z := Z.shiftl 7 7.
Definition SPCR_XINT_MASK : Z := Z.shiftl 1 10.
Definition SPCR_RINT_MASK : Z := Z.shiftl 1 11.
Definition SPCR_XDMA_MASK : Z := Z.shiftl 1 12.
Definition SPCR_RDMA_MASK : Z := Z.shiftl 1 13.
Definition SPCR_CLKLB : Z := Z.shiftl 1 14.

Definition SPCR_RW_MASK : Z :=
  Z.lor SPCR_DLB (Z.lor SPCR_RRST (Z.lor SPCR_THRESHOLD_M (Z.lor SPCR_XINT_MASK
    (Z.lor SPCR_RINT_MASK (Z.lor SPCR_XDMA_MASK (Z.lor SPCR_RDMA_MASK SPCR_CLKLB)))))).

Definition SPCR_RESET : Z := 0x3CA2.
Definition SPCX_RESET : Z := 0x059E.
Definition RIF_FIFO_DEPTH : nat := 4.
Definition RIF_STAGE_MAX : nat := Z.to_nat 8192.

Definition RIF_XIO_DXR : Z := 0x0000.
Definition RIF_XIO_DRR : Z := 0x0001.
Definition RIF_XIO_SPCX : Z := 0x0002.
Definition RIF_XIO_SPCR : Z := 0x0003.

Record rif_state := mkRif {
  spcr : Z;
  spcx : Z;
  dxr : Z;
  fifo : list Z;
  stage : list Z;
  stage_pos : nat;
  rsrfull : bool;
  drr : Z;
  drr_valid : bool
}.

#[export] Instance rif_eta : Settable rif_state := λ r,
  mkRif (spcr r) (spcx r) (dxr r) (fifo r) (stage r) (stage_pos r) (rsrfull r) (drr r) (drr_valid r).

Definition rif_init : rif_state :=
  mkRif (Z.land SPCR_RESET SPCR_RW_MASK) SPCX_RESET 0 [] [] 0 false 0 false.

Definition calypso_rif_flush (r : rif_state) : rif_state :=
  r <| fifo := [] |> <| stage := [] |> <| stage_pos := 0%nat |>.

Definition rif_threshold (r : rif_state) : Z :=
  let t := Z.shiftr (Z.land (spcr r) SPCR_THRESHOLD_M) SPCR_THRESHOLD_SH in
  let t := if t <? 1 then 1 else t in
  if Z.of_nat RIF_FIFO_DEPTH <? t then Z.of_nat RIF_FIFO_DEPTH else t.

(** [while (fifo_n < DEPTH && stage_pos < stage_n) fifo[fifo_n++] = stage[stage_pos++];]
    The FIFO gains a word per turn, so its depth bounds the turns. *)
Fixpoint refill_loop (fuel : nat) (r : rif_state) : rif_state :=
  match fuel with
  | O => r
  | S fuel =>
    if (length (fifo r) <? RIF_FIFO_DEPTH)%nat && (stage_pos r <? length (stage r))%nat then
      refill_loop fuel (r <| fifo := fifo r ++ [nth (stage_pos r) (stage r) 0] |>
                          <| stage_pos := S (stage_pos r) |>)
    else r
  end.
Definition rif_refill (r : rif_state) : rif_state := refill_loop RIF_FIFO_DEPTH r.

Definition rif_spcr_read (r : rif_state) : Z :=
  let n := length (fifo r) in
  let v := Z.land (spcr r) SPCR_RW_MASK in
  let v := if (n =? 0)%nat then Z.lor v SPCR_FIFO_EMPTY else v in
  let v := if rif_threshold r <=? Z.of_nat n then Z.lor v SPCR_ALMOST_FULL else v in
  let v := if (RIF_FIFO_DEPTH <=? n)%nat then Z.lor v SPCR_FIFO_FULL else v in
  let v := if rsrfull r then Z.lor v SPCR_RSRFULL else v in
  if (0 <? n)%nat then Z.lor v SPCR_RRDY else v.

(** The read of a port: the value, or [None] outside the RIF, and the state. *)
Definition calypso_rif_portr (r : rif_state) (pa : Z) : option Z * rif_state :=
  if pa =? RIF_XIO_DRR then
    let r := rif_refill r in
    let r := match fifo r with
             | [] => r
             | w :: rest => rif_refill (r <| drr := w |> <| fifo := rest |> <| drr_valid := true |>)
             end in
    (Some (drr r), r)
  else if pa =? RIF_XIO_SPCR then (Some (rif_spcr_read r), r)
  else if pa =? RIF_XIO_SPCX then (Some (spcx r), r)
  else if pa =? RIF_XIO_DXR then (Some (dxr r), r)
  else (None, r).

Definition calypso_rif_portw (r : rif_state) (pa val : Z) : bool * rif_state :=
  if pa =? RIF_XIO_SPCR then
    let before := spcr r in
    let r := r <| spcr := Z.land val SPCR_RW_MASK |> in
    (true, if has before SPCR_RRST && negb (has val SPCR_RRST) then
             r <| rsrfull := false |> <| fifo := [] |> <| stage_pos := length (stage r) |>
               <| drr_valid := false |>
           else r)
  else if pa =? RIF_XIO_SPCX then (true, r <| spcx := val |>)
  else if pa =? RIF_XIO_DXR then (true, r <| dxr := val |>)
  else if pa =? RIF_XIO_DRR then (true, r)
  else (false, r).

Definition calypso_rif_level (r : rif_state) : Z :=
  let reste := Z.of_nat (length (stage r)) - Z.of_nat (stage_pos r) in
  let reste := if reste <? 0 then 0 else reste in
  Z.of_nat (length (fifo r)) + reste.

(** The loop of [calypso_rif_drain]; each turn takes one of the [max] words. *)
Fixpoint drain_loop (max : nat) (r : rif_state) : list Z * rif_state :=
  match max with
  | O => ([], r)
  | S max =>
    let r := if (length (fifo r) =? 0)%nat then rif_refill r else r in
    match fifo r with
    | [] => ([], r)
    | w :: rest => let '(l, r) := drain_loop max (r <| fifo := rest |>) in (w :: l, r)
    end
  end.

Definition calypso_rif_drain (r : rif_state) (max : Z) : list Z * rif_state :=
  if max <=? 0 then ([], r)
  else
    let '(l, r) := drain_loop (Z.to_nat max) r in
    (l, if negb (length l =? 0)%nat && (length (fifo r) =? 0)%nat && (length (stage r) <=? stage_pos r)%nat
        then r <| rsrfull := false |> else r).

(** The arrival of a burst with a receive window open: the words not yet
    drained move to the front of the staging buffer, the oldest of them go when
    the burst does not fit, and the burst follows. *)
Definition rif_append (r : rif_state) (w : list Z) : rif_state :=
  let w := take RIF_STAGE_MAX w in
  let reste := drop (stage_pos r) (stage r) in
  let over := (RIF_STAGE_MAX <? length reste + length w)%nat in
  let perte := (length reste + length w - RIF_STAGE_MAX)%nat in
  let r := r <| rsrfull := rsrfull r || over |> in
  rif_refill (r <| stage := (if over then drop perte reste else reste) ++ w |> <| stage_pos := 0%nat |>).

(** ** The receiver is a queue *)
Definition rif_queue (r : rif_state) : list Z := fifo r ++ drop (stage_pos r) (stage r).

Record rif_ok (r : rif_state) : Prop := mkOk {
  ok_fifo : (length (fifo r) ≤ RIF_FIFO_DEPTH)%nat;
  ok_pos : (stage_pos r ≤ length (stage r))%nat;
  ok_stage : (length (stage r) ≤ RIF_STAGE_MAX)%nat
}.

Lemma drop_nth (l : list Z) n : (n < length l)%nat → drop n l = nth n l 0 :: drop (S n) l.
Proof.
  intros H. destruct (lookup_lt_is_Some_2 l n H) as [v Hv].
  rewrite (drop_S l v n Hv). f_equal. by apply nth_lookup_Some with (d := 0) in Hv.
Qed.

(** A refill moves words inside the queue, keeps the control registers and
    stops only on a full FIFO or an exhausted staging buffer. *)
Lemma refill_loop_spec n r :
  rif_ok r → (RIF_FIFO_DEPTH ≤ n + length (fifo r))%nat →
  let r' := refill_loop n r in
  rif_ok r' ∧ rif_queue r' = rif_queue r ∧ stage r' = stage r ∧ spcr r' = spcr r ∧
  rsrfull r' = rsrfull r ∧ drr r' = drr r ∧
  (length (fifo r') = RIF_FIFO_DEPTH ∨ stage_pos r' = length (stage r')).
Proof.
  revert r. induction n as [|n IH]; intros r Hok Hn; pose proof Hok as [Hf Hp Hs]; cbn [refill_loop].
  - split; [done|]. repeat (split; [done|]). left. lia.
  - destruct ((_ <? _)%nat && _) eqn:E.
    + apply andb_true_iff in E as [E1 E2]. apply Nat.ltb_lt in E1, E2.
      set (r1 := r <| fifo := _ |> <| stage_pos := _ |>).
      assert (Eq : rif_queue r1 = rif_queue r).
      { unfold rif_queue, r1. cbn [fifo stage stage_pos update_field].
        rewrite (drop_nth (stage r) (stage_pos r)), <- app_assoc by done. done. }
      destruct (IH r1) as (H1 & H2 & H3).
      * constructor; unfold r1; cbn [fifo stage stage_pos update_field]; rewrite ?length_app; cbn [length]; lia.
      * unfold r1. cbn [fifo update_field]. rewrite length_app. cbn [length]. lia.
      * split; [exact H1|]. split; [by rewrite H2|exact H3].
    + split; [done|]. repeat (split; [done|]).
      apply andb_false_iff in E as [E|E]; apply Nat.ltb_ge in E; [left|right]; lia.
Qed.

Lemma refill_spec r :
  rif_ok r →
  let r' := rif_refill r in
  rif_ok r' ∧ rif_queue r' = rif_queue r ∧ stage r' = stage r ∧ spcr r' = spcr r ∧
  rsrfull r' = rsrfull r ∧ drr r' = drr r ∧
  (length (fifo r') = RIF_FIFO_DEPTH ∨ stage_pos r' = length (stage r')).
Proof. intros H. apply refill_loop_spec; [done|]. unfold RIF_FIFO_DEPTH. lia. Qed.

(** After a refill an empty FIFO means an empty receiver. *)
Lemma refill_head r :
  rif_ok r → match fifo (rif_refill r) with
             | [] => rif_queue r = []
             | w :: rest => ∃ q, rif_queue r = w :: q ∧
                 q = rest ++ drop (stage_pos (rif_refill r)) (stage (rif_refill r))
             end.
Proof.
  intros H. destruct (refill_spec r H) as (_ & Eq & _ & _ & _ & _ & Hend). rewrite <- Eq. unfold rif_queue.
  destruct (fifo (rif_refill r)) as [|w rest]; [|by eexists].
  destruct Hend as [Hl| ->]; [discriminate|]. by rewrite drop_all.
Qed.

Lemma rif_level_queue r : rif_ok r → calypso_rif_level r = Z.of_nat (length (rif_queue r)).
Proof.
  intros []. unfold calypso_rif_level, rif_queue. rewrite length_app, length_drop.
  rewrite (proj2 (Z.ltb_ge _ 0)) by lia. lia.
Qed.

Lemma drain_loop_spec n r :
  rif_ok r → ∃ r', drain_loop n r = (take n (rif_queue r), r') ∧ rif_ok r' ∧
    rif_queue r' = drop n (rif_queue r) ∧ spcr r' = spcr r ∧ rsrfull r' = rsrfull r.
Proof.
  revert r. induction n as [|n IH]; intros r Hok; cbn [drain_loop]; [by exists r|].
  set (r1 := if (length (fifo r) =? 0)%nat then rif_refill r else r).
  assert (H1 : rif_ok r1 ∧ rif_queue r1 = rif_queue r ∧ spcr r1 = spcr r ∧ rsrfull r1 = rsrfull r ∧
               (fifo r1 = [] → rif_queue r = [])).
  { unfold r1. destruct (Nat.eqb_spec (length (fifo r)) 0) as [E|E].
    - destruct (refill_spec r Hok) as (A & B & _ & C & D & _). pose proof (refill_head r Hok) as Hh.
      split_and!; [done|done|done|done|]. intros E'. by rewrite E' in Hh.
    - split_and!; [done|done|done|done|]. intros E'. by rewrite E' in E. }
  destruct H1 as (Hok1 & Eq1 & Es1 & Er1 & He1).
  destruct (fifo r1) as [|w rest] eqn:Ef.
  - rewrite (He1 eq_refl). exists r1. split; [done|]. split; [done|]. by rewrite Eq1, (He1 eq_refl).
  - set (r2 := r1 <| fifo := rest |>).
    assert (Hok2 : rif_ok r2).
    { destruct Hok1 as [Hf Hp Hs]. rewrite Ef in Hf. cbn in Hf.
      constructor; unfold r2; cbn [fifo stage stage_pos update_field]; lia. }
    assert (Eq2 : rif_queue r = w :: rif_queue r2).
    { rewrite <- Eq1. unfold rif_queue at 1. by rewrite Ef. }
    destruct (IH r2 Hok2) as (r' & E & Hok' & Eq' & Es' & Er'). rewrite E.
    exists r'. rewrite Eq2. cbn [take drop]. split; [done|]. split; [done|]. split; [done|].
    split; [exact (eq_trans Es' Es1)|exact (eq_trans Er' Er1)].
Qed.

Lemma drain_spec r max :
  rif_ok r → ∃ r', calypso_rif_drain r max = (take (Z.to_nat max) (rif_queue r), r') ∧ rif_ok r' ∧
    rif_queue r' = drop (Z.to_nat max) (rif_queue r) ∧ spcr r' = spcr r.
Proof.
  intros Hok. unfold calypso_rif_drain. destruct (Z.leb_spec max 0).
  { exists r. by replace (Z.to_nat max) with 0%nat by lia. }
  destruct (drain_loop_spec (Z.to_nat max) r Hok) as (r' & -> & [] & Eq & Es & _).
  destruct (_ && _); eexists; (split; [reflexivity|]); (split; [by constructor|done]).
Qed.

Lemma append_spec r w :
  rif_ok r → (length (rif_queue r) + length w ≤ RIF_STAGE_MAX)%nat →
  rif_ok (rif_append r w) ∧ rif_queue (rif_append r w) = rif_queue r ++ w ∧
  spcr (rif_append r w) = spcr r ∧ rsrfull (rif_append r w) = rsrfull r.
Proof.
  intros [Hf Hp Hs] Hfit. unfold rif_queue in Hfit. rewrite length_app, length_drop in Hfit.
  unfold rif_append. cbv zeta. rewrite (take_ge w) by lia. rewrite length_drop.
  rewrite (proj2 (Nat.ltb_ge _ _)) by lia. rewrite orb_false_r.
  set (r1 := (r <| rsrfull := rsrfull r |>) <| stage := _ |> <| stage_pos := _ |>).
  assert (Hok1 : rif_ok r1).
  { constructor; unfold r1; cbn [fifo stage stage_pos update_field]; rewrite ?length_app, ?length_drop; lia. }
  destruct (refill_spec r1 Hok1) as (A & B & _ & C & D & _). split; [done|]. split; [|done].
  rewrite B. unfold rif_queue, r1. cbn [fifo stage stage_pos update_field]. by rewrite drop_0, app_assoc.
Qed.

Lemma drr_spec r :
  rif_ok r → let '(v, r') := calypso_rif_portr r RIF_XIO_DRR in
  rif_ok r' ∧ rif_queue r' = tail (rif_queue r) ∧ v = Some (hd (drr r) (rif_queue r)) ∧
  drr r' = hd (drr r) (rif_queue r) ∧ spcr r' = spcr r.
Proof.
  intros Hok. cbn [calypso_rif_portr Z.eqb RIF_XIO_DRR Pos.eqb]. cbv zeta.
  destruct (refill_spec r Hok) as ([Hf Hp Hs] & Eq & _ & Es & _ & Ed & _).
  pose proof (refill_head r Hok) as Hh. destruct (fifo (rif_refill r)) as [|w rest] eqn:Ef.
  - rewrite Hh. split; [by constructor; rewrite ?Ef|]. rewrite Eq, Hh, Ed. done.
  - destruct Hh as (q & Eqw & ->).
    set (r1 := rif_refill r <| drr := w |> <| fifo := rest |> <| drr_valid := true |>).
    assert (Hok1 : rif_ok r1).
    { cbn in Hf. constructor; unfold r1; cbn [fifo stage stage_pos update_field]; lia. }
    destruct (refill_spec r1 Hok1) as (A & B & _ & C & _ & D & _). rewrite Eqw. cbn [tail hd].
    split; [exact A|]. split; [exact B|]. split; [by rewrite D|]. split; [exact D|]. exact (eq_trans C Es).
Qed.

(** The operations on the data path, and what they do to a queue of words:
    each answers the list of words it hands out. *)
Inductive rif_op :=
| RifBurst (w : list Z)
| RifReadDrr
| RifDrain (max : Z)
| RifFlush.

Definition rif_do (r : rif_state) (o : rif_op) : list Z * rif_state :=
  match o with
  | RifBurst w => ([], rif_append r w)
  | RifReadDrr => match calypso_rif_portr r RIF_XIO_DRR with
                  | (Some v, r') => ([v], r')
                  | (None, r') => ([], r')
                  end
  | RifDrain max => calypso_rif_drain r max
  | RifFlush => ([], calypso_rif_flush r)
  end.

(** The abstract receiver: the queue and the last word read from DRR. *)
Definition spec_do (s : list Z * Z) (o : rif_op) : list Z * (list Z * Z) :=
  let '(q, d) := s in
  match o with
  | RifBurst w => ([], (q ++ w, d))
  | RifReadDrr => ([hd d q], (tail q, hd d q))
  | RifDrain max => (take (Z.to_nat max) q, (drop (Z.to_nat max) q, d))
  | RifFlush => ([], ([], d))
  end.

Definition op_fits (s : list Z * Z) (o : rif_op) : Prop :=
  match o with RifBurst w => (length (fst s) + length w ≤ RIF_STAGE_MAX)%nat | _ => True end.

(** The answers of a sequence of operations. *)
Fixpoint trace {S} (f : S → rif_op → list Z * S) (s : S) (l : list rif_op) : list (list Z) :=
  match l with
  | [] => []
  | o :: l => let '(out, s') := f s o in out :: trace f s' l
  end.

Fixpoint fits (s : list Z * Z) (l : list rif_op) : Prop :=
  match l with
  | [] => True
  | o :: l => op_fits s o ∧ fits (snd (spec_do s o)) l
  end.

Definition rif_abs (r : rif_state) : list Z * Z := (rif_queue r, drr r).

Lemma refill_drr r : drr (rif_refill r) = drr r.
Proof.
  unfold rif_refill. generalize RIF_FIFO_DEPTH at 1. intros k. revert r.
  induction k as [|k IH]; intros r; [done|]. cbn [refill_loop]. destruct (_ && _); [by rewrite IH|done].
Qed.

Lemma drain_loop_drr n r : drr (snd (drain_loop n r)) = drr r.
Proof.
  revert r. induction n as [|n IH]; intros r; [done|]. cbn [drain_loop].
  set (r1 := if (length (fifo r) =? 0)%nat then rif_refill r else r).
  assert (E1 : drr r1 = drr r) by (unfold r1; destruct (_ =? _)%nat; [apply refill_drr|done]).
  destruct (fifo r1) as [|w rest]; [done|]. specialize (IH (r1 <| fifo := rest |>)).
  destruct (drain_loop n (r1 <| fifo := rest |>)). cbn in *. by rewrite IH.
Qed.

Lemma drain_drr r max : drr (snd (calypso_rif_drain r max)) = drr r.
Proof.
  unfold calypso_rif_drain. destruct (max <=? 0); [done|]. pose proof (drain_loop_drr (Z.to_nat max) r) as H.
  destruct (drain_loop (Z.to_nat max) r). cbn [snd] in *. by destruct (_ && _).
Qed.

Lemma rif_do_refines r o :
  rif_ok r → op_fits (rif_abs r) o →
  let '(out, r') := rif_do r o in
  rif_ok r' ∧ spec_do (rif_abs r) o = (out, rif_abs r').
Proof.
  intros Hok Hfit. destruct o as [w| |max|]; cbn [rif_do spec_do rif_abs].
  - destruct (append_spec r w Hok Hfit) as (A & B & _). split; [done|]. unfold rif_abs. rewrite B.
    unfold rif_append. cbv zeta. by rewrite refill_drr.
  - pose proof (drr_spec r Hok) as H. destruct (calypso_rif_portr r RIF_XIO_DRR) as [v r'].
    destruct H as (A & B & -> & C & _). split; [done|]. unfold rif_abs. by rewrite B, C.
  - destruct (drain_spec r max Hok) as (r' & E & A & B & _). pose proof (drain_drr r max) as D. rewrite E in *.
    cbn [snd] in D. split; [done|]. unfold rif_abs. by rewrite B, D.
  - split; [constructor; cbn; lia|done].
Qed.

(** C21: the receiver refines a FIFO queue of words.  Over any sequence of
    bursts, DRR reads, DMA drains and flushes, as long as each burst fits in
    the staging buffer with what is waiting, every operation hands out exactly
    the words the abstract queue hands out: nothing is lost, duplicated or
    reordered between the four-word FIFO and the staging buffer, and DRR keeps
    its last word when the receiver is empty. *)
Theorem rif_refines_queue r l :
  rif_ok r → fits (rif_abs r) l → trace rif_do r l = trace spec_do (rif_abs r) l.
Proof.
  revert r. induction l as [|o l IH]; intros r Hok Hf; [done|]. destruct Hf as [Hf1 Hf2]. cbn [trace].
  pose proof (rif_do_refines r o Hok Hf1) as H. destruct (rif_do r o) as [out r'].
  destruct H as [Hok' E]. rewrite E in *. cbn [snd] in Hf2. f_equal. by apply IH.
Qed.

Lemma rif_refines_queue_witness :
  trace rif_do rif_init [RifBurst [1; 2; 3; 4; 5; 6]; RifReadDrr; RifBurst [7]; RifDrain 5; RifReadDrr; RifReadDrr]
  = [[]; [1]; []; [2; 3; 4; 5; 6]; [7]; [7]].
Proof.
  etransitivity; [apply (rif_refines_queue rif_init)|reflexivity].
  - constructor; cbn; unfold RIF_FIFO_DEPTH; lia.
  - cbn. unfold RIF_STAGE_MAX. lia.
Defined.

(** On an overrun the words in the FIFO, the oldest of all, stay; the loss is
    the words behind them. *)
Theorem rif_overrun_keeps_fifo r w :
  rif_ok r → (length w ≤ RIF_STAGE_MAX)%nat →
  let reste := drop (stage_pos r) (stage r) in
  (RIF_STAGE_MAX < length reste + length w)%nat →
  rif_queue (rif_append r w) = fifo r ++ drop (length reste + length w - RIF_STAGE_MAX) reste ++ w ∧
  rsrfull (rif_append r w) = true.
Proof.
  intros [Hf Hp Hs] Hw reste Hov. unfold rif_append. cbv zeta. rewrite (take_ge w) by lia. fold reste.
  rewrite (proj2 (Nat.ltb_lt _ _)) by lia. rewrite orb_true_r.
  set (r1 := (r <| rsrfull := true |>) <| stage := _ |> <| stage_pos := _ |>).
  assert (Hr : (length reste ≤ RIF_STAGE_MAX)%nat) by (unfold reste; rewrite length_drop; lia).
  assert (Hok1 : rif_ok r1).
  { constructor; unfold r1; cbn [fifo stage stage_pos update_field]; rewrite ?length_app, ?length_drop; lia. }
  destruct (refill_spec r1 Hok1) as (_ & B & _ & _ & D & _). split; [|exact D].
  rewrite B. unfold rif_queue, r1. cbn [fifo stage stage_pos update_field]. by rewrite drop_0.
Qed.

End Rif.
