(* ===== verification/RheaDma.v ===== *)
(** * The RHEA DMA controller
    ([hw/arm/calypso/l1-dsp/calypso_rhea_dma.c], and the arrival of a burst in
    [calypso_rif.c])

    The register bank seen from the ARM and, through the XIO bridge, from the
    DSP; the receive transfer of channel 2, which drains the RIF into the two
    API pages of the DSP; the pump that continues it; and the arrival of a burst,
    where RIF, DMA and DSP interact.  [world] holds the three of them.  The DSP
    the code reaches through a pointer is always there.  The switches have their
    defaults: both modules on, no words skipped at arming, ping-pong pages. *)
From stdpp Require Import gmap.
From S2P Require Import Prelude C54xState C54xDecode C54xIrq Rif.

Module RheaDma.
Import C54xState C54xIrq Rif.

Definition RD_CTRL_CFG : Z := 0x00.
Definition RD_ALLOC_CFG : Z := 0x02.
Definition RD_CH_BASE (n : Z) : Z := 0x10 + 0x10 * n.
Definition RD_RAD : Z := 0x0.
Definition RD_RDPTH : Z := 0x2.
Definition RD_AAD : Z := 0x4.
Definition RD_ALGTH : Z := 0x6.
Definition RD_CTRL : Z := 0x8.
Definition RD_CUR_OFF : Z := 0xA.

Definition CTRL_RESET : Z := 0x04A2.
Definition CTRLCFG_RESET : Z := 0x0024.
Definition ALLOC_RESET : Z := 0x000F.

Definition CTRL_ENABLE : Z := Z.shiftl 1 0.
Definition CTRL_IDLE : Z := Z.shiftl 1 1.
Definition CTRL_ONE_SHOT : Z := Z.shiftl 1 2.
Definition CTRL_CURRENT_PAGE : Z := Z.shiftl 1 4.
Definition CTRL_DMA_START : Z := Z.shiftl 1 6.
Definition CTRL_IRQ_MODE : Z := Z.shiftl 1 7.
Definition CTRL_IRQ_STATE : Z := Z.shiftl 1 8.
Definition CTRL_RHEA_ERROR : Z := Z.shiftl 1 9.
Definition CTRL_DIRECTION : Z := Z.shiftl 1 10.
Definition CTRL_RO_MASK : Z := Z.lor CTRL_IDLE (Z.lor CTRL_IRQ_STATE CTRL_RHEA_ERROR).

Record chan := mkChan { rad : Z; rdpth : Z; aad : Z; algth : Z; ctrl : Z; cur_off : Z }.
#[export] Instance chan_eta : Settable chan := λ c,
  mkChan (rad c) (rdpth c) (aad c) (algth c) (ctrl c) (cur_off c).

Record rd_state := mkRd { ctrl_cfg : Z; alloc_cfg : Z; ch : list chan }.
#[export] Instance rd_eta : Settable rd_state := λ r, mkRd (ctrl_cfg r) (alloc_cfg r) (ch r).

Definition chan_reset : chan := mkChan 0 0 0 0 CTRL_RESET 0.
Definition rhea_dma_init : rd_state := mkRd CTRLCFG_RESET ALLOC_RESET (replicate 4 chan_reset).

Definition get_ch (r : rd_state) (n : nat) : chan := nth n (ch r) chan_reset.
Definition set_ch (r : rd_state) (n : nat) (c : chan) : rd_state := r <| ch := <[n := c]> (ch r) |>.

(** The channel whose registers hold offset [off]. *)
Definition ch_of (off : Z) : option nat :=
  find (λ n, let b := RD_CH_BASE (Z.of_nat n) in (b <=? off) && (off <=? b + RD_CUR_OFF)) [0; 1; 2; 3]%nat.

Definition calypso_rhea_dma_read (r : rd_state) (off : Z) : Z * rd_state :=
  if off =? RD_CTRL_CFG then (ctrl_cfg r, r)
  else if off =? RD_ALLOC_CFG then (alloc_cfg r, r)
  else match ch_of off with
  | None => (0, r)
  | Some n =>
    let c := get_ch r n in
    let i := off - RD_CH_BASE (Z.of_nat n) in
    if i =? RD_RAD then (rad c, r)
    else if i =? RD_RDPTH then (rdpth c, r)
    else if i =? RD_AAD then (aad c, r)
    else if i =? RD_ALGTH then (algth c, r)
    else if i =? RD_CTRL then
      (clr (ctrl c) CTRL_DMA_START,
       if has (ctrl c) (Z.lor CTRL_IRQ_STATE CTRL_RHEA_ERROR)
       then set_ch r n (c <| ctrl := clr (ctrl c) (Z.lor CTRL_IRQ_STATE CTRL_RHEA_ERROR) |>) else r)
    else if i =? RD_CUR_OFF then (cur_off c, r)
    else (0, r)
  end.

Definition calypso_rhea_dma_write (r : rd_state) (off val : Z) : rd_state :=
  let v := u16 val in
  if off =? RD_CTRL_CFG then r <| ctrl_cfg := Z.land v 0x003F |>
  else if off =? RD_ALLOC_CFG then r <| alloc_cfg := Z.land v 0x000F |>
  else match ch_of off with
  | None => r
  | Some n =>
    let c := get_ch r n in
    let i := off - RD_CH_BASE (Z.of_nat n) in
    if i =? RD_RAD then set_ch r n (c <| rad := v |>)
    else if i =? RD_RDPTH then set_ch r n (c <| rdpth := Z.land v 0x07FF |>)
    else if i =? RD_AAD then set_ch r n (c <| aad := Z.land v 0x0FFF |>)
    else if i =? RD_ALGTH then set_ch r n (c <| algth := Z.land v 0x0FFF |>)
    else if i =? RD_CTRL then
      let keep := Z.land (ctrl c) CTRL_RO_MASK in
      set_ch r n (c <| ctrl := Z.lor (Z.land (clr v CTRL_RO_MASK) 0x1FFF) keep |>)
    else r
  end.

(** The same bank on the DSP side; [None] outside the window. *)
Definition xio_read (r : rd_state) (pa : Z) : option (Z * rd_state) :=
  if (pa <? 0xFC00) || (0xFCFF <? pa) then None else Some (calypso_rhea_dma_read r (pa - 0xFC00)).
Definition xio_write (r : rd_state) (pa val : Z) : option rd_state :=
  if (pa <? 0xFC00) || (0xFCFF <? pa) then None else Some (calypso_rhea_dma_write r (pa - 0xFC00) val).

Definition calypso_rhea_dma_get_daram (r : rd_state) : Z :=
  let c := get_ch r 1 in
  if aad c =? 0 then 0 else u16 (0x800 + Z.land (aad c) 0x0FFF / 2).

Definition calypso_rhea_dma_get_len_words (r : rd_state) : Z := u16 (algth (get_ch r 1) / 2).

Definition calypso_rhea_dma_irq_level (r : rd_state) : bool :=
  existsb (λ n, has (ctrl (get_ch r n)) CTRL_IRQ_STATE) [0; 1; 2; 3]%nat.

Definition calypso_rhea_dma_rx_armed (r : rd_state) : bool :=
  has (ctrl (get_ch r 1)) CTRL_ENABLE && has (ctrl (get_ch r 1)) CTRL_DIRECTION.
Definition calypso_rhea_dma_one_shot (r : rd_state) : bool :=
  has (ctrl (get_ch r 1)) CTRL_ENABLE && has (ctrl (get_ch r 1)) CTRL_ONE_SHOT.

(** ** The receive transfer *)

(** [for (i = 0; i < got; i++) if (pdst + i < C54X_API_SIZE) api[pdst + i] = buf[i];] *)
Fixpoint api_store (api : gmap Z Z) (pdst : Z) (l : list Z) : gmap Z Z :=
  match l with
  | [] => api
  | w :: l => api_store (if pdst <? C54X_API_SIZE then <[pdst := w]> api else api) (pdst + 1) l
  end.

(** The page loop: receiver, channel, API memory and words moved so far.  The
    guard of 64 pages of the source is the fuel. *)
Fixpoint rx_pages (fuel : nat) (one_shot : bool) (dst max_words : Z)
    (r : rif_state) (c : chan) (api : gmap Z Z) (total : Z) : rif_state * chan * gmap Z Z * Z :=
  match fuel with
  | O => (r, c, api, total)
  | S fuel =>
    if negb one_shot && (calypso_rif_level r <? max_words) then (r, c, api, total)
    else
      let '(buf, r) := calypso_rif_drain r max_words in
      let got := Z.of_nat (length buf) in
      if got <=? 0 then (r, c, api, total)
      else
        let pdst := if has (ctrl c) CTRL_CURRENT_PAGE then dst + max_words else dst in
        let api := api_store api pdst buf in
        let total := total + got in
        let c := c <| cur_off := u16 (got * 2) |> <| ctrl := Z.lxor (ctrl c) CTRL_CURRENT_PAGE |> in
        if one_shot then (r, c, api, total)
        else if negb (has (ctrl c) CTRL_CURRENT_PAGE) then (r, c, api, total)
        else if got <? max_words then (r, c, api, total)
        else rx_pages fuel one_shot dst max_words r c api total
  end.

Record world := mkWorld { w_rif : rif_state; w_rd : rd_state; w_dsp : C54xState }.
#[export] Instance world_eta : Settable world := λ w, mkWorld (w_rif w) (w_rd w) (w_dsp w).

Definition set_ctrl (w : world) (v : Z) : world :=
  w <| w_rd := set_ch (w_rd w) 1 (get_ch (w_rd w) 1 <| ctrl := v |>) |>.
Definition get_ctrl (w : world) : Z := ctrl (get_ch (w_rd w) 1).
Definition rhea_abort (w : world) : world := set_ctrl w (Z.lor (get_ctrl w) CTRL_RHEA_ERROR).

(** The end of a transfer that moved words. *)
Definition rx_complete (w : world) : world :=
  let v := clr (Z.lor (Z.lor (get_ctrl w) CTRL_IRQ_STATE) CTRL_IDLE) CTRL_DMA_START in
  let w := set_ctrl w v in
  let w := if has v CTRL_ONE_SHOT then
             set_ctrl w (clr v CTRL_ENABLE) <| w_rif := calypso_rif_flush (w_rif w) |> else w in
  if has (get_ctrl w) CTRL_IRQ_MODE then
    w <| w_dsp := c54x_interrupt_ex (w_dsp w) C54X_IT_DMA_VEC C54X_IT_DMA_BIT |>
  else w.

Definition calypso_rhea_dma_rx_request (w : world) : world :=
  let c := get_ch (w_rd w) 1 in
  let ctrl0 := ctrl c in
  if negb (has ctrl0 CTRL_ENABLE) then w
  else if negb (has ctrl0 CTRL_DIRECTION) then w
  else
    let max_words := algth c / 2 in
    if max_words <=? 0 then rhea_abort w
    else match api_ram (w_dsp w) with
    | None => rhea_abort w
    | Some api =>
      let dst := Z.land (aad c) 0x0FFF / 2 in
      let over := C54X_API_SIZE <? dst + max_words in
      let max_words := if over then C54X_API_SIZE - dst else max_words in
      if over && (max_words <=? 0) then rhea_abort w
      else
        let max_words := if 4096 <? max_words then 4096 else max_words in
        let one_shot := has ctrl0 CTRL_ONE_SHOT in
        if negb one_shot && has ctrl0 CTRL_IRQ_STATE then set_ctrl w (Z.lor ctrl0 CTRL_IDLE)
        else
          let '(r, c, api, total) :=
            rx_pages 64 one_shot dst max_words (w_rif w) (c <| ctrl := clr ctrl0 CTRL_IDLE |>) api 0 in
          let w := mkWorld r (set_ch (w_rd w) 1 c)
                     (w_dsp w <| api_ram := Some api |>) in
          if total <=? 0 then set_ctrl w (Z.lor (get_ctrl w) CTRL_IDLE) else rx_complete w
    end.

Definition calypso_rhea_dma_pump (w : world) : bool * world :=
  let c := get_ch (w_rd w) 1 in
  if negb (has (ctrl c) CTRL_ENABLE) || negb (has (ctrl c) CTRL_DIRECTION) || has (ctrl c) CTRL_ONE_SHOT
  then (false, w)
  else
    let page := algth c / 2 in
    if page <=? 0 then (false, w)
    else
      let besoin := if has (ctrl c) CTRL_CURRENT_PAGE then page else 2 * page in
      if calypso_rif_level (w_rif w) <? besoin then (false, w)
      else
        let avant := calypso_rif_level (w_rif w) in
        let w' := calypso_rhea_dma_rx_request w in
        (calypso_rif_level (w_rif w') <? avant, w').

(** The arrival of a burst. *)
Definition calypso_rif_rx_burst (w : world) (l : list Z) : world :=
  if (length l =? 0)%nat then w
  else if negb (calypso_rhea_dma_rx_armed (w_rd w)) then w
  else
    let w := w <| w_rif := rif_append (w_rif w) l |> in
    let rint := negb (has (spcr (w_rif w)) SPCR_RINT_MASK) in
    let rdma := negb (has (spcr (w_rif w)) SPCR_RDMA_MASK) in
    let w := if rint then
               w <| w_dsp := c54x_interrupt_ex (w_dsp w) C54X_IT_RIF_RX_VEC C54X_IT_RIF_RX_BIT |>
             else w in
    if rdma then calypso_rhea_dma_rx_request w else w.

(** ** Control bits *)

(** A bit of a control word built with the operations of the code. *)
Lemma has_lxor_bit x m k : 0 ≤ k → has (Z.lxor x m) (Z.shiftl 1 k) = xorb (has x (Z.shiftl 1 k)) (Z.testbit m k).
Proof. intros. rewrite !has_bit by done. apply Z.lxor_spec. Qed.
Lemma has_lor_bit x m k : 0 ≤ k → has (Z.lor x m) (Z.shiftl 1 k) = has x (Z.shiftl 1 k) || Z.testbit m k.
Proof. intros. rewrite !has_bit by done. apply Z.lor_spec. Qed.
Lemma has_clr_bit x m k : 0 ≤ k → has (clr x m) (Z.shiftl 1 k) = has x (Z.shiftl 1 k) && negb (Z.testbit m k).
Proof. intros. rewrite !has_bit by done. apply Z.ldiff_spec. Qed.

Ltac ctrl_bits :=
  repeat match goal with
  | |- context [has (Z.lxor ?x ?m) (Z.shiftl 1 ?k)] => rewrite (has_lxor_bit x m k) by lia
  | |- context [has (Z.lor ?x ?m) (Z.shiftl 1 ?k)] => rewrite (has_lor_bit x m k) by lia
  | |- context [has (clr ?x ?m) (Z.shiftl 1 ?k)] => rewrite (has_clr_bit x m k) by lia
  | |- context [Z.testbit ?m ?k] =>
      let v := eval vm_compute in (Z.testbit m k) in
      lazymatch v with true => idtac | false => idtac end; change (Z.testbit m k) with v
  end; rewrite ?andb_true_r, ?andb_false_r, ?orb_true_r, ?orb_false_r, ?xorb_true_r, ?xorb_false_r.

(** ** Interrupts leave the API memory alone when the stack is outside it *)
Definition stack_cell (s : C54xState) (k : Z) : bool :=
  plain_cell (u16 (sp s - k)) && negb (in_api (u16 (sp s - k))).
Definition dsp_safe (s : C54xState) : bool :=
  (negb (idle s) && has (st1 s) ST1_INTM) || (stack_cell s 1 && stack_cell s 2).

Lemma push_api s v :
  stack_cell s 1 = true → api_ram (push s v) = api_ram s.
Proof.
  unfold stack_cell. intros H. apply andb_true_iff in H as [Hp Ha]. apply negb_true_iff in Ha.
  unfold push. set (s1 := s <| sp := _ |>).
  destruct (data_write_plain s1 (sp s1) v Hp) as (_ & -> & _).
  change (sp s1) with (u16 (sp s - 1)). by rewrite Ha.
Qed.

Lemma take_vector_safe s vec bit ret :
  idle s = false → stack_cell s 1 = true → stack_cell s 2 = true →
  api_ram (take_vector s vec bit ret) = api_ram s ∧ dsp_safe (take_vector s vec bit ret) = true.
Proof.
  intros Hi H1 H2. unfold take_vector. set (s0 := c54x_ifr_clear s _). cbv zeta.
  assert (P1 : plain_cell (u16 (sp s0 - 1)) = true) by (by apply andb_true_iff in H1 as [? _]).
  destruct (push_spec s0 (u16 ret) P1) as (Er & Es & _). set (s1 := push s0 (u16 ret)) in *.
  assert (E2 : u16 (sp s1 - 1) = u16 (sp s - 2)).
  { rewrite Es. change (sp s0) with (sp s). unfold u16. rewrite Zminus_mod_idemp_l. f_equal. lia. }
  assert (H2' : stack_cell s1 1 = true) by (unfold stack_cell in *; by rewrite E2).
  assert (P2 : plain_cell (u16 (sp s1 - 1)) = true) by (by apply andb_true_iff in H2' as [? _]).
  destruct (push_spec s1 (xpc s1) P2) as (Er2 & _ & _). split.
  - exact (eq_trans (push_api s1 (xpc s1) H2') (push_api s0 (u16 ret) H1)).
  - unfold dsp_safe. apply orb_true_iff. left. apply andb_true_iff. cbn [idle st1 update_field]. split.
    + assert (idle (push s1 (xpc s1)) = idle s) as E by (injection Er2; injection Er; intros; congruence).
      cbn [idle update_field]. by rewrite E, Hi.
    + by rewrite has_lor, orb_true_r.
Qed.

Lemma interrupt_safe s vec bit :
  dsp_safe s = true →
  api_ram (c54x_interrupt_ex s vec bit) = api_ram s ∧ dsp_safe (c54x_interrupt_ex s vec bit) = true.
Proof.
  intros Hs. unfold c54x_interrupt_ex.
  destruct (_ || _); [done|]. destruct (_ || _); [done|]. cbv zeta.
  set (s1 := s <| ifr := _ |>). change (dsp_safe s1 = true) in Hs. change (api_ram s) with (api_ram s1).
  destruct (idle s1) eqn:Ei.
  - unfold dsp_safe in Hs. rewrite Ei in Hs. cbn [negb andb orb] in Hs. assert (Hs' := Hs).
    apply andb_true_iff in Hs' as [H1 H2].
    destruct (has _ _).
    + set (s2 := s1 <| idle := false |>). change (api_ram s1) with (api_ram s2). by apply take_vector_safe.
    + split; [done|]. unfold dsp_safe. apply orb_true_iff. right. exact Hs.
  - destruct (has (st1 s1) ST1_INTM) eqn:Em; cbn [negb andb]; [done|].
    destruct (_ && _); [|done]. unfold dsp_safe in Hs. rewrite Em, andb_false_r in Hs. cbn [orb] in Hs.
    apply andb_true_iff in Hs as [H1 H2]. by apply take_vector_safe.
Qed.

(** ** Pages of the API memory *)
Definition page (api : gmap Z Z) (base p : Z) : list Z := mget api <$> zseq base (Z.to_nat p).

Lemma api_store_get api base l i :
  base + Z.of_nat (length l) ≤ C54X_API_SIZE →
  mget (api_store api base l) i =
    if (base <=? i) && (i <? base + Z.of_nat (length l)) then nth (Z.to_nat (i - base)) l 0 else mget api i.
Proof.
  revert api base. induction l as [|w l IH]; intros api base Hb; cbn [api_store length] in *.
  - destruct (Z.leb_spec base i), (Z.ltb_spec i (base + Z.of_nat 0)); cbn [andb]; lia || done.
  - rewrite (proj2 (Z.ltb_lt base C54X_API_SIZE)) by lia. rewrite IH by lia. rewrite mget_insert.
    destruct (Z.eqb_spec i base) as [E|E].
    + rewrite (proj2 (Z.leb_gt (base + 1) i)), (proj2 (Z.leb_le base i)), (proj2 (Z.ltb_lt i (base + Z.of_nat (S (length l))))) by lia. cbn [andb].
      by replace (Z.to_nat (i - base)) with 0%nat by lia.
    + destruct (Z.leb_spec (base + 1) i), (Z.leb_spec base i), (Z.ltb_spec i (base + 1 + Z.of_nat (length l))),
        (Z.ltb_spec i (base + Z.of_nat (S (length l)))); cbn [andb]; try lia; try done.
      by replace (Z.to_nat (i - base)) with (S (Z.to_nat (i - (base + 1)))) by lia.
Qed.

Lemma page_length api base p : length (page api base p) = Z.to_nat p.
Proof. unfold page, zseq. by rewrite !length_fmap, length_seq. Qed.

Lemma page_store api base l p :
  base + p ≤ C54X_API_SIZE → Z.of_nat (length l) = p → page (api_store api base l) base p = l.
Proof.
  intros Hb Hl. apply (nth_ext _ _ 0 0); rewrite page_length; [lia|]. intros k Hk.
  unfold page, zseq. rewrite nth_lookup, !list_lookup_fmap, lookup_seq_lt by lia. cbn.
  rewrite api_store_get by lia. rewrite (proj2 (Z.leb_le _ _)), (proj2 (Z.ltb_lt _ _)) by lia.
  cbn [andb]. f_equal. lia.
Qed.

Lemma page_ext api api' base p :
  (∀ i, base ≤ i < base + p → mget api' i = mget api i) → page api' base p = page api base p.
Proof.
  intros H. apply list_fmap_ext. intros k x Hx. apply list_lookup_fmap_Some in Hx as (j & -> & Hj).
  apply lookup_seq in Hj. apply H. lia.
Qed.

Lemma page_store_other api base l base' p :
  base + Z.of_nat (length l) ≤ C54X_API_SIZE → base' + p ≤ base ∨ base + Z.of_nat (length l) ≤ base' →
  page (api_store api base l) base' p = page api base' p.
Proof.
  intros Hb Hd. apply page_ext. intros i Hi. rewrite api_store_get by done.
  destruct (Z.leb_spec base i), (Z.ltb_spec i (base + Z.of_nat (length l))); cbn [andb]; lia || done.
Qed.

(** ** The stream: continuous reception through the two pages *)

(** The channel armed for continuous reception with a page of at least a word. *)
Record streaming (c : chan) : Prop := mkStreaming {
  st_enable : has (ctrl c) CTRL_ENABLE = true;
  st_dir : has (ctrl c) CTRL_DIRECTION = true;
  st_cont : has (ctrl c) CTRL_ONE_SHOT = false;
  st_len : 2 ≤ algth c ≤ 0xFFF;
  st_aad : 0 ≤ aad c ≤ 0xFFF
}.

Definition ch_page (c : chan) : Z := algth c / 2.
Definition ch_dst (c : chan) : Z := Z.land (aad c) 0x0FFF / 2.
Definition on_page1 (c : chan) : bool := has (ctrl c) CTRL_CURRENT_PAGE.

Lemma ch_bounds c : streaming c → 1 ≤ ch_page c ≤ 2047 ∧ 0 ≤ ch_dst c ≤ 2047.
Proof.
  intros []. unfold ch_page, ch_dst. pose proof (land_range (aad c) 0x0FFF ltac:(lia)). split; Z.to_euclidean_division_equations; lia.
Qed.

(** The words a request moves, given the page it starts on and the words
    waiting: whole pages only, up to the end of the second one. *)
Definition moved (page1 : bool) (p level : Z) : Z :=
  if level <? p then 0 else if page1 then p else if level <? 2 * p then p else 2 * p.

(** The words that became valid since the consumer saw page bit [last], in
    stream order, when the channel now stands on [now]. *)
Definition fresh (api : gmap Z Z) (dst p : Z) (last now : bool) : list Z :=
  if last then page api (dst + p) p else page api dst p ++ (if now then [] else page api (dst + p) p).

Definition next_page (c : chan) (p : Z) : chan :=
  c <| cur_off := u16 (p * 2) |> <| ctrl := Z.lxor (ctrl c) CTRL_CURRENT_PAGE |>.

Lemma on_page1_next c p : on_page1 (next_page c p) = negb (on_page1 c).
Proof. unfold on_page1, next_page, CTRL_CURRENT_PAGE. cbn [ctrl update_field]. ctrl_bits. done. Qed.

Lemma rx_pages_stop fuel dst p r c api total :
  calypso_rif_level r < p → rx_pages fuel false dst p r c api total = (r, c, api, total).
Proof. intros H. destruct fuel as [|fuel]; cbn [rx_pages]; [done|]. cbn [negb andb]. by rewrite (proj2 (Z.ltb_lt _ _)). Qed.

Lemma rx_pages_turn fuel dst p r c api total :
  rif_ok r → 1 ≤ p → p ≤ calypso_rif_level r →
  ∃ r', rif_ok r' ∧ rif_queue r' = drop (Z.to_nat p) (rif_queue r) ∧ spcr r' = spcr r ∧
    rx_pages (S fuel) false dst p r c api total =
      let api' := api_store api (if on_page1 c then dst + p else dst) (take (Z.to_nat p) (rif_queue r)) in
      if on_page1 c then (r', next_page c p, api', total + p)
      else rx_pages fuel false dst p r' (next_page c p) api' (total + p).
Proof.
  intros Hok Hp Hl. destruct (drain_spec r p Hok) as (r' & E & Hok' & Eq & Es).
  exists r'. split; [done|]. split; [done|]. split; [done|]. cbn [rx_pages negb andb].
  rewrite (proj2 (Z.ltb_ge _ _)) by done. rewrite E.
  rewrite rif_level_queue in Hl by done.
  assert (Z.of_nat (length (take (Z.to_nat p) (rif_queue r))) = p) as -> by (rewrite length_take; lia).
  rewrite (proj2 (Z.leb_gt _ _)) by lia. fold (next_page c p). fold (on_page1 c). fold (on_page1 (next_page c p)).
  rewrite on_page1_next, negb_involutive, Z.ltb_irrefl. done.
Qed.

(** What a transfer keeps of the channel: everything but the page bit and the
    current offset. *)
Record chan_frame (c c' : chan) : Prop := mkFrame {
  fr_len : algth c' = algth c;
  fr_aad : aad c' = aad c;
  fr_bits : ∀ k, 0 ≤ k → k ≠ 4 → has (ctrl c') (Z.shiftl 1 k) = has (ctrl c) (Z.shiftl 1 k)
}.

Lemma chan_frame_trans c1 c2 c3 : chan_frame c1 c2 → chan_frame c2 c3 → chan_frame c1 c3.
Proof. intros [? ? H1] [? ? H2]. constructor; [congruence..|]. intros. by rewrite H2, H1. Qed.

Lemma next_page_frame c p : chan_frame c (next_page c p).
Proof.
  constructor; [done..|]. intros k Hk Hn. unfold next_page. cbn [ctrl update_field].
  rewrite has_lxor_bit by done. unfold CTRL_CURRENT_PAGE. rewrite (Z.shiftl_1_l 4), Z.pow2_bits_false by lia.
  apply xorb_false_r.
Qed.

(** The page loop moves exactly [moved] words, in order, into the pages. *)
Lemma rx_pages_stream fuel dst p r c api :
  rif_ok r → 1 ≤ p ≤ 2047 → 0 ≤ dst ≤ 2047 →
  let n := moved (on_page1 c) p (calypso_rif_level r) in
  ∃ r' c' api', rx_pages (S (S fuel)) false dst p r c api 0 = (r', c', api', n) ∧ rif_ok r' ∧
    rif_queue r' = drop (Z.to_nat n) (rif_queue r) ∧ spcr r' = spcr r ∧ chan_frame c c' ∧
    (0 < n → fresh api' dst p (on_page1 c) (on_page1 c') = take (Z.to_nat n) (rif_queue r) ∧
             on_page1 c && on_page1 c' = false) ∧
    (n = 0 → on_page1 c' = on_page1 c).
Proof.
  intros Hok Hp Hd n. assert (HA : dst + p + p ≤ C54X_API_SIZE) by (unfold C54X_API_SIZE; lia).
  pose proof (rif_level_queue r Hok) as HL. unfold moved in n.
  destruct (Z.ltb_spec (calypso_rif_level r) p) as [H0|H0].
  { exists r, c, api. rewrite rx_pages_stop by done. unfold n. split_and!; done. }
  destruct (rx_pages_turn (S fuel) dst p r c api 0 Hok ltac:(lia) H0) as (r1 & Hok1 & Eq1 & Es1 & ->).
  pose proof (rif_level_queue r1 Hok1) as HL1. rewrite Eq1, length_drop in HL1.
  assert (Hlen : Z.of_nat (length (take (Z.to_nat p) (rif_queue r))) = p) by (rewrite length_take; lia).
  destruct (on_page1 c) eqn:Ec; cbv zeta.
  { exists r1, (next_page c p), (api_store api (dst + p) (take (Z.to_nat p) (rif_queue r))). unfold n.
    rewrite on_page1_next, Ec. split_and!; try done; [apply next_page_frame| |lia].
    intros _. unfold fresh. split; [|done]. apply page_store; lia. }
  destruct (Z.ltb_spec (calypso_rif_level r) (2 * p)) as [H2|H2].
  { rewrite rx_pages_stop by lia.
    exists r1, (next_page c p), (api_store api dst (take (Z.to_nat p) (rif_queue r))). unfold n.
    rewrite on_page1_next, Ec. split_and!; try done; [apply next_page_frame| |lia].
    intros _. unfold fresh. cbn [negb andb]. rewrite app_nil_r. split; [|done]. apply page_store; lia. }
  edestruct (rx_pages_turn fuel dst p r1 (next_page c p)) as (r2 & Hok2 & Eq2 & Es2 & ->); [done|lia|lia|].
  rewrite on_page1_next, Ec. cbn [negb]. cbv zeta. unfold n. rewrite Eq1 in *.
  eexists r2, _, _. split; [f_equal; lia|]. split; [done|].
  split; [rewrite Eq2, drop_drop; f_equal; lia|]. split; [by rewrite Es2|].
  split; [eapply chan_frame_trans; apply next_page_frame|].
  rewrite !on_page1_next, Ec. cbn [negb andb]. split; [|lia]. intros _. split; [|done]. unfold fresh.
  rewrite page_store_other, !page_store; rewrite ?length_take, ?length_drop; try lia.
  replace (Z.to_nat (2 * p)) with (Z.to_nat p + Z.to_nat p)%nat by lia. by rewrite take_take_drop.
Qed.

(** ** A request on an armed channel *)
Abbreviation chn w := (get_ch (w_rd w) 1).
Definition irq_pending (c : chan) : bool := has (ctrl c) CTRL_IRQ_STATE.

Record stream_ok (w : world) : Prop := mkStreamOk {
  so_rif : rif_ok (w_rif w);
  so_len : length (ch (w_rd w)) = 4%nat;
  so_chan : streaming (chn w);
  so_dsp : dsp_safe (w_dsp w) = true;
  so_api : is_Some (api_ram (w_dsp w))
}.

Lemma get_set_ch r n c : (n < length (ch r))%nat → get_ch (set_ch r n c) n = c.
Proof.
  intros H. unfold get_ch, set_ch. cbn [ch update_field]. rewrite nth_lookup, list_lookup_insert_eq by done. done.
Qed.
Lemma set_ch_length r n c : length (ch (set_ch r n c)) = length (ch r).
Proof. apply length_insert. Qed.

Lemma streaming_frame c c' :
  algth c' = algth c → aad c' = aad c → (∀ k, In k [0; 2; 10] → has (ctrl c') (Z.shiftl 1 k) = has (ctrl c) (Z.shiftl 1 k)) →
  streaming c → streaming c'.
Proof.
  intros E1 E2 H []. unfold CTRL_ENABLE, CTRL_DIRECTION, CTRL_ONE_SHOT in *.
  constructor; unfold CTRL_ENABLE, CTRL_DIRECTION, CTRL_ONE_SHOT; rewrite ?E1, ?E2, ?H; cbn; auto.
Qed.

(** A control write inside the controller that keeps the configuration. *)
Lemma set_ctrl_ok w v :
  stream_ok w → (∀ k, In k [0; 2; 10] → has v (Z.shiftl 1 k) = has (get_ctrl w) (Z.shiftl 1 k)) →
  stream_ok (set_ctrl w v) ∧ chn (set_ctrl w v) = chn w <| ctrl := v |>.
Proof.
  intros [Hr Hl Hc Hd Ha] Hv.
  assert (E : chn (set_ctrl w v) = chn w <| ctrl := v |>) by (apply get_set_ch; lia).
  split; [|done]. constructor; [done|by rewrite <- Hl; apply set_ch_length| |done|done].
  rewrite E. by apply (streaming_frame (chn w)).
Qed.

Lemma rx_complete_stream w :
  stream_ok w →
  let w' := rx_complete w in
  stream_ok w' ∧ w_rif w' = w_rif w ∧ api_ram (w_dsp w') = api_ram (w_dsp w) ∧
  algth (chn w') = algth (chn w) ∧ aad (chn w') = aad (chn w) ∧
  irq_pending (chn w') = true ∧ on_page1 (chn w') = on_page1 (chn w).
Proof.
  intros Hok. unfold rx_complete. cbv zeta.
  set (v := clr _ CTRL_DMA_START).
  destruct (set_ctrl_ok w v Hok) as [Hok1 E1].
  { intros k Hk. cbn in Hk. unfold v, CTRL_IRQ_STATE, CTRL_IDLE, CTRL_DMA_START.
    destruct Hk as [<-|[<-|[<-|[]]]]; ctrl_bits; done. }
  assert (Ho : has v CTRL_ONE_SHOT = false).
  { pose proof (st_cont _ (so_chan _ Hok1)) as H. by rewrite E1 in H. }
  rewrite Ho. set (w1 := set_ctrl w v) in *.
  assert (F : irq_pending (chn w1) = true ∧ on_page1 (chn w1) = on_page1 (chn w)).
  { rewrite E1. unfold irq_pending, on_page1, v, get_ctrl, CTRL_IRQ_STATE, CTRL_IDLE, CTRL_DMA_START, CTRL_CURRENT_PAGE.
    cbn [ctrl update_field]. ctrl_bits. done. }
  destruct F as [F1 F2].
  assert (algth (chn w1) = algth (chn w) ∧ aad (chn w1) = aad (chn w)) as [F3 F4] by (by rewrite E1).
  destruct (has _ CTRL_IRQ_MODE); [|by split_and!].
  destruct (interrupt_safe (w_dsp w1) C54X_IT_DMA_VEC C54X_IT_DMA_BIT (so_dsp _ Hok1)) as [A B].
  destruct Hok1. split_and!; try done. constructor; try done. cbn [w_dsp update_field]. by rewrite A.
Qed.

Lemma rx_request_busy w :
  stream_ok w → irq_pending (chn w) = true →
  calypso_rhea_dma_rx_request w = set_ctrl w (Z.lor (get_ctrl w) CTRL_IDLE).
Proof.
  intros [_ _ Hc _ [api Ha]] Hi. destruct (ch_bounds _ Hc) as [Hp Hd]. destruct Hc as [He Hdir Hone _ _].
  unfold calypso_rhea_dma_rx_request. unfold ch_page, ch_dst, irq_pending in *. cbv zeta.
  rewrite He, Hdir, Hone, Ha, Hi. cbn [negb andb].
  rewrite (proj2 (Z.leb_gt _ 0)) by lia. rewrite (proj2 (Z.ltb_ge C54X_API_SIZE _)) by (unfold C54X_API_SIZE; lia).
  done.
Qed.

Lemma rx_request_eq w api :
  stream_ok w → irq_pending (chn w) = false → api_ram (w_dsp w) = Some api →
  calypso_rhea_dma_rx_request w =
    let c := chn w in
    let '(r, c, api, total) :=
      rx_pages 64 false (ch_dst c) (ch_page c) (w_rif w) (c <| ctrl := clr (ctrl c) CTRL_IDLE |>) api 0 in
    let w := mkWorld r (set_ch (w_rd w) 1 c) (w_dsp w <| api_ram := Some api |>) in
    if total <=? 0 then set_ctrl w (Z.lor (get_ctrl w) CTRL_IDLE) else rx_complete w.
Proof.
  intros [_ _ Hc _ _] Hi Ha. destruct (ch_bounds _ Hc) as [Hp Hd]. destruct Hc as [He Hdir Hone _ _].
  unfold calypso_rhea_dma_rx_request. unfold ch_page, ch_dst, irq_pending in *. cbv zeta.
  rewrite He, Hdir, Hone, Ha, Hi. cbn [negb andb].
  rewrite (proj2 (Z.leb_gt _ 0)) by lia. rewrite (proj2 (Z.ltb_ge C54X_API_SIZE _)) by (unfold C54X_API_SIZE; lia).
  cbn [andb]. rewrite (proj2 (Z.ltb_ge 4096 _)) by lia. done.
Qed.

Lemma rx_request_stream w api :
  stream_ok w → irq_pending (chn w) = false → api_ram (w_dsp w) = Some api →
  let n := moved (on_page1 (chn w)) (ch_page (chn w)) (calypso_rif_level (w_rif w)) in
  let w' := calypso_rhea_dma_rx_request w in
  stream_ok w' ∧ rif_queue (w_rif w') = drop (Z.to_nat n) (rif_queue (w_rif w)) ∧
  spcr (w_rif w') = spcr (w_rif w) ∧
  algth (chn w') = algth (chn w) ∧ aad (chn w') = aad (chn w) ∧ irq_pending (chn w') = (0 <? n) ∧
  (n = 0 → on_page1 (chn w') = on_page1 (chn w)) ∧
  (0 < n → on_page1 (chn w) && on_page1 (chn w') = false ∧
     ∃ api', api_ram (w_dsp w') = Some api' ∧
       fresh api' (ch_dst (chn w)) (ch_page (chn w)) (on_page1 (chn w)) (on_page1 (chn w'))
       = take (Z.to_nat n) (rif_queue (w_rif w))).
Proof.
  intros Hok Hi Ha n. rewrite (rx_request_eq w api Hok Hi Ha). cbv zeta.
  destruct Hok as [Hr Hl Hc Hd Hs]. destruct (ch_bounds _ Hc) as [Bp Bd].
  set (c0 := chn w <| ctrl := clr (ctrl (chn w)) CTRL_IDLE |>).
  assert (E0 : on_page1 c0 = on_page1 (chn w) ∧ irq_pending c0 = irq_pending (chn w)).
  { unfold on_page1, irq_pending, c0, CTRL_IDLE, CTRL_CURRENT_PAGE, CTRL_IRQ_STATE. cbn [ctrl update_field].
    ctrl_bits. done. }
  destruct E0 as [E0 E0'].
  assert (Hc0 : streaming c0).
  { apply (streaming_frame (chn w)); [done..| |done]. intros k Hk. unfold c0, CTRL_IDLE. cbn [ctrl update_field].
    cbn in Hk. destruct Hk as [<-|[<-|[<-|[]]]]; ctrl_bits; done. }
  destruct (rx_pages_stream 62 (ch_dst (chn w)) (ch_page (chn w)) (w_rif w) c0 api Hr Bp Bd)
    as (r' & c' & api' & -> & Hr' & Eq & Es & [F1 F2 F3] & Hpos & Hzero).
  rewrite E0 in *. fold n in Eq, Hpos, Hzero |- *.
  set (w1 := mkWorld r' (set_ch (w_rd w) 1 c') (w_dsp w <| api_ram := Some api' |>)).
  assert (E1 : chn w1 = c') by (apply get_set_ch; lia).
  assert (Hok1 : stream_ok w1).
  { constructor; [done|by rewrite <- Hl; apply set_ch_length| |exact Hd|done].
    rewrite E1. apply (streaming_frame c0); [done..| |done]. intros k Hk. cbn in Hk. apply F3; lia. }
  assert (Hn : 0 ≤ n) by (unfold n, moved; repeat case_match; lia).
  destruct (Z.leb_spec n 0) as [Hz|Hz].
  - destruct (set_ctrl_ok w1 (Z.lor (get_ctrl w1) CTRL_IDLE) Hok1) as [Hok2 E2].
    { intros k Hk. unfold CTRL_IDLE. cbn in Hk. destruct Hk as [<-|[<-|[<-|[]]]]; ctrl_bits; done. }
    rewrite E2, (proj2 (Z.ltb_ge 0 n)), E1 by lia. split; [exact Hok2|]. split; [exact Eq|]. split; [exact Es|].
    split; [exact F1|]. split; [exact F2|]. unfold irq_pending, on_page1, get_ctrl, CTRL_IDLE, CTRL_CURRENT_PAGE,
      CTRL_IRQ_STATE in *. cbn [ctrl update_field]. rewrite E1. ctrl_bits.
    split; [rewrite F3 by lia; congruence|]. split; [|lia]. intros _. apply Hzero. lia.
  - destruct (rx_complete_stream w1 Hok1) as (A & B & C & D & E & F & G). rewrite E1 in *.
    rewrite (proj2 (Z.ltb_lt 0 n)), D, E, F, G, B, C by lia. destruct (Hpos Hz) as [P1 P2].
    split; [exact A|]. split; [exact Eq|]. split; [exact Es|]. split; [exact F1|]. split; [exact F2|].
    split; [done|]. split; [lia|]. intros _. split; [exact P2|]. by exists api'.
Qed.

(** ** The receive path as a transition system

    The radio hands over bursts, the frame loop pumps, the DSP runs, and a read
    of DMA2_CTRL acknowledges a completion.  [c_last] is the page bit the last
    acknowledging read showed, [c_out] the contents the pages filled by each
    completion had when it was acknowledged, oldest first, and [c_in] the words
    that arrived.  What the program of the DSP does with the pages is not part of
    the system: any change of its state that keeps them is a step. *)
Record conf := mkConf { c_world : world; c_last : bool; c_out : list Z; c_in : list Z }.

Definition api_of (w : world) : gmap Z Z := default ∅ (api_ram (w_dsp w)).

(** DMA2_CTRL. *)
Definition DMA2_CTRL : Z := RD_CH_BASE 1 + RD_CTRL.

(** The read of DMA2_CTRL. *)
Definition ack (c : conf) : conf :=
  let w := c_world c in
  let '(v, r) := calypso_rhea_dma_read (w_rd w) DMA2_CTRL in
  if has v CTRL_IRQ_STATE then
    let now := has v CTRL_CURRENT_PAGE in
    mkConf (w <| w_rd := r |>) now
      (c_out c ++ fresh (api_of w) (ch_dst (chn w)) (ch_page (chn w)) (c_last c) now) (c_in c)
  else mkConf (w <| w_rd := r |>) (c_last c) (c_out c) (c_in c).

(** The DSP state [d] keeps the two pages of the channel. *)
Definition keeps_pages (w : world) (d : C54xState) : Prop :=
  ∃ api, api_ram d = Some api ∧
    ∀ i, ch_dst (chn w) ≤ i < ch_dst (chn w) + 2 * ch_page (chn w) → mget api i = mget (api_of w) i.

Inductive rx_step : conf → conf → Prop :=
| step_burst c l :
    (length (rif_queue (w_rif (c_world c))) + length l ≤ RIF_STAGE_MAX)%nat →
    rx_step c (mkConf (calypso_rif_rx_burst (c_world c) l) (c_last c) (c_out c) (c_in c ++ l))
| step_pump c :
    rx_step c (mkConf (snd (calypso_rhea_dma_pump (c_world c))) (c_last c) (c_out c) (c_in c))
| step_ack c : rx_step c (ack c)
| step_dsp c d :
    dsp_safe d = true → keeps_pages (c_world c) d →
    rx_step c (mkConf (c_world c <| w_dsp := d |>) (c_last c) (c_out c) (c_in c)).

(** The words in the pages of a completion not acknowledged yet. *)
Definition pending (c : conf) : list Z :=
  let w := c_world c in
  if irq_pending (chn w) then
    fresh (api_of w) (ch_dst (chn w)) (ch_page (chn w)) (c_last c) (on_page1 (chn w))
  else [].

Definition start (w : world) : conf := mkConf w (on_page1 (chn w)) [] (rif_queue (w_rif w)).

Record rx_inv (c : conf) : Prop := mkInv {
  inv_ok : stream_ok (c_world c);
  inv_last : irq_pending (chn (c_world c)) = false → c_last c = on_page1 (chn (c_world c));
  inv_words : c_out c ++ pending c ++ rif_queue (w_rif (c_world c)) = c_in c
}.

(** A change that keeps the receiver queue up to appended words and the pages. *)
Lemma rx_inv_frame w w' last out inp l :
  rx_inv (mkConf w last out inp) → stream_ok w' →
  rif_queue (w_rif w') = rif_queue (w_rif w) ++ l →
  algth (chn w') = algth (chn w) → aad (chn w') = aad (chn w) →
  irq_pending (chn w') = irq_pending (chn w) → on_page1 (chn w') = on_page1 (chn w) →
  (∀ i, ch_dst (chn w) ≤ i < ch_dst (chn w) + 2 * ch_page (chn w) → mget (api_of w') i = mget (api_of w) i) →
  rx_inv (mkConf w' last out (inp ++ l)).
Proof.
  intros [Hok Hla Hw] Hok' Eq E1 E2 E3 E4 Hp. destruct (ch_bounds _ (so_chan _ Hok)) as [Bp Bd].
  constructor; cbn [c_world c_last c_out c_in] in *; [done|by rewrite E3, E4|].
  assert (pending (mkConf w' last out (inp ++ l)) = pending (mkConf w last out inp)) as ->.
  { unfold pending. cbn [c_world c_last]. rewrite E3. destruct (irq_pending _); [|done].
    assert (ch_dst (chn w') = ch_dst (chn w) ∧ ch_page (chn w') = ch_page (chn w)) as [-> ->]
      by (unfold ch_dst, ch_page; by rewrite E1, E2).
    rewrite E4. unfold fresh.
    rewrite !(page_ext (api_of w) (api_of w')); [done|intros; apply Hp; lia..]. }
  rewrite Eq, <- Hw. by rewrite <- !app_assoc.
Qed.

Lemma rx_inv_request w last out inp :
  rx_inv (mkConf w last out inp) → rx_inv (mkConf (calypso_rhea_dma_rx_request w) last out inp).
Proof.
  intros Hinv. pose proof Hinv as [Hok Hla Hw]. cbn [c_world c_last c_out c_in] in *.
  destruct (irq_pending (chn w)) eqn:Ei.
  - rewrite rx_request_busy by done.
    destruct (set_ctrl_ok w (Z.lor (get_ctrl w) CTRL_IDLE) Hok) as [Hok2 E2].
    { intros k Hk. unfold CTRL_IDLE. cbn in Hk. destruct Hk as [<-|[<-|[<-|[]]]]; ctrl_bits; done. }
    rewrite <- (app_nil_r inp). apply (rx_inv_frame w); try done; rewrite ?E2; try done; [by rewrite app_nil_r|..];
      unfold irq_pending, on_page1, get_ctrl, CTRL_IDLE, CTRL_CURRENT_PAGE, CTRL_IRQ_STATE;
      cbn [ctrl update_field]; ctrl_bits; done.
  - destruct (so_api _ Hok) as [api Ha].
    destruct (rx_request_stream w api Hok Ei Ha) as (A & B & _ & C & D & E & F & G).
    set (n := moved _ _ _) in *. unfold pending in Hw. cbn [c_world c_last] in Hw. rewrite Ei in Hw.
    assert (Hn : 0 ≤ n) by (unfold n, moved; destruct (ch_bounds _ (so_chan _ Hok)); repeat case_match; lia).
    assert (ch_dst (chn (calypso_rhea_dma_rx_request w)) = ch_dst (chn w) ∧
            ch_page (chn (calypso_rhea_dma_rx_request w)) = ch_page (chn w)) as [Ed Ep]
      by (unfold ch_dst, ch_page; by rewrite C, D).
    constructor; cbn [c_world c_last c_out c_in]; [done| |].
    + rewrite E. intros Hz. rewrite F, Hla by (lia || done). done.
    + unfold pending. cbn [c_world c_last]. rewrite E, B, <- Hw, Ed, Ep.
      destruct (Z.ltb_spec 0 n) as [Hz|Hz].
      * destruct (G Hz) as (_ & api' & Ea & Ef). unfold api_of. rewrite Ea. change (default ∅ (Some api')) with api'.
        rewrite Hla by done. rewrite Ef. cbn [app]. by rewrite take_drop.
      * by replace (Z.to_nat n) with 0%nat by lia.
Qed.

Lemma read_dma2_ctrl w :
  stream_ok w →
  let '(v, r) := calypso_rhea_dma_read (w_rd w) DMA2_CTRL in
  let w' := w <| w_rd := r |> in
  stream_ok w' ∧ has v CTRL_IRQ_STATE = irq_pending (chn w) ∧ has v CTRL_CURRENT_PAGE = on_page1 (chn w) ∧
  algth (chn w') = algth (chn w) ∧ aad (chn w') = aad (chn w) ∧
  irq_pending (chn w') = false ∧ on_page1 (chn w') = on_page1 (chn w).
Proof.
  intros Hok. change (calypso_rhea_dma_read (w_rd w) DMA2_CTRL) with
    (clr (ctrl (chn w)) CTRL_DMA_START,
     if has (ctrl (chn w)) (Z.lor CTRL_IRQ_STATE CTRL_RHEA_ERROR)
     then set_ch (w_rd w) 1 (chn w <| ctrl := clr (ctrl (chn w)) (Z.lor CTRL_IRQ_STATE CTRL_RHEA_ERROR) |>)
     else w_rd w).
  cbv beta iota.
  assert (V : has (clr (ctrl (chn w)) CTRL_DMA_START) CTRL_IRQ_STATE = irq_pending (chn w) ∧
              has (clr (ctrl (chn w)) CTRL_DMA_START) CTRL_CURRENT_PAGE = on_page1 (chn w)).
  { unfold irq_pending, on_page1, CTRL_DMA_START, CTRL_IRQ_STATE, CTRL_CURRENT_PAGE. ctrl_bits. done. }
  destruct V as [V1 V2]. destruct (has (ctrl (chn w)) (Z.lor _ _)) eqn:Eh.
  - destruct (set_ctrl_ok w (clr (get_ctrl w) (Z.lor CTRL_IRQ_STATE CTRL_RHEA_ERROR)) Hok) as [Hok2 E2].
    { intros k Hk. unfold CTRL_IRQ_STATE, CTRL_RHEA_ERROR. cbn in Hk.
      destruct Hk as [<-|[<-|[<-|[]]]]; ctrl_bits; done. }
    cbv zeta. set (w' := w <| w_rd := _ |>). change w' with (set_ctrl w (clr (get_ctrl w) (Z.lor CTRL_IRQ_STATE CTRL_RHEA_ERROR))).
    rewrite E2. split; [exact Hok2|]. split_and!; [done..| |];
      unfold irq_pending, on_page1, get_ctrl, CTRL_RHEA_ERROR, CTRL_CURRENT_PAGE, CTRL_IRQ_STATE;
      cbn [ctrl update_field]; ctrl_bits; done.
  - destruct w. split_and!; try done. unfold irq_pending. cbn [w_rd update_field] in *.
    unfold has in Eh |- *. apply negb_false_iff, Z.eqb_eq in Eh. apply negb_false_iff, Z.eqb_eq.
    rewrite Z.land_lor_distr_r in Eh. by apply Z.lor_eq_0_iff in Eh as [? _].
Qed.

Lemma rx_inv_ack c : rx_inv c → rx_inv (ack c).
Proof.
  intros [Hok Hla Hw]. pose proof (read_dma2_ctrl _ Hok) as H. unfold ack, pending in *.
  destruct c as [w last out inp]. cbn [c_world c_last c_out c_in] in *.
  destruct (calypso_rhea_dma_read (w_rd w) DMA2_CTRL) as [v r].
  destruct H as (A & B & C & D & E & F & G). rewrite B, C.
  destruct (irq_pending (chn w)); (constructor; cbn [c_world c_last c_out c_in]; [exact A| |]).
  - by rewrite G.
  - unfold pending. cbn [c_world]. rewrite F. rewrite <- Hw. by rewrite <- !app_assoc.
  - rewrite G. intros _. by apply Hla.
  - unfold pending. cbn [c_world]. by rewrite F.
Qed.

Lemma rx_inv_burst w last out inp l :
  rx_inv (mkConf w last out inp) → (length (rif_queue (w_rif w)) + length l ≤ RIF_STAGE_MAX)%nat →
  rx_inv (mkConf (calypso_rif_rx_burst w l) last out (inp ++ l)).
Proof.
  intros Hinv Hfit. pose proof Hinv as [Hok _ _]. cbn [c_world] in Hok.
  unfold calypso_rif_rx_burst. destruct (Nat.eqb_spec (length l) 0) as [E|_].
  { apply nil_length_inv in E as ->. by rewrite app_nil_r. }
  destruct Hok as [Hr Hl Hc Hd Ha]. unfold calypso_rhea_dma_rx_armed.
  rewrite (st_enable _ Hc), (st_dir _ Hc). cbn [negb andb]. cbv zeta.
  destruct (append_spec (w_rif w) l Hr Hfit) as (R1 & R2 & _).
  set (w1 := w <| w_rif := _ |>).
  assert (I1 : rx_inv (mkConf w1 last out (inp ++ l))) by (apply (rx_inv_frame w); done).
  assert (I2 : rx_inv (mkConf (if negb (has (spcr (w_rif w1)) SPCR_RINT_MASK) then
      w1 <| w_dsp := c54x_interrupt_ex (w_dsp w1) C54X_IT_RIF_RX_VEC C54X_IT_RIF_RX_BIT |> else w1) last out (inp ++ l))).
  { destruct (negb _); [|done].
    destruct (interrupt_safe (w_dsp w1) C54X_IT_RIF_RX_VEC C54X_IT_RIF_RX_BIT Hd) as [A B].
    rewrite <- (app_nil_r (inp ++ l)). apply (rx_inv_frame w1); try done; [|by rewrite app_nil_r|].
    - constructor; try done. cbn [w_dsp update_field]. by rewrite A.
    - intros i _. unfold api_of. cbn [w_dsp update_field]. by rewrite A. }
  destruct (negb (has (spcr _) SPCR_RDMA_MASK)); [by apply rx_inv_request|done].
Qed.

Lemma rx_inv_step c c' : rx_step c c' → rx_inv c → rx_inv c'.
Proof.
  intros [[w last out inp] l Hf|[w last out inp]|c0|[w last out inp] d Hs (api & Ha & Hk)] Hinv;
    cbn [c_world c_last c_out c_in] in *.
  - by apply rx_inv_burst.
  - unfold calypso_rhea_dma_pump. cbv zeta. repeat (case_if; [done|]). by apply rx_inv_request.
  - by apply rx_inv_ack.
  - pose proof Hinv as [Hok _ _].
    assert (Hok' : stream_ok (w <| w_dsp := d |>)) by (destruct Hok; constructor; try done; by eexists).
    rewrite <- (app_nil_r inp). apply (rx_inv_frame w); try done; [by rewrite app_nil_r|].
    intros i Hi. unfold api_of at 1. cbn [w_dsp update_field]. rewrite Ha. by apply Hk.
Qed.

(** C1: the receive path delivers the radio stream.  From a channel armed for
    continuous reception, whatever the interleaving of bursts (that fit in the
    receiver), pumps, DSP activity (that leaves the two pages alone and keeps the
    stack outside the API memory) and reads of DMA2_CTRL, what the filled pages
    held when their completions were acknowledged, then the pages of the
    completion not acknowledged yet, then the words still in the receiver are
    exactly the words that arrived, in order: no page is overwritten between its
    completion and the acknowledgement, and no word is lost or doubled. *)
Theorem rx_path_delivers_stream w c :
  stream_ok w → irq_pending (chn w) = false → rtc rx_step (start w) c →
  c_out c ++ pending c ++ rif_queue (w_rif (c_world c)) = c_in c.
Proof.
  intros Hok Hi Hr. apply inv_words.
  assert (H0 : rx_inv (start w)).
  { constructor; cbn [start c_world c_last c_out c_in]; [done|done|].
    unfold pending, start. cbn [c_world]. by rewrite Hi. }
  revert H0. induction Hr as [|x y z Hs _ IH]; [done|]. intros Hx. apply IH. by apply (rx_inv_step x).
Qed.

(** An armed world: two-word pages at the start of the API memory, RDMA open. *)
Definition demo_world : world :=
  mkWorld (rif_init <| spcr := clr (spcr rif_init) SPCR_RDMA_MASK |>)
    (set_ch rhea_dma_init 1 (mkChan 0 0 0 4 (Z.lor CTRL_RESET CTRL_ENABLE) 0))
    (c54x_zero <| api_ram := Some ∅ |> <| sp := 0x5AC8 |>).

Lemma rx_path_delivers_stream_witness :
  let w1 := calypso_rif_rx_burst demo_world [11; 12; 13; 14; 15] in
  let c2 := ack (mkConf w1 false [] [11; 12; 13; 14; 15]) in
  let c3 := mkConf (calypso_rif_rx_burst (c_world c2) [16; 17; 18]) (c_last c2) (c_out c2) (c_in c2 ++ [16; 17; 18]) in
  c_out c3 = [11; 12; 13; 14] ∧ pending c3 = [15; 16; 17; 18] ∧
  c_out c3 ++ pending c3 ++ rif_queue (w_rif (c_world c3)) = c_in c3.
Proof.
  intros w1 c2 c3. split; [vm_compute; reflexivity|]. split; [vm_compute; reflexivity|].
  apply (rx_path_delivers_stream demo_world c3).
  - constructor; [constructor; cbn; unfold RIF_FIFO_DEPTH, RIF_STAGE_MAX; lia|done| |done|by eexists].
    constructor; cbn; done || lia.
  - done.
  - eapply rtc_l; [apply (step_burst (start demo_world) [11; 12; 13; 14; 15])|].
    { apply Nat.leb_le. vm_compute. reflexivity. }
    eapply rtc_l; [apply step_ack|].
    eapply rtc_l; [apply (step_burst c2 [16; 17; 18])|apply rtc_refl].
    apply Nat.leb_le. vm_compute. reflexivity.
Defined.

(** A completion that filled both halves left the words in the two of them, for
    a reader that consumes both at each interrupt, as the ROM does. *)
Lemma pair_both_halves api dst p : fresh api dst p false false = page api dst p ++ page api (dst + p) p.
Proof. done. Qed.

(** But a continuous request that finds one full page and not two raises the
    completion after that single page. *)
Theorem single_page_completes w api :
  stream_ok w → irq_pending (chn w) = false → on_page1 (chn w) = false → api_ram (w_dsp w) = Some api →
  ch_page (chn w) ≤ calypso_rif_level (w_rif w) < 2 * ch_page (chn w) →
  let w' := calypso_rhea_dma_rx_request w in
  irq_pending (chn w') = true ∧
  Z.of_nat (length (rif_queue (w_rif w'))) = calypso_rif_level (w_rif w) - ch_page (chn w).
Proof.
  intros Hok Hi Hp Ha Hl w'. destruct (rx_request_stream w api Hok Hi Ha) as (A & B & _ & _ & _ & E & _).
  destruct (ch_bounds _ (so_chan _ Hok)) as [Bp _].
  assert (moved (on_page1 (chn w)) (ch_page (chn w)) (calypso_rif_level (w_rif w)) = ch_page (chn w)) as En.
  { unfold moved. rewrite Hp, (proj2 (Z.ltb_ge _ _)), (proj2 (Z.ltb_lt _ _)) by lia. done. }
  rewrite En in *. fold w' in B, E. rewrite E, B, length_drop. pose proof (rif_level_queue _ (so_rif _ Hok)).
  split; [apply Z.ltb_lt; lia|lia].
Qed.

(** ** The one-shot window *)
Record one_shot_armed (w : world) (api : gmap Z Z) : Prop := mkOneShot {
  os_rif : rif_ok (w_rif w);
  os_len : length (ch (w_rd w)) = 4%nat;
  os_enable : has (ctrl (chn w)) CTRL_ENABLE = true;
  os_dir : has (ctrl (chn w)) CTRL_DIRECTION = true;
  os_shot : has (ctrl (chn w)) CTRL_ONE_SHOT = true;
  os_page : on_page1 (chn w) = false;
  os_algth : 2 ≤ algth (chn w) ≤ 0xFFF;
  os_dsp : dsp_safe (w_dsp w) = true;
  os_api : api_ram (w_dsp w) = Some api
}.

Lemma rx_pages_one_shot dst p r c api :
  rif_ok r → 1 ≤ p → rif_queue r ≠ [] → on_page1 c = false →
  ∃ r', rif_ok r' ∧
    rx_pages 64 true dst p r c api 0 =
      (r', next_page c (Z.of_nat (length (take (Z.to_nat p) (rif_queue r)))),
       api_store api dst (take (Z.to_nat p) (rif_queue r)),
       Z.of_nat (length (take (Z.to_nat p) (rif_queue r)))).
Proof.
  intros Hok Hp Hq Hc. destruct (drain_spec r p Hok) as (r' & E & Hok' & _). exists r'. split; [done|].
  cbn [rx_pages negb andb]. rewrite E. fold (on_page1 c). rewrite Hc.
  rewrite (proj2 (Z.leb_gt _ 0)); [done|]. rewrite length_take.
  destruct (rif_queue r); [done|]. cbn [length]. lia.
Qed.

Lemma rx_complete_one_shot w :
  length (ch (w_rd w)) = 4%nat → has (get_ctrl w) CTRL_ONE_SHOT = true → dsp_safe (w_dsp w) = true →
  let w' := rx_complete w in
  api_ram (w_dsp w') = api_ram (w_dsp w) ∧ rif_queue (w_rif w') = [] ∧
  has (ctrl (chn w')) CTRL_ENABLE = false ∧ irq_pending (chn w') = true.
Proof.
  intros Hl Ho Hd. unfold rx_complete. cbv zeta. set (v := clr _ CTRL_DMA_START).
  assert (Hv : has v CTRL_ONE_SHOT = true).
  { unfold v, CTRL_ONE_SHOT, CTRL_IRQ_STATE, CTRL_IDLE, CTRL_DMA_START in *. ctrl_bits. done. }
  rewrite Hv. set (w1 := set_ctrl (set_ctrl w v) (clr v CTRL_ENABLE) <| w_rif := _ |>).
  assert (E1 : ctrl (chn w1) = clr v CTRL_ENABLE).
  { unfold w1, set_ctrl. cbn [w_rd update_field]. rewrite get_set_ch; [done|]. rewrite set_ch_length. lia. }
  assert (F : has (ctrl (chn w1)) CTRL_ENABLE = false ∧ irq_pending (chn w1) = true).
  { unfold irq_pending. rewrite E1. unfold v, CTRL_ENABLE, CTRL_IRQ_STATE, CTRL_IDLE, CTRL_DMA_START. ctrl_bits. done. }
  destruct F as [F1 F2]. destruct (has _ CTRL_IRQ_MODE); [|done].
  destruct (interrupt_safe (w_dsp w1) C54X_IT_DMA_VEC C54X_IT_DMA_BIT Hd) as [A _]. done.
Qed.

(** The API address and the words of the window. *)
Lemma one_shot_bounds w api :
  one_shot_armed w api → rif_queue (w_rif w) ≠ [] →
  1 ≤ ch_page (chn w) ≤ 2047 ∧ 0 ≤ ch_dst (chn w) ≤ 2047 ∧
  0 < Z.of_nat (length (take (Z.to_nat (ch_page (chn w))) (rif_queue (w_rif w)))) ≤ 2047.
Proof.
  intros [_ _ _ _ _ _ Hal _ _] Hq.
  assert (Bp : 1 ≤ ch_page (chn w) ≤ 2047) by (unfold ch_page; Z.to_euclidean_division_equations; lia).
  split; [done|]. split.
  - unfold ch_dst. pose proof (land_range (aad (chn w)) 0x0FFF ltac:(lia)). Z.to_euclidean_division_equations; lia.
  - rewrite length_take. destruct (rif_queue (w_rif w)); [done|]. cbn [length]. lia.
Qed.

Lemma rx_request_one_shot w api :
  one_shot_armed w api → rif_queue (w_rif w) ≠ [] →
  let got := take (Z.to_nat (ch_page (chn w))) (rif_queue (w_rif w)) in
  ∃ r' c', has (ctrl c') CTRL_ONE_SHOT = true ∧
    calypso_rhea_dma_rx_request w =
      rx_complete (mkWorld r' (set_ch (w_rd w) 1 c') (w_dsp w <| api_ram := Some (api_store api (ch_dst (chn w)) got) |>)).
Proof.
  intros Hos Hq got. destruct (one_shot_bounds w api Hos Hq) as (Bp & Bd & Hg). fold got in Hg.
  destruct Hos as [Hr Hl He Hdir Hone Hpg Hal Hd Ha].
  set (c0 := chn w <| ctrl := clr (ctrl (chn w)) CTRL_IDLE |>).
  assert (E0 : on_page1 c0 = false ∧ has (ctrl c0) CTRL_ONE_SHOT = true).
  { unfold on_page1, c0, CTRL_IDLE, CTRL_CURRENT_PAGE, CTRL_ONE_SHOT in *. cbn [ctrl update_field]. ctrl_bits. done. }
  destruct E0 as [E0 E0'].
  destruct (rx_pages_one_shot (ch_dst (chn w)) (ch_page (chn w)) (w_rif w) c0 api Hr ltac:(lia) Hq E0) as (r' & _ & E).
  fold got in E. exists r', (next_page c0 (Z.of_nat (length got))).
  split; [rewrite <- E0'; apply next_page_frame; lia|].
  unfold calypso_rhea_dma_rx_request. cbv zeta. rewrite He, Hdir, Hone, Ha. cbn [negb andb].
  fold (ch_page (chn w)). fold (ch_dst (chn w)). rewrite (proj2 (Z.leb_gt _ 0)) by lia.
  rewrite (proj2 (Z.ltb_ge C54X_API_SIZE _)) by (unfold C54X_API_SIZE; lia). cbn [andb].
  rewrite (proj2 (Z.ltb_ge 4096 _)) by lia. fold c0. rewrite E. by rewrite (proj2 (Z.leb_gt _ 0)) by lia.
Qed.

(** a one-shot window takes one page and closes.  With words waiting, the
    request stores the first page of them (or all, when there are fewer) at the
    programmed API address and nothing elsewhere, raises the completion line,
    empties the receiver and disarms the channel, so that bursts arriving
    before it is armed again change nothing. *)
Theorem one_shot_window w api :
  one_shot_armed w api → rif_queue (w_rif w) ≠ [] →
  let got := take (Z.to_nat (ch_page (chn w))) (rif_queue (w_rif w)) in
  let dst := ch_dst (chn w) in
  let w' := calypso_rhea_dma_rx_request w in
  (∃ api', api_ram (w_dsp w') = Some api' ∧ page api' dst (Z.of_nat (length got)) = got ∧
     ∀ i, i < dst ∨ dst + Z.of_nat (length got) ≤ i → mget api' i = mget api i) ∧
  rif_queue (w_rif w') = [] ∧ calypso_rhea_dma_irq_level (w_rd w') = true ∧
  calypso_rhea_dma_rx_armed (w_rd w') = false ∧ ∀ l, calypso_rif_rx_burst w' l = w'.
Proof.
  intros Hos Hq got dst w'. destruct (one_shot_bounds w api Hos Hq) as (_ & Bd & Hg). fold got in Hg. fold dst in Bd.
  destruct (rx_request_one_shot w api Hos Hq) as (r' & c1 & Ho & Ew). fold got in Ew. fold dst in Ew. fold w' in Ew.
  destruct Hos as [_ Hl _ _ _ _ _ Hd _]. set (w1 := mkWorld r' _ _) in Ew.
  assert (Hl1 : length (ch (w_rd w1)) = 4%nat) by (rewrite <- Hl; apply set_ch_length).
  assert (Ho1 : has (get_ctrl w1) CTRL_ONE_SHOT = true).
  { unfold get_ctrl, w1. cbn [w_rd]. by rewrite get_set_ch by lia. }
  destruct (rx_complete_one_shot w1 Hl1 Ho1 Hd) as (P1 & P2 & P3 & P4). rewrite <- Ew in *.
  assert (Harm : calypso_rhea_dma_rx_armed (w_rd w') = false) by (unfold calypso_rhea_dma_rx_armed; by rewrite P3).
  split; [|split_and!; [done| |done|]].
  - exists (api_store api dst got). split; [exact P1|]. split; [apply page_store; unfold C54X_API_SIZE; lia|].
    intros i Hi. rewrite api_store_get by (unfold C54X_API_SIZE; lia).
    destruct (Z.leb_spec dst i), (Z.ltb_spec i (dst + Z.of_nat (length got))); cbn [andb]; lia || done.
  - unfold calypso_rhea_dma_irq_level, irq_pending in *. cbn [existsb]. rewrite P4. by rewrite orb_true_r.
  - intros l. unfold calypso_rif_rx_burst. rewrite Harm. by destruct (_ =? _)%nat.
Qed.

(** A window of four words with six waiting. *)
Definition demo_one_shot : world :=
  mkWorld (rif_append rif_init [21; 22; 23; 24; 25; 26])
    (set_ch rhea_dma_init 1 (mkChan 0 0 32 8 (Z.lor CTRL_RESET (Z.lor CTRL_ENABLE CTRL_ONE_SHOT)) 0))
    (c54x_zero <| api_ram := Some ∅ |> <| sp := 0x5AC8 |>).

Lemma one_shot_window_witness :
  let w' := calypso_rhea_dma_rx_request demo_one_shot in
  (∃ api', api_ram (w_dsp w') = Some api' ∧ page api' 16 4 = [21; 22; 23; 24]) ∧
  rif_queue (w_rif w') = [] ∧ calypso_rif_rx_burst w' [99] = w'.
Proof.
  intros w'. assert (H : one_shot_armed demo_one_shot ∅).
  { constructor; try reflexivity; [|split; discriminate].
    apply append_spec; [constructor; cbn; unfold RIF_FIFO_DEPTH, RIF_STAGE_MAX; lia|].
    apply Nat.leb_le. vm_compute. reflexivity. }
  destruct (one_shot_window demo_one_shot ∅ H) as ((api' & A & B & _) & C & _ & _ & D); [discriminate|].
  split; [exists api'; split; [exact A|exact B]|]. split; [exact C|apply D].
Defined.

(** The control register as the two buses see it: what a write sets is read
    back, except the bits the controller owns, which keep their value, the
    start bit, which reads as zero, and the three bits that do not exist. *)
Lemma ctrl_write_read r n v k :
  length (ch r) = 4%nat → (n < 4)%nat → 0 ≤ k < 16 →
  let off := RD_CH_BASE (Z.of_nat n) + RD_CTRL in
  Z.testbit (fst (calypso_rhea_dma_read (calypso_rhea_dma_write r off v) off)) k =
    if Z.testbit CTRL_RO_MASK k then Z.testbit (ctrl (get_ch r n)) k
    else if (k =? 6) || (13 <=? k) then false else Z.testbit v k.
Proof.
  intros Hl Hn Hk off.
  assert (W : calypso_rhea_dma_write r off v =
    set_ch r n (get_ch r n <| ctrl := Z.lor (Z.land (clr (u16 v) CTRL_RO_MASK) 0x1FFF) (Z.land (ctrl (get_ch r n)) CTRL_RO_MASK) |>))
    by (do 4 (destruct n as [|n]; [reflexivity|]); lia).
  assert (R : ∀ q, fst (calypso_rhea_dma_read q off) = clr (ctrl (get_ch q n)) CTRL_DMA_START)
    by (intros q; do 4 (destruct n as [|n]; [reflexivity|]); lia).
  rewrite R, W, get_set_ch by lia. cbn [ctrl update_field]. unfold clr, u16.
  rewrite Z.ldiff_spec, Z.lor_spec, !Z.land_spec, Z.ldiff_spec.
  change 65536 with (2 ^ 16). rewrite Z.mod_pow2_bits_low by lia.
  generalize (Z.testbit v k), (Z.testbit (ctrl (get_ch r n)) k). intros x y.
  apply eqb_prop. destruct x, y;
    match goal with |- ?l = true => let f := eval pattern k in l in
      match f with ?h _ => apply (range_check h 16 k); [lia|by vm_compute] end end.
Qed.

End RheaDma.
