(* ===== verification/DspPorts.v ===== *)
(** * The DSP and the devices behind its I/O ports
    ([hw/arm/calypso/l1-dsp/c54x_exec.c], [calypso_xio.c])

    PORTW and PORTR offer their port number to the A5 coprocessor, the radio
    interface, the DMA register bank and the two XIO windows (API control and
    the interrupt controller of the DSP) in that order; the first that knows
    the number answers.  The branches on TC (BC and BCD, 0xF82x, 0xF83x, 0xFA2x,
    0xFA3x) read the flag only when the instructions before them, of which the
    loop keeps a record, are known to set it.  [machine] is the core with the
    devices and that record; its step is the iteration of [C54xRun] with these
    instructions added, and the DMA controller drives the level the interrupt
    check of every instruction reads.  With them every opcode has its executor,
    so the step is a function.

    The A5 cipher [osmo_a5] of libosmocore and the frame numbers it is given
    ([A5.Env]) are parameters, as in [A5]; [en] is the CALYPSO_C54X_IRQ_LEVEL
    switch. *)
From stdpp Require Import gmap.
From S2P Require Import Prelude C54xAddr C54xState C54xDecode C54xIrq C54xAlu C54xFlow C54xPar C54xMove C54xExec C54xRun A5 Rif RheaDma.

Module DspPorts.
Import C54xAddr C54xState C54xDecode C54xIrq C54xAlu C54xFlow C54xPar C54xMove C54xExec C54xRun.
#[local] Existing Instances A5.a5_eta Rif.rif_eta RheaDma.rd_eta RheaDma.chan_eta.

(** ** The XIO windows *)
Definition XIO_APIC_BASE : Z := 0xF900.
Definition XIO_APIC_END : Z := 0xF9FF.
Definition XIO_INTH_BASE : Z := 0xFA00.
Definition XIO_INTH_END : Z := 0xFAFF.
Definition APIC_HOM : Z := 0x0002.

Record xio := mkXio { apic : list Z; inth : list Z }.
#[export] Instance xio_eta : Settable xio := λ x, mkXio (apic x) (inth x).

Definition xio_zero : xio := mkXio (replicate 256 0) (replicate 256 0).

Definition calypso_xio_api_hom (x : xio) : bool := has (rd (apic x) 0) APIC_HOM.

Definition is_apic (pa : Z) : bool := (XIO_APIC_BASE <=? pa) && (pa <=? XIO_APIC_END).
Definition is_inth (pa : Z) : bool := (XIO_INTH_BASE <=? pa) && (pa <=? XIO_INTH_END).

(** [calypso_xio_misc] of a read and of a write; [None] outside the windows. *)
Definition xio_misc_read (x : xio) (pa : Z) : option Z :=
  if negb (is_apic pa) && negb (is_inth pa) then None
  else Some (rd (if is_apic pa then apic x else inth x) (Z.land pa 0xFF)).

Definition xio_misc_write (x : xio) (pa val : Z) : option xio :=
  if negb (is_apic pa) && negb (is_inth pa) then None
  else Some (if is_apic pa then x <| apic := wr (apic x) (Z.land pa 0xFF) val |>
             else x <| inth := wr (inth x) (Z.land pa 0xFF) val |>).

(** ** The ports *)
(** The record of the loop: [g_prev_op], [g_tc_fiable] and [s_last_run_op]. *)
Record history := mkHist { prev_op : Z; tc_fiable : bool; last_run_op : Z }.

Record devices := mkDev {
  d_a5 : A5.A5State; d_rif : Rif.rif_state; d_rd : RheaDma.rd_state; d_xio : xio; d_hist : history }.
#[export] Instance devices_eta : Settable devices := λ d,
  mkDev (d_a5 d) (d_rif d) (d_rd d) (d_xio d) (d_hist d).

Definition hist_zero : history := mkHist 0 false 0.

Definition machine : Type := devices * C54xState.

Section ports.
  Context (osmo_a5 : Z → list Z → Z → option (list Z * list Z)) (e : A5.Env) (en : bool).

(** The chain of PORTW. *)
Definition port_write (d : devices) (s : C54xState) (pa val : Z) : machine :=
  match A5.calypso_a5_portw osmo_a5 e (d_a5 d <| A5.ifr := ifr s |>) pa val with
  | Some q => (d <| d_a5 := q |>, s <| ifr := A5.ifr q |>)
  | None =>
    let '(hit, r) := Rif.calypso_rif_portw (d_rif d) pa val in
    if hit then (d <| d_rif := r |>, s)
    else match RheaDma.xio_write (d_rd d) pa val with
    | Some r => (d <| d_rd := r |>, s)
    | None =>
      match xio_misc_write (d_xio d) pa val with
      | Some x => (d <| d_xio := x |>, s)
      | None => (d, s)
      end
    end
  end.

(** The chain of PORTR; [None] when no device answers. *)
Definition port_read (d : devices) (pa : Z) : option Z * devices :=
  match A5.calypso_a5_portr e (d_a5 d) pa with
  | Some v => (Some v, d)
  | None =>
    let '(v, r) := Rif.calypso_rif_portr (d_rif d) pa in
    match v with
    | Some _ => (v, d <| d_rif := r |>)
    | None =>
      match RheaDma.xio_read (d_rd d) pa with
      | Some (v, r) => (Some (u16 v), d <| d_rd := r |>)
      | None => (xio_misc_read (d_xio d) pa, d)
      end
    end
  end.

(** PORTW Smem,PA (0x75). *)
Definition exec_portw (d : devices) (s : C54xState) (op : Z) : Z * machine :=
  let '(ad, s) := resolve_smem s op in
  let pa := lk_operand s in
  (2 + Z.b2z (lk_used s), port_write d s pa (data_read s ad)).

(** PORTR PA,Smem (0x74). *)
Definition exec_portr (d : devices) (s : C54xState) (op : Z) : Z * machine :=
  let '(ad, s) := resolve_smem s op in
  let pa := lk_operand s in
  let '(rv, d) := port_read d pa in
  (2 + Z.b2z (lk_used s), (d, match rv with Some v => data_write s ad v | None => s end)).

Definition exec_port (d : devices) (s : C54xState) (op : Z) : Z * machine :=
  if Z.land op 0xFF00 =? 0x7500 then exec_portw d s op else exec_portr d s op.

(** What the loop records before an instruction: TC is reliable after CMPM and
    BITF, and stays so over ANDM, ORM, XORM, ADDM, ST and STM (but to ST0). *)
Definition note_op (h : history) (op : Z) : history :=
  let prev := last_run_op h in
  let hi := Z.land prev 0xFF00 in
  let fiable :=
    if Z.land prev 0xFE00 =? 0x6000 then true
    else if (0x6800 <=? hi) && (hi <=? 0x6B00) || (hi =? 0x7600) ||
            ((hi =? 0x7700) && negb (Z.land prev 0xFF =? 0x06)) then tc_fiable h
    else false in
  mkHist prev fiable op.

Definition c54x_tc_par_rmw (h : history) : bool := tc_fiable h.

(** BC (0xF82x, 0xF83x) and BCD (0xFA2x, 0xFA3x) on NTC and TC.  Without a
    reliable TC, BC asks the accumulator and BCD always branches, at once. *)
Definition exec_bc_tc (h : history) (s : C54xState) (op : Z) : Z * C54xState :=
  let op2 := prog_fetch s (pc s + 1) in
  let sub := Z.land (Z.shiftr op 4) 0xF in
  let tc_strict := (Z.land (prev_op h) 0xFE00 =? 0x6000) || c54x_tc_par_rmw h in
  let tc := has (st0 s) ST0_TC in
  let wanted := if sub =? 2 then negb tc else tc in
  let two := (2 + Z.b2z (lk_used s)) in
  if Z.land (Z.shiftr op 8) 0xFF =? 0xF8 then
    let take := if tc_strict then wanted
                else if sub =? 2 then negb (bc_acc (a s) =? 0) else bc_acc (a s) =? 0 in
    if take then (0, s <| pc := op2 |>) else (two, s)
  else if tc_strict then (two, if wanted then arm_delay s op2 else s)
  else (0, s <| pc := op2 |>).

(** [c54x_exec_one] with the port instructions and the branches on TC: the
    decoder leaves nothing else out. *)
Definition machine_exec (d : devices) (s : C54xState) : Z * machine :=
  let '(taken, s) := c54x_irq_level_check en (RheaDma.calypso_rhea_dma_irq_level (d_rd d)) s in
  if taken then (1, (d, s))
  else
    let op := prog_fetch s (pc s) in
    let s := s <| lk_used := false |> in
    match exec_op s op with
    | Some (n, s') => (n, (d, s'))
    | None =>
      if Z.land op 0xFE00 =? 0x7400 then exec_port d s op
      else let '(n, s') := exec_bc_tc (d_hist d) s op in (n, (d, s'))
    end.

(** One iteration of the loop of [c54x_run]. *)
Definition machine_step (m : machine) : machine :=
  let '(d, s) := m in
  if dsp_idle_fast_forward s then (d, s <| insn_count := u32 (insn_count s + 8) |>)
  else
    let s0 := init_435b (replay_pending s) in
    let d := d <| d_hist := note_op (d_hist d) (prog_fetch s0 (pc s0)) |> in
    let '(n, (d, s')) := machine_exec d s0 in
    (d, settle s0 n s').

Fixpoint machine_run (n : nat) (m : machine) : machine :=
  match n with
  | O => m
  | S n => if idle (snd m) then m else machine_run n (machine_step m)
  end.

End ports.

(** ** Well-formed devices *)
Record a5_wf (q : A5.A5State) : Prop := mkA5Wf {
  a5_ctrl : word (A5.ctrl q);
  a5_kc : Forall word (A5.kc q);
  a5_cnt : Forall word (A5.cnt q);
  a5_etat : word (A5.etat q);
  a5_flux : Forall word (A5.flux q);
  a5_ifr : word (A5.ifr q)
}.

Record rif_wf (r : Rif.rif_state) : Prop := mkRifWf {
  rif_spcr : word (Rif.spcr r);
  rif_spcx : word (Rif.spcx r);
  rif_dxr : word (Rif.dxr r);
  rif_drr : word (Rif.drr r);
  rif_fifo : Forall word (Rif.fifo r);
  rif_stage : Forall word (Rif.stage r)
}.

Record chan_wf (c : RheaDma.chan) : Prop := mkChanWf {
  ch_rad : word (RheaDma.rad c);
  ch_rdpth : word (RheaDma.rdpth c);
  ch_aad : word (RheaDma.aad c);
  ch_algth : word (RheaDma.algth c);
  ch_ctrl : word (RheaDma.ctrl c);
  ch_off : word (RheaDma.cur_off c)
}.

Record dev_wf (d : devices) : Prop := mkDevWf {
  dev_a5 : a5_wf (d_a5 d);
  dev_rif : rif_wf (d_rif d);
  dev_cfg : word (RheaDma.ctrl_cfg (d_rd d));
  dev_alloc : word (RheaDma.alloc_cfg (d_rd d));
  dev_ch : Forall chan_wf (RheaDma.ch (d_rd d));
  dev_apic : Forall word (apic (d_xio d));
  dev_inth : Forall word (inth (d_xio d))
}.

Definition machine_wf (m : machine) : Prop := dev_wf (fst m) ∧ wf (snd m).

(** The packed stream is made of words whatever the cipher returns. *)
Lemma empaqueter_words b : Forall word (A5.empaqueter b).
Proof.
  unfold A5.empaqueter.
  assert (Hf : ∀ l w, Forall word w → Forall word (foldl (A5.pack_step b) w l)); [|apply Hf].
  - induction l as [|i l IH]; intros w Hw; cbn [foldl]; [done|]. apply IH. unfold A5.pack_step.
    case_match; [|done]. apply wr_Forall; [|done]. apply word_lor; [by apply word_rd|].
    rewrite Z.shiftr_div_pow2 by (apply Z.mod_pos_bound; lia). unfold word.
    pose proof (Z.pow_pos_nonneg 2 (i mod 16)). pose proof (Z.mod_pos_bound i 16).
    split; [apply Z.div_pos; lia|]. apply Z.div_lt_upper_bound; nia.
  - apply Forall_replicate, word_0.
Qed.

Lemma replicate_words n : Forall word (replicate n 0).
Proof. apply Forall_replicate, word_0. Qed.
Lemma word_1 : word 1.
Proof. unfold word. lia. Qed.
Lemma word_it : word (u16 (Z.shiftl 1 A5.A5_IT_BIT)).
Proof. apply word_u16. Qed.
#[local] Hint Resolve replicate_words word_1 word_it empaqueter_words Forall_app_2 : c54x.

Ltac a5_fields := constructor; cbn [A5.ctrl A5.kc A5.cnt A5.etat A5.flux A5.ifr update_field]; auto 6 with c54x.

Lemma a5_calculer_wf osmo e q algo : a5_wf q → a5_wf (A5.a5_calculer osmo e q algo).
Proof.
  intros []. unfold A5.a5_calculer. destruct (A5.a5_recaler _ _) as [fn mv].
  destruct (A5.a5_fn_dl e fn) as [fd us].
  destruct mv, us, (osmo algo (A5.a5_key (A5.kc q)) fn) as [[dl ul]|]; cbv zeta; a5_fields.
Qed.

Lemma a5_write_wf osmo e q pa v q' :
  a5_wf q → word v → A5.calypso_a5_portw osmo e q pa v = Some q' → a5_wf q'.
Proof.
  intros H Hv E. unfold A5.calypso_a5_portw in E. case_match; [done|]. injection E as <-.
  unfold A5.write_ctrl. cbv zeta.
  assert (H1 : a5_wf (q <| A5.ctrl := v |>)) by (destruct H; by constructor).
  repeat case_match; try done; try (by apply a5_calculer_wf); destruct H; destruct H1; a5_fields.
Qed.

Lemma a5_read_word e q pa v : a5_wf q → A5.calypso_a5_portr e q pa = Some v → word v.
Proof.
  intros [] E. unfold A5.calypso_a5_portr in E. case_match; [done|]. injection E as <-.
  repeat case_match; auto with c54x.
Qed.

(** The receiver. *)
Lemma refill_wf n r : rif_wf r → rif_wf (Rif.refill_loop n r).
Proof.
  revert r. induction n as [|n IH]; intros r H; cbn [Rif.refill_loop]; [done|]. case_match; [|done].
  apply IH. destruct H. constructor; try done. cbn. apply Forall_app_2; [done|]. constructor; [|constructor].
  destruct (nth_in_or_default (Rif.stage_pos r) (Rif.stage r) 0) as [Hi| ->]; [|apply word_0].
  by apply (proj1 (Stdlib.Lists.List.Forall_forall _ _) rif_stage0).
Qed.

Lemma spcr_read_word r : rif_wf r → word (Rif.rif_spcr_read r).
Proof.
  intros []. unfold Rif.rif_spcr_read. cbv zeta.
  assert (Hm : ∀ c : bool, ∀ v m, word v → word m → word (if c then Z.lor v m else v))
    by (intros []; auto with c54x).
  repeat match goal with |- word (if _ then _ else _) => apply Hm; [|split; [discriminate|reflexivity]] end.
  by apply word_land_l.
Qed.

Lemma rif_read_wf r pa :
  rif_wf r → from_option word True (fst (Rif.calypso_rif_portr r pa)) ∧ rif_wf (snd (Rif.calypso_rif_portr r pa)).
Proof.
  intros H. unfold Rif.calypso_rif_portr. case_match.
  - pose proof (refill_wf Rif.RIF_FIFO_DEPTH r H) as H1. fold (Rif.rif_refill r) in H1. cbv zeta.
    destruct (Rif.fifo (Rif.rif_refill r)) as [|w rest] eqn:Ef; cbn [fst snd from_option].
    { split; [by destruct H1|done]. }
    set (r1 := Rif.rif_refill r <| Rif.drr := w |> <| Rif.fifo := rest |> <| Rif.drr_valid := true |>).
    assert (H2 : rif_wf r1).
    { destruct H1. rewrite Ef in rif_fifo0. apply Forall_cons_1 in rif_fifo0 as [? ?]. by constructor. }
    pose proof (refill_wf Rif.RIF_FIFO_DEPTH r1 H2) as H3. fold (Rif.rif_refill r1) in H3.
    split; [by destruct H3|done].
  - pose proof (spcr_read_word r H). repeat case_match; cbn; split; try done; by destruct H.
Qed.

Lemma rif_write_wf r pa v : rif_wf r → word v → rif_wf (snd (Rif.calypso_rif_portw r pa v)).
Proof.
  intros H Hv. unfold Rif.calypso_rif_portw. cbv zeta.
  assert (word Rif.SPCR_RW_MASK) by (split; [discriminate|reflexivity]).
  repeat case_match; cbn [snd]; try done; destruct H; (constructor; cbn; auto with c54x).
Qed.

(** The DMA register bank. *)
Definition rd_wf (r : RheaDma.rd_state) : Prop :=
  word (RheaDma.ctrl_cfg r) ∧ word (RheaDma.alloc_cfg r) ∧ Forall chan_wf (RheaDma.ch r).

Lemma chan_reset_wf : chan_wf RheaDma.chan_reset.
Proof. constructor; split; first [discriminate|reflexivity]. Qed.

Lemma get_ch_wf r n : rd_wf r → chan_wf (RheaDma.get_ch r n).
Proof.
  intros (_ & _ & H). unfold RheaDma.get_ch.
  destruct (nth_in_or_default n (RheaDma.ch r) RheaDma.chan_reset) as [Hi| ->]; [|apply chan_reset_wf].
  by apply (proj1 (Stdlib.Lists.List.Forall_forall _ _) H).
Qed.

Lemma set_ch_wf r n c : rd_wf r → chan_wf c → rd_wf (RheaDma.set_ch r n c).
Proof. intros (H1 & H2 & H3) Hc. split; [done|]. split; [done|]. by apply Forall_insert. Qed.

Lemma rd_read_wf r off :
  rd_wf r → word (fst (RheaDma.calypso_rhea_dma_read r off)) ∧ rd_wf (snd (RheaDma.calypso_rhea_dma_read r off)).
Proof.
  intros H. pose proof H as (Hc & Ha & _). unfold RheaDma.calypso_rhea_dma_read.
  case_match; [done|]. case_match; [done|]. destruct (RheaDma.ch_of off) as [n|]; [|by split; [apply word_0|]].
  pose proof (get_ch_wf r n H) as Hn. cbv zeta. generalize dependent (RheaDma.get_ch r n). intros c Hn.
  assert (Hs : rd_wf (RheaDma.set_ch r n (c <| RheaDma.ctrl := clr (RheaDma.ctrl c)
    (Z.lor RheaDma.CTRL_IRQ_STATE RheaDma.CTRL_RHEA_ERROR) |>))).
  { apply set_ch_wf; [done|]. destruct Hn. constructor; cbn; auto with c54x. }
  destruct Hn. repeat case_match; cbn [fst snd]; auto with c54x.
Qed.

Lemma rd_write_wf r off v : rd_wf r → rd_wf (RheaDma.calypso_rhea_dma_write r off v).
Proof.
  intros H. pose proof H as (Hc & Ha & Hl). unfold RheaDma.calypso_rhea_dma_write. cbv zeta.
  assert (Hm : ∀ x m, word m → word (Z.land x m)) by (intros; by apply word_land).
  case_match. { split; [|done]. apply Hm. by split. }
  case_match. { split; [done|]. split; [|done]. apply Hm. by split. }
  destruct (RheaDma.ch_of off) as [n|]; [|done].
  pose proof (get_ch_wf r n H) as Hn. generalize dependent (RheaDma.get_ch r n). intros c Hn.
  assert (word 0x7FF ∧ word 0xFFF ∧ word 0x1FFF) as (? & ? & ?) by (by split_and!; split).
  repeat (case_match; [apply set_ch_wf; [done|]; destruct Hn; constructor; cbn [RheaDma.rad RheaDma.rdpth
    RheaDma.aad RheaDma.algth RheaDma.ctrl RheaDma.cur_off update_field]; auto with c54x|]). done.
Qed.

Lemma xio_read_word x pa v :
  Forall word (apic x) → Forall word (inth x) → xio_misc_read x pa = Some v → word v.
Proof.
  intros Ha Hi E. unfold xio_misc_read in E. case_match; [done|]. injection E as <-. case_match; by apply word_rd.
Qed.

(** ** The machine never leaves its well-formed states *)
Section safety.
  Context (osmo_a5 : Z → list Z → Z → option (list Z * list Z)) (e : A5.Env) (en : bool).

Lemma port_write_wf d s pa v :
  dev_wf d → wf s → word v → machine_wf (port_write osmo_a5 e d s pa v).
Proof.
  intros Hd Hs Hv. pose proof Hd as []. unfold port_write.
  destruct (A5.calypso_a5_portw _ _ _ pa v) as [q|] eqn:E.
  { assert (Hq : a5_wf q).
    { eapply a5_write_wf; [|exact Hv|exact E]. destruct dev_a6. constructor; try done.
      cbn. eauto with c54x. }
    split; cbn [fst snd]; [by constructor|]. apply wf_set_ifr; [done|by destruct Hq]. }
  pose proof (rif_write_wf (d_rif d) pa v dev_rif0 Hv) as Hr.
  destruct (Rif.calypso_rif_portw (d_rif d) pa v) as [[] r]; [split; [by constructor|done]|].
  unfold RheaDma.xio_write, xio_misc_write. destruct ((pa <? _) || _).
  - destruct (negb (is_apic pa) && _); [by split|]. split; [|done]. cbn [fst].
    destruct (is_apic pa); constructor; cbn; auto using wr_Forall.
  - split; [|done]. destruct (rd_write_wf (d_rd d) (pa - 0xFC00) v) as (? & ? & ?); [by split_and!|].
    by constructor.
Qed.

Lemma port_read_wf d pa :
  dev_wf d → from_option word True (fst (port_read e d pa)) ∧ dev_wf (snd (port_read e d pa)).
Proof.
  intros Hd. pose proof Hd as []. unfold port_read.
  destruct (A5.calypso_a5_portr e (d_a5 d) pa) as [v|] eqn:E.
  { split; [|done]. by eapply a5_read_word. }
  pose proof (rif_read_wf (d_rif d) pa dev_rif0) as [Hv Hr].
  destruct (Rif.calypso_rif_portr (d_rif d) pa) as [[v|] r]; [split; [done|by constructor]|].
  unfold RheaDma.xio_read. destruct ((pa <? _) || _).
  - split; [|done]. cbn [fst]. destruct (xio_misc_read (d_xio d) pa) as [v|] eqn:Ex; [|done].
    by eapply (xio_read_word (d_xio d)).
  - destruct (rd_read_wf (d_rd d) (pa - 0xFC00)) as (? & ? & ? & ?); [by split_and!|].
    destruct (RheaDma.calypso_rhea_dma_read _ _) as [v r']. split; [apply word_u16|by constructor].
Qed.

Lemma exec_port_wf d s op :
  dev_wf d → wf s → machine_wf (snd (exec_port osmo_a5 e d s op)).
Proof.
  intros Hd Hs. unfold exec_port, exec_portw, exec_portr.
  pose proof (wf_resolve_smem s op Hs) as [Ha H1]. destruct (resolve_smem s op) as [ad s1]. cbn [fst snd] in *.
  case_match; cbn [snd]; [apply port_write_wf; eauto with c54x|].
  pose proof (port_read_wf d (lk_operand s1) Hd) as [Hv Hd'].
  destruct (port_read e d (lk_operand s1)) as [[v|] d']; split; cbn [fst snd] in *; eauto with c54x.
Qed.

Lemma bc_tc_wf h s op : wf s → wf (snd (exec_bc_tc h s op)).
Proof.
  intros H. unfold exec_bc_tc. cbv zeta. repeat case_match; cbn [snd]; eauto using wf_arm_delay with c54x.
Qed.

Lemma machine_step_wf m : machine_wf m → machine_wf (machine_step osmo_a5 e en m).
Proof.
  destruct m as [d s]. intros [Hd Hs]. cbn [fst snd] in *. unfold machine_step.
  destruct (dsp_idle_fast_forward s); [split; [done|cbn [snd]; eauto with c54x]|]. cbv zeta.
  assert (H0 : wf (init_435b (replay_pending s))) by auto using wf_init_435b, wf_replay.
  revert H0. generalize (init_435b (replay_pending s)). intros s0 H0.
  assert (Hd1 : dev_wf (d <| d_hist := note_op (d_hist d) (prog_fetch s0 (pc s0)) |>)) by (destruct Hd; by constructor).
  revert Hd1. generalize (d <| d_hist := note_op (d_hist d) (prog_fetch s0 (pc s0)) |>). clear d Hd. intros d Hd.
  assert (Hx : machine_wf (snd (machine_exec osmo_a5 e en d s0))).
  { unfold machine_exec.
    pose proof (wf_irq_level_check en (RheaDma.calypso_rhea_dma_irq_level (d_rd d)) s0 H0) as Hl.
    destruct (c54x_irq_level_check _ _ s0) as [tk s1]. cbn [snd] in Hl. destruct tk; [by split|]. cbv zeta.
    assert (H2 : wf (s1 <| lk_used := false |>)) by eauto with c54x.
    pose proof (ok_exec_op _ (prog_fetch s1 (pc s1)) H2) as Hok.
    destruct (exec_op _ _) as [[n s']|]; [by split|]. case_match; [by apply exec_port_wf|].
    pose proof (bc_tc_wf (d_hist d) _ (prog_fetch s1 (pc s1)) H2).
    by destruct (exec_bc_tc _ _ _). }
  destruct (machine_exec osmo_a5 e en _ s0) as [n [d' s']]. destruct Hx as [Hd' Hs'].
  split; [done|]. by apply wf_settle.
Qed.

Lemma machine_run_wf n m : machine_wf m → machine_wf (machine_run osmo_a5 e en n m).
Proof.
  revert m. induction n as [|n IH]; intros m H; cbn [machine_run]; [done|].
  destruct (idle (snd m)); [done|]. by apply IH, machine_step_wf.
Qed.

End safety.

(** C15: the DSP machine is total and typed.  Whatever words lie in its program
    memory, whatever the devices and the cipher answer, any number of
    iterations of the fetch-execute loop, with interrupts, repeats, port
    transfers, the timer and saturation on the way, leads from a well-formed
    machine to a well-formed one: registers, memory cells and device registers
    are 16-bit words, the accumulators 40-bit values, the program page is below
    four.  Every opcode is executed by the decoder, by a port instruction or by
    a branch on TC. *)
Theorem dsp_machine_safe osmo_a5 e en n m :
  machine_wf m → machine_wf (machine_run osmo_a5 e en n m) ∧
  ∀ s op, exec_op s op = None → port_insn op ∨ tc_branch op.
Proof. intros H. split; [by apply machine_run_wf|apply exec_op_none]. Qed.

(** The machine at reset, and a program that hands a key word to the A5
    coprocessor, reads it back and branches on TC. *)
Definition dev_zero : devices := mkDev A5.a5_init Rif.rif_init RheaDma.rhea_dma_init xio_zero hist_zero.

Lemma dev_zero_wf : dev_wf dev_zero.
Proof.
  constructor; [constructor|constructor| | | | |];
    try (split; [discriminate|reflexivity]); try apply replicate_words; try apply Forall_nil_2.
  apply Forall_replicate, chan_reset_wf.
Qed.

Lemma dsp_machine_safe_witness :
  let s := c54x_zero <| pc := 0x7000 |> <| st1 := ST1_INTM |>
             <| data := <[TCR_ADDR := 0x10]> (<[0x60 := 0x1234]> ∅) |>
             <| prog := <[0x7000 := 0x7560]> (<[0x7001 := 0x2803]> (<[0x7002 := 0x7461]> (<[0x7003 := 0x2803]>
                (<[0x7004 := 0x6061]> (<[0x7005 := 0x1234]> (<[0x7006 := 0xF830]> (<[0x7007 := 0x7100]> ∅))))))) |> in
  let m := machine_run (λ _ _ _, None) (A5.mkEnv true true true 0 0 None) true 4 (dev_zero, s) in
  machine_wf m ∧ data_read (snd m) 0x61 = 0x1234 ∧ pc (snd m) = 0x7100.
Proof.
  intros s m.
  assert (Hw : machine_wf (dev_zero, s)).
  { split; [apply dev_zero_wf|].
    apply wf_set_prog; [apply wf_set_data; [apply wf_set_st1; [apply wf_set_pc; [apply wf_zero|lia]|]|]|].
    - split; [discriminate|reflexivity].
    - repeat (apply mem_ok_insert; [unfold word; lia|]). apply map_Forall_empty.
    - repeat (apply mem_ok_insert; [unfold word; lia|]). apply map_Forall_empty. }
  split; [exact (proj1 (dsp_machine_safe (λ _ _ _, None) (A5.mkEnv true true true 0 0 None) true 4 (dev_zero, s) Hw))|].
  split; vm_compute; reflexivity.
Defined.

End DspPorts.
