(* ===== verification/DspBlock.v ===== *)
(** * Repeated block moves of the DSP machine

    [RPT #k] before an instruction with operand [*ARn+] is how the firmware
    copies: program memory to data memory with READA, a device port to data
    memory with PORTR.  The block loop is proved once, for any instruction that
    stores one word behind a post-incremented pointer, over the machine of
    [DspPorts] (the core, the fetch-execute loop and the devices). *)
From stdpp Require Import gmap.
From S2P Require Import Prelude C54xAddr C54xState C54xDecode C54xIrq C54xAlu C54xFlow C54xPar C54xMove C54xExec C54xRun C54xSeq A5 Rif RheaDma DspPorts.

Module DspBlock.
Import C54xAddr C54xState C54xDecode C54xIrq C54xAlu C54xFlow C54xPar C54xMove C54xExec C54xRun C54xSeq DspPorts.
#[local] Existing Instances A5.a5_eta Rif.rif_eta RheaDma.rd_eta.

(** What a repeated instruction leaves alone, and what a move does. *)
Definition loopst (s : C54xState) :=
  ((st1 s, pmst s, xpc s, pc s, prog s), (idle s, rpt_active s, rptb_active s, delay_slots s),
   mget (data s) TCR_ADDR).
Definition still (s : C54xState) :=
  (loopst s, ((a s, b s, t s, sp s, bk s, st0 s), (trn s, brc s, rsa s, rea s, imr s, ifr s))).

(** The core before [RPT #k; op]: undisturbed, in native addressing mode; the
    program may be in ROM or in the overlay. *)
Record block_start (s : C54xState) (p : Z) : Prop := mkBlock {
  blk_quiet : quiet s;
  blk_pc : pc s = p;
  blk_range : 0 ≤ p < 0xa4e0;
  blk_delay : delay_slots s = 0;
  blk_cmpt : has (st1 s) ST1_CMPT = false;
  blk_ar : length (ar s) = 8%nat
}.

(** ** [RPT #k; op] *)
Section rpt.
  Context (osmo_a5 : Z → list Z → Z → option (list Z * list Z)) (e : A5.Env) (en : bool).

(** The instruction [op] alone, and the record made before it. *)
Definition insn (d : devices) (s : C54xState) (op : Z) : Z * machine :=
  match exec_op (s <| lk_used := false |>) op with
  | Some (c, s') => (c, (d, s'))
  | None =>
    if Z.land op 0xFE00 =? 0x7400 then exec_port osmo_a5 e d (s <| lk_used := false |>) op
    else let '(c, s') := exec_bc_tc (d_hist d) (s <| lk_used := false |>) op in (c, (d, s'))
  end.
Definition noted (d : devices) (op : Z) : devices := d <| d_hist := note_op (d_hist d) op |>.
Definition line_low (d : devices) : Prop := en && RheaDma.calypso_rhea_dma_irq_level (d_rd d) = false.

(** An iteration with the interrupts masked and the DMA line low is the
    instruction and what follows it. *)
Lemma machine_step_plain d s :
  0 ≤ pc s < 0xa4e4 → has (st1 s) ST1_INTM = true → line_low d →
  machine_step osmo_a5 e en (d, s) =
  let '(c, (d', s')) := insn (noted d (prog_fetch s (pc s))) s (prog_fetch s (pc s)) in (d', settle s c s').
Proof.
  intros Hp Hi Hl. unfold machine_step, line_low in *. rewrite no_fast_forward by lia. cbv zeta.
  assert (Er : replay_pending s = s) by (unfold replay_pending; by rewrite Hi).
  assert (Ein : init_435b s = s).
  { unfold init_435b. rewrite u16_small, (proj2 (Z.eqb_neq (pc s) 0xa4e4)) by lia. done. }
  rewrite Er, Ein. fold (noted d (prog_fetch s (pc s))).
  unfold machine_exec, c54x_irq_level_check. change (d_rd (noted d (prog_fetch s (pc s)))) with (d_rd d).
  destruct en; cbn [negb andb] in *; [rewrite Hl, Hi|]; reflexivity.
Qed.

Lemma machine_run_app i j m :
  machine_run osmo_a5 e en (i + j) m = machine_run osmo_a5 e en j (machine_run osmo_a5 e en i m).
Proof.
  revert m. induction i as [|i IH]; intros m; [done|]. cbn [machine_run Nat.add].
  destruct (idle (snd m)) eqn:E; [|apply IH]. destruct j; cbn [machine_run]; by rewrite ?E.
Qed.

Lemma rpt_decode s j : 0 ≤ j < 256 → exec_op s (0xEC00 + j) = Some (0, start_rpt s j 1).
Proof.
  intros Hj. revert s. apply (range_split (λ j, ∀ s, exec_op s (0xEC00 + j) = Some (0, start_rpt s j 1)) 256);
    [lia|]. forall_cases; reflexivity.
Qed.

Lemma rpt_count_ovm a0 b0 s : rpt_count (ovm_pass a0 b0 s) = rpt_count s.
Proof. unfold ovm_pass, ovm_acc, set_acc. cbv zeta. repeat case_if; done. Qed.

Context (s0 : C54xState) (p k c : Z) (J : Z → devices → C54xState → Prop).
Hypothesis Hs0 : block_start s0 p.
Hypothesis Hk : 0 ≤ k < 256.
Hypothesis Hc : 0 < c < 4.

Definition looping (s : C54xState) : Prop :=
  loopst s = loopst (s0 <| rpt_active := true |> <| pc := p + 1 |>).

Lemma looping_facts s : looping s →
  pc s = p + 1 ∧ has (st1 s) ST1_INTM = true ∧ has (st1 s) ST1_CMPT = false ∧ idle s = false ∧
  rpt_active s = true ∧ rptb_active s = false ∧ delay_slots s = 0 ∧
  has (mget (data s) TCR_ADDR) TCR_TSS = true ∧ st1 s = st1 s0.
Proof.
  intros E. destruct Hs0 as [[] ? ? ? ? _]. injection E as E1 Ep Ex Epc Epr Ei Er Erb Ed Et.
  change (st1 (s0 <| rpt_active := true |> <| pc := p + 1 |>)) with (st1 s0) in E1.
  split_and!; congruence.
Qed.

(** [J i] holds after [i] executions. *)
Hypothesis HJ : ∀ i d s, J i d s → looping s ∧ line_low d ∧ prog_fetch s (p + 1) = prog_fetch s0 (p + 1).
Hypothesis Hcnt : ∀ i d s v, J i d s → J i d (s <| rpt_count := v |>).
Hypothesis Hhist : ∀ i d s op, J i d s → J i (noted d op) s.
Hypothesis Hstep : ∀ i d s, 0 ≤ i ≤ k → J i d s →
  ∃ d' s', insn d s (prog_fetch s0 (p + 1)) = (c, (d', s')) ∧ J (i + 1) d' (ovm_pass (a s) (b s) s') ∧
    rpt_count s' = rpt_count s.

Lemma rpt_step i d s :
  0 ≤ i ≤ k → J i d s →
  ∃ d' s', J (i + 1) d' s' ∧ machine_step osmo_a5 e en (d, s) =
    (d', if 0 <? rpt_count s then s' <| rpt_count := rpt_count s - 1 |>
         else finish (p + 1) 0 c (s' <| rpt_active := false |> <| par_set := false |>)).
Proof.
  intros Hi Hj. destruct (HJ i d s Hj) as (Hl & Hlow & Ef).
  destruct (looping_facts s Hl) as (Ep & Ei & _ & _ & Er & _ & Ed & _ & _).
  destruct (Hstep i (noted d (prog_fetch s0 (p + 1))) s Hi) as (d' & s' & E & Hj' & En); [by apply Hhist|].
  eexists d', _. split; [exact Hj'|]. destruct (HJ _ _ _ Hj') as (Hl' & _).
  destruct (looping_facts _ Hl') as (_ & _ & _ & Eid & Er' & _).
  pose proof (blk_range _ _ Hs0) as Hr.
  rewrite machine_step_plain by (first [lia|done]). rewrite Ep, Ef, E.
  unfold settle. cbv zeta. rewrite Er', Eid, Er, rpt_count_ovm, En, Ep, Ed, (u16_small (p + 1)) by lia. done.
Qed.

Lemma rpt_run j i d s :
  0 ≤ i → i + Z.of_nat j ≤ k → J i d s → rpt_count s = k - i →
  ∃ d' s', machine_run osmo_a5 e en j (d, s) = (d', s') ∧ J (i + Z.of_nat j) d' s' ∧
    rpt_count s' = k - (i + Z.of_nat j).
Proof.
  revert i d s. induction j as [|j IH]; intros i d s Hi Hj Hv Hr.
  - exists d, s. rewrite Z.add_0_r. done.
  - destruct (rpt_step i d s ltac:(lia) Hv) as (d1 & s1 & Hv1 & E).
    rewrite (proj2 (Z.ltb_lt 0 (rpt_count s))) in E by lia.
    destruct (looping_facts s (proj1 (HJ i d s Hv))) as (_ & _ & _ & Eid & _).
    destruct (IH (i + 1) d1 (s1 <| rpt_count := rpt_count s - 1 |>)) as (d' & s' & E' & Hv' & Hr');
      [lia|lia|by apply Hcnt|cbn; lia|].
    exists d', s'. cbn [machine_run snd]. rewrite Eid, E, E'.
    replace (i + Z.of_nat (S j)) with (i + 1 + Z.of_nat j) by lia. done.
Qed.

(** The states [RPT #k] leaves and the last execution ends in. *)
Definition repeating : C54xState := start_rpt (s0 <| lk_used := false |>) k 1.
Definition ended (s : C54xState) : C54xState :=
  s <| rpt_active := false |> <| par_set := false |> <| pc := p + 1 + c |> <| insn_count := u32 (insn_count s + 1) |>.

Lemma looping_start : looping repeating.
Proof.
  destruct Hs0 as [[] Hp Hr ? ? Har]. unfold looping, repeating, start_rpt, loopst. cbn. rewrite Hp.
  unfold u32. by rewrite Z.mod_small by lia.
Qed.

Lemma rpt_finish s : looping s →
  finish (p + 1) 0 c (s <| rpt_active := false |> <| par_set := false |>) = ended s.
Proof.
  intros Hl. destruct (looping_facts s Hl) as (Ep & Ei & _ & Eid & _ & Erb & Ed & Et & _).
  pose proof (blk_range _ _ Hs0) as Hr.
  set (s1 := s <| rpt_active := false |> <| par_set := false |>).
  assert (Hq : quiet s1) by (constructor; done).
  rewrite finish_quiet by (done || (change (pc s1) with (pc s); lia)).
  assert (Eds : delay_settle 0 c (s1 <| pc := pc s1 + c |>) = s1 <| pc := pc s1 + c |>).
  { unfold delay_settle. by rewrite andb_false_r. }
  rewrite Eds. change (pc s1) with (pc s). by rewrite Ep.
Qed.

(** From the fetch of RPT to the instruction behind the repeated one. *)
Lemma rpt_total d :
  prog_fetch s0 p = 0xEC00 + k → rpt_active s0 = false → J 0 d repeating →
  ∃ d' s', J (k + 1) d' s' ∧ machine_run osmo_a5 e en (Z.to_nat k + 2) (d, s0) = (d', ended s').
Proof.
  intros Hf Hra Hv0. pose proof Hs0 as [[] Hp Hr ? ? Har]. destruct (HJ _ _ _ Hv0) as (_ & Hlow & _).
  assert (E1 : machine_step osmo_a5 e en (d, s0) = (noted d (0xEC00 + k), repeating)).
  { rewrite machine_step_plain by (first [lia|done]). rewrite Hp, Hf. unfold insn. rewrite rpt_decode by lia.
    unfold settle. rewrite ovm_pass_same by done. cbv zeta. fold repeating.
    change (rpt_active repeating) with true. change (idle repeating) with (idle s0). by rewrite q_idle0, Hra. }
  destruct (rpt_run (Z.to_nat k) 0 (noted d (0xEC00 + k)) repeating) as (d1 & s1 & E2 & Hv1 & Hc1);
    [lia|lia|by apply Hhist|cbn; lia|].
  rewrite Z2Nat.id, Z.add_0_l in Hv1, Hc1 by lia.
  destruct (rpt_step k d1 s1 ltac:(lia) Hv1) as (d2 & s2 & Hv2 & E3).
  rewrite (proj2 (Z.ltb_ge 0 (rpt_count s1))), rpt_finish in E3 by (lia || by eapply HJ).
  exists d2, s2. split; [done|].
  replace (Z.to_nat k + 2)%nat with (S (Z.to_nat k + 1)) by lia. cbn [machine_run snd].
  rewrite q_idle0, E1, machine_run_app, E2. cbn [machine_run snd].
  destruct (looping_facts s1 (proj1 (HJ _ _ _ Hv1))) as (_ & _ & _ & -> & _). by rewrite E3.
Qed.

End rpt.

(** ** Block moves *)
Lemma still_write s ad v : plain_cell ad = true →
  still (data_write s ad v) = still s ∧ ar (data_write s ad v) = ar s ∧
  rpt_count (data_write s ad v) = rpt_count s ∧ rpt_fresh (data_write s ad v) = rpt_fresh s ∧
  lk_used (data_write s ad v) = lk_used s.
Proof.
  intros H. pose proof (mget_plain_write s ad v H) as Et. revert Et.
  unfold plain_cell in H. bool_prop.
  assert (apm_cell ad = false ∧ drom_lut ad = false) as [Ea El] by done.
  unfold still, loopst, data_write. rewrite Ea, !(proj2 (Z.eqb_neq ad _)) by done. cbn [orb].
  unfold data_write_locked. rewrite El, (proj2 (Z.eqb_neq ad TCR_ADDR)) by done.
  clear El Ea. destruct (Z.ltb_spec ad 0x20) as [?|_]; [lia|]. intros ->.
  repeat match goal with |- context [ad =? ?c] => destruct (Z.eqb_spec ad c) as [->|] end;
    cbn [orb]; try (unfold dms_write; destruct (_ <? 24)); try (split_and!; reflexivity).
  unfold api_write. destruct (in_api ad); split_and!; reflexivity.
Qed.

(** The block does not overwrite its own instructions, should they lie in the
    overlay. *)
Definition code_clear (s : C54xState) (p dst k : Z) : Prop :=
  ∀ x, p ≤ x ≤ p + 2 → in_ovly s x = true → ¬ dst ≤ x ≤ dst + k.

Lemma code_clear_rom s p dst k : has (pmst s) PMST_OVLY = false → code_clear s p dst k.
Proof. intros H x _. unfold in_ovly. by rewrite H. Qed.

Section block.
  Context (osmo_a5 : Z → list Z → Z → option (list Z * list Z)) (e : A5.Env) (en : bool).
  Context (s0 : C54xState) (p k n dst : Z) (val : Z → Z).
  Hypothesis Hs0 : block_start s0 p.
  Hypothesis Hk : 0 ≤ k < 256.
  Hypothesis Hn : 0 ≤ n < 8.
  Hypothesis Hdst : ∀ i, 0 ≤ i ≤ k → plain_cell (dst + i) = true.
  Hypothesis Hcode : code_clear s0 p dst k.

(** The state after [i] transfers: [val] of the words moved so far. *)
Record moved (i : Z) (s : C54xState) : Prop := mkMoved {
  mv_still : still s = still (s0 <| rpt_active := true |> <| pc := p + 1 |>);
  mv_ar8 : length (ar s) = 8%nat;
  mv_ar : arx s n = u16 (dst + i);
  mv_other : ∀ m, 0 ≤ m < 8 → m ≠ n → arx s m = arx s0 m;
  mv_code : ∀ x, p ≤ x ≤ p + 2 → prog_fetch s x = prog_fetch s0 x;
  mv_mem : ∀ x, 0x20 ≤ x →
    data_read s x = if (dst <=? x) && (x <? dst + i) then val (x - dst) else data_read s0 x
}.

Lemma moved_facts i s : moved i s →
  looping s0 p s ∧ pc s = p + 1 ∧ a s = a s0 ∧ b s = b s0 ∧ has (st1 s) ST1_CMPT = false ∧
  rpt_active s = true ∧ pmst s = pmst s0 ∧ xpc s = xpc s0 ∧ prog s = prog s0.
Proof.
  intros [E _ _ _ _ _]. assert (Hl : looping s0 p s) by exact (f_equal fst E).
  pose proof (f_equal snd E) as E2. injection E2 as Ea Eb _ _ _ _ _ _ _ _ _ _.
  pose proof Hl as Hl'. injection Hl' as _ Epm Exp _ Epr _ _ _ _ _.
  destruct (looping_facts s0 p Hs0 s Hl) as (? & _ & ? & _ & ? & _). split_and!; done.
Qed.

(** One transfer: the pointer moves on and the word goes where it was. *)
Lemma moved_store i s s' w :
  moved i s → 0 ≤ i ≤ k → w = val i →
  still s' = still s → ar s' = wr (ar s) n (u16 (dst + i + 1)) → dmem s' = dmem s →
  moved (i + 1) (data_write s' (dst + i) w).
Proof.
  intros Hm Hi -> F1 F2 F3. pose proof (moved_facts i s Hm) as (_ & _ & _ & _ & _ & _ & Epm & Exp & Epr).
  destruct Hm as [E1 E2 E3 E5 E6 E4]. destruct (still_write s' (dst + i) (val i) (Hdst i Hi)) as (W1 & W2 & _).
  constructor.
  - by rewrite W1, F1.
  - by rewrite W2, F2, length_wr.
  - unfold arx. rewrite W2, F2, rd_wr_eq by (unfold zlen; lia). f_equal. lia.
  - intros m Hm Hne. unfold arx. rewrite W2, F2, rd_wr_ne by lia. by apply E5.
  - intros x Hx. rewrite <- (E6 x Hx). pose proof (blk_range _ _ Hs0). pose proof (f_equal fst W1) as V1. pose proof (f_equal fst F1) as V2.
    injection V1 as _ V3 V4 _ V5 _ _ _ _ _. injection V2 as _ V6 V7 _ V8 _ _ _ _ _. injection F3 as F4 _ _.
    unfold prog_fetch, in_ovly, c54x_prog_xlate. rewrite V3, V4, V5, V6, V7, V8, u16_small by lia.
    destruct (data_write_plain s' (dst + i) (val i) (Hdst i Hi)) as (-> & _). rewrite F4.
    destruct (_ && _ && _) eqn:Eo; [|done]. unfold mget. rewrite lookup_insert_ne; [done|].
    intros <-. apply (Hcode (dst + i)); [lia|unfold in_ovly; by rewrite <- Epm|lia].
  - intros x Hx. rewrite data_cell_write by auto. rewrite (data_read_dmem s s'), E4 by done.
    destruct (Z.eqb_spec x (dst + i)) as [->|Hne].
    + rewrite (proj2 (Z.leb_le dst _)), (proj2 (Z.ltb_lt _ (dst + (i + 1)))) by lia. cbn. f_equal. lia.
    + replace (x <? dst + (i + 1)) with (x <? dst + i); [done|].
      destruct (Z.ltb_spec x (dst + i)), (Z.ltb_spec x (dst + (i + 1))); (done || lia).
Qed.

Lemma moved_count i s v : moved i s → moved i (s <| rpt_count := v |>).
Proof.
  intros [E1 E2 E3 E5 E6 E4]. constructor; [exact E1|exact E2|exact E3|exact E5|exact E6|].
  intros x Hx. rewrite (data_read_dmem s) by done. by apply E4.
Qed.

(** The block loop.  [Inv i d s] is what the instruction needs besides
    [moved]; [c] its length. *)
Context (c : Z) (Inv : Z → devices → C54xState → Prop).
Hypothesis Hc : 0 < c < 4.
Hypothesis Hlvl : ∀ i d s, Inv i d s → line_low en d.
Hypothesis Hcnt : ∀ i d s v, Inv i d s → Inv i d (s <| rpt_count := v |>).
Hypothesis Hhist : ∀ i d s op, Inv i d s → Inv i (noted d op) s.
Hypothesis Hstep : ∀ i d s, 0 ≤ i ≤ k → moved i s → Inv i d s →
  ∃ d' s', insn osmo_a5 e d s (prog_fetch s0 (p + 1)) = (c, (d', s')) ∧ moved (i + 1) s' ∧ Inv (i + 1) d' s' ∧
    rpt_count s' = rpt_count s.

Lemma moved_start : arx s0 n = dst → u16 dst = dst → moved 0 (repeating s0 k).
Proof.
  intros Ed Eu. pose proof (looping_start s0 p k Hs0) as Hl. destruct Hs0 as [[] Hp Hr ? ? Har].
  constructor; [|exact Har| | | |].
  - unfold still. by rewrite Hl.
  - rewrite Z.add_0_r, Eu. exact Ed.
  - done.
  - done.
  - intros x Hx. rewrite (data_read_dmem s0) by done.
    rewrite Z.add_0_r. destruct (Z.leb_spec dst x), (Z.ltb_spec x dst); (done || lia).
Qed.

(** [RPT #k; op] from the fetch of RPT to the instruction behind the block. *)
Lemma block_total d :
  prog_fetch s0 p = 0xEC00 + k → rpt_active s0 = false → arx s0 n = dst → Inv 0 d (repeating s0 k) →
  ∃ d' s' s1, machine_run osmo_a5 e en (Z.to_nat k + 2) (d, s0) = (d', s') ∧ Inv (k + 1) d' s1 ∧
    pc s' = p + 1 + c ∧ still s' = still (s0 <| pc := p + 1 + c |>) ∧ arx s' n = u16 (dst + k + 1) ∧
    (∀ m, 0 ≤ m < 8 → m ≠ n → arx s' m = arx s0 m) ∧
    ∀ x, 0x20 ≤ x →
      data_read s' x = if (dst <=? x) && (x <=? dst + k) then val (x - dst) else data_read s0 x.
Proof.
  intros Hf Hra Had Hv0.
  assert (Hu : u16 dst = dst).
  { pose proof (plain_cell_range _ (Hdst 0 ltac:(lia))). apply u16_small. lia. }
  destruct (rpt_total osmo_a5 e en s0 p k c (λ i d s, moved i s ∧ Inv i d s) Hs0 Hk Hc) with (d := d)
    as (d' & s' & [Hm Hv] & E); try done.
  - intros i d' s' [Hm Hv]. split; [by eapply moved_facts|]. split; [by eapply Hlvl|]. apply (mv_code _ _ Hm). lia.
  - intros i d' s' v [Hm Hv]. split; [by apply moved_count|by apply Hcnt].
  - intros i d' s' op [Hm Hv]. split; [done|by apply Hhist].
  - intros i d' s' Hi [Hm Hv]. destruct (Hstep i d' s' Hi Hm Hv) as (d2 & s2 & E2 & Hm2 & Hv2 & Hc2).
    exists d2, s2. split; [done|]. destruct (moved_facts _ _ Hm) as (_ & _ & Ea & Eb & _).
    destruct (moved_facts _ _ Hm2) as (_ & _ & Ea2 & Eb2 & _). rewrite ovm_pass_same by congruence. done.
  - split; [by apply moved_start|done].
  - exists d', (ended p c s'), s'. split; [exact E|]. split; [exact Hv|]. split; [done|]. split.
    { pose proof (mv_still _ _ Hm) as Es. unfold still, loopst in Es |- *. cbn in Es |- *. congruence. }
    split; [|split; [exact (mv_other _ _ Hm)|]].
    + change (arx (ended p c s') n) with (arx s' n). rewrite (mv_ar _ _ Hm). f_equal. lia.
    + intros x Hx. rewrite (data_read_dmem s') by done. rewrite (mv_mem _ _ Hm) by done. do 2 f_equal.
      destruct (Z.ltb_spec x (dst + (k + 1))), (Z.leb_spec x (dst + k)); (done || lia).
Qed.

End block.

(** The operand [*ARn+] in native mode. *)
Lemma smem_postinc s op n :
  has op 0x80 = true → Z.land (Z.shiftr op 3) 0x0F = 2 → Z.land op 0x07 = n → has (st1 s) ST1_CMPT = false →
  resolve_smem s op = (arx s n, set_ar s n (u16 (arx s n + 1))).
Proof.
  intros E1 E2 E3 Hc. unfold resolve_smem. rewrite E1, E2, E3, Hc. cbn [andb ar_modify Z.eqb Pos.eqb].
  change (st1 (set_ar s n (u16 (arx s n + 1)))) with (st1 s). by rewrite Hc.
Qed.

Lemma postinc_fields hi n :
  hi = 0x7E90 ∨ hi = 0x7490 → 0 ≤ n < 8 →
  has (hi + n) 0x80 = true ∧ Z.land (Z.shiftr (hi + n) 3) 0x0F = 2 ∧ Z.land (hi + n) 0x07 = n.
Proof.
  intros Hh Hn. apply (range_split (λ n, has (hi + n) 0x80 = true ∧
    Z.land (Z.shiftr (hi + n) 3) 0x0F = 2 ∧ Z.land (hi + n) 0x07 = n) 8); [lia|].
  destruct Hh as [-> | ->]; forall_cases; split_and!; reflexivity.
Qed.

Lemma reada_decode s n : 0 ≤ n < 8 → exec_op s (0x7E90 + n) = retire (exec_reada s (0x7E90 + n)).
Proof.
  intros Hn. revert s. apply (range_split (λ n, ∀ s, exec_op s (0x7E90 + n) = retire (exec_reada s (0x7E90 + n))) 8);
    [lia|]. forall_cases; reflexivity.
Qed.

Lemma prog_read_u16 s x : prog_read s (u16 x) = prog_read s x.
Proof. unfold prog_read. by rewrite !land_ffff, u16_small by apply u16_range. Qed.

(** The pointer READA works with, and one transfer. *)
Definition reada_inv (s0 : C54xState) (i : Z) (s : C54xState) : Prop :=
  if i =? 0 then rpt_fresh s = true else rpt_fresh s = false ∧ mvpd_src s = u16 (Z.land (a s0) 0xFFFF + i).

Lemma reada_step s0 p k n dst i s :
  block_start s0 p → has (pmst s0) PMST_OVLY = false → 0 ≤ n < 8 → (∀ i, 0 ≤ i ≤ k → plain_cell (dst + i) = true) → 0 ≤ i ≤ k →
  let val := λ j, prog_read s0 (Z.land (a s0) 0xFFFF + j) in
  moved s0 p n dst val i s → reada_inv s0 i s →
  ∃ s', exec_op (s <| lk_used := false |>) (0x7E90 + n) = Some (1, s') ∧
    moved s0 p n dst val (i + 1) s' ∧ reada_inv s0 (i + 1) s' ∧ rpt_count s' = rpt_count s.
Proof.
  intros Hs0 Ho Hn Hdst Hi val Hm Hv.
  destruct (moved_facts s0 p n dst val Hs0 i s Hm) as (_ & _ & Ea & _ & Ec & Er & Ep1 & Ep2 & Ep3).
  destruct (postinc_fields 0x7E90 n (or_introl eq_refl) Hn) as (F1 & F2 & F3).
  pose proof (plain_cell_range _ (Hdst i Hi)) as Hr.
  assert (Had : arx s n = dst + i) by (rewrite (mv_ar _ _ _ _ _ _ _ Hm); apply u16_small; lia).
  rewrite reada_decode by done. unfold exec_reada.
  match goal with |- context [resolve_smem ?x _] => set (s1 := x) end.
  rewrite (smem_postinc s1 _ n F1 F2 F3 Ec). change (arx s1 n) with (arx s n). rewrite Had.
  set (s2 := set_ar s1 n (u16 (dst + i + 1))).
  set (psrc := u16 (Z.land (a s0) 0xFFFF + i)).
  assert (Ep : ∃ s3, rpt_pointer s2 (Z.land (a s2) 0xFFFF) = (psrc, s3) ∧ still s3 = still s ∧ ar s3 = ar s2 ∧
                     dmem s3 = dmem s ∧ rpt_fresh s3 = false ∧ rpt_count s3 = rpt_count s ∧ lk_used s3 = false).
  { unfold rpt_pointer. change (rpt_active s2) with (rpt_active s). change (rpt_fresh s2) with (rpt_fresh s).
    rewrite Er. cbn [negb orb]. unfold reada_inv in Hv. change (a s2) with (a s). rewrite Ea. unfold psrc.
    destruct (Z.eqb_spec i 0) as [->|]; [rewrite Hv|destruct Hv as [Hv Hsrc]; rewrite Hv].
    - rewrite Z.add_0_r, u16_small by (rewrite land_ffff; apply u16_range). by eexists.
    - change (mvpd_src s2) with (mvpd_src s). rewrite Hsrc. by eexists. }
  destruct Ep as (s3 & -> & G1 & G2 & G3 & G4 & G5 & G6).
  assert (Ew : prog_read s3 psrc = val i).
  { unfold val, psrc. rewrite prog_read_u16, <- !prog_fetch_read. pose proof (f_equal fst G1) as G7.
    injection G7 as _ Epm Exp _ Epr _ _ _ _ _. apply fetch_rom; congruence. }
  destruct (still_write s3 (dst + i) (prog_read s3 psrc) (Hdst i Hi)) as (W1 & _ & W3 & W4 & W5).
  unfold retire, consumed. cbn [lk_used update_field]. rewrite W5, G6. eexists. split; [reflexivity|].
  pose proof (moved_store s0 p k n dst val Hs0 Hn Hdst (code_clear_rom _ _ _ _ Ho) i s s3 _ Hm Hi Ew G1 G2 G3) as [M1 M2 M3 M5 M6 M4].
  split; [constructor; [exact M1|exact M2|exact M3|exact M5|exact M6|intros x Hx; rewrite (data_read_dmem (data_write s3 (dst + i) (prog_read s3 psrc))) by done; by apply M4]|].
  split; [|exact (eq_trans W3 G5)]. unfold reada_inv. rewrite (proj2 (Z.eqb_neq (i + 1) 0)) by lia.
  split; [exact (eq_trans W4 G4)|]. cbn [mvpd_src update_field]. unfold psrc, u16. rewrite Zplus_mod_idemp_l. f_equal. lia.
Qed.

(** [RPT #k; READA *ARn+] loads a table.  Run by the machine from any
    undisturbed state without overlay, the two instructions take k+2 iterations and copy the
    k+1 program words from address A on to the data cells from ARn on; no
    other data cell, accumulator or device changes, ARn points behind the
    table and the instruction behind the block is next. *)
Theorem rpt_reada_copies osmo_a5 e en d s p k n :
  block_start s p → has (pmst s) PMST_OVLY = false → rpt_active s = false → 0 ≤ k < 256 → 0 ≤ n < 8 →
  en && RheaDma.calypso_rhea_dma_irq_level (d_rd d) = false →
  prog_fetch s p = 0xEC00 + k → prog_fetch s (p + 1) = 0x7E90 + n →
  let dst := arx s n in
  (∀ i, 0 ≤ i ≤ k → plain_cell (dst + i) = true) →
  ∃ h s', machine_run osmo_a5 e en (Z.to_nat k + 2) (d, s) = (d <| d_hist := h |>, s') ∧ pc s' = p + 2 ∧
    still s' = still (s <| pc := p + 2 |>) ∧ arx s' n = u16 (dst + k + 1) ∧
    ∀ x, 0x20 ≤ x → data_read s' x =
      if (dst <=? x) && (x <=? dst + k) then prog_read s (Z.land (a s) 0xFFFF + (x - dst)) else data_read s x.
Proof.
  intros Hs Ho Hra Hk Hn Hl Hf1 Hf2 dst Hdst.
  destruct (block_total osmo_a5 e en s p k n dst (λ j, prog_read s (Z.land (a s) 0xFFFF + j)) Hs Hk Hdst
              1 (λ i d' s', (∃ h, d' = d <| d_hist := h |>) ∧ reada_inv s i s')) with (d := d)
    as (d' & s' & s1 & E & [[h ->] _] & Epc & Es & Ear & _ & Em); try done.
  - intros i d' s' [[h ->] _]. exact Hl.
  - intros i d' s' op [[h ->] Hv]. split; [by eexists|done].
  - intros i d' s' Hi Hm [Hd Hv].
    destruct (reada_step s p k n dst i s' Hs Ho Hn Hdst Hi Hm Hv) as (s2 & E2 & Hm2 & Hv2 & Hc2).
    exists d', s2. unfold insn. rewrite Hf2, E2. done.
  - split; [exists (d_hist d); by destruct d|done].
  - exists h, s'. replace (p + 2) with (p + 1 + 1) by lia. split_and!; done.
Qed.

(** Four words of a table at 0x7010 to the data cells at 0x4387. *)
Lemma rpt_reada_copies_witness :
  let s := set_ar (c54x_zero <| a := 0x7010 |> <| pc := 0x7000 |> <| st1 := ST1_INTM |>
             <| data := <[TCR_ADDR := 0x10]> ∅ |>
             <| prog := <[0x7000 := 0xEC03]> (<[0x7001 := 0x7E91]>
                (<[0x7010 := 11]> (<[0x7011 := 22]> (<[0x7012 := 33]> (<[0x7013 := 44]> ∅))))) |>) 1 0x4387 in
  let d := dev_zero in
  ∃ h s', machine_run (λ _ _ _, None) (A5.mkEnv true true true 0 0 None) true 5 (d, s) = (d <| d_hist := h |>, s') ∧
    pc s' = 0x7002 ∧ map (data_read s') [0x4387; 0x4388; 0x4389; 0x438A; 0x438B] = [11; 22; 33; 44; 0].
Proof.
  intros s d.
  destruct (rpt_reada_copies (λ _ _ _, None) (A5.mkEnv true true true 0 0 None) true d s 0x7000 3 1)
    as (h & s' & E & Ep & _ & _ & Em).
  - constructor; [constructor; vm_compute; reflexivity|reflexivity|lia|reflexivity|vm_compute; reflexivity|reflexivity].
  - reflexivity.
  - reflexivity.
  - lia.
  - lia.
  - vm_compute. reflexivity.
  - vm_compute. reflexivity.
  - vm_compute. reflexivity.
  - intros i Hi. apply (range_split (λ i, plain_cell (0x4387 + i) = true) 4); [lia|].
    forall_cases; vm_compute; reflexivity.
  - exists h, s'. split; [exact E|]. split; [exact Ep|]. cbn [map].
    rewrite !Em by lia. vm_compute. reflexivity.
Defined.

(** ** The receiver read through its port *)
Lemma portr_decode s n : 0 ≤ n < 8 →
  exec_op s (0x7490 + n) = None ∧ Z.land (0x7490 + n) 0xFF00 = 0x7400 ∧ Z.land (0x7490 + n) 0xFE00 = 0x7400.
Proof.
  intros Hn. revert s. apply (range_split (λ n, ∀ s, exec_op s (0x7490 + n) = None ∧
    Z.land (0x7490 + n) 0xFF00 = 0x7400 ∧ Z.land (0x7490 + n) 0xFE00 = 0x7400) 8);
    [lia|]. forall_cases; intros ?; split_and!; reflexivity.
Qed.

Lemma port_read_drr e d :
  Rif.rif_ok (d_rif d) → Rif.rif_queue (d_rif d) ≠ [] →
  ∃ r, port_read e d 1 = (Some (hd 0 (Rif.rif_queue (d_rif d))), d <| d_rif := r |>) ∧
    Rif.rif_ok r ∧ Rif.rif_queue r = tail (Rif.rif_queue (d_rif d)).
Proof.
  intros Hok Hne. unfold port_read.
  assert (A5.calypso_a5_portr e (d_a5 d) 1 = None) as ->.
  { unfold A5.calypso_a5_portr. by destruct (negb (A5.calypso_a5_on e)). }
  pose proof (Rif.drr_spec (d_rif d) Hok) as H. change Rif.RIF_XIO_DRR with 1 in H.
  destruct (Rif.calypso_rif_portr (d_rif d) 1) as [v r]. destruct H as (H1 & H2 & -> & _).
  exists r. split; [|done]. by destruct (Rif.rif_queue (d_rif d)).
Qed.

Definition drr_inv (d0 : devices) (i : Z) (d : devices) : Prop :=
  ∃ r h, d = d0 <| d_rif := r |> <| d_hist := h |> ∧ Rif.rif_ok r ∧
    Rif.rif_queue r = drop (Z.to_nat i) (Rif.rif_queue (d_rif d0)).

Lemma drop_rd (q : list Z) i : 0 ≤ i < zlen q →
  hd 0 (drop (Z.to_nat i) q) = rd q i ∧ tail (drop (Z.to_nat i) q) = drop (Z.to_nat (i + 1)) q ∧
  drop (Z.to_nat i) q ≠ [].
Proof.
  unfold zlen, rd. intros Hi. destruct (lookup_lt_is_Some_2 q (Z.to_nat i)) as [v Hv]; [lia|].
  replace (Z.to_nat (i + 1)) with (S (Z.to_nat i)) by lia. rewrite (drop_S q v _ Hv), Hv. done.
Qed.

Lemma portr_step osmo_a5 e d0 s0 p k n dst i d s :
  block_start s0 p → prog_fetch s0 (p + 2) = 1 → 0 ≤ n < 8 →
  (∀ i, 0 ≤ i ≤ k → plain_cell (dst + i) = true) → code_clear s0 p dst k → 0 ≤ i ≤ k →
  k < zlen (Rif.rif_queue (d_rif d0)) →
  let val := rd (Rif.rif_queue (d_rif d0)) in
  moved s0 p n dst val i s → drr_inv d0 i d →
  ∃ d' s', exec_port osmo_a5 e d (s <| lk_used := false |>) (0x7490 + n) = (2, (d', s')) ∧
    moved s0 p n dst val (i + 1) s' ∧ drr_inv d0 (i + 1) d' ∧ rpt_count s' = rpt_count s.
Proof.
  intros Hs0 Hpa Hn Hdst Hcode Hi Hq val Hm (r & h & -> & Hok & Hr).
  destruct (moved_facts s0 p n dst val Hs0 i s Hm) as (_ & Epc & _ & _ & Ec & _).
  destruct (postinc_fields 0x7490 n (or_intror eq_refl) Hn) as (F1 & F2 & F3).
  pose proof (plain_cell_range _ (Hdst i Hi)) as Hrg.
  assert (Had : arx s n = dst + i) by (rewrite (mv_ar _ _ _ _ _ _ _ Hm); apply u16_small; lia).
  unfold exec_port. destruct (portr_decode s0 n Hn) as (_ & -> & _). cbn [Z.eqb Pos.eqb]. unfold exec_portr.
  match goal with |- context [resolve_smem ?x _] => set (s1 := x) end.
  rewrite (smem_postinc s1 _ n F1 F2 F3 Ec). change (arx s1 n) with (arx s n). rewrite Had.
  set (s2 := set_ar s1 n (u16 (dst + i + 1))).
  assert (El : lk_operand s2 = 1).
  { unfold lk_operand. change (lk_used s2) with false. change (pc s2) with (pc s). rewrite Epc.
    cbn [Z.b2z]. replace (p + 1 + 1 + 0) with (p + 2) by lia. rewrite <- Hpa, <- (mv_code _ _ _ _ _ _ _ Hm) by lia.
    by apply prog_fetch_frame. }
  rewrite El. destruct (drop_rd (Rif.rif_queue (d_rif d0)) i) as (E1 & E2 & E3); [lia|].
  destruct (port_read_drr e (d0 <| d_rif := r |> <| d_hist := h |>)) as (r' & Ep & Hok' & Hr');
    [exact Hok|cbn; by rewrite Hr|].
  rewrite Ep. cbn [d_rif update_field] in Hr' |- *. rewrite Hr, E1.
  destruct (still_write s2 (dst + i) (val i) (Hdst i Hi)) as (_ & _ & W3 & _).
  eexists _, _. split; [reflexivity|].
  split; [exact (moved_store s0 p k n dst val Hs0 Hn Hdst Hcode i s s2 _ Hm Hi eq_refl eq_refl eq_refl eq_refl)|].
  split; [|exact W3]. exists r', h. split; [reflexivity|]. split; [done|]. by rewrite Hr', Hr, E2.
Qed.



(** ** The inner product *)

(** MAC *ARx+,*ARy+,A with x = ix+2 and y = iy+2. *)
Definition MAC_PP (ix iy : Z) : Z := 0xB088 + 16 * ix + iy.

Lemma mac_pp_fields ix iy :
  0 ≤ ix < 4 → 0 ≤ iy < 4 →
  xar (MAC_PP ix iy) = ix + 2 ∧ xmod (MAC_PP ix iy) = 2 ∧ yar (MAC_PP ix iy) = iy + 2 ∧ ymod (MAC_PP ix iy) = 2 ∧
  (∀ s, exec_op s (MAC_PP ix iy) = retire (exec_dual_mac s (MAC_PP ix iy))) ∧
  Z.land (Z.shiftr (MAC_PP ix iy) 8) 0xFF = 0xB0 ∧ Z.testbit (MAC_PP ix iy) 8 = false ∧
  Z.testbit (MAC_PP ix iy) 9 = false.
Proof.
  intros Hx Hy. unfold MAC_PP. revert iy Hy.
  apply (range_split (λ ix, ∀ iy, 0 ≤ iy < 4 → _) 4 ix); [lia|].
  forall_cases; intros iy Hy; apply (range_split (λ iy, _) 4 iy); [lia| |lia| |lia| |lia|];
    forall_cases; split_and!; reflexivity.
Qed.

(** The sum of the first [n] terms. *)
Fixpoint psum (f : Z → Z) (n : nat) : Z :=
  match n with O => 0 | S n => psum f n + f (Z.of_nat n) end.

(** Without OVM the overflow pass only flags. *)
Lemma ovm_pass_off a0 b0 s : has (st1 s) ST1_OVM = false →
  a (ovm_pass a0 b0 s) = a s ∧ b (ovm_pass a0 b0 s) = b s ∧ t (ovm_pass a0 b0 s) = t s.
Proof.
  intros H.
  assert (Hacc : ∀ sel v s, has (st1 s) ST1_OVM = false →
    a (ovm_acc sel v s) = a s ∧ b (ovm_acc sel v s) = b s ∧ t (ovm_acc sel v s) = t s ∧
    st1 (ovm_acc sel v s) = st1 s).
  { clear. intros sel v s H. unfold ovm_acc. cbv zeta. case_if; [done|]. case_if; [|done].
    cbn [st1 update_field]. by rewrite H. }
  unfold ovm_pass. case_if; [done|]. destruct (Hacc false a0 s H) as (E1 & E2 & E3 & E4).
  destruct (Hacc true b0 (ovm_acc false a0 s)) as (F1 & F2 & F3 & _); [by rewrite E4|].
  split_and!; congruence.
Qed.

Section dot.
  Context (osmo_a5 : Z → list Z → Z → option (list Z * list Z)) (e : A5.Env) (en : bool).
  Context (s0 : C54xState) (d0 : devices) (p k ix iy : Z).
  Hypothesis Hs0 : block_start s0 p.
  Hypothesis Hx : 0 ≤ ix < 4.
  Hypothesis Hy : 0 ≤ iy < 4.
  Hypothesis Hxy : ix ≠ iy.
  Hypothesis Hovm : has (st1 s0) ST1_OVM = false.
Let xs := arx s0 (ix + 2).
Let ys := arx s0 (iy + 2).
  Hypothesis Hxs : 0x20 ≤ xs ∧ xs + k < 65536.
  Hypothesis Hys : 0x20 ≤ ys ∧ ys + k < 65536.

Definition term (i : Z) : Z :=
  frct s0 (i16 (data_read s0 (arx s0 (ix + 2) + i)) * i16 (data_read s0 (arx s0 (iy + 2) + i))).

Record macced (i : Z) (d : devices) (s : C54xState) : Prop := mkMacced {
  mc_loop : looping s0 p s;
  mc_dev : ∃ h, d = d0 <| d_hist := h |>;
  mc_mem : dmem s = dmem s0;
  mc_ar8 : length (ar s) = 8%nat;
  mc_x : arx s (ix + 2) = u16 (xs + i);
  mc_y : arx s (iy + 2) = u16 (ys + i);
  mc_a : a s = sext40 (a s0 + psum term (Z.to_nat i));
  mc_b : b s = b s0;
  mc_t : 0 < i → t s = data_read s0 (xs + (i - 1))
}.

(** One MAC. *)
Lemma mac_pp_exec i d s :
  0 ≤ i ≤ k → macced i d s →
  ∃ s', exec_op (s <| lk_used := false |>) (MAC_PP ix iy) = Some (1, s') ∧
    frame s' = frame (s <| ar := ar s' |>) ∧ ctrl s' = ctrl (s <| lk_used := false |>) ∧
    rpt_count s' = rpt_count s ∧ length (ar s') = 8%nat ∧
    arx s' (ix + 2) = u16 (xs + (i + 1)) ∧ arx s' (iy + 2) = u16 (ys + (i + 1)) ∧
    a s' = sext40 (a s + term i) ∧ b s' = b s ∧ t s' = data_read s0 (xs + i).
Proof.
  intros Hi [Hl _ Hm H8 Ex Ey _ _ _].
  destruct (mac_pp_fields ix iy Hx Hy) as (F1 & F2 & F3 & F4 & F5 & F6 & F7 & F8).
  assert (Est : st1 s = st1 s0) by (by eapply looping_facts).
  rewrite F5. unfold exec_dual_mac, par_postmods. rewrite F1, F2, F3, F4, F6, F7, F8. cbv zeta.
  match goal with |- context [data_read ?x _] => set (s1 := x) end.
  change (arx s1) with (arx s). rewrite Ex, Ey, !u16_small by lia.
  assert (Er : ∀ z, 0x20 ≤ z → data_read s1 z = data_read s0 z) by (intros; by apply data_read_dmem).
  rewrite !Er by lia. unfold c54x_par_postmod. cbn [Z.eqb Pos.eqb orb andb negb Z.leb Z.compare Pos.compare Pos.compare_cont].
  change (arx s1) with (arx s). rewrite arx_set_ar by (change (ar s1) with (ar s); lia).
  rewrite (proj2 (Z.eqb_neq (iy + 2) (ix + 2))) by lia. change (arx s1) with (arx s). rewrite Ex, Ey.
  set (s2 := set_ar (set_ar s1 (ix + 2) _) (iy + 2) _).
  eexists. split; [reflexivity|]. unfold term, frct. change (st1 s2) with (st1 s). rewrite Est.
  split; [reflexivity|]. split; [reflexivity|]. split; [reflexivity|].
  assert (L2 : length (ar s2) = 8%nat) by (cbn; by rewrite !length_wr).
  split; [exact L2|]. unfold arx. cbn [ar set_acc update_field s2 set_ar]. unfold s2, set_ar. cbn [ar update_field].
  change (ar s1) with (ar s).
  rewrite rd_wr_ne, rd_wr_eq by (unfold zlen; lia). rewrite rd_wr_eq by (unfold zlen; rewrite length_wr; lia).
  split; [unfold u16; rewrite Zplus_mod_idemp_l; f_equal; lia|].
  split; [unfold u16; rewrite Zplus_mod_idemp_l; f_equal; lia|]. done.
Qed.

Lemma macced_step i d s :
  0 ≤ i ≤ k → macced i d s → prog_fetch s0 (p + 1) = MAC_PP ix iy →
  ∃ d' s', insn osmo_a5 e d s (prog_fetch s0 (p + 1)) = (1, (d', s')) ∧
    macced (i + 1) d' (ovm_pass (a s) (b s) s') ∧ rpt_count s' = rpt_count s.
Proof.
  intros Hi Hj Hf. destruct (mac_pp_exec i d s Hi Hj) as (s' & E & Fr & Ct & Rc & L8 & Ax & Ay & Ea & Eb & Et).
  exists d, s'. rewrite Hf. unfold insn. rewrite E. split; [done|]. split; [|done].
  destruct Hj as [Hl Hd Hm H8 Ex Ey Ha Hb Ht].
  destruct (ovm_pass_frame (a s) (b s) s') as [Fo Co].
  assert (Est : st1 s' = st1 s0).
  { destruct (looping_facts s0 p Hs0 s Hl) as (_&_&_&_&_&_&_&_&<-). by injection Fr. }
  destruct (ovm_pass_off (a s) (b s) s') as (Oa & Ob & Ot); [by rewrite Est|].
  rewrite Fr in Fo. rewrite Ct in Co. injection Fo as G1 _ _ _ _ _ _ G2 G3 _ _ G4 G5 G6 G7 G8 G9 G10 G11.
  injection Co as G12 G13 _ _.
  constructor.
  - unfold looping. rewrite <- Hl. unfold loopst. rewrite G2, G3, G4, G5, G6, G9, G10, G11, G12, G13. done.
  - exact Hd.
  - rewrite <- Hm. unfold dmem. by rewrite G6, G7, G8.
  - by rewrite G1.
  - unfold arx. by rewrite G1.
  - unfold arx. by rewrite G1.
  - rewrite Oa, Ea, Ha. replace (Z.to_nat (i + 1)) with (S (Z.to_nat i)) by lia. cbn [psum].
    rewrite Z2Nat.id by lia. apply sext40_eqm. rewrite Zplus_mod, sext40_mod, <- Zplus_mod. f_equal. ring.
  - congruence.
  - intros _. rewrite Ot, Et. f_equal. lia.
Qed.

End dot.

(** C7: [RPT #k; MAC *ARx+,*ARy+,A] is the inner product.  With interrupts
    masked, the timer stopped and the overflow mode OVM clear, wherever the two
    instructions lie, the machine takes k+2 iterations, adds to A modulo 2^40 the
    k+1 products of the signed words behind ARx and ARy (doubled when FRCT is
    set), leaves the last Xmem word in T, both pointers behind their vectors, B,
    the devices and data memory unchanged, and goes on behind the MAC. *)
Theorem rpt_mac_inner_product osmo_a5 e en d s p k ix iy :
  block_start s p → rpt_active s = false → has (st1 s) ST1_OVM = false → -2 ^ 39 ≤ a s < 2 ^ 39 →
  0 ≤ k < 256 → 0 ≤ ix < 4 → 0 ≤ iy < 4 → ix ≠ iy →
  en && RheaDma.calypso_rhea_dma_irq_level (d_rd d) = false →
  prog_fetch s p = 0xEC00 + k → prog_fetch s (p + 1) = MAC_PP ix iy →
  let xs := arx s (ix + 2) in
  let ys := arx s (iy + 2) in
  0x20 ≤ xs ∧ xs + k < 65536 → 0x20 ≤ ys ∧ ys + k < 65536 →
  ∃ h s', machine_run osmo_a5 e en (Z.to_nat k + 2) (d, s) = (d <| d_hist := h |>, s') ∧ pc s' = p + 2 ∧
    a s' = sext40 (a s + psum (λ i, frct s (i16 (data_read s (xs + i)) * i16 (data_read s (ys + i)))) (Z.to_nat (k + 1))) ∧
    b s' = b s ∧ t s' = data_read s (xs + k) ∧
    arx s' (ix + 2) = u16 (xs + (k + 1)) ∧ arx s' (iy + 2) = u16 (ys + (k + 1)) ∧
    ∀ x, 0x20 ≤ x → data_read s' x = data_read s x.
Proof.
  intros Hs Hra Ho Ha Hk Hx Hy Hxy Hl Hf1 Hf2 xs ys Hxs Hys.
  destruct (rpt_total osmo_a5 e en s p k 1 (macced s d p ix iy) Hs Hk) with (d := d)
    as (d' & s' & Hj & E); try done.
  - intros i d' s' [Hlo [h ->] Hm _ _ _ _ _ _]. split; [done|]. split; [exact Hl|].
    injection Hlo as _ Epm Exp _ Epr _ _ _ _ _. injection Hm as Ed Eapi _. by apply prog_fetch_frame.
  - intros i d' s' v Hj. destruct Hj. by constructor.
  - intros i d' s' op Hj. destruct Hj as [? [h ->] ? ? ? ? ? ? ?]. constructor; try done. by eexists.
  - intros i d' s' Hi Hj. by apply (macced_step osmo_a5 e s d p k).
  - pose proof (looping_start s p k Hs). destruct Hs as [_ _ _ _ _ H8].
    constructor; try done; [exists (d_hist d); by destruct d|by rewrite Z.add_0_r, u16_small by lia|
      by rewrite Z.add_0_r, u16_small by lia|cbn; by rewrite Z.add_0_r, sext40_small].
  - destruct Hj as [_ [h ->] Hm _ Ex Ey Ea Eb Et]. exists h, (ended p 1 s').
    split; [exact E|]. split; [cbn; lia|]. split; [exact Ea|]. split; [exact Eb|].
    split; [rewrite <- (Z.add_simpl_r k 1); exact (Et ltac:(lia))|]. split; [exact Ex|]. split; [exact Ey|].
    intros x Hx'. by apply data_read_dmem.
Qed.

(** (1, -2, 3) . (4, 5, 6) = 12 on top of 100. *)
Lemma rpt_mac_inner_product_witness :
  let s := set_ar (set_ar (c54x_zero <| a := 100 |> <| pc := 0x7000 |> <| st1 := ST1_INTM |> <| pmst := 0xFFA8 |>
             <| data := <[TCR_ADDR := 0x10]> (<[0x300 := 1]> (<[0x301 := 0xFFFE]> (<[0x302 := 3]>
                (<[0x400 := 4]> (<[0x401 := 5]> (<[0x402 := 6]> ∅)))))) |>
             <| prog := <[0x7000 := 0xEC02]> (<[0x7001 := 0xB08A]> ∅) |>) 2 0x300) 4 0x400 in
  let d := dev_zero in
  ∃ h s', machine_run (λ _ _ _, None) (A5.mkEnv true true true 0 0 None) true 4 (d, s) = (d <| d_hist := h |>, s') ∧
    a s' = 112 ∧ t s' = 3 ∧ pc s' = 0x7002.
Proof.
  intros s d.
  destruct (rpt_mac_inner_product (λ _ _ _, None) (A5.mkEnv true true true 0 0 None) true d s 0x7000 2 0 2)
    as (h & s' & E & Ep & Ea & _ & Et & _).
  - constructor; [constructor; vm_compute; reflexivity|reflexivity|lia|reflexivity|vm_compute; reflexivity|reflexivity].
  - reflexivity.
  - vm_compute. reflexivity.
  - split; vm_compute; [discriminate|reflexivity].
  - lia.
  - lia.
  - lia.
  - lia.
  - vm_compute. reflexivity.
  - vm_compute. reflexivity.
  - vm_compute. reflexivity.
  - split; vm_compute; [discriminate|reflexivity].
  - split; vm_compute; [discriminate|reflexivity].
  - exists h, s'. split; [exact E|]. split; [rewrite Ea; vm_compute; reflexivity|].
    split; [rewrite Et; vm_compute; reflexivity|exact Ep].
Defined.

End DspBlock.
