(* ===== verification/DspQuirks.v ===== *)
(** * Where the DSP core departs from what its comments describe

    Behaviours of [c54x_exec.c] that the comments beside the code, or the
    sibling instructions, contradict: each is stated of the definitions of
    [C54xPar], [C54xMove] and [DspPorts], in general where the statement is
    general and on a program where an interaction shows it. *)
From stdpp Require Import gmap.
From S2P Require Import Prelude C54xAddr C54xState C54xDecode C54xIrq C54xAlu C54xFlow C54xPar C54xMove C54xExec C54xRun A5 DspPorts.

Module DspQuirks.
Import C54xAddr C54xState C54xDecode C54xIrq C54xAlu C54xFlow C54xPar C54xMove C54xExec C54xRun DspPorts.

Definition quirk_run (n : nat) (m : machine) : machine :=
  machine_run (λ _ _ _, None) (A5.mkEnv true true true 0 0 None) false n m.

(** ** Repeated WRITA *)

(** READA, MVPD, MVDP, MACP and MACD start a repeat from their own address
    ([rpt_pointer]); WRITA starts it from the pointer the last repeat left. *)
Lemma writa_repeat_start s op :
  rpt_active (snd (resolve_smem s op)) = true →
  exec_writa s op =
  let '(ad, s1) := resolve_smem s op in
  prog_write s1 (mvpd_src s1) (data_read s1 ad) <| mvpd_src := u16 (mvpd_src s1 + 1) |>.
Proof. unfold exec_writa. destruct (resolve_smem s op) as [ad s1]. cbn [snd]. by intros ->. Qed.

(** Two words read from program address 0x7010 and written back with the same
    A land behind them. *)
Example writa_after_reada :
  let s := set_ar (set_ar (c54x_zero <| a := 0x7010 |> <| pc := 0x7000 |> <| st1 := ST1_INTM |>
             <| data := <[TCR_ADDR := 0x10]> ∅ |>
             <| prog := <[0x7000 := 0xEC01]> (<[0x7001 := 0x7E91]> (<[0x7002 := 0xEC01]> (<[0x7003 := 0x7F92]>
                (<[0x7010 := 11]> (<[0x7011 := 22]> ∅))))) |>) 1 0x300) 2 0x300 in
  let s' := snd (quirk_run 6 (dev_zero, s)) in
  pc s' = 0x7004 ∧ map (prog_read s') [0x7010; 0x7011; 0x7012; 0x7013] = [11; 22; 11; 22].
Proof. vm_compute. split; reflexivity. Qed.

(** ** FIRS and the seventeenth bit *)

(** The sum of two large samples needs bit 32 of A, which the next FIRS drops:
    the pair (0x7FFF, 0x7FFF) counts as -2. *)
Example firs_drops_bit32 :
  let s := set_ar (set_ar (c54x_zero <| pc := 0x7000 |> <| st1 := ST1_INTM |>
             <| data := <[TCR_ADDR := 0x10]> (<[0x300 := 0x7FFF]> (<[0x400 := 0x7FFF]> ∅)) |>
             <| prog := <[0x7000 := 0xE089]> (<[0x7001 := 0x7100]> (<[0x7002 := 0xE089]> (<[0x7003 := 0x7100]>
                (<[0x7100 := 1]> ∅)))) |>) 2 0x300) 3 0x400 in
  let s1 := snd (quirk_run 1 (dev_zero, s)) in
  let s2 := snd (quirk_run 2 (dev_zero, s)) in
  a s1 = 65534 * 65536 ∧ b s2 = -2.
Proof. vm_compute. split; reflexivity. Qed.

(** ** The circular long-offset mode of MVKD and MVDK *)

(** [*+ARx(lk)%]: the other instructions wrap in the buffer of BK words, these
    two add. *)
Example mvkd_ignores_bk :
  let s := set_ar (c54x_zero <| bk := 8 |> <| pc := 0x7000 |>
             <| prog := <[0x7001 := 3]> (<[0x7002 := 0x300]> ∅) |>) 1 0x1006 in
  fst (resolve_smem s 0x70F1) = 0x1001 ∧ snd (fst (mvk_operands s 0x70F1)) = 0x1009.
Proof. vm_compute. split; reflexivity. Qed.

(** ** 0xBAxx *)

(** MAS Xmem,Ymem,B,A is 0xBA00 under the mask of its family; the code runs it
    as a load of a register named by the operand field. *)
Lemma mas_b_a_is_ldmm s x :
  0 ≤ x < 256 → exec_op s (0xBA00 + x) = retire (exec_ldmm s (0xBA00 + x)).
Proof.
  intros Hx. revert s. apply (range_split (λ x, ∀ s, exec_op s (0xBA00 + x) = retire (exec_ldmm s (0xBA00 + x))) 256);
    [lia|]. forall_cases; reflexivity.
Qed.

(** ** Branches on TC across an interrupt *)

(** CMPM, then BC on NTC, TC being set and A not zero.  Left alone the branch
    is not taken.  With an interrupt between the two, whose routine is RETE
    alone, the record says RETE came before the branch, and the branch asks A. *)
Definition tc_program : C54xState :=
  c54x_zero <| a := 1 |> <| pc := 0x7000 |> <| imr := 1 |> <| pmst := 0x7080 |>
    <| data := <[TCR_ADDR := 0x10]> (<[0x60 := 5]> ∅) |>
    <| prog := <[0x7000 := 0x6060]> (<[0x7001 := 5]> (<[0x7002 := 0xF820]> (<[0x7003 := 0x7200]>
       (<[0x70C0 := 0xF4EB]> ∅)))) |>.

Example tc_branch_alone : pc (snd (quirk_run 2 (dev_zero, tc_program))) = 0x7004.
Proof. vm_compute. reflexivity. Qed.

Example tc_branch_interrupted :
  let '(d, s) := quirk_run 1 (dev_zero, tc_program) in
  let m := quirk_run 1 (d, s <| ifr := 1 |>) in
  let m' := quirk_run 1 m in
  pc s = 0x7002 ∧ has (st0 s) ST0_TC = true ∧ pc (snd m) = 0x7002 ∧ pc (snd m') = 0x7200.
Proof. vm_compute. split_and!; reflexivity. Qed.

End DspQuirks.
