(* ===== verification/DspBoot.v ===== *)
(** * Loading and reset of the C54x DSP
    ([hw/arm/calypso/l1-dsp/calypso_c54x.c])

    The ROM image reaches the core as files of little-endian words, one per
    section ([c54x_load_section], [c54x_load_blob_daram]) and one with the
    register page ([c54x_load_registers]); [c54x_reset] puts the core in the
    state the ROM expects: registers, timer, the copy of the boot ROM in the
    overlay, the return stubs at the bottom of program memory.  A file that
    cannot be opened is [None].  [dsp] adds to the core the fields of the C
    structure these functions use. *)
From stdpp Require Import gmap.
From S2P Require Import Prelude C54xAddr C54xState C54xDecode C54xIrq C54xAlu C54xFlow C54xPar C54xMove C54xExec C54xRun.

Module DspBoot.
Import C54xAddr C54xState C54xDecode C54xIrq C54xAlu C54xFlow C54xPar C54xMove C54xExec C54xRun.

Definition C54X_DATA_SIZE : Z := 0x10000.

Record dsp := mkDsp {
  core : C54xState;
  reg_init : list Z;
  reg_init_valid : bool;
  running : bool;
  blob_loaded : bool
}.
#[export] Instance dsp_eta : Settable dsp := λ d,
  mkDsp (core d) (reg_init d) (reg_init_valid d) (running d) (blob_loaded d).

(** [calloc]: everything zero, no API RAM. *)
Definition c54x_init : dsp :=
  mkDsp (mkC54x 0 0 (replicate 8 0) 0 0 0 0 0 0 0 0 0 0 0 0 0 0 0 0 (replicate 24 0) 0
           false 0 ∅ ∅ None [] false 0 [] (-1) 0 false false false false 0 0 0)
        (replicate 0x20 0) false false false.

Definition c54x_set_api_ram (d : dsp) (m : mem) : dsp :=
  d <| core := core d <| api_ram := Some m |> |>.

Definition c54x_set_initial_pc (d : dsp) (p : Z) : dsp :=
  d <| core := core d <| pc := p |> |> <| blob_loaded := true |>.

Definition c54x_task_md (s : C54xState) : Z :=
  let md := mget (data s) 0x0804 in if negb (md =? 0) then md else mget (data s) 0x0818.

(** ** The loaders *)

(** A word stored by the loader: program memory, or data memory with the view
    of the ARM. *)
Definition put_data (s : C54xState) (addr w : Z) : C54xState :=
  let s := s <| data := <[addr := w]> (data s) |> in
  if in_api addr then s <| api_ram := (λ m, <[addr - C54X_API_BASE := w]> m) <$> api_ram s |> else s.

Definition put_prog (s : C54xState) (addr w : Z) : C54xState := s <| prog := <[addr := w]> (prog s) |>.

(** The loop: two bytes at a time while the file lasts and the memory does. *)
Fixpoint load_loop (put : C54xState → Z → Z → C54xState) (limit : Z) (f : list Z) (s : C54xState)
    (addr words : Z) : Z * C54xState :=
  match f with
  | lo :: hi :: f =>
    if addr <? limit then load_loop put limit f (put s addr (Z.lor lo (Z.shiftl hi 8))) (addr + 1) (words + 1)
    else (words, s)
  | _ => (words, s)
  end.

Definition c54x_load_section (s : C54xState) (f : option (list Z)) (start_addr : Z) (is_program : bool) : Z * C54xState :=
  match f with
  | None => (-1, s)
  | Some f =>
    if is_program then load_loop put_prog C54X_PROG_SIZE f s start_addr 0
    else load_loop put_data C54X_DATA_SIZE f s start_addr 0
  end.

Definition c54x_load_blob_daram (s : C54xState) (f : option (list Z)) (daram_addr : Z) : Z * C54xState :=
  match f with
  | None => (-1, s)
  | Some f => load_loop put_data C54X_DATA_SIZE f s daram_addr 0
  end.

Fixpoint reg_loop (f : list Z) (d : dsp) (words : Z) : Z * dsp :=
  match f with
  | lo :: hi :: f =>
    let w := Z.lor lo (Z.shiftl hi 8) in
    if words <? C54X_DATA_SIZE then
      reg_loop f (if words <? 0x20 then d <| reg_init := wr (reg_init d) words w |>
                  else d <| core := core d <| data := <[words := w]> (data (core d)) |> |>) (words + 1)
    else (words, d)
  | _ => (words, d)
  end.

Definition c54x_load_registers (d : dsp) (f : option (list Z)) : Z * dsp :=
  match f with
  | None => (-1, d)
  | Some f =>
    let '(words, d) := reg_loop f d 0 in
    (words, if 0x20 <=? words then d <| reg_init_valid := true |> else d)
  end.

(** ** Reset *)

(** [CALYPSO_DSP_REG_MODE]. *)
Inductive reg_mode := MODE_C54X | MODE_BIN | MODE_HYBRID.

(** The hard-coded register values. *)
Definition reset_regs (s : C54xState) : C54xState :=
  s <| a := 0 |> <| b := 0 |>
    <| ar := [0x5AAD; 0x005F; 0x0813; 0x0014; 0x0003; 0x0014; 0; 0] |>
    <| t := 0 |> <| trn := 0 |> <| sp := 0x1100 |> <| bk := 0xFFF6 |>
    <| brc := 0 |> <| rsa := 0 |> <| rea := 0 |>
    <| st0 := 0x181F |> <| st1 := Z.lor (Z.lor ST1_INTM ST1_SXM) ST1_XF |> <| pmst := 0xFFA8 |>
    <| imr := 0x52FD |> <| ifr := 0 |> <| xpc := 0 |>.

Definition acc_of (r : list Z) (i : Z) : Z :=
  Z.lor (Z.lor (Z.shiftl (Z.land (rd r (i + 2)) 0xFF) 32) (Z.shiftl (rd r (i + 1)) 16)) (rd r i).

(** The register file over them. *)
Definition apply_regs (mode : reg_mode) (r : list Z) (s : C54xState) : C54xState :=
  let s := s <| imr := rd r 0x00 |> <| st0 := rd r 0x06 |> <| st1 := rd r 0x07 |>
             <| a := acc_of r 0x08 |> <| b := acc_of r 0x0b |> <| t := rd r 0x0e |> <| trn := rd r 0x0f |>
             <| ar := map (λ i, rd r (0x10 + i)) (zseq 0 8) |>
             <| sp := rd r 0x18 |> <| bk := rd r 0x19 |> <| pmst := rd r 0x1d |> in
  match mode with
  | MODE_BIN => s <| ifr := rd r 0x01 |> <| brc := rd r 0x1a |> <| rsa := rd r 0x1b |> <| rea := rd r 0x1c |>
  | _ => s <| ifr := 0 |> <| brc := 0 |> <| rsa := 0 |> <| rea := 0 |>
  end.

(** The copy of the boot ROM to the overlay, [n] words. *)
Fixpoint overlay_copy (n : nat) (s : C54xState) : C54xState :=
  match n with
  | O => s
  | S k => let s := overlay_copy k s in
           put_data s (0x0080 + Z.of_nat k) (mget (prog s) (0x7080 + Z.of_nat k))
  end.

(** The return stubs, [n] of them. *)
Fixpoint fret_stubs (n : nat) (m : mem) : mem :=
  match n with O => m | S k => <[Z.of_nat k := 0xF4E4]> (fret_stubs k m) end.

(** Registers, timer and flags. *)
Definition reset_base (mode : reg_mode) (d : dsp) : C54xState :=
  let s := reset_regs (core d) in
  let s := match mode with
           | MODE_C54X => s
           | _ => if reg_init_valid d then apply_regs mode (reg_init d) s else s
           end in
  s <| timer_psc := 0 |>
    <| data := <[PRD_ADDR := 0xFFFF]> (<[TIM_ADDR := 0xFFFF]> (<[TCR_ADDR := TCR_TSS]> (data s))) |>
    <| rpt_active := false |> <| rptb_active := false |> <| idle := false |> <| insn_count := 0 |>.

(** The stubs and the reset vector. *)
Definition boot_stubs (s : C54xState) : C54xState :=
  let s := s <| prog := <[0x0001 := 0xFC00]> (<[0x0000 := 0xFC00]> (fret_stubs 0x80 (prog s))) |> in
  s <| pc := u16 (iptr s * 0x80) |>.

Definition c54x_reset (mode : reg_mode) (d : dsp) : dsp :=
  let s := boot_stubs (overlay_copy (Z.to_nat 0x2780) (reset_base mode d)) in
  d <| core := s |> <| running := true |> <| blob_loaded := false |>.

(** ** What the loaders store *)
Lemma pairs_ind (P : list Z → Prop) :
  P [] → (∀ x, P [x]) → (∀ x y l, P l → P (x :: y :: l)) → ∀ l, P l.
Proof.
  intros H0 H1 H2. fix IH 1. intros [|x [|y l]]; [done|done|]. apply H2, IH.
Qed.

Definition byte_file (f : list Z) : Prop := Forall (λ x, 0 ≤ x < 256) f.

(** Word [k] of a file. *)
Definition fword (f : list Z) (k : Z) : Z := Z.lor (rd f (2 * k)) (Z.shiftl (rd f (2 * k + 1)) 8).

Lemma fword_cons x y f k : 0 < k → fword (x :: y :: f) k = fword f (k - 1).
Proof.
  intros Hk. unfold fword, rd.
  replace (Z.to_nat (2 * k)) with (S (S (Z.to_nat (2 * (k - 1))))) by lia.
  replace (Z.to_nat (2 * k + 1)) with (S (S (Z.to_nat (2 * (k - 1) + 1)))) by lia. done.
Qed.

Lemma word_fword f k : byte_file f → word (fword f k).
Proof.
  intros H. unfold fword, word. assert (∀ i, 0 ≤ rd f i < 256) as Hb by (intros; apply (rd_Forall (λ x, 0 ≤ x < 256)); [lia|done]).
  apply (lor_range 16); [lia| |]; pose proof (Hb (2 * k)); pose proof (Hb (2 * k + 1)); [lia|].
  rewrite Z.shiftl_mul_pow2 by lia. lia.
Qed.

Section loader.
  Context (put : C54xState → Z → Z → C54xState) (limit : Z).

Definition loaded (f : list Z) (addr : Z) : Z := Z.min (zlen f / 2) (Z.max 0 (limit - addr)).

(** A cell array the loader stores to. *)
Lemma load_loop_get (get : C54xState → Z → Z) f s addr words :
  (∀ s a w x, get (put s a w) x = if x =? a then w else get s x) →
  fst (load_loop put limit f s addr words) = words + loaded f addr ∧
  ∀ x, get (snd (load_loop put limit f s addr words)) x =
       if (addr <=? x) && (x <? addr + loaded f addr) then fword f (x - addr) else get s x.
Proof.
  intros Hput. revert s addr words. unfold loaded.
  induction f as [|z|lo hi f IH] using pairs_ind; intros s addr words.
  - cbn [load_loop fst snd]. change (zlen [] / 2) with 0. split; [lia|]. intros x. case_if; [|done]. bool_prop. lia.
  - cbn [load_loop fst snd]. change (zlen [z] / 2) with 0. split; [lia|]. intros x. case_if; [|done]. bool_prop. lia.
  - cbn [load_loop]. assert (El : zlen (lo :: hi :: f) / 2 = zlen f / 2 + 1).
    { unfold zlen. cbn [length]. replace (Z.of_nat (S (S (length f)))) with (Z.of_nat (length f) + 1 * 2) by lia.
      rewrite Z.div_add by lia. done. }
    rewrite El. assert (0 ≤ zlen f / 2) by (unfold zlen; apply Z.div_pos; lia).
    destruct (Z.ltb_spec addr limit).
    + destruct (IH (put s addr (Z.lor lo (Z.shiftl hi 8))) (addr + 1) (words + 1)) as [E1 E2].
      rewrite E1. split; [lia|]. intros x. rewrite E2, Hput.
      replace (x - (addr + 1)) with (x - addr - 1) by lia.
      destruct (Z.eqb_spec x addr) as [->|].
      * rewrite (proj2 (Z.leb_gt _ _)) by lia. cbn [andb]. rewrite (proj2 (Z.leb_le _ _)), (proj2 (Z.ltb_lt _ _)) by lia.
        rewrite Z.sub_diag. done.
      * repeat match goal with |- context [if ?b then _ else _] => destruct b eqn:?E end; bool_prop; try lia; try done.
        symmetry. apply fword_cons. lia.
    + cbn [fst snd]. split; [lia|]. intros x. case_if; [|done]. bool_prop. lia.
Qed.

(** What the stores leave alone, the loader leaves alone. *)
Lemma load_loop_keeps {B} (g : C54xState → B) f s addr words :
  (∀ s a w, g (put s a w) = g s) → g (snd (load_loop put limit f s addr words)) = g s.
Proof.
  intros Hg. revert s addr words. induction f as [|z|lo hi f IH] using pairs_ind; intros; [done|done|].
  cbn [load_loop]. case_if; [|done]. by rewrite IH.
Qed.

Lemma load_loop_wf f s addr words :
  (∀ s a w, wf s → word w → wf (put s a w)) → byte_file f → wf s → wf (snd (load_loop put limit f s addr words)).
Proof.
  intros Hp. revert s addr words. induction f as [|z|lo hi f IH] using pairs_ind; intros s addr words Hb H; [done|done|].
  cbn [load_loop]. case_if; [|done]. pose proof (word_fword _ 0 Hb) as Hw.
  apply IH; [by apply Forall_cons_1, proj2, Forall_cons_1, proj2 in Hb|]. apply Hp; [done|exact Hw].
Qed.
End loader.

(** A data cell as the DSP reads it, registers and timer aside: the window
    shared with the ARM when there is one. *)
Definition raw (s : C54xState) (x : Z) : Z :=
  if in_api x then match api_ram s with
                   | Some m => mget m (x - C54X_API_BASE)
                   | None => mget (data s) x
                   end
  else mget (data s) x.

Lemma data_read_raw s x : 0x20 ≤ x → x ≠ TCR_ADDR → data_read s x = raw s x.
Proof.
  intros H1 H2. unfold data_read, data_read_locked, raw.
  rewrite (proj2 (Z.eqb_neq _ _) H2), (proj2 (Z.ltb_ge _ _) H1).
  repeat match goal with |- context [if x =? ?y then _ else _] => destruct (Z.eqb_spec x y) as [->|] end; done.
Qed.

Lemma data_put_data s i w x : mget (data (put_data s i w)) x = if x =? i then w else mget (data s) x.
Proof. unfold put_data. cbv zeta. case_if; cbn [data update_field]; apply mget_insert. Qed.

Lemma raw_put_data s i w x : raw (put_data s i w) x = if x =? i then w else raw s x.
Proof.
  unfold raw, put_data. cbv zeta.
  destruct (in_api i) eqn:Ei; cbn [api_ram data update_field]; destruct (in_api x) eqn:Ex;
    destruct (api_ram s) as [m|]; cbn [fmap option_fmap option_map]; rewrite ?mget_insert; try done.
  - replace (x - C54X_API_BASE =? i - C54X_API_BASE) with (x =? i); [done|].
    destruct (Z.eqb_spec x i), (Z.eqb_spec (x - C54X_API_BASE) (i - C54X_API_BASE)); lia || done.
  - destruct (Z.eqb_spec x i); [congruence|done].
Qed.

Lemma prog_put_prog s i w x : mget (prog (put_prog s i w)) x = if x =? i then w else mget (prog s) x.
Proof. apply mget_insert. Qed.

Lemma wf_put_data s i w : wf s → word w → wf (put_data s i w).
Proof.
  intros H Hw. unfold put_data. cbv zeta. assert (wf (s <| data := <[i := w]> (data s) |>)) by eauto with c54x.
  case_if; [|done]. apply wf_set_api_ram; [done|]. cbn [api_ram update_field].
  pose proof (wf_api _ H) as Ha. destruct (api_ram s); [|done]. cbn in *. eauto with c54x.
Qed.
Lemma wf_put_prog s i w : wf s → word w → wf (put_prog s i w).
Proof. intros. unfold put_prog. eauto with c54x. Qed.

(** ** Reset *)
Definition stubs (s : C54xState) : Prop :=
  ∀ i, 0 ≤ i < 0x80 → mget (prog s) i = if i <? 2 then 0xFC00 else 0xF4E4.

Lemma fret_stubs_get n m x :
  mget (fret_stubs n m) x = if (0 <=? x) && (x <? Z.of_nat n) then 0xF4E4 else mget m x.
Proof.
  induction n as [|n IH]; cbn [fret_stubs].
  - case_if; [bool_prop; lia|done].
  - rewrite mget_insert, IH.
    destruct (Z.eqb_spec x (Z.of_nat n)), (Z.leb_spec 0 x), (Z.ltb_spec x (Z.of_nat n)),
      (Z.ltb_spec x (Z.of_nat (S n))); cbn [andb]; lia || done.
Qed.

Lemma overlay_copy_prog n s : prog (overlay_copy n s) = prog s.
Proof.
  induction n as [|n IH]; [done|]. cbn [overlay_copy]. rewrite <- IH. unfold put_data. cbv zeta. by case_if.
Qed.

Lemma overlay_copy_get (get : C54xState → Z → Z) n s x :
  (∀ s a w x, get (put_data s a w) x = if x =? a then w else get s x) →
  get (overlay_copy n s) x =
  if (0x80 <=? x) && (x <? 0x80 + Z.of_nat n) then mget (prog s) (x + 0x7000) else get s x.
Proof.
  intros Hg. induction n as [|n IH]; cbn [overlay_copy].
  - case_if; [bool_prop; lia|done].
  - rewrite Hg, IH, overlay_copy_prog. destruct (Z.eqb_spec x (0x80 + Z.of_nat n)) as [->|].
    + rewrite (proj2 (Z.leb_le _ _)), (proj2 (Z.ltb_lt _ _)) by lia. cbn [andb]. f_equal. lia.
    + destruct (Z.leb_spec 0x80 x), (Z.ltb_spec x (0x80 + Z.of_nat n)),
        (Z.ltb_spec x (0x80 + Z.of_nat (S n))); cbn [andb]; lia || done.
Qed.

Lemma overlay_copy_keeps {B} (g : C54xState → B) n s :
  (∀ s a w, g (put_data s a w) = g s) → g (overlay_copy n s) = g s.
Proof. intros Hg. induction n as [|n IH]; [done|]. cbn [overlay_copy]. by rewrite Hg. Qed.

Lemma wf_overlay_copy n s : wf s → wf (overlay_copy n s).
Proof. intros H. induction n; [done|]. cbn [overlay_copy]. apply wf_put_data; eauto with c54x. Qed.

Lemma reset_base_keeps mode d :
  prog (reset_base mode d) = prog (core d) ∧ api_ram (reset_base mode d) = api_ram (core d).
Proof. unfold reset_base. cbv zeta. destruct mode, (reg_init_valid d); done. Qed.

#[local] Opaque overlay_copy.

(** The state after the copy, whatever its length. *)
Lemma overlay_state n mode d :
  let s1 := overlay_copy n (reset_base mode d) in
  prog s1 = prog (core d) ∧ xpc s1 = 0 ∧
  mget (data s1) TCR_ADDR = TCR_TSS ∧
  ∀ get, (∀ s a w x, get (put_data s a w) x = if x =? a then w else get s x) →
    ∀ x, 0x80 ≤ x < 0x80 + Z.of_nat n → get s1 x = mget (prog (core d)) (x + 0x7000).
Proof.
  intros s1. destruct (reset_base_keeps mode d) as [Ep _]. unfold s1. rewrite overlay_copy_prog. split; [done|].
  split; [|split].
  - rewrite (overlay_copy_keeps xpc).
    + unfold reset_base. cbv zeta. by destruct mode, (reg_init_valid d).
    + intros. unfold put_data. cbv zeta. by case_if.
  - rewrite (overlay_copy_get (λ s, mget (data s)) _ _ _ data_put_data). case_if; [bool_prop; unfold TCR_ADDR in *; lia|].
    unfold reset_base. cbv zeta. cbn [data update_field]. rewrite !mget_insert. done.
  - intros get Hg x Hx. rewrite (overlay_copy_get get) by done. rewrite Ep.
    rewrite (proj2 (Z.leb_le _ _)), (proj2 (Z.ltb_lt _ _)) by lia. done.
Qed.

Lemma boot_stubs_spec s :
  stubs (boot_stubs s) ∧ (∀ x, 0x80 ≤ x → mget (prog (boot_stubs s)) x = mget (prog s) x) ∧
  pc (boot_stubs s) = iptr s * 0x80.
Proof.
  assert (Hp : ∀ x, mget (prog (boot_stubs s)) x = if x =? 1 then 0xFC00 else if x =? 0 then 0xFC00
             else if (0 <=? x) && (x <? 0x80) then 0xF4E4 else mget (prog s) x).
  { intros x. unfold boot_stubs. cbv zeta. cbn [prog update_field]. by rewrite !mget_insert, fret_stubs_get. }
  split; [|split].
  - intros i Hi. rewrite Hp. destruct (Z.eqb_spec i 1) as [->|]; [done|]. destruct (Z.eqb_spec i 0) as [->|]; [done|].
    rewrite (proj2 (Z.leb_le _ _)), (proj2 (Z.ltb_lt i 0x80)), (proj2 (Z.ltb_ge i 2)) by lia. done.
  - intros x Hx. rewrite Hp. rewrite !(proj2 (Z.eqb_neq x _)) by lia.
    rewrite (proj2 (Z.ltb_ge x 0x80)), andb_false_r by lia. done.
  - unfold boot_stubs. cbv zeta. cbn [pc update_field]. apply u16_small. unfold iptr. cbn [pmst update_field].
    pose proof (land_range (Z.shiftr (pmst s) PMST_IPTR_SHIFT) 0x1FF). lia.
Qed.

(** The memories after a reset. *)
Lemma reset_memory mode d :
  let s := core (c54x_reset mode d) in
  stubs s ∧
  (∀ x, 0x80 ≤ x < 0x2800 → mget (data s) x = mget (prog (core d)) (x + 0x7000)) ∧
  (∀ x, 0x80 ≤ x < 0x2800 → raw s x = mget (prog (core d)) (x + 0x7000)) ∧
  (∀ x, 0x80 ≤ x → mget (prog s) x = mget (prog (core d)) x) ∧
  pc s = iptr s * 0x80 ∧ xpc s = 0 ∧ mget (data s) TCR_ADDR = TCR_TSS.
Proof.
  unfold c54x_reset. cbv zeta. cbn [core update_field].
  destruct (overlay_state (Z.to_nat 0x2780) mode d) as (Ep & Ex & Et & Eg). rewrite Z2Nat.id in Eg by lia.
  revert Ep Ex Et Eg. generalize (overlay_copy (Z.to_nat 0x2780) (reset_base mode d)). intros s1 Ep Ex Et Eg.
  destruct (boot_stubs_spec s1) as (H1 & H2 & H3). split; [done|]. split; [|split; [|split; [|split; [|split]]]].
  - intros x Hx. apply (Eg (λ s, mget (data s)) data_put_data). lia.
  - intros x Hx. apply (Eg raw raw_put_data). lia.
  - intros x Hx. by rewrite H2, Ep.
  - exact H3.
  - exact Ex.
  - exact Et.
Qed.

Lemma acc40_acc_of r i : Forall word r → acc40 (acc_of r i).
Proof.
  intros H. assert (∀ j, word (rd r j)) as Hr by eauto with c54x. unfold acc_of, acc40, word in *.
  pose proof (Hr i). pose proof (Hr (i + 1)). pose proof (land_range (rd r (i + 2)) 0xFF ltac:(lia)).
  assert (0 ≤ acc_of r i < 2 ^ 40); [|unfold acc_of in *; lia].
  unfold acc_of. apply lor_range; [lia|apply lor_range; [lia| |]|]; rewrite ?Z.shiftl_mul_pow2 by lia; lia.
Qed.

(** [wf] of a state made by many assignments, field by field. *)
Local Ltac wf_fields :=
  constructor; cbn [a b ar t trn sp bk brc rsa rea st0 st1 pmst imr ifr pc xpc timer_psc
    dma_subaddr dma_subregs spsa prog data api_ram pm_in rpt_count delayed_pc mvpd_src firs_pm update_field];
  try assumption; try done; try (unfold word; lia); try (unfold acc40; lia).

Lemma wf_reset_regs s : wf s → wf (reset_regs s).
Proof.
  intros []. unfold reset_regs. wf_fields. repeat (constructor; [unfold word; lia|]). constructor.
Qed.

Lemma wf_apply_regs mode r s : Forall word r → wf s → wf (apply_regs mode r s).
Proof.
  intros Hr []. assert (∀ j, word (rd r j)) as Hw by eauto with c54x.
  pose proof (acc40_acc_of _ 0x08 Hr). pose proof (acc40_acc_of _ 0x0b Hr).
  assert (Forall word (map (λ i, rd r (0x10 + i)) (zseq 0 8))) by (apply Forall_map, Forall_true; auto).
  unfold apply_regs. cbv zeta. destruct mode; wf_fields; apply Hw.
Qed.

Lemma wf_reset_base mode d : wf (core d) → Forall word (reg_init d) → wf (reset_base mode d).
Proof.
  intros H Hr. unfold reset_base. cbv zeta.
  assert (H3 : wf (match mode with MODE_C54X => reset_regs (core d)
                   | _ => if reg_init_valid d then apply_regs mode (reg_init d) (reset_regs (core d)) else reset_regs (core d) end))
    by (destruct mode, (reg_init_valid d); auto using wf_apply_regs, wf_reset_regs).
  revert H3. match goal with |- wf ?x → _ => generalize x end. intros s [].
  wf_fields.
  change TCR_TSS with 16. repeat (apply mem_ok_insert; [unfold word; lia|]). done.
Qed.

Lemma wf_boot_stubs s : wf s → wf (boot_stubs s).
Proof.
  intros H. unfold boot_stubs. cbv zeta. apply wf_set_pc; [|apply pow32_word, word_u16].
  apply wf_set_prog; [done|]. assert (∀ n, mem_ok (fret_stubs n (prog s))).
  { intros n. induction n; cbn [fret_stubs]; [apply (wf_prog _ H)|]. apply mem_ok_insert; [unfold word; lia|done]. }
  do 2 (apply mem_ok_insert; [unfold word; lia|]). auto.
Qed.

Lemma wf_c54x_reset mode d : wf (core d) → Forall word (reg_init d) → wf (core (c54x_reset mode d)).
Proof.
  intros. unfold c54x_reset. cbv zeta. cbn [core update_field].
  apply wf_boot_stubs, wf_overlay_copy. by apply wf_reset_base.
Qed.

(** ** From the image to the first instructions *)

(** The PMST of a reset: the hard-coded one, or that of a register file that was
    loaded. *)
Definition reset_pmst (mode : reg_mode) (d : dsp) : Z :=
  match mode with MODE_C54X => 0xFFA8 | _ => if reg_init_valid d then rd (reg_init d) 0x1d else 0xFFA8 end.

Lemma overlay_copy_pmst n s : pmst (overlay_copy n s) = pmst s.
Proof.
  induction n as [|n IH]; [done|]. cbn [overlay_copy]. rewrite <- IH. unfold put_data. cbv zeta. by case_if.
Qed.

Lemma pmst_boot_stubs n s : pmst (boot_stubs (overlay_copy n s)) = pmst s.
Proof. rewrite <- (overlay_copy_pmst n s). by generalize (overlay_copy n s). Qed.

Lemma core_reset mode d :
  core (c54x_reset mode d) = boot_stubs (overlay_copy (Z.to_nat 0x2780) (reset_base mode d)).
Proof. unfold c54x_reset. cbv zeta. generalize (boot_stubs (overlay_copy (Z.to_nat 0x2780) (reset_base mode d))). done. Qed.

Lemma pmst_of_reset mode d : pmst (core (c54x_reset mode d)) = reset_pmst mode d.
Proof.
  rewrite core_reset, pmst_boot_stubs. unfold reset_base, reset_pmst. cbv zeta. by destruct mode, (reg_init_valid d).
Qed.

(** C23: a boot from files.  Load a program section that covers the boot ROM
    (words 0x7080 to 0x97FF), then reset in any mode: the loader takes every
    whole word that fits; each program cell of the section from 0x80 on holds
    the word of the file, and the cells below are the return stubs of the reset;
    the overlay holds the boot ROM in the memory the DSP reads and in the view of
    the ARM alike, and the program is fetched from it exactly when the PMST of
    the reset has OVLY (always with the hard-coded registers), otherwise from
    program memory; the core starts at the reset vector of the interrupt page in
    PMST with page 0 and the timer stopped, and its state is well formed. *)
Theorem boot_from_image mode d f start :
  wf (core d) → Forall word (reg_init d) → byte_file f →
  0 ≤ start ≤ 0x7080 → 0x9800 ≤ start + zlen f / 2 →
  let '(n, s) := c54x_load_section (core d) (Some f) start true in
  let s' := core (c54x_reset mode (d <| core := s |>)) in
  n = Z.min (zlen f / 2) (C54X_PROG_SIZE - start) ∧
  (∀ x, start ≤ x < start + n → mget (prog s') x =
     if x <? 2 then 0xFC00 else if x <? 0x80 then 0xF4E4 else fword f (x - start)) ∧
  pmst s' = reset_pmst mode d ∧
  (∀ x, 0x80 ≤ x < 0x2800 →
    let w := fword f (x + 0x7000 - start) in
    data_read s' x = w ∧ prog_fetch s' x = (if has (pmst s') PMST_OVLY then w else mget (prog s') x) ∧
    ∀ m, api_ram s' = Some m → 0x800 ≤ x → mget m (x - 0x800) = w) ∧
  pc s' = iptr s' * 0x80 ∧ xpc s' = 0 ∧ has (mget (data s') TCR_ADDR) TCR_TSS = true ∧ wf s'.
Proof.
  intros Hw Hr Hb Hs Hf. unfold c54x_load_section.
  destruct (load_loop_get put_prog C54X_PROG_SIZE (λ s, mget (prog s)) f (core d) start 0 prog_put_prog) as [En Eg].
  pose proof (load_loop_wf put_prog C54X_PROG_SIZE f (core d) start 0 wf_put_prog Hb Hw) as Hws.
  destruct (load_loop put_prog C54X_PROG_SIZE f (core d) start 0) as [n s]. cbn [fst snd] in *. cbv zeta.
  assert (n = Z.min (zlen f / 2) (C54X_PROG_SIZE - start)) as Hn by (unfold loaded, C54X_PROG_SIZE in *; lia).
  unfold loaded in Eg. split; [done|].
  assert (Ein : ∀ x, start ≤ x < start + n → mget (prog s) x = fword f (x - start)).
  { intros x Hx. rewrite Eg, (proj2 (Z.leb_le _ _)), (proj2 (Z.ltb_lt _ _)) by (unfold C54X_PROG_SIZE in *; lia). done. }
  destruct (reset_memory mode (d <| core := s |>)) as (M0 & M1 & M2 & M3 & M4 & M5 & M6).
  assert (Hwf : wf (core (c54x_reset mode (d <| core := s |>)))) by (by apply wf_c54x_reset).
  pose proof (pmst_of_reset mode (d <| core := s |>)) as Mp. change (reset_pmst mode (d <| core := s |>)) with (reset_pmst mode d) in Mp.
  revert M0 Mp M1 M2 M3 M4 M5 M6 Hwf. generalize (core (c54x_reset mode (d <| core := s |>))). intros s' M0 Mp M1 M2 M3 M4 M5 M6 Hwf.
  cbn [core update_field] in *. split.
  { intros x Hx. destruct (Z.ltb_spec x 0x80).
    - rewrite M0 by lia. done.
    - rewrite M3, Ein, (proj2 (Z.ltb_ge x 2)) by lia. done. }
  split; [done|]. split.
  - intros x Hx. assert (E : mget (prog s) (x + 0x7000) = fword f (x + 0x7000 - start))
      by (apply Ein; unfold C54X_PROG_SIZE in *; lia).
    split; [|split].
    + rewrite data_read_raw by (unfold TCR_ADDR; lia). by rewrite M2.
    + unfold prog_fetch. cbv zeta. rewrite u16_small by lia. unfold in_ovly, c54x_ovly_bas, c54x_prog_xlate.
      rewrite (proj2 (Z.leb_le 0x60 _)), (proj2 (Z.ltb_lt x 0x2800)), (proj2 (Z.leb_gt 0x8000 x)) by lia.
      destruct (has (pmst s') PMST_OVLY); cbn [andb]; [by rewrite M1|done].
    + intros m Hm Hx8. rewrite <- E, <- M2 by done. unfold raw. rewrite Hm.
      assert (in_api x = true) as -> by (unfold in_api, C54X_API_BASE, C54X_API_SIZE; lia). done.
  - rewrite M6. done.
Qed.

(** A boot ROM of words 0x3412, reset with the hard-coded registers. *)
Lemma boot_from_image_witness :
  let f := concat (replicate (Z.to_nat 0x2780) [0x12; 0x34]) in
  let s' := core (c54x_reset MODE_C54X (c54x_init <| core := snd (c54x_load_section (core c54x_init) (Some f) 0x7080 true) |>)) in
  data_read s' 0x100 = 0x3412 ∧ wf s'.
Proof.
  intros f. assert (Hl : zlen f / 2 = 0x2780) by (vm_compute; reflexivity).
  assert (Hb : byte_file f).
  { unfold f, byte_file. apply Forall_concat, Forall_replicate. repeat (constructor; [lia|]). constructor. }
  assert (Hf : fword f (0x100 + 0x7000 - 0x7080) = 0x3412) by (vm_compute; reflexivity).
  clearbody f. assert (Hw : wf (core c54x_init)).
  { constructor; cbn; try done; try (unfold word; lia); try (unfold acc40; lia); try apply map_Forall_empty;
      repeat (constructor; [unfold word; lia|]); constructor. }
  assert (Hr : Forall word (reg_init c54x_init)) by (apply Forall_replicate; unfold word; lia).
  pose proof (boot_from_image MODE_C54X c54x_init f 0x7080 Hw Hr Hb ltac:(lia) ltac:(rewrite Hl; lia)) as H.
  destruct (c54x_load_section (core c54x_init) (Some f) 0x7080 true) as [n s]. cbn [snd]. cbv zeta in H |- *.
  destruct H as (_ & _ & _ & H & _ & _ & _ & Hwf). split; [|exact Hwf].
  rewrite (proj1 (H 0x100 ltac:(lia))). exact Hf.
Defined.

(** ** Calls into the stubs *)

(** Below the overlay the program is that of the lowest 32K words. *)
Lemma fetch_low s x : 0 ≤ x < 0x60 → prog_fetch s x = mget (prog s) x.
Proof.
  intros Hx. unfold prog_fetch, in_ovly, c54x_ovly_bas, c54x_prog_xlate. cbv zeta. rewrite u16_small by lia.
  rewrite (proj2 (Z.leb_gt 0x60 x)), andb_false_r, (proj2 (Z.leb_gt 0x8000 x)) by lia. done.
Qed.

(** CALA and RET. *)
Lemma near_call_return s op :
  wf s → pc s + 1 < 65536 → pc s ≠ 0xbc36 → (op = 0xF4E3 ∨ op = 0xF5E3) →
  plain_cell (u16 (sp s - 1)) = true →
  let acc := if op =? 0xF5E3 then b s else a s in
  let s1 := exec_bacc_cala s op in
  pc s1 = Z.land acc 0xFFFF ∧ prog s1 = prog s ∧
  ∃ s2, exec_op s1 0xFC00 = Some (0, s2) ∧ context s2 = context (s <| pc := pc s + 1 |>).
Proof.
  intros Hw Hpc Hne Hop H1 acc s1. pose proof (wf_sp _ Hw) as Hsp. pose proof (wf_pc _ Hw) as Hp. unfold word in Hsp.
  assert (has op 0x0100 = (op =? 0xF5E3) ∧ has op 1 = true) as [Eb Ec] by (destruct Hop as [-> | ->]; done).
  assert (s1 = push s (pc s + 1) <| pc := Z.land acc 0xFFFF |>) as ->.
  { unfold s1, exec_bacc_cala, push. cbv zeta. rewrite Eb, Ec. fold acc. rewrite u16_small by lia.
    rewrite (proj2 (Z.eqb_neq _ _) Hne). cbn [andb]. rewrite !land_ffff, (u16_small (pc s + 1)) by lia.
    done. }
  destruct (push_spec s (pc s + 1) H1) as (Er & Es & Ed). pose proof (plain_cell_range _ H1).
  specialize (Ed (u16 (sp s - 1)) ltac:(lia)). rewrite Z.eqb_refl in Ed.
  generalize dependent (push s (pc s + 1)). intros s2 Er Es Ed. split; [done|].
  split; [by injection Er|]. eexists. split; [reflexivity|].
  assert (u16 (u16 (sp s - 1) + 1) = sp s) as Eu by (unfold u16; mlia).
  unfold context, regs in *. injection Er as Ea Eb' Ear Et Etrn Ebk Ebrc Ersa Erea Est0 Est1 Epm Eim _ _ Ex _ _ _.
  cbn [sp pc update_field a b ar t trn bk brc rsa rea st0 st1 pmst imr xpc].
  rewrite (data_read_dmem s2) by (lia || done). rewrite Es, Ed, Eu.
  rewrite Ea, Eb', Ear, Et, Etrn, Ebk, Ebrc, Ersa, Erea, Est0, Est1, Epm, Eim, Ex. done.
Qed.

(** the stubs of the reset balance a call that lands on them.  After a
    reset, as long as the program has not written over them, a near call through
    an accumulator to word 0 or 1, and a far call to a word from 2 to 0x5F, come
    back with the next instruction: to the instruction behind the call, with
    the page, the stack level and every register of the caller. *)
Theorem stub_calls_return mode d :
  stubs (core (c54x_reset mode d)) ∧
  ∀ s, stubs s → wf s → pc s + 1 < 65536 → pc s ≠ 0xbc36 →
  plain_cell (u16 (sp s - 1)) = true → plain_cell (u16 (sp s - 2)) = true →
  (∀ op, op = 0xF4E3 ∨ op = 0xF5E3 → 0 ≤ Z.land (if op =? 0xF5E3 then b s else a s) 0xFFFF < 2 →
    ∃ s1 s2, exec_op s op = Some (0, s1) ∧ exec_op s1 (prog_fetch s1 (pc s1)) = Some (0, s2) ∧
             context s2 = context (s <| pc := pc s + 1 |>)) ∧
  (∀ op, op = 0xF4E7 ∨ op = 0xF5E7 → 2 ≤ (if op =? 0xF5E7 then b s else a s) mod 2 ^ 16 < 0x60 →
    ∃ s1 s2, exec_op s op = Some (0, s1) ∧ exec_op s1 (prog_fetch s1 (pc s1)) = Some (0, s2) ∧
             context s2 = context (s <| pc := pc s + 1 |>)).
Proof.
  split; [apply reset_memory|]. intros s Hs Hw Hpc Hne H1 H2. split.
  - intros op Hop Ht. destruct (near_call_return s op Hw Hpc Hne Hop H1) as (Ep & Eg & s2 & Ex & Ec).
    exists (exec_bacc_cala s op), s2. split; [by destruct Hop as [-> | ->]|]. split; [|done].
    rewrite Ep, fetch_low, Eg, Hs, (proj2 (Z.ltb_lt _ _)) by lia. exact Ex.
  - intros op Hop Ht. destruct (far_call_return_roundtrip s op Hw Hpc Hop H1 H2) as (Ep & _ & Ec).
    exists (exec_fbacc_fcala s op), (exec_fret (exec_fbacc_fcala s op) false).
    split; [by destruct Hop as [-> | ->]|]. split; [|done].
    assert (Eg : prog (exec_fbacc_fcala s op) = prog s).
    { unfold exec_fbacc_fcala. cbv zeta. cbn [prog update_field]. case_if; [|done]. rewrite far_push_is_push.
      destruct (push_push_spec s (u16 (pc s + 1)) (xpc (push s (u16 (pc s + 1)))) H1 H2) as [Er _]. by injection Er. }
    rewrite Ep, fetch_low, Eg, Hs, (proj2 (Z.ltb_ge _ _)) by lia. done.
Qed.

(** CALA with A null. *)
Lemma stub_calls_return_witness :
  let s := boot_stubs c54x_zero in
  ∃ s1 s2, exec_op s 0xF4E3 = Some (0, s1) ∧ exec_op s1 (prog_fetch s1 (pc s1)) = Some (0, s2) ∧
           context s2 = context (s <| pc := 1 |>).
Proof.
  intros s.
  destruct (stub_calls_return MODE_C54X c54x_init) as [_ H].
  assert (Hs : stubs s) by apply boot_stubs_spec.
  assert (Hw : wf s) by apply wf_boot_stubs, wf_zero.
  apply (proj1 (H s Hs Hw ltac:(vm_compute; reflexivity) ltac:(vm_compute; congruence) eq_refl eq_refl) 0xF4E3).
  - left. reflexivity.
  - vm_compute. split; congruence.
Defined.

(** ** What a reset leaves *)

(** The stubs from 0x60 on are behind the overlay: with the PMST of the reset a
    call to them runs the scratch memory. *)
Example stub_behind_overlay :
  let s := boot_stubs (reset_base MODE_C54X c54x_init) in
  mget (prog s) 0x70 = 0xF4E4 ∧ prog_fetch s 0x5F = 0xF4E4 ∧ prog_fetch s 0x70 = 0.
Proof. vm_compute. split_and!; reflexivity. Qed.

(** A reset between a delayed branch and its slots keeps the branch: the core
    leaves the reset vector for the old target. *)
Lemma reset_keeps_delayed_branch mode d :
  delay_slots (core (c54x_reset mode d)) = delay_slots (core d) ∧
  delayed_pc (core (c54x_reset mode d)) = delayed_pc (core d).
Proof.
  unfold c54x_reset. generalize (Z.to_nat 0x2780). intros n. cbv zeta. cbn [core update_field].
  assert (Hk : ∀ s, delay_slots (boot_stubs s) = delay_slots s ∧ delayed_pc (boot_stubs s) = delayed_pc s) by done.
  destruct (Hk (overlay_copy n (reset_base mode d))) as [-> ->].
  rewrite (overlay_copy_keeps delay_slots), (overlay_copy_keeps delayed_pc)
    by (intros; unfold put_data; cbv zeta; by case_if).
  unfold reset_base. cbv zeta. by destruct mode, (reg_init_valid d).
Qed.

Example reset_in_delay_slot :
  let s := boot_stubs (reset_base MODE_C54X (c54x_init <| core := c54x_zero <| delay_slots := 1 |> <| delayed_pc := 0x1234 |> |>)) in
  let s := s <| prog := <[0xFF80 := 0xF495]> (prog s) |> in
  pc s = 0xFF80 ∧ (pc <$> run_step false false s) = Some 0x1234.
Proof. vm_compute. split; reflexivity. Qed.

(** The register file loads the guard byte without extending the sign: a
    negative accumulator becomes a positive one, and SAT goes the wrong way. *)
Example reset_guard_not_extended :
  let r := [0; 0; 0; 0; 0; 0; 0x181F; 0x2900; 0; 0; 0xFF] in
  let s := apply_regs MODE_BIN r c54x_zero in
  let ok := s <| a := sext40 (a s) |> in
  a s = 0xFF00000000 ∧ a ok = - 2 ^ 32 ∧
  ed_cond (s <| b := a s |>) 0x08 = false ∧ ed_cond (ok <| b := a ok |>) 0x08 = true.
Proof. vm_compute. split_and!; reflexivity. Qed.

End DspBoot.
