(* ===== verification/DspDma.v ===== *)
(** * The on-chip DMA controller of the C54x
    ([hw/arm/calypso/l1-dsp/calypso_dma.c])

    Six channels of five registers behind a sub-address, programmed through four
    memory-mapped registers; a rising enable bit arms a channel, and the frame
    tick carries the armed transfers out as block copies in data memory and
    raises the one DMA interrupt.  The controller is enabled by a switch; the
    definitions below are the enabled controller, [calypso_dma_mmr_write] and
    [calypso_dma_tick] with the switch as argument.  The interrupt vector and
    the limit of words per transfer are configuration. *)
From stdpp Require Import gmap.
From S2P Require Import Prelude C54xAddr C54xState C54xDecode C54xIrq.

Module DspDma.
Import C54xAddr C54xState C54xDecode C54xIrq.

Definition C54X_DMPREC : Z := 0x0054.
Definition C54X_DMSA : Z := 0x0055.
Definition C54X_DMSDI : Z := 0x0056.
Definition C54X_DMSDN : Z := 0x0057.
Definition C54X_DMA_CANAUX : nat := 6.
Definition C54X_IT_DMA_VEC : Z := 30.

Record dma := mkDma { g_dmprec : Z; g_subaddr : Z; g_sub : list Z; g_arme : list bool }.
#[export] Instance dma_eta : Settable dma := λ d, mkDma (g_dmprec d) (g_subaddr d) (g_sub d) (g_arme d).

(** The static variables. *)
Definition dma_init : dma := mkDma 0 0 (replicate 30 0) (replicate 6 false).

Record config := mkConfig { actif : bool; g_vec_base : Z; g_max_mots : Z }.
Definition default_config : config := mkConfig true C54X_IT_DMA_VEC 4096.

Definition set_data (s : C54xState) (addr v : Z) : C54xState := s <| data := <[addr := v]> (data s) |>.

(** The channels a write of DMPREC arms: those whose bit rises. *)
Definition arm_edges (avant val : Z) (arme : list bool) : list bool :=
  imap (λ c x, x || (Z.testbit val (Z.of_nat c) && negb (Z.testbit avant (Z.of_nat c)))) arme.

(** [None] when the write is not the controller's. *)
Definition calypso_dma_mmr_write (g : config) (d : dma) (s : C54xState) (addr val : Z) : option (dma * C54xState) :=
  if negb (actif g) then None
  else if addr =? C54X_DMPREC then
    Some (d <| g_dmprec := val |> <| g_arme := arm_edges (g_dmprec d) val (g_arme d) |>, set_data s addr val)
  else if addr =? C54X_DMSA then Some (d <| g_subaddr := val |>, set_data s addr val)
  else if (addr =? C54X_DMSDI) || (addr =? C54X_DMSDN) then
    let d1 := if g_subaddr d <? Z.of_nat C54X_DMA_CANAUX * 5 then d <| g_sub := wr (g_sub d) (g_subaddr d) val |> else d in
    Some (if addr =? C54X_DMSDI then d1 <| g_subaddr := u16 (g_subaddr d1 + 1) |> else d1, set_data s addr val)
  else None.

(** The transfer: words 0 to [n]-1, in order. *)
Fixpoint block_copy (n : nat) (dst src : Z) (m : mem) : mem :=
  match n with
  | O => m
  | S k => let m := block_copy k dst src m in
           <[u16 (dst + Z.of_nat k) := mget m (u16 (src + Z.of_nat k))]> m
  end.

(** One channel at the tick. *)
Definition channel_tick (g : config) (c : nat) (w : dma * C54xState) : dma * C54xState :=
  let '(d, s) := w in
  if negb (default false (g_arme d !! c)) then w
  else
    let base := Z.of_nat c * 5 in
    let src := rd (g_sub d) base in
    let dst := rd (g_sub d) (base + 1) in
    let n := rd (g_sub d) (base + 2) in
    let disarmed := <[c := false]> (g_arme d) in
    if (n =? 0) || (g_max_mots g <? n) then (d <| g_arme := disarmed |>, s)
    else
      let s := s <| data := block_copy (Z.to_nat n) dst src (data s) |> in
      let prec := Z.clearbit (g_dmprec d) (Z.of_nat c) in
      let d := d <| g_sub := wr (g_sub d) (base + 2) 0 |> <| g_arme := disarmed |> <| g_dmprec := prec |> in
      (d, c54x_interrupt_ex (set_data s C54X_DMPREC prec) (g_vec_base g) (g_vec_base g - 16)).

Definition calypso_dma_tick (g : config) (d : dma) (s : C54xState) : dma * C54xState :=
  if negb (actif g) then (d, s)
  else foldl (λ w c, channel_tick g c w) (d, s) (seq 0 C54X_DMA_CANAUX).

(** ** The block copy *)

(** Where word [i] of the copy comes from: when the destination starts [e]
    words after the source inside the block, the first [e] words repeat. *)
Definition origin (dst src i : Z) : Z :=
  let e := u16 (dst - src) in u16 (src + if e =? 0 then i else i mod e).

Lemma u16_add_inj x i j : 0 ≤ i < 65536 → 0 ≤ j < 65536 → u16 (x + i) = u16 (x + j) → i = j.
Proof. unfold u16. intros. mlia. Qed.

Lemma block_copy_spec n dst src m :
  Z.of_nat n ≤ 65536 → 0 ≤ dst < 65536 → 0 ≤ src < 65536 →
  (∀ i, 0 ≤ i < Z.of_nat n → mget (block_copy n dst src m) (u16 (dst + i)) = mget m (origin dst src i)) ∧
  (∀ x, (∀ i, 0 ≤ i < Z.of_nat n → x ≠ u16 (dst + i)) → mget (block_copy n dst src m) x = mget m x).
Proof.
  intros Hn Hd Hs. induction n as [|n IH]; [split; [lia|done]|]. destruct IH as [IH1 IH2]; [lia|].
  cbn [block_copy]. split.
  - intros i Hi. rewrite mget_insert. destruct (Z.eq_dec i (Z.of_nat n)) as [->|Hne].
    + rewrite Z.eqb_refl. unfold origin. set (e := u16 (dst - src)). cbv zeta.
      assert (He : 0 ≤ e < 65536) by apply u16_range.
      destruct (Z.eqb_spec e 0) as [E0|E0].
      * apply IH2. intros i Hi2 Eu. assert (dst = src) by (unfold e, u16 in E0; mlia). subst dst.
        apply u16_add_inj in Eu; lia.
      * destruct (Z.lt_ge_cases (Z.of_nat n) e) as [Hlt|Hge].
        -- rewrite (Z.mod_small _ e) by lia. apply IH2. intros i Hi2 Eu. unfold e, u16 in *. mlia.
        -- assert (Eu : u16 (src + Z.of_nat n) = u16 (dst + (Z.of_nat n - e))).
           { unfold e, u16. mlia. }
           rewrite Eu, IH1 by lia. unfold origin. fold e. cbv zeta.
           rewrite (proj2 (Z.eqb_neq e 0) E0).
           replace ((Z.of_nat n - e) mod e) with (Z.of_nat n mod e); [done|].
           rewrite <- (Z.mod_add (Z.of_nat n - e) 1 e) by lia. f_equal. lia.
    + rewrite (proj2 (Z.eqb_neq _ _)); [apply IH1; lia|].
      intros Eu. apply u16_add_inj in Eu; lia.
  - intros x Hx. rewrite mget_insert, (proj2 (Z.eqb_neq _ _)) by (apply Hx; lia).
    apply IH2. intros i Hi. apply Hx. lia.
Qed.

(** ** Programming a channel *)
Record shape (d : dma) : Prop := mkShape {
  sh_sub : length (g_sub d) = 30%nat;
  sh_arme : length (g_arme d) = 6%nat;
  sh_words : Forall word (g_sub d)
}.

Definition armed (d : dma) (c : nat) : bool := default false (g_arme d !! c).

(** The writes of a driver that programs channel [c] and enables it. *)
Definition programming (d : dma) (c : nat) (src dst ctr : Z) : list (Z * Z) :=
  [(C54X_DMSA, Z.of_nat c * 5); (C54X_DMSDI, src); (C54X_DMSDI, dst); (C54X_DMSDI, ctr);
   (C54X_DMPREC, Z.setbit (g_dmprec d) (Z.of_nat c))].

Definition mmr_writes (g : config) (w : dma * C54xState) (l : list (Z * Z)) : dma * C54xState :=
  foldl (λ w x, default w (calypso_dma_mmr_write g w.1 w.2 x.1 x.2)) w l.

Lemma arm_edges_lookup avant val l k :
  default false (arm_edges avant val l !! k) =
  default false ((λ x, x || (Z.testbit val (Z.of_nat k) && negb (Z.testbit avant (Z.of_nat k)))) <$> l !! k).
Proof. unfold arm_edges. by rewrite list_lookup_imap. Qed.

Lemma mmr_writes_cons g d s x l w :
  calypso_dma_mmr_write g d s x.1 x.2 = Some w → mmr_writes g (d, s) (x :: l) = mmr_writes g w l.
Proof. intros E. unfold mmr_writes. cbn [foldl fst snd]. by rewrite E. Qed.

Lemma write_dmsa g d s v :
  actif g = true → calypso_dma_mmr_write g d s C54X_DMSA v = Some (d <| g_subaddr := v |>, set_data s C54X_DMSA v).
Proof. unfold calypso_dma_mmr_write. by intros ->. Qed.
Lemma write_dmsdi g d s v :
  actif g = true → g_subaddr d < 30 →
  calypso_dma_mmr_write g d s C54X_DMSDI v =
  Some (d <| g_sub := wr (g_sub d) (g_subaddr d) v |> <| g_subaddr := u16 (g_subaddr d + 1) |>, set_data s C54X_DMSDI v).
Proof.
  unfold calypso_dma_mmr_write. intros -> H. change (Z.of_nat C54X_DMA_CANAUX * 5) with 30.
  by rewrite (proj2 (Z.ltb_lt _ _) H).
Qed.
Lemma write_dmprec g d s v :
  actif g = true →
  calypso_dma_mmr_write g d s C54X_DMPREC v =
  Some (d <| g_dmprec := v |> <| g_arme := arm_edges (g_dmprec d) v (g_arme d) |>, set_data s C54X_DMPREC v).
Proof. unfold calypso_dma_mmr_write. by intros ->. Qed.

(** After them the registers of the channel hold its parameters and it is the
    only one armed. *)
Lemma program_state g d s c src dst ctr :
  actif g = true → shape d → (c < 6)%nat → word src → word dst → word ctr →
  (∀ k, armed d k = false) → Z.testbit (g_dmprec d) (Z.of_nat c) = false →
  let '(d1, s1) := mmr_writes g (d, s) (programming d c src dst ctr) in
  shape d1 ∧ rd (g_sub d1) (Z.of_nat c * 5) = src ∧ rd (g_sub d1) (Z.of_nat c * 5 + 1) = dst ∧
  rd (g_sub d1) (Z.of_nat c * 5 + 2) = ctr ∧ g_dmprec d1 = Z.setbit (g_dmprec d) (Z.of_nat c) ∧
  (∀ k, armed d1 k = bool_decide (k = c)) ∧
  s1 = s <| data := <[C54X_DMPREC := g_dmprec d1]> (<[C54X_DMSDI := ctr]> (<[C54X_DMSDI := dst]>
         (<[C54X_DMSDI := src]> (<[C54X_DMSA := Z.of_nat c * 5]> (data s))))) |>.
Proof.
  intros Ha [H1 H2 H3] Hc Hs Hd Hn Hoff Hbit. unfold programming.
  erewrite mmr_writes_cons by (by apply write_dmsa).
  erewrite mmr_writes_cons by (apply write_dmsdi; [done|cbn [g_subaddr update_field fst snd]; lia]). cbn [g_subaddr g_sub update_field fst snd].
  rewrite (u16_small (Z.of_nat c * 5 + 1)) by lia.
  erewrite mmr_writes_cons by (apply write_dmsdi; [done|cbn [g_subaddr update_field fst snd]; lia]). cbn [g_subaddr g_sub update_field fst snd].
  rewrite (u16_small (Z.of_nat c * 5 + 1 + 1)) by lia. replace (Z.of_nat c * 5 + 1 + 1) with (Z.of_nat c * 5 + 2) by lia.
  erewrite mmr_writes_cons by (apply write_dmsdi; [done|cbn [g_subaddr update_field fst snd]; lia]). cbn [g_subaddr g_sub update_field fst snd].
  erewrite mmr_writes_cons by (by apply write_dmprec). cbn [mmr_writes foldl]. cbn [g_sub g_arme g_dmprec update_field].
  assert (Hl : ∀ l i v, length (wr l i v) = length l) by (intros; apply length_wr).
  split; [split; cbn [g_sub g_arme update_field]|].
  - by rewrite !Hl.
  - unfold arm_edges. by rewrite length_imap.
  - repeat apply wr_Forall; done.
  - repeat split.
    + rewrite !rd_wr_ne by lia. apply rd_wr_eq. unfold zlen. rewrite ?Hl, H1. lia.
    + rewrite rd_wr_ne by lia. apply rd_wr_eq. unfold zlen. rewrite ?Hl, H1. lia.
    + apply rd_wr_eq. unfold zlen. rewrite ?Hl, H1. lia.
    + intros k. unfold armed in *. cbn [g_arme update_field]. rewrite arm_edges_lookup. specialize (Hoff k).
      assert (Hbits : Z.testbit (Z.setbit (g_dmprec d) (Z.of_nat c)) (Z.of_nat k) &&
                      negb (Z.testbit (g_dmprec d) (Z.of_nat k)) = bool_decide (k = c)).
      { rewrite Z.setbit_eqb by lia. destruct (Z.eqb_spec (Z.of_nat c) (Z.of_nat k)) as [E|E].
        - apply Nat2Z.inj in E. subst k. rewrite Hbit, (bool_decide_eq_true_2 _ (eq_refl c)). done.
        - rewrite bool_decide_eq_false_2 by lia. cbn [orb].
          apply andb_negb_r. }
      destruct (g_arme d !! k) as [x|] eqn:El; cbn [default fmap option_fmap option_map from_option id snd] in *;
        [by rewrite Hbits, Hoff|].
      apply lookup_ge_None in El. rewrite bool_decide_eq_false_2 by lia. done.
Qed.

(** ** The tick *)
Lemma channel_tick_off g c d s : armed d c = false → channel_tick g c (d, s) = (d, s).
Proof. unfold armed, channel_tick. by intros ->. Qed.

Lemma ticks_off g l d s :
  (∀ k, k ∈ l → armed d k = false) → foldl (λ w c, channel_tick g c w) (d, s) l = (d, s).
Proof.
  induction l as [|k l IH]; intros H; [done|]. cbn [foldl].
  rewrite channel_tick_off by (apply H; set_solver). apply IH. intros j Hj. apply H. set_solver.
Qed.

(** With one channel armed, the tick is that channel's. *)
Lemma tick_one g d s c :
  actif g = true → (c < 6)%nat → (∀ k, armed d k = bool_decide (k = c)) →
  (∀ k, armed (channel_tick g c (d, s)).1 k = false) →
  calypso_dma_tick g d s = channel_tick g c (d, s).
Proof.
  intros Ha Hc Hon Hoff. unfold calypso_dma_tick. rewrite Ha. cbn [negb].
  assert (E : seq 0 C54X_DMA_CANAUX = seq 0 c ++ c :: seq (S c) (5 - c)).
  { change (c :: seq (S c) (5 - c)) with (seq c (S (5 - c))).
    pose proof (seq_app c (S (5 - c)) 0) as Es. cbn [Nat.add] in Es. rewrite <- Es. unfold C54X_DMA_CANAUX. f_equal. lia. }
  rewrite E, foldl_app, ticks_off.
  - cbn [foldl]. destruct (channel_tick g c (d, s)) as [d1 s1]. cbn [fst] in Hoff. apply ticks_off. auto.
  - intros k Hk. apply elem_of_seq in Hk. rewrite Hon. apply bool_decide_eq_false_2. lia.
Qed.

Lemma disarm_all d c :
  (∀ k, armed d k = bool_decide (k = c)) → ∀ k, default false (<[c := false]> (g_arme d) !! k) = false.
Proof.
  intros Hon k. destruct (decide (k = c)) as [->|Hne].
  - destruct (decide (c < length (g_arme d))%nat); [by rewrite list_lookup_insert_eq|].
    rewrite list_insert_ge by lia. rewrite lookup_ge_None_2 by lia. done.
  - rewrite list_lookup_insert_ne by done. specialize (Hon k). unfold armed in Hon. rewrite Hon.
    by apply bool_decide_eq_false_2.
Qed.

(** C30: a DMA transfer.  A driver that programs channel c with source,
    destination and a count from 1 to the limit, and enables it while it is
    disabled and no other channel is armed, gets at the next tick the block copy:
    word i of the destination is word i of the source as it was, or, when the
    destination starts inside the block, the word i modulo the distance; nothing
    else of data memory changes but the enable register, whose bit is cleared.
    The counter is null, no channel stays armed, the DMA interrupt is raised once,
    and a second tick does nothing. *)
Theorem dma_transfer g d s c src dst ctr :
  actif g = true → shape d → (c < 6)%nat → word src → word dst → 1 ≤ ctr ≤ g_max_mots g → ctr < 65536 →
  (∀ k, armed d k = false) → Z.testbit (g_dmprec d) (Z.of_nat c) = false →
  let '(d1, s1) := mmr_writes g (d, s) (programming d c src dst ctr) in
  let '(d2, s2) := calypso_dma_tick g d1 s1 in
  (∃ m, s2 = c54x_interrupt_ex (s1 <| data := m |>) (g_vec_base g) (g_vec_base g - 16) ∧
     (∀ i, 0 ≤ i < ctr → u16 (dst + i) ≠ C54X_DMPREC → mget m (u16 (dst + i)) = mget (data s1) (origin dst src i)) ∧
     (∀ x, x ≠ C54X_DMPREC → (∀ i, 0 ≤ i < ctr → x ≠ u16 (dst + i)) → mget m x = mget (data s1) x) ∧
     mget m C54X_DMPREC = Z.clearbit (Z.setbit (g_dmprec d) (Z.of_nat c)) (Z.of_nat c)) ∧
  rd (g_sub d2) (Z.of_nat c * 5 + 2) = 0 ∧ (∀ k, armed d2 k = false) ∧
  calypso_dma_tick g d2 s2 = (d2, s2).
Proof.
  intros Ha Hsh Hc Hs Hd Hn Hn' Hoff Hbit.
  pose proof (program_state g d s c src dst ctr Ha Hsh Hc Hs Hd ltac:(unfold word; lia) Hoff Hbit) as HP.
  destruct (mmr_writes g (d, s) (programming d c src dst ctr)) as [d1 s1].
  destruct HP as ([L1 L2 L3] & Es & Ed & En & Ep & Hon & _).
  assert (Et : channel_tick g c (d1, s1) =
    let prec := Z.clearbit (g_dmprec d1) (Z.of_nat c) in
    (d1 <| g_sub := wr (g_sub d1) (Z.of_nat c * 5 + 2) 0 |> <| g_arme := <[c := false]> (g_arme d1) |> <| g_dmprec := prec |>,
     c54x_interrupt_ex (s1 <| data := <[C54X_DMPREC := prec]> (block_copy (Z.to_nat ctr) dst src (data s1)) |>)
       (g_vec_base g) (g_vec_base g - 16))).
  { unfold channel_tick. specialize (Hon c). unfold armed in Hon. rewrite Hon, bool_decide_eq_true_2 by done.
    cbn [negb]. rewrite Es, Ed, En. rewrite (proj2 (Z.eqb_neq ctr 0)), (proj2 (Z.ltb_ge (g_max_mots g) ctr)) by lia. done. }
  rewrite (tick_one g d1 s1 c) by (try done; rewrite Et; exact (disarm_all d1 c Hon)). rewrite Et. cbv zeta.
  set (d2 := d1 <| g_sub := _ |> <| g_arme := _ |> <| g_dmprec := _ |>).
  assert (Hoff2 : ∀ k, armed d2 k = false) by exact (disarm_all d1 c Hon).
  split; [|split; [|split; [done|]]].
  - eexists. split; [reflexivity|].
    destruct (block_copy_spec (Z.to_nat ctr) dst src (data s1)) as [B1 B2]; [lia|done|done|]. rewrite Z2Nat.id in B1, B2 by lia.
    split; [|split].
    + intros i Hi Hne. rewrite mget_insert, (proj2 (Z.eqb_neq _ _) Hne). by apply B1.
    + intros x Hne Hx. rewrite mget_insert, (proj2 (Z.eqb_neq _ _) Hne). by apply B2.
    + by rewrite mget_insert, Z.eqb_refl, Ep.
  - unfold d2. cbn [g_sub update_field]. apply rd_wr_eq. unfold zlen. rewrite L1. lia.
  - unfold calypso_dma_tick. rewrite Ha. cbn [negb]. apply ticks_off. auto.
Qed.

(** C31: a count out of range.  With a null count or one above the limit the
    tick transfers nothing and raises nothing: memory and processor are as they
    were, and the channel is disarmed.  Its enable bit stays set, so that writing
    the same enable register again, with a good count, arms nothing; a driver
    has to clear the bit first. *)
Theorem dma_bad_count g d s c src dst ctr :
  actif g = true → shape d → (c < 6)%nat → word src → word dst → word ctr → ctr = 0 ∨ g_max_mots g < ctr →
  (∀ k, armed d k = false) → Z.testbit (g_dmprec d) (Z.of_nat c) = false →
  let '(d1, s1) := mmr_writes g (d, s) (programming d c src dst ctr) in
  let '(d2, s2) := calypso_dma_tick g d1 s1 in
  s2 = s1 ∧ (∀ k, armed d2 k = false) ∧ Z.testbit (g_dmprec d2) (Z.of_nat c) = true ∧
  (∀ s3, ∃ d3 s4, calypso_dma_mmr_write g d2 s3 C54X_DMPREC (g_dmprec d2) = Some (d3, s4) ∧ ∀ k, armed d3 k = false).
Proof.
  intros Ha Hsh Hc Hs Hd Hn Hbad Hoff Hbit.
  pose proof (program_state g d s c src dst ctr Ha Hsh Hc Hs Hd Hn Hoff Hbit) as HP.
  destruct (mmr_writes g (d, s) (programming d c src dst ctr)) as [d1 s1].
  destruct HP as (_ & Es & Ed & En & Ep & Hon & _).
  assert (Et : channel_tick g c (d1, s1) = (d1 <| g_arme := <[c := false]> (g_arme d1) |>, s1)).
  { unfold channel_tick. specialize (Hon c). unfold armed in Hon. rewrite Hon, bool_decide_eq_true_2 by done.
    cbn [negb]. rewrite En. destruct (Z.eqb_spec ctr 0); [done|]. rewrite (proj2 (Z.ltb_lt (g_max_mots g) ctr)) by lia. done. }
  rewrite (tick_one g d1 s1 c) by (try done; rewrite Et; exact (disarm_all d1 c Hon)). rewrite Et.
  pose proof (disarm_all d1 c Hon) as Hoff2. split; [done|]. split; [exact Hoff2|]. split.
  - cbn [g_dmprec update_field]. rewrite Ep. apply Z.setbit_eq. lia.
  - intros s3. eexists _, _. split; [by apply write_dmprec|]. intros k. unfold armed. cbn [g_arme g_dmprec update_field].
    rewrite arm_edges_lookup. specialize (Hoff2 k). destruct (<[c:=false]> (g_arme d1) !! k) as [x|]; [|done].
    cbn [default fmap option_fmap option_map from_option id] in *. by rewrite Hoff2, andb_negb_r.
Qed.

(** Three words from 0x300 to 0x400 on channel 2. *)
Definition dma_example (ctr : Z) : dma * C54xState :=
  mmr_writes default_config
    (dma_init, c54x_zero <| data := <[0x300 := 11]> (<[0x301 := 22]> (<[0x302 := 33]> ∅)) |>)
    (programming dma_init 2 0x300 0x400 ctr).

Lemma shape_init : shape dma_init.
Proof. split; [done|done|]. apply Forall_replicate. unfold word. lia. Qed.
Lemma armed_init k : armed dma_init k = false.
Proof. unfold armed. do 6 (destruct k as [|k]; [done|]). done. Qed.

Lemma dma_transfer_witness :
  let '(d2, s2) := calypso_dma_tick default_config (dma_example 3).1 (dma_example 3).2 in
  (∀ k, armed d2 k = false) ∧ mget (data s2) 0x402 = 33 ∧ ifr s2 = 0x4000.
Proof.
  pose proof (dma_transfer default_config dma_init
    (c54x_zero <| data := <[0x300 := 11]> (<[0x301 := 22]> (<[0x302 := 33]> ∅)) |>) 2 0x300 0x400 3
    eq_refl shape_init ltac:(lia) ltac:(unfold word; lia) ltac:(unfold word; lia) ltac:(cbn; lia) ltac:(lia) armed_init eq_refl) as H.
  fold (dma_example 3) in H. rewrite (surjective_pairing (dma_example 3)) in H.
  assert (E : (λ w, (mget (data w.2) 0x402, ifr w.2)) (calypso_dma_tick default_config (dma_example 3).1 (dma_example 3).2) = (33, 0x4000))
    by (vm_compute; reflexivity).
  destruct (calypso_dma_tick default_config (dma_example 3).1 (dma_example 3).2) as [d2 s2].
  split; [exact (proj1 (proj2 (proj2 H)))|]. injection E as E1 E2. split; [exact E1|exact E2].
Defined.

Lemma dma_bad_count_witness :
  let '(d2, s2) := calypso_dma_tick default_config (dma_example 5000).1 (dma_example 5000).2 in
  s2 = (dma_example 5000).2 ∧ ∀ k, armed d2 k = false.
Proof.
  pose proof (dma_bad_count default_config dma_init
    (c54x_zero <| data := <[0x300 := 11]> (<[0x301 := 22]> (<[0x302 := 33]> ∅)) |>) 2 0x300 0x400 5000
    eq_refl shape_init ltac:(lia) ltac:(unfold word; lia) ltac:(unfold word; lia) ltac:(unfold word; lia)
    (or_intror eq_refl) armed_init eq_refl) as H.
  fold (dma_example 5000) in H. rewrite (surjective_pairing (dma_example 5000)) in H.
  destruct (calypso_dma_tick default_config (dma_example 5000).1 (dma_example 5000).2) as [d2 s2].
  destruct H as (H1 & H2 & _). split; [exact H1|exact H2].
Defined.

(** ** The window shared with the ARM *)

(** The copy works on the array [data]: a transfer into the API window changes
    a cell that neither the DSP nor the ARM reads. *)
Example dma_misses_api_window :
  let s := c54x_zero <| data := <[0x300 := 11]> ∅ |> in
  let '(d1, s1) := mmr_writes default_config (dma_init, s) (programming dma_init 0 0x300 0x0837 1) in
  let '(_, s2) := calypso_dma_tick default_config d1 s1 in
  mget (data s2) 0x0837 = 11 ∧ data_read s2 0x0837 = 0 ∧ api_ram s2 = Some ∅.
Proof. vm_compute. split_and!; reflexivity. Qed.

End DspDma.
