(* ===== verification/Vsp.v ===== *)
(** * The voice serial port of the DSP ([hw/arm/calypso/l1-dsp/calypso_vsp.c])

    Once per TDMA frame [calypso_vsp_trame] delivers the voice samples due, 960
    per 26 frames: each takes a microphone sample from a ring the host writes,
    puts it in DRR, raises interrupt 20, lets the DSP run its service routine
    and appends the word in DXR to a ring the host reads.  A ring counts its
    samples in a 32-bit word and has 16000 slots.  The uplink ring is read while
    the host writes it: what the code finds there at each sample is an input,
    and so is the function [courir] that runs the DSP.  The replay from and to
    files is not modelled. *)
From stdpp Require Import gmap.
From S2P Require Import Prelude C54xAddr C54xState C54xDecode C54xIrq.

Module Vsp.
Import C54xAddr C54xState C54xDecode C54xIrq.

Definition VSP_DRR : Z := 0x0020.
Definition VSP_DXR : Z := 0x0021.
Definition VSP_SPC : Z := 0x0022.
Definition VSP_IT_VEC : Z := 20.
Definition VSP_IT_BIT : Z := 4.
Definition VSP_SHM_N : Z := 16000.

Record VspAnneau := mkAnneau { ecrit : Z; pcm : list Z }.

Record vsp := mkVsp {
  dl : option VspAnneau;
  lu_ul : Z;
  reste : Z;
  rint : Z; arme : Z; desarme : Z; sous_ul : Z; trames : Z; saut_ul : Z;
  dl_max : Z; ul_max : Z;
  file_ul_max : Z
}.
#[export] Instance vsp_eta : Settable vsp := λ v,
  mkVsp (dl v) (lu_ul v) (reste v) (rint v) (arme v) (desarme v) (sous_ul v) (trames v) (saut_ul v)
        (dl_max v) (ul_max v) (file_ul_max v).

Definition vsp_init : vsp := mkVsp None 0 0 0 0 0 0 0 0 0 0 0.

(** What one frame finds: the switch, the DSP running, the uplink ring at each
    sample when it could be mapped, the downlink ring when it can be, the bound
    of the read lag in samples. *)
Record Env := mkEnv {
  actif : bool;
  running : bool;
  ul : option (nat → VspAnneau);
  dl_open : option VspAnneau;
  ul_max_ech : Z
}.

(** [CALYPSO_VSP_UL_MAX_MS] in samples. *)
Definition lag_bound (ms : Z) : Z := let n := u32 (ms * 8) in if n <? 160 then 160 else n.

(** The microphone sample, from the uplink ring. *)
Definition mic_sample (lag : Z) (r : VspAnneau) (v : vsp) : Z * vsp :=
  let file := u32 (ecrit r - lu_ul v) in
  let v := if file_ul_max v <? file then v <| file_ul_max := file |> else v in
  let v := if lag <? file then v <| lu_ul := u32 (ecrit r - lag / 2) |> <| saut_ul := saut_ul v + 1 |> else v in
  let '(ech, v) :=
    if negb (lu_ul v =? ecrit r) then (rd (pcm r) (lu_ul v mod VSP_SHM_N), v <| lu_ul := u32 (lu_ul v + 1) |>)
    else (0, v <| sous_ul := sous_ul v + 1 |>) in
  (ech, if ul_max v <? Z.abs ech then v <| ul_max := Z.abs ech |> else v).

(** The port is armed: IMR bit 4 and the serial port out of reset. *)
Definition port_arme (s : C54xState) : bool :=
  has (imr s) (Z.shiftl 1 VSP_IT_BIT) && (Z.land (mget (data s) VSP_SPC) 0xC0 =? 0xC0).

(** DRR, the interrupt and the wake-up. *)
Definition deliver (s : C54xState) (ech : Z) : C54xState :=
  let s := s <| data := <[VSP_DRR := u16 ech]> (data s) |> in
  let s := c54x_interrupt_ex s VSP_IT_VEC VSP_IT_BIT in
  if idle s && negb (Z.land (ifr s) (imr s) =? 0) && negb (has (st1 s) 0x800) then s <| idle := false |> else s.

(** DXR to the downlink ring. *)
Definition dl_put (v : vsp) (sortie : Z) : vsp :=
  let v := if dl_max v <? Z.abs sortie then v <| dl_max := Z.abs sortie |> else v in
  v <| dl := (λ r, mkAnneau (u32 (ecrit r + 1)) (wr (pcm r) (ecrit r mod VSP_SHM_N) sortie)) <$> dl v |>.

Section frame.
  Context (courir : option (C54xState → Z → C54xState)) (e : Env).

(** One sample; [fait] counts the instructions executed. *)
Definition sample (i : nat) (w : vsp * C54xState * Z) : vsp * C54xState * Z :=
  let '(v, s, fait) := w in
  if negb (port_arme s) then (v <| desarme := desarme v + 1 |>, s, fait)
  else
    let v := v <| arme := arme v + 1 |> in
    let '(ech, v) := match ul e with
                     | Some r => mic_sample (ul_max_ech e) (r i) v
                     | None => (0, v)
                     end in
    let s := deliver s ech in
    let avant := insn_count s in
    let s := match courir with
             | Some run => if negb (idle s) then run s 400 else s
             | None => s
             end in
    (dl_put (v <| rint := rint v + 1 |>) (i16 (mget (data s) VSP_DXR)), s, fait + u32 (insn_count s - avant)).

(** The statistics are cleared every 1000 frames. *)
Definition clear_stats (v : vsp) : vsp :=
  if trames v mod 1000 =? 0 then
    v <| rint := 0 |> <| arme := 0 |> <| desarme := 0 |> <| sous_ul := 0 |> <| saut_ul := 0 |>
      <| dl_max := 0 |> <| ul_max := 0 |> <| file_ul_max := 0 |>
  else v.

Definition calypso_vsp_trame (v : vsp) (s : C54xState) : vsp * C54xState * Z :=
  if negb (actif e) || negb (running e) then (v, s, 0)
  else
    let v := match dl v with None => v <| dl := dl_open e |> | Some _ => v end in
    let v := v <| trames := trames v + 1 |> <| reste := reste v + 960 |> in
    let n := reste v / 26 in
    let v := v <| reste := reste v mod 26 |> in
    let '(v, s, fait) := foldl (λ w i, sample i w) (v, s, 0) (seq 0 (Z.to_nat n)) in
    (clear_stats v, s, fait).
End frame.

(** ** The rate *)

(** What a delivered sample does to the DSP, and the word it leaves in DXR. *)
Definition dsp_step (courir : option (C54xState → Z → C54xState)) (s : C54xState) (ech : Z) : C54xState :=
  let s := deliver s ech in
  match courir with Some run => if negb (idle s) then run s 400 else s | None => s end.
Definition dxr (s : C54xState) : Z := i16 (mget (data s) VSP_DXR).

(** A sample appended to the downlink ring. *)
Definition ring_put (r : VspAnneau) (x : Z) : VspAnneau :=
  mkAnneau (u32 (ecrit r + 1)) (wr (pcm r) (ecrit r mod VSP_SHM_N) x).

Lemma mic_sample_keeps lag r v :
  reste (mic_sample lag r v).2 = reste v ∧ dl (mic_sample lag r v).2 = dl v.
Proof.
  unfold mic_sample. cbv zeta. repeat match goal with |- context [if ?b then _ else _] => destruct b end; done.
Qed.

Lemma dl_put_keeps v x :
  reste (dl_put v x) = reste v ∧ lu_ul (dl_put v x) = lu_ul v ∧ dl (dl_put v x) = (λ r, ring_put r x) <$> dl v.
Proof. unfold dl_put. cbv zeta. by case_if. Qed.

(** The microphone sample of a slot. *)
Definition slot_mic (e : Env) (i : nat) (v : vsp) : Z * vsp :=
  match ul e with
  | Some r => mic_sample (ul_max_ech e) (r i) (v <| arme := arme v + 1 |>)
  | None => (0, v <| arme := arme v + 1 |>)
  end.

Lemma slot_mic_keeps e i v : reste (slot_mic e i v).2 = reste v ∧ dl (slot_mic e i v).2 = dl v.
Proof. unfold slot_mic. destruct (ul e) as [r|]; [exact (mic_sample_keeps (ul_max_ech e) (r i) (v <| arme := arme v + 1 |>))|done]. Qed.

(** A slot of a port that is armed, and of one that is not. *)
Lemma sample_armed courir e i v s fait :
  port_arme s = true →
  ∃ v1 fait', sample courir e i (v, s, fait) = (v1, dsp_step courir s (slot_mic e i v).1, fait') ∧
    reste v1 = reste v ∧ lu_ul v1 = lu_ul (slot_mic e i v).2 ∧
    dl v1 = (λ r, ring_put r (dxr (dsp_step courir s (slot_mic e i v).1))) <$> dl v.
Proof.
  intros Ha. unfold sample. rewrite Ha. cbn [negb]. cbv zeta.
  change (match ul e with Some r => _ | None => _ end) with (slot_mic e i v).
  destruct (slot_mic_keeps e i v) as [E1 E2]. destruct (slot_mic e i v) as [ech v1]. cbn [fst snd] in *.
  change (match courir with Some run => _ | None => _ end) with (dsp_step courir s ech).
  eexists _, _. split; [reflexivity|]. fold (dxr (dsp_step courir s ech)).
  destruct (dl_put_keeps (v1 <| rint := rint v1 + 1 |>) (dxr (dsp_step courir s ech))) as (-> & -> & ->).
  cbn [reste lu_ul dl update_field]. by rewrite E2.
Qed.

Lemma sample_disarmed courir e i v s fait :
  port_arme s = false → sample courir e i (v, s, fait) = (v <| desarme := desarme v + 1 |>, s, fait).
Proof. intros Ha. unfold sample. by rewrite Ha. Qed.

(** The loop of a frame. *)
Lemma trame_loop courir e v s :
  actif e = true → running e = true → is_Some (dl v) →
  ∃ v0, reste v0 = (reste v + 960) mod 26 ∧ lu_ul v0 = lu_ul v ∧ dl v0 = dl v ∧
    let '(v1, s1, _) := foldl (λ w i, sample courir e i w) (v0, s, 0) (seq 0 (Z.to_nat ((reste v + 960) / 26))) in
    let '(v', s', _) := calypso_vsp_trame courir e v s in
    s' = s1 ∧ reste v' = reste v1 ∧ lu_ul v' = lu_ul v1 ∧ dl v' = dl v1.
Proof.
  intros Ha Hr [r Hd]. unfold calypso_vsp_trame. rewrite Ha, Hr, Hd. cbn [negb orb]. cbv zeta. cbn [reste update_field].
  match goal with |- context [foldl _ (?x, s, 0)] => exists x end. split; [done|]. split; [done|]. split; [exact Hd|].
  destruct (foldl _ _ _) as [[v1 s1] f1]. unfold clear_stats. by case_if.
Qed.

Section rate.
  Context (Ready : C54xState → Prop) (Hready : ∀ s, Ready s → port_arme s = true).

Lemma samples_rate courir e n i v s fait r :
  (∀ s x, Ready s → Ready (dsp_step courir s x)) → Ready s → dl v = Some r → 0 ≤ ecrit r < 2 ^ 32 →
  let '(v', s', _) := foldl (λ w i, sample courir e i w) (v, s, fait) (seq i n) in
  Ready s' ∧ reste v' = reste v ∧ ∃ r', dl v' = Some r' ∧ ecrit r' = u32 (ecrit r + Z.of_nat n).
Proof.
  intros Hrun. revert i v s fait r. induction n as [|n IH]; intros i v s fait r Hs Hd Hr.
  - cbn. split; [done|]. split; [done|]. exists r. split; [done|]. rewrite Z.add_0_r. symmetry. by apply u32_small.
  - cbn [seq foldl]. destruct (sample_armed courir e i v s fait (Hready s Hs)) as (v1 & f1 & -> & E1 & _ & E3).
    rewrite Hd in E3. specialize (IH (S i) v1 (dsp_step courir s (slot_mic e i v).1) f1 _ (Hrun s _ Hs) E3 (u32_range _)).
    destruct (foldl _ _ _) as [[v2 s2] f2]. destruct IH as (I1 & I2 & r' & I3 & I4). split; [done|]. split; [congruence|].
    exists r'. split; [done|]. rewrite I4. cbn [ring_put ecrit]. unfold u32. mlia.
Qed.

(** A run of frames, each with what it finds and the DSP it drives. *)
Definition frames (l : list (option (C54xState → Z → C54xState) * Env)) (v : vsp) (s : C54xState) : vsp * C54xState :=
  foldl (λ w x, (calypso_vsp_trame x.1 x.2 w.1 w.2).1) (v, s) l.
End rate.

(** C28: the voice port keeps 8 kHz.  While the port stays armed (the DSP is in
    a set of states with the port armed that its runs do not leave), whatever
    else the DSP and the host do, a run of frames writes exactly 960 samples per
    26 frames to the loudspeaker ring: after any number of frames the write
    counter has advanced by the whole part of 960/26 per frame, the remainder of
    earlier frames included, and the new remainder is kept, so the rate never
    drifts. *)
Theorem vsp_rate Ready l v s r :
  (∀ s, Ready s → port_arme s = true) →
  Forall (λ x, actif x.2 = true ∧ running x.2 = true ∧ ∀ s ech, Ready s → Ready (dsp_step x.1 s ech)) l →
  Ready s → 0 ≤ reste v < 26 → dl v = Some r → 0 ≤ ecrit r < 2 ^ 32 →
  let '(v', s') := frames l v s in
  let total := 960 * zlen l + reste v in
  Ready s' ∧ reste v' = total mod 26 ∧ ∃ r', dl v' = Some r' ∧ ecrit r' = u32 (ecrit r + total / 26).
Proof.
  intros Hready Hl. unfold frames. revert v s r. induction Hl as [|[courir e] l (Ha & Hr & Hrun) Hl IH]; intros v s r Hs Hv Hd Hw.
  - cbn [foldl]. cbv zeta. unfold zlen. cbn [length]. change (960 * Z.of_nat 0) with 0.
    split; [done|]. split; [mlia|]. exists r. split; [done|]. unfold u32. mlia.
  - cbn [foldl fst snd] in *. destruct (trame_loop courir e v s Ha Hr) as (v0 & A1 & _ & A3 & A4); [by rewrite Hd|].
    rewrite Hd in A3.
    pose proof (samples_rate Ready Hready courir e (Z.to_nat ((reste v + 960) / 26)) 0 v0 s 0 r Hrun Hs A3 Hw) as B.
    destruct (foldl _ _ (seq 0 _)) as [[v1 s1] f1]. destruct B as (B1 & B2 & r1 & B3 & B4).
    destruct (calypso_vsp_trame courir e v s) as [[v2 s2] f2]. destruct A4 as (-> & C2 & _ & C4). cbn [fst].
    rewrite <- C4 in B3. rewrite <- C2, A1 in B2.
    specialize (IH v2 s1 r1 B1 ltac:(rewrite B2; apply Z.mod_pos_bound; lia) B3 ltac:(rewrite B4; apply u32_range)).
    destruct (foldl _ _ l) as [v' s']. cbv zeta in *. destruct IH as (I1 & I2 & r' & I3 & I4). split; [done|].
    rewrite I2, B2. unfold zlen in *. cbn [length]. split; [mlia|]. exists r'. split; [done|].
    rewrite I4, B4, B2. unfold u32. mlia.
Qed.

(** A DSP that sleeps with the port armed and answers with the sample itself. *)
Definition echo_idle (y : Z) : C54xState :=
  c54x_zero <| data := <[VSP_DXR := y]> {[VSP_SPC := 0xC8]} |> <| imr := 0x10 |> <| idle := true |> <| sp := 0x1000 |>.
Definition echo_run (s : C54xState) (_ : Z) : C54xState := echo_idle (mget (data s) VSP_DRR).
Definition const_ring (x : Z) : list Z := replicate (Z.to_nat VSP_SHM_N) x.

Lemma echo_step y x : dsp_step (Some echo_run) (echo_idle y) x = echo_idle (u16 x).
Proof. unfold dsp_step, echo_run, deliver. generalize (u16 x). intros z. vm_compute. reflexivity. Qed.

(** Sixty frames over the wrap of the counter. *)
Lemma vsp_rate_witness :
  let e := mkEnv true true None None 960 in
  let v := vsp_init <| dl := Some (mkAnneau (2 ^ 32 - 100) (const_ring 0)) |> in
  let '(v', _) := frames (replicate 60 (Some echo_run, e)) v (echo_idle 0) in
  reste v' = 10 ∧ ∃ r', dl v' = Some r' ∧ ecrit r' = 2115.
Proof.
  intros e v.
  pose proof (vsp_rate (λ s, ∃ y, s = echo_idle y) (replicate 60 (Some echo_run, e)) v (echo_idle 0) (mkAnneau (2 ^ 32 - 100) (const_ring 0))) as H.
  destruct (frames _ v (echo_idle 0)) as [v' s']. destruct H as (_ & H1 & H2).
  - intros s [y ->]. vm_compute. reflexivity.
  - apply Forall_replicate. split; [done|]. split; [done|]. intros s x [y ->]. rewrite echo_step. by eexists.
  - by eexists.
  - cbn. lia.
  - done.
  - cbn. lia.
  - split; [exact H1|]. destruct H2 as (r' & E1 & E2). exists r'. split; [exact E1|exact E2].
Defined.

(** ** The voice path *)

(** The read position of the microphone, as a count that never wraps: [P] is
    the position read next, [W] the number of samples the host has written.  A
    lag above the bound jumps to half of it; with nothing new there is silence. *)
Definition mic_ref (lag P W : Z) : option Z * Z :=
  let P := if lag <? W - P then W - lag / 2 else P in
  if P <? W then (Some P, P + 1) else (None, P).

Lemma mic_ref_spec lag P W p P' :
  160 ≤ lag → P ≤ W → mic_ref lag P W = (p, P') →
  P ≤ P' ≤ W ∧ W - P' ≤ lag ∧
  match p with Some q => P ≤ q ∧ q + 1 = P' ∧ W - lag ≤ q < W | None => P' = P ∧ P = W end.
Proof.
  intros Hl HP. unfold mic_ref. cbv zeta. assert (lag / 2 ≤ lag ∧ 80 ≤ lag / 2) by mlia.
  destruct (Z.ltb_spec lag (W - P)).
  - rewrite (proj2 (Z.ltb_lt _ _)) by lia. intros [= <- <-]. lia.
  - destruct (Z.ltb_spec P W); intros [= <- <-]; lia.
Qed.

Lemma slot_distinct w i j :
  0 ≤ i < j → j < 7000 → u32 (w + i) mod VSP_SHM_N ≠ u32 (w + j) mod VSP_SHM_N.
Proof.
  intros Hi Hj. unfold VSP_SHM_N. intros E.
  assert (Hd : u32 (w + j) = u32 (w + i) + (j - i) ∨ u32 (w + j) = u32 (w + i) + (j - i) - 2 ^ 32) by (unfold u32; mlia).
  pose proof (u32_range (w + i)). pose proof (u32_range (w + j)).
  generalize dependent (u32 (w + j)). generalize dependent (u32 (w + i)). intros x Hx y E Hd Hy.
  pose proof (Z.div_mod x 16000 ltac:(lia)). pose proof (Z.div_mod y 16000 ltac:(lia)).
  rewrite E in *. destruct Hd; lia.
Qed.

Lemma ring_puts l r :
  0 ≤ ecrit r < 2 ^ 32 → zlen (pcm r) = VSP_SHM_N → zlen l ≤ 7000 →
  let r' := foldl ring_put r l in
  ecrit r' = u32 (ecrit r + zlen l) ∧ zlen (pcm r') = VSP_SHM_N ∧
  ∀ j x, l !! j = Some x → rd (pcm r') (u32 (ecrit r + Z.of_nat j) mod VSP_SHM_N) = x.
Proof.
  intros He Hp. induction l as [|x l IH] using rev_ind; intros Hl.
  - cbn. split; [rewrite Z.add_0_r; symmetry; by apply u32_small|]. done.
  - assert (Hz : zlen (l ++ [x]) = zlen l + 1) by (unfold zlen; rewrite length_app; cbn; lia).
    assert (0 ≤ zlen l) by (unfold zlen; lia).
    destruct IH as (I1 & I2 & I3); [lia|]. rewrite foldl_app. cbn [foldl]. unfold ring_put at 1 3 5.
    cbn [ecrit pcm]. rewrite I1. split; [rewrite Hz; unfold u32; mlia|].
    split; [unfold zlen in *; by rewrite length_wr|]. intros j y Hj.
    assert (0 ≤ u32 (ecrit r + zlen l) mod VSP_SHM_N < VSP_SHM_N) by (unfold VSP_SHM_N; apply Z.mod_pos_bound; lia).
    apply lookup_snoc_Some in Hj as [[Hlt Hj]|[-> ->]].
    + assert (Z.of_nat j < zlen l) by (unfold zlen; lia). rewrite rd_wr_ne; [by apply I3|lia|unfold VSP_SHM_N; apply Z.mod_pos_bound; lia|].
      apply not_eq_sym, slot_distinct; lia.
    + fold (zlen l). apply rd_wr_eq. lia.
Qed.

Section voice.
  (** The microphone: sample [p] of the stream. *)
  Context (mic : Z → Z) (lag : Z) (Hlag : 160 ≤ lag < 2 ^ 31).

(** The uplink ring when the host has written [W] samples: the counter, and the
    last [lag] samples in their slots. *)
Definition ring_at (W : Z) (r : VspAnneau) : Prop :=
  ecrit r = u32 W ∧ ∀ q, W - lag ≤ q < W → rd (pcm r) (u32 q mod VSP_SHM_N) = mic q.

Definition heard (p : option Z) : Z := from_option mic 0 p.

Lemma mic_sample_ref P W r v p P' :
  lu_ul v = u32 P → P ≤ W < P + 2 ^ 32 → ring_at W r → mic_ref lag P W = (p, P') →
  let '(ech, v') := mic_sample lag r v in
  ech = heard p ∧ lu_ul v' = u32 P'.
Proof.
  intros Hv HW [Er Hr] E. unfold mic_sample. cbv zeta. rewrite Er.
  assert (Ef : u32 (u32 W - lu_ul v) = W - P) by (rewrite Hv; unfold u32; mlia). rewrite Ef.
  assert (Hk : lu_ul (if file_ul_max v <? W - P then v <| file_ul_max := W - P |> else v) = u32 P) by (by case_if).
  generalize dependent (if file_ul_max v <? W - P then v <| file_ul_max := W - P |> else v). intros v1 Hk.
  set (Q := if lag <? W - P then W - lag / 2 else P) in *.
  assert (HQ : P ≤ Q ≤ W ∧ W - Q ≤ lag).
  { unfold Q. assert (80 ≤ lag / 2 ≤ lag) by mlia. case_ifs; lia. }
  set (v2 := if lag <? W - P then v1 <| lu_ul := u32 (u32 W - lag / 2) |> <| saut_ul := saut_ul v1 + 1 |> else v1).
  assert (Hk2 : lu_ul v2 = u32 Q).
  { unfold v2, Q. case_ifs; [cbn [lu_ul update_field]; unfold u32; mlia|done]. }
  clearbody v2. unfold mic_ref in E. cbv zeta in E. fold Q in E. rewrite Hk2.
  destruct (Z.ltb_spec Q W) as [Hlt|Hge]; injection E as <- <-.
  - assert (u32 Q ≠ u32 W) as Hne by (unfold u32; mlia). rewrite (proj2 (Z.eqb_neq _ _) Hne). cbn [negb].
    rewrite Hr by lia. split; [done|]. case_if; cbn [lu_ul update_field]; rewrite ?Hk2; unfold u32; mlia.
  - assert (Q = W) as -> by lia. rewrite Z.eqb_refl. cbn [negb]. split; [done|]. case_if; cbn [lu_ul update_field]; done.
Qed.

(** The loop of a frame as a transducer with an unbounded counter: the slots from
    [i] on, [n] of them, [W i] samples written by the host at slot [i].  A slot
    with the port armed takes the next microphone position, gives its sample to
    the DSP and yields what the DSP leaves in DXR; a slot without it takes and
    yields nothing. *)
Fixpoint voice (courir : option (C54xState → Z → C54xState)) (W : nat → Z) (i n : nat) (P : Z) (s : C54xState) :
    list (nat * option Z * Z) * Z * C54xState :=
  match n with
  | O => ([], P, s)
  | S n =>
    if port_arme s then
      let '(p, P) := mic_ref lag P (W i) in
      let s := dsp_step courir s (heard p) in
      let '(l, P', s') := voice courir W (S i) n P s in
      ((i, p, dxr s) :: l, P', s')
    else voice courir W (S i) n P s
  end.

(** The positions increase, each is within the bound of what the host had
    written at its slot, and a silent slot skips nothing. *)
Record voice_ok (W : nat → Z) (i n : nat) (P : Z) (l : list (nat * option Z * Z)) (P' : Z) : Prop := mkVoiceOk {
  vo_len : zlen l ≤ Z.of_nat n;
  vo_end : P ≤ P';
  vo_pos : ∀ a j q x, l !! a = Some (j, Some q, x) → (i ≤ j < i + n)%nat ∧ P ≤ q < P' ∧ W j - lag ≤ q < W j;
  vo_inc : ∀ a b j k q r x y, (a < b)%nat → l !! a = Some (j, Some q, x) → l !! b = Some (k, Some r, y) → q < r;
  vo_silent : ∀ a b j k q x y, (a < b)%nat → l !! a = Some (j, None, x) → l !! b = Some (k, Some q, y) → W j ≤ q
}.

Lemma voice_spec courir W i n P s :
  P ≤ W i → (∀ j, W j ≤ W (S j)) →
  let '(l, P', _) := voice courir W i n P s in voice_ok W i n P l P'.
Proof.
  intros HP HW. revert i P s HP. induction n as [|n IH]; intros i P s HP; cbn [voice].
  { split; try done; unfold zlen; cbn; lia. }
  pose proof (HW i) as Hi. destruct (port_arme s).
  - destruct (mic_ref lag P (W i)) as [p P1] eqn:E1. destruct (mic_ref_spec lag P (W i) p P1 ltac:(lia) HP E1) as (B1 & B2 & B3).
    specialize (IH (S i) P1 (dsp_step courir s (heard p)) ltac:(lia)).
    destruct (voice courir W (S i) n P1 _) as [[l P'] s']. destruct IH as [C1 C2 C3 C4 C5]. split.
    + unfold zlen in *. cbn [length]. lia.
    + lia.
    + intros [|a] j q x Hl; cbn in Hl; [injection Hl as <- -> _; lia|]. destruct (C3 a j q x Hl) as (? & ? & ?). lia.
    + intros [|a] [|b] j k q r x y Hab Hl Hr; cbn in Hl, Hr; [lia| |lia|apply (C4 a b j k q r x y); [lia|done|done]].
      injection Hl as <- -> _. destruct (C3 b k r y Hr) as (_ & ? & _). lia.
    + intros [|a] [|b] j k q x y Hab Hl Hr; cbn in Hl, Hr; [lia| |lia|apply (C5 a b j k q x y); [lia|done|done]].
      injection Hl as <- -> _. destruct (C3 b k q y Hr) as (_ & ? & _). lia.
  - specialize (IH (S i) P s ltac:(lia)). destruct (voice courir W (S i) n P s) as [[l P'] s']. destruct IH as [C1 C2 C3 C4 C5].
    split; [lia|done| |done|done]. intros a j q x Hl. destruct (C3 a j q x Hl) as (? & ? & ?). lia.
Qed.

(** The code computes the transducer. *)
Lemma samples_ref courir e (W : nat → Z) rings i n v s fait P r0 :
  ul e = Some rings → ul_max_ech e = lag →
  (∀ j, ring_at (W j) (rings j)) → (∀ j, W j ≤ W (S j)) →
  lu_ul v = u32 P → P ≤ W i → (∀ j, (j < i + n)%nat → W j < P + 2 ^ 32) → dl v = Some r0 →
  let '(l, P', s1) := voice courir W i n P s in
  let '(v', s', _) := foldl (λ w i, sample courir e i w) (v, s, fait) (seq i n) in
  s' = s1 ∧ lu_ul v' = u32 P' ∧ dl v' = Some (foldl ring_put r0 (snd <$> l)).
Proof.
  intros Hu Hg HR HW. revert i v s fait P r0. induction n as [|n IH]; intros i v s fait P r0 Hv HP HB Hd; [done|].
  pose proof (HW i) as Hi. cbn [voice seq foldl]. destruct (port_arme s) eqn:Ha.
  - destruct (mic_ref lag P (W i)) as [p P1] eqn:E1.
    pose proof (mic_ref_spec lag P (W i) p P1 ltac:(lia) HP E1) as (B1 & B2 & _).
    destruct (sample_armed courir e i v s fait Ha) as (v1 & f1 & -> & _ & Hl & Hd1).
    assert (Hm : (slot_mic e i v).1 = heard p ∧ lu_ul (slot_mic e i v).2 = u32 P1).
    { unfold slot_mic. rewrite Hu, Hg. cbv beta iota.
      match goal with |- context [mic_sample lag (rings i) ?x] => set (v0 := x) end.
      pose proof (mic_sample_ref P (W i) (rings i) v0 p P1 Hv ltac:(pose proof (HB i ltac:(lia)); lia) (HR i) E1) as Hm.
      destruct (mic_sample lag (rings i) v0) as [ech v2]. exact Hm. }
    destruct Hm as [Hm1 Hm2]. rewrite Hm1 in *. rewrite Hm2 in Hl. rewrite Hd in Hd1.
    specialize (IH (S i) v1 (dsp_step courir s (heard p)) f1 P1 _ Hl ltac:(lia) ltac:(intros j Hj; pose proof (HB j ltac:(lia)); lia) Hd1).
    destruct (voice courir W (S i) n P1 _) as [[l P'] s']. destruct (foldl _ _ (seq (S i) n)) as [[v2 s2] f2]. exact IH.
  - rewrite sample_disarmed by done.
    match goal with |- context [foldl _ (?x, s, fait) _] => set (v0 := x) end.
    specialize (IH (S i) v0 s fait P r0 Hv ltac:(lia) ltac:(intros j Hj; apply HB; lia) Hd).
    destruct (voice courir W (S i) n P s) as [[l P'] s']. destruct (foldl _ _ (seq (S i) n)) as [[v2 s2] f2]. exact IH.
Qed.

End voice.

(** C27: the voice path.  Let the host write microphone samples in order and
    keep the last [lag] of them in the ring.  For any DSP and any function that
    runs it, a frame has 36 or 37 slots and does in each what the transducer
    [voice] does: with the port disarmed nothing; with the port armed, the next
    microphone sample (silence when the host has written nothing new) is given to
    the DSP and the word it then has in DXR is written to the next slot of the
    loudspeaker ring, in order.  The positions of the microphone samples given
    increase; each is at most the lag bound behind what the host had written at
    that moment, and a silent slot skips nothing; across the wrap of the 32-bit
    counters. *)
Theorem vsp_voice_path mic lag courir e (W : nat → Z) rings v s P r0 :
  160 ≤ lag < 2 ^ 31 → actif e = true → running e = true → ul e = Some rings → ul_max_ech e = lag →
  (∀ j, ring_at mic lag (W j) (rings j)) → (∀ j, W j ≤ W (S j)) →
  lu_ul v = u32 P → P ≤ W 0%nat → (∀ j, (j < 37)%nat → W j < P + 2 ^ 32) → 0 ≤ reste v < 26 →
  dl v = Some r0 → 0 ≤ ecrit r0 < 2 ^ 32 → zlen (pcm r0) = VSP_SHM_N →
  let n := (reste v + 960) / 26 in
  let '(l, P', s1) := voice mic lag courir W 0 (Z.to_nat n) P s in
  let '(v', s', _) := calypso_vsp_trame courir e v s in
  36 ≤ n ≤ 37 ∧ voice_ok lag W 0 (Z.to_nat n) P l P' ∧ s' = s1 ∧ lu_ul v' = u32 P' ∧
  ∃ r', dl v' = Some r' ∧ ecrit r' = u32 (ecrit r0 + zlen l) ∧
    ∀ a j p y, l !! a = Some (j, p, y) → rd (pcm r') (u32 (ecrit r0 + Z.of_nat a) mod VSP_SHM_N) = y.
Proof.
  intros Hl Ha Hr Hu Hg HR HW Hv HP HB Hre Hd He Hz n. assert (Hn : 36 ≤ n ≤ 37) by (unfold n; mlia).
  destruct (trame_loop courir e v s Ha Hr) as (v0 & _ & A2 & A3 & A4); [by rewrite Hd|]. fold n in A4. rewrite Hd in A3. rewrite Hv in A2.
  pose proof (samples_ref mic lag Hl courir e W rings 0 (Z.to_nat n) v0 s 0 P r0 Hu Hg HR HW A2 HP ltac:(intros j Hj; apply HB; lia) A3) as HS.
  pose proof (voice_spec mic lag Hl courir W 0 (Z.to_nat n) P s HP HW) as HV.
  destruct (voice mic lag courir W 0 (Z.to_nat n) P s) as [[l P'] s1].
  destruct (foldl _ _ (seq 0 (Z.to_nat n))) as [[v1 s2] f1]. destruct HS as (-> & R2 & R3).
  destruct (calypso_vsp_trame courir e v s) as [[v' s'] f']. destruct A4 as (-> & _ & -> & ->).
  split; [done|]. split; [done|]. split; [done|]. split; [done|]. eexists. split; [exact R3|].
  assert (Hlen : zlen (snd <$> l) = zlen l) by (unfold zlen; by rewrite length_fmap).
  destruct (ring_puts (snd <$> l) r0) as (G1 & _ & G2); [done|done|pose proof (vo_len _ _ _ _ _ _ _ HV); lia|].
  split; [by rewrite G1, Hlen|]. intros a j p y Hj. apply G2. by rewrite list_lookup_fmap, Hj.
Qed.

(** A microphone that hums, the DSP that answers with the sample itself, and a
    host that has written 700 samples and adds one per slot, just before its
    counter wraps. *)
Lemma hum_ring W : ring_at (λ _, 5) 960 W (mkAnneau (u32 W) (const_ring 5)).
Proof.
  split; [done|]. intros q _. cbn [pcm]. unfold rd, const_ring. rewrite lookup_replicate_2; [done|].
  unfold VSP_SHM_N. pose proof (Z.mod_pos_bound (u32 q) 16000). lia.
Qed.

Lemma vsp_voice_path_witness :
  let W := λ j : nat, 2 ^ 32 - 20 + Z.of_nat j in
  let e := mkEnv true true (Some (λ j, mkAnneau (u32 (W j)) (const_ring 5))) None 960 in
  let v := vsp_init <| dl := Some (mkAnneau 0 (const_ring 0)) |> <| lu_ul := u32 (2 ^ 32 - 720) |> in
  let '(v', _, _) := calypso_vsp_trame (Some echo_run) e v (echo_idle 0) in
  ∃ r', dl v' = Some r' ∧ ecrit r' = 36 ∧ rd (pcm r') 7 = 5.
Proof.
  intros W e v.
  pose proof (vsp_voice_path (λ _, 5) 960 (Some echo_run) e W
    (λ j, mkAnneau (u32 (W j)) (const_ring 5)) v (echo_idle 0) (2 ^ 32 - 720) (mkAnneau 0 (const_ring 0))
    ltac:(lia) eq_refl eq_refl eq_refl eq_refl ltac:(intros; apply hum_ring) ltac:(unfold W; lia)
    eq_refl ltac:(unfold W; lia) ltac:(unfold W; lia) ltac:(cbn; lia) eq_refl ltac:(cbn [ecrit]; lia) ltac:(vm_compute; reflexivity)) as H.
  cbv zeta in H. destruct (calypso_vsp_trame (Some echo_run) e v (echo_idle 0)) as [[v' s'] fait].
  change (Z.to_nat ((reste v + 960) / 26)) with 36%nat in H.
  destruct (voice (λ _, 5) 960 (Some echo_run) W 0 36 (2 ^ 32 - 720) (echo_idle 0)) as [[l P'] s1] eqn:Em.
  destruct H as (_ & _ & _ & _ & r' & Hd & He & Hp). exists r'. split; [exact Hd|].
  assert (El : l = (voice (λ _, 5) 960 (Some echo_run) W 0 36 (2 ^ 32 - 720) (echo_idle 0)).1.1) by (by rewrite Em).
  split; [rewrite He, El; vm_compute; reflexivity|].
  apply (Hp 7%nat 7%nat (Some (2 ^ 32 - 713)) 5). rewrite El. vm_compute. reflexivity.
Defined.

End Vsp.
