(* ===== verification/BspQueue.v ===== *)
(** * The burst queues of the BSP ([hw/arm/calypso/l1-dsp/calypso_bsp.c])

    The base station sends its bursts up to a hundred frames ahead.  The BSP
    keeps them in one array of slots per timeslot, each slot with its frame
    number, and at a frame delivers those whose frame number is close.  This
    file models the arithmetic of frame numbers in the hyperframe, the array
    ([bsp_enqueue], [bsp_take_for_fn], [bsp_take_nearest], [bsp_slot_exact]), the
    loop that empties it ([calypso_bsp_deliver_buffered]), and the files bursts
    are dumped to and replayed from ([bsp_replay_load]).  An array refines a
    finite map from frame numbers to bursts. *)
From stdpp Require Import gmap sorting.
From S2P Require Import Prelude C54xAddr.

Module BspQueue.
Import C54xAddr.

Definition GSM_HYPERFRAME : Z := 2715648.
Definition BSP_NUM_TN : Z := 8.
Definition BSP_QUEUE_LEN : nat := Z.to_nat 8192.
Definition BSP_FN_MATCH_WINDOW : Z := 64.
Definition BSP_IQ_MAX_I16 : Z := 384.

Record BspBurstSlot := mkSlot { iq : list Z; n : Z; fn : Z; valid : bool }.
#[export] Instance slot_eta : Settable BspBurstSlot := λ s, mkSlot (iq s) (n s) (fn s) (valid s).

Definition slot_zero : BspBurstSlot := mkSlot (replicate (Z.to_nat BSP_IQ_MAX_I16) 0) 0 0 false.
Definition queue_zero : list BspBurstSlot := replicate BSP_QUEUE_LEN slot_zero.

(** Signed distance of two frame numbers in the hyperframe. *)
Definition bsp_fn_delta (entry_fn ref_fn : Z) : Z :=
  let d := i32 entry_fn - i32 ref_fn in
  if GSM_HYPERFRAME / 2 <? d then d - GSM_HYPERFRAME
  else if d <=? - (GSM_HYPERFRAME / 2) then d + GSM_HYPERFRAME
  else d.

(** [memcpy(s->iq, iq, n * sizeof(int16_t))]. *)
Definition copy_iq (old new : list Z) (n : Z) : list Z := take (Z.to_nat n) new ++ drop (Z.to_nat n) old.

(** The scan of [bsp_enqueue]: the slot that already has the frame number, or
    the first free slot and the oldest one. *)
Inductive slot_scan := Dup (i : nat) | Ends (free_idx : option nat) (oldest_idx : nat) (oldest_delta : Z).

Fixpoint scan_slots (f : Z) (l : list BspBurstSlot) (i : nat) (free_idx : option nat) (oldest_idx : nat) (oldest_delta : Z) : slot_scan :=
  match l with
  | [] => Ends free_idx oldest_idx oldest_delta
  | s :: l =>
    if valid s && (fn s =? f) then Dup i
    else if negb (valid s) then
      scan_slots f l (S i) (match free_idx with None => Some i | Some _ => free_idx end) oldest_idx oldest_delta
    else
      let d := bsp_fn_delta (fn s) f in
      if d <? oldest_delta then scan_slots f l (S i) free_idx i d
      else scan_slots f l (S i) free_idx oldest_idx oldest_delta
  end.

Definition INT32_MAX : Z := 2147483647.

(** The queue of one timeslot and whether a burst was dropped. *)
Definition bsp_enqueue (q : list BspBurstSlot) (f : Z) (l : list Z) (len : Z) : list BspBurstSlot * bool :=
  match scan_slots f q 0 None 0 INT32_MAX with
  | Dup i => (alter (λ s, s <| iq := copy_iq (iq s) l len |> <| n := len |>) i q, false)
  | Ends free_idx oldest_idx _ =>
    let idx := match free_idx with Some i => i | None => oldest_idx end in
    (alter (λ s, mkSlot (copy_iq (iq s) l len) len f true) idx q, bool_decide (free_idx = None))
  end.

(** The match of [bsp_take_for_fn] and the queue without its stale entries; the
    number of them. *)
Fixpoint take_scan (cur : Z) (l : list BspBurstSlot) (i : nat) (best : option nat) (best_abs : Z) : option nat * list BspBurstSlot * Z :=
  match l with
  | [] => (best, [], 0)
  | s :: l =>
    if negb (valid s) then let '(m, l', k) := take_scan cur l (S i) best best_abs in (m, s :: l', k)
    else
      let d := bsp_fn_delta (fn s) cur in
      let ad := if d <? 0 then - d else d in
      if d <? - BSP_FN_MATCH_WINDOW then
        let '(m, l', k) := take_scan cur l (S i) best best_abs in (m, s <| valid := false |> :: l', k + 1)
      else if (ad <=? BSP_FN_MATCH_WINDOW) && (ad <? best_abs) then
        let '(m, l', k) := take_scan cur l (S i) (Some i) ad in (m, s :: l', k)
      else let '(m, l', k) := take_scan cur l (S i) best best_abs in (m, s :: l', k)
  end.

Definition bsp_take_for_fn (q : list BspBurstSlot) (cur : Z) : option nat * list BspBurstSlot * Z :=
  take_scan cur q 0 None INT32_MAX.

Fixpoint nearest_scan (cur : Z) (l : list BspBurstSlot) (i : nat) (best : option nat) (best_abs : Z) : option nat :=
  match l with
  | [] => best
  | s :: l =>
    if negb (valid s) then nearest_scan cur l (S i) best best_abs
    else
      let d := bsp_fn_delta (fn s) cur in
      let ad := if d <? 0 then - d else d in
      if ad <? best_abs then nearest_scan cur l (S i) (Some i) ad else nearest_scan cur l (S i) best best_abs
  end.

Definition bsp_take_nearest (q : list BspBurstSlot) (cur : Z) : option nat := nearest_scan cur q 0 None INT32_MAX.

Definition bsp_slot_exact (q : list BspBurstSlot) (f : Z) : option nat :=
  fst <$> list_find (λ s, valid s = true ∧ fn s = f) q.

(** The loop of [calypso_bsp_deliver_buffered] for one timeslot: the bursts
    delivered, in order, the queue they leave and the number of stale ones. *)
Fixpoint drain_queue (fuel : nat) (cur : Z) (q : list BspBurstSlot) : option (list BspBurstSlot * list BspBurstSlot * Z) :=
  match fuel with
  | O => None
  | S fuel =>
    let '(m, q, k) := bsp_take_for_fn q cur in
    match m with
    | None => Some ([], q, k)
    | Some i =>
      s ← q !! i;
      '(l, q, k') ← drain_queue fuel cur (alter (λ s, s <| valid := false |>) i q);
      Some (s :: l, q, k + k')
    end
  end.

(** ** Frame numbers *)
Definition frame_no (f : Z) : Prop := 0 ≤ f < GSM_HYPERFRAME.

(** The distance is the representative of the difference modulo the hyperframe
    of least absolute value. *)
Lemma fn_delta_spec e r :
  frame_no e → frame_no r →
  - (GSM_HYPERFRAME / 2) < bsp_fn_delta e r ≤ GSM_HYPERFRAME / 2 ∧
  (bsp_fn_delta e r) mod GSM_HYPERFRAME = (e - r) mod GSM_HYPERFRAME.
Proof.
  unfold frame_no, bsp_fn_delta, GSM_HYPERFRAME. cbv zeta. intros He Hr.
  assert (i32 e = e ∧ i32 r = r) as [-> ->] by (unfold i32; mlia).
  change (2715648 / 2) with 1357824. case_ifs; split; try lia.
  - replace (e - r - 2715648) with (e - r + (-1) * 2715648) by lia. by rewrite Z.mod_add.
  - replace (e - r + 2715648) with (e - r + 1 * 2715648) by lia. by rewrite Z.mod_add.
Qed.

Lemma fn_delta_inj e1 e2 r :
  frame_no e1 → frame_no e2 → frame_no r → bsp_fn_delta e1 r = bsp_fn_delta e2 r → e1 = e2.
Proof.
  intros H1 H2 Hr E. destruct (fn_delta_spec e1 r H1 Hr) as [_ M1]. destruct (fn_delta_spec e2 r H2 Hr) as [_ M2].
  rewrite E, M2 in M1. unfold frame_no, GSM_HYPERFRAME in *. mlia.
Qed.

(** ** A queue as a finite map *)
Definition burst (s : BspBurstSlot) : list Z := take (Z.to_nat (n s)) (iq s).

(** The valid slots hold the bursts of [m], one slot each. *)
Record Rep (q : list BspBurstSlot) (m : gmap Z (list Z)) : Prop := mkRep {
  rep_iff : ∀ f b, m !! f = Some b ↔ ∃ i s, q !! i = Some s ∧ valid s = true ∧ fn s = f ∧ burst s = b;
  rep_uniq : ∀ i j si sj, q !! i = Some si → q !! j = Some sj → valid si = true → valid sj = true → fn si = fn sj → i = j;
  rep_fn : ∀ i s, q !! i = Some s → valid s = true → frame_no (fn s)
}.

Lemma rep_lookup q m i s : Rep q m → q !! i = Some s → valid s = true → m !! fn s = Some (burst s).
Proof. intros R E V. apply (rep_iff _ _ R). by exists i, s. Qed.

Lemma rep_none q m f : Rep q m → (∀ i s, q !! i = Some s → valid s = true → fn s ≠ f) → m !! f = None.
Proof.
  intros R H. destruct (m !! f) as [b|] eqn:E; [|done].
  apply (rep_iff _ _ R) in E as (i & s & E & V & F & _). by destruct (H i s E V).
Qed.

Lemma rep_empty k : Rep (replicate k slot_zero) ∅.
Proof.
  constructor.
  - intros f b. rewrite lookup_empty. split; [done|]. intros (i & s & E & V & _).
    apply lookup_replicate in E as [-> _]. done.
  - intros i j si sj Ei _ Vi. apply lookup_replicate in Ei as [-> _]. done.
  - intros i s E V. apply lookup_replicate in E as [-> _]. done.
Qed.

(** A slot is freed. *)
Lemma rep_free q m i s :
  Rep q m → q !! i = Some s → valid s = true → Rep (alter (λ s, s <| valid := false |>) i q) (delete (fn s) m).
Proof.
  intros R E V. constructor.
  - intros f b. rewrite lookup_delete_Some, (rep_iff _ _ R). split.
    + intros (Hne & j & sj & Ej & Vj & Fj & Bj). exists j, sj.
      rewrite list_lookup_alter_ne; [eauto|]. intros ->. congruence.
    + intros (j & sj & Ej & Vj & Fj & Bj). destruct (decide (i = j)) as [<-|Hij].
      { rewrite list_lookup_alter_eq, E in Ej. injection Ej as <-. done. }
      rewrite list_lookup_alter_ne in Ej by done. split; [|naive_solver]. intros Hf.
      apply Hij, (rep_uniq _ _ R i j s sj); congruence.
  - intros j k sj sk Ej Ek Vj Vk. destruct (decide (i = j)) as [<-|Hj].
    { rewrite list_lookup_alter_eq, E in Ej. injection Ej as <-. done. }
    destruct (decide (i = k)) as [<-|Hk].
    { rewrite list_lookup_alter_eq, E in Ek. injection Ek as <-. done. }
    rewrite list_lookup_alter_ne in Ej, Ek by done. by apply (rep_uniq _ _ R).
  - intros j sj Ej Vj. destruct (decide (i = j)) as [<-|Hj].
    { rewrite list_lookup_alter_eq, E in Ej. injection Ej as <-. done. }
    rewrite list_lookup_alter_ne in Ej by done. by apply (rep_fn _ _ R j).
Qed.

(** A slot that is free, or that has the frame number, takes a burst. *)
Lemma rep_put q m i s s' :
  Rep q m → q !! i = Some s → valid s' = true → frame_no (fn s') →
  (∀ j sj, q !! j = Some sj → valid sj = true → fn sj = fn s' → j = i) →
  (valid s = true → fn s = fn s') →
  Rep (<[i := s']> q) (<[fn s' := burst s']> m).
Proof.
  intros R E V' F' Hu Hs. assert (Hi : (i < length q)%nat) by (by eapply lookup_lt_Some).
  assert (L : <[i := s']> q !! i = Some s') by (by apply list_lookup_insert_eq).
  constructor.
  - intros f b. rewrite lookup_insert_Some, (rep_iff _ _ R). split.
    + intros [[<- <-]|(Hne & j & sj & Ej & Vj & Fj & Bj)]; [naive_solver|]. exists j, sj.
      rewrite list_lookup_insert_ne; [eauto|]. intros <-. rewrite E in Ej. injection Ej as <-.
      apply Hne. rewrite <- Fj. symmetry. by apply Hs.
    + intros (j & sj & Ej & Vj & Fj & Bj). destruct (decide (i = j)) as [<-|Hij].
      { rewrite L in Ej. injection Ej as <-. left. done. }
      rewrite list_lookup_insert_ne in Ej by done. right. split; [|naive_solver]. intros Hf. apply Hij.
      symmetry. apply (Hu j sj); congruence.
  - intros j k sj sk Ej Ek Vj Vk Hf. destruct (decide (i = j)) as [<-|Hj], (decide (i = k)) as [<-|Hk]; [done|..].
    + rewrite L in Ej. injection Ej as <-. rewrite list_lookup_insert_ne in Ek by done. symmetry. by apply (Hu k sk).
    + rewrite L in Ek. injection Ek as <-. rewrite list_lookup_insert_ne in Ej by done. by apply (Hu j sj).
    + rewrite list_lookup_insert_ne in Ej, Ek by done. by apply (rep_uniq _ _ R j k sj sk).
  - intros j sj Ej Vj. destruct (decide (i = j)) as [<-|Hj].
    { rewrite L in Ej. injection Ej as <-. done. }
    rewrite list_lookup_insert_ne in Ej by done. by apply (rep_fn _ _ R j).
Qed.

(** ** Enqueuing *)
Definition full (q : list BspBurstSlot) : Prop := ∀ i s, q !! i = Some s → valid s = true.

Lemma queue_scan_spec f l i free oi od :
  match scan_slots f l i free oi od with
  | Dup j => ∃ k s, j = (i + k)%nat ∧ l !! k = Some s ∧ valid s = true ∧ fn s = f
  | Ends free' oi' od' =>
    (∀ k s, l !! k = Some s → valid s = true → fn s ≠ f ∧ od' ≤ bsp_fn_delta (fn s) f) ∧ od' ≤ od ∧
    (free' = free ∧ (free = None → full l) ∨
     free = None ∧ ∃ k s, free' = Some (i + k)%nat ∧ l !! k = Some s ∧ valid s = false) ∧
    (oi' = oi ∧ od' = od ∨ ∃ k s, oi' = (i + k)%nat ∧ l !! k = Some s ∧ valid s = true ∧ bsp_fn_delta (fn s) f = od')
  end.
Proof.
  revert i free oi od. induction l as [|s l IH]; intros i free oi od; cbn [scan_slots].
  { split; [done|]. split; [lia|]. split; left; [split; [done|]; intros _ k s; by rewrite lookup_nil|done]. }
  destruct (valid s) eqn:V; cbn [andb negb].
  - destruct (Z.eqb_spec (fn s) f) as [Ef|Ef]; [by exists 0%nat, s; split_and!; [lia|..]|].
    set (o := if bsp_fn_delta (fn s) f <? od then (i, bsp_fn_delta (fn s) f) else (oi, od)).
    replace (if _ <? _ then _ else _) with (scan_slots f l (S i) free o.1 o.2) by (unfold o; case_if; done).
    specialize (IH (S i) free o.1 o.2). destruct (scan_slots _ _ _ _ _ _) as [j|fr oi' od'].
    { destruct IH as (k & s' & -> & H). exists (S k), s'. split; [lia|exact H]. }
    destruct IH as (A & B & C & D).
    assert (Ho : o.2 ≤ od ∧ o.2 ≤ bsp_fn_delta (fn s) f) by (unfold o; case_if; bool_prop; cbn [snd]; lia).
    split; [|split; [lia|split]].
    + intros [|k] s' E V'; [injection E as <-; split; [done|lia]|eauto].
    + destruct C as [[-> C]|(-> & k & s' & -> & E & F)]; [left; split; [done|]|right; split; [done|]].
      * intros H [|k] s' E; [by injection E as <-|by apply (C H k)].
      * exists (S k), s'. split_and!; [f_equal; lia|done|done].
    + destruct D as [[-> ->]|(k & s' & -> & E & F)].
      * unfold o. case_if; [|by left]. right. exists 0%nat, s. cbn [fst snd]. split_and!; [lia|done|done|done].
      * right. exists (S k), s'. split; [lia|exact (conj E F)].
  - set (fr := match free with None => Some i | Some _ => free end).
    specialize (IH (S i) fr oi od). destruct (scan_slots _ _ _ _ _ _) as [j|fr' oi' od'].
    { destruct IH as (k & s' & -> & H). exists (S k), s'. split; [lia|exact H]. }
    destruct IH as (A & B & C & D). split; [|split; [lia|split]].
    + intros [|k] s' E V'; [injection E as <-; congruence|eauto].
    + destruct C as [[-> _]|(Hn & _)]; [|unfold fr in Hn; by destruct free].
      unfold fr. destruct free; [left; done|]. right. split; [done|]. exists 0%nat, s. split_and!; [f_equal; lia|done|done].
    + destruct D as [D|(k & s' & -> & E & F)]; [by left|]. right. exists (S k), s'. split; [lia|exact (conj E F)].
Qed.

(** Slots have room for a burst. *)
Definition roomy (q : list BspBurstSlot) : Prop := Forall (λ s, zlen (iq s) = BSP_IQ_MAX_I16) q.

Lemma burst_copy s l len f :
  zlen (iq s) = BSP_IQ_MAX_I16 → 0 ≤ len ≤ zlen l → burst (mkSlot (copy_iq (iq s) l len) len f true) = take (Z.to_nat len) l.
Proof.
  intros _ Hl. unfold burst, copy_iq, zlen in *. cbn [n iq]. rewrite take_app_le by (rewrite length_take; lia).
  by rewrite take_take, Nat.min_id.
Qed.

Lemma roomy_copy s l len :
  zlen (iq s) = BSP_IQ_MAX_I16 → 0 ≤ len ≤ zlen l → len ≤ BSP_IQ_MAX_I16 → zlen (copy_iq (iq s) l len) = BSP_IQ_MAX_I16.
Proof. intros Hs Hl Hm. unfold copy_iq, zlen in *. rewrite length_app, length_take, length_drop. lia. Qed.

Lemma alter_insert {A} (g : A → A) i (l : list A) x : l !! i = Some x → alter g i l = <[i := g x]> l.
Proof. intros E. symmetry. apply list_eq. intros j. rewrite list_lookup_insert, list_lookup_alter.
  assert ((i < length l)%nat) by (by eapply lookup_lt_Some).
  destruct (decide (i = j)) as [->|Hij]; [rewrite decide_True by done; by rewrite E|rewrite decide_False by naive_solver; done].
Qed.

Lemma roomy_alter q i s g : roomy q → q !! i = Some s → zlen (iq (g s)) = BSP_IQ_MAX_I16 → roomy (alter g i q).
Proof. intros Hr E Hg. unfold roomy. rewrite (alter_insert g i q s E). by apply Forall_insert. Qed.

(** The burst replaces one of the same frame, or takes a free slot. *)
Lemma put_refines q m i s f l len g :
  Rep q m → roomy q → frame_no f → 0 ≤ len ≤ zlen l → len ≤ BSP_IQ_MAX_I16 →
  q !! i = Some s → g s = mkSlot (copy_iq (iq s) l len) len f true →
  (valid s = true → fn s = f) → (∀ j sj, q !! j = Some sj → valid sj = true → fn sj = f → j = i) →
  roomy (alter g i q) ∧ length (alter g i q) = length q ∧ Rep (alter g i q) (<[f := take (Z.to_nat len) l]> m).
Proof.
  intros R Hr Hf Hl Hm E Eg Hs Hu. pose proof (Forall_lookup_1 _ _ _ _ Hr E) as Hz. cbn in Hz.
  split; [apply (roomy_alter q i s); [done|done|]; rewrite Eg; by apply roomy_copy|].
  split; [apply length_alter|]. rewrite (alter_insert g i q s E), Eg, <- (burst_copy s l len f Hz Hl).
  apply (rep_put q m i s); done.
Qed.

(** The oldest burst of a full queue goes. *)
Lemma evict_refines q m i s f l len :
  Rep q m → roomy q → frame_no f → 0 ≤ len ≤ zlen l → len ≤ BSP_IQ_MAX_I16 →
  q !! i = Some s → valid s = true → (∀ j sj, q !! j = Some sj → valid sj = true → fn sj ≠ f) →
  let q' := alter (λ s, mkSlot (copy_iq (iq s) l len) len f true) i q in
  roomy q' ∧ length q' = length q ∧ Rep q' (<[f := take (Z.to_nat len) l]> (delete (fn s) m)).
Proof.
  intros R Hr Hf Hl Hm E V Hn q'. pose proof (Forall_lookup_1 _ _ _ _ Hr E) as Hz. cbn in Hz.
  split; [apply (roomy_alter q i s); [done|done|by apply roomy_copy]|]. split; [apply length_alter|].
  pose proof (rep_free q m i s R E V) as R1. set (q1 := alter (λ s, s <| valid := false |>) i q) in R1.
  assert (E1 : q1 !! i = Some (s <| valid := false |>)) by (unfold q1; by rewrite list_lookup_alter_eq, E).
  unfold q'. rewrite (alter_insert _ i q s E), <- (burst_copy s l len f Hz Hl).
  replace (<[i := mkSlot _ _ _ _]> q) with (<[i := mkSlot (copy_iq (iq s) l len) len f true]> q1)
    by (unfold q1; rewrite (alter_insert _ i q s E); apply list_insert_insert_eq).
  apply (rep_put q1 _ i (s <| valid := false |>)); try done.
  intros j sj Ej Vj Fj. destruct (decide (i = j)) as [->|Hne]; [done|]. exfalso.
  unfold q1 in Ej. rewrite list_lookup_alter_ne in Ej by done. by apply (Hn j sj).
Qed.

(** Enqueuing inserts the burst.  When every slot is taken by another frame the
    oldest burst goes. *)
Lemma enqueue_refines q m f l len :
  Rep q m → roomy q → q ≠ [] → frame_no f → 0 ≤ len ≤ zlen l → len ≤ BSP_IQ_MAX_I16 →
  let '(q', dropped) := bsp_enqueue q f l len in
  roomy q' ∧ length q' = length q ∧
  if dropped then
    full q ∧ m !! f = None ∧ ∃ v, is_Some (m !! v) ∧ (∀ k, is_Some (m !! k) → bsp_fn_delta v f ≤ bsp_fn_delta k f) ∧
      Rep q' (<[f := take (Z.to_nat len) l]> (delete v m))
  else (is_Some (m !! f) ∨ ¬ full q) ∧ Rep q' (<[f := take (Z.to_nat len) l]> m).
Proof.
  intros R Hr Hq Hf Hl Hm. unfold bsp_enqueue. pose proof (queue_scan_spec f q 0 None 0 INT32_MAX) as HS.
  destruct (scan_slots _ _ _ _ _ _) as [i|free oi od].
  - destruct HS as (k & s & -> & E & V & F). cbn [Nat.add].
    edestruct (put_refines q m k s f l len (λ s, s <| iq := copy_iq (iq s) l len |> <| n := len |>)) as (A & B & C); try done.
    + destruct s; cbn in *; by subst.
    + intros j sj Ej Vj Fj. apply (rep_uniq _ _ R j k sj s); congruence.
    + split; [exact A|]. split; [exact B|]. split; [|exact C]. left. exists (burst s). rewrite <- F. by apply (rep_lookup q m k).
  - destruct HS as (A & _ & C & D).
    assert (Hn : ∀ j sj, q !! j = Some sj → valid sj = true → fn sj ≠ f) by (intros; by eapply A).
    destruct C as [[-> C]|(_ & k & s & -> & E & V)].
    + specialize (C eq_refl). rewrite bool_decide_true by done.
      destruct (q !! 0%nat) as [s0|] eqn:E0; [|by destruct q].
      destruct D as [[-> ->]|(k & s & -> & E & V & Ed)].
      { exfalso. destruct (A 0%nat s0 E0 (C 0%nat s0 E0)) as [_ H].
        destruct (fn_delta_spec (fn s0) f (rep_fn _ _ R 0%nat s0 E0 (C 0%nat s0 E0)) Hf) as [H2 _].
        unfold INT32_MAX, GSM_HYPERFRAME in *. change (2715648 / 2) with 1357824 in H2. lia. }
      cbn [Nat.add]. edestruct (evict_refines q m k s f l len) as (P1 & P2 & P3); try done.
      split; [exact P1|]. split; [exact P2|]. split; [done|]. split; [by apply (rep_none q m f R)|]. exists (fn s).
      split; [exists (burst s); by apply (rep_lookup q m k)|]. split; [|exact P3].
      intros g [b Hk]. apply (rep_iff _ _ R) in Hk as (j & sj & Ej & Vj & <- & _). rewrite Ed. by apply (A j sj).
    + cbn [Nat.add]. rewrite bool_decide_false by done.
      edestruct (put_refines q m k s f l len (λ s, mkSlot (copy_iq (iq s) l len) len f true)) as (P1 & P2 & P3); try done.
      * congruence.
      * intros j sj Ej Vj Fj. by destruct (Hn j sj Ej Vj).
      * split; [exact P1|]. split; [exact P2|]. split; [|exact P3]. right. intros Hfu. specialize (Hfu k s E). congruence.
Qed.

(** ** Taking *)
Definition stale (cur f : Z) : Prop := bsp_fn_delta f cur < - BSP_FN_MATCH_WINDOW.
Definition near (cur f : Z) : Prop := Z.abs (bsp_fn_delta f cur) ≤ BSP_FN_MATCH_WINDOW.
#[export] Instance stale_dec cur f : Decision (stale cur f).
Proof. unfold stale. apply _. Defined.
#[export] Instance near_dec cur f : Decision (near cur f).
Proof. unfold near. apply _. Defined.
Definition is_stale (cur : Z) (s : BspBurstSlot) : bool := valid s && (bsp_fn_delta (fn s) cur <? - BSP_FN_MATCH_WINDOW).

(** The queue that the scan leaves. *)
Definition purge (cur : Z) (q : list BspBurstSlot) : list BspBurstSlot :=
  (λ s, if is_stale cur s then s <| valid := false |> else s) <$> q.

(** One slot of the scan. *)
Definition candidate (cur : Z) (s : BspBurstSlot) (ba : Z) : bool :=
  valid s && (Z.abs (bsp_fn_delta (fn s) cur) <=? BSP_FN_MATCH_WINDOW) && (Z.abs (bsp_fn_delta (fn s) cur) <? ba).

Lemma take_scan_cons cur s l i best ba :
  take_scan cur (s :: l) i best ba =
    let c := candidate cur s ba in
    let '(m, l', k) := take_scan cur l (S i) (if c then Some i else best) (if c then Z.abs (bsp_fn_delta (fn s) cur) else ba) in
    (m, (if is_stale cur s then s <| valid := false |> else s) :: l', if is_stale cur s then k + 1 else k).
Proof.
  cbn [take_scan]. cbv zeta. unfold candidate, is_stale, BSP_FN_MATCH_WINDOW.
  replace (if bsp_fn_delta (fn s) cur <? 0 then - bsp_fn_delta (fn s) cur else bsp_fn_delta (fn s) cur)
    with (Z.abs (bsp_fn_delta (fn s) cur)) by (case_if; bool_prop; lia).
  destruct (valid s); cbn [negb andb]; [|done].
  destruct (Z.ltb_spec (bsp_fn_delta (fn s) cur) (-(64))) as [H|H]; [|by case_if].
  rewrite (proj2 (Z.leb_gt _ 64)) by lia. done.
Qed.

Lemma take_scan_spec cur l i best ba :
  let '(m, l', k) := take_scan cur l i best ba in
  l' = purge cur l ∧ k = zlen (filter (λ s, is_stale cur s = true) l) ∧
  ∃ ba', ba' ≤ ba ∧
    (m = best ∧ ba' = ba ∨
     ∃ j s, m = Some (i + j)%nat ∧ l !! j = Some s ∧ valid s = true ∧ near cur (fn s) ∧ ba' = Z.abs (bsp_fn_delta (fn s) cur)) ∧
    (∀ j s, l !! j = Some s → valid s = true → near cur (fn s) → ba' ≤ Z.abs (bsp_fn_delta (fn s) cur)).
Proof.
  revert i best ba. induction l as [|s l IH]; intros i best ba.
  { split; [done|]. split; [done|]. exists ba. split; [lia|]. split; [by left|]. intros j s. by rewrite lookup_nil. }
  rewrite take_scan_cons. cbv zeta. set (c := candidate cur s ba).
  set (a2 := if c then _ else ba). set (b2 := if c then Some i else best).
  assert (Hc : a2 ≤ ba ∧ (valid s = true → near cur (fn s) → a2 ≤ Z.abs (bsp_fn_delta (fn s) cur)) ∧
    (b2 = best ∧ a2 = ba ∨ b2 = Some i ∧ valid s = true ∧ near cur (fn s) ∧ a2 = Z.abs (bsp_fn_delta (fn s) cur))).
  { unfold a2, b2, c, candidate, near. destruct (valid s); cbn [andb].
    - destruct (Z.leb_spec (Z.abs (bsp_fn_delta (fn s) cur)) BSP_FN_MATCH_WINDOW), (Z.ltb_spec (Z.abs (bsp_fn_delta (fn s) cur)) ba);
        cbn [andb]; (split; [lia|]); (split; [lia|]); [right|left..]; split_and!; done || lia.
    - split; [lia|]. split; [done|by left]. }
  clearbody a2 b2. destruct Hc as (Ha & Hmin & Hb). specialize (IH (S i) b2 a2).
  destruct (take_scan cur l (S i) b2 a2) as [[m l'] k]. destruct IH as (-> & -> & ba' & Hle & Hm & Hall).
  split; [done|]. split.
  { rewrite filter_cons. destruct (is_stale cur s); [rewrite decide_True by done|rewrite decide_False by done]; unfold zlen; cbn [length]; lia. }
  exists ba'. split; [lia|]. split.
  - destruct Hm as [[-> ->]|(j & s' & -> & E & H)].
    + destruct Hb as [Hb|(-> & V & Hn & ->)]; [by left|]. right. exists 0%nat, s. split_and!; [f_equal; lia|done..].
    + right. exists (S j), s'. split; [f_equal; lia|]. exact (conj E H).
  - intros [|j] s' E V Hn; [injection E as <-; specialize (Hmin V Hn); lia|by apply (Hall j)].
Qed.

(** Purging removes the stale bursts. *)
Lemma rep_purge q m cur : Rep q m → Rep (purge cur q) (filter (λ x, ¬ stale cur x.1) m).
Proof.
  intros R.
  assert (L : ∀ i s', purge cur q !! i = Some s' → valid s' = true → q !! i = Some s' ∧ ¬ stale cur (fn s')).
  { intros i s' E V. unfold purge in E. rewrite list_lookup_fmap in E.
    destruct (q !! i) as [s|]; [|done]. injection E as <-. unfold is_stale in *.
    destruct (valid s) eqn:Vs; cbn [andb] in *; [|congruence].
    destruct (Z.ltb_spec (bsp_fn_delta (fn s) cur) (- BSP_FN_MATCH_WINDOW)); [done|]. split; [done|]. unfold stale. lia. }
  assert (L' : ∀ i s, q !! i = Some s → valid s = true → ¬ stale cur (fn s) → purge cur q !! i = Some s).
  { intros i s E V Hs. unfold purge. rewrite list_lookup_fmap, E. cbn. unfold is_stale. rewrite V. cbn [andb].
    unfold stale in Hs. by rewrite (proj2 (Z.ltb_ge _ _)) by lia. }
  constructor.
  - intros f b. rewrite map_lookup_filter_Some, (rep_iff _ _ R). split.
    + intros [(i & s & E & V & <- & <-) Hs]. exists i, s. split; [by apply L'|done].
    + intros (i & s & E & V & <- & <-). destruct (L i s E V) as [E' Hs]. split; [by exists i, s|done].
  - intros i j si sj Ei Ej Vi Vj. destruct (L i si Ei Vi) as [Ei' _], (L j sj Ej Vj) as [Ej' _]. by apply (rep_uniq _ _ R).
  - intros i s E V. destruct (L i s E V) as [E' _]. by apply (rep_fn _ _ R i).
Qed.

(** What a take finds: the burst of the nearest frame, if one is near. *)
Lemma take_refines q m cur :
  Rep q m →
  let '(i, q', k) := bsp_take_for_fn q cur in
  q' = purge cur q ∧ k = zlen (filter (λ s, is_stale cur s = true) q) ∧
  match i with
  | Some i => ∃ s, q' !! i = Some s ∧ valid s = true ∧ near cur (fn s) ∧
                ∀ f b, m !! f = Some b → near cur f → Z.abs (bsp_fn_delta (fn s) cur) ≤ Z.abs (bsp_fn_delta f cur)
  | None => ∀ f b, m !! f = Some b → ¬ near cur f
  end.
Proof.
  intros R. unfold bsp_take_for_fn. pose proof (take_scan_spec cur q 0 None INT32_MAX) as H.
  destruct (take_scan cur q 0 None INT32_MAX) as [[i q'] k]. destruct H as (-> & -> & ba & _ & H & Hall).
  split; [done|]. split; [done|]. destruct H as [[-> ->]|(j & s & -> & E & V & Hn & ->)].
  - intros f b Hm Hf. apply (rep_iff _ _ R) in Hm as (j & s & E & V & <- & _). specialize (Hall j s E V Hf).
    unfold near, BSP_FN_MATCH_WINDOW, INT32_MAX in *. lia.
  - exists s. split.
    { unfold purge. cbn [Nat.add]. rewrite list_lookup_fmap, E. cbn. unfold is_stale, near in *. rewrite V. cbn [andb].
      by rewrite (proj2 (Z.ltb_ge _ _)) by lia. }
    split; [done|]. split; [done|]. intros f b Hm Hf. apply (rep_iff _ _ R) in Hm as (j' & s' & E' & V' & <- & _).
    by apply (Hall j' s').
Qed.

(** ** Emptying a queue *)
Lemma size_list_to_set_le (l : list Z) : (size (list_to_set l : gset Z) ≤ length l)%nat.
Proof.
  induction l as [|x l IH]; [done|]. cbn [list_to_set length]. rewrite size_union_alt, size_singleton.
  pose proof (subseteq_size (list_to_set l ∖ {[x]} : gset Z) (list_to_set l) ltac:(set_solver)). lia.
Qed.

(** As many bursts as valid slots. *)
Lemma rep_size q m : Rep q m → (size m ≤ length (filter (λ s, valid s = true) q))%nat.
Proof.
  intros R. rewrite <- (size_dom (D := gset Z)), <- (length_fmap fn), <- size_list_to_set_le.
  apply subseteq_size. intros f [b Hb]%elem_of_dom. apply (rep_iff _ _ R) in Hb as (i & s & E & V & <- & _).
  apply elem_of_list_to_set, list_elem_of_fmap. exists s. split; [done|].
  apply list_elem_of_filter. split; [done|]. by eapply list_elem_of_lookup_2.
Qed.

Lemma rep_full q m : Rep q m → full q ↔ size m = length q.
Proof.
  intros R. split.
  - intros Hf. rewrite <- (size_dom (D := gset Z)), <- (length_fmap fn q), <- (size_list_to_set (C := gset Z)).
    + f_equal. apply set_eq. intros f. rewrite elem_of_dom, elem_of_list_to_set, list_elem_of_fmap. split.
      * intros [b Hb]. apply (rep_iff _ _ R) in Hb as (i & s & E & _ & <- & _). exists s. split; [done|]. by eapply list_elem_of_lookup_2.
      * intros (s & -> & [i E]%list_elem_of_lookup_1). exists (burst s). apply (rep_lookup q m i); [done|done|by apply (Hf i)].
    + apply NoDup_alt. intros i j f Hi Hj. apply list_lookup_fmap_Some in Hi as (si & -> & Ei). apply list_lookup_fmap_Some in Hj as (sj & Ef & Ej).
      by apply (rep_uniq _ _ R i j si sj); eauto.
  - intros Hs i s E. destruct (valid s) eqn:V; [done|]. exfalso. pose proof (rep_size q m R).
    assert ((length (filter (λ s, valid s = true) q) < length q)%nat).
    { apply (length_filter_lt _ _ s); [by eapply list_elem_of_lookup_2|by rewrite V]. }
    lia.
Qed.

Definition dist (cur : Z) (s : BspBurstSlot) : Z := Z.abs (bsp_fn_delta (fn s) cur).

Lemma filter_delete_near cur f (m : gmap Z (list Z)) :
  near cur f →
  filter (λ x, ¬ stale cur x.1 ∧ ¬ near cur x.1) (delete f (filter (λ x, ¬ stale cur x.1) m)) =
  filter (λ x, ¬ stale cur x.1 ∧ ¬ near cur x.1) m.
Proof.
  intros Hn. apply map_eq. intros g. apply option_eq. intros b.
  rewrite !map_lookup_filter_Some, lookup_delete_Some, map_lookup_filter_Some. cbn [fst]. naive_solver.
Qed.

Lemma filter_no_near cur (m : gmap Z (list Z)) :
  (∀ f b, m !! f = Some b → ¬ near cur f) →
  filter (λ x, ¬ stale cur x.1 ∧ ¬ near cur x.1) m = filter (λ x, ¬ stale cur x.1) m.
Proof.
  intros H. apply map_eq. intros g. apply option_eq. intros b. rewrite !map_lookup_filter_Some. cbn [fst]. naive_solver.
Qed.

Lemma size_delete_filter cur f b fuel (m : gmap Z (list Z)) :
  filter (λ x, ¬ stale cur x.1) m !! f = Some b → (size m < S fuel)%nat →
  (size (delete f (filter (λ x, ¬ stale cur x.1) m)) < fuel)%nat.
Proof.
  intros Hs Hf. rewrite map_size_delete_Some by (by exists b). pose proof (map_size_filter (λ x, ¬ stale cur x.1) m).
  assert (size (filter (λ x, ¬ stale cur x.1) m) ≠ 0%nat) by (apply (map_size_ne_0_lookup_2 _ f); by exists b). lia.
Qed.

Lemma roomy_purge cur q : roomy q → roomy (purge cur q).
Proof.
  unfold roomy, purge. intros Hr. apply Forall_fmap, Forall_forall. intros s Hs. cbn.
  pose proof (proj1 (Forall_forall _ _) Hr s Hs). by destruct (is_stale cur s).
Qed.

(** The loop delivers exactly the bursts of the near frames, each once and the
    nearest first, drops the stale ones and keeps those of later frames. *)
Lemma drain_refines fuel cur q m :
  Rep q m → (size m < fuel)%nat →
  ∃ l q' k, drain_queue fuel cur q = Some (l, q', k) ∧ length q' = length q ∧ (roomy q → roomy q') ∧
    Rep q' (filter (λ x, ¬ stale cur x.1 ∧ ¬ near cur x.1) m) ∧
    (∀ s, s ∈ l → valid s = true ∧ m !! fn s = Some (burst s) ∧ near cur (fn s)) ∧
    (∀ f b, m !! f = Some b → near cur f → ∃ s, s ∈ l ∧ fn s = f) ∧
    NoDup (fn <$> l) ∧ StronglySorted (λ s s', dist cur s ≤ dist cur s') l.
Proof.
  revert q m. induction fuel as [|fuel IH]; intros q m R Hf; [lia|]. cbn [drain_queue].
  pose proof (take_refines q m cur R) as H. pose proof (rep_purge q m cur R) as R1.
  destruct (bsp_take_for_fn q cur) as [[i q1] k]. destruct H as (-> & _ & H).
  assert (Hlen : length (purge cur q) = length q) by (unfold purge; apply length_fmap).
  pose proof (roomy_purge cur q) as Hroom.
  destruct i as [i|].
  - destruct H as (s & E & V & Hn & Hmin). rewrite E. cbn [mbind option_bind].
    pose proof (rep_free _ _ i s R1 E V) as R2. pose proof (rep_lookup _ _ i s R1 E V) as Hs.
    pose proof (size_delete_filter cur _ _ fuel m Hs Hf) as Hsz.
    destruct (IH _ _ R2 Hsz) as (l & q' & k' & -> & L & Hr' & R3 & D1 & D2 & ND & SS). cbn [mbind option_bind].
    apply map_lookup_filter_Some in Hs as [Hs _].
    assert (D1' : ∀ s', s' ∈ l → valid s' = true ∧ m !! fn s' = Some (burst s') ∧ near cur (fn s') ∧ fn s' ≠ fn s).
    { intros s' Hs'. destruct (D1 s' Hs') as (V' & M' & N'). apply lookup_delete_Some in M' as [Hne M'].
      apply map_lookup_filter_Some in M' as [M' _]. split_and!; [done..|congruence]. }
    eexists (s :: l), q', (k + k'). split; [done|]. split; [rewrite L, length_alter; exact Hlen|].
    split; [intros Hr; apply Hr', (roomy_alter _ i s); [by apply Hroom|done|]; exact (Forall_lookup_1 _ _ _ _ (Hroom Hr) E)|].
    split; [by rewrite filter_delete_near in R3 by done|]. split; [|split; [|split]].
    + intros s' [->|Hs']%elem_of_cons; [done|]. by destruct (D1' s' Hs') as (? & ? & ? & _).
    + intros f b Hm Hn'. destruct (decide (f = fn s)) as [->|Hne]; [exists s; by split; [left|]|].
      destruct (D2 f b) as (s' & Hs' & <-); [|done|exists s'; by split; [right|]].
      apply lookup_delete_Some. split; [done|]. apply map_lookup_filter_Some. split; [done|]. cbn.
      unfold near, stale in *. lia.
    + cbn [fmap list_fmap]. constructor; [|done]. intros (s' & Hf' & Hs')%list_elem_of_fmap.
      destruct (D1' s' Hs') as (_ & _ & _ & Hne). congruence.
    + constructor; [done|]. apply Forall_forall. intros s' Hs'%list_elem_of_In. destruct (D1' s' Hs') as (_ & M' & N' & _).
      by apply (Hmin _ (burst s')).
  - eexists [], (purge cur q), k. split; [done|]. split; [done|]. split; [done|].
    split; [|split; [set_solver|split; [|split; constructor]]].
    + by rewrite filter_no_near.
    + intros f b Hm Hn. by destruct (H f b Hm).
Qed.

(** ** The queue against its specification *)
Inductive qop := Enq (f : Z) (l : list Z) | Deliver (cur : Z).

Definition qop_ok (o : qop) : Prop :=
  match o with Enq f l => frame_no f ∧ zlen l ≤ BSP_IQ_MAX_I16 | Deliver cur => frame_no cur end.

(** The code: the bursts an operation delivers and the queue it leaves; [None]
    if the loop did not end. *)
Definition qstep (q : list BspBurstSlot) (o : qop) : option (list (Z * list Z) * list BspBurstSlot) :=
  match o with
  | Enq f l => Some ([], fst (bsp_enqueue q f l (zlen l)))
  | Deliver cur =>
    match drain_queue (S BSP_QUEUE_LEN) cur q with
    | Some (l, q, _) => Some ((λ s, (fn s, burst s)) <$> l, q)
    | None => None
    end
  end.

(** The specification: a store of at most [cap] bursts by frame number.  A burst
    replaces the one of its frame; a full store loses its oldest burst, as seen
    from the new one.  A delivery gives out all bursts near the current frame,
    the nearest first, and forgets the older ones. *)
Inductive sstep (cap : nat) (m : gmap Z (list Z)) : qop → list (Z * list Z) → gmap Z (list Z) → Prop :=
| s_enq f l : is_Some (m !! f) ∨ (size m < cap)%nat → sstep cap m (Enq f l) [] (<[f := l]> m)
| s_evict f l v :
    size m = cap → m !! f = None → is_Some (m !! v) → (∀ k, is_Some (m !! k) → bsp_fn_delta v f ≤ bsp_fn_delta k f) →
    sstep cap m (Enq f l) [] (<[f := l]> (delete v m))
| s_deliver cur out :
    (∀ f b, (f, b) ∈ out ↔ m !! f = Some b ∧ near cur f) → NoDup out.*1 →
    StronglySorted (λ x y, Z.abs (bsp_fn_delta x.1 cur) ≤ Z.abs (bsp_fn_delta y.1 cur)) out →
    sstep cap m (Deliver cur) out (filter (λ x, ¬ stale cur x.1 ∧ ¬ near cur x.1) m).

Inductive srun (cap : nat) : gmap Z (list Z) → list qop → list (list (Z * list Z)) → gmap Z (list Z) → Prop :=
| s_nil m : srun cap m [] [] m
| s_cons m o out m1 os outs m2 : sstep cap m o out m1 → srun cap m1 os outs m2 → srun cap m (o :: os) (out :: outs) m2.

Fixpoint qrun (q : list BspBurstSlot) (os : list qop) : option (list (list (Z * list Z)) * list BspBurstSlot) :=
  match os with
  | [] => Some ([], q)
  | o :: os => '(out, q) ← qstep q o; '(outs, q) ← qrun q os; Some (out :: outs, q)
  end.

Lemma sorted_fmap {A B} (g : A → B) (R : B → B → Prop) l :
  StronglySorted (λ x y, R (g x) (g y)) l → StronglySorted R (g <$> l).
Proof. induction 1 as [|x l _ IH H]; constructor; [done|]. by apply Forall_fmap. Qed.

Lemma qstep_refines q m o :
  Rep q m → roomy q → length q = BSP_QUEUE_LEN → qop_ok o →
  ∃ out q' m', qstep q o = Some (out, q') ∧ sstep BSP_QUEUE_LEN m o out m' ∧ Rep q' m' ∧ roomy q' ∧ length q' = BSP_QUEUE_LEN.
Proof.
  intros R Hr Hl Ho. destruct o as [f l|cur]; cbn [qop_ok qstep] in *.
  - destruct Ho as [Hf Hz]. assert (Hq : q ≠ []) by (intros ->; done).
    pose proof (enqueue_refines q m f l (zlen l) R Hr Hq Hf ltac:(unfold zlen; lia) Hz) as H.
    destruct (bsp_enqueue q f l (zlen l)) as [q' []]; cbn [fst]; destruct H as (Hr' & Hl' & H);
      replace (take (Z.to_nat (zlen l)) l) with l in H by (unfold zlen; rewrite Nat2Z.id, take_ge by lia; done).
    + destruct H as (Hfu & Hn & v & Hv & Hmin & R'). eexists _, _, _. split; [done|]. split; [|split_and!; [done|done|lia]].
      apply s_evict; try done. rewrite <- Hl. by apply rep_full.
    + destruct H as (Hc & R'). eexists _, _, _. split; [done|]. split; [|split_and!; [done|done|lia]].
      apply s_enq. destruct Hc as [Hc|Hc]; [by left|right]. rewrite <- Hl. rewrite (rep_full q m R) in Hc.
      pose proof (rep_size q m R). pose proof (length_filter (λ s, valid s = true) q). lia.
  - pose proof (rep_size q m R). pose proof (length_filter (λ s, valid s = true) q).
    destruct (drain_refines (S BSP_QUEUE_LEN) cur q m R ltac:(lia)) as (l & q' & k & -> & Hl' & Hr' & R' & D1 & D2 & ND & SS).
    cbn [mbind option_bind]. eexists _, _, _. split; [done|]. split; [|split_and!; [done|by apply Hr'|lia]].
    constructor.
    + intros f b. rewrite list_elem_of_fmap. split.
      * intros (s & [= -> ->] & Hs). by destruct (D1 s Hs) as (_ & ? & ?).
      * intros [Hm Hn]. destruct (D2 f b Hm Hn) as (s & Hs & <-). exists s. split; [|done].
        destruct (D1 s Hs) as (_ & Hm' & _). congruence.
    + rewrite <- list_fmap_compose. exact ND.
    + apply sorted_fmap. exact SS.
Qed.

(** C17: the burst queue refines a bounded store of bursts by frame number.
    Whatever bursts arrive and whenever the frame loop empties it, the queue of a
    timeslot delivers what the specification does: at a frame, every burst it
    still has within 64 frames of it, each once, unaltered and the nearest
    first, across the wrap of the hyperframe; a burst is lost only when it is
    more than 64 frames late or when 8192 others wait and it is the oldest.  The
    loop always ends. *)
Theorem bsp_queue_refines_store os :
  Forall qop_ok os →
  ∃ outs q m, qrun queue_zero os = Some (outs, q) ∧ srun BSP_QUEUE_LEN ∅ os outs m ∧ Rep q m.
Proof.
  intros Hos.
  assert (G : ∀ q m, Rep q m → roomy q → length q = BSP_QUEUE_LEN →
    ∃ outs q' m', qrun q os = Some (outs, q') ∧ srun BSP_QUEUE_LEN m os outs m' ∧ Rep q' m').
  { induction Hos as [|o os Ho Hos IH]; intros q m R Hr Hl.
    - eexists _, _, _. split; [done|]. split; [constructor|done].
    - destruct (qstep_refines q m o R Hr Hl Ho) as (out & q1 & m1 & E1 & S1 & R1 & Hr1 & Hl1).
      destruct (IH q1 m1 R1 Hr1 Hl1) as (outs & q2 & m2 & E2 & S2 & R2).
      eexists _, _, _. cbn [qrun]. rewrite E1. cbn [mbind option_bind]. rewrite E2. cbn [mbind option_bind].
      split; [done|]. split; [by econstructor|done]. }
  apply G.
  - apply rep_empty.
  - apply Forall_replicate. reflexivity.
  - apply length_replicate.
Qed.

Lemma bsp_queue_refines_store_witness :
  ∃ outs q m, qrun queue_zero [Enq 2715640 [1; 2]; Enq 3 [3; 4]; Enq 100 [5; 6]; Deliver 0] = Some (outs, q) ∧
    srun BSP_QUEUE_LEN ∅ [Enq 2715640 [1; 2]; Enq 3 [3; 4]; Enq 100 [5; 6]; Deliver 0] outs m ∧ Rep q m.
Proof.
  apply (bsp_queue_refines_store [Enq 2715640 [1; 2]; Enq 3 [3; 4]; Enq 100 [5; 6]; Deliver 0]).
  do 4 (apply Forall_cons_2; [unfold qop_ok, frame_no, GSM_HYPERFRAME, BSP_IQ_MAX_I16, zlen; cbn [length]; lia|]). apply Forall_nil_2.
Defined.

Example queue_across_wrap :
  fst <$> qrun queue_zero [Enq 2715640 [1; 2]; Enq 3 [3; 4]; Enq 100 [5; 6]; Deliver 0] =
    Some [[]; []; []; [(3, [3; 4]); (2715640, [1; 2])]].
Proof. vm_compute. reflexivity. Qed.

(** ** Dump and replay files *)
Record ReplayBurst := mkReplay { r_fn : Z; r_tn : Z; r_iq : list Z }.

Definition le16 (x : Z) : list Z := [u8 x; u8 (x / 256)].
Definition MAGIC : list Z := [0x49; 0x51; 0x31; 0x36].

(** The record the delivery loop appends to [BSP_DUMP_RX_FILE]. *)
Definition dump_burst (r : ReplayBurst) : list Z :=
  MAGIC ++ le32 (r_fn r) ++ [u8 (r_tn r)] ++ le16 (zlen (r_iq r)) ++ [0] ++ flat_map le16 (r_iq r).

(** [fread(iq, 2, n)]: [n] samples, or [None] when the file ends before. *)
Fixpoint read_samples (k : nat) (f : list Z) : option (list Z * list Z) :=
  match k with
  | O => Some ([], f)
  | S k => match f with
           | lo :: hi :: f =>
             match read_samples k f with
             | Some (l, f) => Some (i16 (lo + 256 * hi) :: l, f)
             | None => None
             end
           | _ => None
           end
  end.

(** The loop of [bsp_replay_load]; the fuel is the length of the file. *)
Fixpoint replay_loop (fuel : nat) (f : list Z) : list ReplayBurst :=
  match fuel with
  | O => []
  | S fuel =>
    match f with
    | m0 :: m1 :: m2 :: m3 :: f0 :: f1 :: f2 :: f3 :: tn :: n0 :: n1 :: _ :: f =>
      if negb (bool_decide ([m0; m1; m2; m3] = MAGIC)) then []
      else
        let fn := f0 + 256 * f1 + 65536 * f2 + 16777216 * f3 in
        let n := n0 + 256 * n1 in
        if (n =? 0) || (BSP_IQ_MAX_I16 <? n) then []
        else match read_samples (Z.to_nat n) f with
             | Some (l, f) => mkReplay fn tn l :: replay_loop fuel f
             | None => []
             end
    | _ => []
    end
  end.
Definition bsp_replay_load (f : list Z) : list ReplayBurst := replay_loop (length f) f.

Definition replay_ok (r : ReplayBurst) : Prop :=
  0 ≤ r_fn r < 2 ^ 32 ∧ 0 ≤ r_tn r < 256 ∧ 1 ≤ zlen (r_iq r) ≤ BSP_IQ_MAX_I16 ∧ Forall (λ x, - 32768 ≤ x < 32768) (r_iq r).

Lemma length_le16s l : length (flat_map le16 l) = (2 * length l)%nat.
Proof. induction l as [|x l IH]; [done|]. cbn [flat_map]. rewrite length_app, IH. cbn. lia. Qed.

Lemma read_le16s l f :
  Forall (λ x, - 32768 ≤ x < 32768) l → read_samples (length l) (flat_map le16 l ++ f) = Some (l, f).
Proof.
  induction 1 as [|x l Hx _ IH]; [done|]. cbn. rewrite IH. do 2 f_equal. f_equal. unfold i16, u8. mlia.
Qed.

Lemma read_short k f : (length f < 2 * k)%nat → read_samples k f = None.
Proof.
  revert f. induction k as [|k IH]; intros f Hf; [lia|]. destruct f as [|lo [|hi f]]; [done|done|].
  cbn [read_samples]. rewrite IH; [done|]. cbn in Hf. lia.
Qed.

(** One record of the loop, whole or cut inside the samples. *)
Lemma replay_record fuel r f :
  replay_ok r →
  replay_loop (S fuel) (MAGIC ++ le32 (r_fn r) ++ [u8 (r_tn r)] ++ le16 (zlen (r_iq r)) ++ [0] ++ f) =
  match read_samples (length (r_iq r)) f with Some (l, f) => mkReplay (r_fn r) (r_tn r) l :: replay_loop fuel f | None => [] end.
Proof.
  intros (Hf & Ht & Hz & _). cbn [app MAGIC le32 le16 replay_loop]. rewrite bool_decide_true by done. cbn [negb].
  assert (E1 : u8 (zlen (r_iq r)) + 256 * u8 (zlen (r_iq r) / 256) = zlen (r_iq r))
    by (unfold u8, BSP_IQ_MAX_I16 in *; mlia).
  rewrite E1, (proj2 (Z.eqb_neq _ 0)), (proj2 (Z.ltb_ge _ _)) by lia. cbn [orb].
  unfold zlen at 1. rewrite Nat2Z.id.
  assert (E2 : u8 (r_fn r) + 256 * u8 (r_fn r / 256) + 65536 * u8 (r_fn r / 65536) + 16777216 * u8 (r_fn r / 16777216) = r_fn r)
    by (unfold u8; mlia).
  by rewrite E2, u8_small.
Qed.

Lemma length_dump r : length (dump_burst r) = (12 + 2 * length (r_iq r))%nat.
Proof. unfold dump_burst. rewrite !length_app, length_le16s. cbn. lia. Qed.

(** What ends the load: less than a header, another magic word, a sample count
    that is zero or above the burst size, fewer samples than the count. *)
Definition bad_tail (f : list Z) : Prop :=
  let n := rd f 9 + 256 * rd f 10 in
  zlen f < 12 ∨ take 4 f ≠ MAGIC ∨ n = 0 ∨ BSP_IQ_MAX_I16 < n ∨ zlen f < 12 + 2 * n.

Lemma replay_bad fuel f : bad_tail f → replay_loop fuel f = [].
Proof.
  intros H. destruct fuel as [|fuel]; [done|]. cbn [replay_loop].
  do 12 (destruct f as [|? f]; [done|]). unfold bad_tail, zlen in H. cbn [take length] in H.
  destruct (bool_decide_reflect ([z; z0; z1; z2] = MAGIC)) as [Em|]; [|done]. cbn [negb]. cbv zeta in *.
  change (rd _ 9) with z8 in H. change (rd _ 10) with z9 in H.
  destruct (_ || _) eqn:E; [done|]. bool_prop. rewrite read_short; [done|].
  destruct H as [H|[H|[H|[H|H]]]]; [lia|by destruct H|lia..].
Qed.

(** A file that ends inside a record. *)
Lemma bad_cut r k : replay_ok r → (k < length (dump_burst r))%nat → bad_tail (take k (dump_burst r)).
Proof.
  intros (_ & _ & Hz & _) Hk. unfold bad_tail. cbv zeta.
  assert (L : zlen (take k (dump_burst r)) = Z.of_nat k) by (unfold zlen; rewrite length_take; lia). rewrite L.
  destruct (decide (k < 12)%nat) as [Hs|Hs]; [left; lia|]. do 4 right. rewrite length_dump in Hk.
  replace k with (12 + (k - 12))%nat at 2 3 by lia. unfold dump_burst.
  change (rd (take (12 + (k - 12)) _) 9) with (u8 (zlen (r_iq r))). change (rd (take (12 + (k - 12)) _) 10) with (u8 (zlen (r_iq r) / 256)).
  assert (u8 (zlen (r_iq r)) + 256 * u8 (zlen (r_iq r) / 256) = zlen (r_iq r)) as -> by (unfold u8, BSP_IQ_MAX_I16 in *; mlia).
  unfold zlen. lia.
Qed.

(** C34: replay reads back what was dumped.  Bursts dumped to a file and loaded
    again are the same, with frame number, timeslot and signed samples, whatever
    follows them as long as it does not begin with a whole valid record: nothing,
    an incomplete header, another magic word, a sample count of zero or above
    the burst size, or fewer samples than announced give every burst before it
    and nothing else; in particular a file cut off inside a record, as an
    interrupted run leaves it. *)
Theorem replay_roundtrip l :
  Forall replay_ok l →
  (∀ f, bad_tail f → bsp_replay_load (flat_map dump_burst l ++ f) = l) ∧
  (∀ r k, replay_ok r → (k < length (dump_burst r))%nat →
    bsp_replay_load (flat_map dump_burst l ++ take k (dump_burst r)) = l).
Proof.
  intros Hl.
  assert (G : ∀ fuel f, (length l ≤ fuel)%nat → bad_tail f → replay_loop fuel (flat_map dump_burst l ++ f) = l).
  { clear -Hl. induction Hl as [|x l Hx Hl IH]; intros fuel f Hf Hb; [by apply replay_bad|].
    destruct fuel as [|fuel]; [cbn in Hf; lia|]. cbn [flat_map]. unfold dump_burst at 1.
    rewrite <- !app_assoc, replay_record by done. destruct Hx as (_ & _ & _ & Hx). rewrite read_le16s by done.
    rewrite IH by (done || (cbn in Hf; lia)). by destruct x. }
  assert (K : ∀ f, (length l ≤ length (flat_map dump_burst l ++ f))%nat).
  { intros f. rewrite length_app. clear. induction l as [|x l IH]; cbn [flat_map length]; [lia|]. rewrite length_app, length_dump. lia. }
  split; [intros f Hb; by apply G|]. intros r k Hr Hk. apply G; [apply K|]. by apply bad_cut.
Qed.

(** Two bursts, then a record cut off, one with a wrong magic word and one with
    no samples. *)
Lemma replay_roundtrip_witness :
  let r := mkReplay 2715647 7 [-32768; 32767; -1] in
  bsp_replay_load (flat_map dump_burst [r; r] ++ take 14 (dump_burst r)) = [r; r] ∧
  bsp_replay_load (flat_map dump_burst [r; r] ++ [0x49; 0x51; 0x31; 0x37; 0; 0; 0; 0; 0; 1; 0; 0; 5; 6]) = [r; r] ∧
  bsp_replay_load (flat_map dump_burst [r; r] ++ MAGIC ++ replicate 30 0) = [r; r].
Proof.
  intros r.
  assert (Hr : replay_ok r).
  { unfold replay_ok, r, BSP_IQ_MAX_I16, zlen. cbn [r_fn r_tn r_iq length]. split_and!; try lia.
    do 3 (apply Forall_cons_2; [lia|]). apply Forall_nil_2. }
  destruct (replay_roundtrip [r; r]) as [A B]; [by do 2 (apply Forall_cons_2; [done|])|].
  split; [apply B; [done|cbn; lia]|]. split; apply A.
  - right. left. discriminate.
  - right. right. left. reflexivity.
Defined.

End BspQueue.
