(* ===== verification/BspStore.v ===== *)
(** * The frame stores of the BSP ([hw/arm/calypso/l1-dsp/calypso_bsp.c])

    In stream mode the bursts of the base station are kept by frame number in
    arrays indexed by the frame number modulo their size: timeslot 0, the other
    seven timeslots, the dedicated channel, the last traffic bursts, and the
    uplink copied for the realistic air.  The DSP ticks are not the frames of
    the base station: the offset between them is set by the synchronisation
    burst, by the access burst and by what the firmware writes.  This file has
    the state of the stream mode, the stores against an interface, the offsets,
    and the frames of the dedicated channel.  The environment switches are a
    record; allocations succeed, messages and statistics are left out. *)
From stdpp Require Import gmap.
From S2P Require Import Prelude.

Module BspStore.

Definition BSP_FN_MAX : Z := 2715648.
Definition BSP_TS0_RING : Z := Z.shiftl 1 18.
Definition BSP_AUTRES_RING : Z := Z.shiftl 1 16.
Definition BSP_DEDIE_RING : Z := Z.shiftl 1 16.
Definition AIR_UL_RING : Z := Z.shiftl 1 12.
Definition TCH_ANNEAU : Z := 128.
Definition NB_GARDE_N : Z := 4.
Definition BSP_DEDIE_TCH : Z := 2.
Definition BSP_DEDIE_PDCH : Z := 4.

Record ts0_entry := mkTs0 { ts0_fn : Z; ts0_bits : list Z; ts0_valid : bool; ts0_joue : bool }.
#[export] Instance ts0_eta : Settable ts0_entry := λ e, mkTs0 (ts0_fn e) (ts0_bits e) (ts0_valid e) (ts0_joue e).

(** An entry of [g_autres] and of [g_air_ul]: the bursts of one frame, and which
    timeslots are present. *)
Record multi_entry := mkMulti { mu_fn : Z; mu_bits : list (list Z); presents : Z }.

(** An entry of [g_dedie], [g_tch_anneau] and [g_trx_ul]. *)
Record entry := mkEntry { e_fn : Z; e_bits : list Z; e_valid : bool }.

Definition zero_bits : list Z := replicate 148 0.
Definition ts0_zero : ts0_entry := mkTs0 0 zero_bits false false.
Definition multi_zero (k : nat) : multi_entry := mkMulti 0 (replicate k zero_bits) 0.
Definition entry_zero : entry := mkEntry 0 zero_bits false.

Record garde := mkGarde { ga_valide : bool; ga_fn : Z; ga_tick : Z; ga_bits : list Z }.
#[export] Instance garde_eta : Settable garde := λ g, mkGarde (ga_valide g) (ga_fn g) (ga_tick g) (ga_bits g).
Record sch := mkSch { sch_fn : Z; sch_tick : Z; sch_bits : list Z; livre_sb : bool; sch_valide : bool }.
#[export] Instance sch_eta : Settable sch := λ g, mkSch (sch_fn g) (sch_tick g) (sch_bits g) (livre_sb g) (sch_valide g).

Record bsp := mkBsp {
  g_ts0 : option (gmap Z ts0_entry);
  g_ts0_next : Z;
  g_ts0_any : bool;
  g_ts0_fn_max : Z;
  g_ts0_offset : option Z;
  g_off_mobile : option Z;
  g_off_rac_vu : bool;
  g_a5fn : option Z;
  g_trx_cale : bool;
  dfn_prec : Z; dfn_meme : Z;
  g_autres : option (gmap Z multi_entry);
  g_air_ul : option (gmap Z multi_entry);
  g_air_ul_der : list (option Z);
  g_dedie : option (gmap Z entry);
  g_dedie_tn : Z; g_dedie_ss : Z; g_dedie_genre : Z; g_dedie_ti : bool;
  g_dedie_stockes : Z; g_dedie_joues : Z; g_dedie_manques : Z; g_dedie_replis : Z; g_dedie_perdues : Z;
  g_tch_anneau : gmap Z entry; g_tch_dernier : option Z;
  g_bsp_tpu_offset : Z; g_tpu_ref : Z; g_toa_bias : Z;
  g_dernier_sch : sch;
  g_tick_courant : Z;
  g_trx_ul : entry; g_trx_ul_tick : Z;
  g_nb_garde : list garde; g_nb_garde_w : Z;
  bursts_seen : Z; bursts_written : Z; g_ts0_silences : Z;
  daram_addr : Z; daram_len : Z; bsp_source_toutes_ts : bool; last_att : Z;
  g_depot_fn : Z; t_pm : Z
}.
#[export] Instance bsp_eta : Settable bsp := λ b,
  mkBsp (g_ts0 b) (g_ts0_next b) (g_ts0_any b) (g_ts0_fn_max b) (g_ts0_offset b) (g_off_mobile b) (g_off_rac_vu b)
    (g_a5fn b) (g_trx_cale b) (dfn_prec b) (dfn_meme b) (g_autres b) (g_air_ul b) (g_air_ul_der b) (g_dedie b)
    (g_dedie_tn b) (g_dedie_ss b) (g_dedie_genre b) (g_dedie_ti b) (g_dedie_stockes b) (g_dedie_joues b)
    (g_dedie_manques b) (g_dedie_replis b) (g_dedie_perdues b) (g_tch_anneau b) (g_tch_dernier b)
    (g_bsp_tpu_offset b) (g_tpu_ref b) (g_toa_bias b) (g_dernier_sch b) (g_tick_courant b) (g_trx_ul b) (g_trx_ul_tick b)
    (g_nb_garde b) (g_nb_garde_w b) (bursts_seen b) (bursts_written b) (g_ts0_silences b) (daram_addr b) (daram_len b)
    (bsp_source_toutes_ts b) (last_att b) (g_depot_fn b) (t_pm b).

(** The static variables, with the settings [calypso_bsp_init] reads. *)
Definition bsp_init : bsp :=
  mkBsp None 0 false 0 None None false None false 99 0 None None (replicate 8 None) None
    (-1) 0 1 false 0 0 0 0 0 ∅ None 0 (-1) 0 (mkSch 0 0 zero_bits false false) 0 entry_zero 0
    (replicate 4 (mkGarde false 0 0 zero_bits)) 0 0 0 0 0x2a00 296 false 0 0 0xffffffff.

(** The environment switches of the functions below. *)
Record env := mkEnv {
  trx_on : bool; trx_delta : Z;      (** CALYPSO_BSP_TRX, CALYPSO_BSP_TRX_DELTA *)
  off_a5fn : bool;                   (** CALYPSO_BSP_OFF_A5FN *)
  dfn_on : bool; dfn_k : Z;          (** CALYPSO_BSP_DFN, CALYPSO_BSP_DFN_K *)
  rac_livraison : bool;              (** CALYPSO_BSP_RAC_LIVRAISON *)
  sdcch8_tout : bool;                (** CALYPSO_BSP_SDCCH8_TOUT *)
  ts0_attente : bool;                (** CALYPSO_BSP_SDCCH_TS0_ATTENTE *)
  dedie_strict : bool;               (** MONTANT_DEDIE_STRICT *)
  toa_lock : bool;                   (** CALYPSO_BSP_TOA_LOCK *)
  nb_retenter : Z                    (** CALYPSO_BSP_NB_RETENTER *)
}.
Definition env_default : env := mkEnv false (-3) false true 0 false true false false false 2.

(** ** The stores *)
Definition bsp_ts0_stocker (b : bsp) (f : Z) (bits : list Z) : bsp :=
  let m := default ∅ (g_ts0 b) in
  let b := b <| g_ts0 := Some (<[f mod BSP_TS0_RING := mkTs0 f bits true false]> m) |> in
  let b := if negb (g_ts0_any b) || (0 <? i32 (f - g_ts0_fn_max b)) then b <| g_ts0_fn_max := f |> else b in
  let b := b <| bursts_seen := bursts_seen b + 1 |> in
  if negb (g_ts0_any b) then b <| g_ts0_any := true |> <| g_ts0_next := f |> else b.

(** The entry of frame [f], as the delivery looks it up. *)
Definition ts0_at (b : bsp) (i : Z) : ts0_entry := default ts0_zero (default ∅ (g_ts0 b) !! i).
Definition ts0_lookup (b : bsp) (f : Z) : option (list Z) :=
  let e := ts0_at b (f mod BSP_TS0_RING) in
  if ts0_valid e && (ts0_fn e =? f) then Some (ts0_bits e) else None.

(** [bsp_autres_stocker] and [air_ul_stocker]: slot [k] of the frame. *)
Definition multi_put (ring : Z) (slots : nat) (m : gmap Z multi_entry) (f : Z) (k : nat) (bits : list Z) : gmap Z multi_entry :=
  let i := f mod ring in
  let e := default (multi_zero slots) (m !! i) in
  let e := if negb (mu_fn e =? f) then mkMulti f (mu_bits e) 0 else e in
  <[i := mkMulti (mu_fn e) (<[k := bits]> (mu_bits e)) (Z.lor (presents e) (Z.shiftl 1 (Z.of_nat k)))]> m.
Definition multi_get (ring : Z) (slots : nat) (m : gmap Z multi_entry) (f : Z) (k : nat) : option (list Z) :=
  let e := default (multi_zero slots) (m !! (f mod ring)) in
  if negb (mu_fn e =? f) || negb (has (presents e) (Z.shiftl 1 (Z.of_nat k))) then None else mu_bits e !! k.

Definition bsp_autres_stocker (b : bsp) (f tn : Z) (bits : list Z) : bsp :=
  if (tn <? 1) || (7 <? tn) then b
  else b <| g_autres := Some (multi_put BSP_AUTRES_RING 7 (default ∅ (g_autres b)) f (Z.to_nat (tn - 1)) bits) |>.
Definition bsp_autres_bits (b : bsp) (f tn : Z) : option (list Z) :=
  match g_autres b with
  | Some m => if (tn <? 1) || (7 <? tn) then None else multi_get BSP_AUTRES_RING 7 m f (Z.to_nat (tn - 1))
  | None => None
  end.

Definition air_ul_stocker (b : bsp) (f tn : Z) (bits : list Z) : bsp :=
  let k := Z.to_nat (Z.land tn 7) in
  b <| g_air_ul := Some (multi_put AIR_UL_RING 8 (default ∅ (g_air_ul b)) f k bits) |>
    <| g_air_ul_der := <[k := Some f]> (g_air_ul_der b) |>.
Definition air_ul_bits (b : bsp) (f tn : Z) : option (list Z) :=
  let k := Z.to_nat (Z.land tn 7) in
  match g_air_ul b, g_air_ul_der b !! k with
  | Some m, Some (Some g) =>
    let d := i32 (f - g) in
    if (d <? -102) || (102 <? d) then None else multi_get AIR_UL_RING 8 m g k
  | _, _ => None
  end.

Definition bsp_dedie_stocker (b : bsp) (f : Z) (bits : list Z) : bsp :=
  match g_dedie b with
  | None => b
  | Some m => b <| g_dedie := Some (<[f mod BSP_DEDIE_RING := mkEntry f bits true]> m) |>
                <| g_dedie_stockes := g_dedie_stockes b + 1 |>
  end.

Definition entry_lookup (ring : Z) (m : gmap Z entry) (f : Z) : option (list Z) :=
  let e := default entry_zero (m !! (f mod ring)) in
  if e_valid e && (e_fn e =? f) then Some (e_bits e) else None.

(** The dedicated burst of a frame, with the fall-back on the other store. *)
Definition bsp_dedie_bits (v : env) (b : bsp) (f : Z) : option (list Z) * bsp :=
  if g_dedie_tn b <=? 0 then (None, b)
  else
    match entry_lookup BSP_DEDIE_RING (default ∅ (g_dedie b)) f with
    | Some bits => (Some bits, b)
    | None =>
      if dedie_strict v then (None, b)
      else match bsp_autres_bits b f (g_dedie_tn b) with
           | Some bits => (Some bits, b <| g_dedie_replis := g_dedie_replis b + 1 |>)
           | None => (None, b)
           end
    end.

(** The last traffic bursts, for the layer above. *)
Definition tch_note (b : bsp) (f : Z) (bits : list Z) : bsp :=
  b <| g_tch_anneau := <[f mod TCH_ANNEAU := mkEntry f bits true]> (g_tch_anneau b) |> <| g_tch_dernier := Some f |>.
Definition calypso_bsp_tch_burst (b : bsp) (f : Z) : option (list Z) := entry_lookup TCH_ANNEAU (g_tch_anneau b) f.
Definition calypso_bsp_tch_dernier_fn (b : bsp) : option Z :=
  if negb (g_dedie_genre b =? BSP_DEDIE_TCH) || (g_dedie_tn b <=? 0) then None else g_tch_dernier b.

(** ** Offsets between ticks and frames *)

(** [(tick + off) % BSP_FN_MAX], made positive. *)
Definition frame_of (tick off : Z) : Z :=
  let w := Z.rem (tick + off) BSP_FN_MAX in if w <? 0 then w + BSP_FN_MAX else w.

Definition calypso_bsp_fn_mobile_du_tick (b : bsp) (tick : Z) : option Z := frame_of tick <$> g_off_mobile b.
Definition calypso_bsp_fn_bts_du_tick (b : bsp) (tick : Z) : option Z := frame_of tick <$> g_ts0_offset b.

Definition calypso_bsp_off_mobile_a5fn (v : env) (b : bsp) (tick f : Z) : bsp :=
  let b := b <| g_a5fn := Some tick |> in
  if negb (off_a5fn v) && bool_decide (is_Some (g_off_mobile b)) then b else b <| g_off_mobile := Some (f - tick) |>.

Definition calypso_bsp_dfn_observe (v : env) (b : bsp) (tick dfn task_d : Z) : bsp :=
  match g_ts0_offset b with
  | Some off =>
    if negb (dfn_on v) || (dfn =? 0) || negb (has task_d 0x7fff) then b
    else
      let f104 := Z.shiftr dfn 8 in
      if 104 <=? f104 then b
      else
        let w := frame_of (tick + 1) off in
        let d := Z.rem (f104 + dfn_k v - Z.rem w 104 + 2 * 104) 104 in
        let d := if 52 <=? d then d - 104 else d in
        if (d =? 0) || (d <? -6) || (6 <? d) then b <| dfn_prec := 99 |> <| dfn_meme := 0 |>
        else
          let b := b <| dfn_meme := if d =? dfn_prec b then dfn_meme b + 1 else 1 |> <| dfn_prec := d |> in
          if dfn_meme b <? 3 then b
          else b <| g_ts0_offset := Some (Z.rem (off + d + BSP_FN_MAX) BSP_FN_MAX) |>
                 <| g_off_mobile := (λ o, o + d) <$> g_off_mobile b |> <| dfn_prec := 99 |> <| dfn_meme := 0 |>
  | None => b
  end.

(** The offset nearest to [ref] that puts tick [tick] on a frame congruent to
    [fn42432] modulo 42432. *)
Definition rac_offset (ref tick fn42432 : Z) : Z :=
  let m := Z.rem (fn42432 - Z.rem tick 42432) 42432 in
  let m := if m <? 0 then m + 42432 else m in
  let d := Z.rem (m - Z.rem (Z.rem ref 42432 + 42432) 42432) 42432 in
  let d := if d <? 0 then d + 42432 else d in
  let d := if 21216 <? d then d - 42432 else d in
  ref + d.

Definition calypso_bsp_off_mobile_rac (v : env) (b : bsp) (tick fn42432 : Z) : bsp :=
  let ref := match g_off_mobile b with Some o => o | None => default 0 (g_ts0_offset b) end in
  let off := rac_offset ref tick fn42432 in
  let b := b <| g_a5fn := Some tick |> <| g_off_rac_vu := true |> <| g_off_mobile := Some off |> in
  match g_ts0_offset b with
  | Some o =>
    if rac_livraison v && negb (off =? o) && (-6 <=? off - o) && (off - o <=? 6)
    then b <| g_ts0_offset := Some (Z.rem (off + BSP_FN_MAX) BSP_FN_MAX) |> else b
  | None => b
  end.

Definition calypso_bsp_trx_calage (v : env) (b : bsp) (fn_sb tick : Z) : bool * bsp :=
  if negb (trx_on v) then (false, b)
  else
    let off := Z.rem (fn_sb + trx_delta v - tick) BSP_FN_MAX in
    let off := if off <? 0 then off + BSP_FN_MAX else off in
    (true, b <| g_ts0_offset := Some off |> <| g_trx_cale := true |>).

(** ** The dedicated channel *)
Definition calypso_bsp_set_dedie_ti (b : bsp) (actif : bool) : bsp := b <| g_dedie_ti := actif |>.

Definition calypso_bsp_set_dedie (b : bsp) (tn genre ss : Z) : bsp :=
  if (tn <=? 0) || (7 <? tn) || (genre =? 0xFF) then b <| g_dedie_tn := -1 |>
  else
    let b := if negb (g_dedie_tn b =? tn) then
               b <| g_dedie := Some ∅ |> <| g_dedie_stockes := 0 |> <| g_dedie_joues := 0 |> <| g_dedie_manques := 0 |>
                 <| g_dedie_replis := 0 |> <| g_dedie_perdues := 0 |>
             else b in
    b <| g_dedie_tn := tn |> <| g_dedie_ss := ss |> <| g_dedie_genre := genre |>.

(** The frames of the channel. *)
Definition bsp_dedie_trame (v : env) (b : bsp) (f : Z) : bool :=
  if (g_dedie_genre b =? BSP_DEDIE_TCH) || (g_dedie_genre b =? BSP_DEDIE_PDCH) then true
  else if (g_dedie_genre b =? 1) && g_dedie_ti b && sdcch8_tout v then true
  else if (g_dedie_genre b =? 1) && negb (g_dedie_ti b) && ts0_attente v then false
  else
    let p51 := f mod 51 in
    let ss := Z.land (g_dedie_ss b) 7 in
    if (4 * ss <=? p51) && (p51 <=? 4 * ss + 3) then true
    else
      let base := 32 + 4 * Z.land ss 3 in
      if (base <=? p51) && (p51 <=? base + 3) then (f / 51) mod 2 =? (if ss <? 4 then 0 else 1)
      else false.

Definition calypso_bsp_set_tpu_offset (b : bsp) (qbits : Z) : bsp :=
  let b := b <| g_bsp_tpu_offset := qbits |> in
  if g_dedie_tn b <=? 0 then b <| g_tpu_ref := qbits |> else b.

(** The timeslot of the window the firmware has armed. *)
Definition bsp_fenetre_tn (b : bsp) : Z :=
  if g_tpu_ref b <? 0 then 0
  else
    let d := Z.rem (Z.rem (g_bsp_tpu_offset b - g_tpu_ref b) 5000 + 5000) 5000 in
    Z.rem (Z.quot (d + 312) 625) 8.

Definition calypso_bsp_toa_feedback (v : env) (b : bsp) (toa : Z) : bsp :=
  if negb (toa_lock v) || (toa <=? 0) then b
  else
    let err := Z.rem toa 156 - 23 in
    let err := if 80 <? err then err - 156 else err in
    let err := if err <? -80 then err + 156 else err in
    if err =? 0 then b else b <| g_toa_bias := g_toa_bias b - (if 0 <? err then 1 else -1) |>.

(** ** The interface of a frame store

    A key has a frame number; two keys of different frames share a cell when
    their frame numbers agree modulo [N], and the later put wins. *)
Class FrameStore (S K : Type) `{EqDecision K} (N : Z) := {
  fs_fn : K → Z;
  fs_key : K → Prop;
  fs_ok : S → Prop;
  fs_put : S → K → list Z → S;
  fs_get : S → K → option (list Z);
  fs_put_ok s k b : fs_ok s → fs_key k → fs_ok (fs_put s k b);
  fs_get_put s k b k' :
    fs_ok s → fs_key k → fs_key k' →
    fs_get (fs_put s k b) k' =
      if decide (k' = k) then Some b
      else if decide (fs_fn k' ≠ fs_fn k ∧ fs_fn k' mod N = fs_fn k mod N) then None
      else fs_get s k'
}.

Section history.
  Context {S K : Type} `{EqDecision K} {N : Z} `{!FrameStore S K N}.

(** Puts, the newest first. *)
Definition puts (s : S) (l : list (K * list Z)) : S := foldr (λ x s, fs_put s x.1 x.2) s l.

(** What a history says of a key: the newest put of the key, unless a newer put
    of another frame took its cell; [None] when the history does not tell. *)
Fixpoint hist (l : list (K * list Z)) (k : K) : option (option (list Z)) :=
  match l with
  | [] => None
  | (k', b) :: l =>
    if decide (k = k') then Some (Some b)
    else if decide (fs_fn k ≠ fs_fn k' ∧ fs_fn k mod N = fs_fn k' mod N) then Some None
    else hist l k
  end.

Lemma puts_ok s l : fs_ok s → Forall (λ x, fs_key x.1) l → fs_ok (puts s l).
Proof. intros Hs. induction 1 as [|x l Hx _ IH]; [done|]. by apply fs_put_ok. Qed.

Lemma get_puts s l k :
  fs_ok s → Forall (λ x, fs_key x.1) l → fs_key k → fs_get (puts s l) k = default (fs_get s k) (hist l k).
Proof.
  intros Hs Hl Hk. induction Hl as [|[k' b] l Hx Hl IH]; [done|]. cbn [puts foldr hist]. fold (puts s l). cbn in Hx.
  rewrite (fs_get_put _ _ _ _ (puts_ok s l Hs Hl) Hx Hk). destruct (decide (k = k')) as [->|Hne]; [done|].
  by destruct (decide (fs_fn k ≠ fs_fn k' ∧ _)).
Qed.

(** A burst stays until a frame whose number is congruent to its own arrives. *)
Lemma hist_kept l1 l2 k b :
  (∀ x, x ∈ l1 → x.1 ≠ k ∧ (fs_fn x.1 = fs_fn k ∨ fs_fn x.1 mod N ≠ fs_fn k mod N)) →
  hist (l1 ++ (k, b) :: l2) k = Some (Some b).
Proof.
  intros H. induction l1 as [|[k' b'] l1 IH]; cbn [app hist]; [by rewrite decide_True|].
  destruct (H (k', b')) as [H1 H2]; [by left|]. cbn in H1, H2.
  rewrite decide_False by congruence. rewrite decide_False by (intros [E1 E2]; destruct H2; congruence).
  apply IH. intros x Hx. apply H. by right.
Qed.

(** What is found was put for that very key. *)
Lemma hist_exact l k b : hist l k = Some (Some b) → (k, b) ∈ l.
Proof.
  induction l as [|[k' b'] l IH]; cbn [hist]; [done|]. destruct (decide (k = k')) as [->|_].
  - intros [= ->]. by left.
  - destruct (decide _); [done|]. intros H. right. by apply IH.
Qed.
End history.

(** Timeslot 0. *)
#[export, refine] Instance ts0_store : FrameStore bsp Z BSP_TS0_RING := {|
  fs_fn f := f; fs_key _ := True; fs_ok _ := True; fs_put b f bits := bsp_ts0_stocker b f bits; fs_get := ts0_lookup |}.
Proof.
  - done.
  - intros b f bits f' _ _ _.
    assert (E : g_ts0 (bsp_ts0_stocker b f bits) = Some (<[f mod BSP_TS0_RING := mkTs0 f bits true false]> (default ∅ (g_ts0 b))))
      by (unfold bsp_ts0_stocker; cbv zeta; repeat case_if; done).
    unfold ts0_lookup, ts0_at. rewrite E. cbn [default from_option id].
    destruct (decide (f' = f)) as [->|Hne].
    + rewrite lookup_insert_eq. cbn. by rewrite Z.eqb_refl.
    + destruct (decide _) as [[_ Hc]|Hc].
      * rewrite Hc, lookup_insert_eq. cbn. by rewrite (proj2 (Z.eqb_neq f f')) by congruence.
      * rewrite lookup_insert_ne; [done|]. intros E2. apply Hc. split; [done|congruence].
Defined.

(** The dedicated channel, when it has a store. *)
#[export, refine] Instance dedie_store : FrameStore bsp Z BSP_DEDIE_RING := {|
  fs_fn f := f; fs_key _ := True; fs_ok b := is_Some (g_dedie b); fs_put b f bits := bsp_dedie_stocker b f bits;
  fs_get b f := entry_lookup BSP_DEDIE_RING (default ∅ (g_dedie b)) f |}.
Proof.
  - intros b f bits [m E] _. unfold bsp_dedie_stocker. rewrite E. by eexists.
  - intros b f bits f' [m E] _ _. unfold bsp_dedie_stocker. rewrite E. cbn [g_dedie update_field default from_option id].
    unfold entry_lookup. destruct (decide (f' = f)) as [->|Hne].
    + rewrite lookup_insert_eq. cbn. by rewrite Z.eqb_refl.
    + destruct (decide _) as [[_ Hc]|Hc].
      * rewrite Hc, lookup_insert_eq. cbn. by rewrite (proj2 (Z.eqb_neq f f')) by congruence.
      * rewrite lookup_insert_ne; [done|]. intros E2. apply Hc. split; [done|congruence].
Defined.

(** The other timeslots: a frame has up to seven bursts. *)
Definition multi_ok (slots : nat) (m : gmap Z multi_entry) : Prop :=
  ∀ i e, m !! i = Some e → length (mu_bits e) = slots ∧ 0 ≤ presents e.

Lemma multi_at_ok slots m i : multi_ok slots m →
  length (mu_bits (default (multi_zero slots) (m !! i))) = slots ∧ 0 ≤ presents (default (multi_zero slots) (m !! i)).
Proof.
  intros H. destruct (m !! i) as [e|] eqn:E; [by apply (H i)|]. cbn. by rewrite length_replicate.
Qed.

Lemma multi_put_ok ring slots m f k bits : multi_ok slots m → multi_ok slots (multi_put ring slots m f k bits).
Proof.
  intros H i e. unfold multi_put. cbv zeta. destruct (multi_at_ok slots m (f mod ring) H) as [Hl Hp].
  set (e0 := default _ _) in *. rewrite lookup_insert_Some. intros [[_ <-]|[_ E]]; [|by apply (H i)].
  cbn [mu_bits presents]. rewrite length_insert, Z.lor_nonneg, Z.shiftl_nonneg. case_if; cbn [mu_bits presents]; lia.
Qed.

Lemma multi_get_put ring slots m f k bits f' k' :
  multi_ok slots m → (k < slots)%nat → (k' < slots)%nat →
  multi_get ring slots (multi_put ring slots m f k bits) f' k' =
    if decide (f' = f ∧ k' = k) then Some bits
    else if decide (f' ≠ f ∧ f' mod ring = f mod ring) then None
    else multi_get ring slots m f' k'.
Proof.
  intros Hm Hk Hk'. unfold multi_get, multi_put. cbv zeta. destruct (multi_at_ok slots m (f mod ring) Hm) as [Hl Hp].
  destruct (decide (f' mod ring = f mod ring)) as [Ei|Ei].
  - rewrite Ei, lookup_insert_eq. cbn [default from_option id mu_fn mu_bits presents].
    set (e := default (multi_zero slots) (m !! (f mod ring))) in *. destruct (decide (f' = f)) as [->|Hf].
    + rewrite (decide_False (P := f ≠ f ∧ _)) by naive_solver.
      assert (mu_fn (if negb (mu_fn e =? f) then mkMulti f (mu_bits e) 0 else e) = f) as -> by (case_if; bool_prop; done).
      rewrite Z.eqb_refl. cbn [negb orb]. rewrite has_lor. destruct (decide (k' = k)) as [->|Hkk].
      * rewrite decide_True by done. rewrite !has_bit by lia.
        replace (Z.testbit (Z.shiftl 1 (Z.of_nat k)) (Z.of_nat k)) with true
          by (rewrite Z.shiftl_1_l, Z.pow2_bits_true; lia || done).
        rewrite orb_true_r. cbn [negb]. apply list_lookup_insert_eq. case_if; cbn [mu_bits]; lia.
      * rewrite decide_False by naive_solver. rewrite !has_bit by lia.
        rewrite (Z.shiftl_1_l (Z.of_nat k)), Z.pow2_bits_false, orb_false_r, list_lookup_insert_ne by lia.
        destruct (Z.eqb_spec (mu_fn e) f) as [Ef|Ef]; cbn [negb presents mu_bits orb]; [done|].
        by rewrite Z.bits_0.
    + rewrite decide_False by naive_solver. rewrite decide_True by done.
      assert (mu_fn (if negb (mu_fn e =? f) then mkMulti f (mu_bits e) 0 else e) = f) as -> by (case_if; bool_prop; done).
      by rewrite (proj2 (Z.eqb_neq f f')) by congruence.
  - rewrite lookup_insert_ne by congruence. rewrite !decide_False by naive_solver. done.
Qed.

#[export, refine] Instance autres_store : FrameStore bsp (Z * Z) BSP_AUTRES_RING := {|
  fs_fn k := k.1; fs_key k := 1 ≤ k.2 ≤ 7; fs_ok b := multi_ok 7 (default ∅ (g_autres b));
  fs_put b k bits := bsp_autres_stocker b k.1 k.2 bits; fs_get b k := bsp_autres_bits b k.1 k.2 |}.
Proof.
  - intros b [f tn] bits Hb Ht. cbn [fst snd] in *. unfold bsp_autres_stocker.
    rewrite (proj2 (Z.ltb_ge _ _)), (proj2 (Z.ltb_ge 7 _)) by lia. by apply multi_put_ok.
  - intros b [f tn] bits [f' tn'] Hb Ht Ht'. cbn [fst snd] in *. unfold bsp_autres_stocker, bsp_autres_bits.
    rewrite !(proj2 (Z.ltb_ge _ 1)), !(proj2 (Z.ltb_ge 7 _)) by lia. cbn [orb g_autres update_field].
    rewrite multi_get_put by (done || lia).
    destruct (decide ((f', tn') = (f, tn))) as [[= -> ->]|Hne].
    + by rewrite decide_True.
    + rewrite decide_False; [|intros [-> E]; apply Hne; f_equal; lia].
      destruct (decide (f' ≠ f ∧ _)); [done|]. destruct (g_autres b); [done|].
      unfold multi_get. cbn [default from_option id]. rewrite lookup_empty. cbn. by rewrite orb_true_r.
Defined.

(** ** What the offsets mean *)
Lemma frame_of_mod tick off : frame_of tick off = (tick + off) mod BSP_FN_MAX.
Proof. unfold frame_of, BSP_FN_MAX. cbv zeta. case_if; bool_prop; mlia. Qed.

Lemma rac_offset_exact ref tick off :
  0 ≤ tick → - 21216 < off - ref ≤ 21216 → rac_offset ref tick ((tick + off) mod 42432) = off.
Proof.
  intros Ht Hr. unfold rac_offset. cbv zeta.
  set (m := Z.rem ((tick + off) mod 42432 - Z.rem tick 42432) 42432).
  assert (Em : (if m <? 0 then m + 42432 else m) = off mod 42432) by (unfold m; case_if; bool_prop; mlia).
  rewrite Em. assert (Er : Z.rem (Z.rem ref 42432 + 42432) 42432 = ref mod 42432) by mlia. rewrite Er. clear Em Er m.
  case_ifs; mlia.
Qed.

(** The access burst gives the offset of the mobile back.  The firmware reports
    the frame of its access burst modulo 42432: if the true offset is within half
    of that of what the BSP believes, the report corrects it exactly. *)
Lemma rac_corrects v b tick off :
  0 ≤ tick →
  let ref := match g_off_mobile b with Some o => o | None => default 0 (g_ts0_offset b) end in
  - 21216 < off - ref ≤ 21216 →
  let b' := calypso_bsp_off_mobile_rac v b tick ((tick + off) mod 42432) in
  g_off_mobile b' = Some off ∧ calypso_bsp_fn_mobile_du_tick b' tick = Some ((tick + off) mod BSP_FN_MAX).
Proof.
  intros Ht ref Hr b'.
  assert (E : g_off_mobile b' = Some off).
  { unfold b', calypso_bsp_off_mobile_rac. fold ref. cbv zeta. rewrite rac_offset_exact by done.
    cbn [g_ts0_offset update_field]. destruct (g_ts0_offset b); [|done]. by case_if. }
  split; [done|]. unfold calypso_bsp_fn_mobile_du_tick. rewrite E. cbn. by rewrite frame_of_mod.
Qed.

(** The word [d_fn] of the write page: the frame the firmware reads at the next
    tick, modulo 104, in its high byte. *)
Definition dfn_word (f low : Z) : Z := Z.lor (Z.shiftl (f mod 104) 8) low.

Lemma dfn_word_high f low : 0 ≤ low < 256 → Z.shiftr (dfn_word f low) 8 = f mod 104.
Proof.
  intros Hl. unfold dfn_word. rewrite Z.shiftr_lor, Z.shiftr_shiftl_l, Z.shiftl_0_r by lia.
  rewrite (Z.shiftr_div_pow2 low) by lia. rewrite (Z.div_small low) by lia. apply Z.lor_0_r.
Qed.

(** The firmware's frame of a tick is [d] frames ahead of the BSP's. *)
Definition slip (M o d : Z) : Prop := (M - o - d) mod BSP_FN_MAX = 0.

Lemma dfn_slip M o d tick :
  slip M o d → - 6 ≤ d ≤ 6 →
  let x := Z.rem ((tick + 1 + M) mod 104 + 0 - Z.rem (frame_of (tick + 1) o) 104 + 2 * 104) 104 in
  (if 52 <=? x then x - 104 else x) = d.
Proof.
  intros Hs Hd x. unfold slip in Hs.
  assert (Ew : Z.rem (frame_of (tick + 1) o) 104 = (tick + 1 + o) mod 104).
  { rewrite frame_of_mod. unfold BSP_FN_MAX. mlia. }
  assert (EM : (tick + 1 + M) mod 104 = (tick + 1 + o + d) mod 104) by (unfold BSP_FN_MAX in Hs; mlia).
  unfold x. rewrite Ew, EM. clear Ew EM x Hs. case_if; bool_prop; mlia.
Qed.

(** One observation, of a firmware whose frames are [M] ahead of the ticks. *)
Definition observe (M : Z) (b : bsp) (x : Z * Z * Z) : bsp :=
  let '(tick, low, task) := x in calypso_bsp_dfn_observe env_default b tick (dfn_word (tick + 1 + M) low) task.

(** An observation that counts: a task is posted and the word is not null. *)
Definition seen (M : Z) (x : Z * Z * Z) : Prop :=
  let '(tick, low, task) := x in 0 ≤ low < 256 ∧ dfn_word (tick + 1 + M) low ≠ 0 ∧ has task 0x7fff = true.

Lemma observe_slip M b x o d :
  seen M x → g_ts0_offset b = Some o → slip M o d → - 6 ≤ d ≤ 6 →
  observe M b x =
    if d =? 0 then b <| dfn_prec := 99 |> <| dfn_meme := 0 |>
    else
      let b := b <| dfn_meme := if d =? dfn_prec b then dfn_meme b + 1 else 1 |> <| dfn_prec := d |> in
      if dfn_meme b <? 3 then b
      else b <| g_ts0_offset := Some (Z.rem (o + d + BSP_FN_MAX) BSP_FN_MAX) |>
             <| g_off_mobile := (λ o, o + d) <$> g_off_mobile b |> <| dfn_prec := 99 |> <| dfn_meme := 0 |>.
Proof.
  destruct x as [[tick low] task]. intros (Hl & Hn & Hk) E Hs Hd. unfold observe, calypso_bsp_dfn_observe.
  rewrite E, Hk, (proj2 (Z.eqb_neq _ 0) Hn), dfn_word_high by done. cbn [env_default dfn_on dfn_k negb orb].
  rewrite (proj2 (Z.leb_gt 104 _)) by (apply Z.mod_pos_bound; lia). cbv zeta. rewrite (dfn_slip M o d) by done.
  rewrite (proj2 (Z.ltb_ge _ (-6))), (proj2 (Z.ltb_ge 6 _)), !orb_false_r by lia. done.
Qed.

(** On the right frame nothing changes. *)
Lemma observes_right M l b :
  Forall (seen M) l → g_ts0_offset b = Some (M mod BSP_FN_MAX) →
  g_ts0_offset (foldl (observe M) b l) = Some (M mod BSP_FN_MAX) ∧ g_off_mobile (foldl (observe M) b l) = g_off_mobile b.
Proof.
  intros Hl. revert b. induction Hl as [|x l Hx _ IH]; intros b E; [done|]. cbn [foldl].
  rewrite (observe_slip M b x _ 0) by (done || lia || (unfold slip, BSP_FN_MAX; mlia)). cbn [Z.eqb].
  by destruct (IH (b <| dfn_prec := 99 |> <| dfn_meme := 0 |>)) as [-> ->].
Qed.

(** An observation of a slip counts it or repairs it. *)
Lemma observe_counts M b x o d :
  seen M x → g_ts0_offset b = Some o → slip M o d → - 6 ≤ d ≤ 6 → d ≠ 0 → 0 ≤ o → 0 ≤ dfn_meme b ≤ 2 →
  let b1 := observe M b x in
  (g_ts0_offset b1 = Some (M mod BSP_FN_MAX) ∧ g_off_mobile b1 = (λ p, p + d) <$> g_off_mobile b) ∨
  (g_ts0_offset b1 = Some o ∧ g_off_mobile b1 = g_off_mobile b ∧ dfn_prec b1 = d ∧
   dfn_meme b1 = (if d =? dfn_prec b then dfn_meme b + 1 else 1) ∧ dfn_meme b1 ≤ 2).
Proof.
  intros Hx E Hs Hd Hne Ho Hm b1. unfold b1. rewrite (observe_slip M b x o d) by done.
  rewrite (proj2 (Z.eqb_neq d 0)) by lia. cbv zeta. cbn [dfn_meme update_field].
  destruct (Z.ltb_spec (if d =? dfn_prec b then dfn_meme b + 1 else 1) 3) as [H|H]; [right|left].
  - split_and!; try done. cbn [dfn_meme update_field]. lia.
  - cbn [g_ts0_offset g_off_mobile update_field]. split; [|done]. f_equal. unfold slip, BSP_FN_MAX in *. mlia.
Qed.

(** C26: a slipped frame counter is repaired.  When the firmware's frame counter
    has slipped by one to six frames, either way, against a non-negative offset
    of the BSP, three observations of its [d_fn] word, all seen by the BSP, at any
    ticks and with any tasks between, bring the offset to the frames of the firmware, across the wrap of the
    hyperframe; the date of the access bursts moves with it, and further
    observations change nothing. *)
Theorem dfn_repairs M b o d x1 x2 x3 l :
  g_ts0_offset b = Some o → 0 ≤ o → slip M o d → - 6 ≤ d ≤ 6 → d ≠ 0 → 0 ≤ dfn_meme b ≤ 2 →
  Forall (seen M) (x1 :: x2 :: x3 :: l) →
  let b' := foldl (observe M) b (x1 :: x2 :: x3 :: l) in
  g_off_mobile b' = (λ p, p + d) <$> g_off_mobile b ∧
  ∀ tick, calypso_bsp_fn_bts_du_tick b' tick = Some ((tick + M) mod BSP_FN_MAX).
Proof.
  intros E Ho Hs Hd Hne Hm Hl b'.
  assert (G : g_ts0_offset b' = Some (M mod BSP_FN_MAX) ∧ g_off_mobile b' = (λ p, p + d) <$> g_off_mobile b).
  { apply Forall_cons_1 in Hl as [H1 Hl]. apply Forall_cons_1 in Hl as [H2 Hl]. apply Forall_cons_1 in Hl as [H3 Hr].
    unfold b'. cbn [foldl]. set (b1 := observe M b x1). set (b2 := observe M b1 x2). set (b3 := observe M b2 x3).
    destruct (observe_counts M b x1 o d H1 E Hs Hd Hne Ho Hm) as [[A1 B1]|(A1 & B1 & C1 & D1 & E1)]; fold b1 in A1, B1.
    { destruct (observes_right M (x2 :: x3 :: l) b1) as [P Q]; [by repeat apply Forall_cons_2|done|].
      cbn [foldl] in P, Q. fold b2 b3 in P, Q. by rewrite P, Q, B1. }
    fold b1 in C1, D1, E1. assert (Hm1 : 1 ≤ dfn_meme b1 ≤ 2) by (rewrite D1 in *; case_if; lia).
    destruct (observe_counts M b1 x2 o d H2 A1 Hs Hd Hne Ho ltac:(lia)) as [[A2 B2]|(A2 & B2 & C2 & D2 & E2)]; fold b2 in A2, B2.
    { destruct (observes_right M (x3 :: l) b2) as [P Q]; [by apply Forall_cons_2|done|].
      cbn [foldl] in P, Q. fold b3 in P, Q. by rewrite P, Q, B2, B1. }
    fold b2 in C2, D2, E2. rewrite C1, Z.eqb_refl in D2.
    destruct (observe_counts M b2 x3 o d H3 A2 Hs Hd Hne Ho ltac:(lia)) as [[A3 B3]|(_ & _ & _ & D3 & E3)]; fold b3 in A3, B3 || fold b3 in D3, E3.
    { destruct (observes_right M l b3 Hr A3) as [P Q]. by rewrite P, Q, B3, B2, B1. }
    rewrite C2, Z.eqb_refl in D3. lia. }
  destruct G as [G1 G2]. split; [done|]. intros tick. unfold calypso_bsp_fn_bts_du_tick. rewrite G1. cbn.
  rewrite frame_of_mod. unfold BSP_FN_MAX. f_equal. mlia.
Qed.

Lemma dfn_repairs_witness :
  let b := bsp_init <| g_ts0_offset := Some 2715646 |> <| g_off_mobile := Some 2715646 |> in
  let b' := foldl (observe 1) b [(10, 0, 5); (11, 3, 5); (40, 0, 5); (41, 0, 5)] in
  g_off_mobile b' = Some 2715649 ∧ ∀ tick, calypso_bsp_fn_bts_du_tick b' tick = Some ((tick + 1) mod BSP_FN_MAX).
Proof.
  intros b b'. apply (dfn_repairs 1 b 2715646 3 (10, 0, 5) (11, 3, 5) (40, 0, 5) [(41, 0, 5)]);
    [done|lia|reflexivity|lia|lia|cbn; lia|].
  repeat (apply Forall_cons_2; [split_and!; [lia|lia|vm_compute; discriminate|reflexivity]|]). apply Forall_nil_2.
Defined.

(** ** The frames of an SDCCH/8 *)
Definition sdcch8 (ss : Z) : bsp := bsp_init <| g_dedie_tn := 1 |> <| g_dedie_ss := ss |> <| g_dedie_genre := 1 |>.

Lemma dedie_trame_102 v b f : bsp_dedie_trame v b f = bsp_dedie_trame v b (f mod 102).
Proof.
  unfold bsp_dedie_trame. cbv zeta.
  assert (E1 : (f mod 102) mod 51 = f mod 51) by mlia. assert (E2 : (f mod 102 / 51) mod 2 = (f / 51) mod 2) by mlia.
  by rewrite E1, E2.
Qed.

(** The eight sub-channels share the timeslot: every frame of the first 48 of a
    multiframe belongs to exactly one of them, the last three to none; over two
    multiframes each has eight frames of signalling and four of its SACCH. *)
Definition sdcch8_users (f : Z) : list Z :=
  List.filter (λ ss, bsp_dedie_trame env_default (sdcch8 ss) f) (zseq 0 8).

Definition sdcch8_user (f : Z) : list Z :=
  if f mod 51 <? 32 then [f mod 51 / 4]
  else if f mod 51 <? 48 then [(f mod 51 - 32) / 4 + 4 * ((f / 51) mod 2)] else [].

Lemma sdcch8_partition f : sdcch8_users f = sdcch8_user f.
Proof.
  assert (El : sdcch8_users f = sdcch8_users (f mod 102)).
  { unfold sdcch8_users. apply List.filter_ext. intros ss. apply dedie_trame_102. }
  assert (Er : sdcch8_user f = sdcch8_user (f mod 102)).
  { unfold sdcch8_user. assert (E1 : (f mod 102) mod 51 = f mod 51) by mlia.
    assert (E2 : (f mod 102 / 51) mod 2 = (f / 51) mod 2) by mlia. by rewrite E1, E2. }
  rewrite El, Er. pose proof (Z.mod_pos_bound f 102 ltac:(lia)) as Hb.
  generalize dependent (f mod 102). intros g _ _ Hg.
  assert (H : Forall (λ g, sdcch8_users g = sdcch8_user g) (zseq 0 102)) by (apply (bool_decide_unpack _); vm_compute; exact I).
  rewrite List.Forall_forall in H. apply H, list_elem_of_In, elem_of_zseq. lia.
Qed.

(** ** The window of the firmware *)

(** The reference is the offset of timeslot 0, learnt outside dedicated mode;
    a window armed on timeslot [tn], up to half a timeslot off, is recognised. *)
Lemma fenetre_tn_spec b sync tn e :
  0 ≤ sync < 5000 → g_dedie_tn b ≤ 0 → 0 ≤ tn < 8 → - 312 ≤ e ≤ 312 →
  let b1 := calypso_bsp_set_tpu_offset b sync in
  ∀ b2, g_tpu_ref b2 = g_tpu_ref b1 → 0 < g_dedie_tn b2 →
  bsp_fenetre_tn (calypso_bsp_set_tpu_offset b2 ((5000 + sync + 625 * tn + e) mod 5000)) = tn.
Proof.
  intros Hs Hb Ht He b1 b2 Hr Hd.
  assert (E1 : g_tpu_ref b1 = sync).
  { unfold b1, calypso_bsp_set_tpu_offset. cbv zeta. cbn [g_dedie_tn update_field]. by rewrite (proj2 (Z.leb_le _ _)). }
  unfold calypso_bsp_set_tpu_offset. cbv zeta. cbn [g_dedie_tn update_field]. rewrite (proj2 (Z.leb_gt _ _)) by lia.
  unfold bsp_fenetre_tn. cbn [g_tpu_ref g_bsp_tpu_offset update_field]. rewrite Hr, E1, (proj2 (Z.ltb_ge _ _)) by lia.
  set (q := (5000 + sync + 625 * tn + e) mod 5000).
  assert (Eq : Z.rem (Z.rem (q - sync) 5000 + 5000) 5000 = (625 * tn + e) mod 5000) by (unfold q; mlia).
  cbv zeta. rewrite Eq. clear Eq q. mlia.
Qed.

(** ** The loop on the time of arrival *)

(** The distance of a measured time of arrival from its target, the short way
    round. *)
Definition toa_err (toa : Z) : Z := let e := toa mod 156 - 23 in if 80 <? e then e - 156 else e.

Lemma toa_step x : toa_err (156 + x mod 156) ≠ 0 →
  Z.abs (toa_err (156 + (x - (if 0 <? toa_err (156 + x mod 156) then 1 else -1)) mod 156)) = Z.abs (toa_err (156 + x mod 156)) - 1.
Proof.
  pose proof (Z.mod_pos_bound x 156 ltac:(lia)) as Hm.
  assert (E1 : toa_err (156 + x mod 156) = toa_err (x mod 156)) by (unfold toa_err; cbv zeta; by replace ((156 + x mod 156) mod 156) with (x mod 156 mod 156) by mlia).
  assert (E2 : ∀ d, toa_err (156 + (x - d) mod 156) = toa_err (x mod 156 - d)) by (intros d; unfold toa_err; cbv zeta; by replace ((156 + (x - d) mod 156) mod 156) with ((x mod 156 - d) mod 156) by mlia).
  rewrite E1, E2. clear E1 E2. generalize dependent (x mod 156). intros y Hy.
  assert (H : Forall (λ y, toa_err y ≠ 0 → Z.abs (toa_err (y - (if 0 <? toa_err y then 1 else -1))) = Z.abs (toa_err y) - 1) (zseq 0 156))
    by (apply (bool_decide_unpack _); vm_compute; exact I).
  rewrite List.Forall_forall in H. apply H, list_elem_of_In, elem_of_zseq. lia.
Qed.

(** If a sample of bias moves the measured time of arrival by one sample, the
    loop brings it to 23 in as many frames as it is off, and holds it there. *)
Lemma toa_locks v b (base : Z) k :
  toa_lock v = true →
  let toa := λ b, 156 + (base + g_toa_bias b) mod 156 in
  Z.abs (toa_err (toa b)) ≤ Z.of_nat k →
  toa_err (toa (Nat.iter k (λ b, calypso_bsp_toa_feedback v b (toa b)) b)) = 0.
Proof.
  intros Hv toa. revert b. induction k as [|k IH]; intros b Hk.
  - cbn [Nat.iter nat_rect]. lia.
  - rewrite Nat.iter_succ_r. apply IH. unfold calypso_bsp_toa_feedback. rewrite Hv. cbn [negb orb].
    pose proof (Z.mod_pos_bound (base + g_toa_bias b) 156 ltac:(lia)) as Hm.
    rewrite (proj2 (Z.leb_gt _ _)) by (unfold toa; lia). cbv zeta.
    assert (Er : Z.rem (toa b) 156 = (base + g_toa_bias b) mod 156) by (unfold toa; mlia). rewrite Er.
    assert (Ee : toa_err (toa b) = let e := (base + g_toa_bias b) mod 156 - 23 in if 80 <? e then e - 156 else e)
      by (unfold toa_err, toa; cbv zeta; replace ((156 + (base + g_toa_bias b) mod 156) mod 156) with ((base + g_toa_bias b) mod 156) by mlia; done).
    cbv zeta in Ee. rewrite <- Ee, (proj2 (Z.ltb_ge (toa_err (toa b)) (-80))) by (rewrite Ee; case_if; bool_prop; lia).
    destruct (Z.eqb_spec (toa_err (toa b)) 0) as [E0|E0]; [lia|].
    set (s := if 0 <? toa_err (toa b) then 1 else -1).
    assert (Hs : Z.abs (toa_err (toa (b <| g_toa_bias := g_toa_bias b - s |>))) = Z.abs (toa_err (toa b)) - 1).
    { unfold toa, s. cbn [g_toa_bias update_field]. rewrite Z.add_sub_assoc. by apply toa_step. }
    lia.
Qed.

End BspStore.
