(* ===== verification/BspStream.v ===== *)
(** * The burst stream from the bridge to the DSP
    ([hw/arm/calypso/l1-dsp/calypso_bsp.c]; [c54x_bsp_load] of
    [calypso_c54x.c])

    Stream mode of the BSP: datagrams fill the frame stores, and every tick
    delivers one frame to the receiver.  In continuous DMA the frame is a whole
    TDMA frame of eight timeslots; in a one-shot window it is the burst of
    timeslot 0 placed in the window.  A synchronisation burst in its window sets
    the offset between ticks and frames; one that came too early is kept for a
    tick; a normal burst that finds another window is kept in a ring of four.
    The modulators, the rotation of the AFC and the AGC compute in floating point:
    they are the interface [Radio].  The switches that are not in [env] have their
    defaults, messages, recordings and the published clock are left out. *)
From stdpp Require Import gmap.
From S2P Require Import Prelude C54xState C54xIrq Rif RheaDma BspStore.

Module BspStream.
Import C54xState C54xIrq Rif RheaDma BspStore.

Definition BSP_IQ_MAX_I16 : Z := 384.

(** The floating-point functions: the rotation of a block of samples, the GMSK
    modulation of 148 bits with an amplitude, the widening of the normal bursts,
    the modulation of the synchronisation burst of a frame, and the amplitude of
    the windows of a tick.  Each keeps the size of the buffer it fills. *)
Class Radio := {
  apply_phase : list Z → list Z;
  gmsk_moduler : list Z → Z → list Z;
  gmsk_elargir : list Z → list Z;
  sb_moduler : list Z → Z → list Z;
  nb_amp : Z → Z;
  apply_phase_len l : length (apply_phase l) = length l;
  gmsk_len bits amp : length (gmsk_moduler bits amp) = 296%nat;
  elargir_len l : length (gmsk_elargir l) = length l;
  sb_len bits f : length (sb_moduler bits f) = 296%nat
}.

(** The BSP, the receiver with its DMA and DSP, the filler of the idle
    timeslots, and whether the DSP runs. *)
Record st := mkSt { s_bsp : bsp; s_w : world; remplissage : list Z; dsp_running : bool }.
#[export] Instance st_eta : Settable st := λ s, mkSt (s_bsp s) (s_w s) (remplissage s) (dsp_running s).

Definition bsp_train_sb : list Z :=
  [1;0;1;1;1;0;0;1;0;1;1;0;0;0;1;0;0;0;0;0;0;1;0;0;0;0;0;0;1;1;1;1;
   0;0;1;0;1;1;0;1;0;1;0;0;0;1;0;1;0;1;1;1;0;1;1;0;0;0;0;1;1;0;1;1].
Definition rach_sync : list Z :=
  [0;1;0;0;1;0;1;1;0;1;1;1;1;1;1;1;1;0;0;1;1;0;0;1;1;0;1;0;1;0;1;0;0;0;1;1;1;1;0;0;0].
Definition bsp_ts0_est_sb (bits : list Z) : bool :=
  forallb (λ k, Z.land (rd bits (42 + k)) 1 =? rd bsp_train_sb k) (zseq 0 64).
Definition bsp_ts0_est_fcch (bits : list Z) : bool := forallb (λ k, negb (has (rd bits k) 1)) (zseq 0 148).
Definition bsp_ts0_est_rach (bits : list Z) : bool :=
  forallb (λ k, Z.land (rd bits (8 + k)) 1 =? rd rach_sync k) (zseq 0 41).

Definition calypso_bsp_set_remplissage (s : st) (iq : option (list Z)) : st :=
  let l := match iq with Some iq => u16 <$> take (2 * 157) iq | None => [] end in
  s <| remplissage := l ++ replicate (2 * 157 - length l) 0 |>.

(** [calypso_bsp_deliver]: always the interrupt of the receive DMA. *)
Definition calypso_bsp_deliver (w : world) : world :=
  w <| w_dsp := c54x_interrupt_ex (w_dsp w) C54X_IT_DMA_VEC C54X_IT_DMA_BIT |>.

(** The interrupt of a burst, unless [bit] of IFR is set; an idle DSP wakes. *)
Definition announce (bit : Z) (w : world) : world :=
  if has (ifr (w_dsp w)) (Z.shiftl 1 bit) then w
  else let w := calypso_bsp_deliver w in w <| w_dsp := w_dsp w <| idle := false |> |>.

(** Four samples per symbol down to one. *)
Definition decimate (l : list Z) : list Z :=
  flat_map (λ k, [rd l (2 * (k * 4)); rd l (2 * (k * 4) + 1)]) (zseq 0 (Z.to_nat ((zlen l + 6) / 8))).

Section stream.
  Context `{Radio}.

Definition c54x_bsp_load (w : world) (samples : list Z) : world :=
  let l := take 2048 samples in
  let l := if 2 * 296 <? zlen l then decimate l else l in
  calypso_rif_rx_burst w (apply_phase l).

(** The symbols of a timeslot with its guard period. *)
Definition ts_words (tn : Z) : Z := 2 * (156 + (if (tn =? 3) || (tn =? 7) then 1 else 0)).

Definition calypso_bsp_rx_burst (s : st) (tn f : Z) (iq : list Z) : st :=
  let b := s_bsp s <| bursts_seen := bursts_seen (s_bsp s) + 1 |> <| g_depot_fn := f |> in
  let w := s_w s in
  if zlen iq <=? 0 then s <| s_bsp := b |>
  else
    let continu := negb (calypso_rhea_dma_one_shot (w_rd w)) in
    let iq := if (zlen iq <=? 296) && continu then iq ++ replicate (Z.to_nat (ts_words tn - zlen iq)) 0 else iq in
    let aad := calypso_rhea_dma_get_daram (w_rd w) in
    let b := if negb (aad =? 0) then b <| daram_addr := aad |> else b in
    let lw := calypso_rhea_dma_get_len_words (w_rd w) in
    let b := if negb (lw =? 0) && (lw <=? 2048) then b <| daram_len := lw |> else b in
    if daram_addr b =? 0 then s <| s_bsp := b |>
    else
      let w := if dsp_running s then announce C54X_IT_DMA_BIT w else w in
      let w := c54x_bsp_load w (u16 <$> take (Z.to_nat BSP_IQ_MAX_I16) iq) in
      let b := if negb (tn =? 0) then b <| bsp_source_toutes_ts := true |> else b in
      let w := if continu && (tn =? 0) && (zlen iq <=? 2 * 157) && negb (bsp_source_toutes_ts b)
               then fold_left (λ w ts, c54x_bsp_load w (take (Z.to_nat (ts_words ts)) (remplissage s))) (zseq 1 7) w else w in
      let b := b <| bursts_written := bursts_written b + 1 |> in
      s <| s_bsp := b |> <| s_w := announce 5 w |>.

Definition flush (s : st) : st := s <| s_w := s_w s <| w_rif := calypso_rif_flush (w_rif (s_w s)) |> |>.
Definition count_written (s : st) : st := s <| s_bsp := s_bsp s <| bursts_written := bursts_written (s_bsp s) + 1 |> |>.

(** The programmed window, in samples, and the placement of a burst in it. *)
Definition page_prog (s : st) : Z := calypso_rhea_dma_get_len_words (w_rd (s_w s)) / 2.
Definition one_shot (s : st) : bool := calypso_rhea_dma_one_shot (w_rd (s_w s)).
Definition armee (s : st) : bool := calypso_rhea_dma_rx_armed (w_rd (s_w s)).
Definition marge_of (nwin : Z) : Z := if 190 <=? nwin then 21 else if 150 <=? nwin then 3 else 0.
Definition total_of (nwin marge : Z) : Z :=
  let t := if 0 <? marge then (if marge + 148 <? nwin then nwin else marge + 148) else 148 in if 256 <? t then 256 else t.
Definition zeros (n : Z) : list Z := replicate (Z.to_nat n) 0.

(** [marge] silent samples, the burst, silence up to [total] samples. *)
Definition cadre (marge total : Z) (iq : list Z) : list Z :=
  take (Z.to_nat (2 * total)) (zeros (2 * marge) ++ iq ++ zeros (2 * total)).

Definition nb_moduler (bits : list Z) (amp : Z) : list Z := gmsk_elargir (gmsk_moduler bits amp).

(** ** Synchronisation bursts kept for their window *)
Definition sb_cadrer (s : st) (bits : list Z) : option (list Z) :=
  if negb (one_shot s) then None
  else
    let total := page_prog s in
    if total <? 190 then None
    else
      let total := if 512 <? total then 512 else total in
      let marge := if total - 148 <? 21 then total - 148 else 21 in
      Some (cadre marge total (sb_moduler bits (sch_fn (g_dernier_sch (s_bsp s))))).

(** The offset a synchronisation burst of frame [f] sets at [tick]. *)
Definition sb_calage (b : bsp) (f tick : Z) : bsp :=
  let b := if g_off_rac_vu b then b else b <| g_off_mobile := Some (f - tick) |> in
  if g_trx_cale b then b else b <| g_ts0_offset := Some (f - tick) |>.

Definition calypso_bsp_sb_retenter (s : st) : bool * st :=
  let b := s_bsp s in
  let g := g_dernier_sch b in
  if negb (sch_valide g) || livre_sb g then (false, s)
  else if 1 <? i32 (g_tick_courant b - sch_tick g) then (false, s <| s_bsp := b <| g_dernier_sch := g <| sch_valide := false |> |> |>)
  else if negb (armee s) || negb (one_shot s) then (false, s)
  else
    match sb_cadrer s (sch_bits g) with
    | None => (false, s)
    | Some iq =>
      let s := count_written (calypso_bsp_rx_burst (flush s) 0 (sch_fn g) iq) in
      let b := s_bsp s <| g_dernier_sch := g <| livre_sb := true |> |> in
      (true, s <| s_bsp := sb_calage b (sch_fn g) (g_tick_courant b) |>)
    end.

(** ** Normal bursts kept for their window *)
Definition nb_retenter_on (v : env) (b : bsp) : bool :=
  (nb_retenter v =? 1) || ((nb_retenter v =? 2) && g_dedie_ti b).

Definition nb_garde_poser (b : bsp) (f tick : Z) (bits : list Z) : bsp :=
  b <| g_nb_garde := <[Z.to_nat (g_nb_garde_w b mod NB_GARDE_N) := mkGarde true f tick bits]> (g_nb_garde b) |>
    <| g_nb_garde_w := u32 (g_nb_garde_w b + 1) |>.

(** The kept burst of the latest frame. *)
Definition garde_recente (l : list garde) : option garde :=
  fold_left (λ best g,
    if ga_valide g && (match best with None => true | Some h => 0 <? i32 (ga_fn g - ga_fn h) end) then Some g else best) l None.

Definition pm_servir (s : st) (nwin : Z) : st :=
  let src := match garde_recente (g_nb_garde (s_bsp s)) with
             | Some g => nb_moduler (ga_bits g) 30000 ++ zeros (2 * 256 - 296)
             | None => remplissage s
             end in
  let n := if 148 <? nwin then 148 else nwin in
  calypso_bsp_rx_burst (flush s) 0 (g_depot_fn (s_bsp s)) (take (Z.to_nat (2 * n)) src).

(** The kept burst of the earliest frame, and its slot. *)
Fixpoint garde_ancienne (l : list garde) (k : nat) (best : option (nat * garde)) : option (nat * garde) :=
  match l with
  | [] => best
  | g :: l =>
    garde_ancienne l (S k)
      (if ga_valide g && (match best with None => true | Some (_, h) => i32 (ga_fn g - ga_fn h) <? 0 end)
       then Some (k, g) else best)
  end.

(** A burst kept for more than two ticks is dropped. *)
Definition garde_fraiche (tick : Z) (g : garde) : garde :=
  if ga_valide g && (2 <? i32 (tick - ga_tick g)) then g <| ga_valide := false |> else g.

Definition calypso_bsp_nb_retenter (v : env) (s : st) : bool * st :=
  let b := s_bsp s in
  let tick := g_tick_courant b in
  let nwin := page_prog s in
  if negb (nb_retenter_on v b) then (false, s)
  else if (0 <? g_dedie_tn b) && (g_dedie_genre b =? BSP_DEDIE_TCH) then
    if (t_pm b =? tick) || negb (armee s) || negb (one_shot s) || (nwin <=? 0) || (150 <=? nwin)
       || has (ifr (w_dsp (s_w s))) (Z.shiftl 1 14) then (false, s)
    else (true, pm_servir (s <| s_bsp := b <| t_pm := tick |> |>) nwin)
  else if negb (armee s) || negb (one_shot s) || (nwin <=? 0) then (false, s)
  else if nwin <? 150 then (true, pm_servir s nwin)
  else if 190 <=? nwin then (false, s)
  else
    let l := garde_fraiche tick <$> g_nb_garde b in
    let s := s <| s_bsp := b <| g_nb_garde := l |> |> in
    match garde_ancienne l 0 None with
    | None => (false, s)
    | Some (k, g) =>
      let iq := cadre 3 (total_of nwin 3) (nb_moduler (ga_bits g) (nb_amp tick)) in
      let s := count_written (calypso_bsp_rx_burst (flush s) 0 (ga_fn g) iq) in
      (true, s <| s_bsp := s_bsp s <| g_nb_garde := alter (λ g, g <| ga_valide := false |>) k (g_nb_garde (s_bsp s)) |> |>)
    end.

(** ** The delivery of a frame *)
Definition set_joue (b : bsp) (i : Z) : bsp :=
  b <| g_ts0 := (λ m, <[i := (default ts0_zero (m !! i)) <| ts0_joue := true |>]> m) <$> g_ts0 b |>.

(** The burst of a frame: that of the dedicated channel on its frames, else that
    of timeslot 0. *)
Definition livrer_bits (v : env) (b : bsp) (f : Z) (bits : list Z) : list Z * bsp :=
  if (0 <? g_dedie_tn b) && bsp_dedie_trame v b f then
    let '(d, b) := bsp_dedie_bits v b f in
    match d with
    | Some d =>
      let b := if g_dedie_genre b =? BSP_DEDIE_TCH then tch_note b f d else b in
      (d, b <| g_dedie_joues := g_dedie_joues b + 1 |>)
    | None => (bits, b <| g_dedie_manques := g_dedie_manques b + 1 |>)
    end
  else (bits, b).

(** The other timeslots of a continuous frame: [for (int tn = 1; tn < 8; tn++)],
    with samples that may depend on the stores and the filler. *)
Definition rx_others (g : bsp → list Z → Z → list Z) (s : st) (f : Z) : st :=
  fold_left (λ s tn, calypso_bsp_rx_burst s tn f (g (s_bsp s) (remplissage s) tn)) (zseq 1 7) s.

Definition autre_iq (b : bsp) (filler : list Z) (f tn : Z) : list Z :=
  match bsp_autres_bits b f tn with
  | Some bits => nb_moduler bits 30000
  | None => take 296 filler
  end.
Definition livrer_autres (s : st) (f : Z) : st :=
  rx_others (λ b filler tn, autre_iq b filler f tn) s f.

(** The samples of the burst of timeslot 0. *)
Definition livrer_iq (bits : list Z) (f amp : Z) : list Z :=
  if bsp_ts0_est_sb bits then sb_moduler bits f
  else if bsp_ts0_est_fcch bits then gmsk_moduler bits amp
  else nb_moduler bits amp.

Definition bsp_ts0_livrer (v : env) (s : st) (tick i : Z) : st :=
  let e := ts0_at (s_bsp s) i in
  let f := ts0_fn e in
  let '(bits, b) := livrer_bits v (s_bsp s) f (ts0_bits e) in
  let sb := bsp_ts0_est_sb bits in
  let fcch := bsp_ts0_est_fcch bits in
  let os := one_shot s in
  let nwin := if os then page_prog s else 0 in
  let marge := marge_of nwin in
  let nb_win := os && (150 <=? nwin) && (nwin <? 190) in
  let sb_win := os && (190 <=? nwin) in
  let amp := if nb_win then nb_amp tick else 30000 in
  let b := if sb then b <| g_dernier_sch := mkSch f tick bits sb_win true |> else b in
  let b := if g_trx_cale b && negb sb && negb fcch && negb (bsp_ts0_est_rach bits)
           then b <| g_trx_ul := mkEntry f bits true |> <| g_trx_ul_tick := tick |> else b in
  let devie := negb sb && negb fcch && negb (armee s && negb os) && nb_retenter_on v b && negb nb_win in
  let b := if devie then nb_garde_poser b f tick bits else b in
  let s := s <| s_bsp := b |> in
  let s := if devie && os && (0 <? nwin) && (nwin <? 150) then pm_servir s nwin else s in
  let iq := cadre marge (total_of nwin marge) (livrer_iq bits f amp) in
  let b := if sb && sb_win then sb_calage (s_bsp s) f tick else s_bsp s in
  let s := s <| s_bsp := set_joue b i |> in
  if devie then s
  else
    let s := count_written (calypso_bsp_rx_burst s 0 f iq) in
    if os then s else livrer_autres s f.

(** A frame without burst: silence, so that no stale samples are decoded. *)
Definition effacer (s : st) (f : Z) : st :=
  let os := one_shot s in
  let nwin := if os then page_prog s else 0 in
  let s := count_written (calypso_bsp_rx_burst s 0 f (zeros (2 * total_of nwin (marge_of nwin)))) in
  let s := if os then s else rx_others (λ _ filler _, take 296 filler) s f in
  s <| s_bsp := s_bsp s <| g_ts0_silences := g_ts0_silences (s_bsp s) + 1 |> |>.

(** Before any offset: the first burst not played yet, from [g_ts0_next]. *)
Fixpoint first_unplayed (fuel : nat) (b : bsp) (k : Z) : option Z :=
  match fuel with
  | O => None
  | S fuel =>
    let i := k mod BSP_TS0_RING in
    if ts0_valid (ts0_at b i) && negb (ts0_joue (ts0_at b i)) then Some i else first_unplayed fuel b (k + 1)
  end.

(** The frame of tick [tick]. *)
Definition ts0_jouer (v : env) (s : st) (tick : Z) : st :=
  let b := s_bsp s in
  match g_ts0_offset b with
  | Some off =>
    let f := frame_of tick off in
    let i := f mod BSP_TS0_RING in
    if ts0_valid (ts0_at b i) && (ts0_fn (ts0_at b i) =? f) then bsp_ts0_livrer v s tick i
    else
      let b := if (0 <? g_dedie_tn b) && bsp_dedie_trame v b f
               then b <| g_dedie_perdues := g_dedie_perdues b + 1 |> else b in
      effacer (s <| s_bsp := b |>) f
  | None =>
    match first_unplayed (Z.to_nat BSP_TS0_RING) b (g_ts0_next b) with
    | Some i =>
      let s := bsp_ts0_livrer v s tick i in
      s <| s_bsp := s_bsp s <| g_ts0_next := u32 (ts0_fn (ts0_at (s_bsp s) i) + 1) |> |>
    | None => s
    end
  end.

Definition bsp_ts0_service (v : env) (s : st) (tick : Z) : st :=
  if negb (bool_decide (is_Some (g_ts0 (s_bsp s)))) || negb (g_ts0_any (s_bsp s)) then s
  else
    let s := s <| s_bsp := s_bsp s <| g_tick_courant := tick |> |> in
    let '(livre, s) := calypso_bsp_sb_retenter s in
    if livre then s else ts0_jouer v s tick.
End stream.

(** ** The datagrams of the bridge *)
Definition trxd_fn (buf : list Z) : Z :=
  Z.lor (Z.lor (Z.lor (Z.shiftl (rd buf 1) 24) (Z.shiftl (rd buf 2) 16)) (Z.shiftl (rd buf 3) 8)) (rd buf 4).

Definition see (b : bsp) : bsp := b <| bursts_seen := bursts_seen b + 1 |>.

(** [bsp_trxd_readable] in stream mode, on a received datagram. *)
Definition bsp_trxd_readable (b : bsp) (dgram : list Z) : bsp :=
  let buf := take 4096 dgram in
  let n := zlen buf in
  if n <? 8 then b
  else
    let tn := Z.land (rd buf 0) 7 in
    let f := trxd_fn buf in
    let bits := take 148 (drop 8 buf) in
    if (8 + 148 <=? n) && (rd buf 6 =? 0xA5) then see (air_ul_stocker b f tn bits)
    else
      let b := b <| last_att := rd buf 5 |> in
      let nbits := n - 8 in
      let nbits := if 148 <? nbits then 148 else nbits in
      if nbits <=? 0 then b
      else if (tn =? 0) && (nbits =? 148) then bsp_ts0_stocker b f bits
      else
        let b := if (tn =? g_dedie_tn b) && (nbits =? 148) then bsp_dedie_stocker b f bits else b in
        if (1 <=? tn) && (tn <=? 7) && (nbits =? 148) then see (bsp_autres_stocker b f tn bits) else see b.

(** The receive loop of [calypso_bsp_service]: it ends with the socket empty, on a
    datagram that counts for no burst, or after 256. *)
Fixpoint drain_socket (fuel : nat) (b : bsp) (sock : list (list Z)) : bsp * list (list Z) :=
  match fuel, sock with
  | S fuel, d :: sock =>
    let b' := bsp_trxd_readable b d in
    if bursts_seen b' =? bursts_seen b then (b', sock) else drain_socket fuel b' sock
  | _, _ => (b, sock)
  end.

Definition calypso_bsp_service `{Radio} (v : env) (s : st) (sock : list (list Z)) (tick : Z) : st * list (list Z) :=
  let '(b, sock) := drain_socket 256 (s_bsp s) sock in
  (bsp_ts0_service v (s <| s_bsp := b |>) tick, sock).

(** ** What a delivery feeds to the receive path

    [feeds w l w']: with room for the words [l] in the receiver, the receive path
    goes from [w] to [w'] by arrivals of exactly the words [l] and activity of
    the DSP that leaves the two pages alone. *)
Definition feeds (w : world) (l : list Z) (w' : world) : Prop :=
  stream_ok w → (length (rif_queue (w_rif w)) + length l ≤ RIF_STAGE_MAX)%nat →
  (∀ last out inp, rtc rx_step (mkConf w last out inp) (mkConf w' last out (inp ++ l))) ∧
  stream_ok w' ∧ (length (rif_queue (w_rif w')) ≤ length (rif_queue (w_rif w)) + length l)%nat.

Lemma feeds_refl w : feeds w [] w.
Proof. intros H _. split; [intros; rewrite app_nil_r; apply rtc_refl|]. split; [done|cbn; lia]. Qed.

Lemma feeds_trans w l w1 l1 w2 : feeds w l w1 → feeds w1 l1 w2 → feeds w (l ++ l1) w2.
Proof.
  intros H1 H2 Hok Hroom. rewrite length_app in Hroom. destruct (H1 Hok ltac:(lia)) as (A & B & C).
  destruct (H2 B ltac:(lia)) as (A2 & B2 & C2). split; [|split; [done|rewrite length_app; lia]].
  intros last out inp. rewrite app_assoc. etrans; [apply A|apply A2].
Qed.

Lemma feeds_nil_l w w1 l w2 : feeds w [] w1 → feeds w1 l w2 → feeds w l w2.
Proof. apply feeds_trans. Qed.
Lemma feeds_nil_r w l w1 w2 : feeds w l w1 → feeds w1 [] w2 → feeds w l w2.
Proof. intros H1 H2. rewrite <- (app_nil_r l). by apply (feeds_trans _ _ w1). Qed.

Lemma stream_one_shot w : stream_ok w → calypso_rhea_dma_one_shot (w_rd w) = false.
Proof. intros [_ _ [_ _ Hc _ _] _ _]. unfold calypso_rhea_dma_one_shot. by rewrite Hc, andb_false_r. Qed.
Lemma stream_armed w : stream_ok w → calypso_rhea_dma_rx_armed (w_rd w) = true.
Proof. intros [_ _ [He Hd _ _ _] _ _]. unfold calypso_rhea_dma_rx_armed. by rewrite He, Hd. Qed.

Lemma rif_rx_burst_queue w l :
  stream_ok w → (length (rif_queue (w_rif w)) + length l ≤ RIF_STAGE_MAX)%nat →
  (length (rif_queue (w_rif (calypso_rif_rx_burst w l))) ≤ length (rif_queue (w_rif w)) + length l)%nat.
Proof.
  intros Hok Hfit. unfold calypso_rif_rx_burst. destruct (_ =? _)%nat; [lia|]. rewrite (stream_armed w Hok). cbn [negb]. cbv zeta.
  destruct (append_spec (w_rif w) l (so_rif _ Hok) Hfit) as (A & B & _). set (w1 := w <| w_rif := _ |>).
  assert (Q1 : length (rif_queue (w_rif w1)) = (length (rif_queue (w_rif w)) + length l)%nat)
    by (unfold w1; cbn [w_rif update_field]; by rewrite B, length_app).
  assert (K1 : stream_ok w1) by (destruct Hok; by constructor).
  set (w2 := if negb (has (spcr (w_rif w1)) SPCR_RINT_MASK) then _ else w1).
  assert (K2 : stream_ok w2 ∧ w_rif w2 = w_rif w1).
  { unfold w2. destruct (negb _); [|done]. split; [|done]. destruct (interrupt_safe (w_dsp w1) C54X_IT_RIF_RX_VEC C54X_IT_RIF_RX_BIT (so_dsp _ K1)) as [Ia Ib].
    destruct K1 as [k1 k2 k3 k4 k5]. constructor; try done. cbn [w_dsp update_field]. by rewrite Ia. }
  destruct K2 as [K2 E2]. destruct (negb (has _ SPCR_RDMA_MASK)); [|rewrite E2; lia].
  destruct (irq_pending (chn w2)) eqn:Ei.
  - rewrite rx_request_busy by done. unfold set_ctrl. cbn [w_rif update_field]. rewrite E2. lia.
  - destruct (so_api _ K2) as [api Ha]. destruct (rx_request_stream w2 api K2 Ei Ha) as (_ & -> & _). rewrite length_drop, E2. lia.
Qed.

Lemma feeds_burst w l : feeds w l (calypso_rif_rx_burst w l).
Proof.
  intros Hok Hroom. split; [|split].
  - intros last out inp. apply rtc_once. exact (step_burst (mkConf w last out inp) l Hroom).
  - set (i := on_page1 (chn w)). set (q := (if irq_pending (chn w) then fresh (api_of w) (ch_dst (chn w)) (ch_page (chn w)) i i else []) ++ rif_queue (w_rif w)).
    assert (I : rx_inv (mkConf w i [] q)) by (constructor; [done|done|reflexivity]).
    apply (inv_ok _ (rx_inv_burst w i [] q l I Hroom)).
  - by apply rif_rx_burst_queue.
Qed.

Lemma feeds_dsp w d :
  (stream_ok w → dsp_safe d = true ∧ api_ram d = api_ram (w_dsp w)) → feeds w [] (w <| w_dsp := d |>).
Proof.
  intros H Hok _. destruct (H Hok) as [Hs Ha]. split; [|split; [|cbn; lia]].
  - intros last out inp. rewrite app_nil_r. apply rtc_once. apply (step_dsp (mkConf w last out inp) d Hs).
    destruct (so_api _ Hok) as [api E]. exists api. split; [congruence|]. intros i _. cbn [c_world]. unfold api_of. by rewrite E.
  - destruct Hok. constructor; try done. cbn [w_dsp update_field]. by rewrite Ha.
Qed.

Lemma feeds_announce bit w : feeds w [] (announce bit w).
Proof.
  unfold announce. destruct (has _ _); [apply feeds_refl|]. cbv zeta.
  apply (feeds_dsp w (c54x_interrupt_ex (w_dsp w) C54X_IT_DMA_VEC C54X_IT_DMA_BIT <| idle := false |>)).
  intros Hok. destruct (interrupt_safe (w_dsp w) C54X_IT_DMA_VEC C54X_IT_DMA_BIT (so_dsp _ Hok)) as [A B]. split; [|exact A].
  set (d := c54x_interrupt_ex _ _ _) in *. unfold dsp_safe in *. cbn [idle update_field negb andb].
  change (stack_cell (d <| idle := false |>)) with (stack_cell d). change (st1 (d <| idle := false |>)) with (st1 d).
  destruct (has (st1 d) ST1_INTM); [done|]. by rewrite andb_false_r in B.
Qed.

Section continuous.
  Context `{Radio}.

#[local] Opaque RIF_STAGE_MAX.

Lemma feeds_load w l : (length l ≤ 592)%nat → feeds w (apply_phase l) (c54x_bsp_load w l).
Proof.
  intros Hl. unfold c54x_bsp_load. cbv zeta. rewrite take_ge by lia.
  rewrite (proj2 (Z.ltb_ge _ _)) by (unfold zlen; lia). apply feeds_burst.
Qed.

Lemma feeds_loads w (f : Z → list Z) ks :
  (∀ k, length (f k) ≤ 592)%nat →
  feeds w (flat_map (λ k, apply_phase (f k)) ks) (fold_left (λ w k, c54x_bsp_load w (f k)) ks w).
Proof.
  intros Hf. revert w. induction ks as [|k ks IH]; intros w; cbn [fold_left flat_map]; [apply feeds_refl|].
  apply (feeds_trans _ _ (c54x_bsp_load w (f k))); [by apply feeds_load|apply IH].
Qed.

(** The words of a timeslot in the continuous stream, and the fillers that
    follow a burst of timeslot 0 while no other timeslot has been delivered. *)
Definition slot (tn : Z) (iq : list Z) : list Z := apply_phase (u16 <$> (iq ++ zeros (ts_words tn - zlen iq))).
Definition extra (b : bsp) (filler : list Z) (tn : Z) : list Z :=
  if (tn =? 0) && negb (bsp_source_toutes_ts b)
  then flat_map (λ ts, apply_phase (take (Z.to_nat (ts_words ts)) filler)) (zseq 1 7) else [].

(** The part of the BSP a burst leaves alone. *)
Definition base (b : bsp) : bsp :=
  b <| bursts_seen := 0 |> <| bursts_written := 0 |> <| g_depot_fn := 0 |> <| daram_addr := 0 |> <| daram_len := 0 |>
    <| bsp_source_toutes_ts := false |>.

Lemma ts_words_range tn : 312 ≤ ts_words tn ≤ 314.
Proof. unfold ts_words. case_if; lia. Qed.

Lemma length_slot tn iq : zlen iq ≤ 296 → zlen (slot tn iq) = ts_words tn.
Proof.
  intros Hn. pose proof (ts_words_range tn). unfold slot, zlen, zeros in *. rewrite apply_phase_len, length_fmap, length_app, length_replicate. lia.
Qed.

(** A burst of at most 148 samples in continuous mode. *)
Lemma rx_burst_stream s tn f iq :
  stream_ok (s_w s) → daram_addr (s_bsp s) ≠ 0 → 0 < zlen iq ≤ 296 →
  let s' := calypso_bsp_rx_burst s tn f iq in
  feeds (s_w s) (slot tn iq ++ extra (s_bsp s) (remplissage s) tn) (s_w s') ∧
  base (s_bsp s') = base (s_bsp s) ∧ daram_addr (s_bsp s') ≠ 0 ∧
  bsp_source_toutes_ts (s_bsp s') = negb (tn =? 0) || bsp_source_toutes_ts (s_bsp s) ∧
  remplissage s' = remplissage s.
Proof.
  intros Hok Ha Hn. pose proof (ts_words_range tn) as Ht. unfold calypso_bsp_rx_burst. cbv zeta.
  rewrite (proj2 (Z.leb_gt _ _)) by lia. rewrite (stream_one_shot _ Hok), (proj2 (Z.leb_le (zlen iq) 296)) by lia. cbn [negb andb].
  fold (zeros (ts_words tn - zlen iq)). set (iq' := iq ++ zeros _).
  assert (Hl : zlen iq' = ts_words tn) by (unfold iq', zeros, zlen in *; rewrite length_app, length_replicate; lia).
  set (b1 := if negb (_ =? 0) && _ then _ else _).
  assert (B1 : base b1 = base (s_bsp s) ∧ daram_addr b1 ≠ 0 ∧ bsp_source_toutes_ts b1 = bsp_source_toutes_ts (s_bsp s))
    by (unfold b1; repeat case_if; bool_prop; done).
  clearbody b1. destruct B1 as (B1 & B2 & B3). rewrite (proj2 (Z.eqb_neq _ _) B2).
  assert (Hc : (length iq' ≤ Z.to_nat BSP_IQ_MAX_I16)%nat) by (change (Z.to_nat BSP_IQ_MAX_I16) with 384%nat; clearbody iq'; unfold zlen in Hl; lia).
  rewrite (take_ge iq' _ Hc). rewrite (proj2 (Z.leb_le (zlen iq') (2 * 157))) by lia.
  set (b2 := if negb (tn =? 0) then _ else b1).
  assert (B2' : base b2 = base (s_bsp s) ∧ daram_addr b2 ≠ 0 ∧ bsp_source_toutes_ts b2 = negb (tn =? 0) || bsp_source_toutes_ts (s_bsp s))
    by (unfold b2; case_if; bool_prop; rewrite <- ?B3; done).
  clearbody b2. destruct B2' as (C1 & C2 & C3). cbn [s_w s_bsp remplissage update_field]. split; [|done].
  eapply feeds_nil_l; [instantiate (1 := if dsp_running s then announce C54X_IT_DMA_BIT (s_w s) else s_w s); destruct (dsp_running s); [apply feeds_announce|apply feeds_refl]|].
  set (w1 := if dsp_running s then _ else _). eapply feeds_nil_r; [|apply feeds_announce].
  eapply feeds_trans; [apply feeds_load; rewrite length_fmap; apply (Nat.le_trans _ _ _ Hc), Nat.leb_le; reflexivity|]. rewrite andb_true_r.
  assert (Ec : (tn =? 0) && negb (bsp_source_toutes_ts b2) = (tn =? 0) && negb (bsp_source_toutes_ts (s_bsp s))) by (rewrite C3; by destruct (tn =? 0)).
  unfold extra. rewrite Ec. destruct ((tn =? 0) && negb (bsp_source_toutes_ts (s_bsp s))); [|apply feeds_refl].
  apply (feeds_loads _ (λ ts, take (Z.to_nat (ts_words ts)) (remplissage s))).
  intros k. rewrite length_take. pose proof (ts_words_range k). lia.
Qed.

(** The path is armed for the continuous stream. *)
Record on_air (s : st) : Prop := mkOnAir {
  oa_stream : stream_ok (s_w s);
  oa_daram : daram_addr (s_bsp s) ≠ 0;
  oa_filler : length (remplissage s) = 314%nat
}.
Definition room (s : st) (l : list Z) : Prop := (length (rif_queue (w_rif (s_w s))) + length l ≤ RIF_STAGE_MAX)%nat.

(** The delivery from [s] to [s'] feeds the words [l]. *)
Record sent (s : st) (l : list Z) (s' : st) : Prop := mkSent {
  sent_steps last out inp : rtc rx_step (mkConf (s_w s) last out inp) (mkConf (s_w s') last out (inp ++ l));
  sent_queue : (length (rif_queue (w_rif (s_w s'))) ≤ length (rif_queue (w_rif (s_w s))) + length l)%nat;
  sent_air : on_air s';
  sent_filler : remplissage s' = remplissage s;
  sent_toutes : bsp_source_toutes_ts (s_bsp s) = true → bsp_source_toutes_ts (s_bsp s') = true
}.

Lemma sent_trans s l s1 l1 s2 : sent s l s1 → sent s1 l1 s2 → sent s (l ++ l1) s2.
Proof.
  intros [A1 A2 A3 A4 A5] [B1 B2 B3 B4 B5]. constructor; [|rewrite length_app; lia|done|congruence|tauto].
  intros last out inp. rewrite app_assoc. etrans; [apply A1|apply B1].
Qed.

Lemma base_count_written s : base (s_bsp (count_written s)) = base (s_bsp s).
Proof. done. Qed.

(** A change of the BSP alone. *)
Lemma sent_bsp s b :
  on_air s → daram_addr b ≠ 0 → bsp_source_toutes_ts b = bsp_source_toutes_ts (s_bsp s) → sent s [] (s <| s_bsp := b |>).
Proof.
  intros [A B C] Hd Ht. constructor; [|cbn; lia|done|done|cbn; congruence].
  intros. rewrite app_nil_r. apply rtc_refl.
Qed.

Lemma sent_then_bsp s l s1 b :
  sent s l s1 → daram_addr b = daram_addr (s_bsp s1) → bsp_source_toutes_ts b = bsp_source_toutes_ts (s_bsp s1) →
  sent s l (s1 <| s_bsp := b |>).
Proof.
  intros S1 Hd Ht. rewrite <- (app_nil_r l). apply (sent_trans _ _ s1); [exact S1|].
  apply sent_bsp; [apply S1|rewrite Hd; apply (oa_daram _ (sent_air _ _ _ S1))|exact Ht].
Qed.

Lemma rx_burst_sent s tn f iq :
  on_air s → 0 < zlen iq ≤ 296 → room s (slot tn iq ++ extra (s_bsp s) (remplissage s) tn) →
  let s' := calypso_bsp_rx_burst s tn f iq in
  sent s (slot tn iq ++ extra (s_bsp s) (remplissage s) tn) s' ∧ base (s_bsp s') = base (s_bsp s) ∧
  (tn ≠ 0 → bsp_source_toutes_ts (s_bsp s') = true).
Proof.
  intros [A B C] Hn Hroom s'. destruct (rx_burst_stream s tn f iq A B Hn) as (F & G1 & G2 & G3 & G4). fold s' in F, G1, G2, G3, G4.
  destruct (F A Hroom) as (K1 & K2 & K3). split; [constructor; try done; [constructor; congruence|]|split; [done|]].
  - intros Ht. by rewrite G3, Ht, orb_true_r.
  - intros Ht. by rewrite G3, (proj2 (Z.eqb_neq _ _) Ht).
Qed.

(** A sequence of bursts on the other timeslots; the samples may depend on the
    stores and the filler. *)
Lemma rx_bursts_sent (g : bsp → list Z → Z → list Z) f :
  (∀ b b' filler tn, base b = base b' → g b filler tn = g b' filler tn) →
  (∀ b filler tn, length filler = 314%nat → 0 < zlen (g b filler tn) ≤ 296) →
  ∀ ks s, Forall (λ k, k ≠ 0) ks → on_air s → room s (flat_map (λ tn, slot tn (g (s_bsp s) (remplissage s) tn)) ks) →
  let s' := fold_left (λ s tn, calypso_bsp_rx_burst s tn f (g (s_bsp s) (remplissage s) tn)) ks s in
  sent s (flat_map (λ tn, slot tn (g (s_bsp s) (remplissage s) tn)) ks) s' ∧ base (s_bsp s') = base (s_bsp s) ∧
  (ks ≠ [] → bsp_source_toutes_ts (s_bsp s') = true).
Proof.
  intros Hg Hl ks. induction ks as [|k ks IH]; intros s Hks Ha Hr; cbn [fold_left flat_map] in *.
  { split; [|done]. constructor; [|lia|done..]. intros. rewrite app_nil_r. apply rtc_refl. }
  inversion Hks as [|? ? Hk Hks']; subst. set (iq := g (s_bsp s) (remplissage s) k) in *.
  assert (E : extra (s_bsp s) (remplissage s) k = []) by (unfold extra; by rewrite (proj2 (Z.eqb_neq _ _) Hk)).
  pose proof Hr as Hr'. unfold room in Hr'. rewrite length_app in Hr'.
  destruct (rx_burst_sent s k f iq Ha (Hl _ _ _ (oa_filler _ Ha))) as (S1 & B1 & T1).
  { rewrite E, app_nil_r. unfold room. lia. }
  rewrite E, app_nil_r in S1. set (s1 := calypso_bsp_rx_burst s k f iq) in *.
  assert (Eg : flat_map (λ tn, slot tn (g (s_bsp s) (remplissage s) tn)) ks = flat_map (λ tn, slot tn (g (s_bsp s1) (remplissage s1) tn)) ks)
    by (apply List.flat_map_ext; intros tn; by rewrite (sent_filler _ _ _ S1), (Hg (s_bsp s1) (s_bsp s) _ tn B1)).
  rewrite Eg in *. destruct (IH s1 Hks' (sent_air _ _ _ S1)) as (S2 & B2 & T2).
  { unfold room. pose proof (sent_queue _ _ _ S1). lia. }
  split; [by apply (sent_trans _ _ s1)|]. split; [congruence|]. intros _. apply (sent_toutes _ _ _ S2), T1, Hk.
Qed.

(** ** The words of a frame *)

(** A frame: the burst of timeslot 0 and the seven others. *)
Definition frame_words (b : bsp) (filler iq0 : list Z) (g : Z → list Z) : list Z :=
  (slot 0 iq0 ++ extra b filler 0) ++ flat_map (λ tn, slot tn (g tn)) (zseq 1 7).

(** What tick [tick] must play: before any offset the first stored burst not
    played yet; then the frame the offset names, with the burst of the dedicated
    channel on its frames, or an erasure. *)
Definition play_words (v : env) (b : bsp) (filler : list Z) (tick : Z) : list Z :=
  let play f bits := frame_words b filler (livrer_iq (fst (livrer_bits v b f bits)) f 30000) (autre_iq b filler f) in
  match g_ts0_offset b with
  | Some off =>
    match ts0_lookup b (frame_of tick off) with
    | Some bits => play (frame_of tick off) bits
    | None => frame_words b filler (zeros 296) (λ _, take 296 filler)
    end
  | None =>
    match first_unplayed (Z.to_nat BSP_TS0_RING) b (g_ts0_next b) with
    | Some i => play (ts0_fn (ts0_at b i)) (ts0_bits (ts0_at b i))
    | None => []
    end
  end.

(** Nothing before the first burst. *)
Definition tick_words (v : env) (b : bsp) (filler : list Z) (tick : Z) : list Z :=
  if negb (bool_decide (is_Some (g_ts0 b))) || negb (g_ts0_any b) then [] else play_words v b filler tick.

Lemma zseq_1_7 : Forall (λ k, k ≠ 0) (zseq 1 7).
Proof. apply List.Forall_forall. intros x Hx%list_elem_of_In%elem_of_zseq. lia. Qed.

Lemma autre_iq_len b filler f tn : length filler = 314%nat → 0 < zlen (autre_iq b filler f tn) ≤ 296.
Proof.
  intros Hf. unfold autre_iq, nb_moduler, zlen. destruct (bsp_autres_bits b f tn); [rewrite elargir_len, gmsk_len; lia|].
  rewrite length_take. lia.
Qed.
Lemma autre_iq_base b b' filler f tn : base b = base b' → autre_iq b filler f tn = autre_iq b' filler f tn.
Proof.
  intros E. apply (f_equal g_autres) in E. change (g_autres b = g_autres b') in E.
  unfold autre_iq, bsp_autres_bits. by rewrite E.
Qed.
Lemma livrer_iq_len bits f amp : length (livrer_iq bits f amp) = 296%nat.
Proof. unfold livrer_iq, nb_moduler. repeat case_if; rewrite ?elargir_len, ?gmsk_len, ?sb_len; done. Qed.

(** Timeslot 0, then the others. *)
Lemma frame_sent (g : bsp → list Z → Z → list Z) s f iq0 :
  (∀ b b' filler tn, base b = base b' → g b filler tn = g b' filler tn) →
  (∀ b filler tn, length filler = 314%nat → 0 < zlen (g b filler tn) ≤ 296) →
  on_air s → 0 < zlen iq0 ≤ 296 → room s (frame_words (s_bsp s) (remplissage s) iq0 (g (s_bsp s) (remplissage s))) →
  let s1 := count_written (calypso_bsp_rx_burst s 0 f iq0) in
  let s' := rx_others g s1 f in
  sent s (frame_words (s_bsp s) (remplissage s) iq0 (g (s_bsp s) (remplissage s))) s' ∧
  base (s_bsp s') = base (s_bsp s) ∧ bsp_source_toutes_ts (s_bsp s') = true.
Proof.
  intros Hg Hl Ha Hi Hr s1 s'. unfold frame_words in *. unfold room in Hr. rewrite length_app in Hr.
  destruct (rx_burst_sent s 0 f iq0 Ha Hi) as (S0 & B0 & _); [unfold room; lia|].
  set (s0 := calypso_bsp_rx_burst s 0 f iq0) in *.
  assert (S1 : sent s0 [] s1) by (apply sent_bsp; [apply S0|apply (oa_daram _ (sent_air _ _ _ S0))|done]).
  assert (B1 : base (s_bsp s1) = base (s_bsp s)) by (unfold s1; rewrite base_count_written; exact B0).
  assert (Eg : flat_map (λ tn, slot tn (g (s_bsp s) (remplissage s) tn)) (zseq 1 7) =
               flat_map (λ tn, slot tn (g (s_bsp s1) (remplissage s1) tn)) (zseq 1 7)).
  { apply List.flat_map_ext. intros tn. by rewrite (sent_filler _ _ _ S1), (sent_filler _ _ _ S0), (Hg (s_bsp s1) (s_bsp s) _ tn B1). }
  rewrite Eg in *. destruct (rx_bursts_sent g f Hg Hl (zseq 1 7) s1 zseq_1_7 (sent_air _ _ _ S1)) as (S2 & B2 & T2).
  { unfold room. pose proof (sent_queue _ _ _ S0). pose proof (sent_queue _ _ _ S1). cbn [length] in *. lia. }
  change (fold_left _ _ s1) with s' in S2, B2, T2. clearbody s'. split; [|split; [congruence|by apply T2]].
  apply (sent_trans _ _ s1); [|done]. rewrite <- (app_nil_r (slot 0 iq0 ++ _)). by apply (sent_trans _ _ s0).
Qed.

(** The delivery of a stored burst and of an erasure. *)
Definition quiet (b b' : bsp) : Prop :=
  daram_addr b' = daram_addr b ∧ bsp_source_toutes_ts b' = bsp_source_toutes_ts b ∧ g_autres b' = g_autres b.

Lemma livrer_bits_quiet v b f bits : quiet b (snd (livrer_bits v b f bits)).
Proof.
  unfold livrer_bits, bsp_dedie_bits. case_if; [|done].
  destruct (g_dedie_tn b <=? 0); [done|]. destruct (entry_lookup _ _ _); [cbn; by case_if|].
  destruct (dedie_strict v); [done|]. destruct (bsp_autres_bits _ _ _); cbn; [by case_if|done].
Qed.

Lemma cadre_bare iq : length iq = 296%nat → cadre 0 148 iq = iq.
Proof.
  intros Hl. unfold cadre. change (zeros (2 * 0)) with (@nil Z). change (Z.to_nat (2 * 148)) with 296%nat. rewrite app_nil_l.
  by rewrite take_app_le, take_ge by lia.
Qed.

(** In continuous mode the delivery is the frame of the burst. *)
Lemma livrer_continuous v s tick i :
  stream_ok (s_w s) →
  let f := ts0_fn (ts0_at (s_bsp s) i) in
  let bits := fst (livrer_bits v (s_bsp s) f (ts0_bits (ts0_at (s_bsp s) i))) in
  ∃ b, quiet (s_bsp s) b ∧ (g_ts0 b = g_ts0 (set_joue (s_bsp s) i)) ∧
    bsp_ts0_livrer v s tick i =
      livrer_autres (count_written (calypso_bsp_rx_burst (s <| s_bsp := b |>) 0 f (livrer_iq bits f 30000))) f.
Proof.
  intros Hok f bits. unfold bsp_ts0_livrer, one_shot, armee. fold f.
  rewrite (stream_one_shot _ Hok), (stream_armed _ Hok). cbv zeta.
  pose proof (livrer_bits_quiet v (s_bsp s) f (ts0_bits (ts0_at (s_bsp s) i))) as Q.
  assert (G : g_ts0 (snd (livrer_bits v (s_bsp s) f (ts0_bits (ts0_at (s_bsp s) i)))) = g_ts0 (s_bsp s)).
  { clear. unfold livrer_bits, bsp_dedie_bits. case_if; [|done].
    destruct (g_dedie_tn _ <=? 0); [done|]. destruct (entry_lookup _ _ _); [cbn; by case_if|].
    destruct (dedie_strict v); [done|]. destruct (bsp_autres_bits _ _ _); cbn; [by case_if|done]. }
  fold f in G. subst bits. destruct (livrer_bits v (s_bsp s) f _) as [bits b]. cbn [fst snd] in *.
  cbn [negb andb]. rewrite ?andb_false_r. cbn [negb andb].
  change (marge_of 0) with 0. change (total_of 0 0) with 148. rewrite cadre_bare by apply livrer_iq_len.
  set (b1 := if bsp_ts0_est_sb bits then _ else b). set (b2 := if g_trx_cale b1 && _ && _ && _ then _ else b1).
  exists (set_joue b2 i). split; [|split; [|done]].
  - unfold quiet, b2, b1. repeat case_if; exact Q.
  - unfold set_joue. cbn [g_ts0 update_field]. assert (g_ts0 b2 = g_ts0 b) as -> by (unfold b2, b1; repeat case_if; done). by rewrite G.
Qed.

Lemma sb_retenter_continuous s :
  stream_ok (s_w s) → ∃ g, calypso_bsp_sb_retenter s = (false, s <| s_bsp := s_bsp s <| g_dernier_sch := g |> |>).
Proof.
  intros Hok. unfold calypso_bsp_sb_retenter. cbv zeta.
  assert (E : s <| s_bsp := s_bsp s <| g_dernier_sch := g_dernier_sch (s_bsp s) |> |> = s) by (by destruct s as [[] ? ? ?]).
  destruct (negb _ || _); [exists (g_dernier_sch (s_bsp s)); by rewrite E|].
  destruct (1 <? _); [by eexists|].
  unfold one_shot. rewrite (stream_one_shot _ Hok). cbn [negb]. rewrite orb_true_r. exists (g_dernier_sch (s_bsp s)). by rewrite E.
Qed.

(** What the tick and the kept synchronisation burst do not change. *)
Definition ticked (b : bsp) (tick : Z) (g : sch) : bsp := b <| g_tick_courant := tick |> <| g_dernier_sch := g |>.

Lemma livrer_bits_ticked v b tick g f bits : fst (livrer_bits v (ticked b tick g) f bits) = fst (livrer_bits v b f bits).
Proof.
  unfold livrer_bits, bsp_dedie_bits.
  change (g_dedie_tn (ticked b tick g)) with (g_dedie_tn b). change (g_dedie (ticked b tick g)) with (g_dedie b).
  change (bsp_dedie_trame v (ticked b tick g) f) with (bsp_dedie_trame v b f).
  change (bsp_autres_bits (ticked b tick g) f (g_dedie_tn b)) with (bsp_autres_bits b f (g_dedie_tn b)).
  case_if; [|done]. destruct (g_dedie_tn b <=? 0); [done|]. destruct (entry_lookup _ _ _); [done|].
  destruct (dedie_strict v); [done|]. by destruct (bsp_autres_bits _ _ _).
Qed.

Lemma frame_words_quiet b b' filler iq0 f :
  quiet b b' → frame_words b' filler iq0 (autre_iq b' filler f) = frame_words b filler iq0 (autre_iq b filler f).
Proof.
  intros (_ & Et & Ea). unfold frame_words, extra. rewrite Et. f_equal. apply List.flat_map_ext. intros tn.
  unfold autre_iq, bsp_autres_bits. by rewrite Ea.
Qed.

Lemma livrer_sent v s tick i :
  on_air s →
  let f := ts0_fn (ts0_at (s_bsp s) i) in
  let l := frame_words (s_bsp s) (remplissage s)
             (livrer_iq (fst (livrer_bits v (s_bsp s) f (ts0_bits (ts0_at (s_bsp s) i)))) f 30000) (autre_iq (s_bsp s) (remplissage s) f) in
  room s l →
  sent s l (bsp_ts0_livrer v s tick i) ∧ bsp_source_toutes_ts (s_bsp (bsp_ts0_livrer v s tick i)) = true.
Proof.
  intros Ha f l Hr. destruct (livrer_continuous v s tick i (oa_stream _ Ha)) as (b & Q & _ & ->). fold f.
  set (iq0 := livrer_iq _ f 30000) in *. set (s1 := s <| s_bsp := b |>). pose proof Q as (Q1 & Q2 & _).
  assert (S0 : sent s [] s1) by (apply sent_bsp; [done|rewrite Q1; apply Ha|done]).
  assert (El : l = frame_words (s_bsp s1) (remplissage s1) iq0 (autre_iq (s_bsp s1) (remplissage s1) f))
    by (symmetry; exact (frame_words_quiet (s_bsp s) b (remplissage s) iq0 f Q)).
  destruct (frame_sent (λ b filler tn, autre_iq b filler f tn) s1 f iq0) as (S1 & _ & T1).
  - intros b1 b2 filler tn. apply autre_iq_base.
  - intros b1 filler tn. apply autre_iq_len.
  - apply S0.
  - unfold iq0, zlen. rewrite livrer_iq_len. lia.
  - exact (eq_ind l (λ l, room s1 l) Hr _ El).
  - split; [|exact T1]. rewrite El. exact (sent_trans s [] s1 _ _ S0 S1).
Qed.

Lemma effacer_continuous s f :
  one_shot s = false →
  effacer s f =
    let s1 := rx_others (λ _ filler _, take 296 filler) (count_written (calypso_bsp_rx_burst s 0 f (zeros 296))) f in
    s1 <| s_bsp := s_bsp s1 <| g_ts0_silences := g_ts0_silences (s_bsp s1) + 1 |> |>.
Proof. intros E. unfold effacer. rewrite E. reflexivity. Qed.

Lemma erasure_sent s f :
  on_air s →
  let l := frame_words (s_bsp s) (remplissage s) (zeros 296) (λ _, take 296 (remplissage s)) in
  let s' := rx_others (λ _ filler _, take 296 filler) (count_written (calypso_bsp_rx_burst s 0 f (zeros 296))) f in
  room s l → sent s l s' ∧ bsp_source_toutes_ts (s_bsp s') = true.
Proof.
  intros Ha l s' Hr. destruct (frame_sent (λ _ filler _, take 296 filler) s f (zeros 296)) as (S1 & _ & T1).
  - done.
  - intros _ filler tn Hf. unfold zlen. rewrite length_take. lia.
  - exact Ha.
  - unfold zlen, zeros. rewrite length_replicate. lia.
  - exact Hr.
  - split; [exact S1|exact T1].
Qed.

Lemma effacer_sent s f :
  on_air s →
  let l := frame_words (s_bsp s) (remplissage s) (zeros 296) (λ _, take 296 (remplissage s)) in
  room s l → sent s l (effacer s f) ∧ bsp_source_toutes_ts (s_bsp (effacer s f)) = true.
Proof.
  intros Ha l Hr. rewrite effacer_continuous by exact (stream_one_shot _ (oa_stream _ Ha)). cbv zeta.
  pose proof (erasure_sent s f Ha Hr) as E. cbv zeta in E. revert E. fold l. generalize (rx_others (λ _ filler _, take 296 filler) (count_written (calypso_bsp_rx_burst s 0 f (zeros 296))) f).
  intros s1 [S1 T1]. split; [by apply sent_then_bsp|exact T1].
Qed.

Lemma sent_refl s : on_air s → sent s [] s.
Proof. intros Ha. constructor; [intros; rewrite app_nil_r; apply rtc_refl|cbn; lia|exact Ha|done|done]. Qed.

(** The flag that other timeslots come follows the first frame. *)
Definition flagged (s : st) (l : list Z) (s' : st) : Prop :=
  bsp_source_toutes_ts (s_bsp s') = bsp_source_toutes_ts (s_bsp s) || negb (bool_decide (l = [])).

Lemma frame_words_flagged s b filler iq0 g s' :
  zlen iq0 ≤ 296 → bsp_source_toutes_ts (s_bsp s') = true → flagged s (frame_words b filler iq0 g) s'.
Proof.
  intros Hi Ht. unfold flagged. rewrite Ht. rewrite bool_decide_eq_false_2; [by rewrite orb_true_r|].
  intros E. apply (f_equal length) in E. unfold frame_words in E. rewrite !length_app in E. cbn [length] in E.
  pose proof (length_slot 0 iq0 Hi) as L. unfold zlen in L. change (ts_words 0) with 312 in L. lia.
Qed.

Lemma jouer_sent v s tick :
  on_air s → room s (play_words v (s_bsp s) (remplissage s) tick) →
  sent s (play_words v (s_bsp s) (remplissage s) tick) (ts0_jouer v s tick) ∧
  flagged s (play_words v (s_bsp s) (remplissage s) tick) (ts0_jouer v s tick).
Proof.
  intros Ha. unfold ts0_jouer, play_words. cbv zeta. generalize (Z.to_nat BSP_TS0_RING). intros N.
  destruct (g_ts0_offset (s_bsp s)) as [off|].
  - unfold ts0_lookup. set (f := frame_of tick off). set (i := f mod BSP_TS0_RING). cbv zeta.
    destruct (ts0_valid (ts0_at (s_bsp s) i) && (ts0_fn (ts0_at (s_bsp s) i) =? f)) eqn:Ev; intros Hr.
    + apply andb_true_iff in Ev as [_ Ef%Z.eqb_eq]. pose proof (livrer_sent v s tick i Ha) as L. cbv zeta in L.
      rewrite Ef in L. destruct (L Hr) as [S T]. split; [exact S|]. apply frame_words_flagged; [unfold zlen; rewrite livrer_iq_len; lia|exact T].
    + set (b1 := if (0 <? _) && _ then _ else _).
      assert (Q : daram_addr b1 = daram_addr (s_bsp s) ∧ bsp_source_toutes_ts b1 = bsp_source_toutes_ts (s_bsp s)) by (unfold b1; by case_if).
      clearbody b1. destruct Q as [Q1 Q2].
      assert (S2 : sent s [] (s <| s_bsp := b1 |>)) by (apply sent_bsp; [done|rewrite Q1; apply Ha|exact Q2]).
      pose proof (effacer_sent (s <| s_bsp := b1 |>) f (sent_air _ _ _ S2)) as E. cbv zeta in E.
      unfold frame_words, extra in *. change (s_bsp (s <| s_bsp := b1 |>)) with b1 in E. rewrite Q2 in E. destruct (E Hr) as [S3 T3].
      split; [exact (sent_trans s [] _ _ _ S2 S3)|]. by apply (frame_words_flagged s (s_bsp s)).
  - destruct (first_unplayed N _ _) as [i|]; intros Hr; [|by split; [apply sent_refl|unfold flagged; rewrite orb_false_r]].
    destruct (livrer_sent v s tick i Ha Hr) as [S2 T2]. revert S2 T2. generalize (bsp_ts0_livrer v s tick i). intros s2 S2 T2.
    split; [by apply sent_then_bsp|]. apply frame_words_flagged; [unfold zlen; rewrite livrer_iq_len; lia|exact T2].
Qed.

Lemma play_words_ticked v b tick g filler : play_words v (ticked b tick g) filler tick = play_words v b filler tick.
Proof.
  unfold play_words. cbv zeta. generalize (Z.to_nat BSP_TS0_RING). intros N.
  assert (Eu : ∀ n k, first_unplayed n (ticked b tick g) k = first_unplayed n b k) by (induction n as [|n IH]; intros k; cbn; [done|by rewrite IH]).
  change (g_ts0_offset (ticked b tick g)) with (g_ts0_offset b). change (ts0_lookup (ticked b tick g)) with (ts0_lookup b).
  rewrite Eu. destruct (g_ts0_offset b); [destruct (ts0_lookup b _)|destruct (first_unplayed _ _ _)]; rewrite ?livrer_bits_ticked; done.
Qed.

(** A tick in continuous mode feeds exactly the words it must play. *)
Lemma service_sent v s tick :
  on_air s → room s (tick_words v (s_bsp s) (remplissage s) tick) →
  sent s (tick_words v (s_bsp s) (remplissage s) tick) (bsp_ts0_service v s tick) ∧
  flagged s (tick_words v (s_bsp s) (remplissage s) tick) (bsp_ts0_service v s tick).
Proof.
  intros Ha. unfold bsp_ts0_service, tick_words. destruct (negb (bool_decide _) || _); intros Hr; [by split; [apply sent_refl|unfold flagged; rewrite orb_false_r]|].
  cbv zeta. match goal with |- context [calypso_bsp_sb_retenter ?x] => destruct (sb_retenter_continuous x (oa_stream _ Ha)) as [g ->] end.
  cbv beta iota. match goal with |- context [ts0_jouer v ?x tick] => change x with (s <| s_bsp := ticked (s_bsp s) tick g |>) end.
  assert (S1 : sent s [] (s <| s_bsp := ticked (s_bsp s) tick g |>)) by (apply sent_bsp; [done|apply Ha|done]).
  pose proof (jouer_sent v (s <| s_bsp := ticked (s_bsp s) tick g |>) tick (sent_air _ _ _ S1)) as J.
  change (s_bsp (s <| s_bsp := ticked (s_bsp s) tick g |>)) with (ticked (s_bsp s) tick g) in J.
  change (remplissage (s <| s_bsp := ticked (s_bsp s) tick g |>)) with (remplissage s) in J.
  rewrite play_words_ticked in J. destruct (J Hr) as [S2 T2]. split; [exact (sent_trans s [] _ _ _ S1 S2)|exact T2].
Qed.

(** The stores a datagram fills do not disturb the path. *)
Definition kept (b b' : bsp) : Prop := daram_addr b' = daram_addr b ∧ bsp_source_toutes_ts b' = bsp_source_toutes_ts b.

Lemma path_kept_trans b b1 b2 : kept b b1 → kept b1 b2 → kept b b2.
Proof. intros [] []. split; congruence. Qed.
Lemma ts0_stocker_kept b f bits : kept b (bsp_ts0_stocker b f bits).
Proof. unfold bsp_ts0_stocker. cbv zeta. repeat case_if; done. Qed.
Lemma autres_stocker_kept b f tn bits : kept b (bsp_autres_stocker b f tn bits).
Proof. unfold bsp_autres_stocker. by case_if. Qed.
Lemma dedie_stocker_kept b f bits : kept b (bsp_dedie_stocker b f bits).
Proof. unfold bsp_dedie_stocker. by destruct (g_dedie b). Qed.

Lemma trxd_kept b d : kept b (bsp_trxd_readable b d).
Proof.
  unfold bsp_trxd_readable. generalize (take 4096 d). intros buf. cbv zeta. case_if; [done|]. case_if; [done|].
  set (b1 := b <| last_att := _ |>). assert (K : kept b b1) by done. clearbody b1. apply (path_kept_trans _ _ _ K).
  case_if; [done|]. case_if; [apply ts0_stocker_kept|].
  set (b2 := if (_ =? g_dedie_tn b1) && _ then _ else b1).
  assert (K2 : kept b1 b2) by (unfold b2; case_if; [apply dedie_stocker_kept|done]). clearbody b2. apply (path_kept_trans _ _ _ K2).
  case_if; [|done]. apply (autres_stocker_kept b2).
Qed.

Lemma drain_kept n b sock :
  daram_addr (fst (drain_socket n b sock)) = daram_addr b ∧
  bsp_source_toutes_ts (fst (drain_socket n b sock)) = bsp_source_toutes_ts b.
Proof.
  revert b sock. induction n as [|n IH]; intros b [|d sock]; cbn [drain_socket fst]; try done.
  destruct (trxd_kept b d) as [E1 E2]. destruct (_ =? _); cbn [fst]; [done|]. rewrite <- E1, <- E2. apply IH.
Qed.

(** A tick with its datagrams feeds the words of the stores they leave. *)
Lemma tick_sent v s sock tick :
  let l := tick_words v (fst (drain_socket 256 (s_bsp s) sock)) (remplissage s) tick in
  on_air s → room s l →
  sent s l (fst (calypso_bsp_service v s sock tick)) ∧
  flagged s l (fst (calypso_bsp_service v s sock tick)).
Proof.
  intros l Ha Hr. unfold calypso_bsp_service, l in *. clear l. destruct (drain_kept 256 (s_bsp s) sock) as [E1 E2].
  destruct (drain_socket 256 (s_bsp s) sock) as [b rest]. cbn [fst] in *.
  assert (S0 : sent s [] (s <| s_bsp := b |>)) by (apply sent_bsp; [done|rewrite E1; apply Ha|done]).
  destruct (service_sent v (s <| s_bsp := b |>) tick (sent_air _ _ _ S0) Hr) as [S1 T1].
  split; [exact (sent_trans s [] _ _ _ S0 S1)|]. unfold flagged in *. by rewrite <- E2.
Qed.

(** The words of a whole frame: 1250 symbols, and 1094 more while no other
    timeslot has been delivered. *)
Definition frame_len (b : bsp) : nat := if bsp_source_toutes_ts b then 2500 else 4688.

Lemma extra_length b filler :
  length filler = 314%nat → length (extra b filler 0) = if bsp_source_toutes_ts b then 0%nat else 2188%nat.
Proof.
  intros Hf. unfold extra. cbn [Z.eqb andb]. destruct (bsp_source_toutes_ts b); cbn [negb]; [done|].
  assert (L : ∀ ks, length (flat_map (λ ts, apply_phase (take (Z.to_nat (ts_words ts)) filler)) ks) =
    foldr (λ tn n, (Z.to_nat (ts_words tn) + n)%nat) 0%nat ks).
  { induction ks as [|k ks IH]; cbn [flat_map foldr]; [done|].
    rewrite length_app, apply_phase_len, length_take, IH. pose proof (ts_words_range k). lia. }
  rewrite L. reflexivity.
Qed.

Lemma frame_words_length b filler iq0 g :
  length filler = 314%nat → zlen iq0 = 296 → (∀ tn, zlen (g tn) ≤ 296) → length (frame_words b filler iq0 g) = frame_len b.
Proof.
  intros Hf Hi Hg. unfold frame_words, frame_len.
  assert (L : ∀ tn, length (slot tn (g tn)) = Z.to_nat (ts_words tn)).
  { intros tn. pose proof (length_slot tn (g tn) (Hg tn)). unfold zlen in *. lia. }
  pose proof (length_slot 0 iq0 ltac:(lia)) as L0. unfold zlen in L0. change (ts_words 0) with 312 in L0.
  assert (S : ∀ ks, length (flat_map (λ tn, slot tn (g tn)) ks) = foldr (λ tn n, (Z.to_nat (ts_words tn) + n)%nat) 0%nat ks)
    by (induction ks as [|k ks IH]; cbn [flat_map foldr]; [done|by rewrite length_app, L, IH]).
  rewrite !length_app, S, (extra_length b filler Hf). change (foldr _ _ (zseq 1 7)) with 2188%nat. destruct (bsp_source_toutes_ts b); lia.
Qed.

Lemma tick_words_length v b filler tick :
  length filler = 314%nat → tick_words v b filler tick = [] ∨ length (tick_words v b filler tick) = frame_len b.
Proof.
  intros Hf. unfold tick_words. destruct (_ || _); [by left|]. unfold play_words. cbv zeta.
  assert (P : ∀ f bits, length (frame_words b filler (livrer_iq bits f 30000) (autre_iq b filler f)) = frame_len b).
  { intros f bits. apply frame_words_length; [done|unfold zlen; rewrite livrer_iq_len; lia|]. intros tn. by apply autre_iq_len. }
  destruct (g_ts0_offset b); [right|].
  - destruct (ts0_lookup _ _); [apply P|]. apply frame_words_length; [done|done|]. intros tn. unfold zlen. rewrite length_take. lia.
  - destruct (first_unplayed _ _ _); [right; apply P|by left].
Qed.

(** ** The stream from the datagrams to the pages of the DSP *)

(** The BSP and the receive path, what the pages held at their
    acknowledgements, and the words each tick had to play. *)
Record bconf := mkB { bc_st : st; bc_last : bool; bc_out : list Z; bc_frames : list (list Z) }.
Definition rx_conf (c : bconf) (inp : list Z) : conf := mkConf (s_w (bc_st c)) (bc_last c) (bc_out c) inp.
Definition rx_move (c : bconf) (r : conf) : bconf :=
  mkB (bc_st c <| s_w := c_world r |>) (c_last r) (c_out r) (bc_frames c).

Inductive bstep (v : env) : bconf → bconf → Prop :=
| b_tick c sock tick :
    let s := bc_st c in
    let l := tick_words v (fst (drain_socket 256 (s_bsp s) sock)) (remplissage s) tick in
    room s l →
    bstep v c (mkB (fst (calypso_bsp_service v s sock tick)) (bc_last c) (bc_out c) (bc_frames c ++ [l]))
| b_pump c : bstep v c (rx_move c (mkConf (snd (calypso_rhea_dma_pump (s_w (bc_st c)))) (bc_last c) (bc_out c) []))
| b_ack c : bstep v c (rx_move c (ack (rx_conf c [])))
| b_dsp c d :
    dsp_safe d = true → keeps_pages (s_w (bc_st c)) d →
    bstep v c (rx_move c (mkConf (s_w (bc_st c) <| w_dsp := d |>) (bc_last c) (bc_out c) [])).

(** A tick with nothing to play adds no words; the first frame that is played
    has fifteen timeslots when no other timeslot was delivered before the start
    ([toutes] false), every other frame 1250 symbols of two words. *)
Fixpoint frames_ok (toutes : bool) (ls : list (list Z)) : Prop :=
  match ls with
  | [] => True
  | l :: ls => (l = [] ∧ frames_ok toutes ls) ∨ (length l = (if toutes then 2500 else 4688)%nat ∧ frames_ok true ls)
  end.

(** Whether a frame has been played. *)
Definition heard (toutes : bool) (ls : list (list Z)) : bool := toutes || existsb (λ l, negb (bool_decide (l = []))) ls.

Lemma frames_ok_snoc toutes ls l :
  frames_ok toutes ls → l = [] ∨ length l = (if heard toutes ls then 2500 else 4688)%nat → frames_ok toutes (ls ++ [l]).
Proof.
  revert toutes. induction ls as [|x ls IH]; intros toutes Hls Hl; cbn [app frames_ok] in *.
  - unfold heard in Hl. cbn [existsb] in Hl. rewrite orb_false_r in Hl. destruct Hl; [left|right]; done.
  - destruct Hls as [[-> Hls]|[Hx Hls]]; [left; split; [done|]; by apply IH|]. right. split; [done|]. apply IH; [done|].
    destruct Hl as [->|Hl]; [by left|right]. rewrite Hl. unfold heard. cbn [existsb].
    rewrite (bool_decide_eq_false_2 (x = [])); [by rewrite orb_true_r|]. intros ->. by destruct toutes.
Qed.

Record binv (toutes : bool) (init : list Z) (c : bconf) : Prop := mkBinv {
  bi_rx : rx_inv (rx_conf c (init ++ concat (bc_frames c)));
  bi_air : on_air (bc_st c);
  bi_toutes : bsp_source_toutes_ts (s_bsp (bc_st c)) = heard toutes (bc_frames c);
  bi_frames : frames_ok toutes (bc_frames c)
}.

(** A step of the receive path without arrival. *)
Lemma binv_move toutes init c r :
  binv toutes init c → rx_step (rx_conf c (init ++ concat (bc_frames c))) (mkConf (c_world r) (c_last r) (c_out r) (init ++ concat (bc_frames c))) →
  binv toutes init (rx_move c r).
Proof.
  intros [Hrx [A1 A2 A3] Ht Hf] Hs. pose proof (rx_inv_step _ _ Hs Hrx) as Hrx'.
  constructor; [exact Hrx'| |exact Ht|exact Hf]. constructor; [exact (inv_ok _ Hrx')|exact A2|exact A3].
Qed.

Lemma binv_step v toutes init c c' : bstep v c c' → binv toutes init c → binv toutes init c'.
Proof.
  intros [c0 sock tick s l Hr|c0|c0|c0 d Hs Hk] Hi.
  - pose proof Hi as [Hrx Ha Ht Hf]. destruct (tick_sent v s sock tick Ha Hr) as [S T]. fold l in S. constructor; cbn [bc_st bc_frames].
    + assert (R : ∀ x y, rtc rx_step x y → rx_inv x → rx_inv y) by (induction 1 as [|x y z Hx _ IH]; [done|]; intros I; by apply IH, (rx_inv_step x)).
      rewrite concat_app. cbn [concat]. rewrite app_nil_r, app_assoc. exact (R _ _ (sent_steps _ _ _ S _ _ _) Hrx).
    + apply S.
    + unfold heard. rewrite existsb_app. cbn [existsb]. rewrite orb_false_r, orb_assoc. fold (heard toutes (bc_frames c0)).
      rewrite <- Ht. exact T.
    + apply frames_ok_snoc; [done|]. rewrite <- Ht, <- (proj2 (drain_kept 256 (s_bsp (bc_st c0)) sock)).
      apply tick_words_length, Ha.
  - apply binv_move; [done|]. exact (step_pump (rx_conf c0 _)).
  - apply binv_move; [done|].
    assert (E : ack (rx_conf c0 (init ++ concat (bc_frames c0))) =
      mkConf (c_world (ack (rx_conf c0 []))) (c_last (ack (rx_conf c0 []))) (c_out (ack (rx_conf c0 []))) (init ++ concat (bc_frames c0))).
    { unfold ack, rx_conf. cbn [c_world c_last c_out c_in]. destruct (calypso_rhea_dma_read _ _). by destruct (has _ _). }
    rewrite <- E. apply step_ack.
  - apply binv_move; [done|]. exact (step_dsp (rx_conf c0 _) d Hs Hk).
Qed.


End continuous.

(** ** A run with a simple modulator: frame 7 at tick 100, an acknowledgement,
    then a tick without burst *)
#[local, refine] Instance hard_radio : Radio := {|
  apply_phase l := l;
  gmsk_moduler bits amp := flat_map (λ k, [if has (rd bits k) 1 then - amp else amp; 0]) (zseq 0 148);
  gmsk_elargir l := l;
  sb_moduler bits _ := flat_map (λ k, [if has (rd bits k) 1 then - 30000 else 30000; 0]) (zseq 0 148);
  nb_amp _ := 30000 |}.
Proof. all: done. Defined.

Definition demo_dgram (tn f : Z) : list Z := [tn; 0; 0; 0; f; 60; 0; 0] ++ take 148 (mjoin (replicate 50 [0; 1; 1])).
Definition demo_st : st :=
  mkSt (bsp_init <| bsp_source_toutes_ts := true |> <| g_ts0_offset := Some (-93) |>) demo_world (replicate 314 0) true.
Definition demo_tick (c : bconf) (sock : list (list Z)) (tick : Z) : bconf :=
  let s := bc_st c in
  mkB (fst (calypso_bsp_service env_default s sock tick)) (bc_last c) (bc_out c)
    (bc_frames c ++ [tick_words env_default (fst (drain_socket 256 (s_bsp s) sock)) (remplissage s) tick]).
Definition demo0 : bconf := mkB demo_st false [] [].
Definition demo1 : bconf := demo_tick demo0 [demo_dgram 0 7; demo_dgram 2 7] 100.
Definition demo2 : bconf := rx_move demo1 (ack (rx_conf demo1 [])).
Definition demo3 : bconf := demo_tick demo2 [] 101.


(** While no other timeslot has been delivered, the fillers of
    [calypso_bsp_rx_burst] come on top of those of the delivery: the first frame
    of the stream carries fifteen timeslots. *)
Example first_frame_fifteen :
  let s := demo_st <| s_bsp := s_bsp demo_st <| bsp_source_toutes_ts := false |> |> in
  let '(s1, _) := calypso_bsp_service env_default s [demo_dgram 0 7] 100 in
  let '(s2, _) := calypso_bsp_service env_default s1 [] 101 in
  calypso_rif_level (w_rif (s_w s1)) = 2500 + 2188 - 4 ∧
  calypso_rif_level (w_rif (s_w s2)) - calypso_rif_level (w_rif (s_w s1)) = 2500.
Proof. vm_compute. done. Qed.

End BspStream.
