(* ===== verification/BspWindow.v ===== *)
(** * Bursts in one-shot windows ([hw/arm/calypso/l1-dsp/calypso_bsp.c])

    Outside the frequency search the DSP arms a window of one page: the burst of
    the frame is placed in it behind a few silent samples.  The theorems follow a
    synchronisation burst from its delivery into the API page and to the offset
    between ticks and frames it sets, when its window is armed at its tick and
    when it is armed one tick later. *)
From stdpp Require Import gmap.
From S2P Require Import Prelude C54xState C54xIrq Rif RheaDma BspStore BspStream.

Module BspWindow.
Import C54xState C54xIrq Rif RheaDma BspStore BspStream.

Lemma announce_frame bit w :
  w_rd (announce bit w) = w_rd w ∧ w_rif (announce bit w) = w_rif w ∧
  (dsp_safe (w_dsp w) = true →
   api_ram (w_dsp (announce bit w)) = api_ram (w_dsp w) ∧ dsp_safe (w_dsp (announce bit w)) = true).
Proof.
  unfold announce. destruct (has _ _); [done|]. split; [done|]. split; [done|]. intros Hs.
  destruct (interrupt_safe (w_dsp w) C54X_IT_DMA_VEC C54X_IT_DMA_BIT Hs) as [A B]. split; [exact A|].
  cbn [calypso_bsp_deliver w_dsp update_field]. set (d := c54x_interrupt_ex _ _ _) in *. clearbody d.
  unfold dsp_safe in *. cbn [idle update_field negb andb].
  change (stack_cell (d <| idle := false |>)) with (stack_cell d). change (st1 (d <| idle := false |>)) with (st1 d).
  destruct (has (st1 d) ST1_INTM); [done|]. by rewrite andb_false_r in B.
Qed.

Lemma armed_dsp w api d :
  one_shot_armed w api → dsp_safe d = true → api_ram d = Some api → one_shot_armed (w <| w_dsp := d |>) api.
Proof. intros [] Hd Ha. by constructor. Qed.

Lemma armed_announce bit w api : one_shot_armed w api → one_shot_armed (announce bit w) api.
Proof.
  intros Hos. destruct (announce_frame bit w) as (E1 & E2 & E3). destruct (E3 (os_dsp _ _ Hos)) as [A B].
  destruct Hos as [h1 h2 h3 h4 h5 h6 h7 h8 h9]. constructor; rewrite ?E1, ?E2, ?A; done.
Qed.

Lemma rx_complete_safe w : dsp_safe (w_dsp w) = true → dsp_safe (w_dsp (rx_complete w)) = true.
Proof.
  intros Hs. unfold rx_complete. cbv zeta. set (w1 := if has _ CTRL_ONE_SHOT then _ else _).
  assert (E : w_dsp w1 = w_dsp w) by (unfold w1; by case_if). case_if; [|by rewrite E].
  cbn [w_dsp update_field]. rewrite E. by apply interrupt_safe.
Qed.

(** The receiver has room for the samples of a window behind what waits in it. *)
Definition rx_room (w : world) : Prop := (length (rif_queue (w_rif w)) + 512 ≤ RIF_STAGE_MAX)%nat.
Lemma rx_room_empty w : rif_queue (w_rif w) = [] → rx_room w.
Proof. unfold rx_room. intros ->. apply Nat.leb_le. vm_compute. reflexivity. Qed.

(** The words [l] end in the page of the window, which closes. *)
Record windowed (w : world) (api : gmap Z Z) (l : list Z) (w' : world) : Prop := mkWindowed {
  wd_page : ∃ api', api_ram (w_dsp w') = Some api' ∧ page api' (ch_dst (chn w)) (Z.of_nat (length l)) = l ∧
              ∀ i, i < ch_dst (chn w) ∨ ch_dst (chn w) + Z.of_nat (length l) ≤ i → mget api' i = mget api i;
  wd_level : calypso_rhea_dma_irq_level (w_rd w') = true;
  wd_closed : calypso_rhea_dma_rx_armed (w_rd w') = false;
  wd_safe : dsp_safe (w_dsp w') = true
}.

Lemma rif_burst_request w api l :
  one_shot_armed w api → rx_room w → has (spcr (w_rif w)) SPCR_RDMA_MASK = false → (0 < length l ≤ 512)%nat →
  ∃ w2, calypso_rif_rx_burst w l = calypso_rhea_dma_rx_request w2 ∧ one_shot_armed w2 api ∧
    rif_queue (w_rif w2) = rif_queue (w_rif w) ++ l ∧ w_rd w2 = w_rd w.
Proof.
  intros Hos Hq Hm Hl. unfold calypso_rif_rx_burst. rewrite (proj2 (Nat.eqb_neq _ _)) by lia.
  assert (calypso_rhea_dma_rx_armed (w_rd w) = true) as ->
    by (unfold calypso_rhea_dma_rx_armed; by rewrite (os_enable _ _ Hos), (os_dir _ _ Hos)).
  destruct (append_spec (w_rif w) l (os_rif _ _ Hos)) as (R1 & R2 & R3 & _).
  { unfold rx_room in Hq. lia. }
  revert R1 R2 R3. generalize (rif_append (w_rif w) l). intros r R1 R2 R3.
  assert (O1 : one_shot_armed (w <| w_rif := r |>) api) by (destruct Hos; by constructor).
  cbv zeta. change (spcr (w_rif (w <| w_rif := r |>))) with (spcr r). rewrite R3, Hm. cbn [negb].
  eexists. split; [reflexivity|]. destruct (negb _); [|done].
  destruct (interrupt_safe (w_dsp w) C54X_IT_RIF_RX_VEC C54X_IT_RIF_RX_BIT (os_dsp _ _ Hos)) as [A B].
  split; [|done]. apply armed_dsp; [done|exact B|]. exact (eq_trans A (os_api _ _ Hos)).
Qed.

Lemma rif_burst_window w api l :
  one_shot_armed w api → rx_room w → has (spcr (w_rif w)) SPCR_RDMA_MASK = false →
  (0 < length l ≤ 512)%nat →
  windowed w api (take (Z.to_nat (ch_page (chn w))) (rif_queue (w_rif w) ++ l)) (calypso_rif_rx_burst w l).
Proof.
  intros Hos Hq Hm Hl. destruct (rif_burst_request w api l Hos Hq Hm Hl) as (w2 & -> & O2 & Q2 & E3).
  assert (Hne : rif_queue (w_rif w2) ≠ []) by (rewrite Q2; destruct l; [cbn in Hl; lia|by intros [_ [=]]%app_nil]).
  destruct (one_shot_window w2 api O2 Hne) as (A & _ & B & C & _). rewrite Q2, E3 in A.
  destruct (rx_request_one_shot w2 api O2 Hne) as (r' & c' & _ & Ew).
  constructor; [exact A|exact B|exact C|]. rewrite Ew. apply rx_complete_safe. exact (os_dsp _ _ O2).
Qed.

Section window.
  Context `{Radio}.

(** The silence before the burst, the burst, the silence after it. *)
Lemma cadre_spec marge total iq :
  0 ≤ marge → marge + 148 ≤ total → length iq = 296%nat →
  cadre marge total iq = zeros (2 * marge) ++ iq ++ zeros (2 * (total - marge - 148)).
Proof.
  intros Hm Ht Hl. unfold cadre, zeros. rewrite take_app_ge, length_replicate by (rewrite length_replicate; lia).
  rewrite take_app_ge, Hl by lia. rewrite take_replicate. do 2 f_equal. f_equal. lia.
Qed.

Lemma length_cadre marge total iq :
  0 ≤ marge → marge + 148 ≤ total → length iq = 296%nat → length (cadre marge total iq) = Z.to_nat (2 * total).
Proof.
  intros Hm Ht Hl. rewrite cadre_spec by done. unfold zeros. rewrite !length_app, !length_replicate. lia.
Qed.

(** A window of [n] samples is armed; words may wait in the receiver. *)
Record window (s : st) (api : gmap Z Z) (n : Z) : Prop := mkWindow {
  wi_armed : one_shot_armed (s_w s) api;
  wi_room : rx_room (s_w s);
  wi_rdma : has (spcr (w_rif (s_w s))) SPCR_RDMA_MASK = false;
  wi_len : page_prog s = n;
  wi_daram : daram_addr (s_bsp s) ≠ 0
}.

Lemma window_one_shot s api n : window s api n → one_shot s = true ∧ armee s = true.
Proof.
  intros [Hos _ _ _ _]. unfold one_shot, armee, calypso_rhea_dma_one_shot, calypso_rhea_dma_rx_armed.
  by rewrite (os_enable _ _ Hos), (os_shot _ _ Hos), (os_dir _ _ Hos).
Qed.

(** What a window takes of a block: the words that wait and the block, up to
    its page. *)
Definition taken (w : world) (l : list Z) : list Z := take (Z.to_nat (ch_page (chn w))) (rif_queue (w_rif w) ++ l).

Lemma window_page s api n : window s api n → ch_page (chn (s_w s)) / 2 = n.
Proof.
  intros [Hos _ _ Hp _]. rewrite <- Hp. unfold page_prog, calypso_rhea_dma_get_len_words, ch_page. pose proof (os_algth _ _ Hos).
  rewrite (u16_small (algth (chn (s_w s)) / 2)) by mlia. done.
Qed.

(** A window of up to 192 samples takes the whole block of its length when
    nothing waits before it. *)
Lemma taken_all s api n l : window s api n → rif_queue (w_rif (s_w s)) = [] → length l = Z.to_nat (2 * n) → taken (s_w s) l = l.
Proof. intros Hw Hq Hl. pose proof (window_page _ _ _ Hw). unfold taken. rewrite Hq. apply take_ge. mlia. Qed.

Lemma rx_burst_window s api n f iq :
  window s api n → length iq = Z.to_nat (2 * n) → 1 ≤ n ≤ 192 →
  let s' := calypso_bsp_rx_burst s 0 f iq in
  windowed (s_w s) api (taken (s_w s) (apply_phase (u16 <$> iq))) (s_w s') ∧ base (s_bsp s') = base (s_bsp s) ∧
  bsp_source_toutes_ts (s_bsp s') = bsp_source_toutes_ts (s_bsp s).
Proof.
  intros Hw Hl Hn. destruct (window_one_shot _ _ _ Hw) as [Ho _]. destruct Hw as [Hos Hq Hm Hp Hd].
  unfold calypso_bsp_rx_burst. cbv zeta. unfold zlen. rewrite (proj2 (Z.leb_gt _ _)) by lia.
  unfold one_shot in Ho. rewrite Ho. cbn [negb andb]. rewrite andb_false_r.
  set (b1 := if negb (_ =? 0) && _ then _ else _).
  assert (B1 : base b1 = base (s_bsp s) ∧ daram_addr b1 ≠ 0 ∧ bsp_source_toutes_ts b1 = bsp_source_toutes_ts (s_bsp s))
    by (unfold b1; repeat case_if; bool_prop; done).
  clearbody b1. destruct B1 as (B1 & B2 & B3). rewrite (proj2 (Z.eqb_neq _ _) B2). cbn [negb Z.eqb].
  rewrite (take_ge iq) by (change (Z.to_nat BSP_IQ_MAX_I16) with 384%nat; lia).
  cbn [s_bsp s_w update_field]. split; [|split; [exact B1|exact B3]].
  set (w1 := if dsp_running s then _ else _).
  assert (O1 : one_shot_armed w1 api ∧ w_rif w1 = w_rif (s_w s) ∧ w_rd w1 = w_rd (s_w s)).
  { unfold w1. destruct (dsp_running s); [|done]. split; [by apply armed_announce|]. destruct (announce_frame C54X_IT_DMA_BIT (s_w s)) as (? & ? & _). done. }
  destruct O1 as (O1 & E1 & E2). clearbody w1. unfold c54x_bsp_load. cbv zeta.
  rewrite take_ge by (rewrite length_fmap; lia). rewrite (proj2 (Z.ltb_ge _ _)) by (unfold zlen; rewrite length_fmap; lia).
  set (l := apply_phase (u16 <$> iq)). assert (Ll : length l = Z.to_nat (2 * n)) by (unfold l; by rewrite apply_phase_len, length_fmap).
  destruct (rif_burst_window w1 api l O1) as [W1 W2 W3 W4].
  { unfold rx_room. by rewrite E1. } { by rewrite E1. } { lia. }
  rewrite E1, E2 in W1. fold (taken (s_w s) l) in W1. set (w2 := calypso_rif_rx_burst w1 l) in *. clearbody w2. destruct (announce_frame 5 w2) as (F1 & _ & F3).
  destruct (F3 W4) as [F3a F3b]. constructor; [|by rewrite F1..|exact F3b]. rewrite F3a. exact W1.
Qed.

(** ** A synchronisation burst in its window *)

(** The samples of the window, and the clock it gives. *)
Definition sb_block (n f : Z) (bits : list Z) : list Z :=
  apply_phase (u16 <$> (zeros 42 ++ sb_moduler bits f ++ zeros (2 * (n - 169)))).
Definition clock_at (b : bsp) (tick f : Z) : Prop := ∀ k, calypso_bsp_fn_bts_du_tick b (tick + k) = Some ((f + k) mod BSP_FN_MAX).

Lemma clock_of_offset b tick f : g_ts0_offset b = Some (f - tick) → clock_at b tick f.
Proof.
  intros E k. unfold calypso_bsp_fn_bts_du_tick. rewrite E. cbn. f_equal. rewrite frame_of_mod. f_equal. lia.
Qed.

Lemma sb_calage_offset b f tick : g_trx_cale b = false → g_ts0_offset (sb_calage b f tick) = Some (f - tick).
Proof. intros E. unfold sb_calage. cbv zeta. destruct (g_off_rac_vu b); cbn [g_trx_cale update_field]; by rewrite E. Qed.

Lemma set_joue_offset b i : g_ts0_offset (set_joue b i) = g_ts0_offset b.
Proof. done. Qed.

Lemma sb_cadre n f bits : 190 ≤ n ≤ 192 →
  cadre 21 n (sb_moduler bits f) = zeros 42 ++ sb_moduler bits f ++ zeros (2 * (n - 169)) ∧
  length (cadre 21 n (sb_moduler bits f)) = Z.to_nat (2 * n).
Proof.
  intros Hn. split; [|apply length_cadre; [lia..|apply sb_len]]. rewrite cadre_spec; [|lia..|apply sb_len]. do 3 f_equal. lia.
Qed.

Lemma sb_block_len n f bits : 190 ≤ n ≤ 192 → length (sb_block n f bits) = Z.to_nat (2 * n).
Proof.
  intros Hn. unfold sb_block. destruct (sb_cadre n f bits Hn) as [E L]. rewrite E in L.
  by rewrite apply_phase_len, length_fmap.
Qed.

Lemma sb_place n : 190 ≤ n ≤ 192 → marge_of n = 21 ∧ total_of n 21 = n.
Proof.
  intros Hn. unfold marge_of, total_of. cbv zeta. change (0 <? 21) with true. change (21 + 148) with 169.
  by rewrite (proj2 (Z.leb_le 190 n)), (proj2 (Z.ltb_lt 169 n)), (proj2 (Z.ltb_ge 256 n)) by lia.
Qed.

Lemma base_offset b b' : base b' = base b → g_ts0_offset b' = g_ts0_offset b ∧ g_trx_cale b' = g_trx_cale b.
Proof.
  intros E. split; [exact (f_equal g_ts0_offset E)|exact (f_equal g_trx_cale E)].
Qed.

Lemma livrer_sb_window v s api n tick i :
  window s api n → 190 ≤ n ≤ 192 → g_dedie_tn (s_bsp s) ≤ 0 → g_trx_cale (s_bsp s) = false →
  bsp_ts0_est_sb (ts0_bits (ts0_at (s_bsp s) i)) = true →
  let f := ts0_fn (ts0_at (s_bsp s) i) in
  let s' := bsp_ts0_livrer v s tick i in
  windowed (s_w s) api (taken (s_w s) (sb_block n f (ts0_bits (ts0_at (s_bsp s) i)))) (s_w s') ∧ g_ts0_offset (s_bsp s') = Some (f - tick).
Proof.
  intros Hw Hn Hd Ht Hsb f s'. destruct (window_one_shot _ _ _ Hw) as [Ho _]. set (bits := ts0_bits _) in *.
  assert (E : s' = count_written (calypso_bsp_rx_burst (s <| s_bsp := set_joue (sb_calage (s_bsp s <| g_dernier_sch := mkSch f tick bits true true |>) f tick) i |>) 0 f
                     (cadre 21 n (sb_moduler bits f)))).
  { unfold s', bsp_ts0_livrer, livrer_bits. fold f bits. rewrite (proj2 (Z.ltb_ge _ _)) by lia. cbn [andb]. cbv zeta. rewrite Hsb, Ho, (wi_len _ _ _ Hw).
    destruct (sb_place n Hn) as [Em Et].
    unfold livrer_iq. rewrite Em, Et, Hsb, (proj2 (Z.leb_le 190 n)), (proj2 (Z.leb_le 150 n)), (proj2 (Z.ltb_ge n 190)) by lia.
    cbn [negb andb g_trx_cale update_field]. rewrite Ht. done. }
  clearbody s'. subst s'. destruct (sb_cadre n f bits Hn) as [Ec Lc]. set (b1 := set_joue _ i).
  assert (B1 : daram_addr b1 ≠ 0 ∧ g_ts0_offset b1 = Some (f - tick)).
  { split; [|unfold b1; rewrite set_joue_offset; apply sb_calage_offset; exact Ht].
    unfold b1, sb_calage. cbv zeta. pose proof (wi_daram _ _ _ Hw). repeat case_if; done. }
  destruct B1 as [B1 B2]. clearbody b1.
  assert (W1 : window (s <| s_bsp := b1 |>) api n) by (destruct Hw; by constructor).
  destruct (rx_burst_window (s <| s_bsp := b1 |>) api n f _ W1 Lc ltac:(lia)) as (W & Eb & _). rewrite Ec in *.
  destruct (base_offset _ _ Eb) as [Eo _]. split; [exact W|]. exact (eq_trans Eo B2).
Qed.

(** The entry of the store a tick plays. *)
Definition playing (b : bsp) (tick : Z) : option Z :=
  match g_ts0_offset b with
  | Some off =>
    let i := frame_of tick off mod BSP_TS0_RING in
    if ts0_valid (ts0_at b i) && (ts0_fn (ts0_at b i) =? frame_of tick off) then Some i else None
  | None => first_unplayed (Z.to_nat BSP_TS0_RING) b (g_ts0_next b)
  end.

Lemma playing_tick b t tick : playing (b <| g_tick_courant := t |>) tick = playing b tick.
Proof.
  unfold playing. generalize (Z.to_nat BSP_TS0_RING). intros N.
  assert (Eu : ∀ n k, first_unplayed n (b <| g_tick_courant := t |>) k = first_unplayed n b k) by (induction n as [|n IH]; intros k; cbn; [done|by rewrite IH]).
  cbn [g_ts0_offset g_ts0_next update_field]. by rewrite Eu.
Qed.

(** The store has bursts and no synchronisation burst is kept. *)
Definition none_kept (b : bsp) : Prop := sch_valide (g_dernier_sch b) = false ∨ livre_sb (g_dernier_sch b) = true.
Definition filled (b : bsp) : Prop := is_Some (g_ts0 b) ∧ g_ts0_any b = true.

Lemma service_none_kept v s tick :
  filled (s_bsp s) → none_kept (s_bsp s) →
  bsp_ts0_service v s tick = ts0_jouer v (s <| s_bsp := s_bsp s <| g_tick_courant := tick |> |>) tick.
Proof.
  intros [Hg Ha] Hk. unfold bsp_ts0_service. rewrite bool_decide_true, Ha by done. cbn [negb orb]. cbv zeta.
  unfold calypso_bsp_sb_retenter. cbv zeta. cbn [s_bsp g_dernier_sch update_field].
  assert (negb (sch_valide (g_dernier_sch (s_bsp s))) || livre_sb (g_dernier_sch (s_bsp s)) = true) as ->
    by (destruct Hk as [-> | ->]; [done|apply orb_true_r]).
  done.
Qed.

Lemma jouer_offset v s tick i :
  playing (s_bsp s) tick = Some i →
  s_w (ts0_jouer v s tick) = s_w (bsp_ts0_livrer v s tick i) ∧
  g_ts0_offset (s_bsp (ts0_jouer v s tick)) = g_ts0_offset (s_bsp (bsp_ts0_livrer v s tick i)).
Proof.
  unfold playing, ts0_jouer. cbv zeta. generalize (Z.to_nat BSP_TS0_RING). intros N.
  destruct (g_ts0_offset (s_bsp s)) as [off|].
  - case_if; [|done]. by intros [= ->].
  - destruct (first_unplayed N _ _) as [j|]; [|done]. by intros [= ->].
Qed.

(** C11: a synchronisation burst in its window reaches the DSP and sets the
    clock.  When the burst a tick plays carries the synchronisation training
    sequence, no dedicated channel is set, no calibration of the transceiver
    holds the clock, no earlier burst is kept, and the DSP has armed its window
    of 190 to 192 samples, the API page of the window receives the words that
    still wait in the receiver followed by the block of the burst (21 silent
    samples, its 148 samples, silence to the length of the window), cut at the
    end of the page; with nothing waiting it is the block itself.  Nothing else
    of the API memory changes, the completion line is raised and the window
    closes; from that tick on, tick [tick + k] stands for frame [f + k] of the
    base station, modulo the hyperframe. *)
Theorem sb_window_sets_clock v s api n tick i :
  window s api n → 190 ≤ n ≤ 192 → g_dedie_tn (s_bsp s) ≤ 0 → g_trx_cale (s_bsp s) = false →
  filled (s_bsp s) → none_kept (s_bsp s) → playing (s_bsp s) tick = Some i →
  let bits := ts0_bits (ts0_at (s_bsp s) i) in
  let f := ts0_fn (ts0_at (s_bsp s) i) in
  bsp_ts0_est_sb bits = true →
  let s' := bsp_ts0_service v s tick in
  windowed (s_w s) api (taken (s_w s) (sb_block n f bits)) (s_w s') ∧ clock_at (s_bsp s') tick f ∧
  (rif_queue (w_rif (s_w s)) = [] → taken (s_w s) (sb_block n f bits) = sb_block n f bits).
Proof.
  intros Hw Hn Hd Ht Hf Hk Hp bits f Hsb s'. unfold s'. rewrite service_none_kept by done.
  match goal with |- context [ts0_jouer v ?x tick] => set (s0 := x) end.
  assert (Hp0 : playing (s_bsp s0) tick = Some i) by (rewrite <- Hp; apply playing_tick).
  destruct (jouer_offset v s0 tick i Hp0) as [E1 E2].
  assert (W0 : window s0 api n) by (destruct Hw; by constructor).
  destruct (livrer_sb_window v s0 api n tick i W0 Hn Hd Ht Hsb) as [A B]. split; [|split].
  - rewrite E1. exact A.
  - apply clock_of_offset. rewrite E2. exact B.
  - intros Hq. apply (taken_all s api n); [done|done|]. by apply sb_block_len.
Qed.

(** ** A synchronisation burst that came before its window *)
Lemma window_flush s api n : window s api n → window (flush s) api n.
Proof.
  intros [[h1 h2 h3 h4 h5 h6 h7 h8 h9] Hq Hm Hl Hd]. constructor; try done; [|by apply rx_room_empty].
  constructor; try done. destruct h1 as [r1 r2 r3]. constructor; cbn; lia.
Qed.

(** C12: a synchronisation burst kept for its window is delivered once, at the
    latest one tick later.  When a tick finds the window armed and a burst kept
    from its own or the previous tick, the page receives that burst instead of
    the burst of the frame, the burst counts as delivered and the clock stands
    on its frame at this tick; an older one is dropped, and the tick plays as if
    nothing had been kept. *)
Theorem kept_sb_one_tick v s api n tick t0 f bits :
  window s api n → 190 ≤ n ≤ 192 → g_trx_cale (s_bsp s) = false → filled (s_bsp s) →
  g_dernier_sch (s_bsp s) = mkSch f t0 bits false true →
  let s' := bsp_ts0_service v s tick in
  (i32 (tick - t0) ≤ 1 →
   windowed (s_w s) api (sb_block n f bits) (s_w s') ∧ clock_at (s_bsp s') tick f ∧ none_kept (s_bsp s')) ∧
  (1 < i32 (tick - t0) → s' = bsp_ts0_service v (s <| s_bsp := s_bsp s <| g_dernier_sch := mkSch f t0 bits false false |> |>) tick).
Proof.
  intros Hw Hn Ht [Hg Ha] Hs. split; intros Hi.
  - unfold bsp_ts0_service. rewrite bool_decide_true, Ha by done. cbn [negb orb]. cbv zeta.
    match goal with |- context [calypso_bsp_sb_retenter ?x] => set (s0 := x) end.
    assert (W0 : window s0 api n) by (destruct Hw; by constructor). destruct (window_one_shot _ _ _ W0) as [Ho Hr].
    unfold calypso_bsp_sb_retenter. cbv zeta. change (g_dernier_sch (s_bsp s0)) with (g_dernier_sch (s_bsp s)). rewrite Hs.
    cbn [sch_valide livre_sb sch_tick sch_bits sch_fn negb orb]. change (g_tick_courant (s_bsp s0)) with tick.
    rewrite (proj2 (Z.ltb_ge _ _) Hi), Ho, Hr. cbn [negb orb]. unfold sb_cadrer. rewrite Ho, (wi_len _ _ _ W0). cbn [negb]. cbv zeta.
    change (g_dernier_sch (s_bsp s0)) with (g_dernier_sch (s_bsp s)). rewrite Hs. cbn [sch_fn].
    rewrite (proj2 (Z.ltb_ge n 190)), (proj2 (Z.ltb_ge 512 n)), (proj2 (Z.ltb_ge (n - 148) 21)) by lia.
    destruct (sb_cadre n f bits Hn) as [Ec Lc].
    destruct (rx_burst_window (flush s0) api n f _ (window_flush _ _ _ W0) Lc ltac:(lia)) as (A & Eb & _). rewrite Ec in *.
    fold (sb_block n f bits) in A. rewrite (taken_all _ _ _ _ (window_flush _ _ _ W0)) in A by (done || by apply sb_block_len).
    set (s1 := calypso_bsp_rx_burst (flush s0) 0 f _) in *. clearbody s1. destruct (base_offset _ _ Eb) as [_ Et].
    pose proof (f_equal g_tick_courant Eb) as Ek. change (g_tick_courant (s_bsp s1) = tick) in Ek.
    split; [destruct A as [a1 a2 a3 a4]; constructor; [exact a1|exact a2|exact a3|exact a4]|]. cbn [s_bsp count_written update_field g_tick_courant]. rewrite Ek. split.
    + apply clock_of_offset, sb_calage_offset. exact (eq_trans Et Ht).
    + right. unfold sb_calage. cbv zeta. by repeat case_if.
  - rewrite (service_none_kept v (s <| s_bsp := _ |>)) by (done || by left).
    unfold bsp_ts0_service. rewrite bool_decide_true, Ha by done. cbn [negb orb]. cbv zeta.
    match goal with |- context [calypso_bsp_sb_retenter ?x] => set (s0 := x) end.
    unfold calypso_bsp_sb_retenter. cbv zeta. change (g_dernier_sch (s_bsp s0)) with (g_dernier_sch (s_bsp s)). rewrite Hs.
    cbn [sch_valide livre_sb sch_tick negb orb]. change (g_tick_courant (s_bsp s0)) with tick.
    rewrite (proj2 (Z.ltb_lt _ _) Hi). f_equal.
Qed.

End window.

(** ** Frame 12 with the synchronisation burst, at tick 100

    Four words of the frequency search wait in the receiver. *)
#[local] Existing Instance hard_radio.

Definition demo_sb : list Z := replicate 42 0 ++ bsp_train_sb ++ replicate 42 0.
Definition demo_bsp : bsp := bsp_trxd_readable bsp_init ([0; 0; 0; 0; 12; 60; 0; 0] ++ demo_sb).
Definition demo_window : world :=
  mkWorld (rif_append rif_init [1; 2; 3; 4] <| spcr := clr (spcr rif_init) SPCR_RDMA_MASK |>)
    (set_ch rhea_dma_init 1 (mkChan 0 0 32 764 (Z.lor CTRL_RESET (Z.lor CTRL_ENABLE CTRL_ONE_SHOT)) 0))
    (c54x_zero <| api_ram := Some ∅ |> <| sp := 0x5AC8 |>).
Definition demo_at (b : bsp) (w : world) : st := mkSt b w (replicate 314 0) true.

Lemma demo_window_ok b : daram_addr b ≠ 0 → window (demo_at b demo_window) ∅ 191.
Proof.
  intros Hd. constructor; [|unfold rx_room; apply Nat.leb_le; vm_compute; reflexivity|done..].
  constructor; try reflexivity; [|split; discriminate].
  constructor; apply Nat.leb_le; vm_compute; reflexivity.
Qed.

Definition demo_armed : st := demo_at demo_bsp demo_window.

Lemma sb_window_sets_clock_witness :
  let e := ts0_at (s_bsp demo_armed) 12 in
  let s' := bsp_ts0_service env_default demo_armed 100 in
  e = mkTs0 12 demo_sb true false ∧
  windowed (s_w demo_armed) ∅ (taken (s_w demo_armed) (sb_block 191 (ts0_fn e) (ts0_bits e))) (s_w s') ∧
  clock_at (s_bsp s') 100 (ts0_fn e) ∧
  (rif_queue (w_rif (s_w demo_armed)) = [] → taken (s_w demo_armed) (sb_block 191 (ts0_fn e) (ts0_bits e)) = sb_block 191 (ts0_fn e) (ts0_bits e)).
Proof.
  split; [vm_compute; reflexivity|].
  apply (sb_window_sets_clock env_default demo_armed ∅ 191 100 12).
  - apply demo_window_ok. vm_compute. discriminate.
  - lia.
  - vm_compute. discriminate.
  - vm_compute. reflexivity.
  - split; [apply (bool_decide_unpack _); vm_compute; exact I|vm_compute; reflexivity].
  - left. vm_compute. reflexivity.
  - vm_compute. reflexivity.
  - vm_compute. reflexivity.
Defined.

(** Played in the continuous stream at tick 100, delivered in the window at 101. *)
Definition demo_kept : bsp := s_bsp (bsp_ts0_service env_default (demo_at demo_bsp demo_world) 100).

Lemma kept_sb_one_tick_witness :
  let s := demo_at demo_kept demo_window in
  let s1 := bsp_ts0_service env_default s 101 in
  windowed (s_w s) ∅ (sb_block 191 12 demo_sb) (s_w s1) ∧ clock_at (s_bsp s1) 101 12 ∧
  bsp_ts0_service env_default s 102 =
    bsp_ts0_service env_default (s <| s_bsp := s_bsp s <| g_dernier_sch := mkSch 12 100 demo_sb false false |> |>) 102.
Proof.
  intros s s1.
  assert (W : window s ∅ 191) by (apply demo_window_ok; vm_compute; discriminate).
  assert (Ht : g_trx_cale (s_bsp s) = false) by (vm_compute; reflexivity).
  assert (Hf : filled (s_bsp s)) by (split; [apply (bool_decide_unpack _); vm_compute; exact I|vm_compute; reflexivity]).
  assert (Hs : g_dernier_sch (s_bsp s) = mkSch 12 100 demo_sb false true) by (vm_compute; reflexivity).
  destruct (kept_sb_one_tick env_default s ∅ 191 101 100 12 demo_sb W ltac:(lia) Ht Hf Hs) as [T1 _].
  destruct (kept_sb_one_tick env_default s ∅ 191 102 100 12 demo_sb W ltac:(lia) Ht Hf Hs) as [_ T2].
  destruct (T1 ltac:(vm_compute; discriminate)) as (A & B & _). split; [exact A|]. split; [exact B|]. apply T2. vm_compute. reflexivity.
Defined.

End BspWindow.
