(* ===== verification/BspTrxd.v ===== *)
(** * The wire of the BSP: downlink datagrams and the uplink
    ([hw/arm/calypso/l1-dsp/calypso_bsp.c])

    The datagrams the bridge sends and the stores they fill; the datagram of an
    uplink burst; the access burst, with the channel coder of libosmocore as a
    parameter; and, when the instance is the radio of a base station, the bits
    of an uplink burst written into the result pages of the DSP.  The parity of
    the result page has its default: both pages are written. *)
From stdpp Require Import gmap.
From S2P Require Import Prelude C54xState BspStore BspStream.

Module BspTrxd.
Import C54xState BspStore BspStream.

(** ** Uplink datagrams *)
Definition calypso_bsp_send_ul (tn f : Z) (bits : list Z) : list Z :=
  [Z.land tn 7; Z.land (Z.shiftr f 24) 0xff; Z.land (Z.shiftr f 16) 0xff; Z.land (Z.shiftr f 8) 0xff; Z.land f 0xff; 60; 0; 0]
  ++ ((λ i, if rd bits i =? 0 then u8 (-127) else 127) <$> zseq 0 148).

(** The burst the DSP left in its transmit buffer, unless it is all zero. *)
Definition calypso_bsp_tx_burst (s : C54xState) : bool * list Z :=
  let bits := (λ i, Z.land (mget (data s) (0x0900 + i)) 1) <$> zseq 0 148 in
  (existsb (λ b, negb (b =? 0)) bits, bits).

Definition D_RACH_DEFAULT_OFFSET : Z := 0x023A.

Section rach.
  (** [gsm0503_rach_ext_encode(bits, ra, bsic, false)]: the 148 bits, or an
      error. *)
  Context (gsm0503_rach_ext_encode : Z → Z → option (list Z)).
  (** CALYPSO_RACH_FORCE_BSIC. *)
  Context (rach_force_bsic : option Z).

Definition calypso_bsp_tx_rach_burst (s : C54xState) : option (list Z) :=
  let d_rach := mget (data s) (0x0800 + D_RACH_DEFAULT_OFFSET) in
  if d_rach =? 0 then None
  else
    let uic_or_bsic := Z.shiftr (Z.land d_rach 0xFF) 2 in
    let ra := Z.land (Z.shiftr d_rach 8) 0xFF in
    gsm0503_rach_ext_encode ra (default uic_or_bsic rach_force_bsic).

Definition calypso_bsp_send_rach_ra (ra bsic f tn : Z) : option (list Z) :=
  match gsm0503_rach_ext_encode ra (default bsic rach_force_bsic) with
  | Some bits => Some (calypso_bsp_send_ul tn f bits)
  | None => None
  end.
End rach.

(** ** The result page of the base-station firmware *)

(** The place of bit [i] of a result page in the burst and in its word. *)
Definition ul_pos (i : Z) : Z := if i <? 57 then 3 + i else if i <? 114 then 88 + (i - 57) else if i =? 114 then 87 else 60.
Definition ul_sh (i : Z) : Z := Z.shiftl (3 - Z.land i 3) 2.
Definition ul_cell (a i : Z) : Z := a + 5 + Z.shiftr i 2.

(** [(d[5 + (i >> 2)] >> sh) & 8], against the burst. *)
Definition ul_match (m : gmap Z Z) (a : Z) (bits : list Z) (i : Z) : bool :=
  Bool.eqb (has (Z.shiftr (mget m (ul_cell a i)) (ul_sh i)) 8) (has (rd bits (ul_pos i)) 1).

Definition trx_ul_compter (m : gmap Z Z) (a : Z) (bits : list Z) : Z :=
  fold_left (λ j i, if ul_match m a bits i then j + 1 else j) (zseq 0 116) 0.

(** One bit: its nibble is all ones or all zeros. *)
Definition ul_put (m : gmap Z Z) (a : Z) (bits : list Z) (i : Z) : gmap Z Z :=
  let sh := ul_sh i in
  <[ul_cell a i := u16 (Z.lor (Z.land (mget m (ul_cell a i)) (Z.lnot (Z.shiftl 0xf sh)))
                              (Z.shiftl (if has (rd bits (ul_pos i)) 1 then 0xf else 0x0) sh))]> m.

Definition trx_ul_ecrire (m : gmap Z Z) (a : Z) (bits : list Z) : gmap Z Z :=
  let m := fold_left (λ m i, ul_put m a bits i) (zseq 0 116) m in
  let m := <[a := 3]> m in
  if mget m (a + 3) <=? 0x1000 then <[a + 2 := 0]> (<[a + 1 := 0x1530]> (<[a + 3 := 0x4000]> m)) else m.

Definition ul_page (pg : Z) : Z := if pg =? 0 then 0x2000 else 0x2200.

(** The page of timeslot 0: only a normal-burst command is answered. *)
Definition ul_ts0 (m : gmap Z Z) (bits : list Z) (pg : Z) : gmap Z Z * bool :=
  let db := ul_page pg in
  if negb (mget m (db + 16) =? 2) then (m, false) else (trx_ul_ecrire m (db + 34 + 32) bits, true).

Definition ul_ts1 (m : gmap Z Z) (bits : list Z) (pg : Z) : gmap Z Z :=
  let db := ul_page pg in
  let m := fold_left (λ m k, <[db + 34 + 72 + k := 0]> m) (zseq 0 40) m in
  <[db + 16 + 2 * 2 := 2]> (trx_ul_ecrire m (db + 34 + 72) bits).

Definition clear_ul (b : bsp) : bsp :=
  b <| g_trx_ul := mkEntry (e_fn (g_trx_ul b)) (e_bits (g_trx_ul b)) false |>.

(** [presents &= ~1] of entry [i]. *)
Definition drop_ts1 (b : bsp) (i : Z) : bsp :=
  b <| g_autres := (λ m, alter (λ e, mkMulti (mu_fn e) (mu_bits e) (Z.ldiff (presents e) 1)) i m) <$> g_autres b |>.

Definition calypso_bsp_trx_ul_prothese (b : bsp) (m : gmap Z Z) (tick : Z) : bool * bsp * gmap Z Z :=
  if negb (g_trx_cale b) then (false, b, m)
  else
    let u := g_trx_ul b in
    let d := i32 (tick - g_trx_ul_tick b) in
    let '(fait, b, m) :=
      if e_valid u && (d =? 1) then
        let '(m, f0) := ul_ts0 m (e_bits u) 0 in
        let '(m, f1) := ul_ts0 m (e_bits u) 1 in
        (f0 || f1, clear_ul b, m)
      else if e_valid u && (1 <? d) then (false, clear_ul b, m)
      else (false, b, m) in
    match g_autres b, g_ts0_offset b with
    | Some _, Some off =>
      let w := frame_of (u32 (tick - 1)) off in
      match bsp_autres_bits b w 1 with
      | Some bits => (true, drop_ts1 b (w mod BSP_AUTRES_RING), ul_ts1 (ul_ts1 m bits 0) bits 1)
      | None => (fait, b, m)
      end
    | _, _ => (fait, b, m)
    end.

(** ** Downlink datagrams and the stores *)

(** A datagram of the bridge: a burst of the base station, or the copy of an
    uplink burst. *)
Record msg := mkMsg { m_ul : bool; m_tn : Z; m_fn : Z; m_att : Z; m_bits : list Z }.
Definition msg_ok (m : msg) : Prop := 0 ≤ m_tn m < 8 ∧ 0 ≤ m_fn m < 4294967296 ∧ length (m_bits m) = 148%nat.
Definition encode (m : msg) : list Z :=
  [m_tn m; m_fn m / 16777216; m_fn m / 65536 mod 256; m_fn m / 256 mod 256; m_fn m mod 256; m_att m; if m_ul m then 0xA5 else 0; 0] ++ m_bits m.

Lemma trxd_fn_encode m : msg_ok m → trxd_fn (encode m) = m_fn m.
Proof.
  intros (_ & Hf & _). unfold trxd_fn. set (d := m_fn m mod 256). set (c := m_fn m / 256 mod 256). set (b := m_fn m / 65536 mod 256).
  change (rd (encode m) 1) with (m_fn m / 16777216). change (rd (encode m) 2) with b. change (rd (encode m) 3) with c. change (rd (encode m) 4) with d.
  rewrite <- !Z.lor_assoc.
  assert (Hc : Z.lor (Z.shiftl c 8) d = c * 256 + d) by (apply lor_shiftl_add; [lia|unfold d; mlia]).
  assert (Hb : Z.lor (Z.shiftl b 16) (c * 256 + d) = b * 65536 + (c * 256 + d)) by (apply lor_shiftl_add; [lia|unfold c, d; mlia]).
  rewrite Hc, Hb, lor_shiftl_add by (lia || (unfold b, c, d; mlia)). unfold b, c, d. change (2 ^ 24) with 16777216. mlia.
Qed.

Definition receive (b : bsp) (m : msg) : bsp :=
  if m_ul m then see (air_ul_stocker b (m_fn m) (m_tn m) (m_bits m))
  else
    let b := b <| last_att := m_att m |> in
    if m_tn m =? 0 then bsp_ts0_stocker b (m_fn m) (m_bits m)
    else
      let b := if m_tn m =? g_dedie_tn b then bsp_dedie_stocker b (m_fn m) (m_bits m) else b in
      see (bsp_autres_stocker b (m_fn m) (m_tn m) (m_bits m)).

(** A datagram is stored as what it carries. *)
Lemma trxd_encode b m : msg_ok m → bsp_trxd_readable b (encode m) = receive b m.
Proof.
  intros Hm. pose proof Hm as (Ht & _ & Hl). unfold bsp_trxd_readable.
  assert (Lz : zlen (encode m) = 156) by (unfold zlen, encode; rewrite length_app, Hl; done).
  rewrite (take_ge (encode m)) by (unfold zlen in Lz; lia). cbv zeta. rewrite Lz, (trxd_fn_encode m Hm).
  change (rd (encode m) 0) with (m_tn m). change (rd (encode m) 5) with (m_att m). change (rd (encode m) 6) with (if m_ul m then 0xA5 else 0).
  assert (Et : Z.land (m_tn m) 7 = m_tn m) by (rewrite (Z.land_ones _ 3 ltac:(lia)); apply Z.mod_small; cbn; lia).
  assert (Eb : take 148 (drop 8 (encode m)) = m_bits m) by (unfold encode; cbn [drop app]; apply take_ge; lia).
  rewrite Et, Eb. cbn [Z.ltb Z.leb Z.compare Z.add Pos.add Pos.compare Pos.compare_cont andb]. unfold receive. destruct (m_ul m); [done|].
  change (0 =? 0xA5) with false. change (156 - 8) with 148. change (148 <? 148) with false. change (148 <=? 0) with false. change (148 =? 148) with true.
  rewrite !andb_true_r. cbv zeta. destruct (Z.eqb_spec (m_tn m) 0) as [E0|E0]; [done|].
  rewrite (proj2 (Z.leb_le 1 _)), (proj2 (Z.leb_le _ 7)) by lia. done.
Qed.


(** The bursts of the base station in a sequence of datagrams: timeslot 0, and
    the others. *)
Definition ts0_of (m : msg) : list (Z * list Z) := if negb (m_ul m) && (m_tn m =? 0) then [(m_fn m, m_bits m)] else [].
Definition autres_of (m : msg) : list (Z * Z * list Z) :=
  if negb (m_ul m) && negb (m_tn m =? 0) then [((m_fn m, m_tn m), m_bits m)] else [].

Lemma receive_ts0 b m f : ts0_lookup (receive b m) f = default (ts0_lookup b f) (hist (FrameStore0 := ts0_store) (ts0_of m) f).
Proof.
  unfold receive, ts0_of. destruct (m_ul m); [done|]. cbn [negb andb]. cbv zeta. destruct (Z.eqb_spec (m_tn m) 0) as [E|E].
  - assert (K : Forall (λ x : Z * list Z, fs_key (FrameStore := ts0_store) x.1) [(m_fn m, m_bits m)]) by (by constructor).
    pose proof (get_puts (FrameStore0 := ts0_store) (b <| last_att := m_att m |>) [(m_fn m, m_bits m)] f I K I) as G.
    cbn [puts foldr fst snd fs_get fs_put ts0_store] in G. exact G.
  - cbn [hist default from_option]. unfold bsp_autres_stocker, bsp_dedie_stocker. repeat case_if; try done; by case_match.
Qed.

Lemma receive_autres b m k :
  msg_ok m → 1 ≤ k.2 ≤ 7 → multi_ok 7 (default ∅ (g_autres b)) →
  bsp_autres_bits (receive b m) k.1 k.2 = default (bsp_autres_bits b k.1 k.2) (hist (FrameStore0 := autres_store) (autres_of m) k) ∧
  multi_ok 7 (default ∅ (g_autres (receive b m))).
Proof.
  intros (Ht & _ & _) Hk Hok. unfold receive, autres_of. destruct (m_ul m); [done|]. cbn [negb andb]. cbv zeta.
  destruct (Z.eqb_spec (m_tn m) 0) as [E|E]; cbn [negb].
  - assert (Ea : g_autres (bsp_ts0_stocker (b <| last_att := m_att m |>) (m_fn m) (m_bits m)) = g_autres b) by (unfold bsp_ts0_stocker; cbv zeta; repeat case_if; done).
    cbn [hist default from_option]. unfold bsp_autres_bits. by rewrite Ea.
  - set (b1 := if _ =? _ then _ else _).
    assert (Ea : g_autres b1 = g_autres b) by (unfold b1, bsp_dedie_stocker; case_if; [|done]; by case_match). clearbody b1.
    rewrite <- Ea in Hok. split.
    + assert (Eb : bsp_autres_bits b1 k.1 k.2 = bsp_autres_bits b k.1 k.2) by (unfold bsp_autres_bits; by rewrite Ea).
      rewrite <- Eb. apply (get_puts (FrameStore0 := autres_store) b1 [((m_fn m, m_tn m), m_bits m)] k Hok); [|exact Hk].
      constructor; [cbn; lia|constructor].
    + apply (fs_put_ok (FrameStore := autres_store) b1 (m_fn m, m_tn m) (m_bits m) Hok). cbn. lia.
Qed.

Lemma hist_app {S K : Type} `{EqDecision K} {N : Z} `{!FrameStore S K N} (l1 l2 : list (K * list Z)) k :
  hist (S := S) (N := N) (l1 ++ l2) k = match hist (S := S) (N := N) l1 k with Some x => Some x | None => hist (S := S) (N := N) l2 k end.
Proof. induction l1 as [|[k' b] l1 IH]; cbn [app hist]; [done|]. by repeat case_decide. Qed.

(** C13: the stores hold the bursts of the base station.  After any sequence of
    datagrams, the burst of timeslot 0 found for a frame is that of the last
    datagram of that frame, unless a later datagram of a frame congruent modulo
    the size of the store came; the same for every other timeslot, timeslots of
    the same frame not disturbing each other; and copies of uplink bursts never
    enter either store. *)
Theorem datagrams_fill_stores b ms :
  Forall msg_ok ms → multi_ok 7 (default ∅ (g_autres b)) →
  let b' := fold_left (λ b m, bsp_trxd_readable b (encode m)) ms b in
  (∀ f, ts0_lookup b' f = default (ts0_lookup b f) (hist (FrameStore0 := ts0_store) (flat_map ts0_of (rev ms)) f)) ∧
  (∀ k, 1 ≤ k.2 ≤ 7 →
     bsp_autres_bits b' k.1 k.2 =
       default (bsp_autres_bits b k.1 k.2) (hist (FrameStore0 := autres_store) (flat_map autres_of (rev ms)) k)).
Proof.
  intros Hms Hb b'.
  assert (G : (∀ f, ts0_lookup b' f = default (ts0_lookup b f) (hist (FrameStore0 := ts0_store) (flat_map ts0_of (rev ms)) f)) ∧
    (∀ k, 1 ≤ k.2 ≤ 7 → bsp_autres_bits b' k.1 k.2 =
       default (bsp_autres_bits b k.1 k.2) (hist (FrameStore0 := autres_store) (flat_map autres_of (rev ms)) k)) ∧
    multi_ok 7 (default ∅ (g_autres b'))); [|by destruct G as (? & ? & _)].
  unfold b'. clear b'. induction ms as [|m ms IH] using rev_ind; [done|].
  apply Forall_app in Hms as [Hms Hm%Forall_cons_1]. destruct Hm as [Hm _]. destruct (IH Hms) as (I1 & I2 & I3).
  rewrite fold_left_app, rev_app_distr. cbn [fold_left rev app flat_map]. set (b1 := fold_left _ ms b) in *. clearbody b1.
  rewrite (trxd_encode b1 m Hm). split; [|split].
  - intros f. rewrite receive_ts0, I1, hist_app. by destruct (hist (ts0_of m) f).
  - intros k Hk. destruct (receive_autres b1 m k Hm Hk I3) as [-> _]. rewrite (I2 k Hk), hist_app. by destruct (hist (autres_of m) k).
  - by destruct (receive_autres b1 m (0, 1) Hm ltac:(cbn; lia) I3) as [_ ?].
Qed.

(** Frame 5 twice on timeslot 0, its timeslot 3, an uplink copy, and frame 5 plus
    the size of the store. *)
Definition demo_ms : list msg :=
  [mkMsg false 0 5 0 (replicate 148 1); mkMsg false 3 5 0 (replicate 148 2); mkMsg true 0 5 0 (replicate 148 3);
   mkMsg false 0 5 0 (replicate 148 4); mkMsg false 0 262149 0 (replicate 148 5)].

Lemma datagrams_fill_stores_witness :
  let b' n := fold_left (λ b m, bsp_trxd_readable b (encode m)) (take n demo_ms) bsp_init in
  ts0_lookup (b' 4%nat) 5 = Some (replicate 148 4) ∧ bsp_autres_bits (b' 4%nat) 5 3 = Some (replicate 148 2) ∧
  ts0_lookup (b' 5%nat) 5 = None ∧ ts0_lookup (b' 5%nat) 262149 = Some (replicate 148 5).
Proof.
  assert (H : ∀ n, Forall msg_ok (take n demo_ms)).
  { intros n. apply Forall_take. repeat constructor; cbn; lia. }
  assert (H0 : multi_ok 7 (default ∅ (g_autres bsp_init))) by (intros i e Hi; change ((∅ : gmap Z multi_entry) !! i = Some e) in Hi; by rewrite lookup_empty in Hi).
  intros b'. destruct (datagrams_fill_stores bsp_init (take 4 demo_ms) (H _) H0) as [A4 B4].
  destruct (datagrams_fill_stores bsp_init (take 5 demo_ms) (H _) H0) as [A5 _].
  split; [etrans; [exact (A4 5)|vm_compute; reflexivity]|]. split; [etrans; [exact (B4 (5, 3) ltac:(cbn; lia))|vm_compute; reflexivity]|].
  split; [etrans; [exact (A5 5)|vm_compute; reflexivity]|etrans; [exact (A5 262149)|vm_compute; reflexivity]].
Defined.

(** ** The uplink *)

(** The header of an uplink datagram is read back as it was written, and every
    bit is a full-scale soft bit of its sign. *)
Lemma send_ul_roundtrip tn f bits :
  0 ≤ tn < 8 → 0 ≤ f < 4294967296 →
  let pkt := calypso_bsp_send_ul tn f bits in
  zlen pkt = 156 ∧ rd pkt 0 = tn ∧ trxd_fn pkt = f ∧
  ∀ i, 0 ≤ i < 148 → rd pkt (8 + i) = if rd bits i =? 0 then 129 else 127.
Proof.
  intros Ht Hf pkt.
  assert (L : ∀ x k, Z.land (Z.shiftr x k) 0xff = Z.shiftr x k mod 256) by (intros; exact (Z.land_ones _ 8 ltac:(lia))).
  split; [unfold zlen, pkt, calypso_bsp_send_ul; rewrite length_app, length_fmap, length_zseq; done|]. split; [|split].
  - change (rd pkt 0) with (Z.land tn 7). rewrite (Z.land_ones _ 3 ltac:(lia)). apply Z.mod_small. cbn. lia.
  - transitivity (trxd_fn (encode (mkMsg false tn f 60 (replicate 148 0)))); [|by apply trxd_fn_encode].
    unfold trxd_fn. f_equal; [f_equal; [f_equal|]|].
    + change (rd pkt 1) with (Z.land (Z.shiftr f 24) 0xff). rewrite L, Z.shiftr_div_pow2 by lia. f_equal. change (rd (encode _) 1) with (f / 16777216).
      change (2 ^ 24) with 16777216. mlia.
    + change (rd pkt 2) with (Z.land (Z.shiftr f 16) 0xff). rewrite L, Z.shiftr_div_pow2 by lia. done.
    + change (rd pkt 3) with (Z.land (Z.shiftr f 8) 0xff). rewrite L, Z.shiftr_div_pow2 by lia. done.
    + change (rd pkt 4) with (Z.land f 0xff). exact (Z.land_ones f 8 ltac:(lia)).
  - intros i Hi. unfold pkt, calypso_bsp_send_ul.
    match goal with |- rd (?h ++ ?l) _ = _ => change 8 with (zlen h); rewrite (rd_app_r h l) by lia end.
    unfold rd at 1. rewrite list_lookup_fmap, lookup_zseq by lia. cbn. by replace (Z.of_nat (Z.to_nat i)) with i by lia.
Qed.

(** The firmware packs the access burst as [bsic << 2 | ra << 8]: it is sent as
    such, except for information 0 in a cell of colour code 0, which is taken
    for a word not written yet. *)
Lemma rach_unpacked enc s ra bsic :
  0 ≤ ra < 256 → 0 ≤ bsic < 64 →
  mget (data s) (0x0800 + D_RACH_DEFAULT_OFFSET) = Z.lor (Z.shiftl bsic 2) (Z.shiftl ra 8) →
  calypso_bsp_tx_rach_burst enc None s = if (ra =? 0) && (bsic =? 0) then None else enc ra bsic.
Proof.
  intros Hr Hb Hd. unfold calypso_bsp_tx_rach_burst. rewrite Hd. cbv zeta.
  assert (E : Z.lor (Z.shiftl bsic 2) (Z.shiftl ra 8) = ra * 256 + bsic * 4).
  { rewrite Z.lor_comm, lor_shiftl_add by (rewrite ?Z.shiftl_mul_pow2; cbn; lia). rewrite Z.shiftl_mul_pow2 by lia. cbn. lia. }
  rewrite E. destruct ((ra =? 0) && (bsic =? 0)) eqn:E0.
  - apply andb_true_iff in E0 as [->%Z.eqb_eq ->%Z.eqb_eq]. done.
  - rewrite (proj2 (Z.eqb_neq _ 0)) by (destruct (Z.eqb_spec ra 0), (Z.eqb_spec bsic 0); try discriminate; lia). cbn [default from_option id]. f_equal.
    + rewrite Z.shiftr_div_pow2 by lia. rewrite (Z.land_ones _ 8 ltac:(lia)). change (2 ^ 8) with 256. mlia.
    + rewrite (Z.land_ones _ 8 ltac:(lia)), Z.shiftr_div_pow2 by lia. change (2 ^ 8) with 256. change (2 ^ 2) with 4. mlia.
Qed.

(** The bit of place [i] of a page, as the firmware of the base station reads it. *)
Definition ul_bit (m : gmap Z Z) (a i : Z) : bool := has (Z.shiftr (mget m (ul_cell a i)) (ul_sh i)) 8.

Lemma ul_bit_testbit m a i : 0 ≤ i → ul_bit m a i = Z.testbit (mget m (ul_cell a i)) (ul_sh i + 3) ∧ 0 ≤ ul_sh i ≤ 12.
Proof.
  intros Hi. assert (Hs : 0 ≤ ul_sh i ≤ 12).
  { unfold ul_sh. rewrite (Z.land_ones _ 2 ltac:(lia)), Z.shiftl_mul_pow2 by lia. cbn. mlia. }
  split; [|done]. unfold ul_bit. change 8 with (Z.shiftl 1 3). rewrite has_bit by lia. rewrite Z.shiftr_spec by lia. f_equal. lia.
Qed.

Lemma ul_put_bit m a bits i j :
  0 ≤ i < 116 → 0 ≤ j < 116 →
  ul_bit (ul_put m a bits i) a j = if j =? i then has (rd bits (ul_pos i)) 1 else ul_bit m a j.
Proof.
  intros Hi Hj. destruct (ul_bit_testbit (ul_put m a bits i) a j ltac:(lia)) as [-> Hs]. destruct (ul_bit_testbit m a j ltac:(lia)) as [-> _].
  destruct (ul_bit_testbit m a i ltac:(lia)) as [_ Hsi].
  unfold ul_put. rewrite mget_insert.
  assert (Hc : ul_cell a j = ul_cell a i ↔ j / 4 = i / 4) by (unfold ul_cell; rewrite !Z.shiftr_div_pow2 by lia; change (2 ^ 2) with 4; lia).
  assert (Hm : ∀ k, ul_sh k = 12 - 4 * (k mod 4)) by (intros k; unfold ul_sh; rewrite (Z.land_ones _ 2 ltac:(lia)), Z.shiftl_mul_pow2 by lia; change (2 ^ 2) with 4; lia).
  destruct (Z.eqb_spec (ul_cell a j) (ul_cell a i)) as [E|E].
  - apply Hc in E. unfold u16. change 65536 with (2 ^ 16). rewrite Z.mod_pow2_bits_low by lia.
    rewrite Z.lor_spec, Z.land_spec, Z.lnot_spec, !Z.shiftl_spec by lia. destruct (Z.eqb_spec j i) as [->|Hne].
    + replace (ul_sh i + 3 - ul_sh i) with 3 by lia. change (Z.testbit 0xf 3) with true. rewrite andb_false_r. cbn [orb].
      by destruct (has (rd bits (ul_pos i)) 1).
    + assert (Hd : ul_sh j + 3 - ul_sh i < 0 ∨ 4 ≤ ul_sh j + 3 - ul_sh i) by (rewrite !Hm; mlia).
      assert (H0 : ∀ v, v = 0xf ∨ v = 0 → Z.testbit v (ul_sh j + 3 - ul_sh i) = false).
      { intros v [-> | ->]; [|apply Z.bits_0]. destruct Hd; [by apply Z.testbit_neg_r|]. apply Z.bits_above_log2; [lia|]. cbn. lia. }
      rewrite (H0 0xf (or_introl eq_refl)), (H0 (if has _ 1 then 0xf else 0)) by (destruct (has _ 1); tauto). cbn [negb]. rewrite orb_false_r, andb_true_r.
      by rewrite (proj2 Hc E).
  - destruct (Z.eqb_spec j i) as [->|_]; [by destruct E|done].
Qed.

(** The cells of the bits of a page. *)
Lemma ul_put_other m a bits i c : 0 ≤ i < 116 → c < a + 5 ∨ a + 34 ≤ c → mget (ul_put m a bits i) c = mget m c.
Proof.
  intros Hi Hc. unfold ul_put. rewrite mget_insert, (proj2 (Z.eqb_neq _ _)); [done|].
  unfold ul_cell. rewrite Z.shiftr_div_pow2 by lia. change (2 ^ 2) with 4. mlia.
Qed.

Lemma ul_puts m a bits n :
  (n ≤ 116)%nat →
  let m' := fold_left (λ m i, ul_put m a bits i) (zseq 0 n) m in
  (∀ j, 0 ≤ j < 116 → ul_bit m' a j = if j <? Z.of_nat n then has (rd bits (ul_pos j)) 1 else ul_bit m a j) ∧
  (∀ c, c < a + 5 ∨ a + 34 ≤ c → mget m' c = mget m c).
Proof.
  induction n as [|n IH]; intros Hn.
  - split; [|done]. intros j Hj. cbn [zseq seq fmap list_fmap fold_left]. by rewrite (proj2 (Z.ltb_ge _ _)) by lia.
  - rewrite zseq_S, fold_left_app. cbn [fold_left]. destruct (IH ltac:(lia)) as [I1 I2]. set (m1 := fold_left _ (zseq 0 n) m) in *. clearbody m1. split.
    + intros j Hj. rewrite ul_put_bit by lia. rewrite I1 by done. destruct (Z.eqb_spec j (0 + Z.of_nat n)) as [E|E].
      * subst j. by rewrite (proj2 (Z.ltb_lt _ _)) by lia.
      * destruct (Z.ltb_spec j (Z.of_nat n)), (Z.ltb_spec j (Z.of_nat (S n))); lia || done.
    + intros c Hc. rewrite ul_put_other by lia. by apply I2.
Qed.

(** A written page carries the burst, with a plausible level; nothing else of
    the memory changes. *)
Lemma ecrire_spec m a bits :
  let m' := trx_ul_ecrire m a bits in
  (∀ j, 0 ≤ j < 116 → ul_bit m' a j = has (rd bits (ul_pos j)) 1) ∧ mget m' a = 3 ∧ 0x1000 < mget m' (a + 3) ∧
  (∀ c, c < a ∨ c = a + 4 ∨ a + 34 ≤ c → mget m' c = mget m c).
Proof.
  unfold trx_ul_ecrire. cbv zeta. destruct (ul_puts m a bits 116 ltac:(lia)) as [A B].
  set (m1 := fold_left _ (zseq 0 116) m) in *. clearbody m1.
  set (m2 := if _ <=? _ then _ else _).
  assert (E : ∀ c, mget m2 c = if c =? a then 3 else if mget m1 (a + 3) <=? 0x1000 then (if c =? a + 2 then 0 else if c =? a + 1 then 0x1530 else if c =? a + 3 then 0x4000 else mget m1 c) else mget m1 c).
  { intros c. unfold m2. rewrite (mget_insert m1), (proj2 (Z.eqb_neq (a + 3) a)) by lia. destruct (mget m1 (a + 3) <=? 0x1000); rewrite !mget_insert.
    - destruct (Z.eqb_spec c a); [|done]. by rewrite !(proj2 (Z.eqb_neq c _)) by lia.
    - done. }
  clearbody m2. split_and!.
  - intros j Hj.
    assert (Ec : mget m2 (ul_cell a j) = mget m1 (ul_cell a j)).
    { rewrite E. unfold ul_cell. rewrite Z.shiftr_div_pow2 by lia. change (2 ^ 2) with 4.
      rewrite !(proj2 (Z.eqb_neq _ _)) by mlia. by case_if. }
    unfold ul_bit. rewrite Ec. fold (ul_bit m1 a j). rewrite A by done. by rewrite (proj2 (Z.ltb_lt _ _)) by lia.
  - rewrite E. by rewrite Z.eqb_refl.
  - rewrite E, (proj2 (Z.eqb_neq (a + 3) a)), (proj2 (Z.eqb_neq (a + 3) (a + 2))), (proj2 (Z.eqb_neq (a + 3) (a + 1))), Z.eqb_refl by lia.
    case_if; bool_prop; lia.
  - intros c Hc. rewrite E, !(proj2 (Z.eqb_neq c _)) by lia. rewrite (B c) by lia. by case_if.
Qed.

(** A page of result that answers a normal-burst command. *)
Definition nb_page (m : gmap Z Z) (pg : Z) : Prop := mget m (ul_page pg + 16) = 2.
Definition carries (m : gmap Z Z) (a : Z) (bits : list Z) : Prop :=
  (∀ j, 0 ≤ j < 116 → ul_bit m a j = has (rd bits (ul_pos j)) 1) ∧ mget m a = 3 ∧ 0x1000 < mget m (a + 3).
Definition ul_ts0_at (pg : Z) : Z := ul_page pg + 34 + 32.

Lemma ul_ts0_spec m bits pg :
  let m' := fst (ul_ts0 m bits pg) in
  snd (ul_ts0 m bits pg) = (mget m (ul_page pg + 16) =? 2) ∧ (nb_page m pg → carries m' (ul_ts0_at pg) bits) ∧
  (∀ c, c < ul_ts0_at pg ∨ ul_ts0_at pg + 34 ≤ c → mget m' c = mget m c).
Proof.
  unfold ul_ts0, nb_page. cbv zeta. destruct (Z.eqb_spec (mget m (ul_page pg + 16)) 2) as [E|E]; cbn [negb fst snd]; [|done].
  destruct (ecrire_spec m (ul_ts0_at pg) bits) as (A & B & C & D). split; [done|]. split; [done|].
  intros c Hc. apply D. unfold ul_ts0_at in *. lia.
Qed.

Lemma carries_ext m m' a bits : (∀ c, a ≤ c < a + 34 → mget m' c = mget m c) → carries m a bits → carries m' a bits.
Proof.
  intros E (A & B & C). split_and!; [|by rewrite E by lia..].
  intros j Hj. rewrite <- A by done. unfold ul_bit. rewrite E; [done|]. unfold ul_cell. rewrite Z.shiftr_div_pow2 by lia. change (2 ^ 2) with 4. mlia.
Qed.

(** The burst of timeslot 1 stored for the frame of the previous tick, and its
    area of a page. *)
Definition ts1_frame (b : bsp) (tick : Z) : option Z := frame_of (u32 (tick - 1)) <$> g_ts0_offset b.
Definition ts1_burst (b : bsp) (tick : Z) : option (list Z) := w ← ts1_frame b tick; bsp_autres_bits b w 1.
Definition ul_ts1_at (pg : Z) : Z := ul_page pg + 34 + 72.

Lemma ul_ts1_spec m bits pg :
  let m' := ul_ts1 m bits pg in
  carries m' (ul_ts1_at pg) bits ∧ mget m' (ul_page pg + 20) = 2 ∧
  (∀ c, c < ul_ts1_at pg ∨ ul_ts1_at pg + 40 ≤ c → c ≠ ul_page pg + 20 → mget m' c = mget m c).
Proof.
  unfold ul_ts1. cbv zeta. set (m1 := fold_left _ (zseq 0 40) m). change (ul_page pg + 34 + 72) with (ul_ts1_at pg) in *.
  assert (E1 : ∀ c, c < ul_ts1_at pg ∨ ul_ts1_at pg + 40 ≤ c → mget m1 c = mget m c).
  { unfold m1. assert (G : ∀ l m0 c, (∀ k, k ∈ l → 0 ≤ k < 40) → c < ul_ts1_at pg ∨ ul_ts1_at pg + 40 ≤ c →
      mget (fold_left (λ m k, <[ul_ts1_at pg + k := 0]> m) l m0) c = mget m0 c).
    { induction l as [|k l IH]; intros m0 c Hl Hc; [done|]. cbn [fold_left].
      rewrite IH by (done || (intros; apply Hl; by right)). rewrite mget_insert.
      pose proof (Hl k ltac:(left)). by rewrite (proj2 (Z.eqb_neq _ _)) by lia. }
    intros c Hc. apply G; [|done]. intros k Hk. apply elem_of_zseq in Hk. lia. }
  clearbody m1. destruct (ecrire_spec m1 (ul_ts1_at pg) bits) as (A & B & C & D). set (m2 := trx_ul_ecrire m1 _ bits) in *. clearbody m2.
  change (ul_page pg + 16 + 2 * 2) with (ul_page pg + 16 + 4). replace (ul_page pg + 16 + 4) with (ul_page pg + 20) by lia.
  split_and!.
  - apply (carries_ext m2); [|done]. intros c Hc. rewrite mget_insert. unfold ul_ts1_at in Hc. by rewrite (proj2 (Z.eqb_neq _ _)) by lia.
  - by rewrite mget_insert, Z.eqb_refl.
  - intros c Hc Hne. rewrite mget_insert, (proj2 (Z.eqb_neq _ _) Hne), D by lia. by apply E1.
Qed.

(** Cells that the answers for timeslot 0 and timeslot 1 leave alone. *)
Definition off_ts0 (c : Z) : Prop := ∀ pg, pg = 0 ∨ pg = 1 → c < ul_ts0_at pg ∨ ul_ts0_at pg + 34 ≤ c.
Definition off_ts1 (c : Z) : Prop :=
  ∀ pg, pg = 0 ∨ pg = 1 → (c < ul_ts1_at pg ∨ ul_ts1_at pg + 40 ≤ c) ∧ c ≠ ul_page pg + 20.

Definition ul_due (b : bsp) (tick : Z) : bool := e_valid (g_trx_ul b) && (i32 (tick - g_trx_ul_tick b) =? 1).

(** The part of a call for timeslot 0. *)
Definition ts0_answer (b : bsp) (m : gmap Z Z) (tick : Z) : bool * bsp * gmap Z Z :=
  let u := g_trx_ul b in
  if e_valid u && (i32 (tick - g_trx_ul_tick b) =? 1) then
    let '(m, f0) := ul_ts0 m (e_bits u) 0 in
    let '(m, f1) := ul_ts0 m (e_bits u) 1 in
    (f0 || f1, clear_ul b, m)
  else if e_valid u && (1 <? i32 (tick - g_trx_ul_tick b)) then (false, clear_ul b, m)
  else (false, b, m).

Lemma ts0_answer_spec b m tick :
  let '(_, b1, m1) := ts0_answer b m tick in
  (ul_due b tick = true → ∀ pg, pg = 0 ∨ pg = 1 → nb_page m pg → carries m1 (ul_ts0_at pg) (e_bits (g_trx_ul b))) ∧
  (∀ c, ul_due b tick = false ∨ off_ts0 c → mget m1 c = mget m c) ∧
  (b1 = clear_ul b ∨ (ul_due b tick = false ∧ b1 = b)).
Proof.
  unfold ts0_answer, ul_due. cbv zeta. destruct (e_valid (g_trx_ul b) && (_ =? 1)) eqn:Hd.
  2: { destruct (_ && (1 <? _)); cbv beta iota; (split; [intros [=]|split; [done|auto]]). }
  set (bits := e_bits (g_trx_ul b)).
  destruct (ul_ts0_spec m bits 0) as (_ & A0 & B0). destruct (ul_ts0 m bits 0) as [m0 f0]. cbn [fst] in *.
  destruct (ul_ts0_spec m0 bits 1) as (_ & A1 & B1). destruct (ul_ts0 m0 bits 1) as [m1 f1]. cbn [fst] in *.
  change (ul_ts0_at 0) with 8258 in *. change (ul_ts0_at 1) with 8770 in *. split_and!; [|..|by left].
  - intros _ pg [-> | ->] Hpg.
    + change (ul_ts0_at 0) with 8258. apply (carries_ext m0); [intros c Hx; apply B1; lia|by apply A0].
    + apply A1. unfold nb_page in *. rewrite B0; [done|]. change (ul_page 1 + 16) with 8720. lia.
  - intros c [[=]|Hx]. pose proof (Hx 0 ltac:(tauto)) as H0. pose proof (Hx 1 ltac:(tauto)) as H1.
    change (ul_ts0_at 0) with 8258 in H0. change (ul_ts0_at 1) with 8770 in H1. rewrite B1 by lia. apply B0. lia.
Qed.

Lemma prothese_split b m tick : g_trx_cale b = true →
  calypso_bsp_trx_ul_prothese b m tick =
  let '(f, b1, m1) := ts0_answer b m tick in
  match ts1_burst b tick with
  | Some bits => (true, drop_ts1 b1 (default 0 (ts1_frame b tick) mod BSP_AUTRES_RING), ul_ts1 (ul_ts1 m1 bits 0) bits 1)
  | None => (f, b1, m1)
  end.
Proof.
  intros Hc. unfold calypso_bsp_trx_ul_prothese. rewrite Hc. cbn [negb]. cbv zeta.
  change (if e_valid (g_trx_ul b) && (i32 (tick - g_trx_ul_tick b) =? 1) then _ else _) with (ts0_answer b m tick).
  pose proof (ts0_answer_spec b m tick) as H. destruct (ts0_answer b m tick) as [[f b1] m1]. destruct H as (_ & _ & H).
  assert (g_autres b1 = g_autres b ∧ g_ts0_offset b1 = g_ts0_offset b ∧ ∀ w, bsp_autres_bits b1 w 1 = bsp_autres_bits b w 1) as (-> & -> & E)
    by (destruct H as [-> |[_ ->]]; done).
  unfold ts1_burst, ts1_frame. destruct (g_ts0_offset b) as [off|]; cbn [fmap option_fmap option_map mbind option_bind default];
    [|by destruct (g_autres b)].
  rewrite E. destruct (g_autres b) eqn:Ea; [done|]. by unfold bsp_autres_bits; rewrite Ea.
Qed.

(** A stored burst of timeslot 1 is used once. *)
Lemma drop_ts1_used b w : bsp_autres_bits (drop_ts1 b (w mod BSP_AUTRES_RING)) w 1 = None.
Proof.
  unfold bsp_autres_bits, drop_ts1. cbn [g_autres update_field]. destruct (g_autres b) as [m|]; [|done].
  cbn [fmap option_fmap option_map]. change ((1 <? 1) || (7 <? 1)) with false. cbv iota.
  unfold multi_get. cbv zeta. rewrite lookup_alter_eq. destruct (m !! _) as [e|]; cbn [fmap option_fmap option_map default].
  - cbn [id mu_fn presents]. assert (has (Z.ldiff (presents e) 1) (Z.shiftl 1 (Z.of_nat (Z.to_nat (1 - 1)))) = false) as ->.
    { change (Z.shiftl 1 _) with 1. unfold has. apply negb_false_iff, Z.eqb_eq. apply Z.bits_inj'. intros n _.
      rewrite Z.land_spec, Z.ldiff_spec, Z.bits_0. by destruct (Z.testbit (presents e) n), (Z.testbit 1 n). }
    by rewrite orb_true_r.
  - rewrite (orb_true_r (negb _)). done.
Qed.


(** A burst of alternating bits played at tick 9, with page 1 asking for it, and
    a burst of timeslot 1 stored for frame 40. *)
Definition demo_ts1 : list Z := replicate 148 1.
Definition demo_ul : bsp :=
  bsp_autres_stocker bsp_init 40 1 demo_ts1 <| g_ts0_offset := Some 31 |> <| g_trx_cale := true |> <| g_trx_ul := mkEntry 40 (mjoin (replicate 74 [1; 0])) true |> <| g_trx_ul_tick := 9 |>.
Definition demo_mem : gmap Z Z := {[ 0x2210 := 2 ]}.


End BspTrxd.
